(* ===== verification/_CoqProject ===== *)
-Q . S2P
Prelude.v
Words.v
Bytes.v
State.v
Nodes.v
CStrings.v
Sorting.v
Netfpga.v
Rtable.v
Headers.v
Checksum.v
Packets.v
Iface.v
Arp.v
Icmp.v
Dijkstra.v
Pwospf.v
Nat.v
IfaceCtl.v
Sprint.v
Ip.v
Sping.v
Cli.v
Www.v
Main.v
Card.v
CardDriver.v
CardProbe.v
CardQueue.v
CardTheorems.v
CardWitnesses.v
LockOrder.v
SprintTheorems.v
CliTheorems.v
WwwTheorems.v
Invariant.v
Preservation.v
Reachable.v
Witnesses.v
CliWitnesses.v
RkAddr.v
RouterKit.v
KitWitnesses.v
HostRegs.v
Nf2util.v
DevInfo.v
CNumbers.v
RegProxy.v
ProxyTheorems.v
Download.v
DownloadTheorems.v
RefCli.v
RefCliTheorems.v
HostWitnesses.v
Vns.v
VnsTheorems.v
Startup.v
StartupTheorems.v
VnsWitnesses.v
NatCtl.v
Events.v
SendPkts.v
RegTools.v
ToolWitnesses.v
UserCard.v
UserTheorems.v
