(* ===== verification/Prelude.v ===== *)
(** * The software of the NetFPGA: verification library

    Four groups of programs around one network card are modelled. Paths are
    under src/reference-projects/netfpga/.

    - SCONE (projects/scone/sw) is the control plane of a four-port IP router:
      it keeps the ARP cache, the routing table and the NAT table, speaks ARP,
      ICMP and the link-state protocol PWOSPF, forwards the packets the hardware
      cannot, keeps the tables of a NetFPGA card equal to its own, and is
      operated over a command line and a web server. It is a C program of about
      ten threads that share one [router_state] under one lock per table.
    - The Linux driver of the card (lib/C/kernel).
    - The router kit (projects/router_kit/sw), a C++ daemon that copies the
      tables of Linux into the card.
    - The host libraries and tools: the register library (lib/C/common), the
      register proxy (lib/C/reg_lib), the bitfile downloader (lib/C/download)
      and the command line of the reference router
      (projects/reference_router/sw/cli.c), the register tools
      (lib/C/reg_access, lib/C/tools/nf_info), the packet sender
      (lib/C/tools/send_pkts) and the programs of the buffer sizing router
      (projects/router_buffer_sizing/sw).

    ** How SCONE is modelled

    - Data. The structs of or_data_types.h are the records of State.v, with the
      C names (a prefix per struct). Machine words are [Z] with their
      wrap-around written out ([u8], [u16], [u32] of Words.v); a word in network
      byte order is the number a little-endian host loads. A packet is the list
      of its bytes, a header is an offset into it, and a load or store outside
      the packet has no result (Bytes.v, Headers.v): in the handlers it is the
      crash [OutOfBounds]. A [node] list is the list of its data; Nodes.v models
      the heap of cells and proves that the node operations are the list
      operations.
    - Effects. A handler is a computation of the monad [M] of State.v: it reads
      and changes the [router_state], appends to a trace of events (frames,
      register writes, lock operations, condition variables, replies to a
      socket), asks the environment for the time, a random number, a register
      or the result of the output routine, and may crash: a null dereference, a
      failed assertion, an access outside a buffer or to freed memory, or
      exhausted fuel. Every lock operation of the code is in the trace.
    - Threads. A thread's loop body is a definition ([arp_thread_round],
      [pwospf_hello_round], [dijkstra_round], ...). The handlers are run alone;
      what protects them from each other is the lock discipline, which
      LockOrder.v proves. Reachable.v starts the router from power-on and lets
      the rounds of the threads, the packets and the requests of clients happen
      in any order: what it proves holds in every state that is reached.
    - Operation. A client of the command line is a list of pieces received from
      a socket; the handlers of the commands, their registration and their
      search are those of or_cli.c (Cli.v). The tables they answer with are
      strings of known size in buffers of the C code's size (Sprint.v). A web
      request is received in pieces as well, and run as a command (Www.v).
    - Fuel. Loops over lists are structural. The sorts take the fuel their
      sorting argument gives (the square of the length, Sorting.v), the
      shortest-path loop the number of routers, the flush and the retry of the
      ARP queue the number of entries and of packets, [my_strncat] the length of
      the result; theorems show each is enough. The one loop without a bound is
      NAT's draw of a random port, whose fuel is a parameter: it ends with the
      first acceptable draw ([draws]).
    - The device. Netfpga.v models the tables behind the registers, from the
      Verilog of the card (router_op_lut_regs_non_cntr.v, ip_lpm.v): a write to
      the address register stores the row in the entry registers, and the
      lookup answers with the first row that matches.

    - The runtime. Under the router is the code that gives it interfaces and
      packets: a session with a virtual network server (Vns.v), or the raw
      sockets of the card, with the options and the start-up of the program
      (Startup.v). These are computations of the monad [host W] described below;
      what they call in the router is the class [Subsystem], whose instance
      [router_subsystem] is the router of Main.v. Sockets, streams, files and
      the names of hosts and users are classes too. The build's choice between
      card and virtual host is an argument.
    - Doubles. The moving averages of NAT's maintenance thread are values of an
      abstract type with abstract operations (NatCtl.v).

    ** How the driver is modelled

    The driver gives the kernel four network devices, one per port of the card.
    They share a ring of transmit buffers and one DMA transfer in each
    direction.

    - The state is the [nf2_card_priv] of nf2kernel.h (Card.v). An operation is
      a computation of the monad [K]: what it does to the card and to the kernel
      (register writes, DMA mappings, packets freed and received, locks) is a
      trace, what it reads (registers, results of allocations) is answered by an
      environment, and [None] is an invalid access: the kernel would oops.
    - The operations of the kernel on a card ([driver_op] of CardQueue.v: a
      packet to send, an interrupt, a timeout, opening, closing, a control call)
      come in any order, each run to its end: the code disables interrupts where
      they would interfere. The environment is asked two things, [sane]: memory
      for [skb_pad], and packets no longer than the receive buffer.
    - The size of the ring is a module parameter, any positive number; the one
      loop that is not over a list empties the ring, in as many rounds as
      buffers are in use.

    ** How the router kit is modelled

    The address classes (RkAddr.v) and the daemon (RouterKit.v) are functions
    into [cxx A], a value or the way the program stops. What the kernel answers
    in a round of the loop, the lines of /proc/net and the interfaces, is an
    argument; the register writes are events, replayed on Netfpga.v.

    ** How the host libraries and tools are modelled

    - A tool is a computation of the monad [host W] of HostRegs.v, over a world
      [W] that holds everything outside it; it returns or halts (exit, a failed
      assertion, an access outside a buffer, a variable that decides something
      and was never assigned). [RegLib] is the interface of the register
      library, the five functions a tool links against; [RegLaws] is what it
      promises: register calls of an open device do to the card what the
      registers do.
    - libnf2 (Nf2util.v) implements it on the system calls of the kernel, and is
      proved to keep the promise when they are answered by the driver of
      CardDriver.v. libreg_proxy (RegProxy.v) implements it over a socket to a
      server that has another such library; ProxyTheorems.v proves that it keeps
      the promise of that library, and that the server answers the requests of
      a client in order.
    - The tools that work on registers are written against [RegLib] only: the
      device information (DevInfo.v), the downloader (Download.v), the command
      line of the reference router (RefCli.v), the register tools (RegTools.v);
      so what is proved of them holds with both libraries.
    - The programs on packets have their own worlds: what a capture shows is
      read from packets the recorder of the card wrote, modelled from its
      Verilog (Events.v); the packet sender writes frames through libnet, a
      class, and its receiver is handed those that arrive (SendPkts.v).
    - Fuel: the number of system calls of one transfer ([readn], [writen],
      [recv_loop]), of messages of a session ([server_loop]), of polls of a
      programming FIFO, of commands read by the prompt and of lines read from a
      file. The theorems give how much is enough, except for the lines of a
      file, where [load_loop_malformed] shows that none is.

    ** Files

    - Prelude.v, Words.v, Bytes.v: notation, tactics, words, buffers.
    - State.v: the state, the monad with its weakest preconditions, and the lock
      discipline with the tactic that proves it.
    - Nodes.v, CStrings.v, Sorting.v: the node operations and string functions
      of or_utils.c, the bubble sort of the tables.
    - Netfpga.v (or_netfpga.c), Rtable.v (or_rtable.c), Iface.v and IfaceCtl.v
      (or_iface.c), Headers.v (or_data_types.h, or_utils.c), Checksum.v and
      Packets.v (the checksums of or_ip.c, or_icmp.c, or_pwospf.c, or_nat.c and
      what the builders leave in a buffer), Arp.v (or_arp.c, [send_packet] and
      [send_ip] of or_main.c), Icmp.v (or_icmp.c, the retry queue of or_arp.c),
      Dijkstra.v (or_dijkstra.c), Pwospf.v (or_pwospf.c), Nat.v (or_nat.c),
      Ip.v (or_ip.c), Sping.v (or_sping.c), Main.v (or_main.c,
      sr_integration.c), Sprint.v (or_output.c), Cli.v (or_cli.c and the [cli_]
      functions of the other files), Www.v (or_www.c). A definition has the name
      of the C function it models; parts of a long function have names of their
      own.
    - LockOrder.v: the lock discipline of all the components together.
      SprintTheorems.v, CliTheorems.v, WwwTheorems.v: the tables, the commands,
      the requests. Invariant.v, Preservation.v, Reachable.v: the invariant of
      the state, kept by every operation, and what follows for reachable states.
    - Card.v (nf2kernel.h, nf2.h, nf2util.c), CardDriver.v (nf2_control.c),
      CardProbe.v (nf2main.c, the probe of nf2_control.c): the driver.
      CardQueue.v: its invariant, kept by every operation; CardTheorems.v: what
      follows for sequences of operations.
      UserCard.v (nf2_user.c) and UserTheorems.v: its user device.
    - RkAddr.v (ipaddr.hh, ethernetaddr.hh), RouterKit.v (rkd.cc, nf21_mon.cc,
      linux_proc_net.cc and their headers): the router kit with its theorems.
    - HostRegs.v (nf2util.h), Nf2util.v (lib/C/common/nf2util.c), DevInfo.v
      (nf2util_proxy_common.c), CNumbers.v ([strtol] and the conversions of
      [scanf]), RegProxy.v (lib/C/reg_lib), Download.v (nf_download.c), RefCli.v
      (cli.c, util.c): the host; ProxyTheorems.v,
      DownloadTheorems.v, RefCliTheorems.v: their theorems.
    - Vns.v (vnscommand.h, sr_vns.c, sr_dumper.c), Startup.v (sr_base.c,
      sr_cpu_extension_nf2.c, the raw sockets of or_netfpga.c and or_main.c):
      the runtime under the router; VnsTheorems.v, StartupTheorems.v: their
      theorems. NatCtl.v (or_nat.c from line 498 on): the commands and the
      maintenance of the translation table.
    - Events.v (rcv_evts.c, evts.h, evt_rcrdr.v), SendPkts.v (send_pkts.c),
      RegTools.v (regread.c, regwrite.c, nf_info.c, monitor_ctrl.c): the small
      tools with their theorems.
    - Witnesses.v, CardWitnesses.v, CliWitnesses.v, KitWitnesses.v,
      HostWitnesses.v, VnsWitnesses.v, ToolWitnesses.v: concrete routers, cards,
      clients, tables and packets on which the hypotheses hold.

    ** What the theorems show

    - Routing: [get_next_hop] is the longest match over the active routes, where
      a match and the length of a mask are said in bits, without the code's
      functions; adding, deleting, deactivating and activating routes do what they
      say and keep the table sorted; the device's lookup agrees with the
      software's when a change leaves at most 32 active routes, with contiguous
      masks and known ports (Rtable.v). The shortest-path computation
      ends with the hop counts of the graph of active interfaces (Dijkstra.v).
    - Forwarding: which packets are valid, what a forwarded packet looks like
      and where it goes, which ICMP error each failure is answered with when the
      router has a route and an address for the sender, and that malformed
      packets have no effect (Ip.v, Icmp.v, Checksum.v).
    - ARP: cache, device copy, expiry, queue, replies and requests, retries
      (Arp.v, Icmp.v).
    - PWOSPF: an update is read as it was built; recording one whose networks are
      masked makes the router list say what it says; a newer one that repeats
      what is known of its router is flooded in a form the other routers accept;
      a stale one is ignored (Pwospf.v).
    - NAT: a flow is translated with a valid transport checksum, and a reply goes
      to the first entry of the table with its external pair: back to the flow
      unless an older entry has the same pair (Nat.v); a round of the maintenance without an expired
      entry leaves the busiest entries first, numbered from row 0; adding an
      entry by a command replaces that of its external pair, and deleting it
      gives the old table back (NatCtl.v).
    - Lists and strings: the node operations on cells (Nodes.v), URL coding and
      [my_strncat] (CStrings.v).
    - Locks: every handler and every round of a thread takes locks in one order
      and releases them, with the exceptions below (LockOrder.v).
    - Reachable states: the state is well formed in every state the router
      reaches from power-on, and the printed tables fit their buffers there
      (Reachable.v).
    - Operation: the requests of a client are served line by line; a command is
      that of the longest registered prefix; a printed route is read back,
      as a static and active one, if its name is short; a command sent as a URL runs as the command line runs it (CliTheorems.v,
      SprintTheorems.v, WwwTheorems.v).
    - The runtime: a session hands the router every message the server sent,
      once and in order, however the stream is cut; a packet sent by one client
      is the packet its peer is given; a dump is read back as it was written; a
      router that got its interfaces and packets from a session is in a
      reachable state, so what Reachable.v proves holds of it (VnsTheorems.v).
      An interface file gives the interfaces that were written to it
      (StartupTheorems.v).
    - The driver: over any sequence of operations the ring is a queue, every
      accepted packet is freed once and in order, one buffer at a time is mapped
      for sending, the ports' credits are right while no interface is closed,
      and the queue drains when the card answers, once a transfer runs
      (CardTheorems.v); this as long as [skb_pad] finds memory. What a probe
      leaves behind is told for every outcome: a failed one gives everything
      back except after the early exits, and so does the removal (CardProbe.v). The
      user device, which is not built, would have done nothing: over any
      sequence of calls and interrupts it reads no packet, sends none and never
      gives its interrupt back (UserTheorems.v).
    - The router kit, not started as a daemon: the rows of the card are the tables
      of Linux on the interfaces of the card, read from the text of the kernel, and [ipaddr] is arithmetic modulo 2^32
      (RouterKit.v, RkAddr.v).
    - The host: libnf2 on the driver and the proxy on top of any library keep
      the laws of the register interface, and the proxy's server answers the
      requests of a client in order; a bitfile is accepted exactly when the
      project and the version of the card that was read first are the ones asked
      for; the downloader skips the header of a bitfile and hands the
      card exactly its image; a route typed at the prompt is the row that
      is written, whose numbers are those of the four parts of each address.
    - The small tools: a packet of events shows every event with the time at
      which it happened, although its word holds 19 bits of it (Events.v); a
      transfer of numbered packets that arrive in order ends exactly when its
      last packet arrives, and its losses are counted, with numbers of four
      bytes (SendPkts.v); registers are read, written and
      configured as the command line says (RegTools.v).
    - Defects of the code, stated as theorems about it. In SCONE: the use after
      free of [iface_up] and [iface_down]
      ([iface_change_with_neighbours_crashes]), the mutex and the locks kept by
      two early returns ([hello_mask_mismatch_keeps_mutex],
      [send_ip_packet_no_route_keeps_locks]), the flush that does not end
      ([send_entry_packets_diverges]), the advertisement that is never learnt
      ([unmasked_adv_never_learnt]), the shared external port
      ([nat_port_collision]), the wrong IP checksum
      ([nat_ip_checksum_off_by_port]), the time to live of 0 that wraps,
      in an update ([lsu_ttl_zero_wraps]) and in a packet
      ([ttl_zero_wraps]), the table that overruns its buffer
      ([sprint_pwospf_if_list_overruns]). In its runtime: the closed connection
      that is read from for ever ([closed_spins]), the name that fills its
      array ([copy_long_field]), the failed read that is taken for a packet
      ([failed_read_is_input]), the packet for an unknown interface
      ([unknown_interface_overruns]), the NAT command with a name that only
      starts like a port's ([cli_nat_set_crashes]), the NAT entry written to
      after it expired and was freed ([nat_maintenance_correct]). In the
  In the
      driver: the packet freed twice when [skb_pad] finds no memory
      ([pad_failure_frees_twice]), the credits lost when the last interface is
      closed ([release_loses_credits]), when the last interface is closed
      ([release_loses_credits]), the ready port that is ignored during a
      reception ([queue_status_ignored_while_receiving]), the register errors
      reported as success ([ioctl_hides_refusals]), the early exits of the
      probe ([nf2_probe_early_exits]), the parameters that spoil another one
      ([nf2_validate_params_correct]), and in its user device the write of two
      bytes ([write_copies_two_bytes]), the position that is never set
      ([first_read_oopses]) and the pool whose freeing uses freed memory
      ([pool_cannot_be_freed]). In the router kit: the descriptor the
      daemon closes ([daemonize_closes_card]) and the reversed order of
      Ethernet addresses ([ethernetaddr_order_reversed]). On the host:
      registers out of range ([register_out_of_range]) and errors of the card
      or the connection ([proxy_hides_errors], [lost_connection_is_success])
      reported as success, cards that change their numbers
      ([proxy_renumbers_cards]), stale device information
      ([checkVirtexBitfile_is_stale]), the buffers of the downloader and the
      prompt that are overrun ([StripHeader_overrun], [setip_overruns]), the
      file that is never read to its end ([load_loop_malformed]), the capture
      that ends when two packets come at once ([capture_ends]), the short
      packet of events ([short_packet_overruns]) and the numbers of eight bytes
      copied into four ([long_overruns]).

    ** What is not modelled

    - In SCONE: printing to the standard output and the statistics
      (floating-point numbers); the creation of threads, mutexes and listening
      sockets; the DMA path and statistics of or_netfpga.c; the listing of the
      translation table in the card, which prints variables that are never
      assigned. The TCP stack (lwtcp) is third-party code, and with it its glue
      (sr_lwtcp_glue.c): handing a packet to it is an event. Allocation and the
      pthread functions are taken to succeed.
    - In the driver: ethtool (nf2_ethtool.c), which answers with constants.
    - On the host: the accept loop of the proxy's server, and the programs that
      only read and print registers (show_stats, regdump, counterdump, the
      self-tests of the boards). *)

From Stdlib Require Export ZArith Lia.
From stdpp Require Export base list list_numbers numbers option strings gmap.

Declare Scope scone_scope.
Delimit Scope scone_scope with scone.

(** ** Hint databases of the development *)

Create HintDb words discriminated.
Create HintDb bytes discriminated.
Create HintDb locks discriminated.

(** ** Tactics *)

(** Destructs the first [bool] or [option] scrutinee found in the goal. *)
Ltac dmatch :=
  match goal with
  | |- context [match ?x with _ => _ end] => destruct x eqn:?
  end.

(** Destructs a match scrutinee in a hypothesis. *)
Ltac dmatch_in H :=
  match type of H with
  | context [match ?x with _ => _ end] => destruct x eqn:?
  end.

(** Turns boolean comparisons in the context into propositions. *)
Ltac bool_to_prop :=
  repeat match goal with
  | H : (_ && _) = true |- _ => apply andb_true_iff in H; destruct H
  | H : (_ || _) = false |- _ => apply orb_false_iff in H; destruct H
  | H : negb _ = true |- _ => apply negb_true_iff in H
  | H : negb _ = false |- _ => apply negb_false_iff in H
  | H : (_ =? _)%Z = true |- _ => apply Z.eqb_eq in H
  | H : (_ =? _)%Z = false |- _ => apply Z.eqb_neq in H
  | H : (_ <? _)%Z = true |- _ => apply Z.ltb_lt in H
  | H : (_ <? _)%Z = false |- _ => apply Z.ltb_ge in H
  | H : (_ <=? _)%Z = true |- _ => apply Z.leb_le in H
  | H : (_ <=? _)%Z = false |- _ => apply Z.leb_gt in H
  | H : (_ =? _)%nat = true |- _ => apply Nat.eqb_eq in H
  | H : (_ =? _)%nat = false |- _ => apply Nat.eqb_neq in H
  | H : (_ <? _)%nat = true |- _ => apply Nat.ltb_lt in H
  | H : (_ <? _)%nat = false |- _ => apply Nat.ltb_ge in H
  end.

(** ** Generic lemmas on options *)

Lemma bind_Some_inv {A B} (o : option A) (f : A -> option B) b :
  (o ≫= f) = Some b -> exists a, o = Some a /\ f a = Some b.
Proof. destruct o; simpl; [eauto | discriminate]. Qed.

(** Steps through a bind by rewriting, so that the kernel never compares the
    two sides by computing them. *)
Lemma opt_bind_Some {A B} (a : A) (f : A -> option B) : (Some a ≫= f) = f a.
Proof. done. Qed.

(** Inverts every successful option bind of the context. *)
Ltac obind :=
  repeat match goal with
  | H : (_ ≫= _) = Some _ |- _ =>
      apply bind_Some_inv in H; destruct H as (? & ? & H)
  | H : Some _ = Some _ |- _ => injection H as H
  end.

(** ** Generic lemmas on lists *)

(** Index of the first element satisfying a boolean predicate. *)
Fixpoint find_index {A} (f : A -> bool) (l : list A) : option nat :=
  match l with
  | [] => None
  | x :: l' => if f x then Some O else S <$> find_index f l'
  end.

(** First element satisfying a boolean predicate. *)
Fixpoint find_first {A} (f : A -> bool) (l : list A) : option A :=
  match l with
  | [] => None
  | x :: l' => if f x then Some x else find_first f l'
  end.

(** Boolean filter (stdpp's filter takes a decidable proposition). *)
Fixpoint bfilter {A} (f : A -> bool) (l : list A) : list A :=
  match l with
  | [] => []
  | x :: l' => if f x then x :: bfilter f l' else bfilter f l'
  end.

Lemma elem_of_bfilter {A} (f : A -> bool) l x :
  x ∈ bfilter f l <-> x ∈ l /\ f x = true.
Proof.
  induction l as [|y l IH]; simpl.
  - rewrite elem_of_nil. naive_solver.
  - destruct (f y) eqn:E; rewrite ?elem_of_cons, IH;
      intuition (subst; congruence).
Qed.

Lemma bfilter_app {A} (f : A -> bool) l1 l2 :
  bfilter f (l1 ++ l2) = bfilter f l1 ++ bfilter f l2.
Proof. induction l1 as [|x l1 IH]; simpl; [done|]. rewrite IH. by destruct (f x). Qed.

Lemma bfilter_true {A} (f : A -> bool) l :
  (forall x, x ∈ l -> f x = true) -> bfilter f l = l.
Proof.
  induction l as [|y l IH]; simpl; intros H; [done|].
  rewrite H by set_solver. f_equal. apply IH. set_solver.
Qed.

Lemma bfilter_bfilter {A} (f g : A -> bool) l :
  bfilter f (bfilter g l) = bfilter (fun x => g x && f x) l.
Proof.
  induction l as [|x l IH]; simpl; [done|].
  destruct (g x); simpl; [destruct (f x)|]; rewrite ?IH; done.
Qed.

Lemma bfilter_length_le {A} (f : A -> bool) l : (length (bfilter f l) <= length l)%nat.
Proof. induction l as [|x l IH]; simpl; [done|]. destruct (f x); simpl; lia. Qed.

Lemma bfilter_Permutation {A} (f : A -> bool) l1 l2 :
  l1 ≡ₚ l2 -> bfilter f l1 ≡ₚ bfilter f l2.
Proof.
  induction 1; simpl; repeat case_match; try done.
  - by constructor.
  - apply Permutation_swap.
  - by etrans.
Qed.

Lemma find_first_Some {A} (f : A -> bool) l x :
  find_first f l = Some x -> x ∈ l /\ f x = true.
Proof.
  induction l as [|y l IH]; simpl; [done|].
  destruct (f y) eqn:E; intros H; simplify_eq; rewrite elem_of_cons; naive_solver.
Qed.

Lemma find_first_None {A} (f : A -> bool) l :
  find_first f l = None <-> (forall x, x ∈ l -> f x = false).
Proof.
  rewrite <- Forall_forall.
  induction l as [|y l IH]; simpl; [by split; [constructor|]|].
  rewrite Forall_cons. destruct (f y) eqn:E; [by split; [|intros []]|].
  rewrite IH. by split; [|intros []].
Qed.

Lemma find_first_app {A} (f : A -> bool) l1 l2 :
  find_first f (l1 ++ l2) =
  match find_first f l1 with Some x => Some x | None => find_first f l2 end.
Proof. induction l1 as [|y l1 IH]; simpl; [done|]. by destruct (f y). Qed.

Lemma find_first_bfilter {A} (f g : A -> bool) l :
  find_first f (bfilter g l) = find_first (fun x => g x && f x) l.
Proof.
  induction l as [|y l IH]; simpl; [done|].
  destruct (g y); simpl; [destruct (f y)|]; done.
Qed.

Lemma find_first_split {A} (f : A -> bool) l x :
  find_first f l = Some x ->
  exists l1 l2, l = l1 ++ x :: l2 /\ (forall y, y ∈ l1 -> f y = false) /\ f x = true.
Proof.
  induction l as [|y l IH]; simpl; [done|].
  destruct (f y) eqn:E; intros H; simplify_eq.
  - exists [], l. split_and!; [done| |done]. intros ? Hy. by apply elem_of_nil in Hy.
  - destruct (IH H) as (l1 & l2 & -> & H1 & H2).
    exists (y :: l1), l2. split_and!; [done| |done].
    intros z [->|Hz]%elem_of_cons; auto.
Qed.

Lemma find_index_Some {A} (f : A -> bool) l i :
  find_index f l = Some i ->
  exists l1 x l2, l = l1 ++ x :: l2 /\ length l1 = i /\ f x = true /\
    (forall y, y ∈ l1 -> f y = false).
Proof.
  revert i. induction l as [|y l IH]; simpl; [done|]. intros i.
  destruct (f y) eqn:E; intros H.
  - simplify_eq. exists [], y, l. split_and!; [done..|].
    intros ? Hy. by apply elem_of_nil in Hy.
  - apply fmap_Some in H as (j & Hj & ->).
    destruct (IH j Hj) as (l1 & x & l2 & -> & <- & H1 & H2).
    exists (y :: l1), x, l2. split_and!; [done..|].
    intros z [->|Hz]%elem_of_cons; auto.
Qed.

Lemma find_index_None {A} (f : A -> bool) l :
  find_index f l = None <-> (forall x, x ∈ l -> f x = false).
Proof.
  rewrite <- Forall_forall.
  induction l as [|y l IH]; simpl; [by split; [constructor|]|].
  rewrite Forall_cons. destruct (f y) eqn:E; [by split; [|intros []]|].
  rewrite fmap_None, IH. by split; [|intros []].
Qed.

(** Updating a list at the position of [length l1]. *)
Lemma alter_middle {A} (f : A -> A) l1 x l2 :
  alter f (length l1) (l1 ++ x :: l2) = l1 ++ f x :: l2.
Proof. induction l1 as [|y l1 IH]; simpl; [done|]. unfold alter in *. simpl. by f_equal. Qed.

Lemma lookup_middle {A} (l1 : list A) x l2 : (l1 ++ x :: l2) !! length l1 = Some x.
Proof. by rewrite list_lookup_middle. Qed.

Lemma alter_lookup {A} (f : A -> A) (k : nat) (l : list A) x :
  l !! k = Some x -> alter f k l = <[k := f x]> l.
Proof.
  intros H. apply list_eq. intros i. destruct (decide (i = k)) as [->|Hne].
  - rewrite list_lookup_alter_eq, H, list_lookup_insert_eq; [done|].
    by apply lookup_lt_Some in H.
  - by rewrite list_lookup_alter_ne, list_lookup_insert_ne by congruence.
Qed.
