(* ===== verification/Words.v ===== *)
(** Machine words of the router code: unsigned integers of 8, 16 and 32 bits
    as [Z] with their wrap-around written out, the byte-order conversions of
    the C library on a little-endian host (the x86 machines the router runs
    on), and the arithmetic of Internet checksums. *)

From S2P Require Import Prelude.
Local Open Scope Z_scope.

(** ** Widths *)

Definition u8 (x : Z) : Z := x mod 2 ^ 8.
Definition u16 (x : Z) : Z := x mod 2 ^ 16.
Definition u32 (x : Z) : Z := x mod 2 ^ 32.
Definition u64 (x : Z) : Z := x mod 2 ^ 64.

Definition is_u8 (x : Z) : Prop := 0 <= x < 2 ^ 8.
Definition is_u16 (x : Z) : Prop := 0 <= x < 2 ^ 16.
Definition is_u32 (x : Z) : Prop := 0 <= x < 2 ^ 32.

(** ** Byte order ([ntohs], [htons], [ntohl], [htonl]) *)

Definition bswap16 (x : Z) : Z := (x mod 256) * 256 + (x / 256) mod 256.

Definition bswap32 (x : Z) : Z :=
  (x mod 256) * 2 ^ 24 + (x / 256 mod 256) * 2 ^ 16
  + (x / 2 ^ 16 mod 256) * 2 ^ 8 + x / 2 ^ 24 mod 256.

Definition ntohs : Z -> Z := bswap16.
Definition htons : Z -> Z := bswap16.
Definition ntohl : Z -> Z := bswap32.
Definition htonl : Z -> Z := bswap32.

(** ** Bit counting: the loop of [get_next_hop] over the 32 bits of a mask *)

Fixpoint count_bits_from (mask : Z) (i n : nat) : Z :=
  match n with
  | O => 0
  | S n' =>
      (if Z.land (Z.shiftr mask (Z.of_nat i)) 1 =? 1 then 1 else 0)
      + count_bits_from mask (S i) n'
  end.

(** A contiguous netmask of [k] leading ones, in host order. *)
Definition prefix_mask (k : Z) : Z := 2 ^ 32 - 2 ^ (32 - k).

(** ** One's-complement folding of a sum into 16 bits *)

(** [sum = (sum >> 16) + (sum & 0xFFFF); sum += (sum >> 16);] *)
Definition fold_carries (sum : Z) : Z :=
  let sum := Z.shiftr sum 16 + Z.land sum 65535 in
  sum + Z.shiftr sum 16.

(** [s_sum = sum & 0xFFFF; s_sum = ~s_sum;] on a [uint16_t]. *)
Definition ones_complement (sum : Z) : Z := u16 (Z.lnot (Z.land sum 65535)).

(** ** Lemmas *)

(** Reduces goals on words to linear arithmetic over quotients. *)
Ltac words_unfold :=
  unfold u8, u16, u32, u64, is_u8, is_u16, is_u32, ntohs, htons, ntohl, htonl,
    bswap16, bswap32 in *.

Ltac Zdivmod := words_unfold; Z.div_mod_to_equations; lia.

Lemma u8_range x : is_u8 (u8 x).
Proof. unfold is_u8, u8. apply Z.mod_pos_bound. lia. Qed.

Lemma u16_range x : is_u16 (u16 x).
Proof. unfold is_u16, u16. apply Z.mod_pos_bound. lia. Qed.

Lemma u32_range x : is_u32 (u32 x).
Proof. unfold is_u32, u32. apply Z.mod_pos_bound. lia. Qed.

Lemma u8_id x : is_u8 x -> u8 x = x.
Proof. apply Z.mod_small. Qed.

Lemma u16_id x : is_u16 x -> u16 x = x.
Proof. apply Z.mod_small. Qed.

Lemma u32_id x : is_u32 x -> u32 x = x.
Proof. apply Z.mod_small. Qed.

Lemma bswap16_range x : is_u16 (bswap16 x).
Proof. words_unfold. change (2 ^ 16) with 65536. Z.div_mod_to_equations; lia. Qed.

Lemma bswap32_range x : is_u32 (bswap32 x).
Proof.
  words_unfold.
  change (2 ^ 32) with 4294967296. change (2 ^ 24) with 16777216.
  change (2 ^ 16) with 65536. change (2 ^ 8) with 256.
  pose proof (Z.mod_pos_bound x 256). pose proof (Z.mod_pos_bound (x / 256) 256).
  pose proof (Z.mod_pos_bound (x / 65536) 256).
  pose proof (Z.mod_pos_bound (x / 16777216) 256). lia.
Qed.

Lemma bswap16_bytes a b : is_u8 a -> is_u8 b -> bswap16 (a + 256 * b) = 256 * a + b.
Proof.
  words_unfold. change (2 ^ 8) with 256. intros.
  rewrite (Z.mul_comm 256 b), Z.mod_add, Z.div_add, (Z.mod_small a), (Z.div_small a) by lia.
  rewrite (Z.mod_small (0 + b)) by lia. lia.
Qed.

Lemma word16_bytes x : is_u16 x ->
  exists a b, is_u8 a /\ is_u8 b /\ x = a + 256 * b.
Proof.
  words_unfold. change (2 ^ 8) with 256. change (2 ^ 16) with 65536. intros.
  exists (x mod 256), (x / 256). Z.div_mod_to_equations. lia.
Qed.

Lemma bswap16_involutive x : is_u16 x -> bswap16 (bswap16 x) = x.
Proof.
  intros (a & b & Ha & Hb & ->)%word16_bytes.
  rewrite bswap16_bytes by done.
  replace (256 * a + b) with (b + 256 * a) by lia.
  rewrite bswap16_bytes by done. lia.
Qed.

Lemma bswap16_inj x y : is_u16 x -> is_u16 y -> bswap16 x = bswap16 y -> x = y.
Proof.
  intros Hx Hy H. rewrite <- (bswap16_involutive x), <- (bswap16_involutive y) by done.
  by rewrite H.
Qed.

Lemma bswap32_bytes a b c d : is_u8 a -> is_u8 b -> is_u8 c -> is_u8 d ->
  bswap32 (a + 2 ^ 8 * b + 2 ^ 16 * c + 2 ^ 24 * d)
  = d + 2 ^ 8 * c + 2 ^ 16 * b + 2 ^ 24 * a.
Proof.
  unfold bswap32, is_u8. change (2 ^ 8) with 256. change (2 ^ 16) with 65536.
  change (2 ^ 24) with 16777216. intros.
  set (x := a + 256 * b + 65536 * c + 16777216 * d).
  assert (x mod 256 = a /\ x / 256 mod 256 = b /\ x / 65536 mod 256 = c
          /\ x / 16777216 mod 256 = d) as (-> & -> & -> & ->); [|lia].
  assert (x / 256 = b + 256 * c + 65536 * d) as E1 by (symmetry; apply (Z.div_unique _ _ _ a); lia).
  assert (x / 65536 = c + 256 * d) as E2
    by (symmetry; apply (Z.div_unique _ _ _ (a + 256 * b)); lia).
  assert (x / 16777216 = d) as E3
    by (symmetry; apply (Z.div_unique _ _ _ (a + 256 * b + 65536 * c)); lia).
  rewrite E1, E2, E3. split_and!.
  - symmetry. apply (Z.mod_unique _ _ (x / 256)); lia.
  - symmetry. apply (Z.mod_unique _ _ (c + 256 * d)); lia.
  - symmetry. apply (Z.mod_unique _ _ d); lia.
  - apply Z.mod_small. lia.
Qed.

Lemma word32_bytes x : is_u32 x ->
  exists a b c d, is_u8 a /\ is_u8 b /\ is_u8 c /\ is_u8 d /\
    x = a + 2 ^ 8 * b + 2 ^ 16 * c + 2 ^ 24 * d.
Proof.
  unfold is_u8, is_u32. change (2 ^ 8) with 256. change (2 ^ 16) with 65536.
  change (2 ^ 24) with 16777216. change (2 ^ 32) with 4294967296. intros.
  exists (x mod 256), (x / 256 mod 256), (x / 256 / 256 mod 256), (x / 256 / 256 / 256).
  Z.div_mod_to_equations. lia.
Qed.

Lemma bswap32_involutive x : is_u32 x -> bswap32 (bswap32 x) = x.
Proof.
  intros (a & b & c & d & Ha & Hb & Hc & Hd & ->)%word32_bytes.
  by rewrite !bswap32_bytes.
Qed.

Lemma bswap32_inj x y : is_u32 x -> is_u32 y -> bswap32 x = bswap32 y -> x = y.
Proof.
  intros Hx Hy H. rewrite <- (bswap32_involutive x), <- (bswap32_involutive y) by done.
  by rewrite H.
Qed.

Lemma bswap32_0 : bswap32 0 = 0.
Proof. reflexivity. Qed.

Lemma bswap32_eqb x y : is_u32 x -> is_u32 y -> (x =? y) = (bswap32 x =? bswap32 y).
Proof.
  intros. destruct (Z.eqb_spec x y) as [->|Hne]; [by rewrite Z.eqb_refl|].
  symmetry. apply Z.eqb_neq. intros E. by apply Hne, bswap32_inj.
Qed.

#[export] Hint Resolve u8_range u16_range u32_range bswap16_range bswap32_range : words.

Lemma land_65535 x : Z.land x 65535 = x mod 65536.
Proof. change 65535 with (Z.ones 16). by rewrite Z.land_ones. Qed.

Lemma shiftr_16 x : Z.shiftr x 16 = x / 65536.
Proof. by rewrite Z.shiftr_div_pow2. Qed.

Lemma ones_complement_eq sum : ones_complement sum = 65535 - sum mod 65536.
Proof.
  unfold ones_complement, u16. rewrite land_65535.
  unfold Z.lnot. change (2 ^ 16) with 65536.
  pose proof (Z.mod_pos_bound sum 65536). symmetry.
  apply (Z.mod_unique _ _ (-1)); lia.
Qed.

Lemma ones_complement_range sum : is_u16 (ones_complement sum).
Proof. apply u16_range. Qed.
#[export] Hint Resolve ones_complement_range : words.

(** Folding twice keeps the sum modulo 65535 and, for the sums that fit 32
    bits, leaves a 16-bit value. *)
Lemma fold_carries_spec s : 0 <= s < 2 ^ 32 ->
  exists r, fold_carries s mod 65536 = r /\ 0 <= r <= 65535 /\
    (exists k, s = r + 65535 * k) /\ (r = 0 -> s = 0).
Proof.
  change (2 ^ 32) with 4294967296. intros Hs.
  unfold fold_carries. rewrite land_65535, !shiftr_16.
  set (q := s / 65536). set (m := s mod 65536).
  assert (s = 65536 * q + m /\ 0 <= m < 65536 /\ 0 <= q <= 65535) as (E & Hm & Hq).
  { unfold q, m. Z.div_mod_to_equations. lia. }
  destruct (decide (q + m < 65536)) as [Hlt|Hge].
  - rewrite (Z.div_small (q + m)), Z.add_0_r, Z.mod_small by lia.
    exists (q + m). split_and!; [lia..| |lia]. exists q. lia.
  - assert ((q + m) / 65536 = 1) as -> by (symmetry; apply (Z.div_unique _ _ _ (q + m - 65536)); lia).
    exists (q + m + 1 - 65536). split_and!; [|lia..| |lia].
    + symmetry. apply (Z.mod_unique _ _ 1); lia.
    + exists (q + 1). lia.
Qed.

(** Prefix masks: the loop of [get_next_hop] counts their ones, and their
    numeric order is the order of their lengths. *)
Lemma prefix_mask_lt j k : 0 <= j -> j < k <= 32 -> prefix_mask j < prefix_mask k.
Proof.
  intros. unfold prefix_mask.
  assert (2 ^ (32 - k) < 2 ^ (32 - j)) by (apply Z.pow_lt_mono_r; lia). lia.
Qed.

Lemma forall_upto_33 (P : Z -> Prop) :
  (forall n, (n <= 32)%nat -> P (Z.of_nat n)) -> forall k, 0 <= k <= 32 -> P k.
Proof. intros H k Hk. rewrite <- (Z2Nat.id k) by lia. apply H. lia. Qed.

Lemma count_bits_prefix_mask k : 0 <= k <= 32 -> count_bits_from (prefix_mask k) 0 32 = k.
Proof.
  revert k. apply forall_upto_33. intros n Hn.
  do 33 (destruct n as [|n]; [vm_compute; reflexivity|]). lia.
Qed.

(** The number the loop counts is that of the bits set in its window. *)
Definition bits_set (m i : Z) (n : nat) : nat :=
  length (filter (fun j => Z.testbit m j = true) (seqZ i (Z.of_nat n))).

Lemma count_bits_set m i n : count_bits_from m i n = Z.of_nat (bits_set m (Z.of_nat i) n).
Proof.
  revert i. induction n as [|n IH]; intros i; [done|]. cbn [count_bits_from].
  rewrite (IH (S i)). unfold bits_set. rewrite (seqZ_cons (Z.of_nat i)) by lia.
  replace (Z.pred (Z.of_nat (S n))) with (Z.of_nat n) by lia. rewrite Nat2Z.inj_succ.
  assert (Z.land (Z.shiftr m (Z.of_nat i)) 1 = Z.b2z (Z.testbit m (Z.of_nat i))) as ->.
  { change 1 with (Z.ones 1). rewrite Z.land_ones, Z.shiftr_div_pow2 by lia.
    symmetry. apply Z.testbit_spec'. lia. }
  destruct (Z.testbit m (Z.of_nat i)) eqn:E.
  - rewrite filter_cons_True by done. simpl. lia.
  - rewrite filter_cons_False by congruence. done.
Qed.

Lemma count_bits_nonneg m i n : 0 <= count_bits_from m i n.
Proof. revert i. induction n as [|n IH]; intros i; simpl; [lia|]. specialize (IH (S i)). case_match; lia. Qed.

(** An [int] computed modulo 2^32. *)
Definition int32 (x : Z) : Z := u32 (x + 2 ^ 31) - 2 ^ 31.

Lemma int32_id x : - 2 ^ 31 <= x < 2 ^ 31 -> int32 x = x.
Proof. intros Hx. unfold int32, u32. rewrite Z.mod_small by lia. lia. Qed.
