(* ===== verification/Bytes.v ===== *)
(** Byte buffers: the packet memory of the router. A buffer is the list of its
    bytes; the accessors are the loads and stores C makes through the packed
    header structs, on a little-endian host. An access outside the buffer has
    no defined behaviour in C and is [None] here. *)

From S2P Require Import Prelude Words.
Local Open Scope Z_scope.

Notation bytes := (list Z).

(** A buffer holds bytes. *)
Definition is_bytes (p : bytes) : Prop := Forall is_u8 p.

(** ** Loads *)

Definition get8 (p : bytes) (o : nat) : option Z := p !! o.

Definition get16 (p : bytes) (o : nat) : option Z :=
  b0 ← p !! o; b1 ← p !! (o + 1)%nat; Some (b0 + 256 * b1).

Definition get32 (p : bytes) (o : nat) : option Z :=
  b0 ← p !! o; b1 ← p !! (o + 1)%nat; b2 ← p !! (o + 2)%nat; b3 ← p !! (o + 3)%nat;
  Some (b0 + 2 ^ 8 * b1 + 2 ^ 16 * b2 + 2 ^ 24 * b3).

(** [memcpy] out of a buffer: [n] bytes at offset [o]. *)
Definition get_range (p : bytes) (o n : nat) : option bytes :=
  if (o + n <=? length p)%nat then Some (take n (drop o p)) else None.

(** ** Stores *)

Definition put8 (p : bytes) (o : nat) (v : Z) : option bytes :=
  if (o <? length p)%nat then Some (<[o := u8 v]> p) else None.

Definition put16 (p : bytes) (o : nat) (v : Z) : option bytes :=
  p ← put8 p o v; put8 p (o + 1)%nat (v / 2 ^ 8).

Definition put32 (p : bytes) (o : nat) (v : Z) : option bytes :=
  p ← put8 p o v; p ← put8 p (o + 1)%nat (v / 2 ^ 8);
  p ← put8 p (o + 2)%nat (v / 2 ^ 16); put8 p (o + 3)%nat (v / 2 ^ 24).

(** [memcpy] into a buffer. *)
Definition put_range (p : bytes) (o : nat) (bs : bytes) : option bytes :=
  if (o + length bs <=? length p)%nat
  then Some (take o p ++ bs ++ drop (o + length bs) p) else None.

(** [bzero(p + o, n)]. *)
Definition bzero (p : bytes) (o n : nat) : option bytes := put_range p o (replicate n 0).

(** [calloc]/[malloc]-then-[bzero]: a fresh zeroed buffer. *)
Definition calloc (n : nat) : bytes := replicate n 0.

(** The bytes of a word in the memory of the host, which holds addresses in
    network order. *)
Definition word_bytes (v : Z) : bytes :=
  [u8 v; u8 (v / 2 ^ 8); u8 (v / 2 ^ 16); u8 (v / 2 ^ 24)].

(** The bytes of a 16-bit word. *)
Definition half_bytes (v : Z) : bytes := [u8 v; u8 (v / 2 ^ 8)].

(** ** Sums of 16-bit big-endian words *)

(** The sum of the big-endian 16-bit words of a buffer; an odd last byte is
    left out, as the loops over [len/2] shorts leave it out. *)
Fixpoint sum16 (p : bytes) : Z :=
  match p with
  | a :: b :: p' => 256 * a + b + sum16 p'
  | _ => 0
  end.

(** ** Lemmas: loads and stores *)

Lemma get8_is_u8 p o v : is_bytes p -> get8 p o = Some v -> is_u8 v.
Proof. intros H1 H2. by eapply Forall_lookup_1. Qed.

Lemma get16_is_u16 p o v : is_bytes p -> get16 p o = Some v -> is_u16 v.
Proof.
  unfold get16. intros Hp H. obind. subst v.
  assert (is_u8 x /\ is_u8 x0) as [? ?] by (split; by eapply Forall_lookup_1).
  unfold is_u8, is_u16 in *. lia.
Qed.

Lemma get32_is_u32 p o v : is_bytes p -> get32 p o = Some v -> is_u32 v.
Proof.
  unfold get32. intros Hp H. obind. subst v.
  assert (is_u8 x /\ is_u8 x0 /\ is_u8 x1 /\ is_u8 x2) as (? & ? & ? & ?)
    by (split_and!; by eapply Forall_lookup_1).
  unfold is_u8, is_u32 in *. lia.
Qed.

Lemma put8_length p o v p' : put8 p o v = Some p' -> length p' = length p.
Proof. unfold put8. case_match; intros; simplify_eq. by rewrite length_insert. Qed.

Lemma put8_bytes p o v p' : is_bytes p -> put8 p o v = Some p' -> is_bytes p'.
Proof.
  unfold put8. case_match; intros; simplify_eq.
  apply Forall_insert; [done|]. apply u8_range.
Qed.

Lemma put8_inv p o v p' : put8 p o v = Some p' -> (o < length p)%nat /\ p' = <[o := u8 v]> p.
Proof. unfold put8. case_match; intros; simplify_eq. bool_to_prop. done. Qed.

Lemma put8_Some p o v : (o < length p)%nat -> put8 p o v = Some (<[o := u8 v]> p).
Proof. intros H. unfold put8. apply Nat.ltb_lt in H. by rewrite H. Qed.

Lemma put8_app a x b v : put8 (a ++ x :: b) (length a) v = Some (a ++ u8 v :: b).
Proof.
  rewrite put8_Some by (rewrite length_app; simpl; lia).
  by rewrite insert_app_r_alt, Nat.sub_diag by lia.
Qed.

Lemma put16_Some p o v : (o + 1 < length p)%nat ->
  put16 p o v = Some (<[(o + 1)%nat := u8 (v / 2 ^ 8)]> (<[o := u8 v]> p)).
Proof.
  intros H. unfold put16. rewrite put8_Some by lia. simpl.
  by rewrite put8_Some by (rewrite length_insert; lia).
Qed.

Lemma put16_inv p o v p' : put16 p o v = Some p' ->
  (o + 1 < length p)%nat /\ p' = <[(o + 1)%nat := u8 (v / 2 ^ 8)]> (<[o := u8 v]> p).
Proof.
  unfold put16. intros H. obind. apply put8_inv in H0 as [? ->].
  apply put8_inv in H as [H ->]. rewrite length_insert in H. split; [lia|done].
Qed.

Lemma put16_length p o v p' : put16 p o v = Some p' -> length p' = length p.
Proof. intros [_ ->]%put16_inv. by rewrite !length_insert. Qed.

Lemma put16_bytes p o v p' : is_bytes p -> put16 p o v = Some p' -> is_bytes p'.
Proof.
  intros Hp [_ ->]%put16_inv. apply Forall_insert; [apply Forall_insert; [done|]|]; apply u8_range.
Qed.

Lemma put32_length p o v p' : put32 p o v = Some p' -> length p' = length p.
Proof.
  unfold put32. intros H. obind.
  repeat match goal with H : put8 _ _ _ = Some _ |- _ => apply put8_length in H end. lia.
Qed.

Lemma put32_bytes p o v p' : is_bytes p -> put32 p o v = Some p' -> is_bytes p'.
Proof. unfold put32. intros Hp H. obind. eauto 10 using put8_bytes. Qed.

Lemma put32_Some p o v : (o + 3 < length p)%nat ->
  put32 p o v = Some (<[(o + 3)%nat := u8 (v / 2 ^ 24)]> (<[(o + 2)%nat := u8 (v / 2 ^ 16)]>
    (<[(o + 1)%nat := u8 (v / 2 ^ 8)]> (<[o := u8 v]> p)))).
Proof.
  intros H. unfold put32. rewrite put8_Some by lia. simpl.
  rewrite put8_Some by (rewrite length_insert; lia). simpl.
  rewrite put8_Some by (rewrite !length_insert; lia). simpl.
  by rewrite put8_Some by (rewrite !length_insert; lia).
Qed.

Lemma put_range_length p o bs p' : put_range p o bs = Some p' -> length p' = length p.
Proof.
  unfold put_range. case_match; intros; simplify_eq. bool_to_prop.
  rewrite Nat.leb_le in H. rewrite !length_app, length_take, length_drop. lia.
Qed.

Lemma put_range_bytes p o bs p' :
  is_bytes p -> is_bytes bs -> put_range p o bs = Some p' -> is_bytes p'.
Proof.
  unfold put_range. case_match; intros; simplify_eq.
  unfold is_bytes. rewrite !Forall_app. split_and!; [by apply Forall_take|done|by apply Forall_drop].
Qed.

Lemma calloc_bytes n : is_bytes (calloc n).
Proof. apply Forall_replicate. unfold is_u8. lia. Qed.

Lemma bzero_length p o n p' : bzero p o n = Some p' -> length p' = length p.
Proof. apply put_range_length. Qed.

Lemma bzero_bytes p o n p' : is_bytes p -> bzero p o n = Some p' -> is_bytes p'.
Proof. intros Hp. apply put_range_bytes; [done|]. apply calloc_bytes. Qed.

Lemma get_range_length p o n bs : get_range p o n = Some bs -> length bs = n.
Proof.
  unfold get_range. case_match; intros; simplify_eq.
  apply Nat.leb_le in H. rewrite length_take, length_drop. lia.
Qed.

Lemma get_range_bytes p o n bs : is_bytes p -> get_range p o n = Some bs -> is_bytes bs.
Proof.
  unfold get_range. case_match; intros; simplify_eq. by apply Forall_take, Forall_drop.
Qed.

#[export] Hint Resolve put8_bytes put16_bytes put32_bytes put_range_bytes bzero_bytes
  get_range_bytes calloc_bytes : bytes.

(** A 16-bit value stored at an offset is read back there, and the loads that
    do not overlap a store are not changed by it. *)
Lemma get16_put16 p o v p' : is_u16 v -> put16 p o v = Some p' -> get16 p' o = Some v.
Proof.
  intros Hv [Hl ->]%put16_inv. unfold get16.
  rewrite (list_lookup_insert_ne _ (o + 1)%nat o) by lia.
  rewrite !list_lookup_insert_eq by (rewrite ?length_insert; lia). simpl.
  f_equal. unfold u8, is_u16 in *. change (2 ^ 8) with 256 in *. change (2 ^ 16) with 65536 in *.
  Z.div_mod_to_equations. lia.
Qed.

Lemma lookup_put8_ne p o v p' k : put8 p o v = Some p' -> k ≠ o -> p' !! k = p !! k.
Proof. intros [_ ->]%put8_inv Hk. by rewrite list_lookup_insert_ne. Qed.

Lemma lookup_put16_ne p o v p' k :
  put16 p o v = Some p' -> k ≠ o -> k ≠ (o + 1)%nat -> p' !! k = p !! k.
Proof. intros [_ ->]%put16_inv ??. by rewrite !list_lookup_insert_ne by done. Qed.

Lemma lookup_put32_ne p o v p' k :
  put32 p o v = Some p' -> (k < o \/ o + 3 < k)%nat -> p' !! k = p !! k.
Proof.
  unfold put32. intros (p1 & H1 & (p2 & H2 & (p3 & H3 & H4)%bind_Some_inv)%bind_Some_inv)%bind_Some_inv Hk.
  rewrite (lookup_put8_ne _ _ _ _ _ H4), (lookup_put8_ne _ _ _ _ _ H3),
    (lookup_put8_ne _ _ _ _ _ H2), (lookup_put8_ne _ _ _ _ _ H1); done || lia.
Qed.

Lemma get8_total p o : (o < length p)%nat -> exists v, get8 p o = Some v.
Proof. intros H. destruct (lookup_lt_is_Some_2 p o H) as [v Hv]. by exists v. Qed.

Lemma get16_total p o : (o + 1 < length p)%nat -> exists v, get16 p o = Some v.
Proof.
  intros H. destruct (lookup_lt_is_Some_2 p o ltac:(lia)) as [a Ha].
  destruct (lookup_lt_is_Some_2 p (o + 1) H) as [b Hb]. unfold get16. rewrite Ha, Hb. by eexists.
Qed.

Lemma get32_total p o : (o + 3 < length p)%nat -> exists v, get32 p o = Some v.
Proof.
  intros H. destruct (lookup_lt_is_Some_2 p o ltac:(lia)) as [a Ha].
  destruct (lookup_lt_is_Some_2 p (o + 1) ltac:(lia)) as [b Hb].
  destruct (lookup_lt_is_Some_2 p (o + 2) ltac:(lia)) as [c Hc].
  destruct (lookup_lt_is_Some_2 p (o + 3) H) as [d Hd].
  unfold get32. rewrite Ha, Hb, Hc, Hd. by eexists.
Qed.

Lemma lookup_put_range p o bs p' k :
  put_range p o bs = Some p' ->
  p' !! k = if ((o <=? k) && (k <? o + length bs))%nat then bs !! (k - o)%nat else p !! k.
Proof.
  unfold put_range. destruct (Nat.leb_spec (o + length bs) (length p)) as [Hl|]; [|done].
  intros [= <-]. destruct (Nat.leb_spec o k); simpl.
  - rewrite lookup_app_r by (rewrite length_take; lia).
    rewrite length_take, Nat.min_l by lia. destruct (Nat.ltb_spec k (o + length bs)).
    + by rewrite lookup_app_l by lia.
    + rewrite lookup_app_r by lia. rewrite lookup_drop. f_equal. lia.
  - rewrite lookup_app_l by (rewrite length_take; lia). by rewrite lookup_take_lt by lia.
Qed.

Lemma get_range_lookup p o n bs :
  length bs = n -> (o + n <= length p)%nat ->
  (forall i, (i < n)%nat -> p !! (o + i)%nat = bs !! i) -> get_range p o n = Some bs.
Proof.
  intros Hn Hl H. unfold get_range. apply Nat.leb_le in Hl as ->. f_equal.
  apply list_eq. intros i. destruct (decide (i < n)%nat) as [Hi|Hi].
  - rewrite lookup_take_lt, lookup_drop by done. by apply H.
  - rewrite !lookup_ge_None_2; [done|lia|rewrite length_take; lia].
Qed.

(** Loads depend on the bytes they read. *)
Lemma get16_ext p p' o : (forall k, (o <= k <= o + 1)%nat -> p' !! k = p !! k) -> get16 p' o = get16 p o.
Proof. intros H. unfold get16. by rewrite !H by lia. Qed.

Lemma get32_ext p p' o : (forall k, (o <= k <= o + 3)%nat -> p' !! k = p !! k) -> get32 p' o = get32 p o.
Proof. intros H. unfold get32. by rewrite !H by lia. Qed.

Lemma get8_ext p p' o : p' !! o = p !! o -> get8 p' o = get8 p o.
Proof. done. Qed.

Lemma get8_put8 p o v p' : is_u8 v -> put8 p o v = Some p' -> get8 p' o = Some v.
Proof.
  intros Hv [Hl ->]%put8_inv. unfold get8. rewrite list_lookup_insert_eq by done.
  f_equal. unfold u8. by apply Z.mod_small.
Qed.

Lemma get32_put32 p o v p' : is_u32 v -> put32 p o v = Some p' -> get32 p' o = Some v.
Proof.
  intros Hv H. assert (o + 3 < length p)%nat as Hl.
  { unfold put32 in H. obind.
    repeat match goal with H : put8 _ _ _ = Some _ |- _ => apply put8_inv in H as [? ->] end.
    rewrite !length_insert in *. lia. }
  rewrite put32_Some in H by done. injection H as <-. unfold get32.
  repeat first [rewrite list_lookup_insert_eq by (rewrite ?length_insert; lia)
               |rewrite list_lookup_insert_ne by lia]. simpl.
  f_equal. unfold u8, is_u32 in *. Z.div_mod_to_equations. lia.
Qed.

(** *** Buffers made of parts *)

Lemma put32_app pre a b c d rest v :
  put32 (pre ++ a :: b :: c :: d :: rest) (length pre) v = Some (pre ++ word_bytes v ++ rest).
Proof.
  rewrite put32_Some by (rewrite length_app; simpl; lia). f_equal.
  rewrite <-(Nat.add_0_r (length pre)) at 4.
  rewrite insert_app_r. cbn [list_insert insert].
  rewrite !insert_app_r. done.
Qed.

Lemma get32_app pre a b c d rest :
  get32 (pre ++ a :: b :: c :: d :: rest) (length pre)
  = Some (a + 2 ^ 8 * b + 2 ^ 16 * c + 2 ^ 24 * d).
Proof.
  unfold get32. rewrite !lookup_app_r by lia.
  rewrite Nat.sub_diag, !(Nat.add_comm (length pre)), !Nat.add_sub. reflexivity.
Qed.

Lemma word_bytes_get32 v : is_u32 v ->
  u8 v + 2 ^ 8 * u8 (v / 2 ^ 8) + 2 ^ 16 * u8 (v / 2 ^ 16) + 2 ^ 24 * u8 (v / 2 ^ 24) = v.
Proof. unfold is_u32, u8. intros Hv. Z.div_mod_to_equations. lia. Qed.

Lemma get32_at_word pre v rest : is_u32 v ->
  get32 (pre ++ word_bytes v ++ rest) (length pre) = Some v.
Proof. intros Hv. unfold word_bytes. simpl. by rewrite get32_app, word_bytes_get32. Qed.

Lemma put32_word_at pre v v' rest :
  put32 (pre ++ word_bytes v ++ rest) (length pre) v' = Some (pre ++ word_bytes v' ++ rest).
Proof. apply put32_app. Qed.

Lemma get_range_app a b : get_range (a ++ b) (length a) (length b) = Some b.
Proof.
  unfold get_range. rewrite length_app. assert ((length a + length b <=? length a + length b)%nat = true)
    as -> by (apply Nat.leb_le; lia).
  by rewrite drop_app_length, take_ge by lia.
Qed.

Lemma get_range_at a b c : get_range (a ++ b ++ c) (length a) (length b) = Some b.
Proof.
  unfold get_range. rewrite !length_app.
  assert ((length a + length b <=? length a + (length b + length c))%nat = true) as ->
    by (apply Nat.leb_le; lia).
  by rewrite drop_app_length, take_app_length.
Qed.

Lemma word_bytes_range v : is_bytes (word_bytes v).
Proof. repeat constructor; apply u8_range. Qed.

(** ** Lemmas: sums of words *)

Lemma sum16_bound p : is_bytes p -> 0 <= sum16 p <= 65535 * Z.of_nat (length p / 2).
Proof.
  intros Hp. remember (length p) as n eqn:En. revert p Hp En.
  induction n as [n IH] using lt_wf_ind. intros p Hp En.
  destruct p as [|a [|b p]]; cbn [sum16 length] in *; [lia..|].
  unfold is_bytes in *. rewrite !Forall_cons in Hp. destruct Hp as (Ha & Hb & Hp).
  specialize (IH (length p) ltac:(lia) p Hp eq_refl).
  assert (n / 2 = S (length p / 2))%nat as ->.
  { subst n. replace (S (S (length p))) with (length p + 1 * 2)%nat by lia.
    rewrite Nat.div_add by lia. lia. }
  unfold is_u8 in *. lia.
Qed.

Lemma sum16_app p q : Nat.Even (length p) -> sum16 (p ++ q) = sum16 p + sum16 q.
Proof.
  remember (length p) as n eqn:En. revert p En.
  induction n as [n IH] using lt_wf_ind. intros p En Hev. destruct Hev as [k Hk].
  destruct p as [|a [|b p]]; simpl in *; [lia|lia|].
  rewrite (IH (length p) ltac:(lia) p eq_refl); [lia|]. exists (k - 1)%nat. lia.
Qed.
