(* ===== verification/State.v ===== *)
(** The state of the router and the effects of its handlers: the structs of
    [or_data_types.h], the events the code produces towards its environment
    (frames, hardware register writes, lock operations, replies to a CLI
    socket), and the state-and-failure monad the handlers are written in. *)

From S2P Require Import Prelude Words Bytes.
Local Open Scope Z_scope.

(** ** The structs of [or_data_types.h]

    A linked list of [node]s is the list of their [data]; Nodes.v relates the
    node operations of or_utils.c to the list operations. A [char name[32]]
    buffer is the string it holds. An [in_addr] or [uint32_t] kept in network
    byte order is the word the little-endian host reads from it. *)

Record rtable_entry := mk_rtable_entry {
  re_ip : Z;
  re_gw : Z;
  re_mask : Z;
  re_iface : string;
  re_is_static : bool;
  re_is_active : bool
}.

Record arp_cache_entry := mk_arp_cache_entry {
  ac_ip : Z;
  ac_ha : bytes;
  ac_TTL : Z;
  ac_is_static : Z
}.

Record arp_queue_packet_entry := mk_arp_queue_packet_entry {
  qp_packet : bytes;
  qp_len : nat
}.

Record arp_queue_entry := mk_arp_queue_entry {
  aq_out_iface_name : string;
  aq_next_hop : Z;
  aq_requests : Z;
  aq_last_req_time : Z;
  aq_head : list arp_queue_packet_entry
}.

Record sping_queue_entry := mk_sping_queue_entry {
  sq_packet : bytes;
  sq_len : nat;
  sq_arrival_time : Z
}.

Record nbr_router := mk_nbr_router {
  nbr_router_id : Z;
  nbr_ip : Z;
  nbr_last_rcvd_hello : Z
}.

Record iface_entry := mk_iface_entry {
  if_name : string;
  if_addr : bytes;
  if_ip : Z;
  if_mask : Z;
  if_speed : Z;
  if_is_active : bool;
  if_last_sent_hello : Z;
  if_nbr_routers : list nbr_router;
  if_is_wan : Z
}.

Record pwospf_interface := mk_pwospf_interface {
  pi_subnet : Z;
  pi_mask : Z;
  pi_router_id : Z;
  pi_is_active : bool
}.

(** [pr_addr] is the address of the object: [pr_prev_router] is a pointer to
    another router object, which may have been freed since. *)
Record pwospf_router := mk_pwospf_router {
  pr_addr : nat;
  pr_router_id : Z;
  pr_area_id : Z;
  pr_seq : Z;
  pr_last_update : Z;
  pr_distance : Z;
  pr_shortest_path_found : bool;
  pr_interface_list : list pwospf_interface;
  pr_prev_router : option nat
}.

Record pwospf_lsu_queue_entry := mk_pwospf_lsu_queue_entry {
  lq_ip : Z;
  lq_iface : string;
  lq_packet : bytes;
  lq_len : nat
}.

Record nat_ip_port_pair := mk_nat_ip_port_pair {
  np_ip : Z;
  np_port : Z;
  np_checksum : Z;
  np_checksum_ip : Z;
  np_checksum_port : Z
}.

(** The moving average [avg_hits_per_second], a [double], is only used by the
    maintenance thread and is left out. *)
Record nat_entry := mk_nat_entry {
  nat_ext : nat_ip_port_pair;
  nat_int : nat_ip_port_pair;
  nat_last_hits : Z;
  nat_last_hits_time : Z;
  nat_hits : Z;
  nat_hw_row : Z;
  nat_is_static : Z
}.

Record local_ip_filter_entry := mk_local_ip_filter_entry {
  lf_ip : Z;
  lf_name : string
}.

Record router_state := mk_router_state {
  router_id : Z;
  area_id : Z;
  pwospf_hello_interval : Z;
  pwospf_lsu_interval : Z;
  pwospf_lsu_broadcast : Z;
  dijkstra_dirty : Z;
  is_netfpga : bool;
  arp_ttl : Z;
  nat_timeout : Z;
  rtable : list rtable_entry;
  arp_cache : list arp_cache_entry;
  if_list : list iface_entry;
  arp_queue : list arp_queue_entry;
  sping_queue : list sping_queue_entry;
  pwospf_router_list : list pwospf_router;
  pwospf_lsu_queue : list pwospf_lsu_queue_entry;
  nat_table : list nat_entry;
  local_ip_filter_list : list local_ip_filter_entry
}.

Definition set_router_id (v : Z) (rs : router_state) : router_state :=
  mk_router_state v rs.(area_id) rs.(pwospf_hello_interval) rs.(pwospf_lsu_interval)
    rs.(pwospf_lsu_broadcast) rs.(dijkstra_dirty) rs.(is_netfpga) rs.(arp_ttl)
    rs.(nat_timeout) rs.(rtable) rs.(arp_cache) rs.(if_list) rs.(arp_queue)
    rs.(sping_queue) rs.(pwospf_router_list) rs.(pwospf_lsu_queue) rs.(nat_table)
    rs.(local_ip_filter_list).
Definition set_area_id (v : Z) (rs : router_state) : router_state :=
  mk_router_state rs.(router_id) v rs.(pwospf_hello_interval) rs.(pwospf_lsu_interval)
    rs.(pwospf_lsu_broadcast) rs.(dijkstra_dirty) rs.(is_netfpga) rs.(arp_ttl)
    rs.(nat_timeout) rs.(rtable) rs.(arp_cache) rs.(if_list) rs.(arp_queue)
    rs.(sping_queue) rs.(pwospf_router_list) rs.(pwospf_lsu_queue) rs.(nat_table)
    rs.(local_ip_filter_list).
Definition set_pwospf_hello_interval (v : Z) (rs : router_state) : router_state :=
  mk_router_state rs.(router_id) rs.(area_id) v rs.(pwospf_lsu_interval)
    rs.(pwospf_lsu_broadcast) rs.(dijkstra_dirty) rs.(is_netfpga) rs.(arp_ttl)
    rs.(nat_timeout) rs.(rtable) rs.(arp_cache) rs.(if_list) rs.(arp_queue)
    rs.(sping_queue) rs.(pwospf_router_list) rs.(pwospf_lsu_queue) rs.(nat_table)
    rs.(local_ip_filter_list).
Definition set_pwospf_lsu_interval (v : Z) (rs : router_state) : router_state :=
  mk_router_state rs.(router_id) rs.(area_id) rs.(pwospf_hello_interval) v
    rs.(pwospf_lsu_broadcast) rs.(dijkstra_dirty) rs.(is_netfpga) rs.(arp_ttl)
    rs.(nat_timeout) rs.(rtable) rs.(arp_cache) rs.(if_list) rs.(arp_queue)
    rs.(sping_queue) rs.(pwospf_router_list) rs.(pwospf_lsu_queue) rs.(nat_table)
    rs.(local_ip_filter_list).
Definition set_pwospf_lsu_broadcast (v : Z) (rs : router_state) : router_state :=
  mk_router_state rs.(router_id) rs.(area_id) rs.(pwospf_hello_interval)
    rs.(pwospf_lsu_interval) v rs.(dijkstra_dirty) rs.(is_netfpga) rs.(arp_ttl)
    rs.(nat_timeout) rs.(rtable) rs.(arp_cache) rs.(if_list) rs.(arp_queue)
    rs.(sping_queue) rs.(pwospf_router_list) rs.(pwospf_lsu_queue) rs.(nat_table)
    rs.(local_ip_filter_list).
Definition set_dijkstra_dirty (v : Z) (rs : router_state) : router_state :=
  mk_router_state rs.(router_id) rs.(area_id) rs.(pwospf_hello_interval)
    rs.(pwospf_lsu_interval) rs.(pwospf_lsu_broadcast) v rs.(is_netfpga) rs.(arp_ttl)
    rs.(nat_timeout) rs.(rtable) rs.(arp_cache) rs.(if_list) rs.(arp_queue)
    rs.(sping_queue) rs.(pwospf_router_list) rs.(pwospf_lsu_queue) rs.(nat_table)
    rs.(local_ip_filter_list).
Definition set_arp_ttl (v : Z) (rs : router_state) : router_state :=
  mk_router_state rs.(router_id) rs.(area_id) rs.(pwospf_hello_interval)
    rs.(pwospf_lsu_interval) rs.(pwospf_lsu_broadcast) rs.(dijkstra_dirty) rs.(is_netfpga)
    v rs.(nat_timeout) rs.(rtable) rs.(arp_cache) rs.(if_list) rs.(arp_queue)
    rs.(sping_queue) rs.(pwospf_router_list) rs.(pwospf_lsu_queue) rs.(nat_table)
    rs.(local_ip_filter_list).
Definition set_nat_timeout (v : Z) (rs : router_state) : router_state :=
  mk_router_state rs.(router_id) rs.(area_id) rs.(pwospf_hello_interval)
    rs.(pwospf_lsu_interval) rs.(pwospf_lsu_broadcast) rs.(dijkstra_dirty) rs.(is_netfpga)
    rs.(arp_ttl) v rs.(rtable) rs.(arp_cache) rs.(if_list) rs.(arp_queue) rs.(sping_queue)
    rs.(pwospf_router_list) rs.(pwospf_lsu_queue) rs.(nat_table) rs.(local_ip_filter_list).
Definition set_rtable (v : list rtable_entry) (rs : router_state) : router_state :=
  mk_router_state rs.(router_id) rs.(area_id) rs.(pwospf_hello_interval)
    rs.(pwospf_lsu_interval) rs.(pwospf_lsu_broadcast) rs.(dijkstra_dirty) rs.(is_netfpga)
    rs.(arp_ttl) rs.(nat_timeout) v rs.(arp_cache) rs.(if_list) rs.(arp_queue)
    rs.(sping_queue) rs.(pwospf_router_list) rs.(pwospf_lsu_queue) rs.(nat_table)
    rs.(local_ip_filter_list).
Definition set_arp_cache (v : list arp_cache_entry) (rs : router_state) : router_state :=
  mk_router_state rs.(router_id) rs.(area_id) rs.(pwospf_hello_interval)
    rs.(pwospf_lsu_interval) rs.(pwospf_lsu_broadcast) rs.(dijkstra_dirty) rs.(is_netfpga)
    rs.(arp_ttl) rs.(nat_timeout) rs.(rtable) v rs.(if_list) rs.(arp_queue)
    rs.(sping_queue) rs.(pwospf_router_list) rs.(pwospf_lsu_queue) rs.(nat_table)
    rs.(local_ip_filter_list).
Definition set_if_list (v : list iface_entry) (rs : router_state) : router_state :=
  mk_router_state rs.(router_id) rs.(area_id) rs.(pwospf_hello_interval)
    rs.(pwospf_lsu_interval) rs.(pwospf_lsu_broadcast) rs.(dijkstra_dirty) rs.(is_netfpga)
    rs.(arp_ttl) rs.(nat_timeout) rs.(rtable) rs.(arp_cache) v rs.(arp_queue)
    rs.(sping_queue) rs.(pwospf_router_list) rs.(pwospf_lsu_queue) rs.(nat_table)
    rs.(local_ip_filter_list).
Definition set_arp_queue (v : list arp_queue_entry) (rs : router_state) : router_state :=
  mk_router_state rs.(router_id) rs.(area_id) rs.(pwospf_hello_interval)
    rs.(pwospf_lsu_interval) rs.(pwospf_lsu_broadcast) rs.(dijkstra_dirty) rs.(is_netfpga)
    rs.(arp_ttl) rs.(nat_timeout) rs.(rtable) rs.(arp_cache) rs.(if_list) v
    rs.(sping_queue) rs.(pwospf_router_list) rs.(pwospf_lsu_queue) rs.(nat_table)
    rs.(local_ip_filter_list).
Definition set_sping_queue (v : list sping_queue_entry) (rs : router_state) : router_state :=
  mk_router_state rs.(router_id) rs.(area_id) rs.(pwospf_hello_interval)
    rs.(pwospf_lsu_interval) rs.(pwospf_lsu_broadcast) rs.(dijkstra_dirty) rs.(is_netfpga)
    rs.(arp_ttl) rs.(nat_timeout) rs.(rtable) rs.(arp_cache) rs.(if_list) rs.(arp_queue) v
    rs.(pwospf_router_list) rs.(pwospf_lsu_queue) rs.(nat_table) rs.(local_ip_filter_list).
Definition set_pwospf_router_list (v : list pwospf_router) (rs : router_state) : router_state :=
  mk_router_state rs.(router_id) rs.(area_id) rs.(pwospf_hello_interval)
    rs.(pwospf_lsu_interval) rs.(pwospf_lsu_broadcast) rs.(dijkstra_dirty) rs.(is_netfpga)
    rs.(arp_ttl) rs.(nat_timeout) rs.(rtable) rs.(arp_cache) rs.(if_list) rs.(arp_queue)
    rs.(sping_queue) v rs.(pwospf_lsu_queue) rs.(nat_table) rs.(local_ip_filter_list).
Definition set_pwospf_lsu_queue (v : list pwospf_lsu_queue_entry) (rs : router_state) : router_state :=
  mk_router_state rs.(router_id) rs.(area_id) rs.(pwospf_hello_interval)
    rs.(pwospf_lsu_interval) rs.(pwospf_lsu_broadcast) rs.(dijkstra_dirty) rs.(is_netfpga)
    rs.(arp_ttl) rs.(nat_timeout) rs.(rtable) rs.(arp_cache) rs.(if_list) rs.(arp_queue)
    rs.(sping_queue) rs.(pwospf_router_list) v rs.(nat_table) rs.(local_ip_filter_list).
Definition set_nat_table (v : list nat_entry) (rs : router_state) : router_state :=
  mk_router_state rs.(router_id) rs.(area_id) rs.(pwospf_hello_interval)
    rs.(pwospf_lsu_interval) rs.(pwospf_lsu_broadcast) rs.(dijkstra_dirty) rs.(is_netfpga)
    rs.(arp_ttl) rs.(nat_timeout) rs.(rtable) rs.(arp_cache) rs.(if_list) rs.(arp_queue)
    rs.(sping_queue) rs.(pwospf_router_list) rs.(pwospf_lsu_queue) v
    rs.(local_ip_filter_list).
Definition set_local_ip_filter_list (v : list local_ip_filter_entry) (rs : router_state) : router_state :=
  mk_router_state rs.(router_id) rs.(area_id) rs.(pwospf_hello_interval)
    rs.(pwospf_lsu_interval) rs.(pwospf_lsu_broadcast) rs.(dijkstra_dirty) rs.(is_netfpga)
    rs.(arp_ttl) rs.(nat_timeout) rs.(rtable) rs.(arp_cache) rs.(if_list) rs.(arp_queue)
    rs.(sping_queue) rs.(pwospf_router_list) rs.(pwospf_lsu_queue) rs.(nat_table) v.

(** ** Locks, registers and events *)

Inductive lock :=
  | L_lsu_bcast | L_dijkstra | L_arp_cache | L_arp_queue | L_if_list | L_rtable
  | L_nat_table | L_router_list | L_lsu_queue | L_sping | L_ip_filters | L_write
  | L_cli_commands | L_www.

Inductive lock_mode := Rd | Wr | Mutex.

Inductive cond_var := C_lsu_bcast | C_dijkstra | C_nat_table | C_sping | C_www.

(** The device registers the router software writes and reads. *)
Inductive reg :=
  | RT_ENTRY_IP | RT_ENTRY_MASK | RT_ENTRY_NEXT_HOP_IP | RT_ENTRY_OUTPUT_PORT | RT_WR_ADDR | RT_RD_ADDR
  | ARP_ENTRY_MAC_HI | ARP_ENTRY_MAC_LO | ARP_ENTRY_NEXT_HOP_IP | ARP_WR_ADDR | ARP_RD_ADDR
  | FILTER_ENTRY_IP | FILTER_WR_ADDR | FILTER_RD_ADDR
  | MAC_HI (port : Z) | MAC_LO (port : Z) | MAC_GRP_CONTROL (queue : Z)
  | CPCI_CTRL | ARP_NUM_MISSES | NUM_PKTS_FORWARDED
  | RX_PKTS_STORED (q : Z) | TX_PKTS_SENT (q : Z) | RX_BYTES_PUSHED (q : Z)
  | TX_BYTES_PUSHED (q : Z) | RX_PKTS_DROPPED_FULL (q : Z) | RX_PKTS_DROPPED_BAD (q : Z)
  | OQ_PKTS_DROPPED (q : Z).

Inductive event :=
  | EvLock (l : lock) (m : lock_mode)
  | EvUnlock (l : lock)
  | EvSignal (c : cond_var)
  | EvSend (packet : bytes) (len : nat) (iface : string)
  | EvTransport (ip_packet : bytes)
  | EvWriteReg (r : reg) (v : Z)
  | EvSocket (fd : Z) (msg : string)
  | EvClose (fd : Z).

#[export] Instance lock_eq_dec : EqDecision lock.
Proof. solve_decision. Defined.
#[export] Instance reg_eq_dec : EqDecision reg.
Proof. solve_decision. Defined.

(** ** The world and the monad

    The environment answers the calls of the C library and of the driver:
    [time], [rand], the result of the low-level output routine and the value
    of a register read. The k-th such call gets the k-th answer. *)

Record env := mk_env {
  env_time : nat -> Z;
  env_rand : nat -> Z;
  env_output : nat -> Z;
  env_reg : nat -> reg -> Z
}.

(** A time of day that fits [time_t] and [int]. *)
Definition is_time (t : Z) : Prop := 0 <= t < 2 ^ 31.

Record world := mk_world {
  w_rs : router_state;
  w_trace : list event;
  w_tick : nat;
  w_next_addr : nat;
  w_env : env
}.

(** Why a handler stops without returning. *)
Inductive crash := NullDeref | AssertFailed | OutOfBounds | UseAfterFree | OutOfFuel.

Inductive outcome (A : Type) :=
  | Done (a : A) (w : world)
  | Crashed (c : crash) (w : world).
Arguments Done {A} a w.
Arguments Crashed {A} c w.

Definition M (A : Type) : Type := world -> outcome A.

#[export] Instance M_ret : MRet M := fun A a w => Done a w.
#[export] Instance M_bind : MBind M := fun A B f m w =>
  match m w with
  | Done a w' => f a w'
  | Crashed c w' => Crashed c w'
  end.

Definition fail {A} (c : crash) : M A := fun w => Crashed c w.

(** Pure computations that may crash, and their lifting to the monad. *)
Definition res (A : Type) : Type := (crash + A)%type.

#[export] Instance res_ret : MRet res := fun A a => inr a.
#[export] Instance res_bind : MBind res := fun A B f r =>
  match r with inl c => inl c | inr a => f a end.

Definition lift_res {A} (r : res A) : M A :=
  match r with inl c => fail c | inr a => mret a end.

Definition res_of {A} (c : crash) (o : option A) : res A :=
  match o with Some a => inr a | None => inl c end.

(** A computation on buffers or pointers, its failure being the crash [c]. *)
Definition lift {A} (c : crash) (o : option A) : M A :=
  match o with Some a => mret a | None => fail c end.

Definition mem {A} (o : option A) : M A := lift OutOfBounds o.
Definition deref {A} (o : option A) : M A := lift NullDeref o.
Definition assert_ (b : bool) : M unit := if b then mret tt else fail AssertFailed.

Definition get_rs : M router_state := fun w => Done (w_rs w) w.

Definition put_rs (rs : router_state) : M unit := fun w =>
  Done tt (mk_world rs (w_trace w) (w_tick w) (w_next_addr w) (w_env w)).

Definition modify_rs (f : router_state -> router_state) : M unit := fun w =>
  Done tt (mk_world (f (w_rs w)) (w_trace w) (w_tick w) (w_next_addr w) (w_env w)).

Definition emit (e : event) : M unit := fun w =>
  Done tt (mk_world (w_rs w) (w_trace w ++ [e]) (w_tick w) (w_next_addr w) (w_env w)).

Definition ask {A} (f : env -> nat -> A) : M A := fun w =>
  Done (f (w_env w) (w_tick w))
    (mk_world (w_rs w) (w_trace w) (S (w_tick w)) (w_next_addr w) (w_env w)).

(** [time(&t)] *)
Definition time : M Z := ask env_time.

(** [rand()] *)
Definition rand : M Z := ask env_rand.

(** A fresh heap address, for the objects other objects point to. *)
Definition fresh_addr : M nat := fun w =>
  Done (w_next_addr w)
    (mk_world (w_rs w) (w_trace w) (w_tick w) (S (w_next_addr w)) (w_env w)).

(** [writeReg] and [readReg] of the device driver. *)
Definition writeReg (r : reg) (v : Z) : M unit := emit (EvWriteReg r v).
Definition readReg (r : reg) : M Z := ask (fun e n => env_reg e n r).

Definition acquire (l : lock) (m : lock_mode) : M unit := emit (EvLock l m).
Definition release (l : lock) : M unit := emit (EvUnlock l).
Definition signal (c : cond_var) : M unit := emit (EvSignal c).

(** Runs an effect on every element of a list, in order. *)
Fixpoint foreach {A} (f : A -> M unit) (l : list A) : M unit :=
  match l with
  | [] => mret tt
  | x :: l' => f x;; foreach f l'
  end.

(** Rewrites the elements of a list one after the other with an effectful
    function that keeps ([Some]) or removes ([None]) the element. *)
Fixpoint filter_mapM {A} (f : A -> M (option A)) (l : list A) : M (list A) :=
  match l with
  | [] => mret []
  | x :: l' =>
      o ← f x;
      r ← filter_mapM f l';
      mret (match o with Some y => y :: r | None => r end)
  end.

(** ** The lock discipline

    Replays the lock operations of a trace from the locks held: an acquisition
    must take a lock of higher rank than every lock held (so threads that
    follow the discipline cannot deadlock on each other, nor on themselves),
    and a release must release a lock that is held. *)

Definition rank (l : lock) : nat :=
  match l with
  | L_cli_commands => 0 | L_lsu_bcast => 1 | L_dijkstra => 2 | L_arp_cache => 3
  | L_arp_queue => 4 | L_if_list => 5 | L_rtable => 6 | L_nat_table => 7
  | L_router_list => 8 | L_lsu_queue => 9 | L_sping => 10 | L_ip_filters => 11
  | L_write => 12 | L_www => 13
  end.

Definition below (h : list lock) (l : lock) : bool :=
  forallb (fun l' => rank l' <? rank l)%nat h.

Fixpoint remove_lock (l : lock) (h : list lock) : option (list lock) :=
  match h with
  | [] => None
  | l' :: h' => if decide (l = l') then Some h' else cons l' <$> remove_lock l h'
  end.

Definition lock_step (h : list lock) (e : event) : option (list lock) :=
  match e with
  | EvLock l _ => if below h l then Some (l :: h) else None
  | EvUnlock l => remove_lock l h
  | _ => Some h
  end.

Fixpoint run_locks (h : list lock) (t : list event) : option (list lock) :=
  match t with
  | [] => Some h
  | e :: t' => h' ← lock_step h e; run_locks h' t'
  end.

(** [lock_spec h m Q]: started with the locks [h] held, [m] respects the lock
    discipline, whether it returns or crashes, and returns with the locks [Q]. *)
Definition lock_spec {A} (h : list lock) (m : M A) (Q : A -> list lock -> Prop) : Prop :=
  forall w,
    match m w with
    | Done a w' =>
        exists t h', w_trace w' = w_trace w ++ t /\ run_locks h t = Some h' /\ Q a h'
    | Crashed _ w' =>
        exists t h', w_trace w' = w_trace w ++ t /\ run_locks h t = Some h'
    end.

(** [m] respects the discipline and returns with the locks it started with. *)
Definition balanced {A} (h : list lock) (m : M A) : Prop :=
  lock_spec h m (fun _ h' => h' = h).

(** ** Weakest preconditions

    [wp m Q w]: run from [w], [m] returns normally in a state satisfying [Q]. *)
Definition wp {A} (m : M A) (Q : A -> world -> Prop) (w : world) : Prop :=
  match m w with
  | Done a w' => Q a w'
  | Crashed _ _ => False
  end.

(** ** Lemmas: weakest preconditions *)

Lemma wp_ret {A} (a : A) Q w : Q a w -> wp (mret a) Q w.
Proof. done. Qed.

Lemma wp_bind {A B} (m : M A) (f : A -> M B) Q w :
  wp m (fun a w' => wp (f a) Q w') w -> wp (m ≫= f) Q w.
Proof. unfold wp, mbind, M_bind. by destruct (m w). Qed.

Lemma wp_mono {A} (m : M A) (P Q : A -> world -> Prop) w :
  wp m P w -> (forall a w', P a w' -> Q a w') -> wp m Q w.
Proof. unfold wp. destruct (m w); naive_solver. Qed.

Lemma wp_done {A} (m : M A) Q w a w' : m w = Done a w' -> Q a w' -> wp m Q w.
Proof. unfold wp. by intros ->. Qed.

Lemma wp_inv {A} (m : M A) Q w : wp m Q w -> exists a w', m w = Done a w' /\ Q a w'.
Proof. unfold wp. destruct (m w); naive_solver. Qed.

Lemma bind_done {A B} (m : M A) (f : A -> M B) w a w' :
  m w = Done a w' -> (m ≫= f) w = f a w'.
Proof. unfold mbind, M_bind. by intros ->. Qed.

Lemma bind_done_inv {A B} (m : M A) (f : A -> M B) w b w'' :
  (m ≫= f) w = Done b w'' -> exists a w', m w = Done a w' /\ f a w' = Done b w''.
Proof. unfold mbind, M_bind. destruct (m w); naive_solver. Qed.

Lemma bind_assoc {A B C} (m : M A) (f : A -> M B) (g : B -> M C) w :
  ((m ≫= f) ≫= g) w = (m ≫= (fun a => f a ≫= g)) w.
Proof. unfold mbind, M_bind. by destruct (m w). Qed.

Lemma mem_Some {A} (o : option A) a w : o = Some a -> mem o w = Done a w.
Proof. by intros ->. Qed.

Lemma deref_Some {A} (o : option A) a w : o = Some a -> deref o w = Done a w.
Proof. by intros ->. Qed.

(** ** Lemmas: the lock discipline *)

Lemma run_locks_app h t1 t2 :
  run_locks h (t1 ++ t2) = h' ← run_locks h t1; run_locks h' t2.
Proof.
  revert h. induction t1 as [|e t1 IH]; intros h; simpl; [done|].
  destruct (lock_step h e); simpl; [apply IH|done].
Qed.

Lemma lock_spec_ret {A} h (a : A) (Q : A -> list lock -> Prop) : Q a h -> lock_spec h (mret a) Q.
Proof. intros HQ w. exists [], h. simpl. by rewrite app_nil_r. Qed.

Lemma lock_spec_fail {A} h c (Q : A -> list lock -> Prop) : lock_spec h (fail c) Q.
Proof. intros w. exists [], h. simpl. by rewrite app_nil_r. Qed.

Lemma lock_spec_bind {A B} h (m : M A) (f : A -> M B) P Q :
  lock_spec h m P -> (forall a h', P a h' -> lock_spec h' (f a) Q) -> lock_spec h (m ≫= f) Q.
Proof.
  intros Hm Hf w. unfold mbind, M_bind. specialize (Hm w).
  destruct (m w) as [a w1|c w1]; [|done].
  destruct Hm as (t1 & h1 & E1 & R1 & HP). specialize (Hf a h1 HP w1).
  destruct (f a w1) as [b w2|c w2].
  - destruct Hf as (t2 & h2 & E2 & R2 & HQ). exists (t1 ++ t2), h2.
    rewrite E2, E1, app_assoc, run_locks_app, R1. done.
  - destruct Hf as (t2 & h2 & E2 & R2). exists (t1 ++ t2), h2.
    rewrite E2, E1, app_assoc, run_locks_app, R1. done.
Qed.

Lemma lock_spec_mono {A} h (m : M A) (P Q : A -> list lock -> Prop) :
  lock_spec h m P -> (forall a h', P a h' -> Q a h') -> lock_spec h m Q.
Proof.
  intros Hm HPQ w. specialize (Hm w). destruct (m w); [|done].
  destruct Hm as (t & h' & ? & ? & ?). exists t, h'. eauto.
Qed.

Lemma lock_spec_emit h h' e (Q : unit -> list lock -> Prop) :
  lock_step h e = Some h' -> Q tt h' -> lock_spec h (emit e) Q.
Proof. intros Hs HQ w. exists [e], h'. simpl. by rewrite Hs. Qed.

(** Computations that leave the trace alone are balanced. *)
Definition silent {A} (m : M A) : Prop :=
  forall w, match m w with Done _ w' | Crashed _ w' => w_trace w' = w_trace w end.

Lemma silent_balanced {A} h (m : M A) : silent m -> balanced h m.
Proof.
  intros Hm w. specialize (Hm w). destruct (m w); exists [], h; rewrite app_nil_r; naive_solver.
Qed.

Lemma silent_lift {A} c (o : option A) : silent (lift c o).
Proof. intros w. by destruct o. Qed.
Lemma silent_lift_res {A} (r : res A) : silent (lift_res r).
Proof. intros w. by destruct r. Qed.
Lemma silent_get_rs : silent get_rs.
Proof. intros w. done. Qed.
Lemma silent_put_rs rs : silent (put_rs rs).
Proof. intros w. done. Qed.
Lemma silent_modify_rs f : silent (modify_rs f).
Proof. intros w. done. Qed.
Lemma silent_ask {A} (f : env -> nat -> A) : silent (ask f).
Proof. intros w. done. Qed.
Lemma silent_fresh_addr : silent fresh_addr.
Proof. intros w. done. Qed.
Lemma silent_assert b : silent (assert_ b).
Proof. intros w. by destruct b. Qed.

#[export] Hint Resolve silent_get_rs silent_put_rs silent_modify_rs silent_fresh_addr
  silent_assert : locks.
#[export] Hint Extern 1 (silent (lift_res _)) => apply silent_lift_res : locks.
#[export] Hint Extern 1 (silent (mem _)) => apply silent_lift : locks.
#[export] Hint Extern 1 (silent (deref _)) => apply silent_lift : locks.
#[export] Hint Extern 1 (silent (lift _ _)) => apply silent_lift : locks.
#[export] Hint Extern 1 (silent time) => apply silent_ask : locks.
#[export] Hint Extern 1 (silent rand) => apply silent_ask : locks.
#[export] Hint Extern 1 (silent (ask _)) => apply silent_ask : locks.
#[export] Hint Extern 1 (silent (readReg _)) => apply silent_ask : locks.
#[export] Hint Extern 2 (balanced _ _) => apply silent_balanced; solve [auto with locks] : locks.

Lemma balanced_writeReg h r v : balanced h (writeReg r v).
Proof. by eapply lock_spec_emit. Qed.
Lemma balanced_signal h c : balanced h (signal c).
Proof. by eapply lock_spec_emit. Qed.
#[export] Hint Resolve balanced_writeReg balanced_signal : locks.

Lemma balanced_foreach {A} h (f : A -> M unit) l :
  (forall x, balanced h (f x)) -> balanced h (foreach f l).
Proof.
  intros Hf. induction l as [|x l IH]; simpl; [by apply lock_spec_ret|].
  eapply lock_spec_bind; [apply Hf|]. by intros _ h' ->.
Qed.

Lemma balanced_filter_mapM {A} h (f : A -> M (option A)) l :
  (forall x, balanced h (f x)) -> balanced h (filter_mapM f l).
Proof.
  intros Hf. induction l as [|x l IH]; simpl; [by apply lock_spec_ret|].
  eapply lock_spec_bind; [apply Hf|]. intros o h' ->.
  eapply lock_spec_bind; [apply IH|]. intros r h' ->. by apply lock_spec_ret.
Qed.

(** Steps through a handler, proving its lock specification. *)
Ltac lock_step :=
  lazymatch goal with
  | |- balanced ?h ?m => unfold balanced; lock_step
  | |- lock_spec _ (mret _) _ => apply lock_spec_ret; try reflexivity
  | |- lock_spec _ (fail _) _ => apply lock_spec_fail
  | |- lock_spec _ (acquire _ _) _ => eapply lock_spec_emit; [reflexivity|try reflexivity]
  | |- lock_spec _ (release _) _ => eapply lock_spec_emit; [reflexivity|try reflexivity]
  | |- lock_spec _ (emit _) _ => eapply lock_spec_emit; [reflexivity|try reflexivity]
  | |- lock_spec _ (acquire _ _ ≫= _) _ =>
      eapply lock_spec_bind;
        [eapply lock_spec_emit with (Q := fun _ h' => h' = _); [reflexivity|reflexivity]|intros ? ? ->]
  | |- lock_spec _ (release _ ≫= _) _ =>
      eapply lock_spec_bind;
        [eapply lock_spec_emit with (Q := fun _ h' => h' = _); [reflexivity|reflexivity]|intros ? ? ->]
  | |- lock_spec _ (emit _ ≫= _) _ =>
      eapply lock_spec_bind;
        [eapply lock_spec_emit with (Q := fun _ h' => h' = _); [reflexivity|reflexivity]|intros ? ? ->]
  | |- lock_spec ?h (?m ≫= _) _ =>
      eapply lock_spec_bind with (P := fun _ h' => h' = h);
        [change (balanced h m)|intros ? ? ->]
  | |- lock_spec _ (match ?x with _ => _ end) _ => destruct x
  | |- lock_spec _ (let '_ := ?x in _) _ => destruct x
  | |- lock_spec ?h ?m (fun _ h' => h' = ?h) => change (balanced h m)
  end.

Ltac lock_auto :=
  repeat first
    [ progress cbv beta zeta
    | solve [auto 3 with locks nocore]
    | apply balanced_foreach; intros
    | apply balanced_filter_mapM; intros
    | progress (lock_step) ].
