(* ===== verification/Nodes.v ===== *)
(** The doubly linked lists of or_utils.c: a heap of [node] cells with their
    [prev] and [next] pointers, the four node operations as they walk and
    patch the cells, and the loops the router runs over such lists. The
    theorems relate them to the list operations the other files use:
    [node_push_back] appends, [node_remove] deletes, and the
    save-next-then-remove loop is a filter. Accessing a freed cell crashes
    with [UseAfterFree]. *)

From S2P Require Import Prelude Words Bytes State.

Section Nodes.
Context {D : Type}.

(** ** Cells and heaps *)

Abbreviation loc := nat.

(** [struct node]; [n_data] is [None] for a null [data]. *)
Record node := mk_node {
  n_prev : option loc;
  n_next : option loc;
  n_data : option D
}.

Abbreviation heap := (gmap loc node).

Definition load (h : heap) (n : loc) : res node := res_of UseAfterFree (h !! n).

Definition set_next (h : heap) (n : loc) (v : option loc) : res heap :=
  c ← load h n; mret (<[n := mk_node (n_prev c) v (n_data c)]> h).

Definition set_prev (h : heap) (n : loc) (v : option loc) : res heap :=
  c ← load h n; mret (<[n := mk_node v (n_next c) (n_data c)]> h).

Definition set_data (h : heap) (n : loc) (v : option D) : res heap :=
  c ← load h n; mret (<[n := mk_node (n_prev c) (n_next c) v]> h).

(** [free(n->data); free(n);] *)
Definition free_node (h : heap) (n : loc) : res heap :=
  _ ← load h n; mret (delete n h).

(** ** The operations of or_utils.c *)

(** [malloc] then [bzero] *)
Definition node_create (h : heap) : loc * heap :=
  let n := fresh (dom h) in (n, <[n := mk_node None None None]> h).

(** [while (cur->next != NULL) cur = cur->next; cur->next = n; n->prev = cur;] *)
Fixpoint node_push_back_loop (fuel : nat) (h : heap) (cur n : loc) : res heap :=
  match fuel with
  | O => inl OutOfFuel
  | S fuel' =>
      c ← load h cur;
      match n_next c with
      | Some next => node_push_back_loop fuel' h next n
      | None => h ← set_next h cur (Some n); set_prev h n (Some cur)
      end
  end.

Definition node_push_back (h : heap) (head n : loc) : res heap :=
  node_push_back_loop (S (size h)) h head n.

(** The head pointer is passed by reference: the new head is returned. *)
Definition node_remove (h : heap) (head : option loc) (n : loc) : res (heap * option loc) :=
  c ← load h n;
  match n_next c, n_prev c with
  | None, None => h ← free_node h n; mret (h, None)
  | Some nx, None => h ← set_prev h nx None; h ← free_node h n; mret (h, Some nx)
  | None, Some pv => h ← set_next h pv None; h ← free_node h n; mret (h, head)
  | Some nx, Some pv =>
      h ← set_next h pv (Some nx); h ← set_prev h nx (Some pv);
      h ← free_node h n; mret (h, head)
  end.

Fixpoint node_length_loop (fuel : nat) (h : heap) (walker : option loc) (len : nat) : res nat :=
  match walker with
  | None => mret len
  | Some n =>
      match fuel with
      | O => inl OutOfFuel
      | S fuel' => c ← load h n; node_length_loop fuel' h (n_next c) (S len)
      end
  end.

Definition node_length (h : heap) (head : option loc) : res nat :=
  node_length_loop (size h) h head 0.

(** ** Loops over lists *)

(** [while (cur) { next = cur->next; if (p(cur->data)) node_remove(&head, cur);
    cur = next; }]: the loop of [del_route], [del_arp_cache] and the others. *)
Fixpoint node_filter_loop (fuel : nat) (p : D -> bool) (h : heap) (head cur : option loc)
    : res (heap * option loc) :=
  match cur with
  | None => mret (h, head)
  | Some n =>
      match fuel with
      | O => inl OutOfFuel
      | S fuel' =>
          c ← load h n;
          d ← res_of NullDeref (n_data c);
          if p d then
            '(h, head) ← node_remove h head n;
            node_filter_loop fuel' p h head (n_next c)
          else node_filter_loop fuel' p h head (n_next c)
      end
  end.

(** [cur = list; while (cur) { node_remove(&list, cur); }]: the loop by which
    [iface_up] and [iface_down] clear the neighbours of an interface. *)
Fixpoint clear_loop (fuel : nat) (h : heap) (head cur : option loc) : res (heap * option loc) :=
  match cur with
  | None => mret (h, head)
  | Some n =>
      match fuel with
      | O => inl OutOfFuel
      | S fuel' => '(h, head) ← node_remove h head n; clear_loop fuel' h head cur
      end
  end.

(** ** Representation *)

(** [seg h p l n]: the cells of [l], in order, linked in both directions,
    preceded by [p] and followed by [n]. *)
Fixpoint seg (h : heap) (p : option loc) (l : list (loc * D)) (n : option loc) : Prop :=
  match l with
  | [] => True
  | (a, d) :: l' =>
      h !! a = Some (mk_node p (match l' with [] => n | (b, _) :: _ => Some b end) (Some d))
      /\ seg h (Some a) l' n
  end.

Definition first_loc (l : list (loc * D)) : option loc := fst <$> head l.
Definition last_loc (p : option loc) (l : list (loc * D)) : option loc :=
  match last l with Some (a, _) => Some a | None => p end.

(** [head] points to a well-formed null-terminated list holding [l]. *)
Definition dll (h : heap) (head : option loc) (l : list (loc * D)) : Prop :=
  head = first_loc l /\ NoDup l.*1 /\ seg h None l None.

(** ** Lemmas *)

Lemma load_Some h n c : h !! n = Some c -> load h n = inr c.
Proof. unfold load. by intros ->. Qed.

Lemma seg_app h p l1 l2 n :
  seg h p (l1 ++ l2) n <->
  seg h p l1 (match l2 with [] => n | (b, _) :: _ => Some b end) /\ seg h (last_loc p l1) l2 n.
Proof.
  revert p. induction l1 as [|[a d] l1 IH]; intros p; simpl.
  { unfold last_loc. simpl. tauto. }
  rewrite IH. assert (last_loc (Some a) l1 = last_loc p ((a, d) :: l1)) as ->.
  { unfold last_loc. rewrite last_cons. by destruct (last l1) as [[? ?]|]. }
  destruct l1 as [|[b ?] l1], l2 as [|[? ?] l2]; simpl; tauto.
Qed.

Lemma seg_frame h h' p l n :
  (forall a, a ∈ l.*1 -> h' !! a = h !! a) -> seg h p l n -> seg h' p l n.
Proof.
  revert p. induction l as [|[a d] l IH]; intros p Hf; simpl; [done|].
  intros [Ha Hs]. split; [rewrite Hf; [done|set_solver]|].
  apply IH; [|done]. intros. apply Hf. set_solver.
Qed.

Lemma seg_lookup h p l n a : seg h p l n -> a ∈ l.*1 -> is_Some (h !! a).
Proof.
  revert p. induction l as [|[b d] l IH]; intros p; simpl; [set_solver|].
  intros [Hb Hs] [->|Ha]%elem_of_cons; [eauto|]. by eapply IH.
Qed.

Lemma last_loc_snoc p l a d : last_loc p (l ++ [(a, d)]) = Some a.
Proof. unfold last_loc. by rewrite last_snoc. Qed.

Lemma seg_length_le h p l n : NoDup l.*1 -> seg h p l n -> length l <= size h.
Proof.
  intros Hnd Hs. rewrite <- (length_fmap fst l), <- size_dom.
  rewrite <- (size_list_to_set (C := gset loc)) by done.
  apply subseteq_size. intros a Ha%elem_of_list_to_set.
  by apply elem_of_dom, (seg_lookup h p l n).
Qed.

(** The walk of [node_push_back] from any cell of the list. *)
Lemma node_push_back_loop_spec fuel h p l a0 d0 n d :
  length l <= fuel -> NoDup ((a0, d0) :: l).*1 -> n ∉ ((a0, d0) :: l).*1 ->
  seg h p ((a0, d0) :: l) None -> h !! n = Some (mk_node None None (Some d)) ->
  exists h', node_push_back_loop (S fuel) h a0 n = inr h' /\
    seg h' p ((a0, d0) :: l ++ [(n, d)]) None /\
    (forall k, k ∉ ((a0, d0) :: l).*1 -> k ≠ n -> h' !! k = h !! k).
Proof.
  revert fuel p a0 d0. induction l as [|[b db] l IH]; intros fuel p a0 d0 Hl Hnd Hn Hs Hnc.
  - simpl in Hs. destruct Hs as [Ha _]. cbn [node_push_back_loop].
    rewrite (load_Some _ _ _ Ha). simpl. unfold set_next, set_prev.
    rewrite (load_Some _ _ _ Ha). simpl.
    assert (a0 ≠ n) by set_solver.
    rewrite (load_Some _ n (mk_node None None (Some d))) by (by rewrite lookup_insert_ne).
    eexists. split; [done|]. simpl. split; [split; [|split; [|done]]|].
    + rewrite lookup_insert_ne by done. by rewrite lookup_insert_eq.
    + by rewrite lookup_insert_eq.
    + intros k Hk1 Hk2. rewrite !lookup_insert_ne; set_solver.
  - simpl in Hl. destruct fuel as [|fuel]; [lia|].
    destruct Hs as [Ha Hs]. cbn [node_push_back_loop].
    rewrite (load_Some _ _ _ Ha).
    destruct (IH fuel (Some a0) b db) as (h' & E & Hs' & Hf);
      [lia|by apply NoDup_cons in Hnd as [_ ?]|set_solver|done|done|].
    exists h'. split; [exact E|]. split; [|intros k Hk1 Hk2; apply Hf; set_solver].
    split; [|exact Hs'].
    apply NoDup_cons in Hnd as [Ha0 _]. rewrite Hf; set_solver.
Qed.

(** Heap cells outside a list are not touched by an operation on it. *)
Definition untouched (h h' : heap) (ls : list loc) : Prop :=
  forall k, k ∉ ls -> h' !! k = h !! k.

(** [node_push_back] appends to the list its node, walking it within the
    fuel given by the heap, and leaves every other cell alone. *)
Theorem node_push_back_correct h hd l a0 d0 n d :
  dll h (Some hd) ((a0, d0) :: l) -> n ∉ ((a0, d0) :: l).*1 ->
  h !! n = Some (mk_node None None (Some d)) ->
  exists h', node_push_back h hd n = inr h' /\
    dll h' (Some hd) ((a0, d0) :: l ++ [(n, d)]) /\
    untouched h h' (n :: ((a0, d0) :: l).*1).
Proof.
  intros (Hhd & Hnd & Hs) Hn Hnc. cbn in Hhd. injection Hhd as ->.
  destruct (node_push_back_loop_spec (size h) h None l a0 d0 n d) as (h' & E & Hs' & Hf);
    [|done..|].
  { pose proof (seg_length_le h None ((a0, d0) :: l) None Hnd Hs). simpl in *. lia. }
  exists h'. split; [exact E|]. split; [split_and!; [done| |done]|].
  - change ((a0, d0) :: l ++ [(n, d)]) with (((a0, d0) :: l) ++ [(n, d)]).
    rewrite fmap_app. apply NoDup_app. split_and!; [done| |apply NoDup_singleton].
    intros k Hk ->%list_elem_of_singleton. done.
  - intros k Hk. apply Hf; set_solver.
Qed.

(** A cell of a list, with its neighbours. *)
Lemma dll_lookup_middle h hd l1 n d l2 : dll h hd (l1 ++ (n, d) :: l2) ->
  h !! n = Some (mk_node (last_loc None l1) (first_loc l2) (Some d)).
Proof.
  intros (_ & _ & Hs). apply seg_app in Hs as [_ [Hs _]]. rewrite Hs.
  by destruct l2 as [|[? ?] ?].
Qed.

(** Changing the [next] of the last cell, or the [prev] of the first one. *)
Lemma seg_set_next h h' p l a d x y :
  seg h p (l ++ [(a, d)]) x -> (forall k, k ∈ l.*1 -> h' !! k = h !! k) ->
  h' !! a = Some (mk_node (last_loc p l) y (Some d)) -> seg h' p (l ++ [(a, d)]) y.
Proof.
  rewrite !seg_app. simpl. intros [Hl _] Hf Ha. split; [|done]. by eapply seg_frame.
Qed.

Lemma seg_set_prev h h' x y b d l n :
  seg h x ((b, d) :: l) n -> (forall k, k ∈ l.*1 -> h' !! k = h !! k) ->
  h' !! b = Some (mk_node y (match l with [] => n | (c, _) :: _ => Some c end) (Some d)) ->
  seg h' y ((b, d) :: l) n.
Proof. simpl. intros [_ Hl] Hf Hb. split; [done|]. by eapply seg_frame. Qed.

(** The result of a removal: the new head, the freed cell, the cells outside. *)
Definition removed (h : heap) (l1 : list (loc * D)) (n : loc) (l2 : list (loc * D))
    (r : res (heap * option loc)) : Prop :=
  exists h' hd', r = inr (h', hd') /\ hd' = first_loc (l1 ++ l2) /\
    seg h' None (l1 ++ l2) None /\ h' !! n = None /\
    (forall k, k ∉ l1.*1 -> k ∉ l2.*1 -> k ≠ n -> h' !! k = h !! k).

Lemma node_remove_only h n d :
  h !! n = Some (mk_node None None (Some d)) ->
  removed h [] n [] (node_remove h (Some n) n).
Proof.
  intros Hn. unfold node_remove. rewrite (load_Some _ _ _ Hn). cbn.
  unfold free_node. rewrite (load_Some _ _ _ Hn). cbn.
  eexists _, _. split_and!; [done..|apply lookup_delete_eq|].
  intros k _ _ Hk. by rewrite lookup_delete_ne.
Qed.

Lemma node_remove_first h n d b db l2 hd :
  n ∉ ((b, db) :: l2).*1 -> NoDup ((b, db) :: l2).*1 ->
  h !! n = Some (mk_node None (Some b) (Some d)) -> seg h (Some n) ((b, db) :: l2) None ->
  removed h [] n ((b, db) :: l2) (node_remove h hd n).
Proof.
  intros Hn2 [Hb2 Hnd2]%NoDup_cons Hn Hs. pose proof Hs as [Hb _]. cbn in Hn2.
  assert (b ≠ n) by set_solver.
  unfold node_remove, set_prev, free_node. rewrite (load_Some _ _ _ Hn). cbn.
  rewrite (load_Some _ _ _ Hb). cbn.
  rewrite (load_Some _ n _) by (rewrite lookup_insert_ne; [exact Hn|done]). cbn.
  eexists _, _. split_and!; [done|done| |apply lookup_delete_eq|].
  - apply (seg_set_prev h _ (Some n)); [done| |].
    + intros k Hk. rewrite lookup_delete_ne, lookup_insert_ne; set_solver.
    + rewrite lookup_delete_ne by done. by rewrite lookup_insert_eq.
  - intros k _ Hk1 Hk2. cbn in Hk1. rewrite lookup_delete_ne, lookup_insert_ne; set_solver.
Qed.

Lemma first_loc_snoc (l : list (loc * D)) x l2 :
  first_loc ((l ++ [x]) ++ l2) = first_loc (l ++ [x]).
Proof. by destruct l as [|[? ?] ?]. Qed.

Lemma node_remove_last h l a da n d :
  n ∉ (l ++ [(a, da)]).*1 -> NoDup (l ++ [(a, da)]).*1 ->
  h !! n = Some (mk_node (Some a) None (Some d)) -> seg h None (l ++ [(a, da)]) (Some n) ->
  removed h (l ++ [(a, da)]) n [] (node_remove h (first_loc (l ++ [(a, da)])) n).
Proof.
  intros Hn1 Hnd1 Hn Hs. pose proof Hs as [_ [Ha _]]%seg_app.
  rewrite fmap_app in Hn1, Hnd1. simpl in *. assert (a ≠ n) by set_solver.
  apply NoDup_app in Hnd1 as (_ & Hd & _).
  unfold node_remove, set_next, free_node. rewrite (load_Some _ _ _ Hn). cbn -[first_loc].
  rewrite (load_Some _ _ _ Ha). cbn -[first_loc].
  rewrite (load_Some _ n _) by (rewrite lookup_insert_ne; [exact Hn|done]). cbn -[first_loc].
  eexists _, _. split_and!; [done|by rewrite app_nil_r| |apply lookup_delete_eq|].
  - rewrite app_nil_r. eapply seg_set_next; [exact Hs| |].
    + intros k Hk. rewrite lookup_delete_ne, lookup_insert_ne; set_solver.
    + rewrite lookup_delete_ne by done. by rewrite lookup_insert_eq.
  - rewrite fmap_app. simpl. intros k Hk _ Hk2.
    rewrite lookup_delete_ne, lookup_insert_ne; set_solver.
Qed.

Lemma node_remove_interior h l a da n d b db l2 :
  NoDup (l ++ [(a, da)]).*1 -> NoDup ((b, db) :: l2).*1 ->
  n ∉ (l ++ [(a, da)]).*1 -> n ∉ ((b, db) :: l2).*1 ->
  (forall k, k ∈ (l ++ [(a, da)]).*1 -> k ∉ ((b, db) :: l2).*1) ->
  h !! n = Some (mk_node (Some a) (Some b) (Some d)) ->
  seg h None (l ++ [(a, da)]) (Some n) -> seg h (Some n) ((b, db) :: l2) None ->
  removed h (l ++ [(a, da)]) n ((b, db) :: l2) (node_remove h (first_loc (l ++ [(a, da)])) n).
Proof.
  intros Hnd1 [Hb2 Hnd2]%NoDup_cons Hn1 Hn2 Hx Hn Hs1 Hs2.
  pose proof Hs1 as [_ [Ha _]]%seg_app. pose proof Hs2 as [Hb _].
  rewrite fmap_app in *. simpl in *.
  assert (a ≠ n ∧ b ≠ n ∧ a ≠ b) as (? & ? & ?) by (clear -Hn1 Hn2 Hx; set_solver).
  apply NoDup_app in Hnd1 as (_ & Hd & _).
  unfold node_remove, set_next, set_prev, free_node.
  rewrite (load_Some _ _ _ Hn). cbn -[first_loc].
  rewrite (load_Some _ _ _ Ha). cbn -[first_loc].
  rewrite (load_Some _ b _) by (rewrite lookup_insert_ne; [exact Hb|done]). cbn -[first_loc].
  rewrite (load_Some _ n _) by (rewrite !lookup_insert_ne; [exact Hn|done..]). cbn -[first_loc].
  eexists _, _. split_and!; [done|by rewrite first_loc_snoc| |apply lookup_delete_eq|].
  - apply seg_app. rewrite last_loc_snoc. split.
    + eapply seg_set_next; [exact Hs1| |].
      * intros k Hk. assert (k ≠ n ∧ k ≠ a ∧ k ≠ b) as (? & ? & ?).
        { specialize (Hd k Hk). specialize (Hx k ltac:(apply elem_of_app; by left)).
          clear -Hk Hn1 Hd Hx. set_solver. }
        by rewrite lookup_delete_ne, !lookup_insert_ne by done.
      * rewrite lookup_delete_ne, lookup_insert_ne by done. by rewrite lookup_insert_eq.
    + apply (seg_set_prev h _ (Some n)); [done| |].
      * intros k Hk. assert (k ≠ n ∧ k ≠ a ∧ k ≠ b) as (? & ? & ?).
        { specialize (Hx a ltac:(apply elem_of_app; right; apply list_elem_of_here)).
          clear -Hk Hn2 Hb2 Hx. set_solver. }
        by rewrite lookup_delete_ne, !lookup_insert_ne by done.
      * rewrite lookup_delete_ne by done. by rewrite lookup_insert_eq.
  - rewrite fmap_app. simpl. intros k Hk1 Hk2 Hk3.
    assert (k ≠ a ∧ k ≠ b) as [? ?] by (clear -Hk1 Hk2; set_solver).
    by rewrite lookup_delete_ne, !lookup_insert_ne by done.
Qed.

Lemma node_remove_removed h hd l1 n d l2 :
  dll h hd (l1 ++ (n, d) :: l2) -> removed h l1 n l2 (node_remove h hd n).
Proof.
  intros Hdll. pose proof (dll_lookup_middle _ _ _ _ _ _ Hdll) as Hn.
  destruct Hdll as (-> & Hnd & Hs). rewrite fmap_app in Hnd. simpl in Hnd.
  apply NoDup_app in Hnd as (Hnd1 & Hx & [Hn2 Hnd2]%NoDup_cons).
  assert (n ∉ l1.*1) as Hn1 by set_solver.
  apply seg_app in Hs as [Hs1 [_ Hs2]].
  destruct l1 as [|[a da] l1 _] using rev_ind; destruct l2 as [|[b db] l2].
  - by eapply node_remove_only.
  - by eapply node_remove_first.
  - rewrite last_loc_snoc in Hn. rewrite first_loc_snoc.
    by eapply node_remove_last.
  - rewrite last_loc_snoc in Hn. rewrite first_loc_snoc.
    eapply node_remove_interior; try done.
    intros k Hk Hk2. apply (Hx k Hk). by apply list_elem_of_further.
Qed.

Lemma NoDup_remove_middle (l1 : list (loc * D)) n d l2 :
  NoDup (l1 ++ (n, d) :: l2).*1 -> NoDup (l1 ++ l2).*1.
Proof.
  rewrite !fmap_app. simpl. intros (H1 & Hx & [Hn H2]%NoDup_cons)%NoDup_app.
  apply NoDup_app. split_and!; [done| |done].
  intros k Hk Hk2. apply (Hx k Hk). by apply list_elem_of_further.
Qed.

(** [node_remove] unlinks and frees one node of the list, in each of its
    four cases (only, first, last, interior node), returns the new head, and
    leaves every cell outside the list alone. *)
Theorem node_remove_correct h hd l1 n d l2 :
  dll h hd (l1 ++ (n, d) :: l2) ->
  exists h' hd', node_remove h hd n = inr (h', hd') /\ dll h' hd' (l1 ++ l2) /\
    h' !! n = None /\ untouched h h' (l1 ++ (n, d) :: l2).*1.
Proof.
  intros Hdll. destruct (node_remove_removed _ _ _ _ _ _ Hdll) as (h' & hd' & E & Hhd & Hs & Hn & Hf).
  destruct Hdll as (_ & Hnd & _). exists h', hd'. split_and!; [done| |done|].
  - split_and!; [done| |done]. by eapply NoDup_remove_middle.
  - intros k Hk. rewrite fmap_app in Hk. simpl in Hk. apply Hf; set_solver.
Qed.

(** The filter loop, started in the middle of a list whose first part it has
    already kept. *)
Lemma node_filter_loop_spec p fuel h hd l1 l2 :
  length l2 <= fuel -> dll h hd (l1 ++ l2) ->
  exists h' hd', node_filter_loop fuel p h hd (first_loc l2) = inr (h', hd') /\
    dll h' hd' (l1 ++ bfilter (fun x => negb (p x.2)) l2) /\ untouched h h' (l1 ++ l2).*1.
Proof.
  revert fuel h hd l1. induction l2 as [|[n d] l2 IH]; intros fuel h hd l1 Hl Hdll.
  { exists h, hd. by destruct fuel. }
  simpl in Hl. destruct fuel as [|fuel]; [lia|].
  pose proof (dll_lookup_middle _ _ _ _ _ _ Hdll) as Hn.
  cbn. rewrite (load_Some _ _ _ Hn). cbn -[first_loc]. destruct (p d) eqn:Hp; simpl.
  - destruct (node_remove_removed _ _ _ _ _ _ Hdll) as (h1 & hd1 & E & Hhd & Hs & _ & Hf).
    rewrite E. cbn -[first_loc].
    destruct (IH fuel h1 hd1 l1) as (h' & hd' & E' & Hd' & Hf'); [lia| |].
    { split_and!; [done| |done]. destruct Hdll as (_ & Hnd & _). by eapply NoDup_remove_middle. }
    exists h', hd'. split_and!; [done..|]. intros k Hk. rewrite !fmap_app in *. simpl in Hk.
    rewrite Hf', Hf; set_solver.
  - destruct (IH fuel h hd (l1 ++ [(n, d)])) as (h' & hd' & E' & Hd' & Hf'); [lia|by rewrite <- app_assoc|].
    exists h', hd'. rewrite <- !app_assoc in *. done.
Qed.

(** The save-next-then-remove loop of the router's delete operations
    terminates without touching freed memory and keeps exactly the nodes whose
    data the condition does not select, in order. *)
Theorem node_filter_loop_correct p h hd l :
  dll h hd l ->
  exists h' hd', node_filter_loop (length l) p h hd hd = inr (h', hd') /\
    dll h' hd' (bfilter (fun x => negb (p x.2)) l) /\ untouched h h' l.*1.
Proof.
  intros Hdll. pose proof Hdll as (Hhd & _ & _). 
  destruct (node_filter_loop_spec p (length l) h hd [] l) as (h' & hd' & E & H);
    [done..|].
  rewrite <- Hhd in E. eauto.
Qed.

(** The loop by which [iface_up] and [iface_down] clear the neighbour
    list never advances its cursor: on any non-empty list its second iteration
    reads the node the first one freed. *)
Theorem clear_loop_use_after_free fuel h hd n d l :
  dll h hd ((n, d) :: l) -> clear_loop (S (S fuel)) h hd hd = inl UseAfterFree.
Proof.
  intros Hdll. pose proof Hdll as (-> & _ & _).
  destruct (node_remove_removed _ _ [] _ _ _ Hdll) as (h' & hd' & E & _ & _ & Hn & _).
  cbn in *. rewrite E. cbn. unfold node_remove, load. by rewrite Hn.
Qed.

Lemma node_length_loop_spec fuel h p l len :
  length l <= fuel -> seg h p l None ->
  node_length_loop fuel h (first_loc l) len = inr (len + length l).
Proof.
  revert fuel p len. induction l as [|[a d] l IH]; intros fuel p len Hl Hs.
  { destruct fuel; cbn; f_equal; lia. }
  simpl in Hl. destruct fuel as [|fuel]; [lia|]. destruct Hs as [Ha Hs].
  cbn. rewrite (load_Some _ _ _ Ha). cbn.
  replace (len + S (length l)) with (S len + length l) by lia.
  rewrite <- (IH fuel (Some a) (S len)); [|lia|done].
  by destruct l as [|[? ?] ?].
Qed.

Lemma node_length_correct h hd l : dll h hd l -> node_length h hd = inr (length l).
Proof.
  intros (-> & Hnd & Hs). unfold node_length.
  rewrite (node_length_loop_spec _ _ None l 0); [done| |done]. by eapply seg_length_le.
Qed.
End Nodes.
