(* ===== verification/CStrings.v ===== *)
(** C strings: the parts of the string library the router uses ([strncmp],
    [strncpy], [strstr], [sscanf], [inet_pton]) on the strings a
    null-terminated buffer holds, and the string functions of or_utils.c. *)

From S2P Require Import Prelude Words Bytes State.
From Stdlib Require Import Ascii.
From stdpp Require Import pretty.
Local Open Scope Z_scope.

(** ** The C library *)

(** The first [n] characters of a string. *)
Fixpoint str_take (n : nat) (s : string) : string :=
  match n, s with
  | S n', String c s' => String c (str_take n' s')
  | _, _ => EmptyString
  end.

(** [strncmp(a, b, n) == 0] *)
Definition strncmp_eq (a b : string) (n : nat) : bool := String.eqb (str_take n a) (str_take n b).

(** [strcmp(a, b) == 0] *)
Definition strcmp_eq (a b : string) : bool := String.eqb a b.

(** The string a zeroed buffer of [n] bytes holds after [strncpy(buf, s, n)]. *)
Definition strncpy (s : string) (n : nat) : string := str_take n s.

(** [strstr(s, sub) != NULL] *)
Fixpoint strstr (s sub : string) : bool :=
  String.prefix sub s ||
  match s with EmptyString => false | String _ s' => strstr s' sub end.

Definition code (c : ascii) : Z := Z.of_nat (nat_of_ascii c).
Definition chr (z : Z) : ascii := ascii_of_nat (Z.to_nat z).

Definition is_space (c : ascii) : bool :=
  (code c =? 32) || ((9 <=? code c) && (code c <=? 13)).
Definition is_digit (c : ascii) : bool := (48 <=? code c) && (code c <=? 57).

Definition hex_digit (c : ascii) : option Z :=
  if is_digit c then Some (code c - 48)
  else if (65 <=? code c) && (code c <=? 70) then Some (code c - 55)
  else if (97 <=? code c) && (code c <=? 102) then Some (code c - 87)
  else None.

Fixpoint chars (s : string) : list ascii :=
  match s with EmptyString => [] | String c s' => c :: chars s' end.

Fixpoint implode (l : list ascii) : string :=
  match l with [] => EmptyString | c :: l' => String c (implode l') end.

(** The string a buffer holds: the characters before the first null byte. *)
Fixpoint cstring (b : bytes) : option string :=
  match b with
  | [] => None
  | c :: b' => if c =? 0 then Some ""%string else String (chr c) <$> cstring b'
  end.

(** [strncpy(buf, s, n)] into an array of [n] bytes: the rest is zeros. *)
Definition string_bytes (s : string) : bytes := map code (chars s).
Definition strncpy_bytes (s : string) (n : nat) : bytes :=
  take n (string_bytes s) ++ replicate (n - String.length s) 0.

(** *** [sscanf] *)

(** The longest prefix of characters satisfying [f], and the rest. *)
Fixpoint span (f : ascii -> bool) (l : list ascii) : list ascii * list ascii :=
  match l with
  | c :: l' => if f c then let '(a, b) := span f l' in (c :: a, b) else ([], l)
  | [] => ([], [])
  end.

Definition skip_space (l : list ascii) : list ascii := (span is_space l).2.

(** The directives the router's formats use: [%as], [%u], [%d], [%2X], white
    space and literal characters. *)
Inductive directive := FStr | FUnsigned | FInt | FHex2 | FSpace | FLiteral (c : ascii).

Fixpoint parse_format (l : list ascii) : list directive :=
  match l with
  | "%" :: "a" :: "s" :: l' => FStr :: parse_format l'
  | "%" :: "u" :: l' => FUnsigned :: parse_format l'
  | "%" :: "d" :: l' => FInt :: parse_format l'
  | "%" :: "2" :: "X" :: l' => FHex2 :: parse_format l'
  | c :: l' => (if is_space c then FSpace else FLiteral c) :: parse_format l'
  | [] => []
  end%char.

Inductive scan_arg := AStr (s : string) | ANum (z : Z).

Definition decimal (l : list ascii) : Z :=
  foldl (fun acc c => 10 * acc + (code c - 48)) 0 l.

(** An optional sign followed by decimal digits. *)
Definition scan_decimal (l : list ascii) : option (Z * list ascii) :=
  let l := skip_space l in
  let '(neg, l) := match l with
                   | "-"%char :: l' => (true, l')
                   | "+"%char :: l' => (false, l')
                   | _ => (false, l)
                   end in
  match span is_digit l with
  | ([], _) => None
  | (ds, rest) => Some (if neg : bool then - decimal ds else decimal ds, rest)
  end.

Definition scan_hex2 (l : list ascii) : option (Z * list ascii) :=
  match skip_space l with
  | c :: l' =>
      match hex_digit c with
      | None => None
      | Some a =>
          match l' with
          | c2 :: l'' => match hex_digit c2 with
                         | Some b => Some (16 * a + b, l'')
                         | None => Some (a, l')
                         end
          | [] => Some (a, [])
          end
      end
  | [] => None
  end.

(** [%u] and [%d] read with [strtoul] and [strtol] of 64 bits, which saturate,
    and store the low 32 bits. *)
Definition to_unsigned (z : Z) : Z := u32 (if 2 ^ 64 <=? Z.abs z then 2 ^ 64 - 1 else z).
Definition to_int (z : Z) : Z :=
  u32 (Z.max (- 2 ^ 63) (Z.min z (2 ^ 63 - 1)) + 2 ^ 31) - 2 ^ 31.

(** The values converted, in order, up to the first failure. *)
Fixpoint scan (fmt : list directive) (l : list ascii) : list scan_arg :=
  match fmt with
  | [] => []
  | FSpace :: fmt' => scan fmt' (skip_space l)
  | FLiteral c :: fmt' =>
      match l with
      | c' :: l' => if Ascii.eqb c c' then scan fmt' l' else []
      | [] => []
      end
  | FStr :: fmt' =>
      match span (fun c => negb (is_space c)) (skip_space l) with
      | ([], _) => []
      | (w, rest) => AStr (implode w) :: scan fmt' rest
      end
  | FUnsigned :: fmt' =>
      match scan_decimal l with
      | Some (z, rest) => ANum (to_unsigned z) :: scan fmt' rest
      | None => []
      end
  | FInt :: fmt' =>
      match scan_decimal l with
      | Some (z, rest) => ANum (to_int z) :: scan fmt' rest
      | None => []
      end
  | FHex2 :: fmt' =>
      match scan_hex2 l with
      | Some (z, rest) => ANum z :: scan fmt' rest
      | None => []
      end
  end.

Definition sscanf (s fmt : string) : list scan_arg :=
  scan (parse_format (chars fmt)) (chars s).

(** *** [inet_pton(AF_INET, s, &addr)]: a dotted quad, [None] when malformed *)

Fixpoint split_dots (l : list ascii) : list (list ascii) :=
  match l with
  | [] => [[]]
  | c :: l' =>
      if Ascii.eqb c "."%char then [] :: split_dots l'
      else match split_dots l' with
           | w :: ws => (c :: w) :: ws
           | [] => [[c]]
           end
  end.

Definition octet (l : list ascii) : option Z :=
  match l with
  | [] => None
  | c :: l' =>
      if forallb is_digit l && (decimal l <=? 255)
         && negb ((code c =? 48) && negb (match l' with [] => true | _ => false end))
      then Some (decimal l) else None
  end.

Definition inet_pton (s : string) : option Z :=
  match split_dots (chars s) with
  | [a; b; c; d] =>
      a ← octet a; b ← octet b; c ← octet c; d ← octet d;
      Some (a + 2 ^ 8 * b + 2 ^ 16 * c + 2 ^ 24 * d)
  | _ => None
  end.

(** ** The string functions of or_utils.c *)

Definition nl : string := String (ascii_of_nat 10) EmptyString.

Definition send_to_socket (fd : Z) (msg : string) : M unit := emit (EvSocket fd msg).

(** The string left in the buffer: a carriage return or line feed becomes the
    terminating null character. *)
Fixpoint cleanCRLFs (c : string) : string :=
  match c with
  | EmptyString => EmptyString
  | String a c' =>
      if (code a =? 13) || (code a =? 10) then EmptyString else String a (cleanCRLFs c')
  end.

(** The doubling loop of [my_strncat]: the allocation size for [need] bytes. *)
Fixpoint my_strncat_loop (fuel : nat) (need size : Z) : option Z :=
  if size <? need then
    match fuel with
    | O => None
    | S fuel' => my_strncat_loop fuel' need (size * 2)
    end
  else Some size.

(** The concatenation and the new allocation size. *)
Definition my_strncat (left right : string) (left_alloc_size : Z) : option (string * Z) :=
  let need := Z.of_nat (String.length left) + Z.of_nat (String.length right) + 1 in
  size ← my_strncat_loop (Z.to_nat need) need left_alloc_size;
  Some ((left ++ right)%string, size).

Definition is_alnum (c : ascii) : bool :=
  ((48 <=? code c) && (code c <=? 57)) || ((97 <=? code c) && (code c <=? 122))
  || ((65 <=? code c) && (code c <=? 90)).

(** [sprintf(buf, "%X", v)] for one digit. *)
Definition hex_char (v : Z) : ascii := if v <? 10 then chr (48 + v) else chr (55 + v).

Fixpoint urlencode_chars (l : list ascii) : list ascii :=
  match l with
  | [] => []
  | c :: l' =>
      if is_alnum c then c :: urlencode_chars l'
      else "%"%char :: hex_char (Z.land (Z.shiftr (code c) 4) 15)
           :: hex_char (Z.land (code c) 15) :: urlencode_chars l'
  end.

Definition urlencode (str : string) : string := implode (urlencode_chars (chars str)).

(** [int high = 0; sscanf(buf, "%X", &high);] on a one-character buffer. *)
Definition hex_or_zero (c : ascii) : Z := default 0 (hex_digit c).

Fixpoint urldecode_chars (l : list ascii) : list ascii :=
  match l with
  | [] => []
  | c :: l' =>
      match c, l' with
      | "%"%char, h :: lo :: l'' =>
          chr (u8 (Z.lor (Z.shiftl (hex_or_zero h) 4) (hex_or_zero lo))) :: urldecode_chars l''
      | _, _ =>
          (if Ascii.eqb c "+"%char then " "%char else c) :: urldecode_chars l'
      end
  end.

Definition urldecode (str : string) : string := implode (urldecode_chars (chars str)).

(** [int max = INT32_MIN] then the scan of the array. *)
Fixpoint getMax_loop (int_array : list Z) (max : Z) : Z :=
  match int_array with
  | [] => max
  | x :: rest => getMax_loop rest (if max <? x then x else max)
  end.

Definition getMax (int_array : list Z) : Z := getMax_loop int_array (- 2 ^ 31).

(** ** Lemmas *)

Lemma chars_implode l : chars (implode l) = l.
Proof. induction l; simpl; congruence. Qed.

Lemma implode_chars s : implode (chars s) = s.
Proof. induction s; simpl; congruence. Qed.

Lemma string_length_app a b :
  String.length (a ++ b) = (String.length a + String.length b)%nat.
Proof. induction a as [|c a IH]; simpl; [done|]. by rewrite <- IH. Qed.

(** The string a buffer holds is found within the bytes before its end. *)
Lemma cstring_ends b rest : exists s, cstring (b ++ 0 :: rest) = Some s /\ cstring (b ++ [0]) = Some s /\
  (String.length s <= length b)%nat.
Proof.
  induction b as [|c b (s & E & E' & L)]; simpl.
  - exists ""%string. repeat split; simpl; lia.
  - rewrite E, E'. destruct (c =? 0).
    + exists ""%string. repeat split; simpl; lia.
    + eexists. repeat split. simpl. lia.
Qed.

(** A string without null characters is read back from an array. *)
Definition no_null (s : string) : Prop := Forall (fun c => c <> chr 0) (chars s).

Lemma chr_code c : chr (code c) = c.
Proof. unfold chr, code. by rewrite Nat2Z.id, ascii_nat_embedding. Qed.

Lemma code_u8 c : is_u8 (code c).
Proof. unfold code, is_u8. pose proof (nat_ascii_bounded c). lia. Qed.

Lemma length_string_bytes s : length (string_bytes s) = String.length s.
Proof. unfold string_bytes. rewrite length_map. induction s as [|c s IH]; simpl; [done|by rewrite IH]. Qed.

Lemma cstring_bytes s rest : no_null s -> cstring (string_bytes s ++ 0 :: rest) = Some s.
Proof.
  unfold no_null, string_bytes. induction s as [|c s IH]; intros Hs; [done|]. cbn [chars map app cstring].
  cbn [chars] in Hs. apply Forall_cons in Hs as [Hc Hs].
  assert (code c =? 0 = false) as ->.
  { apply Z.eqb_neq. intros E. apply Hc. by rewrite <-E, chr_code. }
  by rewrite IH, chr_code by done.
Qed.

Lemma strncpy_bytes_length s n : length (strncpy_bytes s n) = n.
Proof.
  unfold strncpy_bytes. rewrite length_app, length_take, length_replicate, length_string_bytes. lia.
Qed.

Lemma strncpy_bytes_cstring s n rest : no_null s -> (String.length s < n)%nat ->
  cstring (strncpy_bytes s n ++ rest) = Some s.
Proof.
  intros Hs Hn. unfold strncpy_bytes. rewrite take_ge by (rewrite length_string_bytes; lia).
  destruct (n - String.length s)%nat as [|k] eqn:E; [lia|]. rewrite <-app_assoc. simpl. by apply cstring_bytes.
Qed.

Lemma str_take_all n s : (String.length s <= n)%nat -> str_take n s = s.
Proof.
  revert n. induction s as [|c s IH]; intros [|n]; simpl; intros H; [done..|lia|].
  rewrite IH by lia. done.
Qed.

Lemma strncmp_eq_spec a b n :
  (String.length a <= n)%nat -> (String.length b <= n)%nat -> strncmp_eq a b n = true <-> a = b.
Proof.
  intros Ha Hb. unfold strncmp_eq. rewrite !str_take_all by done. apply String.eqb_eq.
Qed.

Lemma strncmp_eq_refl a n : strncmp_eq a a n = true.
Proof. apply String.eqb_refl. Qed.

(** What the decoder does with the code of one character. *)
Definition decodes (c : ascii) : bool :=
  if is_alnum c then
    negb (Ascii.eqb c "%"%char) && negb (Ascii.eqb c "+"%char)
  else
    Ascii.eqb c (chr (u8 (Z.lor
      (Z.shiftl (hex_or_zero (hex_char (Z.land (Z.shiftr (code c) 4) 15))) 4)
      (hex_or_zero (hex_char (Z.land (code c) 15)))))).

(** Every one of the 256 characters decodes to itself. *)
Lemma decodes_all c : decodes c = true.
Proof. destruct c as [[] [] [] [] [] [] [] []]; vm_compute; reflexivity. Qed.

Lemma urldecode_chars_plain c l :
  Ascii.eqb c "%"%char = false -> Ascii.eqb c "+"%char = false ->
  urldecode_chars (c :: l) = c :: urldecode_chars l.
Proof.
  intros H1 H2. destruct c as [[] [] [] [] [] [] [] []]; try discriminate; reflexivity.
Qed.

Lemma urldecode_urlencode_chars l : urldecode_chars (urlencode_chars l) = l.
Proof.
  induction l as [|c l IH]; cbn [urlencode_chars]; [done|].
  pose proof (decodes_all c) as Hc. unfold decodes in Hc. destruct (is_alnum c) eqn:Ha.
  - bool_to_prop. rewrite urldecode_chars_plain by done. by rewrite IH.
  - apply Ascii.eqb_eq in Hc. cbn [urldecode_chars]. by rewrite IH, <- Hc.
Qed.

(** Decoding an URL-encoded string gives the string back, whatever the
    characters it is made of. *)
Theorem urldecode_urlencode str : urldecode (urlencode str) = str.
Proof.
  unfold urldecode, urlencode.
  rewrite chars_implode, urldecode_urlencode_chars. apply implode_chars.
Qed.

Lemma my_strncat_loop_spec fuel need size :
  0 < size -> need <= size * 2 ^ Z.of_nat fuel ->
  exists size', my_strncat_loop fuel need size = Some size' /\ need <= size' /\
    (size' = size \/ size' < 2 * need).
Proof.
  revert size. induction fuel as [|fuel IH]; intros size Hs Hn; cbn [my_strncat_loop].
  - destruct (Z.ltb_spec size need); [simpl in Hn; lia|]. exists size. split; [done|]. lia.
  - destruct (Z.ltb_spec size need); [|exists size; split; [done|]; lia].
    destruct (IH (size * 2)) as (s & E & H1 & H2); [lia| |].
    + rewrite Nat2Z.inj_succ, (Z.pow_succ_r 2) in Hn by lia. lia.
    + exists s. split_and!; [done..|]. right. lia.
Qed.

(** [my_strncat] terminates whenever the buffer has a non-zero size, its
    buffer then holds the concatenation with its terminator, and it grew to
    less than twice what was needed. *)
Theorem my_strncat_correct left right size :
  0 < size ->
  let need := Z.of_nat (String.length (left ++ right)) + 1 in
  exists size', my_strncat left right size = Some ((left ++ right)%string, size') /\
    need <= size' /\ (size' = size \/ size' < 2 * need).
Proof.
  intros Hs need. unfold my_strncat.
  assert (Z.of_nat (String.length left) + Z.of_nat (String.length right) + 1 = need) as ->.
  { unfold need. rewrite string_length_app. lia. }
  assert (0 < need) by (unfold need; lia).
  destruct (my_strncat_loop_spec (Z.to_nat need) need size) as (s & -> & H1 & H2); [done| |].
  - rewrite Z2Nat.id by lia. pose proof (Z.pow_gt_lin_r 2 need). nia.
  - simpl. eauto.
Qed.

Lemma getMax_loop_spec l m :
  m <= getMax_loop l m /\ (forall x, x ∈ l -> x <= getMax_loop l m) /\
  (getMax_loop l m = m \/ getMax_loop l m ∈ l).
Proof.
  revert m. induction l as [|x l IH]; intros m; cbn [getMax_loop].
  - split_and!; [lia| |by left]. intros x Hx. by apply elem_of_nil in Hx.
  - destruct (IH (if m <? x then x else m)) as (H1 & H2 & H3).
    destruct (Z.ltb_spec m x); (split_and!; [lia| |]).
    1,3: intros y [->|Hy]%elem_of_cons; [lia|by apply H2].
    all: destruct H3 as [H3|H3]; rewrite elem_of_cons; [rewrite H3; tauto|tauto].
Qed.
