(* ===== verification/Sorting.v ===== *)
(** The bubble sort the router keeps its tables in order with (the loop of
    [trigger_rtable_modified], of [trigger_local_ip_filters_change] and of the
    interface list): passes over the list that exchange the data of adjacent
    nodes, until a pass exchanges nothing. *)

From Stdlib Require Import Sorting.Sorted.
From S2P Require Import Prelude.

Section BubbleSort.
Context {A : Type} (swap : A -> A -> bool).

(** ** The loop *)

(** The inner [while (cur && cur->next)]: [a] is the data of [cur], [l] the
    data of the nodes after it. *)
Fixpoint bubble_pass_from (a : A) (l : list A) : bool * list A :=
  match l with
  | [] => (false, [a])
  | b :: l' =>
      if swap a b then (true, b :: (bubble_pass_from a l').2)
      else let '(swapped, r) := bubble_pass_from b l' in (swapped, a :: r)
  end.

Definition bubble_pass (l : list A) : bool * list A :=
  match l with [] => (false, []) | a :: l' => bubble_pass_from a l' end.

(** The outer [do ... while (swapped)]. *)
Fixpoint bubble_loop (fuel : nat) (l : list A) : option (list A) :=
  match fuel with
  | O => None
  | S fuel' =>
      let '(swapped, r) := bubble_pass l in
      if swapped then bubble_loop fuel' r else Some r
  end.

(** One pass per inversion at most, and the last one. *)
Definition bubble_sort (l : list A) : option (list A) :=
  bubble_loop (S (length l * length l)) l.

(** ** What it computes *)

(** The pairs of positions the order puts the other way round. *)
Fixpoint inversions (l : list A) : nat :=
  match l with
  | [] => 0
  | a :: l' => length (bfilter (swap a) l') + inversions l'
  end.

(** No adjacent pair is left to exchange. *)
Fixpoint adjacent_ok (l : list A) : Prop :=
  match l with
  | a :: ((b :: _) as l') => swap a b = false /\ adjacent_ok l'
  | _ => True
  end.

(** ** Lemmas *)

Lemma inversions_le l : (inversions l <= length l * length l)%nat.
Proof.
  induction l as [|a l IH]; simpl; [lia|].
  pose proof (bfilter_length_le (swap a) l). nia.
Qed.

Lemma bubble_pass_from_perm a l : (bubble_pass_from a l).2 ≡ₚ a :: l.
Proof.
  revert a. induction l as [|b l IH]; intros a; simpl; [done|].
  destruct (swap a b); simpl.
  - rewrite IH. apply Permutation_swap.
  - specialize (IH b). destruct (bubble_pass_from b l). simpl in *. by rewrite IH.
Qed.

Lemma bubble_pass_perm l : (bubble_pass l).2 ≡ₚ l.
Proof. destruct l; [done|]. apply bubble_pass_from_perm. Qed.

Lemma bubble_pass_from_done a l :
  (bubble_pass_from a l).1 = false ->
  (bubble_pass_from a l).2 = a :: l /\ adjacent_ok (a :: l).
Proof.
  revert a. induction l as [|b l IH]; intros a; simpl; [done|].
  destruct (swap a b) eqn:E; simpl; [done|].
  specialize (IH b). destruct (bubble_pass_from b l). simpl in *.
  intros H. destruct (IH H) as [-> ?]. done.
Qed.

Lemma bubble_loop_perm fuel l r : bubble_loop fuel l = Some r -> r ≡ₚ l.
Proof.
  revert l. induction fuel as [|fuel IH]; intros l; cbn [bubble_loop]; [done|].
  pose proof (bubble_pass_perm l) as Hp. destruct (bubble_pass l) as [[] l']; simpl in *.
  - intros H. rewrite <- Hp. by apply IH.
  - intros [= ->]. done.
Qed.

Lemma bubble_loop_adjacent fuel l r : bubble_loop fuel l = Some r -> adjacent_ok r.
Proof.
  revert l. induction fuel as [|fuel IH]; intros l; cbn [bubble_loop]; [done|].
  destruct (bubble_pass l) as [s l'] eqn:E.
  destruct s; [apply IH|]. intros [= ->].
  destruct l as [|a l]; [by injection E as <-|].
  pose proof (bubble_pass_from_done a l) as H. unfold bubble_pass in E. rewrite E in H.
  simpl in H. by destruct (H eq_refl) as [-> ?].
Qed.

(** An order in which no pair is to be exchanged both ways. *)
Hypothesis swap_asym : forall a b, swap a b = true -> swap b a = false.

(** A pass that exchanges something removes an inversion. *)
Lemma bubble_pass_from_inversions a l :
  let '(s, r) := bubble_pass_from a l in
  (inversions r + (if s then 1 else 0) <= inversions (a :: l))%nat.
Proof using swap_asym.
  revert a. induction l as [|b l IH]; intros a; [simpl; lia|].
  cbn [bubble_pass_from]. destruct (swap a b) eqn:E.
  - specialize (IH a). pose proof (bubble_pass_from_perm a l) as Hp.
    destruct (bubble_pass_from a l) as [s r]. cbn [snd inversions] in *.
    rewrite (Permutation_length (bfilter_Permutation (swap b) _ _ Hp)).
    cbn [bfilter]. rewrite E, (swap_asym _ _ E). cbn [length]. destruct s; lia.
  - specialize (IH b). pose proof (bubble_pass_from_perm b l) as Hp.
    destruct (bubble_pass_from b l) as [s r]. cbn [snd inversions] in *.
    rewrite (Permutation_length (bfilter_Permutation (swap a) _ _ Hp)). lia.
Qed.

Lemma bubble_loop_total fuel l : (inversions l < fuel)%nat -> is_Some (bubble_loop fuel l).
Proof using swap_asym.
  revert l. induction fuel as [|fuel IH]; intros l Hl; [lia|]. cbn [bubble_loop].
  destruct l as [|a l]; [simpl; eauto|]. cbn [bubble_pass].
  pose proof (bubble_pass_from_inversions a l) as H.
  destruct (bubble_pass_from a l) as [[] r]; [|eauto]. apply IH. lia.
Qed.

(** The sort terminates, permutes the list, and leaves no adjacent pair to
    exchange. *)
Lemma bubble_sort_spec l :
  exists r, bubble_sort l = Some r /\ r ≡ₚ l /\ adjacent_ok r.
Proof using swap_asym.
  destruct (bubble_loop_total (S (length l * length l)) l) as [r Hr];
    [pose proof (inversions_le l); lia|].
  exists r. eauto using bubble_loop_perm, bubble_loop_adjacent.
Qed.
End BubbleSort.

(** Adjacent pairs in order give all pairs in order, for a transitive relation. *)
Lemma adjacent_ok_StronglySorted {A} (swap : A -> A -> bool) (R : relation A) l :
  Transitive R -> (forall a b, swap a b = false -> R a b) ->
  adjacent_ok swap l -> StronglySorted R l.
Proof.
  intros HT HR H. apply Sorted_StronglySorted; [exact HT|].
  induction l as [|a l IH]; [constructor|]. destruct l as [|b l].
  - repeat constructor.
  - destruct H as [H1 H2]. constructor; [by apply IH|]. constructor. by apply HR.
Qed.
