(* ===== verification/Netfpga.v ===== *)
(** or_netfpga.c: the names and numbers of the ports, the table of local IP
    filters, and the packet counters; with a model of the device tables those
    files write: the entry registers hold a row until a write to the address
    register stores it, and the CAM answers with the matching row of smallest
    address (router_op_lut_regs_non_cntr.v, ip_lpm.v). *)

From S2P Require Import Prelude Words Bytes State CStrings Sorting.
Local Open Scope Z_scope.

(** ** Port names and numbers *)

Definition ETH0 : string := "eth0".
Definition ETH1 : string := "eth1".
Definition ETH2 : string := "eth2".
Definition ETH3 : string := "eth3".
Definition CPU0 : string := "cpu0".
Definition CPU1 : string := "cpu1".
Definition CPU2 : string := "cpu2".
Definition CPU3 : string := "cpu3".

Definition getPortNumber (name : string) : M Z :=
  if strcmp_eq ETH0 name then mret 0
  else if strcmp_eq ETH1 name then mret 1
  else if strcmp_eq ETH2 name then mret 2
  else if strcmp_eq ETH3 name then mret 3
  else fail AssertFailed.

(** The one-hot port of a name, [None] where the code asserts. *)
Definition one_hot (name : string) : option Z :=
  if strcmp_eq ETH0 name then Some 1
  else if strcmp_eq ETH1 name then Some 4
  else if strcmp_eq ETH2 name then Some 16
  else if strcmp_eq ETH3 name then Some 64
  else if strcmp_eq CPU0 name then Some 2
  else if strcmp_eq CPU1 name then Some 8
  else if strcmp_eq CPU2 name then Some 32
  else if strcmp_eq CPU3 name then Some 128
  else None.

Definition getOneHotPortNumber (name : string) : M Z := lift AssertFailed (one_hot name).

Definition getIfaceFromOneHotPortNumber (len : nat) (port : Z) : string :=
  if port =? 1 then strncpy ETH0 len
  else if port =? 2 then strncpy CPU0 len
  else if port =? 4 then strncpy ETH1 len
  else if port =? 8 then strncpy CPU1 len
  else if port =? 16 then strncpy ETH2 len
  else if port =? 32 then strncpy CPU2 len
  else if port =? 64 then strncpy ETH3 len
  else if port =? 128 then strncpy CPU3 len
  else "".

Definition get_incoming_interface (len : nat) (queue : Z) : M string :=
  assert_ ((0 <=? queue) && (queue <=? 3));;
  mret (if queue =? 0 then strncpy ETH0 len
        else if queue =? 1 then strncpy ETH1 len
        else if queue =? 2 then strncpy ETH2 len
        else if queue =? 3 then strncpy ETH3 len
        else ""%string).

(** ** Packet counters: one register per port, 0 for the other ports *)

Definition port_counter (r : Z -> reg) (ports port : Z) : M Z :=
  if (0 <=? port) && (port <? ports) then readReg (r port) else mret 0.

Definition get_rx_queue_num_pkts_received (port : Z) : M Z := port_counter RX_PKTS_STORED 4 port.
Definition get_tx_queue_num_pkts_sent (port : Z) : M Z := port_counter TX_PKTS_SENT 4 port.
Definition get_rx_queue_num_bytes_received (port : Z) : M Z := port_counter RX_BYTES_PUSHED 4 port.
Definition get_tx_queue_num_bytes_sent (port : Z) : M Z := port_counter TX_BYTES_PUSHED 4 port.
Definition get_rx_queue_num_pkts_dropped_full (port : Z) : M Z :=
  port_counter RX_PKTS_DROPPED_FULL 4 port.
Definition get_rx_queue_num_pkts_dropped_bad (port : Z) : M Z :=
  port_counter RX_PKTS_DROPPED_BAD 4 port.
Definition get_oq_num_pkts_dropped (port : Z) : M Z := port_counter OQ_PKTS_DROPPED 8 port.

(** ** Writing a table of the device

    The loops over the slots of a table: slot [i] gets the [i]-th entry of the
    list, the slots past the end of the list are cleared. [write_row] is the
    body of the loop, [None] its [else] branch. *)

Fixpoint write_slots {A} (write_row : nat -> option A -> M unit) (n i : nat) (l : list A)
    : M unit :=
  match n with
  | O => mret tt
  | S n' =>
      match l with
      | x :: l' => write_row i (Some x);; write_slots write_row n' (S i) l'
      | [] => write_row i None;; write_slots write_row n' (S i) []
      end
  end.

(** [ROUTER_OP_LUT_{ROUTE,ARP,DST_IP_FILTER}_TABLE_DEPTH] of cam_router.xml *)
Definition TABLE_DEPTH : nat := 32.

(** ** Local IP filters *)

Definition LOCAL_IP_FILTER_ENTRY_NAME_LEN : nat := 32.

Definition lock_local_ip_filters : M unit := acquire L_ip_filters Mutex.
Definition unlock_local_ip_filters : M unit := release L_ip_filters.

Definition get_local_ip_filter_by_name (rs : router_state) (name : string)
    : option local_ip_filter_entry :=
  find_first (fun e => strcmp_eq (lf_name e) name) (local_ip_filter_list rs).

Definition get_local_ip_filter_by_ip (rs : router_state) (ip : Z)
    : option local_ip_filter_entry :=
  find_first (fun e => lf_ip e =? ip) (local_ip_filter_list rs).

Definition write_filter_row (i : nat) (e : option local_ip_filter_entry) : M unit :=
  writeReg FILTER_ENTRY_IP (match e with Some e => ntohl (lf_ip e) | None => 0 end);;
  writeReg FILTER_WR_ADDR (Z.of_nat i).

(** The C library's [strcmp]: documented up to the sign of its result. *)
Class Strcmp := strcmp : string -> string -> Z.
Class StrcmpLaws `{Strcmp} := strcmp_antisym : forall a b, 0 < strcmp a b -> strcmp b a < 0.

Section Filters.
Context `{Strcmp}.

(** [strcmp(a->name, b->name) == 1] *)
Definition filter_swap (a b : local_ip_filter_entry) : bool :=
  strcmp (lf_name a) (lf_name b) =? 1.

Definition trigger_local_ip_filters_change : M unit :=
  lock_local_ip_filters;;
  rs ← get_rs;
  l ← lift OutOfFuel (bubble_sort filter_swap (local_ip_filter_list rs));
  put_rs (set_local_ip_filter_list l rs);;
  (if is_netfpga rs then write_slots write_filter_row TABLE_DEPTH 0 l else mret tt);;
  unlock_local_ip_filters.

(** Returns 1 when the address or the name is already there. *)
Definition add_local_ip_filter (ip : Z) (name : string) : M Z :=
  rs ← get_rs;
  match get_local_ip_filter_by_ip rs ip, get_local_ip_filter_by_name rs name with
  | None, None =>
      let entry := mk_local_ip_filter_entry ip
                     (strncpy name (LOCAL_IP_FILTER_ENTRY_NAME_LEN - 1)) in
      lock_local_ip_filters;;
      modify_rs (fun rs => set_local_ip_filter_list (local_ip_filter_list rs ++ [entry]) rs);;
      unlock_local_ip_filters;;
      trigger_local_ip_filters_change;;
      mret 0
  | _, _ => mret 1
  end.
End Filters.

(** A [strcmp] that returns -1, 0 or 1, by the order of character codes. *)
Definition strcmp_sign : Strcmp := fun a b =>
  match String.compare a b with Lt => -1 | Eq => 0 | Gt => 1 end.

(** ** The tables of the device *)

Record rt_row := mk_rt_row { row_ip : Z; row_mask : Z; row_next_hop : Z; row_port : Z }.

Record arp_row := mk_arp_row { arow_mac_hi : Z; arow_mac_lo : Z; arow_next_hop : Z }.

(** The entry registers and the rows of the three tables. *)
Record device := mk_device {
  d_rt_entry : rt_row;
  d_rt : list rt_row;
  d_arp_entry : arp_row;
  d_arp : list arp_row;
  d_filter_entry : Z;
  d_filter : list Z
}.

Definition zero_rt_row : rt_row := mk_rt_row 0 0 0 0.
Definition zero_arp_row : arp_row := mk_arp_row 0 0 0.

(** The effect of a register write. *)
Definition dev_write (d : device) (r : reg) (v : Z) : device :=
  let '(mk_device re rt ae at_ fe ft) := d in
  match r with
  | RT_ENTRY_IP => mk_device (mk_rt_row v (row_mask re) (row_next_hop re) (row_port re)) rt ae at_ fe ft
  | RT_ENTRY_MASK => mk_device (mk_rt_row (row_ip re) v (row_next_hop re) (row_port re)) rt ae at_ fe ft
  | RT_ENTRY_NEXT_HOP_IP => mk_device (mk_rt_row (row_ip re) (row_mask re) v (row_port re)) rt ae at_ fe ft
  | RT_ENTRY_OUTPUT_PORT => mk_device (mk_rt_row (row_ip re) (row_mask re) (row_next_hop re) v) rt ae at_ fe ft
  | RT_WR_ADDR => mk_device re (<[Z.to_nat v := re]> rt) ae at_ fe ft
  | RT_RD_ADDR => mk_device (default re (rt !! Z.to_nat v)) rt ae at_ fe ft
  | ARP_ENTRY_MAC_HI => mk_device re rt (mk_arp_row v (arow_mac_lo ae) (arow_next_hop ae)) at_ fe ft
  | ARP_ENTRY_MAC_LO => mk_device re rt (mk_arp_row (arow_mac_hi ae) v (arow_next_hop ae)) at_ fe ft
  | ARP_ENTRY_NEXT_HOP_IP => mk_device re rt (mk_arp_row (arow_mac_hi ae) (arow_mac_lo ae) v) at_ fe ft
  | ARP_WR_ADDR => mk_device re rt ae (<[Z.to_nat v := ae]> at_) fe ft
  | ARP_RD_ADDR => mk_device re rt (default ae (at_ !! Z.to_nat v)) at_ fe ft
  | FILTER_ENTRY_IP => mk_device re rt ae at_ v ft
  | FILTER_WR_ADDR => mk_device re rt ae at_ fe (<[Z.to_nat v := fe]> ft)
  | FILTER_RD_ADDR => mk_device re rt ae at_ (default fe (ft !! Z.to_nat v)) ft
  | _ => d
  end.

Definition dev_step (d : device) (e : event) : device :=
  match e with EvWriteReg r v => dev_write d r v | _ => d end.

Definition dev_run (d : device) (t : list event) : device := foldl dev_step d t.

(** The lookup of ip_lpm.v: the matching row of smallest address; a next hop
    of 0 stands for the destination itself. *)
Definition row_matches (dst : Z) (r : rt_row) : bool :=
  Z.land (row_ip r) (row_mask r) =? Z.land dst (row_mask r).

Definition dev_lookup (d : device) (dst : Z) : option (Z * Z) :=
  r ← find_first (row_matches dst) (d_rt d);
  Some (if row_next_hop r =? 0 then dst else row_next_hop r, row_port r).

(** ** Lemmas: computations that only emit events *)

Definition with_trace (w : world) (t : list event) : world :=
  mk_world (w_rs w) (w_trace w ++ t) (w_tick w) (w_next_addr w) (w_env w).

Definition emits (m : M unit) (t : list event) : Prop := forall w, m w = Done tt (with_trace w t).

Lemma with_trace_nil w : with_trace w [] = w.
Proof. unfold with_trace. rewrite app_nil_r. by destruct w. Qed.

Lemma emits_ret : emits (mret tt) [].
Proof. intros w. by rewrite with_trace_nil. Qed.

Lemma emits_emit e : emits (emit e) [e].
Proof. done. Qed.

Lemma emits_bind m f t1 t2 : emits m t1 -> emits (f tt) t2 -> emits (m ≫= f) (t1 ++ t2).
Proof.
  intros H1 H2 w. unfold mbind, M_bind. rewrite H1, H2. unfold with_trace. simpl.
  by rewrite app_assoc.
Qed.

Lemma emits_seq (m m' : M unit) t1 t2 : emits m t1 -> emits m' t2 -> emits (m;; m') (t1 ++ t2).
Proof. intros. by apply emits_bind. Qed.

(** ** Lemmas: the loops over the slots of a table *)

(** The events of the loop, and the rows it writes. *)
Fixpoint slot_events {A} (evs : nat -> option A -> list event) (n i : nat) (l : list A)
    : list event :=
  match n with
  | O => []
  | S n' =>
      match l with
      | x :: l' => evs i (Some x) ++ slot_events evs n' (S i) l'
      | [] => evs i None ++ slot_events evs n' (S i) []
      end
  end.

Definition slot_rows {A R} (row : option A -> R) (n : nat) (l : list A) : list R :=
  map (fun x => row (Some x)) (take n l) ++ replicate (n - length l) (row None).

Lemma slot_rows_S {A R} (row : option A -> R) n l :
  slot_rows row (S n) l = row (head l) :: slot_rows row n (tail l).
Proof. unfold slot_rows. destruct l; simpl; [|done]. by rewrite take_nil, Nat.sub_0_r. Qed.

Lemma write_slots_emits {A} (write_row : nat -> option A -> M unit) evs n i l :
  (forall i o, (forall x, o = Some x -> x ∈ take n l) -> emits (write_row i o) (evs i o)) ->
  emits (write_slots write_row n i l) (slot_events evs n i l).
Proof.
  revert i l. induction n as [|n IH]; intros i l H; simpl; [apply emits_ret|].
  destruct l as [|x l]; apply emits_seq.
  - apply H. intros y [=].
  - apply IH. intros j o Ho. apply H. intros y Hy. specialize (Ho y Hy).
    rewrite take_nil in Ho. by apply elem_of_nil in Ho.
  - apply H. intros y [= <-]. simpl. apply list_elem_of_here.
  - apply IH. intros j o Ho. apply H. intros y Hy. simpl. by apply list_elem_of_further, Ho.
Qed.

(** A table whose row [i] each step of the loop overwrites holds, at the end,
    the rows of the first entries and cleared rows after them. *)
Lemma slot_events_rows {A R} (rows : device -> list R) (row : option A -> R) evs n i l d :
  (forall d i o, (forall x, o = Some x -> x ∈ take n l) ->
     rows (dev_run d (evs i o)) = <[i := row o]> (rows d)) ->
  length (rows d) = (i + n)%nat ->
  rows (dev_run d (slot_events evs n i l)) = take i (rows d) ++ slot_rows row n l.
Proof.
  revert d i l. induction n as [|n IH]; intros d i l Hstep Hlen.
  { simpl. unfold slot_rows. simpl. rewrite app_nil_r, take_ge by lia. done. }
  rewrite slot_rows_S.
  assert (slot_events evs (S n) i l =
    evs i (head l) ++ slot_events evs n (S i) (tail l)) as -> by (by destruct l).
  unfold dev_run. rewrite foldl_app. fold (dev_run d (evs i (head l))).
  fold (dev_run (dev_run d (evs i (head l))) (slot_events evs n (S i) (tail l))).
  assert (rows (dev_run d (evs i (head l))) = <[i := row (head l)]> (rows d)) as E.
  { apply Hstep. intros x Hx. destruct l; simplify_eq/=. apply list_elem_of_here. }
  rewrite IH.
  - rewrite E. rewrite (take_S_r _ i (row (head l)))
      by (apply list_lookup_insert_eq; lia).
    rewrite take_insert_ge by lia. by rewrite <- app_assoc.
  - intros d' j o Ho. apply Hstep. intros x Hx. specialize (Ho x Hx).
    destruct l as [|y l]; simpl in *; [by rewrite take_nil in Ho|by apply list_elem_of_further].
  - rewrite E, length_insert. lia.
Qed.

Lemma slot_rows_length {A R} (row : option A -> R) n l : length (slot_rows row n l) = n.
Proof. unfold slot_rows. rewrite length_app, length_map, length_take, length_replicate. lia. Qed.

(** ** Lemmas: local IP filters *)

Lemma filter_swap_asym `{StrcmpLaws} a b : filter_swap a b = true -> filter_swap b a = false.
Proof.
  unfold filter_swap. rewrite Z.eqb_eq, Z.eqb_neq. intros Hab.
  specialize (strcmp_antisym (lf_name a) (lf_name b)). lia.
Qed.

Definition filter_row (o : option local_ip_filter_entry) : Z :=
  match o with Some e => ntohl (lf_ip e) | None => 0 end.

Definition filter_events (i : nat) (o : option local_ip_filter_entry) : list event :=
  [EvWriteReg FILTER_ENTRY_IP (filter_row o); EvWriteReg FILTER_WR_ADDR (Z.of_nat i)].

Lemma write_filter_row_emits i o : emits (write_filter_row i o) (filter_events i o).
Proof. apply (emits_seq _ _ [_] [_]); apply emits_emit. Qed.

#[export] Instance strcmp_sign_laws : @StrcmpLaws strcmp_sign.
Proof.
  intros a b. unfold strcmp, strcmp_sign.
  rewrite (String.compare_antisym a b). destruct (String.compare b a); simpl; lia.
Qed.

(** ** Lemmas: the device *)

Definition device_ok (d : device) : Prop :=
  length (d_rt d) = TABLE_DEPTH /\ length (d_arp d) = TABLE_DEPTH
  /\ length (d_filter d) = TABLE_DEPTH.

Definition device_reset : device :=
  mk_device zero_rt_row (replicate TABLE_DEPTH zero_rt_row) zero_arp_row
    (replicate TABLE_DEPTH zero_arp_row) 0 (replicate TABLE_DEPTH 0).

Lemma dev_run_app d t1 t2 : dev_run d (t1 ++ t2) = dev_run (dev_run d t1) t2.
Proof. apply foldl_app. Qed.

Lemma dev_step_ok d e : device_ok d -> device_ok (dev_step d e).
Proof.
  destruct d. unfold device_ok. intros (H1 & H2 & H3). destruct e as [| | | | |[]| |]; simpl in *;
    rewrite ?length_insert; done.
Qed.

Lemma dev_run_ok d t : device_ok d -> device_ok (dev_run d t).
Proof.
  revert d. induction t as [|e t IH]; intros d Hd; simpl; [done|]. by apply IH, dev_step_ok.
Qed.

Lemma device_reset_ok : device_ok device_reset.
Proof. done. Qed.

Lemma write_filters_spec l w d :
  device_ok (dev_run d (w_trace w)) ->
  wp (write_slots write_filter_row TABLE_DEPTH 0 l) (fun _ w' =>
    w_rs w' = w_rs w /\
    d_filter (dev_run d (w_trace w')) = slot_rows filter_row TABLE_DEPTH l) w.
Proof.
  intros Hd. eapply wp_done.
  { apply (write_slots_emits _ filter_events TABLE_DEPTH 0 l). intros i o _. apply write_filter_row_emits. }
  split; [done|]. cbn [w_trace with_trace]. rewrite dev_run_app.
  rewrite (slot_events_rows d_filter filter_row); [done| |apply Hd].
  intros [] i o _. simpl. by rewrite Nat2Z.id.
Qed.

(** Changing the local IP filters terminates, reorders the list without
    losing or inventing an entry, leaves no adjacent pair [strcmp] tells apart
    by 1 out of order, and on a NetFPGA leaves the filter table of the device
    with the first 32 addresses in host order and its other rows cleared. *)
Theorem trigger_local_ip_filters_change_correct `{StrcmpLaws} w d :
  device_ok d -> is_netfpga (w_rs w) = true ->
  wp trigger_local_ip_filters_change (fun _ w' =>
    exists l, w_rs w' = set_local_ip_filter_list l (w_rs w) /\
      l ≡ₚ local_ip_filter_list (w_rs w) /\ adjacent_ok filter_swap l /\
      d_filter (dev_run d (w_trace w')) = slot_rows filter_row TABLE_DEPTH l) w.
Proof.
  intros Hd Hnf. unfold trigger_local_ip_filters_change.
  apply wp_bind. eapply wp_done; [reflexivity|].
  apply wp_bind. eapply wp_done; [reflexivity|]. cbn [w_rs].
  destruct (bubble_sort_spec filter_swap filter_swap_asym (local_ip_filter_list (w_rs w)))
    as (l & -> & Hp & Ha).
  apply wp_bind. eapply wp_done; [reflexivity|].
  apply wp_bind. eapply wp_done; [reflexivity|]. rewrite Hnf.
  apply wp_bind. eapply wp_mono.
  { apply write_filters_spec. by apply dev_run_ok. }
  intros [] w' [E1 E2]. eapply wp_done; [reflexivity|]. cbn [w_rs w_trace].
  exists l. split_and!; [exact E1|done..|]. rewrite dev_run_app. exact E2.
Qed.
