(* ===== verification/Rtable.v ===== *)
(** or_rtable.c: the routing table, its longest-prefix-match lookup, its
    modification by routes and interface changes, and its copy in the device. *)

From Stdlib Require Import Sorting.Sorted.
From S2P Require Import Prelude Words Bytes State CStrings Sorting Netfpga.
Local Open Scope Z_scope.

(** ** Locks *)

Definition lock_rtable_rd : M unit := acquire L_rtable Rd.
Definition lock_rtable_wr : M unit := acquire L_rtable Wr.
Definition unlock_rtable : M unit := release L_rtable.

(** ** Lookup *)

(** [(ntohl(re->ip) & mask) == (ntohl(destination) & mask)] on an active entry *)
Definition route_matches (destination : Z) (re : rtable_entry) : bool :=
  let mask := ntohl (re_mask re) in
  let ip := Z.land (ntohl (re_ip re)) mask in
  let dest_ip := Z.land (ntohl destination) mask in
  re_is_active re && (ip =? dest_ip).

Definition mask_bits (re : rtable_entry) : Z := count_bits_from (ntohl (re_mask re)) 0 32.

Fixpoint get_next_hop_loop (destination : Z) (n : list rtable_entry)
    (lpm : option rtable_entry) (most_bits_matched : Z) : option rtable_entry :=
  match n with
  | [] => lpm
  | re :: n' =>
      if route_matches destination re then
        let bits_matched := mask_bits re in
        if most_bits_matched <? bits_matched
        then get_next_hop_loop destination n' (Some re) bits_matched
        else get_next_hop_loop destination n' lpm most_bits_matched
      else get_next_hop_loop destination n' lpm most_bits_matched
  end.

(** The next hop and the interface copied out; [None] is the return value 1. *)
Definition get_next_hop (len : nat) (rs : router_state) (destination : Z) : option (Z * string) :=
  match get_next_hop_loop destination (rtable rs) None (-1) with
  | Some lpm =>
      Some (if re_gw lpm =? 0 then destination else re_gw lpm, strncpy (re_iface lpm) len)
  | None => None
  end.

(** ** The table in the device *)

(** [while (cur && !cur->is_active) cur = cur->next;] *)
Fixpoint next_active (cur : list rtable_entry) : list rtable_entry :=
  match cur with
  | e :: cur' => if re_is_active e then cur else next_active cur'
  | [] => []
  end.

Definition write_route_row (i : nat) (o : option rtable_entry) : M unit :=
  match o with
  | Some entry =>
      writeReg RT_ENTRY_IP (ntohl (re_ip entry));;
      writeReg RT_ENTRY_MASK (ntohl (re_mask entry));;
      writeReg RT_ENTRY_NEXT_HOP_IP (ntohl (re_gw entry));;
      port ← getOneHotPortNumber (re_iface entry);
      writeReg RT_ENTRY_OUTPUT_PORT port;;
      writeReg RT_WR_ADDR (Z.of_nat i)
  | None =>
      writeReg RT_ENTRY_IP 0;;
      writeReg RT_ENTRY_MASK 0;;
      writeReg RT_ENTRY_NEXT_HOP_IP 0;;
      writeReg RT_ENTRY_OUTPUT_PORT 0;;
      writeReg RT_WR_ADDR (Z.of_nat i)
  end.

(** The loop over the slots from [i] on, [n] of them left. *)
Fixpoint write_rtable_loop (n i : nat) (cur : list rtable_entry) : M unit :=
  match n with
  | O => mret tt
  | S n' =>
      match cur with
      | entry :: cur' =>
          write_route_row i (Some entry);; write_rtable_loop n' (S i) (next_active cur')
      | [] => write_route_row i None;; write_rtable_loop n' (S i) []
      end
  end.

Definition write_rtable_to_hw : M unit :=
  rs ← get_rs;
  write_rtable_loop TABLE_DEPTH 0 (next_active (rtable rs)).

(** ** Order *)

(** The condition under which the bubble sort exchanges two adjacent entries. *)
Definition route_swap (a b : rtable_entry) : bool :=
  (ntohl (re_mask a) <? ntohl (re_mask b))
  || ((re_mask a =? re_mask b) && (ntohl (re_ip a) <? ntohl (re_ip b)))
  || ((re_mask a =? re_mask b) && (re_ip a =? re_ip b)
      && negb (re_is_static a) && re_is_static b).

Definition trigger_rtable_modified : M unit :=
  rs ← get_rs;
  l ← lift OutOfFuel (bubble_sort route_swap (rtable rs));
  put_rs (set_rtable l rs);;
  if is_netfpga rs then write_rtable_to_hw else mret tt.

(** ** Modification *)

Definition IF_LEN : nat := 32.

Definition add_route (dest gateway mask : Z) (interface : string) : M Z :=
  let entry := mk_rtable_entry dest gateway mask (strncpy interface IF_LEN) true true in
  modify_rs (fun rs => set_rtable (rtable rs ++ [entry]) rs);;
  trigger_rtable_modified;;
  mret 0.

Definition route_is (dest mask : Z) (entry : rtable_entry) : bool :=
  (dest =? re_ip entry) && (mask =? re_mask entry).

(** The nodes left and the number of nodes removed. *)
Fixpoint del_route_loop (dest mask : Z) (cur : list rtable_entry) (removed_routes : Z)
    : list rtable_entry * Z :=
  match cur with
  | [] => ([], removed_routes)
  | entry :: cur' =>
      if route_is dest mask entry then del_route_loop dest mask cur' (removed_routes + 1)
      else let '(l, r) := del_route_loop dest mask cur' removed_routes in (entry :: l, r)
  end.

Definition del_route (dest mask : Z) : M Z :=
  rs ← get_rs;
  let '(l, removed_routes) := del_route_loop dest mask (rtable rs) 0 in
  put_rs (set_rtable l rs);;
  trigger_rtable_modified;;
  mret removed_routes.

(** [strncmp(entry->iface, interface, strlen(interface)) == 0] *)
Definition route_on (interface : string) (entry : rtable_entry) : bool :=
  strncmp_eq (re_iface entry) interface (String.length interface).

Definition set_active (b : bool) (e : rtable_entry) : rtable_entry :=
  mk_rtable_entry (re_ip e) (re_gw e) (re_mask e) (re_iface e) (re_is_static e) b.

Fixpoint deactivate_routes_loop (interface : string) (cur : list rtable_entry)
    : list rtable_entry :=
  match cur with
  | [] => []
  | entry :: cur' =>
      if route_on interface entry then
        if re_is_static entry
        then set_active false entry :: deactivate_routes_loop interface cur'
        else deactivate_routes_loop interface cur'
      else entry :: deactivate_routes_loop interface cur'
  end.

Definition deactivate_routes (interface : string) : M Z :=
  modify_rs (fun rs => set_rtable (deactivate_routes_loop interface (rtable rs)) rs);;
  trigger_rtable_modified;;
  mret 0.

Fixpoint activate_routes_loop (interface : string) (cur : list rtable_entry)
    : list rtable_entry :=
  match cur with
  | [] => []
  | entry :: cur' =>
      (if route_on interface entry then set_active true entry else entry)
      :: activate_routes_loop interface cur'
  end.

Definition activate_routes (interface : string) : M Z :=
  modify_rs (fun rs => set_rtable (activate_routes_loop interface (rtable rs)) rs);;
  trigger_rtable_modified;;
  mret 0.

(** ** Specification of the lookup

    An entry wins for a destination when it is active, contains it, no active
    entry that contains it has more bits in its mask, and the entries before it
    that contain it have fewer. *)
Definition lpm_entry (destination : Z) (l : list rtable_entry) (e : rtable_entry) : Prop :=
  exists l1 l2, l = l1 ++ e :: l2 /\ route_matches destination e = true /\
    (forall e', e' ∈ l1 -> route_matches destination e' = true -> mask_bits e' < mask_bits e) /\
    (forall e', e' ∈ l2 -> route_matches destination e' = true -> mask_bits e' <= mask_bits e).

(** ** Lemmas: lookup *)

Lemma get_next_hop_loop_spec dst l lpm most :
  (get_next_hop_loop dst l lpm most = lpm /\
   forall e, e ∈ l -> route_matches dst e = true -> mask_bits e <= most) \/
  (exists e, get_next_hop_loop dst l lpm most = Some e /\ lpm_entry dst l e /\ most < mask_bits e).
Proof.
  revert lpm most. induction l as [|re l IH]; intros lpm most; cbn [get_next_hop_loop].
  { left. split; [done|]. intros e He. by apply elem_of_nil in He. }
  destruct (route_matches dst re) eqn:Hm; [destruct (Z.ltb_spec most (mask_bits re))|].
  - right. destruct (IH (Some re) (mask_bits re)) as [[-> H1]|(e & -> & (l1 & l2 & -> & E & H1 & H2) & Hb)].
    + exists re. split_and!; [done| |done]. exists [], l. split_and!; [done..| |done].
      intros e' He'. by apply elem_of_nil in He'.
    + exists e. split_and!; [done| |lia]. exists (re :: l1), l2. split_and!; [done..| |done].
      intros e' [->|He']%elem_of_cons ?; [done|auto].
  - destruct (IH lpm most) as [[-> H1]|(e & -> & (l1 & l2 & -> & E & H1 & H2) & Hb)].
    + left. split; [done|]. intros e [->|He]%elem_of_cons ?; [done|auto].
    + right. exists e. split_and!; [done| |done]. exists (re :: l1), l2. split_and!; [done..| |done].
      intros e' [->|He']%elem_of_cons ?; [lia|auto].
  - destruct (IH lpm most) as [[-> H1]|(e & -> & (l1 & l2 & -> & E & H1 & H2) & Hb)].
    + left. split; [done|]. intros e [->|He]%elem_of_cons ?; [congruence|auto].
    + right. exists e. split_and!; [done| |done]. exists (re :: l1), l2. split_and!; [done..| |done].
      intros e' [->|He']%elem_of_cons ?; [congruence|auto].
Qed.

(** The loop from its initial values, as a specification of its result. *)
Lemma get_next_hop_loop_lpm dst l :
  match get_next_hop_loop dst l None (-1) with
  | Some e => lpm_entry dst l e
  | None => forall e, e ∈ l -> route_matches dst e = false
  end.
Proof.
  destruct (get_next_hop_loop_spec dst l None (-1)) as [[-> H]|(e & -> & H & _)]; [|done].
  intros e He. destruct (route_matches dst e) eqn:Hm; [|done].
  specialize (H e He Hm). pose proof (count_bits_nonneg (ntohl (re_mask e)) 0 32).
  unfold mask_bits in H. lia.
Qed.

(** What a route is, without the code's masks and loops: an active entry covers the
    addresses that have its address's bits where its mask has ones, and is as
    long as its mask has ones. *)
Definition covers (destination : Z) (e : rtable_entry) : Prop :=
  re_is_active e = true /\
  forall i, 0 <= i < 32 -> Z.testbit (ntohl (re_mask e)) i = true ->
    Z.testbit (ntohl destination) i = Z.testbit (ntohl (re_ip e)) i.

Definition ones (e : rtable_entry) : nat := bits_set (ntohl (re_mask e)) 0 32.

Lemma route_matches_covers dst e : route_matches dst e = true <-> covers dst e.
Proof.
  unfold route_matches, covers. rewrite andb_true_iff, Z.eqb_eq. apply and_iff_compat_l.
  set (m := ntohl (re_mask e)). split.
  - intros H i Hi Hm. apply (f_equal (fun x => Z.testbit x i)) in H.
    rewrite !Z.land_spec, Hm, !andb_true_r in H. done.
  - intros H. apply Z.bits_inj'. intros i Hi. rewrite !Z.land_spec.
    destruct (Z.testbit m i) eqn:Hm; [|by rewrite !andb_false_r]. rewrite !andb_true_r. symmetry.
    apply H; [|done]. destruct (Z.lt_ge_cases i 32); [lia|].
    exfalso. pose proof (bswap32_range (re_mask e)) as Hr. fold (ntohl (re_mask e)) m in Hr.
    rewrite <- (Z.mod_small m (2 ^ 32)), Z.mod_pow2_bits_high in Hm by (done || lia). done.
Qed.

Lemma mask_bits_ones e : mask_bits e = Z.of_nat (ones e).
Proof. apply count_bits_set. Qed.

(** C1: [get_next_hop] is the longest-prefix match over the active routes: it
    answers with the next hop and interface of an active entry that covers the
    destination (its bits are those of the entry where the mask has ones); no
    such entry has a mask with more ones, and those before it in the table have
    fewer. The destination itself stands for a zero gateway. It reports no match
    exactly when no active entry covers the destination. *)
Theorem get_next_hop_correct len rs dst :
  match get_next_hop len rs dst with
  | Some (next_hop, iface) =>
      exists l1 e l2, rtable rs = l1 ++ e :: l2 /\ covers dst e /\
        (forall e', e' ∈ l1 -> covers dst e' -> (ones e' < ones e)%nat) /\
        (forall e', e' ∈ l2 -> covers dst e' -> (ones e' <= ones e)%nat) /\
        next_hop = (if re_gw e =? 0 then dst else re_gw e) /\
        iface = strncpy (re_iface e) len
  | None => forall e, e ∈ rtable rs -> ~ covers dst e
  end.
Proof.
  unfold get_next_hop. pose proof (get_next_hop_loop_lpm dst (rtable rs)) as H.
  destruct (get_next_hop_loop dst (rtable rs) None (-1)) as [e|].
  - destruct H as (l1 & l2 & Hl & Hm & H1 & H2). exists l1, e, l2.
    split_and!; [done|by apply route_matches_covers| | |done..];
      intros e' He' Hc%route_matches_covers; [specialize (H1 e' He' Hc)|specialize (H2 e' He' Hc)];
      rewrite !mask_bits_ones in *; lia.
  - intros e He Hc%route_matches_covers. by rewrite H in Hc.
Qed.

(** ** Lemmas: order *)

Lemma route_swap_asym a b : route_swap a b = true -> route_swap b a = false.
Proof.
  unfold route_swap. rewrite !orb_true_iff, !orb_false_iff, !andb_true_iff, !andb_false_iff,
    !Z.ltb_lt, !Z.ltb_ge, !Z.eqb_eq, !Z.eqb_neq, !negb_true_iff, !negb_false_iff.
  intros [[H|[H1 H2]]|[[[H1 H2] H3] H4]].
  - assert (re_mask b ≠ re_mask a) by (intros E; rewrite E in H; lia).
    split_and!; [lia|by left|by left; left; left].
  - rewrite H1. split_and!; [lia|right; lia|].
    left. left. right. intros E. rewrite E in H2. lia.
  - rewrite H1, H2. split_and!; [lia|right; lia|]. by left; right.
Qed.

(** Entries in the order of the table: longer masks (as numbers) first. *)
Definition mask_ge (a b : rtable_entry) : Prop := ntohl (re_mask b) <= ntohl (re_mask a).

#[export] Instance mask_ge_trans : Transitive mask_ge.
Proof. intros a b c. unfold mask_ge. lia. Qed.

Lemma route_swap_mask_ge a b : route_swap a b = false -> mask_ge a b.
Proof.
  unfold route_swap, mask_ge. rewrite !orb_false_iff, Z.ltb_ge. tauto.
Qed.

Definition routes_sorted (l : list rtable_entry) : Prop := StronglySorted mask_ge l.

Lemma route_sort_spec l :
  exists r, bubble_sort route_swap l = Some r /\ r ≡ₚ l /\ routes_sorted r.
Proof.
  destruct (bubble_sort_spec route_swap route_swap_asym l) as (r & E & Hp & Ha).
  exists r. split_and!; [done..|]. eapply adjacent_ok_StronglySorted; [apply _| |exact Ha].
  apply route_swap_mask_ge.
Qed.

(** ** Lemmas: the copy in the device *)

(** The row of an entry. *)
Definition route_port (e : rtable_entry) : Z := default 0 (one_hot (re_iface e)).

Definition route_row (o : option rtable_entry) : rt_row :=
  match o with
  | Some e => mk_rt_row (ntohl (re_ip e)) (ntohl (re_mask e)) (ntohl (re_gw e)) (route_port e)
  | None => zero_rt_row
  end.

Definition route_events (i : nat) (o : option rtable_entry) : list event :=
  [EvWriteReg RT_ENTRY_IP (row_ip (route_row o));
   EvWriteReg RT_ENTRY_MASK (row_mask (route_row o));
   EvWriteReg RT_ENTRY_NEXT_HOP_IP (row_next_hop (route_row o));
   EvWriteReg RT_ENTRY_OUTPUT_PORT (row_port (route_row o));
   EvWriteReg RT_WR_ADDR (Z.of_nat i)].

(** The routes of the device: the active ones. *)
Definition active_routes (l : list rtable_entry) : list rtable_entry := bfilter re_is_active l.

(** Interface names the device has a port for. *)
Definition names_ok (l : list rtable_entry) : Prop :=
  forall e, e ∈ l -> is_Some (one_hot (re_iface e)).

Lemma next_active_bfilter l :
  active_routes l =
  match next_active l with e :: l' => e :: active_routes l' | [] => [] end.
Proof.
  unfold active_routes. induction l as [|e l IH]; simpl; [done|].
  destruct (re_is_active e) eqn:E; [done|exact IH].
Qed.

(** The loop with its two cursors is the loop over the active entries. *)
Lemma write_rtable_loop_active n i l :
  write_rtable_loop n i (next_active l) = write_slots write_route_row n i (active_routes l).
Proof.
  revert i l. induction n as [|n IH]; intros i l; cbn [write_rtable_loop write_slots]; [done|].
  rewrite next_active_bfilter. destruct (next_active l) as [|e l'].
  - specialize (IH (S i) []). cbn [next_active active_routes bfilter] in IH. by rewrite IH.
  - by rewrite IH.
Qed.

Lemma write_route_row_emits i o :
  (forall e, o = Some e -> is_Some (one_hot (re_iface e))) ->
  emits (write_route_row i o) (route_events i o).
Proof.
  intros Ho. destruct o as [e|]; unfold write_route_row, route_events.
  - destruct (Ho e eq_refl) as [p Hp]. unfold getOneHotPortNumber, route_row, route_port.
    rewrite Hp. simpl default.
    do 3 (apply (emits_seq _ _ [_]); [apply emits_emit|]).
    change (emits (writeReg RT_ENTRY_OUTPUT_PORT p;; writeReg RT_WR_ADDR (Z.of_nat i))
      [EvWriteReg RT_ENTRY_OUTPUT_PORT p; EvWriteReg RT_WR_ADDR (Z.of_nat i)]).
    apply (emits_seq _ _ [_] [_]); apply emits_emit.
  - do 4 (apply (emits_seq _ _ [_]); [apply emits_emit|]). apply emits_emit.
Qed.

Lemma write_rtable_to_hw_spec w d :
  device_ok (dev_run d (w_trace w)) -> names_ok (active_routes (rtable (w_rs w))) ->
  wp write_rtable_to_hw (fun _ w' => w_rs w' = w_rs w /\
    d_rt (dev_run d (w_trace w')) =
      slot_rows route_row TABLE_DEPTH (active_routes (rtable (w_rs w)))) w.
Proof.
  intros Hd Hn. unfold write_rtable_to_hw. apply wp_bind. eapply wp_done; [reflexivity|].
  rewrite write_rtable_loop_active. eapply wp_done.
  { apply (write_slots_emits _ route_events). intros i o Ho. apply write_route_row_emits.
    intros e He. apply Hn. eapply subseteq_take, Ho, He. }
  split; [done|]. cbn [w_trace with_trace]. rewrite dev_run_app.
  rewrite (slot_events_rows d_rt route_row); [done| |apply Hd].
  intros [] i o _. unfold route_events. simpl. rewrite Nat2Z.id. by destruct (route_row o).
Qed.

(** The result of a modification of the table that leaves [l] to be sorted and
    written. *)
Lemma trigger_spec w d :
  device_ok (dev_run d (w_trace w)) -> names_ok (rtable (w_rs w)) ->
  wp trigger_rtable_modified (fun _ w' =>
    exists l, w_rs w' = set_rtable l (w_rs w) /\ l ≡ₚ rtable (w_rs w) /\ routes_sorted l /\
      (is_netfpga (w_rs w) = true ->
       d_rt (dev_run d (w_trace w')) = slot_rows route_row TABLE_DEPTH (active_routes l))) w.
Proof.
  intros Hd Hn. unfold trigger_rtable_modified.
  apply wp_bind. eapply wp_done; [reflexivity|].
  destruct (route_sort_spec (rtable (w_rs w))) as (l & -> & Hp & Hs).
  apply wp_bind. eapply wp_done; [reflexivity|].
  apply wp_bind. eapply wp_done; [reflexivity|].
  destruct (is_netfpga (w_rs w)).
  - eapply wp_mono.
    { apply (write_rtable_to_hw_spec _ d); [exact Hd|]. simpl. unfold active_routes.
      intros e [He _]%elem_of_bfilter. apply Hn. by rewrite <- Hp. }
    intros [] w' [E1 E2]. exists l. split_and!; [exact E1|done..|]. intros _. exact E2.
  - eapply wp_done; [reflexivity|]. by exists l.
Qed.

(** ** The device refines the software lookup *)

(** A route whose fields are words and whose mask is contiguous. *)
Definition route_ok (e : rtable_entry) : Prop :=
  is_u32 (re_gw e) /\ is_u32 (re_mask e)
  /\ (exists k, 0 <= k <= 32 /\ ntohl (re_mask e) = prefix_mask k)
  /\ is_Some (one_hot (re_iface e)).

Lemma mask_bits_mono a b : route_ok a -> route_ok b -> mask_ge a b -> mask_bits b <= mask_bits a.
Proof.
  intros (_ & _ & (j & Hj & Ej) & _) (_ & _ & (k & Hk & Ek) & _). unfold mask_ge, mask_bits.
  rewrite Ej, Ek, !count_bits_prefix_mask by done. intros H.
  destruct (decide (k <= j)); [done|]. pose proof (prefix_mask_lt j k). lia.
Qed.

(** In a sorted table of contiguous masks, the longest-prefix match is the
    first match. *)
Lemma lpm_first_match dst l e :
  routes_sorted l -> (forall e, e ∈ l -> route_ok e) -> lpm_entry dst l e ->
  find_first (route_matches dst) l = Some e.
Proof.
  intros Hs Hok (l1 & l2 & -> & Hm & H1 & _). rewrite find_first_app.
  assert (find_first (route_matches dst) l1 = None) as ->; [|simpl; by rewrite Hm].
  apply find_first_None. intros e' He'. destruct (route_matches dst e') eqn:Hm'; [|done].
  specialize (H1 e' He' Hm').
  assert (mask_ge e' e) as Hge.
  { clear -Hs He'. unfold routes_sorted in Hs. induction l1 as [|x l1 IH]; [by apply elem_of_nil in He'|].
    simpl in Hs. apply StronglySorted_inv in Hs as [Hs Hx].
    apply elem_of_cons in He' as [->|He']; [|by apply IH].
    rewrite Forall_app, Forall_cons in Hx. tauto. }
  pose proof (mask_bits_mono e' e). assert (route_ok e' /\ route_ok e) as [??].
  { split; apply Hok; rewrite elem_of_app, ?elem_of_cons; tauto. }
  specialize (H ltac:(done) ltac:(done) Hge). lia.
Qed.

Lemma one_hot_name_short name p : one_hot name = Some p -> strncpy name IF_LEN = name.
Proof.
  unfold one_hot. intros H. repeat case_match; try discriminate;
    repeat match goal with H : strcmp_eq _ _ = true |- _ => apply String.eqb_eq in H; subst end;
    reflexivity.
Qed.

Lemma find_first_slot_rows dst l :
  (length (active_routes l) <= TABLE_DEPTH)%nat ->
  find_first (row_matches (ntohl dst)) (slot_rows route_row TABLE_DEPTH (active_routes l)) =
  match find_first (route_matches dst) l with
  | Some e => Some (route_row (Some e))
  | None => if (length (active_routes l) <? TABLE_DEPTH)%nat then Some zero_rt_row else None
  end.
Proof.
  intros Hl. unfold slot_rows. rewrite take_ge by done. rewrite find_first_app.
  assert (find_first (row_matches (ntohl dst)) (map (fun x => route_row (Some x)) (active_routes l))
    = (fun e => route_row (Some e)) <$> find_first (route_matches dst) l) as ->.
  { unfold active_routes. clear. induction l as [|e l IH]; simpl; [done|].
    unfold route_matches at 1. destruct (re_is_active e); simpl; [|exact IH].
    unfold row_matches at 1. simpl.
    destruct (Z.land (ntohl (re_ip e)) (ntohl (re_mask e)) =? _); [done|exact IH]. }
  destruct (find_first (route_matches dst) l); [done|]. simpl fmap. cbv iota.
  destruct (Nat.ltb_spec (length (active_routes l)) TABLE_DEPTH) as [Hlt|Hge].
  - destruct (TABLE_DEPTH - length (active_routes l))%nat eqn:E; [lia|]. simpl.
    unfold row_matches. simpl. by rewrite Z.land_0_r.
  - by replace (TABLE_DEPTH - length (active_routes l))%nat with 0%nat by lia.
Qed.

(** C6: After the table of a router on a NetFPGA changed, as long as at most 32 routes
    are active and every route has a contiguous mask and an interface with a port,
    the lookup of the device agrees with [get_next_hop] for every destination that
    has a route: same next hop, and the port of the interface. Where the software
    has no route, the device answers with a cleared row (the destination itself, on
    no port) while one is left, and with no row otherwise. *)
Theorem trigger_rtable_modified_refines w d :
  device_ok (dev_run d (w_trace w)) -> is_netfpga (w_rs w) = true ->
  (forall e, e ∈ rtable (w_rs w) -> route_ok e) ->
  (length (active_routes (rtable (w_rs w))) <= TABLE_DEPTH)%nat ->
  wp trigger_rtable_modified (fun _ w' =>
    forall dst, is_u32 dst ->
    dev_lookup (dev_run d (w_trace w')) (ntohl dst) =
    match get_next_hop IF_LEN (w_rs w') dst with
    | Some (next_hop, iface) => (fun port => (ntohl next_hop, port)) <$> one_hot iface
    | None => if (length (active_routes (rtable (w_rs w))) <? TABLE_DEPTH)%nat
              then Some (ntohl dst, 0) else None
    end) w.
Proof.
  intros Hd Hnf Hok Hlen. eapply wp_mono.
  { apply (trigger_spec w d Hd). intros e He. apply (Hok e He). }
  intros [] w' (l & E & Hp & Hs & Hrt) dst Hdst. specialize (Hrt Hnf).
  assert (length (active_routes l) = length (active_routes (rtable (w_rs w)))) as Hl.
  { apply Permutation_length. by apply bfilter_Permutation. }
  unfold dev_lookup. rewrite Hrt, find_first_slot_rows by lia. rewrite Hl.
  unfold get_next_hop. rewrite E. cbn [rtable set_rtable].
  assert (forall e, e ∈ l -> route_ok e) as Hok' by (intros e He; apply Hok; by rewrite <- Hp).
  pose proof (get_next_hop_loop_lpm dst l) as Hlpm.
  destruct (get_next_hop_loop dst l None (-1)) as [e|].
  - rewrite (lpm_first_match dst l e) by done. cbv iota beta.
    assert (e ∈ l) as He by (destruct Hlpm as (l1 & l2 & -> & _); set_solver).
    destruct (Hok' e He) as (Hgw & _ & _ & [p Hport]).
    rewrite (one_hot_name_short _ p Hport). simpl. unfold route_port. rewrite Hport. simpl.
    rewrite (bswap32_eqb (re_gw e) 0) by (done || (unfold is_u32; lia)).
    rewrite bswap32_0. by destruct (bswap32 (re_gw e) =? 0) eqn:Eg; unfold ntohl; rewrite ?Eg.
  - rewrite (proj2 (find_first_None _ _)) by done.
    by destruct (length (active_routes (rtable (w_rs w))) <? TABLE_DEPTH)%nat.
Qed.

(** ** Modifications of the table *)

Lemma del_route_loop_spec dest mask l r :
  del_route_loop dest mask l r =
  (bfilter (fun e => negb (route_is dest mask e)) l,
   r + Z.of_nat (length (bfilter (route_is dest mask) l))).
Proof.
  revert r. induction l as [|e l IH]; intros r; simpl; [f_equal; lia|].
  destruct (route_is dest mask e); simpl; rewrite IH; [f_equal; lia|done].
Qed.

Lemma names_ok_perm l1 l2 : l1 ≡ₚ l2 -> names_ok l1 -> names_ok l2.
Proof. intros Hp H e He. apply H. by rewrite Hp. Qed.

(** A change of the list followed by [trigger_rtable_modified]. *)
Lemma change_table_spec f (r : Z) w :
  names_ok (f (rtable (w_rs w))) ->
  wp (modify_rs (fun rs => set_rtable (f (rtable rs)) rs);; trigger_rtable_modified;; mret r)
    (fun r' w' => r' = r /\ exists l, w_rs w' = set_rtable l (w_rs w) /\ routes_sorted l /\
       l ≡ₚ f (rtable (w_rs w))) w.
Proof.
  intros Hn. apply wp_bind. eapply wp_done; [reflexivity|].
  apply wp_bind. eapply wp_mono.
  { apply (trigger_spec _ device_reset); [by apply dev_run_ok|exact Hn]. }
  intros [] w' (l & E & Hp & Hs & _). eapply wp_done; [reflexivity|]. split; [done|].
  exists l. split_and!; [by rewrite E|done..].
Qed.

(** [add_route] returns 0 and leaves the table sorted, with the entries it
    had and a new static active entry of the given fields; a duplicate is
    added again. *)
Theorem add_route_correct dest gateway mask interface w :
  names_ok (rtable (w_rs w)) -> is_Some (one_hot interface) ->
  wp (add_route dest gateway mask interface) (fun r w' =>
    r = 0 /\ exists l, w_rs w' = set_rtable l (w_rs w) /\ routes_sorted l /\
      l ≡ₚ mk_rtable_entry dest gateway mask interface true true :: rtable (w_rs w)) w.
Proof.
  intros Hn [p Hi]. unfold add_route. rewrite (one_hot_name_short _ p Hi).
  eapply wp_mono; [apply (change_table_spec (fun l => l ++ [_]))|].
  - intros e [He|He]%elem_of_app; [by apply Hn|].
    apply list_elem_of_singleton in He as ->. simpl. by rewrite Hi.
  - intros r w' (-> & l & E & Hs & Hp). split; [done|]. exists l. split_and!; [done..|].
    rewrite Hp. by rewrite <- Permutation_cons_append.
Qed.

(** [del_route] returns the number of entries with that destination and
    mask, static or not, and leaves the table sorted with exactly the others. *)
Theorem del_route_correct dest mask w :
  names_ok (rtable (w_rs w)) ->
  wp (del_route dest mask) (fun r w' =>
    r = Z.of_nat (length (bfilter (route_is dest mask) (rtable (w_rs w)))) /\
    exists l, w_rs w' = set_rtable l (w_rs w) /\ routes_sorted l /\
      l ≡ₚ bfilter (fun e => negb (route_is dest mask e)) (rtable (w_rs w))) w.
Proof.
  intros Hn. unfold del_route. apply wp_bind. eapply wp_done; [reflexivity|].
  rewrite del_route_loop_spec. apply wp_bind. eapply wp_done; [reflexivity|].
  apply wp_bind. eapply wp_mono.
  { apply (trigger_spec _ device_reset); [by apply dev_run_ok|]. cbn [w_rs rtable set_rtable].
    intros e [He _]%elem_of_bfilter. by apply Hn. }
  intros [] w' (l & E & Hp & Hs & _). eapply wp_done; [reflexivity|]. split; [lia|].
  exists l. split_and!; [by rewrite E|done..].
Qed.

(** The entries an interface going down keeps. *)
Definition kept (interface : string) (e : rtable_entry) : bool :=
  negb (route_on interface e) || re_is_static e.

Lemma deactivate_routes_loop_map interface l :
  deactivate_routes_loop interface l =
  map (fun e => if route_on interface e then set_active false e else e) (bfilter (kept interface) l).
Proof.
  unfold kept. induction l as [|e l IH]; simpl; [done|].
  destruct (route_on interface e) eqn:E; simpl; [destruct (re_is_static e); simpl|];
    by rewrite ?E, IH.
Qed.

Lemma deactivate_routes_loop_elem interface l e :
  e ∈ deactivate_routes_loop interface l <->
  (e ∈ l /\ route_on interface e = false) \/
  (exists e', e' ∈ l /\ route_on interface e' = true /\ re_is_static e' = true /\
    e = set_active false e').
Proof.
  rewrite deactivate_routes_loop_map, list_elem_of_fmap. unfold kept.
  setoid_rewrite elem_of_bfilter. split.
  - intros (x & -> & Hx & Hk). destruct (route_on interface x) eqn:E; [right; by exists x|by left].
  - intros [[He Ho]|(x & Hx & Ho & Hs & ->)]; [exists e|exists x]; rewrite Ho; [done|by rewrite Hs].
Qed.

Lemma deactivate_names_ok interface l : names_ok l -> names_ok (deactivate_routes_loop interface l).
Proof.
  intros Hn e [[He _]|(e' & He & _ & _ & ->)]%deactivate_routes_loop_elem; [by apply Hn|].
  exact (Hn e' He).
Qed.

Lemma activate_routes_loop_map interface l :
  activate_routes_loop interface l =
  map (fun e => if route_on interface e then set_active true e else e) l.
Proof. induction l as [|e l IH]; simpl; by f_equal. Qed.

Lemma activate_names_ok interface l : names_ok l -> names_ok (activate_routes_loop interface l).
Proof.
  intros Hn e. rewrite activate_routes_loop_map. intros (x & -> & Hx)%list_elem_of_fmap.
  specialize (Hn x Hx). by destruct (route_on interface x).
Qed.

(** When an interface goes down, its dynamic routes are removed, its static
    routes are kept but no longer used by any lookup, and the routes of the
    other interfaces are unchanged; the table stays sorted. *)
Theorem deactivate_routes_correct interface w :
  names_ok (rtable (w_rs w)) ->
  wp (deactivate_routes interface) (fun r w' =>
    r = 0 /\ exists l, w_rs w' = set_rtable l (w_rs w) /\ routes_sorted l /\
      (forall e, e ∈ l <->
        (e ∈ rtable (w_rs w) /\ route_on interface e = false) \/
        (exists e', e' ∈ rtable (w_rs w) /\ route_on interface e' = true /\
           re_is_static e' = true /\ e = set_active false e')) /\
      (forall dst e, e ∈ l -> route_matches dst e = true -> route_on interface e = false)) w.
Proof.
  intros Hn. eapply wp_mono; [by apply change_table_spec, deactivate_names_ok|].
  intros r w' (-> & l & E & Hs & Hp). split; [done|]. exists l. split_and!; [done..| |].
  - intros e. rewrite Hp. apply deactivate_routes_loop_elem.
  - intros dst e. rewrite Hp. intros [[_ ?]|(e' & _ & _ & _ & ->)]%deactivate_routes_loop_elem; [done|].
    unfold route_matches. simpl. done.
Qed.

(** Taking an interface down and up again restores its static routes, all
    active, loses its dynamic ones and keeps the routes of other interfaces. *)
Theorem deactivate_then_activate interface w :
  names_ok (rtable (w_rs w)) ->
  wp (deactivate_routes interface;; activate_routes interface) (fun r w' =>
    r = 0 /\ exists l, w_rs w' = set_rtable l (w_rs w) /\ routes_sorted l /\
      l ≡ₚ map (fun e => if route_on interface e then set_active true e else e)
             (bfilter (kept interface) (rtable (w_rs w)))) w.
Proof.
  intros Hn. apply wp_bind. eapply wp_mono; [by apply change_table_spec, deactivate_names_ok|].
  intros r w1 (-> & l1 & E1 & _ & Hp1).
  eapply wp_mono; [apply change_table_spec, activate_names_ok; rewrite E1; simpl|].
  { eapply names_ok_perm; [symmetry; exact Hp1|]. by apply deactivate_names_ok. }
  intros r w' (-> & l & E & Hs & Hp). split; [done|]. exists l. rewrite E1 in E, Hp.
  split_and!; [done..|]. rewrite Hp, activate_routes_loop_map. simpl. rewrite Hp1.
  rewrite deactivate_routes_loop_map, map_map. apply reflexive_eq, map_ext. intros e.
  destruct (route_on interface e) eqn:Eo; [|by rewrite Eo].
  by replace (route_on interface (set_active false e)) with true.
Qed.
