(* ===== verification/Headers.v ===== *)
(** The packet headers of or_data_types.h, as offsets into a packet, and the
    functions of or_utils.c that fill them. A pointer to a header is the offset
    of the header in the buffer. *)

From S2P Require Import Prelude Words Bytes State.
Local Open Scope Z_scope.

(** ** Sizes and constants *)

Definition ETH_ADDR_LEN : nat := 6.
Definition ETH_HDR_LEN : nat := 14.
Definition sizeof_eth_hdr : nat := 14.
Definition sizeof_arp_hdr : nat := 28.
Definition sizeof_ip_hdr : nat := 20.
Definition sizeof_icmp_hdr : nat := 4.
Definition sizeof_pwospf_hdr : nat := 24.
Definition sizeof_pwospf_hello_hdr : nat := 8.
Definition sizeof_pwospf_lsu_hdr : nat := 8.
Definition sizeof_pwospf_lsu_adv : nat := 12.

Definition ETH_TYPE_ARP : Z := 2054.    (* 0x0806 *)
Definition ETH_TYPE_IP : Z := 2048.     (* 0x0800 *)
Definition ARP_HRD_ETHERNET : Z := 1.
Definition ARP_PRO_IP : Z := 2048.
Definition ARP_OP_REQUEST : Z := 1.
Definition ARP_OP_REPLY : Z := 2.
Definition IP_PROTO_ICMP : Z := 1.
Definition IP_PROTO_TCP : Z := 6.
Definition IP_PROTO_UDP : Z := 17.
Definition IP_PROTO_PWOSPF : Z := 89.
Definition IP_FRAG_DF : Z := 16384.     (* 0x4000 *)
Definition IP_FRAG_MF : Z := 8192.      (* 0x2000 *)
Definition IP_FRAG_OFFMASK : Z := 8191. (* 0x1fff *)
Definition ICMP_TYPE_DESTINATION_UNREACHABLE : Z := 3.
Definition ICMP_CODE_NET_UNREACHABLE : Z := 0.
Definition ICMP_CODE_HOST_UNREACHABLE : Z := 1.
Definition ICMP_CODE_PROTOCOL_UNREACHABLE : Z := 2.
Definition ICMP_CODE_PORT_UNREACHABLE : Z := 3.
Definition ICMP_CODE_NET_UNKNOWN : Z := 6.
Definition ICMP_TYPE_TIME_EXCEEDED : Z := 11.
Definition ICMP_CODE_TTL_EXCEEDED : Z := 0.
Definition ICMP_TYPE_ECHO_REQUEST : Z := 8.
Definition ICMP_TYPE_ECHO_REPLY : Z := 0.
Definition ICMP_CODE_ECHO : Z := 0.
Definition PWOSPF_VERSION : Z := 2.
Definition PWOSPF_TYPE_HELLO : Z := 1.
Definition PWOSPF_TYPE_LINK_STATE_UPDATE : Z := 4.
Definition PWOSPF_HELLO_TIP : Z := 3758096389. (* 0xe0000005 *)

(** ** Fields

    The first argument is the packet, the second the offset of the header. *)

Definition eth_dhost (p : bytes) (o : nat) : option bytes := get_range p o 6.
Definition eth_shost (p : bytes) (o : nat) : option bytes := get_range p (o + 6) 6.
Definition eth_type (p : bytes) (o : nat) : option Z := get16 p (o + 12).

Definition arp_op (p : bytes) (o : nat) : option Z := get16 p (o + 6).
Definition arp_sha (p : bytes) (o : nat) : option bytes := get_range p (o + 8) 6.
Definition arp_sip (p : bytes) (o : nat) : option Z := get32 p (o + 14).
Definition arp_tip (p : bytes) (o : nat) : option Z := get32 p (o + 24).

(** [ip_hl:4] then [ip_v:4]: the low and the high half of the first byte. *)
Definition ip_hl (p : bytes) (o : nat) : option Z := b ← get8 p o; Some (Z.land b 15).
Definition ip_v (p : bytes) (o : nat) : option Z := b ← get8 p o; Some (Z.shiftr b 4).
Definition ip_off (p : bytes) (o : nat) : option Z := get16 p (o + 6).
Definition ip_ttl (p : bytes) (o : nat) : option Z := get8 p (o + 8).
Definition ip_p (p : bytes) (o : nat) : option Z := get8 p (o + 9).
Definition ip_sum (p : bytes) (o : nat) : option Z := get16 p (o + 10).
Definition ip_src (p : bytes) (o : nat) : option Z := get32 p (o + 12).
Definition ip_dst (p : bytes) (o : nat) : option Z := get32 p (o + 16).

Definition set_ip_ttl (p : bytes) (o : nat) (v : Z) : option bytes := put8 p (o + 8) v.
Definition set_ip_sum (p : bytes) (o : nat) (v : Z) : option bytes := put16 p (o + 10) v.
Definition set_ip_src (p : bytes) (o : nat) (v : Z) : option bytes := put32 p (o + 12) v.
Definition set_ip_dst (p : bytes) (o : nat) (v : Z) : option bytes := put32 p (o + 16) v.

Definition icmp_type (p : bytes) (o : nat) : option Z := get8 p o.
Definition set_icmp_sum (p : bytes) (o : nat) (v : Z) : option bytes := put16 p (o + 2) v.

Definition pwospf_ver (p : bytes) (o : nat) : option Z := get8 p o.
Definition pwospf_type (p : bytes) (o : nat) : option Z := get8 p (o + 1).
Definition pwospf_len (p : bytes) (o : nat) : option Z := get16 p (o + 2).
Definition pwospf_rid (p : bytes) (o : nat) : option Z := get32 p (o + 4).
Definition pwospf_aid (p : bytes) (o : nat) : option Z := get32 p (o + 8).
Definition pwospf_sum (p : bytes) (o : nat) : option Z := get16 p (o + 12).
Definition pwospf_atype (p : bytes) (o : nat) : option Z := get16 p (o + 14).
Definition set_pwospf_sum (p : bytes) (o : nat) (v : Z) : option bytes := put16 p (o + 12) v.

(** The fields of the hello and link-state-update headers and advertisements. *)
Definition hello_mask (p : bytes) (o : nat) : option Z := get32 p o.
Definition hello_hint (p : bytes) (o : nat) : option Z := get16 p (o + 4).
Definition lsu_seq (p : bytes) (o : nat) : option Z := get16 p o.
Definition lsu_ttl (p : bytes) (o : nat) : option Z := get16 p (o + 2).
Definition lsu_num (p : bytes) (o : nat) : option Z := get32 p (o + 4).
Definition set_lsu_ttl (p : bytes) (o : nat) (v : Z) : option bytes := put16 p (o + 2) v.
Definition adv_sub (p : bytes) (o : nat) : option Z := get32 p o.
Definition adv_mask (p : bytes) (o : nat) : option Z := get32 p (o + 4).
Definition adv_rid (p : bytes) (o : nat) : option Z := get32 p (o + 8).

(** ** Positions of the headers in a packet *)

Definition get_ip_hdr : nat := ETH_HDR_LEN.
Definition get_icmp_hdr : nat := get_ip_hdr + sizeof_ip_hdr.
Definition get_pwospf_hdr : nat := ETH_HDR_LEN + sizeof_ip_hdr.
Definition get_pwospf_hello_hdr : nat := ETH_HDR_LEN + sizeof_ip_hdr + sizeof_pwospf_hdr.
Definition get_pwospf_lsu_hdr : nat := ETH_HDR_LEN + sizeof_ip_hdr + sizeof_pwospf_hdr.
Definition get_pwospf_lsu_data : nat :=
  ETH_HDR_LEN + sizeof_ip_hdr + sizeof_pwospf_hdr + sizeof_pwospf_lsu_hdr.

(** [assert(ntohs(eth->eth_type) == ETH_TYPE_ARP)] then the position. *)
Definition get_arp_hdr (packet : bytes) : M nat :=
  t ← mem (eth_type packet 0);
  assert_ (ntohs t =? ETH_TYPE_ARP);;
  mret ETH_HDR_LEN.

(** ** Filling headers (or_utils.c) *)

Definition populate_eth_hdr (p : bytes) (o : nat) (dhost : option bytes) (shost : bytes) (type : Z)
    : option bytes :=
  p ← match dhost with
      | Some d => put_range p o (take ETH_ADDR_LEN d)
      | None => Some p
      end;
  p ← put_range p (o + 6) (take ETH_ADDR_LEN shost);
  put16 p (o + 12) (htons type).

Definition populate_arp_hdr (p : bytes) (o : nat) (tha : option bytes) (tip : Z) (sha : bytes)
    (sip op : Z) : option bytes :=
  p ← put16 p o (htons ARP_HRD_ETHERNET);
  p ← put16 p (o + 2) (htons ARP_PRO_IP);
  p ← put8 p (o + 4) (Z.of_nat ETH_ADDR_LEN);
  p ← put8 p (o + 5) 4;
  p ← put16 p (o + 6) (htons op);
  p ← put_range p (o + 8) (take ETH_ADDR_LEN sha);
  p ← put32 p (o + 14) sip;
  p ← match tha with
      | Some d => put_range p (o + 18) (take ETH_ADDR_LEN d)
      | None => Some p
      end;
  put32 p (o + 24) tip.

Definition populate_ip (p : bytes) (o : nat) (payload_size protocol source_ip dest_ip : Z)
    : option bytes :=
  p ← bzero p o sizeof_ip_hdr;
  p ← put8 p o (Z.lor 5 (Z.shiftl 4 4));
  p ← put16 p (o + 6) (htons IP_FRAG_DF);
  p ← put16 p (o + 2) (htons (u16 (20 + payload_size)));
  p ← put8 p (o + 8) 64;
  p ← put8 p (o + 9) protocol;
  p ← put32 p (o + 12) source_ip;
  put32 p (o + 16) dest_ip.

Definition populate_icmp (p : bytes) (o : nat) (icmp_type icmp_code : Z) (payload : bytes)
    : option bytes :=
  p ← bzero p o sizeof_icmp_hdr;
  p ← put8 p o icmp_type;
  p ← put8 p (o + 1) icmp_code;
  put_range p (o + sizeof_icmp_hdr) payload.

Definition populate_pwospf (p : bytes) (o : nat) (type len rid aid : Z) : option bytes :=
  p ← bzero p o sizeof_pwospf_hdr;
  p ← put8 p o PWOSPF_VERSION;
  p ← put8 p (o + 1) type;
  p ← put16 p (o + 2) (htons (u16 len));
  p ← put32 p (o + 4) rid;
  put32 p (o + 8) (htonl aid).

Definition populate_pwospf_hello (p : bytes) (o : nat) (mask helloint : Z) : option bytes :=
  p ← bzero p o sizeof_pwospf_hello_hdr;
  p ← put32 p o mask;
  p ← put16 p (o + 4) (htons helloint);
  put16 p (o + 6) 0.

Definition populate_pwospf_lsu (p : bytes) (o : nat) (seq num : Z) : option bytes :=
  p ← bzero p o sizeof_pwospf_lsu_hdr;
  p ← put16 p o (htons seq);
  p ← put16 p (o + 2) (htons 64);
  put32 p (o + 4) (htonl num).

(** [start[i] = pad; pad++;] from [pad = 1], on a [uint8_t]. *)
Fixpoint populate_padding (p : bytes) (start : nat) (len : nat) (pad : Z) : option bytes :=
  match len with
  | O => Some p
  | S len' => p ← put8 p start pad; populate_padding p (S start) len' (u8 (pad + 1))
  end.

(** ** Lemmas *)

(** Shows that a sequence of stores succeeds, keeping track of lengths. *)
Lemma bind_put {A} (o : option bytes) (n : nat) (f : bytes -> option A) (P : A -> Prop) :
  (exists p, o = Some p /\ length p = n) ->
  (forall p, length p = n -> exists a, f p = Some a /\ P a) ->
  exists a, (o ≫= f) = Some a /\ P a.
Proof. intros (p & -> & Hp) H. simpl. by apply H. Qed.

Lemma put8_total p o v : (o < length p)%nat ->
  exists p', put8 p o v = Some p' /\ length p' = length p.
Proof. intros H. rewrite put8_Some by done. eexists. split; [done|]. by rewrite length_insert. Qed.

Lemma put16_total p o v : (o + 1 < length p)%nat ->
  exists p', put16 p o v = Some p' /\ length p' = length p.
Proof. intros H. rewrite put16_Some by done. eexists. split; [done|]. by rewrite !length_insert. Qed.

Lemma put32_total p o v : (o + 3 < length p)%nat ->
  exists p', put32 p o v = Some p' /\ length p' = length p.
Proof. intros H. rewrite put32_Some by done. eexists. split; [done|]. by rewrite !length_insert. Qed.

Lemma put_range_total p o bs : (o + length bs <= length p)%nat ->
  exists p', put_range p o bs = Some p' /\ length p' = length p.
Proof.
  intros H. destruct (put_range p o bs) as [p'|] eqn:E.
  - exists p'. split; [done|]. by eapply put_range_length.
  - unfold put_range in E. apply Nat.leb_le in H. by rewrite H in E.
Qed.

Lemma bzero_total p o n : (o + n <= length p)%nat ->
  exists p', bzero p o n = Some p' /\ length p' = length p.
Proof. intros H. apply put_range_total. by rewrite length_replicate. Qed.

#[export] Hint Resolve put8_total put16_total put32_total put_range_total bzero_total : bytes.
