(* ===== verification/Checksum.v ===== *)
(** The Internet checksums: [compute_ip_checksum] and [verify_checksum] of
    or_ip.c, [compute_icmp_checksum] of or_icmp.c, [compute_pwospf_checksum] of
    or_pwospf.c, and the incremental update [nat_checksum] of or_nat.c. The
    compute functions clear the checksum field of the packet they are given. *)

From S2P Require Import Prelude Words Bytes State Headers.
Local Open Scope Z_scope.

(** ** Computing *)

(** The loop [for (i = 0; i < numShorts; ++i)] over the shorts at [s_ptr],
    adding the ones [keep] selects. *)
Fixpoint sum_shorts (keep : nat -> bool) (p : bytes) (s_ptr i n : nat) (sum : Z) : option Z :=
  match n with
  | O => Some sum
  | S n' =>
      if keep i then
        s ← get16 p s_ptr;
        sum_shorts keep p (s_ptr + 2) (S i) n' (sum + ntohs s)
      else sum_shorts keep p (s_ptr + 2) (S i) n' sum
  end.

(** The packet with its checksum field cleared, and the checksum in host
    order. [ip] is the position of the header. *)
Definition compute_ip_checksum (p : bytes) (ip : nat) : option (bytes * Z) :=
  p ← set_ip_sum p ip 0;
  hl ← ip_hl p ip;
  sum ← sum_shorts (fun i => negb (i =? 5)%nat) p ip 0 (Z.to_nat (hl * 2)) 0;
  Some (p, ones_complement (fold_carries sum)).

(** [payload_len] is an [int]; a negative number of shorts is an empty loop. *)
Definition compute_icmp_checksum (p : bytes) (icmp : nat) (payload_len : Z) : option (bytes * Z) :=
  p ← set_icmp_sum p icmp 0;
  let numShorts := (Z.of_nat sizeof_icmp_hdr + payload_len) / 2 in
  sum ← sum_shorts (fun i => negb (i =? 1)%nat) p icmp 0 (Z.to_nat numShorts) 0;
  Some (p, ones_complement (fold_carries sum)).

Definition compute_pwospf_checksum (p : bytes) (pwospf : nat) : option (bytes * Z) :=
  p ← set_pwospf_sum p pwospf 0;
  len ← pwospf_len p pwospf;
  sum ← sum_shorts (fun i => (i <? 8) || (11 <? i))%nat p pwospf 0 (Z.to_nat (ntohs len / 2)) 0;
  Some (p, ones_complement (fold_carries sum)).

(** [new_ip->ip_sum = htons(compute_ip_checksum(new_ip));] *)
Definition fill_ip_checksum (p : bytes) (ip : nat) : option bytes :=
  '(p, c) ← compute_ip_checksum p ip; set_ip_sum p ip (htons c).

Definition fill_icmp_checksum (p : bytes) (icmp payload_len : nat) : option bytes :=
  '(p, c) ← compute_icmp_checksum p icmp (Z.of_nat payload_len); set_icmp_sum p icmp (htons c).

(** [pwospf->pwospf_sum = htons(compute_pwospf_checksum(pwospf));] *)
Definition fill_pwospf_checksum (p : bytes) (pwospf : nat) : option bytes :=
  '(p, c) ← compute_pwospf_checksum p pwospf; set_pwospf_sum p pwospf (htons c).

(** ** Verifying *)

(** [for(i=0; i<length; i++) { sum_2_comp += ntohs(bytes[i]); }] on a
    [uint32_t] *)
Fixpoint verify_loop (p : bytes) (data n : nat) (sum_2_comp : Z) : option Z :=
  match n with
  | O => Some sum_2_comp
  | S n' => s ← get16 p data; verify_loop p (data + 2) n' (u32 (sum_2_comp + ntohs s))
  end.

(** Returns 0 when the checksum is right. *)
Definition verify_checksum (p : bytes) (data data_length : nat) : option Z :=
  sum_2_comp ← verify_loop p data (data_length / 2) 0;
  let sum_1_comp := u16 (Z.shiftr sum_2_comp 16 + Z.land sum_2_comp 65535) in
  Some (if sum_1_comp =? 65535 then 0 else 1).

(** ** Incremental update *)

(** [old], [pos], [neg] and the result are [uint16_t], [word] is [uint32_t]. *)
Definition nat_checksum (old pos neg : Z) : Z :=
  let word := u32 (old + pos) in
  let word := u32 (Z.shiftr word 16 + Z.land word 65535) in
  let word := u32 (word - neg) in
  let word := if 65535 <? word then u32 (word - 1) else word in
  Z.land word 65535.

Definition compute_nat_checksums (pair : nat_ip_port_pair) : nat_ip_port_pair :=
  let lo := np_ip pair mod 65536 in
  let hi := np_ip pair / 65536 in
  let s_sum := ones_complement (fold_carries (ntohs lo + ntohs hi + ntohs (np_port pair))) in
  let s_sum_ip := ones_complement (fold_carries (ntohs lo + ntohs hi)) in
  let s_sum_port := ones_complement (np_port pair) in
  mk_nat_ip_port_pair (np_ip pair) (np_port pair) (htons s_sum) (htons s_sum_ip) s_sum_port.

(** ** Lemmas *)

(** The bytes of a header. *)
Definition window (p : bytes) (o n : nat) : bytes := take n (drop o p).

Lemma window_SS p o n a b : p !! o = Some a -> p !! (o + 1)%nat = Some b ->
  window p o (S (S n)) = a :: b :: window p (o + 2) n.
Proof.
  intros Ha Hb. unfold window.
  rewrite (drop_S p a o) by done. rewrite (drop_S p b (S o)) by (by rewrite <- Nat.add_1_r).
  simpl. by replace (S (S o)) with (o + 2)%nat by lia.
Qed.

Lemma get16_ntohs p o : is_bytes p -> (o + 1 < length p)%nat ->
  exists a b, p !! o = Some a /\ p !! (o + 1)%nat = Some b /\ is_u8 a /\ is_u8 b /\
    exists s, get16 p o = Some s /\ ntohs s = 256 * a + b.
Proof.
  intros Hp Hl.
  destruct (lookup_lt_is_Some_2 p o) as [a Ha]; [lia|].
  destruct (lookup_lt_is_Some_2 p (o + 1)) as [b Hb]; [lia|].
  assert (is_u8 a) by (by eapply Forall_lookup_1).
  assert (is_u8 b) by (by eapply Forall_lookup_1).
  exists a, b. split_and!; [done..|]. exists (a + 256 * b).
  unfold get16. rewrite Ha, Hb. split; [done|]. by apply bswap16_bytes.
Qed.

(** The loop over every short sums the big-endian words of the window. *)
Lemma sum_shorts_all keep p o i n s : is_bytes p -> (o + 2 * n <= length p)%nat ->
  (forall j, (i <= j < i + n)%nat -> keep j = true) ->
  sum_shorts keep p o i n s = Some (s + sum16 (window p o (2 * n))).
Proof.
  revert o i s. induction n as [|n IH]; intros o i s Hp Hl Hk; cbn [sum_shorts].
  { unfold window. simpl. f_equal. lia. }
  rewrite Hk by lia.
  destruct (get16_ntohs p o Hp ltac:(lia)) as (a & b & Ha & Hb & _ & _ & w & Hw & E).
  rewrite Hw. cbn [mbind option_bind]. rewrite IH; [|done|lia|intros; apply Hk; lia].
  replace (2 * S n)%nat with (S (S (2 * n)))%nat by lia.
  rewrite (window_SS p o (2 * n) a b) by done. cbn [sum16]. rewrite E. f_equal. lia.
Qed.

Lemma sum_shorts_app keep p o i n m s :
  sum_shorts keep p o i (n + m) s =
  s' ← sum_shorts keep p o i n s; sum_shorts keep p (o + 2 * n) (i + n) m s'.
Proof.
  revert o i s. induction n as [|n IH]; intros o i s; cbn [sum_shorts Nat.add].
  { simpl. by rewrite !Nat.add_0_r. }
  replace (o + 2 * S n)%nat with (o + 2 + 2 * n)%nat by lia.
  replace (i + S n)%nat with (S i + n)%nat by lia.
  destruct (keep i); [destruct (get16 p o); [|done]|]; apply IH.
Qed.

Lemma sum_shorts_skip keep p o i n s :
  (forall j, (i <= j < i + n)%nat -> keep j = false) -> sum_shorts keep p o i n s = Some s.
Proof.
  revert o i s. induction n as [|n IH]; intros o i s H; cbn [sum_shorts]; [done|].
  rewrite H by lia. apply IH. intros. apply H. lia.
Qed.

Lemma verify_loop_spec p o n s : is_bytes p -> (o + 2 * n <= length p)%nat ->
  0 <= s -> s + 65535 * Z.of_nat n < 2 ^ 32 ->
  verify_loop p o n s = Some (s + sum16 (window p o (2 * n))).
Proof.
  revert o s. induction n as [|n IH]; intros o s Hp Hl Hs Hb; cbn [verify_loop].
  { unfold window. simpl. f_equal. lia. }
  destruct (get16_ntohs p o Hp ltac:(lia)) as (a & b & Ha & Hb' & Hua & Hub & w & Hw & E).
  rewrite Hw. cbn [mbind option_bind]. rewrite E. unfold is_u8 in *. change (2 ^ 8) with 256 in *.
  rewrite u32_id by (unfold is_u32; lia).
  rewrite IH; [|done|lia|lia|lia].
  replace (2 * S n)%nat with (S (S (2 * n)))%nat by lia.
  rewrite (window_SS p o (2 * n) a b) by done. cbn [sum16]. f_equal. lia.
Qed.

Lemma window_length p o n : (o + n <= length p)%nat -> length (window p o n) = n.
Proof. intros. unfold window. rewrite length_take, length_drop. lia. Qed.

Lemma window_bytes p o n : is_bytes p -> is_bytes (window p o n).
Proof. intros. by apply Forall_take, Forall_drop. Qed.

Lemma window_app p o n m : window p o (n + m) = window p o n ++ window p (o + n) m.
Proof. unfold window. rewrite <- drop_drop. by rewrite take_take_drop. Qed.

Lemma window_ext p p' o n : (forall i, (o <= i < o + n)%nat -> p' !! i = p !! i) ->
  window p' o n = window p o n.
Proof.
  intros H. apply list_eq. intros i. unfold window.
  destruct (decide (i < n)%nat).
  - rewrite !lookup_take_lt, !lookup_drop by done. apply H. lia.
  - by rewrite !lookup_take_ge by lia.
Qed.

Lemma window_put16 p x v p' o n : put16 p x v = Some p' ->
  (o + n <= x \/ x + 2 <= o)%nat -> window p' o n = window p o n.
Proof.
  intros Hp Hx. apply window_ext. intros i Hi.
  eapply lookup_put16_ne; [exact Hp|lia|lia].
Qed.

Lemma half_double n : (2 * n / 2)%nat = n.
Proof. rewrite Nat.mul_comm. by apply Nat.div_mul. Qed.

(** The words of a header but the [k]-th of its [n] shorts. *)
Definition others_sum (p : bytes) (o k n : nat) : Z :=
  sum16 (window p o (2 * k)) + sum16 (window p (o + 2 * k + 2) (2 * (n - k - 1))).

Lemma sum_shorts_but_one p o k n : is_bytes p -> (k < n)%nat -> (o + 2 * n <= length p)%nat ->
  sum_shorts (fun i => negb (i =? k)%nat) p o 0 n 0 = Some (others_sum p o k n).
Proof.
  intros Hp Hk Hl. replace n with (k + (1 + (n - k - 1)))%nat at 1 by lia.
  rewrite sum_shorts_app, sum_shorts_all; [|done|lia|].
  2:{ intros j Hj. apply negb_true_iff, Nat.eqb_neq. lia. }
  cbn [mbind option_bind]. rewrite sum_shorts_app, sum_shorts_skip.
  2:{ intros j Hj. apply negb_false_iff, Nat.eqb_eq. lia. }
  cbn [mbind option_bind]. rewrite sum_shorts_all; [|done|lia|].
  2:{ intros j Hj. apply negb_true_iff, Nat.eqb_neq. lia. }
  by unfold others_sum.
Qed.

Lemma sum16_with_word p o k n a b : (k < n)%nat -> (o + 2 * n <= length p)%nat ->
  p !! (o + 2 * k)%nat = Some a -> p !! (o + 2 * k + 1)%nat = Some b ->
  sum16 (window p o (2 * n)) = others_sum p o k n + (256 * a + b).
Proof.
  intros Hk Hl Ha Hb. replace (2 * n)%nat with (2 * k + S (S (2 * (n - k - 1))))%nat by lia.
  rewrite window_app, sum16_app.
  - rewrite (window_SS p _ _ a b) by done. cbn [sum16]. unfold others_sum. lia.
  - rewrite window_length by lia. by exists k.
Qed.

Lemma others_sum_bound p o k n : is_bytes p -> (k < n)%nat -> (o + 2 * n <= length p)%nat ->
  0 <= others_sum p o k n <= 65535 * Z.of_nat (n - 1).
Proof.
  intros Hp Hk Hl. unfold others_sum.
  pose proof (sum16_bound (window p o (2 * k)) (window_bytes _ _ _ Hp)) as H1.
  pose proof (sum16_bound (window p (o + 2 * k + 2) (2 * (n - k - 1))) (window_bytes _ _ _ Hp)) as H2.
  rewrite window_length in H1, H2 by lia.
  rewrite half_double in H1, H2. lia.
Qed.

(** Adding the checksum of a sum to it gives a positive multiple of 65535. *)
Lemma checksum_completes s : 0 <= s < 2 ^ 32 ->
  let c := ones_complement (fold_carries s) in
  is_u16 c /\ 0 < s + c /\ (s + c) mod 65535 = 0.
Proof.
  intros Hs c. destruct (fold_carries_spec s Hs) as (r & Hr & Hr2 & (k & Hk) & H0).
  assert (c = 65535 - r) as -> by (unfold c; by rewrite ones_complement_eq, Hr).
  assert (s = 0 -> r = 0) as H1 by (intros ->; by rewrite <- Hr).
  unfold is_u16. split_and!; [lia|lia| |].
  - destruct (decide (s = 0)); lia.
  - replace (s + (65535 - r)) with ((k + 1) * 65535) by lia. apply Z.mod_mul. lia.
Qed.

Lemma fold_all_ones s : 0 <= s <= 65535 * 65536 ->
  u16 (s / 65536 + s mod 65536) = 65535 <-> 0 < s /\ s mod 65535 = 0.
Proof.
  intros Hs. unfold u16. change (2 ^ 16) with 65536.
  assert (exists q m, s / 65536 = q /\ s mod 65536 = m /\ s = 65536 * q + m /\ 0 <= m < 65536
    /\ 0 <= q <= 65535) as (q & m & -> & -> & E & Hm & Hq).
  { exists (s / 65536), (s mod 65536). Z.div_mod_to_equations. lia. }
  split.
  - intros H. assert (q + m = 65535) as E2.
    { destruct (decide (q + m < 65536)) as [Hlt|Hge].
      - by rewrite Z.mod_small in H by lia.
      - rewrite (Z.mod_eq (q + m) 65536) in H by lia.
        assert ((q + m) / 65536 = 1) as E1
          by (symmetry; apply (Z.div_unique _ _ _ (q + m - 65536)); lia). lia. }
    split; [lia|]. replace s with ((q + 1) * 65535) by lia. apply Z.mod_mul. lia.
  - intros [Hpos [k Hk]%Z.mod_divide]; [|lia].
    assert (q + m = 65535) as ->; [|done].
    assert (k - q = 1) by nia. lia.
Qed.

Lemma verify_checksum_spec p o n :
  is_bytes p -> (o + 2 * n <= length p)%nat -> Z.of_nat n <= 65536 ->
  exists r, verify_checksum p o (2 * n) = Some r /\
    let sum := sum16 (window p o (2 * n)) in
    (r = 0 <-> 0 < sum /\ sum mod 65535 = 0) /\ (r = 0 \/ r = 1).
Proof.
  intros Hp Hl Hn. unfold verify_checksum.
  pose proof (sum16_bound (window p o (2 * n)) (window_bytes _ _ _ Hp)) as Hb.
  rewrite window_length, half_double in Hb by lia. rewrite half_double.
  rewrite verify_loop_spec; [|done|lia|lia|change (2 ^ 32) with 4294967296; lia].
  cbn [mbind option_bind]. eexists. split; [reflexivity|].
  set (s := sum16 (window p o (2 * n))) in *. rewrite Z.add_0_l.
  rewrite shiftr_16, land_65535. cbv zeta.
  assert (u16 (s / 65536 + s mod 65536) = 65535 <-> 0 < s /\ s mod 65535 = 0) as H.
  { apply fold_all_ones. lia. }
  destruct (Z.eqb_spec (u16 (s / 65536 + s mod 65536)) 65535) as [E|E]; (split; [|lia]).
  - tauto.
  - split; [lia|]. intros. tauto.
Qed.

Lemma verify_checksum_in_range p o n r :
  verify_checksum p o n = Some r -> (2 <= n)%nat -> (o + 2 * (n / 2) <= length p)%nat.
Proof.
  unfold verify_checksum. intros H Hn. apply bind_Some_inv in H as (s & H & _).
  assert (0 < n / 2)%nat as Hpos by (apply Nat.div_str_pos; lia).
  revert o H. generalize 0. induction (n / 2)%nat as [|k IH]; [lia|]. intros z o H.
  cbn [verify_loop] in H. apply bind_Some_inv in H as (x & Hx & H).
  unfold get16 in Hx. apply bind_Some_inv in Hx as (a & _ & Hx). apply bind_Some_inv in Hx as (b & Hb & _).
  apply lookup_lt_Some in Hb. destruct k as [|k]; [lia|]. specialize (IH ltac:(lia) _ _ H). lia.
Qed.

(** [verify_checksum] accepts exactly the data whose words sum, in one's
    complement, to the all-ones word: a positive multiple of 65535. *)
Theorem verify_checksum_correct p o n :
  is_bytes p -> (o + 2 * n <= length p)%nat -> Z.of_nat n <= 65536 ->
  exists r, verify_checksum p o (2 * n) = Some r /\
    let sum := sum16 (window p o (2 * n)) in
    (r = 0 <-> 0 < sum /\ sum mod 65535 = 0) /\ (r = 0 \/ r = 1).
Proof. apply verify_checksum_spec. Qed.

(** ** One's-complement equality: congruence modulo 65535 *)

Definition eq1c (x y : Z) : Prop := (65535 | x - y).
Infix "≡₁" := eq1c (at level 70) : scone_scope.
Local Open Scope scone_scope.

#[export] Instance eq1c_equiv : Equivalence eq1c.
Proof.
  unfold eq1c. split.
  - intros x. rewrite Z.sub_diag. apply Z.divide_0_r.
  - intros x y [k Hk]. exists (- k). lia.
  - intros x y z [j Hj] [k Hk]. exists (j + k). lia.
Qed.

#[export] Instance eq1c_add : Proper (eq1c ==> eq1c ==> eq1c) Z.add.
Proof. intros x x' [j Hj] y y' [k Hk]. exists (j + k). lia. Qed.

#[export] Instance eq1c_sub : Proper (eq1c ==> eq1c ==> eq1c) Z.sub.
Proof. intros x x' [j Hj] y y' [k Hk]. exists (j - k). lia. Qed.

#[export] Instance eq1c_opp : Proper (eq1c ==> eq1c) Z.opp.
Proof. intros x x' [j Hj]. exists (- j). lia. Qed.

#[export] Instance eq1c_mul : Proper (eq1c ==> eq1c ==> eq1c) Z.mul.
Proof.
  intros x x' [j Hj] y y' [k Hk]. exists (j * y + x' * k).
  replace (x * y - x' * y') with ((x - x') * y + x' * (y - y')) by ring. rewrite Hj, Hk. ring.
Qed.

Lemma eq1c_mod x : x mod 65535 = 0 <-> x ≡₁ 0.
Proof. unfold eq1c. rewrite Z.sub_0_r. apply Z.mod_divide. lia. Qed.

Lemma eq1c_65535 x : x + 65535 ≡₁ x.
Proof. exists 1. lia. Qed.

(** Swapping the bytes of a word is multiplying it by 256. *)
Lemma bswap16_eq1c x : is_u16 x -> bswap16 x ≡₁ 256 * x.
Proof.
  intros (a & b & Ha & Hb & ->)%word16_bytes. rewrite bswap16_bytes by done. exists (- b). lia.
Qed.

Lemma eq1c_65536 x : 256 * (256 * x) ≡₁ x.
Proof. exists x. lia. Qed.

Lemma fold_carries_eq1c s : 0 <= s < 2 ^ 32 -> ones_complement (fold_carries s) ≡₁ - s.
Proof.
  intros Hs. destruct (checksum_completes s Hs) as (_ & _ & H). apply eq1c_mod in H as [k Hk].
  exists k. lia.
Qed.

(** ** Properties of the checksums *)

Lemma land_15_range x : 0 <= Z.land x 15 <= 15.
Proof.
  change (Z.land x 15) with (Z.land x (Z.ones 4)). rewrite Z.land_ones by lia.
  pose proof (Z.mod_pos_bound x (2 ^ 4) ltac:(lia)). change (2 ^ 4) with 16 in *. lia.
Qed.

(** Storing the checksum of the other words makes the whole sum a positive
    multiple of 65535. *)
Lemma stored_checksum_sum p p' o k n :
  is_bytes p -> (k < n)%nat -> (o + 2 * n <= length p)%nat -> Z.of_nat n <= 65536 ->
  put16 p (o + 2 * k) (htons (ones_complement (fold_carries (others_sum p o k n)))) = Some p' ->
  0 < sum16 (window p' o (2 * n)) /\ sum16 (window p' o (2 * n)) mod 65535 = 0.
Proof.
  intros Hp Hk Hl Hn Hput.
  pose proof (others_sum_bound p o k n Hp Hk Hl) as Hb.
  assert (0 <= others_sum p o k n < 2 ^ 32) as Hs by (change (2 ^ 32) with 4294967296; lia).
  destruct (checksum_completes _ Hs) as (Hc & Hpos & Hmod).
  set (c := ones_complement (fold_carries (others_sum p o k n))) in *.
  assert (get16 p' (o + 2 * k) = Some (htons c)) as Hget
    by (eapply get16_put16; [apply bswap16_range|exact Hput]).
  assert (is_bytes p') as Hp' by (by eapply put16_bytes).
  assert (length p' = length p) as Hl' by (by eapply put16_length).
  destruct (get16_ntohs p' (o + 2 * k) Hp' ltac:(lia)) as (a & b & Ha & Hb' & _ & _ & w & Hw & E).
  assert (w = htons c) as -> by congruence.
  rewrite (sum16_with_word p' o k n a b) by (done || lia). rewrite <- E.
  unfold ntohs, htons. rewrite bswap16_involutive by done.
  assert (others_sum p' o k n = others_sum p o k n) as ->; [|done].
  unfold others_sum. by rewrite !(window_put16 _ _ _ _ _ _ Hput) by lia.
Qed.

(** A header whose checksum [compute_ip_checksum] computed is accepted by
    [verify_checksum], for every header length the 4-bit field can hold that
    includes the checksum field. *)
Theorem compute_ip_checksum_verifies p ip hl p1 c p2 :
  is_bytes p -> ip_hl p ip = Some hl -> 3 <= hl ->
  (ip + 4 * Z.to_nat hl <= length p)%nat ->
  compute_ip_checksum p ip = Some (p1, c) -> set_ip_sum p1 ip (htons c) = Some p2 ->
  verify_checksum p2 ip (4 * Z.to_nat hl) = Some 0.
Proof.
  intros Hp Hhl Hge Hl Hc H2. unfold compute_ip_checksum, set_ip_sum in *.
  apply bind_Some_inv in Hc as (q & Hq & Hc). apply bind_Some_inv in Hc as (hl' & Hhl' & Hc).
  assert (hl' = hl) as ->.
  { unfold ip_hl, get8 in *. rewrite (lookup_put16_ne _ _ _ _ _ Hq) in Hhl' by lia. congruence. }
  assert (0 <= hl <= 15) as Hhl15.
  { unfold ip_hl in Hhl. obind. subst hl. apply land_15_range. }
  assert (is_bytes q) as Hq' by (by eapply put16_bytes).
  assert (length q = length p) as Hlq by (by eapply put16_length).
  set (n := Z.to_nat (hl * 2)) in *.
  assert ((4 * Z.to_nat hl)%nat = (2 * n)%nat) as E4 by (unfold n; lia).
  rewrite (sum_shorts_but_one q ip 5 n) in Hc by (done || lia). cbn [mbind option_bind] in Hc.
  injection Hc as <- <-.
  change (ip + 10)%nat with (ip + 2 * 5)%nat in H2.
  apply stored_checksum_sum in H2 as H3; [|done|lia..].
  assert (is_bytes p2) by (by eapply put16_bytes).
  assert (length p2 = length q) by (by eapply put16_length). rewrite E4.
  destruct (verify_checksum_spec p2 ip n) as (r & -> & Hr & _); [done|lia|lia|].
  f_equal. apply Hr. exact H3.
Qed.

(** The checksum [compute_icmp_checksum] computes completes the sum of
    the ICMP message, header and payload, to a positive multiple of 65535; when
    the message has an odd length its last byte takes no part in it. *)
Theorem compute_icmp_checksum_correct p icmp payload_len p1 c p2 :
  is_bytes p -> (icmp + sizeof_icmp_hdr + payload_len <= length p)%nat ->
  Z.of_nat payload_len <= 65535 ->
  compute_icmp_checksum p icmp (Z.of_nat payload_len) = Some (p1, c) ->
  set_icmp_sum p1 icmp (htons c) = Some p2 ->
  let n := ((sizeof_icmp_hdr + payload_len) / 2)%nat in
  0 < sum16 (window p2 icmp (2 * n)) /\ sum16 (window p2 icmp (2 * n)) mod 65535 = 0.
Proof.
  intros Hp Hl Hlen Hc H2 n. unfold compute_icmp_checksum, set_icmp_sum in *.
  cbv zeta in Hc. rewrite <- Nat2Z.inj_add in Hc. change 2 with (Z.of_nat 2) in Hc.
  rewrite <- Nat2Z.inj_div, Nat2Z.id in Hc.
  apply bind_Some_inv in Hc as (q & Hq & Hc). fold n in Hc.
  assert (is_bytes q) as Hq' by (by eapply put16_bytes).
  assert (length q = length p) as Hlq by (by eapply put16_length).
  assert (2 <= n)%nat by (apply Nat.div_le_lower_bound; unfold sizeof_icmp_hdr; lia).
  assert (2 * n <= sizeof_icmp_hdr + payload_len)%nat by (apply Nat.Div0.mul_div_le).
  rewrite (sum_shorts_but_one q icmp 1 n) in Hc by (done || lia). cbn [mbind option_bind] in Hc.
  injection Hc as <- <-. change (icmp + 2)%nat with (icmp + 2 * 1)%nat in H2.
  apply stored_checksum_sum in H2; [exact H2|done|lia|lia|].
  unfold sizeof_icmp_hdr in *. lia.
Qed.

Lemma put16_put16 p o v v' p1 p2 :
  put16 p o v = Some p1 -> put16 p1 o v' = Some p2 -> put16 p o v' = Some p2.
Proof.
  intros [Hl ->]%put16_inv [_ ->]%put16_inv. rewrite put16_Some by done. f_equal.
  rewrite (list_insert_insert_ne _ o (o + 1)%nat) by lia.
  by rewrite !list_insert_insert_eq.
Qed.

(** Recomputing the PWOSPF checksum of a packet that carries it gives the
    checksum back, so a packet its sender completed passes the comparison of
    [is_pwospf_packet_valid]. *)
Theorem compute_pwospf_checksum_recomputed p o p1 c p2 :
  is_bytes p -> compute_pwospf_checksum p o = Some (p1, c) ->
  set_pwospf_sum p1 o (htons c) = Some p2 ->
  compute_pwospf_checksum p2 o = Some (p1, c) /\
  (exists s, pwospf_sum p2 o = Some s /\ htons s = c).
Proof.
  unfold compute_pwospf_checksum, set_pwospf_sum, pwospf_sum. intros Hp Hc H2.
  pose proof Hc as Hc'. apply bind_Some_inv in Hc' as (q & Hq & Hc').
  apply bind_Some_inv in Hc' as (len & Hlen & Hc'). apply bind_Some_inv in Hc' as (s & Hs & Hc').
  injection Hc' as E1 E2. subst p1. split.
  - assert (put16 p2 (o + 12) 0 = Some q) as ->; [|simpl; rewrite Hlen; simpl; rewrite Hs; simpl; by rewrite E2].
    pose proof H2 as [Hl _]%put16_inv.
    destruct (put16_total p2 (o + 12) 0) as (q' & Hq' & _); [by rewrite (put16_length _ _ _ _ H2)|].
    rewrite Hq'. pose proof (put16_put16 _ _ _ _ _ _ H2 Hq') as E.
    pose proof (put16_put16 _ _ _ _ _ _ Hq E) as E'. congruence.
  - exists (htons c). split; [|apply bswap16_involutive; rewrite <- E2; apply ones_complement_range].
    eapply get16_put16; [apply bswap16_range|exact H2].
Qed.

(** ** The incremental update of NAT *)

Lemma nat_checksum_range old pos neg : is_u16 (nat_checksum old pos neg).
Proof.
  unfold nat_checksum. rewrite land_65535. apply Z.mod_pos_bound. lia.
Qed.

(** [nat_checksum] adds [pos] to a checksum and subtracts [neg] from it in
    one's complement, without overflow, for any three 16-bit words. *)
Lemma nat_checksum_spec old pos neg :
  is_u16 old -> is_u16 pos -> is_u16 neg -> (nat_checksum old pos neg ≡₁ old + pos - neg).
Proof.
  unfold is_u16. change (2 ^ 16) with 65536. intros Ho Hp Hn. unfold nat_checksum.
  rewrite !land_65535, shiftr_16. unfold u32. change (2 ^ 32) with 4294967296.
  rewrite (Z.mod_small (old + pos)) by lia.
  assert (exists k w, (old + pos) / 65536 + (old + pos) mod 65536 = w /\ old + pos = w + 65535 * k
    /\ 0 <= w <= 65535) as (k & w & -> & E & Hw).
  { exists ((old + pos) / 65536), ((old + pos) / 65536 + (old + pos) mod 65536).
    Z.div_mod_to_equations. lia. }
  rewrite (Z.mod_small w) by lia.
  destruct (decide (neg <= w)) as [Hle|Hgt].
  - rewrite (Z.mod_small (w - neg)) by lia.
    destruct (Z.ltb_spec 65535 (w - neg)); [lia|]. rewrite Z.mod_small by lia. exists (- k). lia.
  - rewrite <- (Z.mod_unique (w - neg) 4294967296 (-1) (w - neg + 4294967296)) by lia.
    destruct (Z.ltb_spec 65535 (w - neg + 4294967296)); [|lia].
    rewrite (Z.mod_small (_ - 1)) by lia.
    rewrite <- (Z.mod_unique _ 65536 65535 (w - neg + 65535)) by lia. exists (1 - k). lia.
Qed.

(** The words of an address, as the little-endian host loads them. *)
Definition ip_words (ip : Z) : Z := ip mod 65536 + ip / 65536.

Lemma ip_halves ip : is_u32 ip -> is_u16 (ip mod 65536) /\ is_u16 (ip / 65536).
Proof. unfold is_u32, is_u16. intros. Z.div_mod_to_equations. lia. Qed.

Lemma swapped_checksum s t :
  0 <= s < 2 ^ 32 -> (s ≡₁ 256 * t) -> (htons (ones_complement (fold_carries s)) ≡₁ - t).
Proof.
  intros Hs Ht. unfold htons. rewrite bswap16_eq1c by (apply ones_complement_range).
  rewrite fold_carries_eq1c by done. rewrite Ht.
  replace (256 * - (256 * t)) with (- (256 * (256 * t))) by lia. by rewrite eq1c_65536.
Qed.

(** The cached sums of a pair are the complements of its words. *)
Lemma compute_nat_checksums_eq1c pair :
  is_u32 (np_ip pair) -> is_u16 (np_port pair) ->
  (np_checksum (compute_nat_checksums pair) ≡₁ - (ip_words (np_ip pair) + np_port pair)) /\
  (np_checksum_ip (compute_nat_checksums pair) ≡₁ - ip_words (np_ip pair)) /\
  (np_checksum_port (compute_nat_checksums pair) ≡₁ - np_port pair).
Proof.
  intros Hip Hport. destruct (ip_halves _ Hip) as [Hlo Hhi].
  unfold compute_nat_checksums. cbn [np_checksum np_checksum_ip np_checksum_port].
  pose proof (bswap16_range (np_ip pair mod 65536)) as R1.
  pose proof (bswap16_range (np_ip pair / 65536)) as R2.
  pose proof (bswap16_range (np_port pair)) as R3. unfold is_u16, ntohs in *.
  change (2 ^ 16) with 65536 in *.
  split_and!.
  - apply swapped_checksum; [change (2 ^ 32) with 4294967296; lia|].
    rewrite !bswap16_eq1c by done. unfold ip_words. apply reflexive_eq. lia.
  - apply swapped_checksum; [change (2 ^ 32) with 4294967296; lia|].
    rewrite !bswap16_eq1c by done. unfold ip_words. apply reflexive_eq. lia.
  - rewrite ones_complement_eq, Z.mod_small by lia. exists 1. lia.
Qed.

(** ** Sums of a packet one of whose fields changes *)

Lemma get16_split p x u : get16 p x = Some u ->
  exists a b, p !! x = Some a /\ p !! (x + 1)%nat = Some b /\ u = a + 256 * b.
Proof.
  unfold get16. intros H. obind. exists x0, x1. by subst.
Qed.

Lemma sum16_window_word p o n x u (t : bytes) :
  is_bytes p -> get16 p x = Some u -> (o <= x)%nat -> Nat.Even (x - o) ->
  (x + 2 <= o + n)%nat -> (o + n <= length p)%nat ->
  sum16 (window p o n ++ t) =
  sum16 (window p o (x - o)) + bswap16 u + sum16 (window p (x + 2) (o + n - x - 2) ++ t).
Proof.
  intros Hp Hu Ho He Hx Hl. destruct (get16_split _ _ _ Hu) as (a & b & Ha & Hb & ->).
  replace n with ((x - o) + (2 + (o + n - x - 2)))%nat at 1 by lia.
  rewrite window_app, <- app_assoc, sum16_app by (by rewrite window_length by lia).
  replace (o + (x - o))%nat with x by lia.
  change (2 + (o + n - x - 2))%nat with (S (S (o + n - x - 2))).
  rewrite (window_SS p x _ a b) by done. cbn [app sum16].
  assert (is_u8 a /\ is_u8 b) as [Ua Ub] by (split; by eapply Forall_lookup_1).
  rewrite bswap16_bytes by done. lia.
Qed.

Lemma put16_u16 p x v : put16 p x (u16 v) = put16 p x v.
Proof.
  unfold put16, put8, u16, u8.
  assert ((v mod 2 ^ 16) mod 2 ^ 8 = v mod 2 ^ 8) as ->.
  { change (2 ^ 16) with 65536. change (2 ^ 8) with 256. Z.div_mod_to_equations. lia. }
  assert ((v mod 2 ^ 16 / 2 ^ 8) mod 2 ^ 8 = (v / 2 ^ 8) mod 2 ^ 8) as ->; [|done].
  change (2 ^ 16) with 65536. change (2 ^ 8) with 256. Z.div_mod_to_equations. lia.
Qed.

(** A store changes the sum by the difference of the words. *)
Lemma sum16_put16 p p' o n x u v (t : bytes) :
  is_bytes p -> get16 p x = Some u -> put16 p x v = Some p' ->
  (o <= x)%nat -> Nat.Even (x - o) -> (x + 2 <= o + n)%nat -> (o + n <= length p)%nat ->
  sum16 (window p' o n ++ t) = sum16 (window p o n ++ t) - bswap16 u + bswap16 v.
Proof.
  intros Hp Hu Hput Ho He Hx Hl.
  assert (get16 p' x = Some (u16 v)) as Hv.
  { eapply (get16_put16 p); [apply u16_range|]. by rewrite put16_u16. }
  rewrite (sum16_window_word p' o n x (u16 v)), (sum16_window_word p o n x u);
    [|done..|by eapply put16_bytes|done|done|done|done|by rewrite (put16_length _ _ _ _ Hput)].
  rewrite !(window_put16 _ _ _ _ _ _ Hput) by lia.
  assert (bswap16 (u16 v) = bswap16 v) as ->; [|lia].
  unfold bswap16, u16. change (2 ^ 16) with 65536. Z.div_mod_to_equations. lia.
Qed.

(** Stores elsewhere do not change it. *)
Lemma sum16_put16_ne p p' o n x v (t : bytes) :
  put16 p x v = Some p' -> (o + n <= x \/ x + 2 <= o)%nat ->
  sum16 (window p' o n ++ t) = sum16 (window p o n ++ t).
Proof. intros Hput Hx. by rewrite (window_put16 _ _ _ _ _ _ Hput). Qed.

(** The big-endian words of an address. *)
Definition addr_words (ip : Z) : Z := bswap16 (ip mod 65536) + bswap16 (ip / 65536).

Lemma addr_words_eq1c ip : is_u32 ip -> addr_words ip ≡₁ 256 * ip_words ip.
Proof.
  intros [Hlo Hhi]%ip_halves. unfold addr_words, ip_words. rewrite !bswap16_eq1c by done.
  apply reflexive_eq. lia.
Qed.

Lemma put32_put16 p o v : put32 p o v = (q ← put16 p o v; put16 q (o + 2) (v / 65536)).
Proof.
  unfold put32, put16. destruct (put8 p o v) as [p1|]; [|done]. cbn [mbind option_bind].
  destruct (put8 p1 (o + 1) (v / 2 ^ 8)) as [p2|]; [|done]. cbn [mbind option_bind].
  change (2 ^ 16) with 65536. destruct (put8 p2 (o + 2) (v / 65536)) as [p3|]; [|done].
  cbn [mbind option_bind]. rewrite Z.div_div by lia. f_equal; lia.
Qed.

Lemma get32_halves p o ip : is_bytes p -> get32 p o = Some ip ->
  get16 p o = Some (ip mod 65536) /\ get16 p (o + 2) = Some (ip / 65536).
Proof.
  unfold get32, get16. intros Hp H. obind. subst ip.
  assert (is_u8 x /\ is_u8 x0 /\ is_u8 x1 /\ is_u8 x2) as (? & ? & ? & ?)
    by (split_and!; by eapply Forall_lookup_1).
  replace (o + 2 + 1)%nat with (o + 3)%nat by lia.
  repeat match goal with H : p !! _ = Some _ |- _ => rewrite H end. simpl.
  unfold is_u8 in *. split; f_equal; Z.div_mod_to_equations; lia.
Qed.

Lemma sum16_put32 p p' o n x ip v (t : bytes) :
  is_bytes p -> get32 p x = Some ip -> put32 p x v = Some p' ->
  (o <= x)%nat -> Nat.Even (x - o) -> (x + 4 <= o + n)%nat -> (o + n <= length p)%nat ->
  sum16 (window p' o n ++ t) = sum16 (window p o n ++ t) - addr_words ip + addr_words v.
Proof.
  intros Hp Hip Hput Ho He Hx Hl. destruct (get32_halves _ _ _ Hp Hip) as [Hlo Hhi].
  rewrite put32_put16 in Hput. apply bind_Some_inv in Hput as (q & Hq & Hput).
  assert (get16 q (x + 2) = Some (ip / 65536)) as Hhi'.
  { rewrite <- Hhi. unfold get16. by rewrite !(lookup_put16_ne _ _ _ _ _ Hq) by lia. }
  rewrite (sum16_put16 q p' o n (x + 2) (ip / 65536) (v / 65536));
    [|by eapply put16_bytes|done|done|lia| |lia|by rewrite (put16_length _ _ _ _ Hq)].
  2:{ destruct He as [k Hk]. exists (k + 1)%nat. lia. }
  rewrite (sum16_put16 p q o n x (ip mod 65536) v) by (done || lia).
  assert (bswap16 v = bswap16 (v mod 65536)) as ->.
  { unfold bswap16. Z.div_mod_to_equations. lia. }
  unfold addr_words. lia.
Qed.
