(* ===== verification/Packets.v ===== *)
(** What the packet-building functions of or_utils.c and the checksum functions
    leave in a buffer: lemmas shared by the protocols that build packets. *)

From S2P Require Import Prelude Words Bytes State Headers Checksum.
Local Open Scope Z_scope.

(** ** Headers as lists of bytes *)

(** An IP header as [populate_ip] fills it, its checksum field holding [sum]. *)
Definition ip_header (payload_size proto src dst sum : Z) : bytes :=
  [69; 0] ++ half_bytes (htons (u16 (20 + payload_size))) ++ [0; 0; 64; 0; 64; u8 proto]
  ++ half_bytes sum ++ word_bytes src ++ word_bytes dst.

(** A header whose words, checksum included, sum to the all-ones word. *)
Definition checksummed (p : bytes) (o n : nat) : Prop :=
  0 < sum16 (window p o n) /\ sum16 (window p o n) mod 65535 = 0.

(** ** Lemmas *)

Lemma checksummed_ext p p' o n :
  (forall i, (o <= i < o + n)%nat -> p' !! i = p !! i) -> checksummed p o n -> checksummed p' o n.
Proof. intros H. unfold checksummed. by rewrite (window_ext _ _ _ _ H). Qed.

Lemma verify_checksummed p o n :
  is_bytes p -> (o + 2 * n <= length p)%nat -> Z.of_nat n <= 65535 ->
  verify_checksum p o (2 * n) = Some 0 <-> checksummed p o (2 * n).
Proof.
  intros Hp Hl Hn. destruct (verify_checksum_spec p o n) as (r & -> & Hr & _); [done|lia|lia|].
  unfold checksummed. cbv zeta in Hr. rewrite <- Hr. split; [by intros [= ->]|by intros ->].
Qed.

Lemma calloc_app n m : calloc (n + m) = calloc n ++ calloc m.
Proof. apply replicate_add. Qed.

(** Storing a range over bytes of the same length. *)
Lemma put_range_app (a b bs c : bytes) : length b = length bs ->
  put_range (a ++ b ++ c) (length a) bs = Some (a ++ bs ++ c).
Proof.
  intros Hl. unfold put_range. rewrite !length_app, <- Hl.
  assert ((length a + length b <=? length a + (length b + length c))%nat = true) as ->
    by (apply Nat.leb_le; lia).
  rewrite take_app_length. rewrite drop_app. rewrite drop_ge by lia.
  replace (length a + length b - length a)%nat with (length b) by lia.
  by rewrite drop_app_length.
Qed.

(** The checksum of an IP header: total on a header of five words, and nothing
    but the checksum field changes. *)
Lemma fill_ip_checksum_spec p ip :
  is_bytes p -> ip_hl p ip = Some 5 -> (ip + 20 <= length p)%nat ->
  exists c p', fill_ip_checksum p ip = Some p' /\ put16 p (ip + 10) c = Some p' /\
    checksummed p' ip 20.
Proof.
  intros Hp Hhl Hl. unfold fill_ip_checksum.
  assert (exists p1 c, compute_ip_checksum p ip = Some (p1, c)) as (p1 & c & E).
  { unfold compute_ip_checksum, set_ip_sum.
    destruct (put16_total p (ip + 10) 0) as (q & Eq & Hq); [lia|]. rewrite Eq.
    cbn [mbind option_bind].
    assert (ip_hl q ip = Some 5) as ->.
    { unfold ip_hl, get8 in *. by rewrite (lookup_put16_ne _ _ _ _ _ Eq) by lia. }
    cbn [mbind option_bind]. change (Z.to_nat (5 * 2)) with 10%nat.
    rewrite (sum_shorts_but_one q ip 5 10); [|by eapply put16_bytes|lia|lia].
    cbn [mbind option_bind]. eauto. }
  rewrite E. cbn [mbind option_bind].
  pose proof E as E'. unfold compute_ip_checksum, set_ip_sum in E'.
  apply bind_Some_inv in E' as (q & Eq & E'). apply bind_Some_inv in E' as (hl & _ & E').
  apply bind_Some_inv in E' as (s & _ & E'). injection E' as -> _.
  pose proof (put16_length _ _ _ _ Eq) as Hq. unfold set_ip_sum.
  destruct (put16_total p1 (ip + 10) (htons c)) as (p2 & E2 & H2); [lia|].
  exists (htons c), p2. rewrite E2. split_and!; [done|by eapply put16_put16|].
  apply (verify_checksummed p2 ip 10); [|lia|lia|].
  - eapply put16_bytes; [|exact E2]. by eapply put16_bytes.
  - change 20%nat with (4 * Z.to_nat 5)%nat.
    by apply (compute_ip_checksum_verifies p ip 5 p1 c).
Qed.

(** The checksum of an ICMP message. *)
Lemma fill_icmp_checksum_spec p icmp payload_len :
  is_bytes p -> (icmp + sizeof_icmp_hdr + payload_len <= length p)%nat ->
  Z.of_nat payload_len <= 65535 ->
  exists c p', fill_icmp_checksum p icmp payload_len = Some p' /\ put16 p (icmp + 2) c = Some p' /\
    checksummed p' icmp (2 * ((sizeof_icmp_hdr + payload_len) / 2)).
Proof.
  intros Hp Hl Hn. unfold fill_icmp_checksum.
  assert (exists p1 c, compute_icmp_checksum p icmp (Z.of_nat payload_len) = Some (p1, c))
    as (p1 & c & E).
  { unfold compute_icmp_checksum, set_icmp_sum. unfold sizeof_icmp_hdr in *.
    destruct (put16_total p (icmp + 2) 0) as (q & Eq & Hq); [lia|]. rewrite Eq.
    cbn [mbind option_bind]. cbv zeta. rewrite <- Nat2Z.inj_add. change 2 with (Z.of_nat 2).
    rewrite <- Nat2Z.inj_div, Nat2Z.id.
    assert (2 <= (4 + payload_len) / 2)%nat by (apply Nat.div_le_lower_bound; lia).
    assert (2 * ((4 + payload_len) / 2) <= 4 + payload_len)%nat by apply Nat.Div0.mul_div_le.
    rewrite (sum_shorts_but_one q icmp 1); [|by eapply put16_bytes|lia|lia].
    cbn [mbind option_bind]. eauto. }
  rewrite E. cbn [mbind option_bind].
  pose proof E as E'. unfold compute_icmp_checksum, set_icmp_sum in E'.
  apply bind_Some_inv in E' as (q & Eq & E'). cbv zeta in E'.
  apply bind_Some_inv in E' as (s & _ & E'). injection E' as -> _.
  pose proof (put16_length _ _ _ _ Eq) as Hq. unfold set_icmp_sum. unfold sizeof_icmp_hdr in Hl.
  destruct (put16_total p1 (icmp + 2) (htons c)) as (p2 & E2 & H2); [lia|].
  exists (htons c), p2. rewrite E2. split_and!; [done|by eapply put16_put16|].
  eapply compute_icmp_checksum_correct; [done|unfold sizeof_icmp_hdr; lia|done|exact E|exact E2].
Qed.

(** ** The populate functions on a laid out buffer *)

Lemma take_n_split n (l : bytes) : (n <= length l)%nat ->
  exists l1 l2, l = l1 ++ l2 /\ length l1 = n.
Proof.
  intros H. exists (take n l), (drop n l). by rewrite take_drop, length_take_le.
Qed.

(** Writes a list out byte by byte. *)
Ltac explode l H :=
  repeat (destruct l as [|? l]; [simpl in H; discriminate H|simpl in H; apply eq_add_S in H]);
  first [apply nil_length_inv in H | destruct l; [clear H|discriminate H]]; try subst l.

Lemma put8_app_at a x b o v : o = length a -> put8 (a ++ x :: b) o v = Some (a ++ u8 v :: b).
Proof. intros ->. apply put8_app. Qed.

(** Stores after a prefix are stores in what follows it. *)
Lemma put8_shift a p o v : put8 (a ++ p) (length a + o) v = (app a) <$> put8 p o v.
Proof.
  unfold put8. rewrite length_app.
  destruct (Nat.ltb_spec o (length p)), (Nat.ltb_spec (length a + o) (length a + length p));
    simpl; try lia; [|done].
  rewrite insert_app_r_alt by lia. by rewrite Nat.add_comm, Nat.add_sub.
Qed.

Lemma put16_shift a p o v : put16 (a ++ p) (length a + o) v = (app a) <$> put16 p o v.
Proof.
  unfold put16. rewrite <- !Nat.add_assoc, put8_shift.
  destruct (put8 p o v) as [q|]; simpl; [|done]. apply put8_shift.
Qed.

Lemma put32_shift a p o v : put32 (a ++ p) (length a + o) v = (app a) <$> put32 p o v.
Proof.
  unfold put32. rewrite <- !Nat.add_assoc, put8_shift.
  destruct (put8 p o v) as [q|]; simpl; [|done]. rewrite put8_shift.
  destruct (put8 q _ _) as [q1|]; simpl; [|done]. rewrite put8_shift.
  destruct (put8 q1 _ _) as [q2|]; simpl; [|done]. apply put8_shift.
Qed.

Lemma put_range_shift a p o bs :
  put_range (a ++ p) (length a + o) bs = (app a) <$> put_range p o bs.
Proof.
  unfold put_range. rewrite length_app.
  destruct (Nat.leb_spec (o + length bs) (length p)),
    (Nat.leb_spec (length a + o + length bs) (length a + length p)); simpl; try lia; [|done].
  rewrite take_app_add, <- Nat.add_assoc, drop_app_add. by rewrite <- app_assoc.
Qed.

Lemma put8_shift0 a p v : put8 (a ++ p) (length a) v = (app a) <$> put8 p 0 v.
Proof. rewrite <- put8_shift. by rewrite Nat.add_0_r. Qed.

Lemma put_range_shift0 a p bs : put_range (a ++ p) (length a) bs = (app a) <$> put_range p 0 bs.
Proof. rewrite <- put_range_shift. by rewrite Nat.add_0_r. Qed.

Lemma populate_ip_shift a p n proto src dst :
  populate_ip (a ++ p) (length a) n proto src dst = (app a) <$> populate_ip p 0 n proto src dst.
Proof.
  unfold populate_ip, bzero.
  rewrite put_range_shift0. destruct (put_range p 0 _) as [q|]; simpl fmap; cbn [mbind option_bind]; [|done].
  rewrite put8_shift0.
  destruct (put8 q 0 _) as [q1|]; simpl fmap; cbn [mbind option_bind]; [|done].
  rewrite put16_shift. destruct (put16 q1 _ _) as [q2|]; simpl fmap; cbn [mbind option_bind]; [|done].
  rewrite put16_shift. destruct (put16 q2 _ _) as [q3|]; simpl fmap; cbn [mbind option_bind]; [|done].
  rewrite put8_shift. destruct (put8 q3 _ _) as [q4|]; simpl fmap; cbn [mbind option_bind]; [|done].
  rewrite put8_shift. destruct (put8 q4 _ _) as [q5|]; simpl fmap; cbn [mbind option_bind]; [|done].
  rewrite put32_shift. destruct (put32 q5 _ _) as [q6|]; simpl fmap; cbn [mbind option_bind]; [|done].
  apply put32_shift.
Qed.

(** [populate_ip] writes the header over 20 bytes. *)
Lemma populate_ip_app a h b n proto src dst : length h = 20%nat ->
  populate_ip (a ++ h ++ b) (length a) n proto src dst =
    Some (a ++ ip_header n proto src dst 0 ++ b).
Proof.
  intros Hh. rewrite populate_ip_shift.
  do 20 (destruct h as [|? h]; [discriminate Hh|]). destruct h; [|discriminate Hh]. reflexivity.
Qed.

(** The checksum of such a header. *)
Lemma put_ip_sum a b n proto src dst c : 
  put16 (a ++ ip_header n proto src dst 0 ++ b) (length a + 10) c =
    Some (a ++ ip_header n proto src dst c ++ b).
Proof. rewrite put16_shift. reflexivity. Qed.

Lemma populate_icmp_app a h b type code payload :
  length h = sizeof_icmp_hdr -> length b = length payload ->
  populate_icmp (a ++ h ++ b) (length a) type code payload =
    Some (a ++ [u8 type; u8 code; 0; 0] ++ payload).
Proof.
  intros Hh Hb. unfold populate_icmp, bzero.
  rewrite put_range_app by done. cbn [mbind option_bind].
  rewrite put8_shift0.
  change (put8 (replicate sizeof_icmp_hdr 0 ++ b) 0 type) with (Some ([u8 type; 0; 0; 0] ++ b)).
  cbn [fmap option_fmap option_map mbind option_bind]. rewrite put8_shift.
  change (put8 ([u8 type; 0; 0; 0] ++ b) 1 code) with (Some ([u8 type; u8 code; 0; 0] ++ b)).
  cbn [fmap option_fmap option_map mbind option_bind].
  rewrite put_range_shift.
  pose proof (put_range_app [u8 type; u8 code; 0; 0] b payload []) as E.
  rewrite !app_nil_r in E. cbn [length] in E. change 4%nat with sizeof_icmp_hdr in E.
  by rewrite E.
Qed.

Lemma put_icmp_sum a type code payload c :
  put16 (a ++ [type; code; 0; 0] ++ payload) (length a + 2) c =
    Some (a ++ [type; code] ++ half_bytes c ++ payload).
Proof. rewrite put16_shift. reflexivity. Qed.

(** [populate_eth_hdr] over the first 14 bytes; without a destination the
    first six are kept. *)
Lemma populate_eth_app dhost h b shost type :
  length dhost = 6%nat -> length h = 8%nat -> length shost = ETH_ADDR_LEN ->
  populate_eth_hdr (dhost ++ h ++ b) 0 None shost type =
    Some (dhost ++ shost ++ half_bytes (htons type) ++ b).
Proof.
  intros Hd Hh Hs. unfold populate_eth_hdr. cbn [mbind option_bind].
  rewrite take_ge by (rewrite Hs; done).
  destruct (take_n_split 6 h ltac:(lia)) as (h1 & h2 & -> & Hh1). rewrite <- app_assoc.
  rewrite length_app in Hh.
  pose proof (put_range_app dhost h1 shost (h2 ++ b)) as E. rewrite Hd, Hs in E.
  change (0 + 6)%nat with 6%nat. rewrite E by done. cbn [mbind option_bind].
  rewrite app_assoc. replace (0 + 12)%nat with (length (dhost ++ shost) + 0)%nat
    by (rewrite length_app, Hs, Hd; done).
  rewrite put16_shift. destruct h2 as [|x [|y [|? ?]]]; simpl in Hh; try lia.
  simpl. by rewrite <- app_assoc.
Qed.

Lemma ip_header_length n proto src dst c : length (ip_header n proto src dst c) = 20%nat.
Proof. reflexivity. Qed.

Lemma half_bytes_is_bytes v : is_bytes (half_bytes v).
Proof. repeat constructor; apply u8_range. Qed.
Lemma word_bytes_is_bytes v : is_bytes (word_bytes v).
Proof. repeat constructor; apply u8_range. Qed.
#[export] Hint Resolve half_bytes_is_bytes word_bytes_is_bytes : bytes.

Lemma ip_header_bytes n proto src dst c : is_bytes (ip_header n proto src dst c).
Proof.
  unfold ip_header, is_bytes. rewrite !Forall_app. split_and!.
  all: try apply half_bytes_is_bytes; try apply word_bytes_is_bytes.
  - repeat apply Forall_cons_2; try apply Forall_nil_2; unfold is_u8; lia.
  - repeat apply Forall_cons_2; try apply Forall_nil_2; try apply u8_range; unfold is_u8; lia.
Qed.
#[export] Hint Resolve ip_header_bytes : bytes.

(** ** Loads after a prefix, and loads of stored words *)

Lemma lookup_shift {A} (a p : list A) o : (a ++ p) !! (length a + o)%nat = p !! o.
Proof. rewrite lookup_app_r by lia. f_equal. lia. Qed.

Lemma get8_shift a p o : get8 (a ++ p) (length a + o) = get8 p o.
Proof. apply lookup_shift. Qed.

Lemma get16_shift a p o : get16 (a ++ p) (length a + o) = get16 p o.
Proof. unfold get16. by rewrite <- Nat.add_assoc, !lookup_shift. Qed.

Lemma get32_shift a p o : get32 (a ++ p) (length a + o) = get32 p o.
Proof. unfold get32. by rewrite <- !Nat.add_assoc, !lookup_shift. Qed.

Lemma get16_half_bytes v b : is_u16 v -> get16 (half_bytes v ++ b) 0 = Some v.
Proof.
  intros Hv. unfold get16, half_bytes. simpl. f_equal. unfold u8, is_u16 in *.
  change (2 ^ 8) with 256 in *. change (2 ^ 16) with 65536 in *. Z.div_mod_to_equations. lia.
Qed.

Lemma get32_word_bytes v b : is_u32 v -> get32 (word_bytes v ++ b) 0 = Some v.
Proof.
  intros (x & y & z & t & Hx & Hy & Hz & Ht & ->)%word32_bytes.
  unfold get32, word_bytes, u8, is_u8 in *. change (2 ^ 8) with 256 in *. change (2 ^ 16) with 65536 in *.
  change (2 ^ 24) with 16777216 in *. cbn [app lookup list_lookup mbind option_bind Nat.add].
  set (v := x + 256 * y + 65536 * z + 16777216 * t).
  assert (v mod 256 = x) as -> by (symmetry; apply (Z.mod_unique _ _ (y + 256 * z + 65536 * t)); lia).
  assert (v / 256 = y + 256 * z + 65536 * t) as -> by (symmetry; apply (Z.div_unique _ _ _ x); lia).
  assert (v / 65536 = z + 256 * t) as -> by (symmetry; apply (Z.div_unique _ _ _ (x + 256 * y)); lia).
  assert (v / 16777216 = t) as -> by (symmetry; apply (Z.div_unique _ _ _ (x + 256 * y + 65536 * z)); lia).
  assert ((y + 256 * z + 65536 * t) mod 256 = y) as ->
    by (symmetry; apply (Z.mod_unique _ _ (z + 256 * t)); lia).
  assert ((z + 256 * t) mod 256 = z) as -> by (symmetry; apply (Z.mod_unique _ _ t); lia).
  rewrite (Z.mod_small t) by lia. reflexivity.
Qed.

(** ** The PWOSPF checksum *)

Lemma sum_shorts_total keep p o i n s : (o + 2 * n <= length p)%nat ->
  exists r, sum_shorts keep p o i n s = Some r.
Proof.
  revert o i s. induction n as [|n IH]; intros o i s Hl; [by eexists|]. cbn [sum_shorts].
  destruct (keep i); [|apply IH; lia].
  destruct (lookup_lt_is_Some_2 p o ltac:(lia)) as [a Ha].
  destruct (lookup_lt_is_Some_2 p (o + 1) ltac:(lia)) as [b Hb].
  unfold get16. rewrite Ha, opt_bind_Some, Hb, !opt_bind_Some. apply IH. lia.
Qed.

Lemma sum_shorts_shift keep a p o i n s :
  sum_shorts keep (a ++ p) (length a + o) i n s = sum_shorts keep p o i n s.
Proof.
  revert o i s. induction n as [|n IH]; intros o i s; [done|]. cbn [sum_shorts].
  rewrite <- Nat.add_assoc. destruct (keep i); [|apply IH]. rewrite get16_shift.
  destruct (get16 p o); [|done]. rewrite !opt_bind_Some. apply IH.
Qed.

Lemma compute_pwospf_checksum_shift a p p1 c :
  compute_pwospf_checksum p 0 = Some (p1, c) ->
  compute_pwospf_checksum (a ++ p) (length a) = Some (a ++ p1, c).
Proof.
  unfold compute_pwospf_checksum, set_pwospf_sum. intros H.
  apply bind_Some_inv in H as (q & Hq & H). apply bind_Some_inv in H as (l & Hl & H).
  apply bind_Some_inv in H as (s & Hs & H). injection H as -> <-.
  change (0 + 12)%nat with 12%nat in Hq. rewrite put16_shift, Hq. cbn [fmap option_fmap option_map].
  rewrite opt_bind_Some. unfold pwospf_len in *. change (0 + 2)%nat with 2%nat in Hl.
  rewrite get16_shift, Hl, opt_bind_Some. rewrite <- (Nat.add_0_r (length a)), sum_shorts_shift, Hs.
  done.
Qed.

(** The checksum of a PWOSPF packet whose length field fits the buffer. *)
Lemma fill_pwospf_checksum_spec p len :
  is_bytes p -> pwospf_len p 0 = Some len -> (2 * Z.to_nat (ntohs len / 2) <= length p)%nat ->
  (24 <= length p)%nat ->
  exists c p1 p', fill_pwospf_checksum p 0 = Some p' /\ put16 p 12 (htons c) = Some p' /\
    compute_pwospf_checksum p' 0 = Some (p1, c) /\ pwospf_sum p' 0 = Some (htons c) /\ is_u16 c.
Proof.
  intros Hp Hlen Hl H24. unfold fill_pwospf_checksum.
  assert (exists q c, compute_pwospf_checksum p 0 = Some (q, c) /\ put16 p 12 0 = Some q /\ is_u16 c)
    as (q & c & E & Hq & Hc).
  { unfold compute_pwospf_checksum, set_pwospf_sum.
    destruct (put16_total p (0 + 12) 0) as (q & Eq & Hq); [lia|]. rewrite Eq, opt_bind_Some.
    assert (pwospf_len q 0 = Some len) as ->.
    { unfold pwospf_len, get16 in *. by rewrite !(lookup_put16_ne _ _ _ _ _ Eq) by lia. }
    rewrite opt_bind_Some.
    destruct (sum_shorts_total (fun i => (i <? 8) || (11 <? i))%nat q 0 0 (Z.to_nat (ntohs len / 2)) 0)
      as [s ->]; [lia|]. rewrite opt_bind_Some. eexists _, _. split_and!; [done..|].
    apply ones_complement_range. }
  rewrite E, opt_bind_Some. unfold set_pwospf_sum. change (0 + 12)%nat with 12%nat.
  pose proof (put16_length _ _ _ _ Hq) as Hlq.
  destruct (put16_total q 12 (htons c)) as (p' & E' & _); [lia|].
  exists c, q, p'. rewrite E'.
  destruct (compute_pwospf_checksum_recomputed p 0 q c p' Hp E E') as (H1 & s & H2 & H3).
  split_and!; [done|by eapply put16_put16|done| |done].
  unfold pwospf_sum in *. eapply get16_put16; [apply bswap16_range|exact E'].
Qed.
