(* ===== verification/Iface.v ===== *)
(** The interface list: the accessors of or_iface.c and or_main.c, the
    registers that hold the MAC addresses of the ports, and the changes of an
    interface's addresses. Bringing an interface up or down involves the
    routing protocol and is in IfaceCtl.v. *)

From S2P Require Import Prelude Words Bytes State CStrings Netfpga.
Local Open Scope Z_scope.

(** [SR_NAMELEN] of sr_base_internal.h *)
Definition SR_NAMELEN : nat := 32.

Definition lock_if_list_rd : M unit := acquire L_if_list Rd.
Definition lock_if_list_wr : M unit := acquire L_if_list Wr.
Definition unlock_if_list : M unit := release L_if_list.

(** ** Lookups *)

(** [!strncmp(interface, sr_if->name, SR_NAMELEN)] *)
Definition iface_named (interface : string) (e : iface_entry) : bool :=
  strncmp_eq interface (if_name e) SR_NAMELEN.

Fixpoint iface_match_ip_loop (cur : list iface_entry) (ip : Z) (retval : bool) : bool :=
  match cur with
  | [] => retval
  | entry :: cur' =>
      iface_match_ip_loop cur' ip
        (if if_is_active entry && (if_ip entry =? ip) then true else retval)
  end.

Definition iface_match_ip (rs : router_state) (ip : Z) : bool :=
  iface_match_ip_loop (if_list rs) ip false.

Definition get_iface (rs : router_state) (interface : string) : option iface_entry :=
  find_first (iface_named interface) (if_list rs).

(** [get_interface] of or_main.c *)
Definition get_interface (rs : router_state) (name : string) : option iface_entry :=
  find_first (iface_named name) (if_list rs).

(** 1 if the interface is active, 0 if it is disabled or unknown. *)
Definition iface_is_active (interface : string) : M bool :=
  lock_if_list_rd;;
  rs ← get_rs;
  let retval := match get_iface rs interface with
                | Some entry => if_is_active entry
                | None => false
                end in
  unlock_if_list;;
  mret retval.

Definition get_nbr_by_rid (iface : iface_entry) (rid : Z) : option nbr_router :=
  find_first (fun nbr => nbr_router_id nbr =? rid) (if_nbr_routers iface).

(** ** Changes of one interface *)

(** Applies [f] to the interface [get_iface] finds. *)
Fixpoint update_iface (interface : string) (f : iface_entry -> iface_entry)
    (l : list iface_entry) : list iface_entry :=
  match l with
  | [] => []
  | e :: l' => if iface_named interface e then f e :: l' else e :: update_iface interface f l'
  end.

Definition modify_iface (interface : string) (f : iface_entry -> iface_entry) : M unit :=
  modify_rs (fun rs => set_if_list (update_iface interface f (if_list rs)) rs).

Definition set_if_ip_mask (ip mask : Z) (e : iface_entry) : iface_entry :=
  mk_iface_entry (if_name e) (if_addr e) ip mask (if_speed e) (if_is_active e)
    (if_last_sent_hello e) (if_nbr_routers e) (if_is_wan e).

Definition set_if_active (b : bool) (e : iface_entry) : iface_entry :=
  mk_iface_entry (if_name e) (if_addr e) (if_ip e) (if_mask e) (if_speed e) b
    (if_last_sent_hello e) (if_nbr_routers e) (if_is_wan e).

Definition set_if_last_sent_hello (t : Z) (e : iface_entry) : iface_entry :=
  mk_iface_entry (if_name e) (if_addr e) (if_ip e) (if_mask e) (if_speed e) (if_is_active e)
    t (if_nbr_routers e) (if_is_wan e).

Definition set_if_nbr_routers (l : list nbr_router) (e : iface_entry) : iface_entry :=
  mk_iface_entry (if_name e) (if_addr e) (if_ip e) (if_mask e) (if_speed e) (if_is_active e)
    (if_last_sent_hello e) l (if_is_wan e).

Definition set_if_is_wan (v : Z) (e : iface_entry) : iface_entry :=
  mk_iface_entry (if_name e) (if_addr e) (if_ip e) (if_mask e) (if_speed e) (if_is_active e)
    (if_last_sent_hello e) (if_nbr_routers e) v.

(** Returns 1 when the interface exists. *)
Definition iface_update (interface : string) (ip mask : Z) : M Z :=
  rs ← get_rs;
  match get_iface rs interface with
  | None => mret 0
  | Some _ => modify_iface interface (set_if_ip_mask ip mask);; mret 1
  end.

(** ** MAC addresses in the device *)

(** The two words a MAC address is written as. *)
Definition mac_hi_word (addr : bytes) : option Z :=
  a ← addr !! 0%nat; b ← addr !! 1%nat; Some (Z.lor (Z.shiftl a 8) b).

Definition mac_lo_word (addr : bytes) : option Z :=
  a ← addr !! 2%nat; b ← addr !! 3%nat; c ← addr !! 4%nat; d ← addr !! 5%nat;
  Some (Z.lor (Z.lor (Z.lor (Z.shiftl a 24) (Z.shiftl b 16)) (Z.shiftl c 8)) d).

Definition read_hw_iface_mac (port : Z) : M (Z * Z) :=
  if (0 <=? port) && (port <=? 3) then
    hi ← readReg (MAC_HI port); lo ← readReg (MAC_LO port); mret (hi, lo)
  else mret (0, 0).

Definition write_hw_iface_mac (port mac_hi mac_lo : Z) : M unit :=
  if (0 <=? port) && (port <=? 3) then
    writeReg (MAC_HI port) mac_hi;; writeReg (MAC_LO port) mac_lo
  else mret tt.

Definition set_hw_iface (queue command : Z) : M unit :=
  if (0 <=? queue) && (queue <=? 3) then writeReg (MAC_GRP_CONTROL queue) command else mret tt.

(** ** Lemmas *)

Lemma iface_match_ip_loop_spec l ip r :
  iface_match_ip_loop l ip r = r || existsb (fun e => if_is_active e && (if_ip e =? ip)) l.
Proof.
  revert r. induction l as [|e l IH]; intros r; simpl; [by rewrite orb_false_r|].
  rewrite IH. destruct (if_is_active e && (if_ip e =? ip)), r; simpl; by rewrite ?orb_true_r.
Qed.

(** [iface_match_ip] tells whether an active interface has the address. *)
Lemma iface_match_ip_spec rs ip :
  iface_match_ip rs ip = true <->
  exists e, e ∈ if_list rs /\ if_is_active e = true /\ if_ip e = ip.
Proof.
  unfold iface_match_ip. rewrite iface_match_ip_loop_spec. simpl.
  rewrite existsb_exists. split.
  - intros (e & He & H). apply andb_true_iff in H as [H1 H2]. apply Z.eqb_eq in H2.
    exists e. by rewrite list_elem_of_In.
  - intros (e & He & H1 & H2). exists e. rewrite list_elem_of_In in He.
    rewrite H1. split; [done|]. by apply Z.eqb_eq.
Qed.

Lemma update_iface_get interface f l :
  (forall e, if_name (f e) = if_name e) ->
  find_first (iface_named interface) (update_iface interface f l) =
  f <$> find_first (iface_named interface) l.
Proof.
  intros Hf. induction l as [|e l IH]; simpl; [done|].
  destruct (iface_named interface e) eqn:E; simpl.
  - unfold iface_named in *. by rewrite Hf, E.
  - by rewrite E, IH.
Qed.
