(* ===== verification/Arp.v ===== *)
(** or_arp.c without the retry queue's thread, and the output path of
    or_main.c: the ARP cache with its copy in the device and its expiry, the
    queue of packets waiting for an address, [send_packet], [send_ip], and the
    processing of ARP packets. *)

From S2P Require Import Prelude Words Bytes State CStrings Headers Netfpga Iface.
Local Open Scope Z_scope.

Definition lock_arp_cache_rd : M unit := acquire L_arp_cache Rd.
Definition lock_arp_cache_wr : M unit := acquire L_arp_cache Wr.
Definition unlock_arp_cache : M unit := release L_arp_cache.
Definition lock_arp_queue_rd : M unit := acquire L_arp_queue Rd.
Definition lock_arp_queue_wr : M unit := acquire L_arp_queue Wr.
Definition unlock_arp_queue : M unit := release L_arp_queue.

(** ** The copy of the cache in the device *)

Definition write_arp_cache_entry_to_hw (entry : option arp_cache_entry) (row : nat) : M unit :=
  match entry with
  | Some entry =>
      mac_hi ← mem (mac_hi_word (ac_ha entry));
      writeReg ARP_ENTRY_MAC_HI mac_hi;;
      mac_lo ← mem (mac_lo_word (ac_ha entry));
      writeReg ARP_ENTRY_MAC_LO mac_lo;;
      writeReg ARP_ENTRY_NEXT_HOP_IP (ntohl (ac_ip entry))
  | None =>
      writeReg ARP_ENTRY_MAC_HI 0;;
      writeReg ARP_ENTRY_MAC_LO 0;;
      writeReg ARP_ENTRY_NEXT_HOP_IP 0
  end;;
  writeReg ARP_WR_ADDR (Z.of_nat row).

(** The first loop, over the static entries; the next row to write. *)
Fixpoint write_arp_static (cur : list arp_cache_entry) (i : nat) : M nat :=
  match cur with
  | [] => mret i
  | entry :: cur' =>
      if (i <? TABLE_DEPTH)%nat then
        if negb (ac_is_static entry =? 0) then
          write_arp_cache_entry_to_hw (Some entry) i;; write_arp_static cur' (S i)
        else write_arp_static cur' i
      else mret i
  end.

(** The end of the second loop, when the list is exhausted. *)
Fixpoint write_arp_zero (n i : nat) : M unit :=
  match n with
  | O => mret tt
  | S n' => write_arp_cache_entry_to_hw None i;; write_arp_zero n' (S i)
  end.

(** The second loop, over the other entries. *)
Fixpoint write_arp_dynamic (cur : list arp_cache_entry) (i : nat) : M unit :=
  match cur with
  | [] => write_arp_zero (TABLE_DEPTH - i) i
  | entry :: cur' =>
      if (i <? TABLE_DEPTH)%nat then
        if ac_is_static entry =? 0 then
          write_arp_cache_entry_to_hw (Some entry) i;; write_arp_dynamic cur' (S i)
        else write_arp_dynamic cur' i
      else mret tt
  end.

Definition write_arp_cache_to_hw : M unit :=
  rs ← get_rs;
  i ← write_arp_static (arp_cache rs) 0;
  write_arp_dynamic (arp_cache rs) i.

Definition trigger_arp_cache_modified : M unit :=
  rs ← get_rs;
  if is_netfpga rs then write_arp_cache_to_hw else mret tt.

(** ** The cache *)

Definition in_arp_cache (rs : router_state) (next_hop : Z) : option arp_cache_entry :=
  find_first (fun e => next_hop =? ac_ip e) (arp_cache rs).

Definition get_from_arp_cache (rs : router_state) (next_hop : Z) : option arp_cache_entry :=
  in_arp_cache rs next_hop.

(** Rewrites the entry [in_arp_cache] finds. *)
Fixpoint update_arp_entry (ip : Z) (f : arp_cache_entry -> arp_cache_entry)
    (l : list arp_cache_entry) : list arp_cache_entry :=
  match l with
  | [] => []
  | e :: l' => if ip =? ac_ip e then f e :: l' else e :: update_arp_entry ip f l'
  end.

(** Returns 0. The MAC address is the six bytes copied out of the packet. *)
Definition update_arp_cache (remote_ip : Z) (remote_mac : bytes) (is_static : Z) : M Z :=
  rs ← get_rs;
  ttl ← (if is_static =? 1 then mret 0 else time);
  (match in_arp_cache rs remote_ip with
   | Some _ =>
       modify_rs (fun rs => set_arp_cache
         (update_arp_entry remote_ip
            (fun e => mk_arp_cache_entry (ac_ip e) remote_mac ttl is_static) (arp_cache rs)) rs)
   | None =>
       modify_rs (fun rs => set_arp_cache
         (arp_cache rs ++ [mk_arp_cache_entry remote_ip remote_mac ttl is_static]) rs)
   end);;
  trigger_arp_cache_modified;;
  mret 0.

(** The number of entries deleted; the copy in the device is left alone. *)
Fixpoint del_arp_cache_loop (ip : Z) (cur : list arp_cache_entry) (retval : Z)
    : list arp_cache_entry * Z :=
  match cur with
  | [] => ([], retval)
  | entry :: cur' =>
      if ac_ip entry =? ip then del_arp_cache_loop ip cur' (retval + 1)
      else let '(l, r) := del_arp_cache_loop ip cur' retval in (entry :: l, r)
  end.

Definition del_arp_cache (ip : Z) : M Z :=
  rs ← get_rs;
  let '(l, retval) := del_arp_cache_loop ip (arp_cache rs) 0 in
  put_rs (set_arp_cache l rs);;
  mret retval.

(** Keeps an entry or removes it, asking for the time of day unless it is
    static. *)
Definition expire_arp_entry (ttl : Z) (entry : arp_cache_entry) : M (option arp_cache_entry) :=
  if negb (ac_is_static entry =? 1) then
    now ← time;
    mret (if ttl <? now - ac_TTL entry then None else Some entry)
  else mret (Some entry).

Definition expire_arp_cache : M unit :=
  rs ← get_rs;
  l ← filter_mapM (expire_arp_entry (arp_ttl rs)) (arp_cache rs);
  put_rs (set_arp_cache l rs);;
  if (length l <? length (arp_cache rs))%nat then trigger_arp_cache_modified else mret tt.

(** ** Output (or_main.c) *)

(** [sr_integ_low_level_output]: the frame leaves the program; the result is
    the environment's. *)
Definition low_level_output (packet : bytes) (len : nat) (iface : string) : M Z :=
  frame ← mem (get_range packet 0 len);
  emit (EvSend frame len iface);;
  ask env_output.

(** Short frames are padded with zeros to 60 bytes. *)
Definition send_packet (packet : bytes) (len : nat) (iface : string) : M Z :=
  acquire L_write Mutex;;
  result ← (if (len <? 60)%nat then
              let pad_len := (60 - len)%nat in
              data ← mem (get_range packet 0 len);
              pad_packet ← mem (put_range (calloc (len + pad_len)) 0 data);
              low_level_output pad_packet (len + pad_len) iface
            else low_level_output packet len iface);
  release L_write;;
  mret result.

Definition ETH_BROADCAST : bytes := [255; 255; 255; 255; 255; 255].

Definition send_arp_request (tip : Z) (interface : string) : M unit :=
  rs ← get_rs;
  let len := (sizeof_eth_hdr + sizeof_arp_hdr)%nat in
  let request_packet := calloc len in
  inter ← deref (get_interface rs interface);
  request_packet ← mem (populate_eth_hdr request_packet 0 (Some ETH_BROADCAST) (if_addr inter)
                          ETH_TYPE_ARP);
  request_packet ← mem (populate_arp_hdr request_packet ETH_HDR_LEN None tip (if_addr inter)
                          (if_ip inter) ARP_OP_REQUEST);
  _ ← send_packet request_packet len interface;
  mret tt.

(** The position in the queue of the entry for a next hop. *)
Definition get_from_arp_queue (rs : router_state) (next_hop : Z) : option nat :=
  find_index (fun aqe => aq_next_hop aqe =? next_hop) (arp_queue rs).

Definition arp_queue_entry_add_packet (packet : bytes) (len : nat) (aqe : arp_queue_entry)
    : arp_queue_entry :=
  mk_arp_queue_entry (aq_out_iface_name aqe) (aq_next_hop aqe) (aq_requests aqe)
    (aq_last_req_time aqe) (aq_head aqe ++ [mk_arp_queue_packet_entry packet len]).

Definition arp_queue_add (packet : bytes) (len : nat) (out_iface_name : string) (next_hop : Z)
    : M unit :=
  rs ← get_rs;
  match get_from_arp_queue rs next_hop with
  | None =>
      now ← time;
      send_arp_request next_hop out_iface_name;;
      let aqe := arp_queue_entry_add_packet packet len
                   (mk_arp_queue_entry out_iface_name next_hop 1 now []) in
      modify_rs (fun rs => set_arp_queue (arp_queue rs ++ [aqe]) rs)
  | Some i =>
      modify_rs (fun rs =>
        set_arp_queue (alter (arp_queue_entry_add_packet packet len) i (arp_queue rs)) rs)
  end.

(** Returns 1 when the frame could not be sent. *)
Definition send_ip (packet : bytes) (len : nat) (next_hop : Z) (out_iface : string) : M Z :=
  rs ← get_rs;
  match get_from_arp_cache rs next_hop with
  | Some ace =>
      packet ← mem (put_range packet 0 (take ETH_ADDR_LEN (ac_ha ace)));
      r ← send_packet packet len out_iface;
      mret (if r =? 0 then 0 else 1)
  | None => arp_queue_add packet len out_iface next_hop;; mret 0
  end.

(** ** ARP packets *)

Definition send_arp_reply (packet : bytes) (iface : iface_entry) : M unit :=
  arp_req ← get_arp_hdr packet;
  let len := (sizeof_eth_hdr + sizeof_arp_hdr)%nat in
  shost ← mem (eth_shost packet 0);
  new_packet ← mem (populate_eth_hdr (calloc len) 0 (Some shost) (if_addr iface) ETH_TYPE_ARP);
  new_arp ← get_arp_hdr new_packet;
  sha ← mem (arp_sha packet arp_req);
  sip ← mem (arp_sip packet arp_req);
  new_packet ← mem (populate_arp_hdr new_packet new_arp (Some sha) sip (if_addr iface)
                      (if_ip iface) ARP_OP_REPLY);
  _ ← send_packet new_packet len (if_name iface);
  mret tt.

Definition process_arp_request (packet : bytes) : M unit :=
  arp ← get_arp_hdr packet;
  lock_if_list_rd;;
  rs ← get_rs;
  tip ← mem (arp_tip packet arp);
  (match find_first (fun e => if_ip e =? tip) (if_list rs) with
   | Some iface => send_arp_reply packet iface
   | None => mret tt
   end);;
  unlock_if_list.

(** The inner loop of [send_queued_packets]: sends the packets of the entry at
    position [n]. [next_packet_node] is read before the packet is sent, so a
    packet queued meanwhile is seen only when the current one was not the
    last. *)
Fixpoint send_entry_packets (fuel : nat) (n : nat) : M unit :=
  match fuel with
  | O => fail OutOfFuel
  | S fuel' =>
      rs ← get_rs;
      match arp_queue rs !! n with
      | None => mret tt
      | Some aqe =>
          match aq_head aqe with
          | [] => mret tt
          | aqpe :: rest =>
              _ ← send_ip (qp_packet aqpe) (qp_len aqpe) (aq_next_hop aqe) (aq_out_iface_name aqe);
              modify_rs (fun rs => set_arp_queue
                (alter (fun aqe => mk_arp_queue_entry (aq_out_iface_name aqe) (aq_next_hop aqe)
                          (aq_requests aqe) (aq_last_req_time aqe) (tail (aq_head aqe)))
                   n (arp_queue rs)) rs);;
              match rest with
              | [] => mret tt
              | _ => send_entry_packets fuel' n
              end
          end
      end
  end.

(** The outer loop, from position [n]; [next] is read before the entry is
    handled. *)
Fixpoint send_queued_packets_loop (fuel fuel_packets : nat) (n : nat) (dest_ip : Z) : M unit :=
  match fuel with
  | O => fail OutOfFuel
  | S fuel' =>
      rs ← get_rs;
      match arp_queue rs !! n with
      | None => mret tt
      | Some aqe =>
          let last := (S n =? length (arp_queue rs))%nat in
          if dest_ip =? aq_next_hop aqe then
            send_entry_packets fuel_packets n;;
            modify_rs (fun rs => set_arp_queue (delete n (arp_queue rs)) rs);;
            if last then mret tt
            else send_queued_packets_loop fuel' fuel_packets n dest_ip
          else
            if last then mret tt
            else send_queued_packets_loop fuel' fuel_packets (S n) dest_ip
      end
  end.

(** Fuel: the outer loop visits every entry, the inner one every packet of an
    entry. *)
Definition queue_fuel (q : list arp_queue_entry) : nat :=
  S (length q) + sum_list (map (fun aqe => length (aq_head aqe)) q).

Definition send_queued_packets (dest_ip : Z) : M unit :=
  rs ← get_rs;
  let fuel := queue_fuel (arp_queue rs) in
  send_queued_packets_loop fuel fuel 0 dest_ip.

Definition process_arp_reply (packet : bytes) : M unit :=
  arp ← get_arp_hdr packet;
  lock_arp_cache_wr;;
  sip ← mem (arp_sip packet arp);
  sha ← mem (arp_sha packet arp);
  _ ← update_arp_cache sip sha 0;
  unlock_arp_cache;;
  lock_arp_cache_rd;;
  lock_arp_queue_wr;;
  send_queued_packets sip;;
  unlock_arp_queue;;
  unlock_arp_cache.

Definition process_arp_packet (packet : bytes) : M unit :=
  arp ← get_arp_hdr packet;
  op ← mem (arp_op packet arp);
  if ntohs op =? ARP_OP_REQUEST then process_arp_request packet
  else if ntohs op =? ARP_OP_REPLY then process_arp_reply packet
  else mret tt.

(** [update_arp_queue] repeats the loops of [send_queued_packets] on the sender
    address of an ARP header. *)
Definition update_arp_queue (packet : bytes) (arp : nat) : M unit :=
  rs ← get_rs;
  sip ← mem (arp_sip packet arp);
  let fuel := queue_fuel (arp_queue rs) in
  send_queued_packets_loop fuel fuel 0 sip.

(** ** Lemmas: the copy in the device *)

Definition arp_row_of (o : option arp_cache_entry) : arp_row :=
  match o with
  | Some e => mk_arp_row (default 0 (mac_hi_word (ac_ha e))) (default 0 (mac_lo_word (ac_ha e)))
                (ntohl (ac_ip e))
  | None => zero_arp_row
  end.

Definition arp_events (i : nat) (o : option arp_cache_entry) : list event :=
  [EvWriteReg ARP_ENTRY_MAC_HI (arow_mac_hi (arp_row_of o));
   EvWriteReg ARP_ENTRY_MAC_LO (arow_mac_lo (arp_row_of o));
   EvWriteReg ARP_ENTRY_NEXT_HOP_IP (arow_next_hop (arp_row_of o));
   EvWriteReg ARP_WR_ADDR (Z.of_nat i)].

Definition static_entry (e : arp_cache_entry) : bool := negb (ac_is_static e =? 0).

(** The entries in the order they are written: static ones first. *)
Definition hw_arp_order (l : list arp_cache_entry) : list arp_cache_entry :=
  bfilter static_entry l ++ bfilter (fun e => ac_is_static e =? 0) l.

Definition write_arp_slot (i : nat) (o : option arp_cache_entry) : M unit :=
  write_arp_cache_entry_to_hw o i.

Lemma mac_words_Some addr : length addr = ETH_ADDR_LEN ->
  is_Some (mac_hi_word addr) /\ is_Some (mac_lo_word addr).
Proof.
  destruct addr as [|a [|b [|c [|d [|e [|f [|? ?]]]]]]]; done.
Qed.

Lemma write_arp_slot_emits i o :
  (forall e, o = Some e -> length (ac_ha e) = ETH_ADDR_LEN) ->
  emits (write_arp_slot i o) (arp_events i o).
Proof.
  intros Ho. unfold write_arp_slot, write_arp_cache_entry_to_hw, arp_events.
  apply (emits_seq _ _ [_; _; _] [_]); [|apply emits_emit].
  destruct o as [e|]; simpl.
  - destruct (mac_words_Some (ac_ha e)) as [[hi ->] [lo ->]]; [by apply Ho|]. simpl.
    apply (emits_seq _ _ [_] [_; _]); [apply emits_emit|].
    apply (emits_seq _ _ [_] [_]); apply emits_emit.
  - do 2 (apply (emits_seq _ _ [_]); [apply emits_emit|]). apply emits_emit.
Qed.

Lemma write_arp_zero_slots n i : write_arp_zero n i = write_slots write_arp_slot n i [].
Proof. revert i. induction n as [|n IH]; intros i; simpl; [done|]. by rewrite IH. Qed.

Lemma write_arp_dynamic_slots cur i :
  write_arp_dynamic cur i =
  write_slots write_arp_slot (TABLE_DEPTH - i) i (bfilter (fun e => ac_is_static e =? 0) cur).
Proof.
  revert i. induction cur as [|e cur IH]; intros i; cbn [write_arp_dynamic bfilter].
  { apply write_arp_zero_slots. }
  destruct (Nat.ltb_spec i TABLE_DEPTH).
  - destruct (ac_is_static e =? 0); [|apply IH].
    replace (TABLE_DEPTH - i)%nat with (S (TABLE_DEPTH - S i)) by lia.
    cbn [write_slots]. by rewrite IH.
  - by replace (TABLE_DEPTH - i)%nat with O by lia.
Qed.

Lemma write_arp_static_slots cur i rest w :
  (j ← write_arp_static cur i; write_slots write_arp_slot (TABLE_DEPTH - j) j rest) w =
  write_slots write_arp_slot (TABLE_DEPTH - i) i (bfilter static_entry cur ++ rest) w.
Proof.
  revert i w. induction cur as [|e cur IH]; intros i w; cbn [write_arp_static bfilter]; [done|].
  unfold static_entry at 1. destruct (Nat.ltb_spec i TABLE_DEPTH).
  - destruct (ac_is_static e =? 0); simpl negb; cbv iota; [apply IH|].
    replace (TABLE_DEPTH - i)%nat with (S (TABLE_DEPTH - S i)) by lia.
    cbn [write_slots app]. rewrite bind_assoc. unfold mbind at 1 3, M_bind.
    unfold write_arp_slot at 2. destruct (write_arp_cache_entry_to_hw (Some e) i w); [|done].
    apply IH.
  - replace (TABLE_DEPTH - i)%nat with O by lia. simpl.
    unfold mbind, M_bind. simpl. by replace (TABLE_DEPTH - i)%nat with O by lia.
Qed.

Lemma write_arp_cache_to_hw_spec w d :
  device_ok (dev_run d (w_trace w)) ->
  (forall e, e ∈ arp_cache (w_rs w) -> length (ac_ha e) = ETH_ADDR_LEN) ->
  wp write_arp_cache_to_hw (fun _ w' => w_rs w' = w_rs w /\
    d_arp (dev_run d (w_trace w')) =
      slot_rows arp_row_of TABLE_DEPTH (hw_arp_order (arp_cache (w_rs w)))) w.
Proof.
  intros Hd Hl. unfold write_arp_cache_to_hw. apply wp_bind. eapply wp_done; [reflexivity|].
  eapply wp_done.
  { transitivity ((j ← write_arp_static (arp_cache (w_rs w)) 0;
       write_slots write_arp_slot (TABLE_DEPTH - j) j
         (bfilter (fun e => ac_is_static e =? 0) (arp_cache (w_rs w)))) w).
    - unfold mbind, M_bind. destruct (write_arp_static _ _ _); [|done].
      by rewrite write_arp_dynamic_slots.
    - rewrite write_arp_static_slots. apply (write_slots_emits _ arp_events).
      intros i o Ho. apply write_arp_slot_emits. intros e He. apply Hl.
      specialize (Ho e He). apply subseteq_take in Ho. apply elem_of_app in Ho.
      rewrite !elem_of_bfilter in Ho. tauto. }
  split; [done|]. cbn [w_trace with_trace]. rewrite dev_run_app.
  rewrite (slot_events_rows d_arp arp_row_of); [done| |apply Hd].
  intros [] i o _. unfold arp_events. simpl. rewrite Nat2Z.id. by destruct (arp_row_of o).
Qed.

(** [write_arp_cache_to_hw] leaves the ARP table of the device with the
    static entries first, then the others, up to its 32 rows, and the rows left
    cleared. *)
Theorem write_arp_cache_to_hw_correct w d :
  device_ok (dev_run d (w_trace w)) ->
  (forall e, e ∈ arp_cache (w_rs w) -> length (ac_ha e) = ETH_ADDR_LEN) ->
  wp write_arp_cache_to_hw (fun _ w' => w_rs w' = w_rs w /\
    d_arp (dev_run d (w_trace w')) =
      slot_rows arp_row_of TABLE_DEPTH (hw_arp_order (arp_cache (w_rs w)))) w.
Proof. apply write_arp_cache_to_hw_spec. Qed.

(** ** Lemmas: the cache *)

(** The invariant of the cache: six-byte addresses, and one entry per IP. *)
Definition cache_ok (l : list arp_cache_entry) : Prop :=
  (forall e, e ∈ l -> length (ac_ha e) = ETH_ADDR_LEN) /\ NoDup (map ac_ip l).

(** The cache and its copy agree. *)
Definition arp_synced (d : device) (w : world) : Prop :=
  is_netfpga (w_rs w) = true ->
  d_arp (dev_run d (w_trace w)) =
    slot_rows arp_row_of TABLE_DEPTH (hw_arp_order (arp_cache (w_rs w))).

Lemma trigger_arp_spec w d :
  device_ok (dev_run d (w_trace w)) ->
  (forall e, e ∈ arp_cache (w_rs w) -> length (ac_ha e) = ETH_ADDR_LEN) ->
  wp trigger_arp_cache_modified (fun _ w' => w_rs w' = w_rs w /\ arp_synced d w') w.
Proof.
  intros Hd Hl. unfold trigger_arp_cache_modified. apply wp_bind. eapply wp_done; [reflexivity|].
  destruct (is_netfpga (w_rs w)) eqn:E.
  - eapply wp_mono; [by apply write_arp_cache_to_hw_spec|].
    intros [] w' [E1 E2]. split; [done|]. intros _. by rewrite E1.
  - eapply wp_done; [reflexivity|]. split; [done|]. intros E'. congruence.
Qed.

Lemma update_arp_entry_ips ip f l :
  (forall e, ac_ip (f e) = ac_ip e) -> map ac_ip (update_arp_entry ip f l) = map ac_ip l.
Proof.
  intros Hf. induction l as [|e l IH]; simpl; [done|].
  destruct (ip =? ac_ip e); simpl; [by rewrite Hf|by rewrite IH].
Qed.

Lemma update_arp_entry_elem ip f l e :
  e ∈ update_arp_entry ip f l -> e ∈ l \/ exists e', e' ∈ l /\ e = f e'.
Proof.
  induction l as [|x l IH]; simpl; [by intros ?%elem_of_nil|].
  destruct (ip =? ac_ip x); intros [->|He]%elem_of_cons; rewrite ?elem_of_cons; eauto.
  - right. exists x. rewrite elem_of_cons. auto.
  - destruct (IH He) as [?|(e' & ? & ->)]; [auto|]. right. exists e'. rewrite elem_of_cons. auto.
Qed.

Lemma find_update_arp_entry ip ip' f l :
  (forall e, ac_ip (f e) = ac_ip e) ->
  find_first (fun e => ip' =? ac_ip e) (update_arp_entry ip f l) =
  (if ip' =? ip then f else id) <$> find_first (fun e => ip' =? ac_ip e) l.
Proof.
  intros Hf. induction l as [|e l IH]; simpl; [by destruct (ip' =? ip)|].
  destruct (Z.eqb_spec ip (ac_ip e)) as [->|Hne]; simpl.
  - rewrite Hf. destruct (Z.eqb_spec ip' (ac_ip e)); [done|].
    by destruct (find_first _ l).
  - rewrite IH. destruct (Z.eqb_spec ip' (ac_ip e)) as [->|]; [|done].
    destruct (Z.eqb_spec (ac_ip e) ip); [congruence|done].
Qed.

(** The change [update_arp_cache] makes to the list. *)
Definition cache_update (ip : Z) (mac : bytes) (ttl st : Z) (l : list arp_cache_entry)
    : list arp_cache_entry :=
  match find_first (fun e => ip =? ac_ip e) l with
  | Some _ => update_arp_entry ip (fun e => mk_arp_cache_entry (ac_ip e) mac ttl st) l
  | None => l ++ [mk_arp_cache_entry ip mac ttl st]
  end.

Lemma cache_update_ok ip mac ttl st l :
  cache_ok l -> length mac = ETH_ADDR_LEN -> cache_ok (cache_update ip mac ttl st l).
Proof.
  intros [Hl Hnd] Hm. unfold cache_update.
  destruct (find_first _ l) as [e0|] eqn:E; split.
  - intros e [He|(e' & _ & ->)]%update_arp_entry_elem; [by apply Hl|done].
  - by rewrite update_arp_entry_ips.
  - intros e [He|He]%elem_of_app; [by apply Hl|]. by apply list_elem_of_singleton in He as ->.
  - rewrite map_app. apply NoDup_app. split_and!; [done| |apply NoDup_singleton].
    intros x (e & -> & He)%list_elem_of_fmap Hx%list_elem_of_singleton. simpl in Hx.
    rewrite find_first_None in E. specialize (E e He). apply Z.eqb_neq in E. congruence.
Qed.

Lemma cache_update_get ip ip' mac ttl st l :
  find_first (fun e => ip' =? ac_ip e) (cache_update ip mac ttl st l) =
  if ip' =? ip then Some (mk_arp_cache_entry ip mac ttl st)
  else find_first (fun e => ip' =? ac_ip e) l.
Proof.
  unfold cache_update. destruct (find_first (fun e => ip =? ac_ip e) l) as [e0|] eqn:E.
  - rewrite find_update_arp_entry by done. destruct (Z.eqb_spec ip' ip) as [->|].
    + rewrite E. apply find_first_Some in E as [_ E]. apply Z.eqb_eq in E. simpl. by rewrite <- E.
    + apply option_fmap_id.
  - rewrite find_first_app. simpl. destruct (Z.eqb_spec ip' ip) as [->|]; [by rewrite E|].
    by destruct (find_first (fun e => ip' =? ac_ip e) l).
Qed.

Lemma update_arp_cache_spec ip mac st w d :
  device_ok d -> cache_ok (arp_cache (w_rs w)) -> length mac = ETH_ADDR_LEN ->
  wp (update_arp_cache ip mac st) (fun r w' =>
    r = 0 /\ w_rs w' = set_arp_cache (arp_cache (w_rs w')) (w_rs w) /\
    cache_ok (arp_cache (w_rs w')) /\ arp_synced d w' /\
    (exists ttl, in_arp_cache (w_rs w') ip = Some (mk_arp_cache_entry ip mac ttl st) /\
       (st = 1 -> ttl = 0)) /\
    (forall ip', ip' ≠ ip -> in_arp_cache (w_rs w') ip' = in_arp_cache (w_rs w) ip')) w.
Proof.
  intros Hd Hok Hm. unfold update_arp_cache. apply wp_bind. eapply wp_done; [reflexivity|].
  set (Q := fun ttl w1 => w_rs w1 = w_rs w /\ (st = 1 -> ttl = 0)).
  apply wp_bind. apply (wp_mono _ Q).
  { unfold Q. destruct (Z.eqb_spec st 1); (eapply wp_done; [reflexivity|]); done. }
  intros ttl w1 [E1 Httl].
  set (w2 := mk_world (set_arp_cache (cache_update ip mac ttl st (arp_cache (w_rs w))) (w_rs w1))
               (w_trace w1) (w_tick w1) (w_next_addr w1) (w_env w1)).
  apply wp_bind. eapply (wp_done _ _ w1 tt w2).
  { unfold in_arp_cache, w2, cache_update. rewrite <- E1.
    by destruct (find_first _ (arp_cache (w_rs w1))). }
  assert (cache_ok (arp_cache (w_rs w2))) as Hok2 by (by apply cache_update_ok).
  apply wp_bind. eapply wp_mono; [apply (trigger_arp_spec w2 d); [by apply dev_run_ok|apply Hok2]|].
  intros [] w' [E Hsync]. eapply wp_done; [reflexivity|]. rewrite E.
  split_and!; [done|unfold w2; simpl; by rewrite E1|done|done| |].
  - exists ttl. split; [|done]. unfold in_arp_cache. simpl. by rewrite cache_update_get, Z.eqb_refl.
  - intros ip' Hne. unfold in_arp_cache. simpl. rewrite cache_update_get.
    by destruct (Z.eqb_spec ip' ip).
Qed.

(** [update_arp_cache] returns 0; afterwards the address has exactly the
    given MAC, the other addresses have the entry they had, no address occurs
    twice, and the ARP table of the device is the new cache. A static entry
    gets the time stamp 0. *)
Theorem update_arp_cache_correct ip mac st w d :
  device_ok d -> cache_ok (arp_cache (w_rs w)) -> length mac = ETH_ADDR_LEN ->
  wp (update_arp_cache ip mac st) (fun r w' =>
    r = 0 /\ w_rs w' = set_arp_cache (arp_cache (w_rs w')) (w_rs w) /\
    cache_ok (arp_cache (w_rs w')) /\ arp_synced d w' /\
    (exists ttl, in_arp_cache (w_rs w') ip = Some (mk_arp_cache_entry ip mac ttl st) /\
       (st = 1 -> ttl = 0)) /\
    (forall ip', ip' ≠ ip -> in_arp_cache (w_rs w') ip' = in_arp_cache (w_rs w) ip')) w.
Proof. apply update_arp_cache_spec. Qed.

(** An entry to keep when the clock reads [now]. *)
Definition arp_live (ttl now : Z) (e : arp_cache_entry) : Prop :=
  ac_is_static e = 1 \/ now - ac_TTL e <= ttl.

Lemma expire_loop_spec ttl l w t1 t2 :
  (forall k, (w_tick w <= k < w_tick w + length l)%nat -> t1 <= env_time (w_env w) k <= t2) ->
  wp (filter_mapM (expire_arp_entry ttl) l) (fun l' w' =>
    w_rs w' = w_rs w /\ w_trace w' = w_trace w /\ sublist l' l /\
    (forall e, e ∈ l' -> arp_live ttl t1 e) /\
    (forall e, e ∈ l -> arp_live ttl t2 e -> e ∈ l')) w.
Proof.
  revert w. induction l as [|e l IH]; intros w Ht; cbn [filter_mapM].
  { eapply wp_done; [reflexivity|]. split_and!; [done..| |]; intros e He;
      by apply elem_of_nil in He. }
  apply wp_bind. unfold expire_arp_entry at 1.
  destruct (Z.eqb_spec (ac_is_static e) 1) as [Hst|Hst]; simpl negb; cbv iota.
  - eapply wp_done; [reflexivity|]. apply wp_bind. eapply wp_mono.
    { apply IH. intros k Hk. apply Ht. simpl in *. lia. }
    intros l' w' (E1 & E2 & Hs & H1 & H2). eapply wp_done; [reflexivity|].
    split_and!; [done|done|by constructor| |].
    + intros x [->|Hx]%elem_of_cons; [by left|auto].
    + intros x [->|Hx]%elem_of_cons Hlive; rewrite elem_of_cons; auto.
  - apply wp_bind. eapply wp_done; [reflexivity|]. eapply wp_done; [reflexivity|].
    assert (t1 <= env_time (w_env w) (w_tick w) <= t2) as Hnow by (apply Ht; simpl; lia).
    apply wp_bind. eapply wp_mono.
    { apply IH. intros k Hk. apply Ht. simpl in *. lia. }
    intros l' w' (E1 & E2 & Hs & H1 & H2). eapply wp_done; [reflexivity|].
    destruct (Z.ltb_spec ttl (env_time (w_env w) (w_tick w) - ac_TTL e)).
    + split_and!; [done|done|by constructor|done|].
      intros x [->|Hx]%elem_of_cons Hlive; [|by auto]. destruct Hlive; [done|lia].
    + split_and!; [done|done|by constructor| |].
      * intros x [->|Hx]%elem_of_cons; [right; lia|auto].
      * intros x [->|Hx]%elem_of_cons Hlive; rewrite elem_of_cons; auto.
Qed.

Lemma sublist_same_length {A} (l1 l2 : list A) : sublist l1 l2 -> length l1 = length l2 -> l1 = l2.
Proof.
  induction 1 as [|x l1 l2 _ IH|x l1 l2 Hs IH]; simpl; intros H; [done|f_equal; auto|].
  apply sublist_length in Hs. lia.
Qed.

(** [expire_arp_cache], run between the times [t1] and [t2], keeps every
    static entry and every entry within its time to live at [t2], removes the
    entries past it at [t1], keeps the order of the others, and leaves the
    device in step with the cache when it was before. *)
Theorem expire_arp_cache_correct w d t1 t2 :
  device_ok d -> (forall e, e ∈ arp_cache (w_rs w) -> length (ac_ha e) = ETH_ADDR_LEN) ->
  arp_synced d w ->
  (forall k, (w_tick w <= k < w_tick w + length (arp_cache (w_rs w)))%nat ->
     t1 <= env_time (w_env w) k <= t2) ->
  wp expire_arp_cache (fun _ w' =>
    w_rs w' = set_arp_cache (arp_cache (w_rs w')) (w_rs w) /\
    sublist (arp_cache (w_rs w')) (arp_cache (w_rs w)) /\ arp_synced d w' /\
    (forall e, e ∈ arp_cache (w_rs w') -> arp_live (arp_ttl (w_rs w)) t1 e) /\
    (forall e, e ∈ arp_cache (w_rs w) -> arp_live (arp_ttl (w_rs w)) t2 e ->
       e ∈ arp_cache (w_rs w'))) w.
Proof.
  intros Hd Hl Hsync Ht. unfold expire_arp_cache. apply wp_bind. eapply wp_done; [reflexivity|].
  apply wp_bind. eapply wp_mono; [by apply expire_loop_spec|].
  intros l w1 (E1 & E2 & Hs & H1 & H2). apply wp_bind. eapply wp_done; [reflexivity|].
  set (w2 := mk_world (set_arp_cache l (w_rs w)) (w_trace w1) (w_tick w1) (w_next_addr w1) (w_env w1)).
  assert (forall (Q : world -> Prop), (forall w', w_rs w' = w_rs w2 -> arp_synced d w' -> Q w') ->
    wp (if (length l <? length (arp_cache (w_rs w)))%nat then trigger_arp_cache_modified else mret tt)
       (fun _ w' => Q w') w2) as Hif.
  { intros Q HQ. destruct (Nat.ltb_spec (length l) (length (arp_cache (w_rs w)))).
    - eapply wp_mono; [apply (trigger_arp_spec w2 d); [by apply dev_run_ok|]|].
      + intros e He. apply Hl. simpl in He. by eapply elem_of_submseteq, sublist_submseteq.
      + intros [] w' [E Hs']. by apply HQ.
    - eapply wp_done; [reflexivity|]. apply HQ; [done|].
      assert (l = arp_cache (w_rs w)) as ->.
      { apply sublist_same_length; [done|]. apply sublist_length in Hs. lia. }
      unfold arp_synced, w2 in *. simpl. by rewrite E2. }
  apply Hif. intros w' -> Hs'. by split_and!.
Qed.

(** ** Lemmas: output *)

(** The frame [send_packet] puts on the wire: [len] bytes, padded to 60. *)
Definition frame_of (packet : bytes) (len : nat) : bytes := take len packet ++ calloc (60 - len).

(** The world after a frame was sent. *)
Definition sent (w : world) (packet : bytes) (len : nat) (iface : string) : world :=
  mk_world (w_rs w)
    (w_trace w ++ [EvLock L_write Mutex; EvSend (frame_of packet len) (Nat.max len 60) iface;
                   EvUnlock L_write])
    (S (w_tick w)) (w_next_addr w) (w_env w).

Lemma send_packet_done packet len iface w : (len <= length packet)%nat ->
  send_packet packet len iface w =
    Done (env_output (w_env w) (w_tick w)) (sent w packet len iface).
Proof.
  intros Hl. unfold send_packet, low_level_output, sent, frame_of.
  assert (get_range packet 0 len = Some (take len packet)) as Hr.
  { unfold get_range. simpl. apply Nat.leb_le in Hl. by rewrite Hl. }
  unfold mbind, M_bind, mem, lift, mret, M_ret, acquire, release, emit, ask.
  cbv beta zeta iota. destruct (Nat.ltb_spec len 60); rewrite Hr; cbv beta iota.
  - replace (Nat.max len 60) with 60%nat by lia.
    replace (len + (60 - len))%nat with 60%nat by lia.
    assert (put_range (calloc 60) 0 (take len packet) = Some (take len packet ++ calloc (60 - len)))
      as ->.
    { unfold put_range. rewrite length_take, Nat.min_l by lia. cbn [Nat.add take app].
      assert ((len <=? length (calloc 60))%nat = true) as -> by (apply Nat.leb_le; change (length (calloc 60)) with 60%nat; lia).
      unfold calloc. rewrite drop_replicate. done. }
    cbv beta iota.
    assert (length (take len packet ++ calloc (60 - len)) = 60%nat) as Hlen.
    { rewrite length_app, length_take. unfold calloc. rewrite length_replicate. lia. }
    unfold get_range. rewrite Hlen. cbn [Nat.add Nat.leb drop].
    rewrite (take_ge (take len packet ++ calloc (60 - len))) by (rewrite Hlen; done). simpl.
    by rewrite <- !app_assoc.
  - replace (Nat.max len 60) with len by lia.
    replace (60 - len)%nat with O by lia. unfold calloc. simpl. rewrite app_nil_r.
    by rewrite <- !app_assoc.
Qed.

(** A packet with its destination MAC address filled in. *)
Definition with_dhost (packet mac : bytes) : bytes := mac ++ drop 6 packet.

Lemma put_dhost packet mac : length mac = ETH_ADDR_LEN -> (6 <= length packet)%nat ->
  put_range packet 0 (take ETH_ADDR_LEN mac) = Some (with_dhost packet mac).
Proof.
  intros Hm Hp. rewrite take_ge by (rewrite Hm; done). unfold put_range. rewrite Hm. simpl.
  destruct packet as [|? [|? [|? [|? [|? [|? ?]]]]]]; simpl in *; try lia. done.
Qed.

Lemma with_dhost_length packet mac : length mac = ETH_ADDR_LEN -> (6 <= length packet)%nat ->
  length (with_dhost packet mac) = length packet.
Proof. intros Hm Hp. unfold with_dhost. rewrite length_app, length_drop, Hm. unfold ETH_ADDR_LEN. lia. Qed.

(** [send_ip] to a next hop in the ARP cache sends one frame out of the
    interface, the packet with the cached address as its destination, and
    reports the failure of the output routine; the state is unchanged. *)
Theorem send_ip_hit packet len next_hop out_iface w ace :
  in_arp_cache (w_rs w) next_hop = Some ace -> length (ac_ha ace) = ETH_ADDR_LEN ->
  (6 <= len <= length packet)%nat ->
  send_ip packet len next_hop out_iface w =
    Done (if env_output (w_env w) (w_tick w) =? 0 then 0 else 1)
      (sent w (with_dhost packet (ac_ha ace)) len out_iface).
Proof.
  intros Hc Hm Hl. unfold send_ip. rewrite (bind_done _ _ w (w_rs w) w) by done.
  unfold get_from_arp_cache. rewrite Hc, put_dhost by (done || lia).
  rewrite (bind_done _ _ w (with_dhost packet (ac_ha ace)) w) by done.
  erewrite bind_done; [|apply send_packet_done; rewrite with_dhost_length; done || lia]. done.
Qed.

(** [send_ip] to a next hop that has a queue entry but no cached address
    appends the packet to the entry, sends nothing and asks for nothing. *)
Theorem send_ip_queued packet len next_hop out_iface w i :
  in_arp_cache (w_rs w) next_hop = None -> get_from_arp_queue (w_rs w) next_hop = Some i ->
  send_ip packet len next_hop out_iface w =
    Done 0 (mk_world (set_arp_queue (alter (arp_queue_entry_add_packet packet len) i
                                       (arp_queue (w_rs w))) (w_rs w))
              (w_trace w) (w_tick w) (w_next_addr w) (w_env w)).
Proof.
  intros Hc Hq. unfold send_ip, arp_queue_add. rewrite (bind_done _ _ w (w_rs w) w) by done.
  unfold get_from_arp_cache. rewrite Hc. unfold mbind, M_bind, get_rs. by rewrite Hq.
Qed.

(** ** ARP frames *)

(** An ARP message in an Ethernet frame. *)
Definition arp_frame (dhost shost : bytes) (op : Z) (sha : bytes) (sip : Z) (tha : bytes) (tip : Z)
    : bytes :=
  dhost ++ shost ++ [8; 6] ++ [0; 1; 8; 0; 6; 4; 0; op] ++ sha ++ word_bytes sip
  ++ tha ++ word_bytes tip.

Definition ARP_FRAME_LEN : nat := 42.

Lemma six_bytes (l : bytes) : length l = ETH_ADDR_LEN ->
  exists a b c d e f, l = [a; b; c; d; e; f].
Proof.
  destruct l as [|a [|b [|c [|d [|e [|f [|? ?]]]]]]]; try done. intros _. by exists a, b, c, d, e, f.
Qed.

Lemma arp_frame_built dhost shost op sha sip tha tip :
  length dhost = ETH_ADDR_LEN -> length shost = ETH_ADDR_LEN -> length sha = ETH_ADDR_LEN ->
  (forall t, tha = Some t -> length t = ETH_ADDR_LEN) -> op = ARP_OP_REQUEST \/ op = ARP_OP_REPLY ->
  exists p, populate_eth_hdr (calloc ARP_FRAME_LEN) 0 (Some dhost) shost ETH_TYPE_ARP = Some p /\
    eth_type p 0 = Some (htons ETH_TYPE_ARP) /\
    populate_arp_hdr p ETH_HDR_LEN tha tip sha sip op =
      Some (arp_frame dhost shost op sha sip (default (calloc 6) tha) tip).
Proof.
  intros (d1 & d2 & d3 & d4 & d5 & d6 & ->)%six_bytes (s1 & s2 & s3 & s4 & s5 & s6 & ->)%six_bytes
    (h1 & h2 & h3 & h4 & h5 & h6 & ->)%six_bytes Ht Hop.
  eexists. split; [reflexivity|]. split; [reflexivity|].
  assert (default (calloc 6) tha = calloc 6 /\ tha = None \/
    exists t1 t2 t3 t4 t5 t6, tha = Some [t1; t2; t3; t4; t5; t6]) as [[_ ->]|Hs].
  { destruct tha as [t|]; [right|by left].
    destruct (six_bytes t (Ht t eq_refl)) as (t1 & t2 & t3 & t4 & t5 & t6 & ->).
    by exists t1, t2, t3, t4, t5, t6. }
  - destruct Hop as [-> | ->]; reflexivity.
  - destruct Hs as (t1 & t2 & t3 & t4 & t5 & t6 & ->). destruct Hop as [-> | ->]; reflexivity.
Qed.

Lemma arp_frame_length dhost shost op sha sip tha tip :
  length dhost = ETH_ADDR_LEN -> length shost = ETH_ADDR_LEN -> length sha = ETH_ADDR_LEN ->
  length tha = ETH_ADDR_LEN ->
  length (arp_frame dhost shost op sha sip tha tip) = ARP_FRAME_LEN.
Proof. intros H1 H2 H3 H4. unfold arp_frame. rewrite !length_app, H1, H2, H3, H4. done. Qed.

Lemma send_arp_request_done tip interface w inter :
  get_interface (w_rs w) interface = Some inter -> length (if_addr inter) = ETH_ADDR_LEN ->
  send_arp_request tip interface w =
    Done tt (sent w (arp_frame ETH_BROADCAST (if_addr inter) ARP_OP_REQUEST (if_addr inter)
                       (if_ip inter) (calloc 6) tip) ARP_FRAME_LEN interface).
Proof.
  intros Hi Hm.
  destruct (arp_frame_built ETH_BROADCAST (if_addr inter) ARP_OP_REQUEST (if_addr inter)
    (if_ip inter) None tip) as (p & E1 & _ & E2); [done..|by left|].
  unfold send_arp_request. rewrite (bind_done _ _ w (w_rs w) w) by done. cbv zeta.
  rewrite Hi, (bind_done _ _ w inter w) by done.
  change (sizeof_eth_hdr + sizeof_arp_hdr)%nat with ARP_FRAME_LEN. rewrite E1.
  rewrite (bind_done _ _ w p w) by done. rewrite E2. simpl default.
  erewrite bind_done by reflexivity.
  erewrite bind_done; [reflexivity|]. apply send_packet_done.
  by rewrite arp_frame_length.
Qed.

(** [send_ip] to a next hop that is neither cached nor queued broadcasts
    one ARP request for it, with the interface's own addresses as its source,
    and queues the packet in a new entry that has made one request. *)
Theorem send_ip_miss packet len next_hop out_iface w inter :
  in_arp_cache (w_rs w) next_hop = None -> get_from_arp_queue (w_rs w) next_hop = None ->
  get_interface (w_rs w) out_iface = Some inter -> length (if_addr inter) = ETH_ADDR_LEN ->
  let now := env_time (w_env w) (w_tick w) in
  let entry := mk_arp_queue_entry out_iface next_hop 1 now [mk_arp_queue_packet_entry packet len] in
  exists w', send_ip packet len next_hop out_iface w = Done 0 w' /\
    w_rs w' = set_arp_queue (arp_queue (w_rs w) ++ [entry]) (w_rs w) /\
    w_trace w' = w_trace w ++
      [EvLock L_write Mutex;
       EvSend (frame_of (arp_frame ETH_BROADCAST (if_addr inter) ARP_OP_REQUEST (if_addr inter)
                           (if_ip inter) (calloc 6) next_hop) ARP_FRAME_LEN) 60 out_iface;
       EvUnlock L_write].
Proof.
  intros Hc Hq Hi Hm now entry.
  unfold send_ip, arp_queue_add. rewrite (bind_done _ _ w (w_rs w) w) by done.
  unfold get_from_arp_cache. rewrite Hc.
  set (w1 := mk_world (w_rs w) (w_trace w) (S (w_tick w)) (w_next_addr w) (w_env w)).
  eexists. split; [|split].
  - rewrite bind_assoc, (bind_done _ _ w (w_rs w) w) by done. rewrite Hq, bind_assoc.
    rewrite (bind_done time _ w now w1) by done. rewrite bind_assoc.
    erewrite bind_done; [|by apply (send_arp_request_done _ _ w1 inter)]. reflexivity.
  - reflexivity.
  - reflexivity.
Qed.

(** ** Lemmas: flushing the queue *)

Definition send_events (packet : bytes) (len : nat) (iface : string) : list event :=
  [EvLock L_write Mutex; EvSend (frame_of packet len) (Nat.max len 60) iface; EvUnlock L_write].

Definition flush_events (mac : bytes) (aqe : arp_queue_entry) : list event :=
  concat (map (fun aqpe => send_events (with_dhost (qp_packet aqpe) mac) (qp_len aqpe)
                             (aq_out_iface_name aqe)) (aq_head aqe)).

(** Queued packets have an Ethernet header and lie within their buffer. *)
Definition queued_ok (aqe : arp_queue_entry) : Prop :=
  forall aqpe, aqpe ∈ aq_head aqe -> (6 <= qp_len aqpe <= length (qp_packet aqpe))%nat.

Definition set_aq_head (l : list arp_queue_packet_entry) (aqe : arp_queue_entry) : arp_queue_entry :=
  mk_arp_queue_entry (aq_out_iface_name aqe) (aq_next_hop aqe) (aq_requests aqe)
    (aq_last_req_time aqe) l.

Lemma send_entry_packets_spec fuel q1 aqe q2 ace w :
  arp_queue (w_rs w) = q1 ++ aqe :: q2 -> queued_ok aqe ->
  in_arp_cache (w_rs w) (aq_next_hop aqe) = Some ace -> length (ac_ha ace) = ETH_ADDR_LEN ->
  (length (aq_head aqe) < fuel)%nat ->
  exists w', send_entry_packets fuel (length q1) w = Done tt w' /\
    w_rs w' = set_arp_queue (q1 ++ set_aq_head [] aqe :: q2) (w_rs w) /\
    w_trace w' = w_trace w ++ flush_events (ac_ha ace) aqe.
Proof.
  revert fuel aqe w. induction fuel as [|fuel IH]; intros aqe w Hq Hok Hc Hm Hf; [lia|].
  cbn [send_entry_packets]. rewrite (bind_done _ _ w (w_rs w) w) by done.
  rewrite Hq, lookup_middle. destruct aqe as [ifc nh rq lt [|aqpe rest]].
  { exists w. simpl. split_and!; [done| |by rewrite app_nil_r].
    unfold set_aq_head. simpl. rewrite <- Hq. by destruct (w_rs w). }
  cbn [aq_head]. unfold queued_ok in Hok. cbn [aq_head aq_next_hop aq_out_iface_name] in *.
  assert (6 <= qp_len aqpe <= length (qp_packet aqpe))%nat as Hl
    by (apply Hok, list_elem_of_here).
  erewrite bind_done; [|by apply send_ip_hit].
  erewrite bind_done; [|reflexivity].
  set (w1 := mk_world _ _ _ _ _).
  assert (w_rs w1 = set_arp_queue (q1 ++ mk_arp_queue_entry ifc nh rq lt rest :: q2) (w_rs w)) as E1.
  { unfold w1, sent. cbn [w_rs]. rewrite Hq, alter_middle. done. }
  assert (w_trace w1 = w_trace w ++ send_events (with_dhost (qp_packet aqpe) (ac_ha ace)) (qp_len aqpe) ifc)
    as T1 by done.
  destruct rest as [|aqpe2 rest].
  - exists w1. split_and!; [done|exact E1|]. rewrite T1. unfold flush_events. simpl. done.
  - destruct (IH (mk_arp_queue_entry ifc nh rq lt (aqpe2 :: rest)) w1) as (w' & E & R & T).
    + rewrite E1. done.
    + intros x Hx. apply Hok. by apply list_elem_of_further.
    + rewrite E1. done.
    + done.
    + simpl in *. lia.
    + exists w'. split_and!; [exact E| |].
      * rewrite R, E1. done.
      * rewrite T, T1, <- app_assoc. done.
Qed.

(** No entry from position [n] on waits for the address. *)
Lemma send_queued_nomatch fuel fp n dest w :
  (forall e, e ∈ drop n (arp_queue (w_rs w)) -> aq_next_hop e ≠ dest) ->
  (n <= length (arp_queue (w_rs w)) < n + fuel)%nat ->
  send_queued_packets_loop fuel fp n dest w = Done tt w.
Proof.
  revert n. induction fuel as [|fuel IH]; intros n Hn Hf; [lia|].
  cbn [send_queued_packets_loop]. rewrite (bind_done _ _ w (w_rs w) w) by done.
  destruct (arp_queue (w_rs w) !! n) as [e|] eqn:E; [|done].
  rewrite (drop_S _ _ _ E) in Hn. apply lookup_lt_Some in E.
  assert (aq_next_hop e ≠ dest) as He by (apply Hn, list_elem_of_here).
  destruct (Z.eqb_spec dest (aq_next_hop e)); [congruence|].
  destruct (S n =? length (arp_queue (w_rs w)))%nat; [done|].
  apply IH; [|lia]. intros x Hx. apply Hn. by apply list_elem_of_further.
Qed.

(** The loop passes over the entries that wait for other addresses. *)
Lemma send_queued_reach k fuel fp dest w qa qb aqe q2 :
  arp_queue (w_rs w) = qa ++ qb ++ aqe :: q2 -> length qb = k ->
  (forall e, e ∈ qb -> aq_next_hop e ≠ dest) ->
  send_queued_packets_loop (k + fuel) fp (length qa) dest w =
  send_queued_packets_loop fuel fp (length (qa ++ qb)) dest w.
Proof.
  revert qa qb. induction k as [|k IH]; intros qa qb Hq Hk Hn.
  { destruct qb; [|done]. by rewrite app_nil_r. }
  destruct qb as [|e qb]; [done|]. cbn [Nat.add send_queued_packets_loop].
  rewrite (bind_done _ _ w (w_rs w) w) by done.
  rewrite Hq. cbn [app]. rewrite lookup_middle.
  destruct (Z.eqb_spec dest (aq_next_hop e)) as [->|].
  { exfalso. apply (Hn e); [apply list_elem_of_here|done]. }
  destruct (Nat.eqb_spec (S (length qa)) (length (qa ++ e :: qb ++ aqe :: q2))) as [E|].
  { rewrite !length_app in E. simpl in E. rewrite length_app in E. simpl in E. lia. }
  replace (S (length qa)) with (length (qa ++ [e])) by (rewrite length_app; simpl; lia).
  rewrite (IH (qa ++ [e]) qb).
  - by rewrite <- app_assoc.
  - rewrite Hq. by rewrite <- app_assoc.
  - simpl in Hk. lia.
  - intros x Hx. apply Hn. by apply list_elem_of_further.
Qed.

Lemma send_queued_packets_spec dest q1 aqe q2 ace w :
  arp_queue (w_rs w) = q1 ++ aqe :: q2 -> aq_next_hop aqe = dest ->
  (forall e, e ∈ q1 ++ q2 -> aq_next_hop e ≠ dest) -> queued_ok aqe ->
  in_arp_cache (w_rs w) dest = Some ace -> length (ac_ha ace) = ETH_ADDR_LEN ->
  exists w', send_queued_packets dest w = Done tt w' /\
    w_rs w' = set_arp_queue (q1 ++ q2) (w_rs w) /\
    w_trace w' = w_trace w ++ flush_events (ac_ha ace) aqe.
Proof.
  intros Hq <- Hn Hok Hc Hm. unfold send_queued_packets.
  rewrite (bind_done _ _ w (w_rs w) w) by done. cbv zeta.
  set (fp := queue_fuel (arp_queue (w_rs w))) at 2.
  assert (length (aq_head aqe) < fp)%nat as Hfp.
  { unfold fp, queue_fuel. rewrite Hq, map_app. simpl.
    clear. induction q1 as [|x q1 IH]; simpl; [lia|]. lia. }
  assert (exists f, queue_fuel (arp_queue (w_rs w)) = (length q1 + S (length q2 + S f))%nat) as [f ->].
  { unfold queue_fuel. rewrite Hq, length_app. simpl.
    exists (sum_list (map (fun aqe => length (aq_head aqe)) (q1 ++ aqe :: q2))). lia. }
  clearbody fp.
  change 0%nat with (length (@nil arp_queue_entry)).
  rewrite (send_queued_reach (length q1) _ fp _ w [] q1 aqe q2); [|done|done|].
  2:{ intros e He. apply Hn. apply elem_of_app. by left. }
  cbn [app send_queued_packets_loop]. rewrite (bind_done _ _ w (w_rs w) w) by done.
  rewrite Hq, lookup_middle, Z.eqb_refl.
  destruct (send_entry_packets_spec fp q1 aqe q2 ace w) as (w1 & E1 & R1 & T1); [done..|].
  rewrite (bind_done _ _ w tt w1) by exact E1. rewrite (bind_done _ _ w1 tt
    (mk_world (set_arp_queue (q1 ++ q2) (w_rs w1)) (w_trace w1) (w_tick w1) (w_next_addr w1) (w_env w1))).
  2:{ unfold modify_rs. rewrite R1. cbn [arp_queue set_arp_queue]. by rewrite delete_middle. }
  destruct (Nat.eqb_spec (S (length q1)) (length (q1 ++ aqe :: q2))) as [E|E].
  - eexists. split; [reflexivity|]. by rewrite R1.
  - rewrite send_queued_nomatch.
    + eexists. split; [reflexivity|]. by rewrite R1.
    + cbn [w_rs arp_queue set_arp_queue]. rewrite drop_app_length. intros e He. apply Hn.
      apply elem_of_app. by right.
    + cbn [w_rs arp_queue set_arp_queue]. rewrite length_app. lia.
Qed.

(** Once an address is in the cache, [send_queued_packets] sends every
    packet waiting for it, in the order they were queued, each to the cached
    MAC address out of the interface recorded for it, removes the entry, and
    leaves the rest of the queue and of the state alone; it terminates within
    the fuel of the queue. *)
Theorem send_queued_packets_correct dest q1 aqe q2 ace w :
  arp_queue (w_rs w) = q1 ++ aqe :: q2 -> aq_next_hop aqe = dest ->
  (forall e, e ∈ q1 ++ q2 -> aq_next_hop e ≠ dest) -> queued_ok aqe ->
  in_arp_cache (w_rs w) dest = Some ace -> length (ac_ha ace) = ETH_ADDR_LEN ->
  exists w', send_queued_packets dest w = Done tt w' /\
    w_rs w' = set_arp_queue (q1 ++ q2) (w_rs w) /\
    w_trace w' = w_trace w ++ flush_events (ac_ha ace) aqe.
Proof. apply send_queued_packets_spec. Qed.

(** Should the address leave the cache again before its queue is flushed,
    as another thread may do between the two critical sections of
    [process_arp_reply], an entry with two packets or more is never left: every
    packet sent is queued again behind the one that follows it. *)
Theorem send_entry_packets_diverges fuel q1 aqe q2 w :
  arp_queue (w_rs w) = q1 ++ aqe :: q2 ->
  (forall e, e ∈ q1 -> aq_next_hop e ≠ aq_next_hop aqe) ->
  in_arp_cache (w_rs w) (aq_next_hop aqe) = None -> (2 <= length (aq_head aqe))%nat ->
  exists w', send_entry_packets fuel (length q1) w = Crashed OutOfFuel w'.
Proof.
  revert aqe w. induction fuel as [|fuel IH]; intros aqe w Hq Hn Hc Hl; [by eexists|].
  cbn [send_entry_packets]. rewrite (bind_done _ _ w (w_rs w) w) by done.
  rewrite Hq, lookup_middle. destruct aqe as [ifc nh rq lt [|p1 [|p2 rest]]]; simpl in Hl; [lia..|].
  cbn [aq_head aq_next_hop aq_out_iface_name qp_packet qp_len] in *.
  assert (get_from_arp_queue (w_rs w) nh = Some (length q1)) as Hi.
  { unfold get_from_arp_queue. rewrite Hq. clear -Hn.
    induction q1 as [|e q1 IH]; simpl; [by rewrite Z.eqb_refl|].
    destruct (Z.eqb_spec (aq_next_hop e) nh); [by destruct (Hn e (list_elem_of_here _ _))|].
    rewrite IH; [done|]. intros x Hx. apply Hn. by apply list_elem_of_further. }
  erewrite bind_done; [|by apply (send_ip_queued _ _ _ _ w (length q1))].
  erewrite bind_done; [|reflexivity].
  cbn [w_rs arp_queue set_arp_queue]. rewrite Hq, !alter_middle.
  apply (IH (mk_arp_queue_entry ifc nh rq lt (p2 :: rest ++ [mk_arp_queue_packet_entry (qp_packet p1) (qp_len p1)]))).
  - done.
  - done.
  - done.
  - simpl. rewrite length_app. simpl. lia.
Qed.

(** ** Lemmas: what is put on the wire *)

Definition is_send (e : event) : bool := match e with EvSend _ _ _ => true | _ => false end.

(** The frames of a trace. *)
Definition frames (t : list event) : list event := bfilter is_send t.

(** Computations that send nothing. *)
Definition quiet {A} (m : M A) : Prop :=
  forall w, match m w with
            | Done _ w' | Crashed _ w' => frames (w_trace w') = frames (w_trace w)
            end.

Lemma quiet_bind {A B} (m : M A) (f : A -> M B) :
  quiet m -> (forall a, quiet (f a)) -> quiet (m ≫= f).
Proof.
  intros Hm Hf w. unfold mbind, M_bind. specialize (Hm w). destruct (m w) as [a w1|c w1]; [|done].
  specialize (Hf a w1). destruct (f a w1); by rewrite Hf, Hm.
Qed.

Lemma quiet_silent {A} (m : M A) : silent m -> quiet m.
Proof. intros Hm w. specialize (Hm w). destruct (m w); by rewrite Hm. Qed.

Lemma quiet_ret {A} (a : A) : quiet (mret a).
Proof. done. Qed.

Lemma quiet_emit e : is_send e = false -> quiet (emit e).
Proof.
  intros He w. simpl. unfold frames. rewrite bfilter_app. simpl. by rewrite He, app_nil_r.
Qed.

Lemma quiet_write_arp_cache_entry_to_hw o i : quiet (write_arp_cache_entry_to_hw o i).
Proof.
  unfold write_arp_cache_entry_to_hw. apply quiet_bind; [|intros; by apply quiet_emit].
  destruct o.
  - apply quiet_bind; [apply quiet_silent, silent_lift|intros hi].
    apply quiet_bind; [by apply quiet_emit|intros _].
    apply quiet_bind; [apply quiet_silent, silent_lift|intros lo].
    apply quiet_bind; [by apply quiet_emit|intros _]. by apply quiet_emit.
  - do 2 (apply quiet_bind; [by apply quiet_emit|intros _]). by apply quiet_emit.
Qed.

Lemma quiet_write_slots {A} (f : nat -> option A -> M unit) n i l :
  (forall i o, quiet (f i o)) -> quiet (write_slots f n i l).
Proof.
  intros Hf. revert i l. induction n as [|n IH]; intros i l; simpl; [done|].
  destruct l; (apply quiet_bind; [apply Hf|intros _; apply IH]).
Qed.

Lemma quiet_write_arp_static cur i : quiet (write_arp_static cur i).
Proof.
  revert i. induction cur as [|e cur IH]; intros i; cbn [write_arp_static]; [done|].
  destruct (i <? TABLE_DEPTH)%nat; [|done]. destruct (negb _); [|apply IH].
  apply quiet_bind; [apply quiet_write_arp_cache_entry_to_hw|intros _; apply IH].
Qed.

Lemma quiet_trigger_arp_cache_modified : quiet trigger_arp_cache_modified.
Proof.
  apply quiet_bind; [apply quiet_silent, silent_get_rs|intros rs].
  destruct (is_netfpga rs); [|done]. unfold write_arp_cache_to_hw.
  apply quiet_bind; [apply quiet_silent, silent_get_rs|intros rs'].
  apply quiet_bind; [apply quiet_write_arp_static|intros i].
  rewrite write_arp_dynamic_slots. apply quiet_write_slots. intros.
  apply quiet_write_arp_cache_entry_to_hw.
Qed.

Lemma quiet_update_arp_cache ip mac st : quiet (update_arp_cache ip mac st).
Proof.
  unfold update_arp_cache. apply quiet_bind; [apply quiet_silent, silent_get_rs|intros rs].
  apply quiet_bind; [destruct (st =? 1); [done|apply quiet_silent, silent_ask]|intros ttl].
  apply quiet_bind; [destruct (in_arp_cache rs ip); apply quiet_silent, silent_modify_rs|intros _].
  apply quiet_bind; [apply quiet_trigger_arp_cache_modified|done].
Qed.

Lemma dev_run_flush d mac aqe : dev_run d (flush_events mac aqe) = d.
Proof. unfold flush_events. induction (aq_head aqe) as [|x l IH]; [done|exact IH]. Qed.

(** C7: An ARP reply puts its sender in the cache and in the device, and sends
    every packet that waited for the sender, in order and to its MAC address,
    and nothing else; the entry leaves the queue. *)
Theorem process_arp_reply_correct packet sip sha q1 aqe q2 w d :
  eth_type packet 0 = Some (htons ETH_TYPE_ARP) ->
  arp_sip packet ETH_HDR_LEN = Some sip -> arp_sha packet ETH_HDR_LEN = Some sha ->
  device_ok d -> cache_ok (arp_cache (w_rs w)) ->
  arp_queue (w_rs w) = q1 ++ aqe :: q2 -> aq_next_hop aqe = sip ->
  (forall e, e ∈ q1 ++ q2 -> aq_next_hop e ≠ sip) -> queued_ok aqe ->
  wp (process_arp_reply packet) (fun _ w' =>
    w_rs w' = set_arp_queue (q1 ++ q2) (set_arp_cache (arp_cache (w_rs w')) (w_rs w)) /\
    cache_ok (arp_cache (w_rs w')) /\ arp_synced d w' /\
    (exists ttl, in_arp_cache (w_rs w') sip = Some (mk_arp_cache_entry sip sha ttl 0)) /\
    frames (w_trace w') = frames (w_trace w) ++ frames (flush_events sha aqe)) w.
Proof.
  intros Ht Hsip Hsha Hd Hok Hq Hnh Hn Hp.
  assert (length sha = ETH_ADDR_LEN) as Hlen by (by eapply get_range_length).
  unfold process_arp_reply, get_arp_hdr. rewrite Ht.
  apply wp_bind. eapply wp_done; [reflexivity|]. rewrite Hsip, Hsha.
  do 3 (apply wp_bind; eapply wp_done; [reflexivity|]).
  set (w1 := mk_world (w_rs w) (w_trace w ++ [EvLock L_arp_cache Wr]) _ _ _).
  apply wp_bind. pose proof (quiet_update_arp_cache sip sha 0 w1) as Hquiet.
  destruct (wp_inv _ _ _ (update_arp_cache_spec sip sha 0 w1 d Hd Hok Hlen))
    as (r & w2 & E & -> & R & Hok2 & Hs2 & (ttl & Hget & _) & _).
  rewrite E in Hquiet. eapply wp_done; [exact E|].
  do 3 (apply wp_bind; eapply wp_done; [reflexivity|]).
  cbn [w_rs w_trace w_tick w_next_addr w_env]. set (w3 := mk_world (w_rs w2) _ _ _ _). apply wp_bind.
  destruct (send_queued_packets_spec sip q1 aqe q2 (mk_arp_cache_entry sip sha ttl 0) w3)
    as (w4 & E4 & R4 & T4); [unfold w3; cbn [w_rs]; rewrite R; exact Hq|done..|].
  eapply wp_done; [exact E4|]. apply wp_bind. eapply wp_done; [reflexivity|].
  eapply wp_done; [reflexivity|]. cbn [w_rs w_trace]. rewrite R4. unfold w3. cbn [w_rs].
  split_and!.
  - f_equal. exact R.
  - done.
  - intros Hnf. cbn [w_rs w_trace] in *. specialize (Hs2 Hnf).
    rewrite T4. unfold w3. cbn [w_trace w_rs].
    rewrite !dev_run_app, dev_run_flush. exact Hs2.
  - by exists ttl.
  - rewrite T4. unfold w3. cbn [w_trace]. unfold frames in *.
    rewrite !bfilter_app, Hquiet. unfold w1. cbn [w_trace]. rewrite bfilter_app. simpl.
    by rewrite !app_nil_r.
Qed.

Lemma send_arp_reply_done packet iface shost sha sip w :
  eth_type packet 0 = Some (htons ETH_TYPE_ARP) ->
  eth_shost packet 0 = Some shost -> arp_sha packet ETH_HDR_LEN = Some sha ->
  arp_sip packet ETH_HDR_LEN = Some sip -> length (if_addr iface) = ETH_ADDR_LEN ->
  send_arp_reply packet iface w =
    Done tt (sent w (arp_frame shost (if_addr iface) ARP_OP_REPLY (if_addr iface) (if_ip iface)
                       sha sip) ARP_FRAME_LEN (if_name iface)).
Proof.
  intros Ht Hsh Hsha Hsip Hm.
  assert (length shost = ETH_ADDR_LEN /\ length sha = ETH_ADDR_LEN) as [Hl1 Hl2]
    by (split; by eapply get_range_length).
  destruct (arp_frame_built shost (if_addr iface) ARP_OP_REPLY (if_addr iface) (if_ip iface)
    (Some sha) sip) as (p & E1 & E2 & E3); [done..|by intros t [= <-]|by right|].
  unfold send_arp_reply, get_arp_hdr. rewrite Ht. erewrite bind_done by reflexivity.
  rewrite Hsh. erewrite bind_done by reflexivity.
  change (sizeof_eth_hdr + sizeof_arp_hdr)%nat with ARP_FRAME_LEN. rewrite E1.
  rewrite (bind_done _ _ w p w) by done. rewrite E2. erewrite bind_done by reflexivity.
  rewrite Hsha, Hsip. do 2 (erewrite bind_done by reflexivity). rewrite E3.
  erewrite bind_done by reflexivity. erewrite bind_done; [reflexivity|].
  apply send_packet_done. simpl default. by rewrite arp_frame_length.
Qed.

(** An ARP request for the address of one of the router's interfaces is
    answered, out of that interface, by one reply that gives the interface's
    MAC address to the requester; a request for any other address is ignored. *)
Theorem process_arp_request_correct packet shost sha sip tip w :
  eth_type packet 0 = Some (htons ETH_TYPE_ARP) ->
  eth_shost packet 0 = Some shost -> arp_sha packet ETH_HDR_LEN = Some sha ->
  arp_sip packet ETH_HDR_LEN = Some sip -> arp_tip packet ETH_HDR_LEN = Some tip ->
  (forall e, e ∈ if_list (w_rs w) -> length (if_addr e) = ETH_ADDR_LEN) ->
  exists w', process_arp_request packet w = Done tt w' /\ w_rs w' = w_rs w /\
    w_trace w' = w_trace w ++ [EvLock L_if_list Rd] ++
      match find_first (fun e => if_ip e =? tip) (if_list (w_rs w)) with
      | Some iface =>
          send_events (arp_frame shost (if_addr iface) ARP_OP_REPLY (if_addr iface) (if_ip iface)
                         sha sip) ARP_FRAME_LEN (if_name iface)
      | None => []
      end ++ [EvUnlock L_if_list].
Proof.
  intros Ht Hsh Hsha Hsip Htip Hm. unfold process_arp_request, get_arp_hdr. rewrite Ht.
  erewrite bind_done by reflexivity. erewrite bind_done by reflexivity.
  erewrite bind_done by reflexivity. rewrite Htip. erewrite bind_done by reflexivity.
  cbn [w_rs]. destruct (find_first _ (if_list (w_rs w))) as [iface|] eqn:E.
  - erewrite bind_done; [|apply send_arp_reply_done; try done].
    2:{ apply Hm. by apply find_first_Some in E as [? _]. }
    eexists. split; [reflexivity|]. split; [done|]. simpl. by rewrite <- !app_assoc.
  - erewrite bind_done by reflexivity. eexists. split; [reflexivity|]. split; [done|].
    simpl. by rewrite <- !app_assoc.
Qed.
