(* ===== verification/Icmp.v ===== *)
(** or_icmp.c: ICMP messages the router sends (echo replies and requests,
    errors) and the ones it receives; with the retry queue of or_arp.c
    ([process_arp_queue]), which sends ICMP errors for the packets it gives
    up on. *)

From S2P Require Import Prelude Words Bytes State CStrings Headers Checksum Packets Netfpga.
From S2P Require Import Rtable Iface Arp.
Local Open Scope Z_scope.

Definition lock_mutex_sping_queue : M unit := acquire L_sping Mutex.
Definition unlock_mutex_sping_queue : M unit := release L_sping.

(** ** Sending *)

(** The addresses that are answered from: an echo reply and a port unreachable
    error come from the address the packet was sent to. *)
Definition reply_from_dst (type code : Z) : bool :=
  (type =? ICMP_TYPE_ECHO_REPLY)
  || ((type =? ICMP_TYPE_DESTINATION_UNREACHABLE) && (code =? ICMP_CODE_PORT_UNREACHABLE)).

(** The ICMP payload: the echoed data, or four zero bytes and the IP header of
    the packet with eight bytes after it. *)
Definition icmp_payload (src_packet : bytes) (len : nat) (type : Z) : option bytes :=
  if type =? ICMP_TYPE_ECHO_REPLY then
    get_range src_packet (get_icmp_hdr + sizeof_icmp_hdr)
      (len - (sizeof_eth_hdr + sizeof_ip_hdr + sizeof_icmp_hdr))
  else
    data ← get_range src_packet get_ip_hdr (sizeof_ip_hdr + 8);
    Some (calloc 4 ++ data).

(** The packet, from the IP header of the packet answered and the interface it
    leaves by. *)
Definition build_icmp_packet (src_packet : bytes) (len : nat) (type code : Z)
    (iface_struct : iface_entry) : option (bytes * nat) :=
  let new_packet_len :=
    if type =? ICMP_TYPE_ECHO_REPLY then len
    else (sizeof_eth_hdr + sizeof_ip_hdr + sizeof_icmp_hdr + 4 + sizeof_ip_hdr + 8)%nat in
  let icmp_payload_len :=
    if type =? ICMP_TYPE_ECHO_REPLY
    then (new_packet_len - (sizeof_eth_hdr + sizeof_ip_hdr + sizeof_icmp_hdr))%nat
    else (4 + sizeof_ip_hdr + 8)%nat in
  let p := calloc new_packet_len in
  payload ← icmp_payload src_packet len type;
  p ← populate_icmp p get_icmp_hdr type code payload;
  p ← fill_icmp_checksum p get_icmp_hdr icmp_payload_len;
  src ← ip_src src_packet get_ip_hdr;
  dst ← ip_dst src_packet get_ip_hdr;
  p ← populate_ip p get_ip_hdr (Z.of_nat (sizeof_icmp_hdr + icmp_payload_len)) IP_PROTO_ICMP
        (if reply_from_dst type code then dst else if_ip iface_struct) src;
  p ← fill_ip_checksum p get_ip_hdr;
  p ← populate_eth_hdr p 0 None (if_addr iface_struct) ETH_TYPE_IP;
  Some (p, new_packet_len).

(** Returns 1 when there is no route back to the source of the packet. *)
Definition send_icmp_packet (src_packet : bytes) (len : nat) (type code : Z) : M Z :=
  rs ← get_rs;
  src ← mem (ip_src src_packet get_ip_hdr);
  match get_next_hop IF_LEN rs src with
  | None => mret 1
  | Some (next_hop, iface) =>
      assert_ (match get_iface rs iface with Some _ => true | None => false end);;
      iface_struct ← deref (get_iface rs iface);
      '(new_packet, new_packet_len) ← mem (build_icmp_packet src_packet len type code iface_struct);
      send_ip new_packet new_packet_len next_hop (if_name iface_struct)
  end.

(** An echo request with an identifier and 56 bytes of padding. *)
Definition build_echo_request (dst id : Z) (iface_struct : iface_entry) : option bytes :=
  let icmp_payload_len := 60%nat in
  let p := calloc (sizeof_eth_hdr + sizeof_ip_hdr + sizeof_icmp_hdr + icmp_payload_len) in
  icmp_payload ← put16 (calloc icmp_payload_len) 0 id;
  icmp_payload ← populate_padding icmp_payload 4 (icmp_payload_len - 4) 1;
  p ← populate_icmp p get_icmp_hdr ICMP_TYPE_ECHO_REQUEST ICMP_CODE_ECHO icmp_payload;
  p ← fill_icmp_checksum p get_icmp_hdr icmp_payload_len;
  p ← populate_ip p get_ip_hdr (Z.of_nat (sizeof_icmp_hdr + icmp_payload_len)) IP_PROTO_ICMP
        (if_ip iface_struct) dst;
  p ← fill_ip_checksum p get_ip_hdr;
  populate_eth_hdr p 0 None (if_addr iface_struct) ETH_TYPE_IP.

Definition send_icmp_echo_request_packet (dst id : Z) : M Z :=
  rs ← get_rs;
  match get_next_hop IF_LEN rs dst with
  | None => mret 1
  | Some (next_hop, iface) =>
      iface_struct ← deref (get_iface rs iface);
      packet ← mem (build_echo_request dst id iface_struct);
      send_ip packet (length packet) next_hop (if_name iface_struct)
  end.

(** ** Receiving *)

Definition process_icmp_echo_reply_packet (packet : bytes) (len : nat) : M Z :=
  data ← mem (get_range packet 0 len);
  now ← time;
  lock_mutex_sping_queue;;
  modify_rs (fun rs => set_sping_queue (sping_queue rs ++ [mk_sping_queue_entry data len now]) rs);;
  signal C_sping;;
  unlock_mutex_sping_queue;;
  mret 1.

Definition process_icmp_packet (packet : bytes) (len : nat) : M unit :=
  type ← mem (icmp_type packet get_icmp_hdr);
  (if type =? ICMP_TYPE_ECHO_REQUEST then
     _ ← send_icmp_packet packet len ICMP_TYPE_ECHO_REPLY ICMP_CODE_ECHO; mret tt
   else mret tt);;
  (if type =? ICMP_TYPE_ECHO_REPLY then
     _ ← process_icmp_echo_reply_packet packet len; mret tt
   else mret tt).

(** ** The retry queue (or_arp.c) *)

(** An ICMP error is sent for a packet that is not itself an ICMP error, unless
    it comes from the router. *)
Definition wants_icmp_error (rs : router_state) (packet : bytes) : option bool :=
  proto ← ip_p packet get_ip_hdr;
  answer ← (if negb (proto =? IP_PROTO_ICMP) then Some true
            else type ← icmp_type packet get_icmp_hdr;
                 Some ((type =? ICMP_TYPE_ECHO_REPLY) || (type =? ICMP_TYPE_ECHO_REQUEST)));
  if answer : bool then
    src ← ip_src packet get_ip_hdr;
    Some (negb (iface_match_ip rs src))
  else Some false.

(** [if (ip->ip_ttl < 255) { ip->ip_ttl++; ... }], with the checksum. *)
Definition restore_ttl (packet : bytes) : option bytes :=
  ttl ← ip_ttl packet get_ip_hdr;
  if ttl <? 255 then
    packet ← set_ip_ttl packet get_ip_hdr (ttl + 1);
    packet ← set_ip_sum packet get_ip_hdr 0;
    fill_ip_checksum packet get_ip_hdr
  else Some packet.

(** The loop over the packets of the entry at position [n]. The packet is
    changed in place; it is removed from the entry after the error was sent,
    and [next_packet_node] is read then. *)
Fixpoint bounce_packets (fuel : nat) (n : nat) : M unit :=
  match fuel with
  | O => fail OutOfFuel
  | S fuel' =>
      rs ← get_rs;
      match arp_queue rs !! n with
      | None => mret tt
      | Some aqe =>
          match aq_head aqe with
          | [] => mret tt
          | aqpe :: _ =>
              wants ← mem (wants_icmp_error rs (qp_packet aqpe));
              (if wants : bool then
                 packet ← mem (restore_ttl (qp_packet aqpe));
                 _ ← send_icmp_packet packet (qp_len aqpe) ICMP_TYPE_DESTINATION_UNREACHABLE
                       ICMP_CODE_HOST_UNREACHABLE;
                 mret tt
               else mret tt);;
              modify_rs (fun rs => set_arp_queue
                (alter (fun aqe => set_aq_head (tail (aq_head aqe)) aqe) n (arp_queue rs)) rs);;
              bounce_packets fuel' n
          end
      end
  end.

(** One more request, sent at time [now]. *)
Definition retry_entry (now : Z) (aqe : arp_queue_entry) : arp_queue_entry :=
  mk_arp_queue_entry (aq_out_iface_name aqe) (aq_next_hop aqe) (aq_requests aqe + 1) now
    (aq_head aqe).

(** The loop over the entries, from position [n]; [next] is read before the
    entry is handled, so an entry queued by an error is visited unless the
    current one was the last. *)
Fixpoint process_arp_queue_loop (fuel fuel_packets : nat) (n : nat) : M unit :=
  match fuel with
  | O => fail OutOfFuel
  | S fuel' =>
      rs ← get_rs;
      match arp_queue rs !! n with
      | None => mret tt
      | Some aqe =>
          let last := (S n =? length (arp_queue rs))%nat in
          now ← time;
          removed ←
            (if 1 <? now - aq_last_req_time aqe then
               if aq_requests aqe <? 5 then
                 now' ← time;
                 modify_rs (fun rs => set_arp_queue (alter (retry_entry now') n (arp_queue rs)) rs);;
                 send_arp_request (aq_next_hop aqe) (aq_out_iface_name aqe);;
                 mret false
               else
                 bounce_packets fuel_packets n;;
                 modify_rs (fun rs => set_arp_queue (delete n (arp_queue rs)) rs);;
                 mret true
             else mret false);
          if last then mret tt
          else process_arp_queue_loop fuel' fuel_packets (if removed : bool then n else S n)
      end
  end.

(** Fuel: every entry and, for each packet bounced, the entry its error may
    create are visited at most once; an entry drains its packets and the errors
    queued on it meanwhile. *)
Definition process_arp_queue : M unit :=
  rs ← get_rs;
  let fuel := (2 * queue_fuel (arp_queue rs))%nat in
  process_arp_queue_loop fuel fuel 0.

(** One round of [arp_thread]. *)
Definition arp_thread_round : M unit :=
  lock_arp_cache_wr;;
  expire_arp_cache;;
  unlock_arp_cache;;
  lock_arp_cache_rd;;
  lock_arp_queue_wr;;
  lock_if_list_rd;;
  lock_rtable_rd;;
  process_arp_queue;;
  unlock_rtable;;
  unlock_if_list;;
  unlock_arp_queue;;
  unlock_arp_cache.

(** ** Lemmas: the packets built *)

(** An ICMP message in an Ethernet frame whose destination address is still
    zero: the header and message checksums are [ipc] and [icmpc]. *)
Definition icmp_frame (shost : bytes) (ipc src dst type code icmpc : Z) (payload : bytes) : bytes :=
  calloc 6 ++ shost ++ half_bytes (htons ETH_TYPE_IP)
  ++ ip_header (Z.of_nat (sizeof_icmp_hdr + length payload)) IP_PROTO_ICMP src dst ipc
  ++ [u8 type; u8 code] ++ half_bytes icmpc ++ payload.

(** What both builders do once the payload and the addresses are known. *)
Definition icmp_packet (payload : bytes) (type code src dst : Z) (shost : bytes) : option bytes :=
  p ← populate_icmp (calloc (38 + length payload)) get_icmp_hdr type code payload;
  p ← fill_icmp_checksum p get_icmp_hdr (length payload);
  p ← populate_ip p get_ip_hdr (Z.of_nat (sizeof_icmp_hdr + length payload)) IP_PROTO_ICMP src dst;
  p ← fill_ip_checksum p get_ip_hdr;
  populate_eth_hdr p 0 None shost ETH_TYPE_IP.

Lemma get_icmp_hdr_calloc : get_icmp_hdr = length (calloc 34).
Proof. done. Qed.
Lemma get_ip_hdr_calloc : get_ip_hdr = length (calloc 14).
Proof. done. Qed.

Lemma checksummed_prefix (a a' b : bytes) o n : length a = length a' -> (length a <= o)%nat ->
  checksummed (a ++ b) o n -> checksummed (a' ++ b) o n.
Proof.
  intros Hl Ho. apply checksummed_ext. intros i Hi. rewrite !lookup_app_r by lia. by rewrite Hl.
Qed.

Lemma icmp_packet_layout payload type code src dst shost :
  is_bytes payload -> Z.of_nat (length payload) <= 65000 -> length shost = ETH_ADDR_LEN ->
  exists ipc icmpc, let p := icmp_frame shost ipc src dst type code icmpc payload in
    icmp_packet payload type code src dst shost = Some p /\ checksummed p get_ip_hdr 20 /\
    checksummed p get_icmp_hdr (2 * ((sizeof_icmp_hdr + length payload) / 2)).
Proof.
  intros Hp Hl Hs. unfold icmp_packet.
  assert (calloc (38 + length payload) = calloc 34 ++ calloc 4 ++ calloc (length payload)) as ->
    by (by rewrite <- !calloc_app).
  rewrite get_icmp_hdr_calloc.
  rewrite populate_icmp_app by (done || (unfold calloc; by rewrite length_replicate)).
  rewrite opt_bind_Some. set (p1 := calloc 34 ++ _ ++ payload).
  assert (is_bytes p1) as Hp1.
  { unfold p1, is_bytes. rewrite !Forall_app. split_and!; [apply calloc_bytes| |done].
    repeat apply Forall_cons_2; try apply Forall_nil_2; try apply u8_range; unfold is_u8; lia. }
  destruct (fill_icmp_checksum_spec p1 (length (calloc 34)) (length payload)) as (c & p2 & -> & E & H2).
  { done. } { unfold p1. rewrite !length_app. simpl. lia. } { lia. }
  unfold p1 in E. rewrite put_icmp_sum in E. apply (inj Some) in E as <-.
  rewrite opt_bind_Some.
  rewrite get_ip_hdr_calloc, (calloc_app 14 20 : calloc 34 = _), <- app_assoc, populate_ip_app by done.
  rewrite opt_bind_Some. set (p3 := calloc 14 ++ _).
  assert (is_bytes p3) as Hp3.
  { unfold p3, is_bytes. rewrite !Forall_app. split_and!;
      [apply calloc_bytes|apply ip_header_bytes| |apply half_bytes_is_bytes|done].
    repeat constructor; apply u8_range. }
  destruct (fill_ip_checksum_spec p3 (length (calloc 14))) as (ipc & p4 & -> & E & H4).
  { done. } { done. } { unfold p3. rewrite !length_app, ip_header_length. simpl. lia. }
  unfold p3 in E. rewrite put_ip_sum in E. apply (inj Some) in E as <-. rewrite opt_bind_Some.
  exists ipc, c. cbv zeta. rewrite (calloc_app 6 8 : calloc 14 = _) at 1.
  rewrite <- app_assoc, populate_eth_app by done. split_and!; [done| |].
  - unfold icmp_frame. rewrite (app_assoc shost), (app_assoc (calloc 6)).
    eapply (checksummed_prefix (calloc 14)); [|apply le_n|exact H4].
    rewrite !length_app, Hs. reflexivity.
  - unfold icmp_frame.
    rewrite (app_assoc (half_bytes _)), (app_assoc shost), (app_assoc (calloc 6)).
    eapply (checksummed_prefix (calloc 34)); [|apply le_n|exact H2].
    rewrite !length_app, Hs. reflexivity.
Qed.

Lemma icmp_payload_total src_packet len type :
  is_bytes src_packet ->
  (if type =? ICMP_TYPE_ECHO_REPLY then (38 <= len <= length src_packet)%nat
   else (42 <= length src_packet)%nat) ->
  exists payload, icmp_payload src_packet len type = Some payload /\ is_bytes payload /\
    length payload = (if (type =? ICMP_TYPE_ECHO_REPLY)%Z then len - 38 else 32)%nat.
Proof.
  intros Hp Hl. unfold icmp_payload. destruct (type =? ICMP_TYPE_ECHO_REPLY).
  - destruct (get_range src_packet (get_icmp_hdr + sizeof_icmp_hdr)
      (len - (sizeof_eth_hdr + sizeof_ip_hdr + sizeof_icmp_hdr))) as [bs|] eqn:E.
    + exists bs. split_and!; [done|by eapply get_range_bytes|].
      by apply get_range_length in E.
    + unfold get_range in E. destruct (Nat.leb_spec (get_icmp_hdr + sizeof_icmp_hdr +
        (len - (sizeof_eth_hdr + sizeof_ip_hdr + sizeof_icmp_hdr))) (length src_packet)); [done|].
      change (get_icmp_hdr + sizeof_icmp_hdr)%nat with 38%nat in *.
      change (sizeof_eth_hdr + sizeof_ip_hdr + sizeof_icmp_hdr)%nat with 38%nat in *. lia.
  - destruct (get_range src_packet get_ip_hdr (sizeof_ip_hdr + 8)) as [bs|] eqn:E.
    + exists (calloc 4 ++ bs). split_and!; [done| |].
      * unfold is_bytes. rewrite Forall_app. split; [apply calloc_bytes|by eapply get_range_bytes].
      * rewrite length_app. by rewrite (get_range_length _ _ _ _ E).
    + unfold get_range in E. change (get_ip_hdr + (sizeof_ip_hdr + 8))%nat with 42%nat in E.
      destruct (Nat.leb_spec 42 (length src_packet)); [done|lia].
Qed.

(** The packet that answers another, for an error or an echo reply. *)
Lemma build_icmp_packet_spec src_packet len type code ie src dst payload :
  length (if_addr ie) = ETH_ADDR_LEN -> is_bytes payload -> Z.of_nat (length payload) <= 65000 ->
  ip_src src_packet get_ip_hdr = Some src -> ip_dst src_packet get_ip_hdr = Some dst ->
  icmp_payload src_packet len type = Some payload ->
  length payload = (if (type =? ICMP_TYPE_ECHO_REPLY)%Z then len - 38 else 32)%nat ->
  (type = ICMP_TYPE_ECHO_REPLY -> (38 <= len)%nat) ->
  exists ipc icmpc,
    let p := icmp_frame (if_addr ie) ipc (if reply_from_dst type code then dst else if_ip ie) src
               type code icmpc payload in
    build_icmp_packet src_packet len type code ie = Some (p, (38 + length payload)%nat) /\
    checksummed p get_ip_hdr 20 /\
    checksummed p get_icmp_hdr (2 * ((sizeof_icmp_hdr + length payload) / 2)).
Proof.
  intros Ha Hp Hn Hsrc Hdst Hpay Hlen Hge.
  destruct (icmp_packet_layout payload type code
    (if reply_from_dst type code then dst else if_ip ie) src (if_addr ie))
    as (ipc & icmpc & E & H1 & H2); [done..|].
  exists ipc, icmpc. split_and!; [|done|done]. unfold build_icmp_packet. cbv zeta.
  rewrite Hpay, opt_bind_Some.
  assert ((if (type =? ICMP_TYPE_ECHO_REPLY)%Z then len
    else sizeof_eth_hdr + sizeof_ip_hdr + sizeof_icmp_hdr + 4 + sizeof_ip_hdr + 8)%nat
    = (38 + length payload)%nat) as ->.
  { rewrite Hlen. destruct (Z.eqb_spec type ICMP_TYPE_ECHO_REPLY) as [->|]; [|done].
    specialize (Hge eq_refl). lia. }
  assert ((if (type =? ICMP_TYPE_ECHO_REPLY)%Z
    then 38 + length payload - (sizeof_eth_hdr + sizeof_ip_hdr + sizeof_icmp_hdr)
    else 4 + sizeof_ip_hdr + 8)%nat = length payload) as ->.
  { change (sizeof_eth_hdr + sizeof_ip_hdr + sizeof_icmp_hdr)%nat with 38%nat.
    change (4 + sizeof_ip_hdr + 8)%nat with 32%nat.
    destruct (type =? ICMP_TYPE_ECHO_REPLY); lia. }
  unfold icmp_packet in E.
  apply bind_Some_inv in E as (p1 & E1 & E). rewrite E1, opt_bind_Some.
  apply bind_Some_inv in E as (p2 & E2 & E). rewrite E2, opt_bind_Some.
  rewrite Hsrc, opt_bind_Some, Hdst, opt_bind_Some.
  apply bind_Some_inv in E as (p3 & E3 & E). rewrite E3, opt_bind_Some.
  apply bind_Some_inv in E as (p4 & E4 & E). rewrite E4, opt_bind_Some.
  by rewrite E, opt_bind_Some.
Qed.

Lemma icmp_frame_length shost ipc src dst type code icmpc payload :
  length shost = ETH_ADDR_LEN ->
  length (icmp_frame shost ipc src dst type code icmpc payload) = (38 + length payload)%nat.
Proof. intros H. unfold icmp_frame. rewrite !length_app, H. reflexivity. Qed.

(** What the router needs to answer [src]: a route back through an interface
    with a proper address, and the next hop in the ARP cache. *)
Record answerable (rs : router_state) (src : Z) (ie : iface_entry) (ace : arp_cache_entry) : Prop := {
  ans_route : exists next_hop iface, get_next_hop IF_LEN rs src = Some (next_hop, iface) /\
    get_iface rs iface = Some ie /\ in_arp_cache rs next_hop = Some ace;
  ans_addr : length (if_addr ie) = ETH_ADDR_LEN;
  ans_mac : length (ac_ha ace) = ETH_ADDR_LEN
}.

Lemma send_icmp_packet_spec src_packet len type code src dst ie ace w :
  is_bytes src_packet ->
  (if type =? ICMP_TYPE_ECHO_REPLY then (38 <= len <= length src_packet)%nat
   else (42 <= length src_packet)%nat) ->
  Z.of_nat len <= 65000 ->
  ip_src src_packet get_ip_hdr = Some src -> ip_dst src_packet get_ip_hdr = Some dst ->
  answerable (w_rs w) src ie ace ->
  exists ipc icmpc payload,
    let p := icmp_frame (if_addr ie) ipc (if reply_from_dst type code then dst else if_ip ie) src
               type code icmpc payload in
    send_icmp_packet src_packet len type code w =
      Done (if env_output (w_env w) (w_tick w) =? 0 then 0 else 1)
        (sent w (with_dhost p (ac_ha ace)) (length p) (if_name ie)) /\
    icmp_payload src_packet len type = Some payload /\
    checksummed p get_ip_hdr 20 /\
    checksummed p get_icmp_hdr (2 * ((sizeof_icmp_hdr + length payload) / 2)).
Proof.
  intros Hp Hl Hlen Hsrc Hdst [(nh & ifc & Hr & Hi & Hc) Ha Hm].
  destruct (icmp_payload_total src_packet len type) as (payload & Hpay & Hb & Hn); [done..|].
  destruct (build_icmp_packet_spec src_packet len type code ie src dst payload)
    as (ipc & icmpc & E & H1 & H2); [done..| |done|done|done|done| |].
  { destruct (type =? ICMP_TYPE_ECHO_REPLY); lia. }
  { intros ->. cbn in Hl. lia. }
  exists ipc, icmpc, payload. split_and!; [|done..].
  unfold send_icmp_packet. rewrite (bind_done _ _ w (w_rs w) w) by done.
  rewrite Hsrc, (bind_done _ _ w src w) by done. rewrite Hr, Hi.
  rewrite (bind_done _ _ w tt w) by done. rewrite (bind_done _ _ w ie w) by done.
  cbv zeta in E. rewrite E. erewrite bind_done by reflexivity. cbv beta iota.
  pose proof (icmp_frame_length (if_addr ie) ipc
    (if reply_from_dst type code then dst else if_ip ie) src type code icmpc payload Ha) as HL.
  cbv zeta. rewrite HL. apply (send_ip_hit _ _ _ _ _ ace); [done|done|]. rewrite HL. lia.
Qed.

Lemma send_icmp_error_spec src_packet len type code src dst ie ace w :
  is_bytes src_packet -> (42 <= length src_packet)%nat -> Z.of_nat len <= 65000 ->
  type ≠ ICMP_TYPE_ECHO_REPLY ->
  ip_src src_packet get_ip_hdr = Some src -> ip_dst src_packet get_ip_hdr = Some dst ->
  answerable (w_rs w) src ie ace ->
  exists ipc icmpc data r,
    let p := icmp_frame (if_addr ie) ipc (if reply_from_dst type code then dst else if_ip ie) src
               type code icmpc (calloc 4 ++ data) in
    send_icmp_packet src_packet len type code w =
      Done r (sent w (with_dhost p (ac_ha ace)) 70 (if_name ie)) /\
    get_range src_packet get_ip_hdr 28 = Some data /\
    checksummed p get_ip_hdr 20 /\ checksummed p get_icmp_hdr 36.
Proof.
  intros Hp Hl Hlen Ht Hsrc Hdst Ha. apply Z.eqb_neq in Ht.
  destruct (send_icmp_packet_spec src_packet len type code src dst ie ace w)
    as (ipc & icmpc & payload & E & Hpay & H1 & H2); [done| |done..|].
  { by rewrite Ht. }
  unfold icmp_payload in Hpay. rewrite Ht in Hpay.
  apply bind_Some_inv in Hpay as (data & Hd & Hpay). apply (inj Some) in Hpay as <-.
  pose proof (get_range_length _ _ _ _ Hd) as Hdl.
  assert (length (calloc 4 ++ data) = 32%nat) as Hn by (rewrite length_app, Hdl; done).
  rewrite Hn in H2. change (2 * ((sizeof_icmp_hdr + 32) / 2))%nat with 36%nat in H2.
  exists ipc, icmpc, data. eexists. cbv zeta in *. split_and!; [|exact Hd|done|done].
  rewrite E, icmp_frame_length, Hn by apply Ha. reflexivity.
Qed.

(** C38: An ICMP error goes to the source of the offending packet when the
    router has a route and an ARP entry for it: one frame, with valid IP and
    ICMP checksums, whose payload is four zero bytes, the IP header and the
    first eight bytes after it; it comes from the interface's address, or from
    the address the packet was sent to when the error is a closed port. *)
Theorem send_icmp_error_correct src_packet len type code src dst ie ace w :
  is_bytes src_packet -> (42 <= length src_packet)%nat -> Z.of_nat len <= 65000 ->
  type ≠ ICMP_TYPE_ECHO_REPLY ->
  ip_src src_packet get_ip_hdr = Some src -> ip_dst src_packet get_ip_hdr = Some dst ->
  answerable (w_rs w) src ie ace ->
  exists ipc icmpc data r,
    let p := icmp_frame (if_addr ie) ipc (if reply_from_dst type code then dst else if_ip ie) src
               type code icmpc (calloc 4 ++ data) in
    send_icmp_packet src_packet len type code w =
      Done r (sent w (with_dhost p (ac_ha ace)) 70 (if_name ie)) /\
    get_range src_packet get_ip_hdr 28 = Some data /\
    checksummed p get_ip_hdr 20 /\ checksummed p get_icmp_hdr 36.
Proof. apply send_icmp_error_spec. Qed.

(** ** The retry queue *)

(** An entry whose last request is more than a second old at time [t]. *)
Definition stale (t : Z) (e : arp_queue_entry) : bool := 1 <? t - aq_last_req_time e.

(** An entry after the pass: a stale one has made one more request, at [t]. *)
Definition retried (t : Z) (e : arp_queue_entry) : arp_queue_entry :=
  if stale t e
  then mk_arp_queue_entry (aq_out_iface_name e) (aq_next_hop e) (aq_requests e + 1) t (aq_head e)
  else e.

(** The request sent for a stale entry. *)
Definition retry_events (rs : router_state) (t : Z) (e : arp_queue_entry) : list event :=
  if stale t e then
    match get_interface rs (aq_out_iface_name e) with
    | Some inter =>
        send_events (arp_frame ETH_BROADCAST (if_addr inter) ARP_OP_REQUEST (if_addr inter)
                       (if_ip inter) (calloc 6) (aq_next_hop e)) ARP_FRAME_LEN (aq_out_iface_name e)
    | None => []
    end
  else [].

(** The interface of an entry exists. *)
Definition has_iface (rs : router_state) (e : arp_queue_entry) : Prop :=
  exists inter, get_interface rs (aq_out_iface_name e) = Some inter /\
    length (if_addr inter) = ETH_ADDR_LEN.

Lemma process_arp_queue_loop_retry fuel fp t q1 q2 w :
  arp_queue (w_rs w) = q1 ++ q2 -> (forall k, env_time (w_env w) k = t) ->
  (forall e, e ∈ q2 -> stale t e = true -> aq_requests e < 5) ->
  (forall e, e ∈ q2 -> has_iface (w_rs w) e) -> (length q2 < fuel)%nat ->
  exists w', process_arp_queue_loop fuel fp (length q1) w = Done tt w' /\
    w_rs w' = set_arp_queue (q1 ++ map (retried t) q2) (w_rs w) /\
    w_trace w' = w_trace w ++ concat (map (retry_events (w_rs w) t) q2).
Proof.
  revert q1 q2 w. induction fuel as [|fuel IH]; intros q1 q2 w Hq Ht Hr Hi Hf; [lia|].
  cbn [process_arp_queue_loop]. erewrite bind_done by reflexivity. rewrite Hq.
  destruct q2 as [|e q2].
  { rewrite app_nil_r, lookup_ge_None_2 by lia. exists w. split; [done|].
    cbn [map concat]. rewrite !app_nil_r. rewrite app_nil_r in Hq. rewrite <- Hq.
    split; [by destruct (w_rs w)|done]. }
  rewrite lookup_middle. erewrite bind_done by reflexivity. rewrite Ht.
  assert (forall removed w1, removed = false ->
    w_rs w1 = set_arp_queue (q1 ++ retried t e :: q2) (w_rs w) -> w_env w1 = w_env w ->
    w_trace w1 = w_trace w ++ retry_events (w_rs w) t e ->
    exists w', (if (S (length q1) =? length (q1 ++ e :: q2))%nat then mret tt
      else process_arp_queue_loop fuel fp (if removed : bool then length q1 else S (length q1))) w1
      = Done tt w' /\
      w_rs w' = set_arp_queue (q1 ++ map (retried t) (e :: q2)) (w_rs w) /\
      w_trace w' = w_trace w ++ concat (map (retry_events (w_rs w) t) (e :: q2))) as Hnext.
  { intros removed w1 -> R1 V1 T1. destruct (Nat.eqb_spec (S (length q1)) (length (q1 ++ e :: q2))) as [E|E].
    - rewrite length_app in E. simpl in E. destruct q2; [|simpl in E; lia].
      exists w1. split; [done|]. split; [done|]. rewrite T1. cbn [map concat]. by rewrite app_nil_r.
    - replace (S (length q1)) with (length (q1 ++ [retried t e])) by (rewrite length_app; simpl; lia).
      destruct (IH (q1 ++ [retried t e]) q2 w1) as (w2 & E2 & R2 & T2).
      + rewrite R1. cbn [arp_queue set_arp_queue]. by rewrite <- app_assoc.
      + by rewrite V1.
      + intros x Hx. apply Hr. by apply list_elem_of_further.
      + intros x Hx. rewrite R1. apply (Hi x). by apply list_elem_of_further.
      + simpl in Hf. lia.
      + exists w2. split; [done|]. rewrite R2, T2, T1, R1. cbn [map concat]. split.
        * by rewrite <- app_assoc.
        * by rewrite <- app_assoc. }
  fold (stale t e). destruct (stale t e) eqn:Es.
  - assert (aq_requests e <? 5 = true) as ->
      by (apply Z.ltb_lt, Hr; [apply list_elem_of_here|done]).
    destruct (Hi e (list_elem_of_here _ _)) as (inter & Hin & Hlen).
    rewrite bind_assoc. erewrite bind_done by reflexivity. cbn [w_env w_tick]. rewrite Ht.
    rewrite bind_assoc. erewrite bind_done by reflexivity.
    rewrite bind_assoc. erewrite bind_done; [|by apply (send_arp_request_done _ _ _ inter)].
    rewrite (bind_done _ _ _ false _) by reflexivity.
    apply (Hnext false); [done| |done|].
    + cbn [w_rs sent arp_queue]. rewrite Hq, alter_middle. unfold retried. by rewrite Es.
    + unfold retry_events. rewrite Es, Hin. done.
  - rewrite (bind_done _ _ _ false _) by reflexivity.
    apply (Hnext false); [done| |done|].
    + cbn [w_rs]. unfold retried. rewrite Es, <- Hq. by destruct (w_rs w).
    + unfold retry_events. rewrite Es. cbn [w_trace]. by rewrite app_nil_r.
Qed.

(** While no entry has used up its five requests, a pass over the queue
    at time [t] broadcasts one more request for every next hop that has not
    answered for more than a second, in the order of the queue, counts it, and
    keeps every entry with its packets; it ends within the fuel of the queue. *)
Theorem process_arp_queue_retries t w :
  (forall k, env_time (w_env w) k = t) ->
  (forall e, e ∈ arp_queue (w_rs w) -> stale t e = true -> aq_requests e < 5) ->
  (forall e, e ∈ arp_queue (w_rs w) -> has_iface (w_rs w) e) ->
  exists w', process_arp_queue w = Done tt w' /\
    w_rs w' = set_arp_queue (map (retried t) (arp_queue (w_rs w))) (w_rs w) /\
    w_trace w' = w_trace w ++ concat (map (retry_events (w_rs w) t) (arp_queue (w_rs w))).
Proof.
  intros Ht Hr Hi. unfold process_arp_queue. erewrite bind_done by reflexivity. cbv zeta.
  apply (process_arp_queue_loop_retry _ _ t [] (arp_queue (w_rs w)) w); try done.
  unfold queue_fuel. lia.
Qed.
