(* ===== verification/Dijkstra.v ===== *)
(** or_dijkstra.c: the shortest-path computation over the routers learnt from
    link state updates, the routes built from it, and one round of
    [dijkstra_thread], which replaces the dynamic routes of the routing table.

    A pointer to a router of the list is the position of the router in the
    list, except for [prev_router], which outlives the computation: it is the
    address of the object, and reading through it after the router was removed
    from the list is [UseAfterFree]. *)

From S2P Require Import Prelude Words Bytes State CStrings Sorting Netfpga Rtable Iface.
Local Open Scope Z_scope.

Definition lock_mutex_pwospf_router_list : M unit := acquire L_router_list Mutex.
Definition unlock_mutex_pwospf_router_list : M unit := release L_router_list.

Definition INFINITE_DISTANCE : Z := 4294967295. (* 0xFFFFFFFF *)

(** ** Updates of a router *)

Definition set_pr_distance_found (d : Z) (found : bool) (r : pwospf_router) : pwospf_router :=
  mk_pwospf_router (pr_addr r) (pr_router_id r) (pr_area_id r) (pr_seq r) (pr_last_update r)
    d found (pr_interface_list r) (pr_prev_router r).

Definition set_pr_found (r : pwospf_router) : pwospf_router :=
  set_pr_distance_found (pr_distance r) true r.

Definition set_pr_prev (d : Z) (prev : nat) (r : pwospf_router) : pwospf_router :=
  mk_pwospf_router (pr_addr r) (pr_router_id r) (pr_area_id r) (pr_seq r) (pr_last_update r)
    d (pr_shortest_path_found r) (pr_interface_list r) (Some prev).

(** ** Shortest paths *)

Definition init_distance (our_router_id : Z) (r : pwospf_router) : pwospf_router :=
  if pr_router_id r =? our_router_id then set_pr_distance_found 0 true r
  else if negb (pr_router_id r =? 0) then set_pr_distance_found INFINITE_DISTANCE false r
  else r.

Definition get_router_by_rid (rid : Z) (l : list pwospf_router) : option nat :=
  find_index (fun r => pr_router_id r =? rid) l.

Fixpoint get_shortest_loop (l : list pwospf_router) (i : nat) (shortest_router : option nat)
    (shortest_distance : Z) : option nat :=
  match l with
  | [] => shortest_router
  | r :: l' =>
      if negb (pr_shortest_path_found r) && (pr_distance r <? shortest_distance)
      then get_shortest_loop l' (S i) (Some i) (pr_distance r)
      else get_shortest_loop l' (S i) shortest_router shortest_distance
  end.

Definition get_shortest (l : list pwospf_router) : option nat :=
  get_shortest_loop l 0 None INFINITE_DISTANCE.

(** One interface [i] of the router at position [w]. *)
Definition relax (w : nat) (l : list pwospf_router) (i : pwospf_interface)
    : list pwospf_router :=
  if negb (pi_router_id i =? 0) && pi_is_active i then
    match l !! w, get_router_by_rid (pi_router_id i) l with
    | Some rw, Some v =>
        match l !! v with
        | Some rv =>
            if negb (pr_shortest_path_found rv) && (u32 (pr_distance rw + 1) <? pr_distance rv)
            then alter (set_pr_prev (u32 (pr_distance rw + 1)) (pr_addr rw)) v l
            else l
        | None => l
        end
    | _, _ => l
    end
  else l.

Definition update_neighbor_distance (w : nat) (l : list pwospf_router) : list pwospf_router :=
  match l !! w with
  | Some rw => foldl (relax w) l (pr_interface_list rw)
  | None => l
  end.

Fixpoint dijkstra_loop (fuel : nat) (r_shortest : option nat) (l : list pwospf_router)
    : option (list pwospf_router) :=
  match r_shortest with
  | None => Some l
  | Some w =>
      match fuel with
      | O => None
      | S fuel' =>
          let l := alter set_pr_found w l in
          let l := update_neighbor_distance w l in
          dijkstra_loop fuel' (get_shortest l) l
      end
  end.

(** The first part of [compute_rtable]. *)
Definition shortest_paths (our_router_id : Z) (l : list pwospf_router)
    : option (list pwospf_router) :=
  let l := map (init_distance our_router_id) l in
  dijkstra_loop (S (length l)) (get_router_by_rid our_router_id l) l.

(** ** The routes *)

Record route_wrapper := mk_route_wrapper {
  rw_ip : Z;
  rw_mask : Z;
  rw_distance : Z;             (* uint16_t *)
  rw_next_rid : Z;
  rw_directly_connected : bool
}.

Definition get_route_wrapper (head : list route_wrapper) (subnet mask : Z) : option nat :=
  find_index (fun w => (rw_ip w =? Z.land subnet mask) && (rw_mask w =? mask)) head.

(** A router by its address. *)
Definition router_at (l : list pwospf_router) (addr : nat) : res pwospf_router :=
  res_of UseAfterFree (find_first (fun r => (pr_addr r =? addr)%nat) l).

(** [while (cur_router->prev_router->distance != 0) cur_router = cur_router->prev_router;] *)
Fixpoint walk_prev (fuel : nat) (l : list pwospf_router) (cur_router : pwospf_router)
    : res pwospf_router :=
  match fuel with
  | O => inl OutOfFuel
  | S fuel' =>
      prev_addr ← res_of NullDeref (pr_prev_router cur_router);
      prev ← router_at l prev_addr;
      if pr_distance prev =? 0 then mret cur_router else walk_prev fuel' l prev
  end.

(** The next router on the path from the source to [r], for its interface [i]. *)
Definition next_rid (l : list pwospf_router) (r : pwospf_router) (i : pwospf_interface) : res Z :=
  match pr_prev_router r with
  | None => mret (pi_router_id i)
  | Some _ => cur_router ← walk_prev (S (length l)) l r; mret (pr_router_id cur_router)
  end.

(** One interface of router [r]. *)
Definition add_route_wrapper (our_rid : Z) (l : list pwospf_router) (r : pwospf_router)
    (head : list route_wrapper) (i : pwospf_interface) : res (list route_wrapper) :=
  match get_route_wrapper head (pi_subnet i) (pi_mask i) with
  | Some k =>
      wrapper ← res_of NullDeref (head !! k);
      if rw_distance wrapper <=? pr_distance r then mret head
      else
        next ← next_rid l r i;
        mret (<[k := mk_route_wrapper (rw_ip wrapper) (rw_mask wrapper) (u16 (pr_distance r)) next
                       (if our_rid =? pr_router_id r then true
                        else rw_directly_connected wrapper)]> head)
  | None =>
      next ← next_rid l r i;
      mret (head ++ [mk_route_wrapper (Z.land (pi_subnet i) (pi_mask i)) (pi_mask i)
                       (u16 (pr_distance r)) next (our_rid =? pr_router_id r)])
  end.

Fixpoint add_route_wrappers (our_rid : Z) (l : list pwospf_router) (r : pwospf_router)
    (head : list route_wrapper) (cur : list pwospf_interface) : res (list route_wrapper) :=
  match cur with
  | [] => mret head
  | i :: cur' =>
      head ← add_route_wrapper our_rid l r head i;
      add_route_wrappers our_rid l r head cur'
  end.

Fixpoint build_route_wrapper_list_loop (our_rid : Z) (l cur : list pwospf_router)
    (head : list route_wrapper) : res (list route_wrapper) :=
  match cur with
  | [] => mret head
  | r :: cur' =>
      head ← add_route_wrappers our_rid l r head (pr_interface_list r);
      build_route_wrapper_list_loop our_rid l cur' head
  end.

Definition build_route_wrapper_list (our_rid : Z) (l : list pwospf_router)
    : res (list route_wrapper) := build_route_wrapper_list_loop our_rid l l [].

(** The interface with a neighbour of the given router id. *)
Definition get_iface_by_rid (rid : Z) (if_list : list iface_entry) : option iface_entry :=
  if rid =? 0 then None
  else find_first (fun i => existsb (fun nbr => nbr_router_id nbr =? rid) (if_nbr_routers i)) if_list.

Definition get_iface_by_subnet_mask (subnet mask : Z) (if_list : list iface_entry)
    : option iface_entry :=
  find_first (fun i => (Z.land (if_ip i) (if_mask i) =? subnet) && (if_mask i =? mask)) if_list.

(** The route of a wrapper; [None] when it is skipped. *)
Definition unwrap_route (if_list : list iface_entry) (wrapper : route_wrapper)
    : res (option rtable_entry) :=
  let route iface gw := Some (mk_rtable_entry (rw_ip wrapper) gw (rw_mask wrapper) (if_name iface)
                                false true) in
  match (match get_iface_by_rid (rw_next_rid wrapper) if_list with
         | Some iface => Some iface
         | None => get_iface_by_subnet_mask (rw_ip wrapper) (rw_mask wrapper) if_list
         end) with
  | None => mret None
  | Some iface =>
      if rw_directly_connected wrapper then mret (route iface 0)
      else
        nbr ← res_of AssertFailed (get_nbr_by_rid iface (rw_next_rid wrapper));
        mret (route iface (nbr_ip nbr))
  end.

Fixpoint unwrap_routes (if_list : list iface_entry) (cur : list route_wrapper)
    : res (list rtable_entry) :=
  match cur with
  | [] => mret []
  | wrapper :: cur' =>
      o ← unwrap_route if_list wrapper;
      rest ← unwrap_routes if_list cur';
      mret (match o with Some e => e :: rest | None => rest end)
  end.

(** The routers with their distances, and the dynamic routes. *)
Definition compute_rtable (our_router_id : Z) (l : list pwospf_router) (if_list : list iface_entry)
    : res (list pwospf_router * list rtable_entry) :=
  l ← res_of OutOfFuel (shortest_paths our_router_id l);
  wrappers ← build_route_wrapper_list our_router_id l;
  routes ← unwrap_routes if_list wrappers;
  mret (l, routes).

(** ** The thread *)

Definition dijkstra_trigger : M unit :=
  modify_rs (set_dijkstra_dirty 1);;
  signal C_dijkstra.

(** A round of [dijkstra_thread] after its wait, [timed_out] telling whether
    the wait ended by a signal. The mutex is held throughout. *)
Definition dijkstra_round (timed_out : bool) : M unit :=
  rs ← get_rs;
  if timed_out && (dijkstra_dirty rs =? 0) then mret tt
  else
    modify_rs (set_dijkstra_dirty 0);;
    lock_if_list_rd;;
    lock_rtable_wr;;
    lock_mutex_pwospf_router_list;;
    rs ← get_rs;
    let static_routes := bfilter re_is_static (rtable rs) in
    '(routers, dijkstra_rtable) ←
      lift_res (compute_rtable (router_id rs) (pwospf_router_list rs) (if_list rs));
    put_rs (set_pwospf_router_list routers (set_rtable (static_routes ++ dijkstra_rtable) rs));;
    trigger_rtable_modified;;
    unlock_mutex_pwospf_router_list;;
    unlock_rtable;;
    unlock_if_list.

(** ** The graph

    The routers are the positions of the list; there is an edge to the router
    an active interface leads to. *)

Definition edge (l : list pwospf_router) (u v : nat) : Prop :=
  exists r i, l !! u = Some r /\ i ∈ pr_interface_list r /\ pi_router_id i ≠ 0 /\
    pi_is_active i = true /\ get_router_by_rid (pi_router_id i) l = Some v.

(** [hops l s v n]: there is a path of [n] edges from [s] to [v]. *)
Inductive hops (l : list pwospf_router) (s : nat) : nat -> nat -> Prop :=
  | hops_here : hops l s s 0
  | hops_step u v n : hops l s u n -> edge l u v -> hops l s v (S n).

(** Computations leave everything but distances, marks and predecessors. *)
Definition skeleton (r : pwospf_router) : nat * Z * list pwospf_interface :=
  (pr_addr r, pr_router_id r, pr_interface_list r).

Definition same_graph (l l' : list pwospf_router) : Prop := map skeleton l = map skeleton l'.

Definition dist (l : list pwospf_router) (v : nat) : Z :=
  match l !! v with Some r => pr_distance r | None => INFINITE_DISTANCE end.

Definition found (l : list pwospf_router) (v : nat) : bool :=
  match l !! v with Some r => pr_shortest_path_found r | None => true end.

Definition prev_of (l : list pwospf_router) (v : nat) : option nat :=
  r ← l !! v; pr_prev_router r.

Definition addr_of (l : list pwospf_router) (v : nat) : option nat := pr_addr <$> l !! v.

(** ** Lemmas: the structure *)

Lemma same_graph_lookup l l' v r : same_graph l l' -> l !! v = Some r ->
  exists r', l' !! v = Some r' /\ skeleton r' = skeleton r.
Proof.
  unfold same_graph. intros H Hr.
  assert (map skeleton l' !! v = Some (skeleton r)) as E
    by (rewrite <- H, list_lookup_fmap, Hr; done).
  rewrite list_lookup_fmap in E. apply fmap_Some in E as (r' & Hr' & ->). by exists r'.
Qed.

Lemma same_graph_sym l l' : same_graph l l' -> same_graph l' l.
Proof. unfold same_graph. done. Qed.

Lemma same_graph_trans l l' l'' : same_graph l l' -> same_graph l' l'' -> same_graph l l''.
Proof. unfold same_graph. congruence. Qed.

Lemma same_graph_length l l' : same_graph l l' -> length l = length l'.
Proof.
  intros H. apply (f_equal length) in H. by rewrite !length_map in H.
Qed.

Lemma same_graph_addr l l' v : same_graph l l' -> addr_of l v = addr_of l' v.
Proof.
  intros H. unfold addr_of. destruct (l !! v) as [r|] eqn:E.
  - destruct (same_graph_lookup _ _ _ _ H E) as (r' & -> & Hs). injection Hs as Hs. simpl. congruence.
  - apply lookup_ge_None in E. rewrite (same_graph_length _ _ H) in E.
    by rewrite lookup_ge_None_2.
Qed.

Lemma get_router_by_rid_same l l' rid : same_graph l l' ->
  get_router_by_rid rid l = get_router_by_rid rid l'.
Proof.
  unfold same_graph, get_router_by_rid. revert l'.
  induction l as [|r l IH]; intros [|r' l'] H; try discriminate; [done|].
  cbn [map] in H. injection H as H1 H2 H3 H4. cbn [find_index]. rewrite H2.
  by rewrite (IH l' H4).
Qed.

Lemma edge_same l l' u v : same_graph l l' -> edge l u v -> edge l' u v.
Proof.
  intros H (r & i & Hr & Hi & H1 & H2 & H3).
  destruct (same_graph_lookup _ _ _ _ H Hr) as (r' & Hr' & Hs). injection Hs as _ _ Hs.
  exists r', i. rewrite Hs, <- (get_router_by_rid_same _ _ _ H). done.
Qed.

Lemma same_graph_alter f k l : (forall r, skeleton (f r) = skeleton r) ->
  same_graph l (alter f k l).
Proof.
  intros Hf. unfold same_graph. apply list_eq. intros i. rewrite !list_lookup_fmap.
  destruct (decide (i = k)) as [->|Hne].
  - rewrite list_lookup_alter_eq. destruct (l !! k); simpl; [by rewrite Hf|done].
  - by rewrite list_lookup_alter_ne.
Qed.

Lemma get_router_by_rid_lt rid l v : get_router_by_rid rid l = Some v ->
  exists r, l !! v = Some r /\ pr_router_id r = rid.
Proof.
  intros (l1 & r & l2 & -> & <- & E & _)%find_index_Some. exists r.
  rewrite lookup_middle. split; [done|]. by apply Z.eqb_eq.
Qed.

(** ** Lemmas: the choice of the next router *)

Lemma get_shortest_loop_spec l i sr sd :
  (get_shortest_loop l i sr sd = sr /\
     forall j r, l !! j = Some r -> pr_shortest_path_found r = false -> sd <= pr_distance r) \/
  (exists j r, get_shortest_loop l i sr sd = Some (i + j)%nat /\ l !! j = Some r /\
     pr_shortest_path_found r = false /\ pr_distance r < sd /\
     forall j' r', l !! j' = Some r' -> pr_shortest_path_found r' = false ->
       pr_distance r <= pr_distance r').
Proof.
  revert i sr sd. induction l as [|r l IH]; intros i sr sd; cbn [get_shortest_loop].
  { left. split; [done|]. by intros j r. }
  destruct (pr_shortest_path_found r) eqn:Ef; simpl.
  - destruct (IH (S i) sr sd) as [[-> H]|(j & r1 & -> & H1 & H2 & H3 & H4)].
    + left. split; [done|]. intros [|j] r1 Hr1 Hf; simpl in Hr1; [congruence|eauto].
    + right. exists (S j), r1. split_and!; [f_equal; lia|done..|].
      intros [|j'] r' Hr' Hf; simpl in Hr'; [congruence|eauto].
  - destruct (Z.ltb_spec (pr_distance r) sd) as [Hlt|Hge].
    + right. destruct (IH (S i) (Some i) (pr_distance r)) as [[-> H]|(j & r1 & -> & H1 & H2 & H3 & H4)].
      * exists O, r. split_and!; [f_equal; lia|done..|].
        intros [|j'] r' Hr' Hf; simpl in Hr'; [simplify_eq; lia|eauto].
      * exists (S j), r1. split_and!; [f_equal; lia|done|done|lia|].
        intros [|j'] r' Hr' Hf; simpl in Hr'; [simplify_eq; lia|eauto].
    + destruct (IH (S i) sr sd) as [[-> H]|(j & r1 & -> & H1 & H2 & H3 & H4)].
      * left. split; [done|]. intros [|j] r1 Hr1 Hf; simpl in Hr1; [simplify_eq; lia|eauto].
      * right. exists (S j), r1. split_and!; [f_equal; lia|done..|].
        intros [|j'] r' Hr' Hf; simpl in Hr'; [simplify_eq; lia|eauto].
Qed.

Lemma get_shortest_spec l :
  match get_shortest l with
  | None => forall v, found l v = false -> INFINITE_DISTANCE <= dist l v
  | Some w => (w < length l)%nat /\ found l w = false /\ dist l w < INFINITE_DISTANCE /\
      forall v, found l v = false -> dist l w <= dist l v
  end.
Proof.
  unfold get_shortest, found, dist.
  destruct (get_shortest_loop_spec l 0 None INFINITE_DISTANCE)
    as [[-> H]|(j & r & -> & H1 & H2 & H3 & H4)].
  - intros v. destruct (l !! v) as [r|] eqn:E; [|done]. eauto.
  - simpl. rewrite H1. split_and!; [by eapply lookup_lt_Some|done|done|].
    intros v. destruct (l !! v) as [r'|] eqn:E; [eauto|done].
Qed.

(** ** Lemmas: relaxation *)

(** From [l] to [l'] some routers not yet found got a shorter path through the
    router at [w]. *)
Record relaxed (l l' : list pwospf_router) (w : nat) (dw : Z) : Prop := {
  rx_graph : same_graph l l';
  rx_found : forall v, found l' v = found l v;
  rx_dist : forall v,
    (dist l' v = dist l v /\ prev_of l' v = prev_of l v) \/
    (found l v = false /\ dist l' v = dw + 1 /\ dw + 1 < dist l v /\
     prev_of l' v = addr_of l w /\ edge l w v)
}.

Lemma relaxed_refl l w dw : relaxed l l w dw.
Proof. split; [done|done|auto]. Qed.

Lemma relaxed_trans l1 l2 l3 w dw : relaxed l1 l2 w dw -> relaxed l2 l3 w dw -> relaxed l1 l3 w dw.
Proof.
  intros [G1 F1 D1] [G2 F2 D2]. split.
  - by eapply same_graph_trans.
  - intros v. by rewrite F2, F1.
  - intros v. destruct (D2 v) as [[-> ->]|(H1 & H2 & H3 & H4 & H5)]; [apply D1|].
    right. rewrite F1 in H1. rewrite <- (same_graph_addr _ _ w G1) in H4.
    assert (edge l1 w v) by (eapply edge_same; [by apply same_graph_sym|done]).
    destruct (D1 v) as [[E _]|(_ & E & _)]; [rewrite E in H3; done|lia].
Qed.

Lemma relax_spec w l i rw dw :
  l !! w = Some rw -> pr_distance rw = dw -> 0 <= dw -> dw + 1 < 2 ^ 32 ->
  i ∈ pr_interface_list rw ->
  relaxed l (relax w l i) w dw /\
  (forall v, pi_router_id i ≠ 0 -> pi_is_active i = true ->
     get_router_by_rid (pi_router_id i) l = Some v ->
     found l v = true \/ dist (relax w l i) v <= dw + 1).
Proof.
  intros Hw Hd Hd0 Hlt Hi. unfold relax.
  destruct (Z.eqb_spec (pi_router_id i) 0) as [E0|N0]; simpl.
  { split; [apply relaxed_refl|done]. }
  destruct (pi_is_active i) eqn:Ea; [|split; [apply relaxed_refl|done]].
  rewrite Hw. destruct (get_router_by_rid (pi_router_id i) l) as [v|] eqn:Ev;
    [|split; [apply relaxed_refl|done]].
  destruct (get_router_by_rid_lt _ _ _ Ev) as (rv & Hv & _). rewrite Hv, Hd.
  rewrite u32_id by (unfold is_u32; lia).
  destruct (pr_shortest_path_found rv) eqn:Ef; simpl.
  { split; [apply relaxed_refl|]. intros v' _ _ [= <-]. left. unfold found. by rewrite Hv. }
  destruct (Z.ltb_spec (dw + 1) (pr_distance rv)) as [Hl|Hge].
  2:{ split; [apply relaxed_refl|]. intros v' _ _ [= <-]. right. unfold dist. rewrite Hv. lia. }
  assert (forall v', v' ≠ v -> alter (set_pr_prev (dw + 1) (pr_addr rw)) v l !! v' = l !! v') as Hne
    by (intros v' Hn; by rewrite list_lookup_alter_ne by congruence).
  assert (alter (set_pr_prev (dw + 1) (pr_addr rw)) v l !! v
    = Some (set_pr_prev (dw + 1) (pr_addr rw) rv)) as Heq
    by (rewrite list_lookup_alter_eq, Hv; done).
  split; [split|].
  - by apply same_graph_alter.
  - intros v'. unfold found. destruct (decide (v' = v)) as [->|]; [|by rewrite Hne].
    by rewrite Heq, Hv.
  - intros v'. destruct (decide (v' = v)) as [->|Hn].
    + right. unfold found, dist, prev_of, addr_of. rewrite Heq, Hv, Hw. simpl.
      split_and!; [done..|]. exists rw, i. done.
    + left. unfold dist, prev_of. by rewrite Hne.
  - intros v' _ _ [= <-]. right. unfold dist. rewrite Heq. simpl. lia.
Qed.

Lemma relax_all_spec w l rw dw ifs :
  l !! w = Some rw -> pr_distance rw = dw -> pr_shortest_path_found rw = true ->
  0 <= dw -> dw + 1 < 2 ^ 32 -> (forall i, i ∈ ifs -> i ∈ pr_interface_list rw) ->
  relaxed l (foldl (relax w) l ifs) w dw /\
  (forall i v, i ∈ ifs -> pi_router_id i ≠ 0 -> pi_is_active i = true ->
     get_router_by_rid (pi_router_id i) l = Some v ->
     found l v = true \/ dist (foldl (relax w) l ifs) v <= dw + 1).
Proof.
  revert l rw. induction ifs as [|i ifs IH]; intros l rw Hw Hd Hf Hd0 Hlt Hin; cbn [foldl].
  { split; [apply relaxed_refl|]. by intros i v ?%elem_of_nil. }
  destruct (relax_spec w l i rw dw) as [R1 H1]; [done..|apply Hin, list_elem_of_here|].
  set (l1 := relax w l i) in *.
  destruct (same_graph_lookup _ _ _ _ (rx_graph _ _ _ _ R1) Hw) as (rw1 & Hw1 & Hs1).
  injection Hs1 as _ _ Hil.
  assert (pr_distance rw1 = dw /\ pr_shortest_path_found rw1 = true) as [Hd1 Hf1].
  { pose proof (rx_found _ _ _ _ R1 w) as F. unfold found in F. rewrite Hw1, Hw in F.
    split; [|congruence].
    destruct (rx_dist _ _ _ _ R1 w) as [[D _]|(F' & _)].
    - unfold dist in D. rewrite Hw1, Hw in D. congruence.
    - unfold found in F'. rewrite Hw in F'. congruence. }
  destruct (IH l1 rw1) as [R2 H2]; [done..| |].
  { intros j Hj. rewrite Hil. apply Hin. by apply list_elem_of_further. }
  split; [by eapply relaxed_trans|].
  intros j v [->|Hj]%elem_of_cons Hn Ha Hv.
  - destruct (H1 v Hn Ha Hv) as [?|Hle]; [by left|].
    destruct (rx_dist _ _ _ _ R2 v) as [[D _]|(_ & D & _)]; right; lia.
  - rewrite (get_router_by_rid_same _ l1) in Hv by apply R1.
    destruct (H2 j v Hj Hn Ha Hv) as [F|?]; [|by right]. left. by rewrite <- (rx_found _ _ _ _ R1).
Qed.

(** One iteration for the router at [w]. *)
Lemma update_neighbor_distance_spec w l rw dw :
  l !! w = Some rw -> pr_distance rw = dw -> pr_shortest_path_found rw = true ->
  0 <= dw -> dw + 1 < 2 ^ 32 ->
  relaxed l (update_neighbor_distance w l) w dw /\
  (forall v, edge l w v -> found l v = true \/ dist (update_neighbor_distance w l) v <= dw + 1).
Proof.
  intros Hw Hd Hf Hd0 Hlt. unfold update_neighbor_distance. rewrite Hw.
  destruct (relax_all_spec w l rw dw (pr_interface_list rw)) as [R H]; [done..|].
  split; [done|]. intros v (r & i & Hr & Hi & H1 & H2 & H3).
  rewrite Hw in Hr. injection Hr as <-. by apply (H i).
Qed.

Lemma mark_spec w l rw : l !! w = Some rw ->
  let l' := alter set_pr_found w l in
  same_graph l l' /\ l' !! w = Some (set_pr_found rw) /\
  (forall v, dist l' v = dist l v) /\ (forall v, prev_of l' v = prev_of l v) /\
  (forall v, v ≠ w -> found l' v = found l v) /\ found l' w = true.
Proof.
  intros Hw l'. assert (l' !! w = Some (set_pr_found rw)) as E
    by (unfold l'; rewrite list_lookup_alter_eq, Hw; done).
  assert (forall v, v ≠ w -> l' !! v = l !! v) as N
    by (intros v Hv; unfold l'; by rewrite list_lookup_alter_ne by congruence).
  split_and!; [by apply same_graph_alter|done|..].
  - intros v. unfold dist. destruct (decide (v = w)) as [->|]; [by rewrite E, Hw|by rewrite N].
  - intros v. unfold prev_of. destruct (decide (v = w)) as [->|]; [by rewrite E, Hw|by rewrite N].
  - intros v Hv. unfold found. by rewrite N.
  - unfold found. by rewrite E.
Qed.

(** ** The loop invariant *)

Definition n_found (l : list pwospf_router) : nat := length (bfilter pr_shortest_path_found l).

(** Between two iterations, or, with [pend] a router marked whose interfaces
    are still to be relaxed, within one. *)
Record dijkstra_inv (l : list pwospf_router) (s : nat) (pend : option nat) : Prop := {
  inv_source : (s < length l)%nat /\ found l s = true /\ dist l s = 0;
  inv_range : forall v, 0 <= dist l v <= INFINITE_DISTANCE;
  inv_relaxed : forall u v, found l u = true -> Some u ≠ pend -> edge l u v ->
    dist l v <= dist l u + 1;
  inv_order : forall u v, (u < length l)%nat -> found l u = true -> found l v = false ->
    dist l u <= dist l v;
  inv_prev : forall v, (v < length l)%nat -> v ≠ s -> dist l v < INFINITE_DISTANCE ->
    exists u, found l u = true /\ edge l u v /\ dist l v = dist l u + 1 /\
      prev_of l v = addr_of l u;
  inv_count : forall v, (v < length l)%nat -> dist l v < INFINITE_DISTANCE ->
    dist l v <= Z.of_nat (n_found l)
}.

Lemma found_false_lt l v : found l v = false -> (v < length l)%nat.
Proof. unfold found. destruct (l !! v) eqn:E; [|done]. intros _. by eapply lookup_lt_Some. Qed.

Lemma n_found_same l l' : length l = length l' -> (forall v, found l' v = found l v) ->
  n_found l' = n_found l.
Proof.
  unfold n_found. revert l'. induction l as [|r l IH]; intros [|r' l'] Hl Hf; try discriminate; [done|].
  injection Hl as Hl. pose proof (Hf O) as H0. unfold found in H0. simpl in H0.
  specialize (IH l' Hl (fun v => Hf (S v))). simpl. rewrite H0.
  destruct (pr_shortest_path_found r); simpl; lia.
Qed.

Lemma n_found_mark l w : (w < length l)%nat -> found l w = false ->
  n_found (alter set_pr_found w l) = S (n_found l).
Proof.
  unfold n_found, found. revert w. induction l as [|r l IH]; intros w Hw Hf; [simpl in Hw; lia|].
  destruct w as [|w]; simpl in Hw, Hf.
  - simpl. rewrite Hf. done.
  - change (alter set_pr_found (S w) (r :: l)) with (r :: alter set_pr_found w l).
    cbn [bfilter]. destruct (pr_shortest_path_found r); simpl; rewrite IH by (done || lia); done.
Qed.

Lemma n_found_le l : (n_found l <= length l)%nat.
Proof. apply bfilter_length_le. Qed.

Lemma mark_inv l s w :
  dijkstra_inv l s None -> get_shortest l = Some w ->
  let l1 := alter set_pr_found w l in
  dijkstra_inv l1 s (Some w) /\ same_graph l l1 /\ n_found l1 = S (n_found l) /\
  dist l1 w < Z.of_nat (n_found l1) /\ found l1 w = true /\
  (forall v, found l1 v = false -> dist l1 w <= dist l1 v) /\
  (forall u, (u < length l1)%nat -> found l1 u = true -> dist l1 u <= dist l1 w).
Proof.
  intros [Hs Hr Hx Ho Hp Hc] Hw l1. pose proof (get_shortest_spec l) as H. rewrite Hw in H.
  destruct H as (Hlt & Hf & Hd & Hmin). destruct (lookup_lt_is_Some_2 _ _ Hlt) as [rw Hrw].
  destruct (mark_spec w l rw Hrw) as (G & _ & D & P & F & Fw). fold l1 in G, D, P, F, Fw.
  pose proof (same_graph_length _ _ G) as GL.
  assert (n_found l1 = S (n_found l)) as Hn by (by apply n_found_mark).
  assert (forall v, found l1 v = false -> found l v = false /\ v ≠ w) as Hback.
  { intros v Hv. destruct (decide (v = w)) as [->|Hne]; [congruence|]. by rewrite <- F. }
  split_and!; [split|done|done| |done| |].
  - rewrite <- GL. split_and!; [apply Hs| |rewrite D; apply Hs].
    destruct (decide (s = w)) as [->|]; [done|]. rewrite F by done. apply Hs.
  - intros v. rewrite D. apply Hr.
  - intros u v Hu Hne E. rewrite !D. apply Hx; [|done|by eapply edge_same; [apply same_graph_sym|]].
    rewrite <- F; [done|congruence].
  - intros u v Hu Hfu Hfv. rewrite !D. destruct (Hback v Hfv) as [Hv _].
    destruct (decide (u = w)) as [->|]; [by apply Hmin|].
    apply Ho; [lia| |done]. by rewrite <- F.
  - intros v Hv Hne Hlt'. rewrite D in Hlt'. destruct (Hp v ltac:(lia) Hne Hlt') as (u & U1 & U2 & U3 & U4).
    exists u. rewrite !D, P, U4, (same_graph_addr _ _ u G). split_and!; [|by eapply edge_same|done|done].
    destruct (decide (u = w)) as [->|]; [done|]. by rewrite F.
  - intros v Hv Hlt'. rewrite D in *. rewrite Hn. specialize (Hc v ltac:(lia) Hlt'). lia.
  - rewrite D, Hn. specialize (Hc w Hlt Hd). lia.
  - intros v Hv. rewrite !D. apply Hmin. by apply Hback.
  - intros u Hu Hfu. rewrite !D. destruct (decide (u = w)) as [->|]; [lia|].
    apply Ho; [lia| |done]. by rewrite <- F.
Qed.

Lemma relax_inv l s w :
  dijkstra_inv l s (Some w) -> (w < length l)%nat -> found l w = true ->
  dist l w < Z.of_nat (n_found l) -> Z.of_nat (length l) < INFINITE_DISTANCE ->
  (forall v, found l v = false -> dist l w <= dist l v) ->
  (forall u, (u < length l)%nat -> found l u = true -> dist l u <= dist l w) ->
  let l1 := update_neighbor_distance w l in
  dijkstra_inv l1 s None /\ same_graph l l1 /\ n_found l1 = n_found l.
Proof.
  intros [Hs Hr Hx Ho Hp Hc] Hlt Hf Hd Hsz Hmin Hmax l1.
  destruct (lookup_lt_is_Some_2 _ _ Hlt) as [rw Hrw].
  pose proof (n_found_le l) as Hnle. pose proof (Hr w) as Hrw0.
  destruct (update_neighbor_distance_spec w l rw (dist l w)) as [R HR].
  { done. } { unfold dist. by rewrite Hrw. } { unfold found in Hf. by rewrite Hrw in Hf. }
  { lia. } { unfold INFINITE_DISTANCE in Hsz. change (2 ^ 32) with 4294967296. lia. }
  fold l1 in R, HR. destruct R as [G F D]. pose proof (same_graph_length _ _ G) as GL.
  assert (n_found l1 = n_found l) as Hn by (apply n_found_same; done).
  assert (forall v, found l v = true -> dist l1 v = dist l v /\ prev_of l1 v = prev_of l v) as Dfix.
  { intros v Hv. destruct (D v) as [?|(? & _)]; [done|congruence]. }
  assert (forall v, dist l1 v <= dist l v) as Dle.
  { intros v. destruct (D v) as [[-> _]|(_ & -> & ? & _)]; lia. }
  split_and!; [split|done|done].
  - rewrite <- GL, F, (proj1 (Dfix s (proj1 (proj2 Hs)))). done.
  - intros v. destruct (D v) as [[-> _]|(_ & -> & ? & _)]; specialize (Hr v); lia.
  - intros u v Hu _ E. rewrite F in Hu. apply (edge_same _ l) in E; [|by apply same_graph_sym].
    rewrite (proj1 (Dfix u Hu)). destruct (decide (u = w)) as [->|Hne].
    + destruct (HR v E) as [Hfv|?]; [|done]. rewrite (proj1 (Dfix v Hfv)).
      assert (v < length l)%nat as Hv.
      { destruct E as (? & ? & _ & _ & _ & _ & Hg).
        destruct (get_router_by_rid_lt _ _ _ Hg) as (? & ? & _). by eapply lookup_lt_Some. }
      specialize (Hmax v Hv Hfv). lia.
    + etransitivity; [apply Dle|]. apply Hx; [done|congruence|done].
  - intros u v Hu Hfu Hfv. rewrite F in Hfu, Hfv. rewrite (proj1 (Dfix u Hfu)).
    specialize (Hmax u ltac:(lia) Hfu). destruct (D v) as [[-> _]|(_ & -> & _)]; [|lia].
    specialize (Hmin v Hfv). lia.
  - intros v Hv Hne Hl'. destruct (D v) as [[E1 E2]|(E1 & E2 & E3 & E4 & E5)].
    + rewrite E1 in Hl'. destruct (Hp v ltac:(lia) Hne Hl') as (u & U1 & U2 & U3 & U4). exists u.
      rewrite F, E1, E2, (proj1 (Dfix u U1)), U4, (same_graph_addr _ _ u G).
      split_and!; [done|by eapply edge_same|done|done].
    + exists w. rewrite F, E2, E4, (proj1 (Dfix w Hf)), (same_graph_addr _ _ w G).
      split_and!; [done|by eapply edge_same|done|done].
  - intros v Hv Hl'. rewrite Hn. destruct (D v) as [[E _]|(_ & E & _)]; rewrite E in *; [|lia].
    apply Hc; [lia|done].
Qed.

(** ** The loop, and what it computes *)

Lemma dijkstra_loop_spec fuel l s :
  dijkstra_inv l s None -> Z.of_nat (length l) < INFINITE_DISTANCE ->
  (length l - n_found l < fuel)%nat ->
  exists l', dijkstra_loop fuel (get_shortest l) l = Some l' /\ dijkstra_inv l' s None /\
    same_graph l l' /\ forall v, found l' v = false -> dist l' v = INFINITE_DISTANCE.
Proof.
  revert l. induction fuel as [|fuel IH]; intros l Hi Hsz Hf; [lia|].
  pose proof (get_shortest_spec l) as Hg. cbn [dijkstra_loop].
  destruct (get_shortest l) as [w|] eqn:Ew.
  - destruct (mark_inv l s w Hi Ew) as (Hi1 & G1 & N1 & D1 & F1 & Hmin & Hmax).
    set (l1 := alter set_pr_found w l) in *. destruct Hg as (Hlt & _).
    pose proof (same_graph_length _ _ G1) as GL1.
    destruct (relax_inv l1 s w) as (Hi2 & G2 & N2); [done|lia|done|done|lia|done|done|].
    set (l2 := update_neighbor_distance w l1) in *.
    pose proof (same_graph_length _ _ G2) as GL2. pose proof (n_found_le l1).
    destruct (IH l2 Hi2) as (l' & E & Hi' & G' & H'); [lia|lia|].
    exists l'. split_and!; [exact E|done| |done].
    eapply same_graph_trans; [exact G1|]. by eapply same_graph_trans.
  - exists l. split_and!; [done|done|done|]. intros v Hv. specialize (Hg v Hv).
    pose proof (inv_range _ _ _ Hi v). lia.
Qed.

Lemma find_index_NoDup l our s r :
  NoDup (map pr_router_id l) -> get_router_by_rid our l = Some s -> l !! s = Some r ->
  forall v r', l !! v = Some r' -> (pr_router_id r' = our <-> v = s).
Proof.
  intros Hnd Hs Hr v r' Hv. destruct (get_router_by_rid_lt _ _ _ Hs) as (r0 & Hr0 & Hid).
  split; [|intros ->; congruence]. intros E.
  apply (NoDup_lookup (map pr_router_id l) v s our Hnd).
  - by rewrite list_lookup_fmap, Hv, <- E.
  - by rewrite list_lookup_fmap, Hr0, <- Hid.
Qed.

Lemma init_inv our l s :
  NoDup (map pr_router_id l) -> (forall r, r ∈ l -> pr_router_id r ≠ 0) ->
  get_router_by_rid our l = Some s ->
  let l1 := alter set_pr_found s (map (init_distance our) l) in
  dijkstra_inv l1 s (Some s) /\ same_graph l l1 /\ dist l1 s = 0 /\ (1 <= n_found l1)%nat /\
  (s < length l)%nat /\ (forall u, (u < length l1)%nat -> found l1 u = true -> u = s).
Proof.
  intros Hnd Hnz Hs l1. destruct (get_router_by_rid_lt _ _ _ Hs) as (rs & Hrs & Hid).
  pose proof (find_index_NoDup l our s rs Hnd Hs Hrs) as Huniq.
  pose proof (lookup_lt_Some _ _ _ Hrs) as Hlt.
  assert (same_graph l l1) as G.
  { eapply same_graph_trans; [|by apply same_graph_alter].
    unfold same_graph. rewrite map_map. apply map_ext. intros r. unfold init_distance.
    repeat case_match; done. }
  assert (forall v r, l !! v = Some r -> v ≠ s ->
    l1 !! v = Some (set_pr_distance_found INFINITE_DISTANCE false r)) as Hother.
  { intros v r Hr Hne. unfold l1. rewrite list_lookup_alter_ne, list_lookup_fmap, Hr by congruence.
    simpl. unfold init_distance. destruct (Z.eqb_spec (pr_router_id r) our) as [E|_].
    - destruct Hne. by apply (Huniq v r).
    - assert (pr_router_id r ≠ 0) as Hz by (apply Hnz; by eapply list_elem_of_lookup_2).
      apply Z.eqb_neq in Hz. by rewrite Hz. }
  assert (l1 !! s = Some (set_pr_distance_found 0 true rs)) as Hself.
  { unfold l1. rewrite list_lookup_alter_eq, list_lookup_fmap, Hrs. simpl.
    unfold init_distance. by rewrite Hid, Z.eqb_refl. }
  assert (dist l1 s = 0) as Ds by (unfold dist; by rewrite Hself).
  assert (found l1 s = true) as Fs by (unfold found; by rewrite Hself).
  pose proof (same_graph_length _ _ G) as GL.
  assert (forall v, v ≠ s -> dist l1 v = INFINITE_DISTANCE) as Dv.
  { intros v Hne. unfold dist. destruct (l !! v) as [r|] eqn:E; [by rewrite (Hother v r E Hne)|].
    apply lookup_ge_None in E. by rewrite lookup_ge_None_2 by lia. }
  assert (forall u, (u < length l1)%nat -> found l1 u = true -> u = s) as Honly.
  { intros u Hu Hf. destruct (decide (u = s)) as [|Hne]; [done|].
    destruct (lookup_lt_is_Some_2 l u ltac:(lia)) as [r Hr].
    unfold found in Hf. by rewrite (Hother u r Hr Hne) in Hf. }
  split_and!; [split|done|done| |done|done].
  - split_and!; [lia|done|done].
  - intros v. destruct (decide (v = s)) as [->|]; [rewrite Ds|rewrite Dv by done];
      unfold INFINITE_DISTANCE; lia.
  - intros u v Hu Hne E. destruct Hne. f_equal. apply Honly; [|done].
    destruct E as (? & ? & E & _). by eapply lookup_lt_Some.
  - intros u v Hu Hfu Hfv. rewrite (Honly u Hu Hfu), Ds.
    destruct (decide (v = s)) as [->|]; [lia|]. rewrite Dv by done. unfold INFINITE_DISTANCE. lia.
  - intros v Hv Hne Hd. rewrite Dv in Hd by done. lia.
  - intros v Hv Hd. destruct (decide (v = s)) as [->|]; [lia|]. rewrite Dv in Hd by done. lia.
  - unfold n_found. destruct (bfilter pr_shortest_path_found l1) as [|x t] eqn:E; [|simpl; lia].
    assert (set_pr_distance_found 0 true rs ∈ bfilter pr_shortest_path_found l1) as Hin.
    { apply elem_of_bfilter. split; [by eapply list_elem_of_lookup_2|done]. }
    rewrite E in Hin. by apply elem_of_nil in Hin.
Qed.

(** Following predecessors gives a path of the length of the distance. *)
Lemma inv_path l s : dijkstra_inv l s None ->
  forall n v, (v < length l)%nat -> dist l v = Z.of_nat n -> dist l v < INFINITE_DISTANCE ->
  hops l s v n.
Proof.
  intros Hi n. induction n as [|n IH]; intros v Hv Hd Hlt.
  - destruct (decide (v = s)) as [->|Hne]; [constructor|].
    destruct (inv_prev _ _ _ Hi v Hv Hne Hlt) as (u & _ & _ & E & _).
    pose proof (inv_range _ _ _ Hi u). lia.
  - destruct (decide (v = s)) as [->|Hne].
    { destruct (inv_source _ _ _ Hi) as (_ & _ & E). lia. }
    destruct (inv_prev _ _ _ Hi v Hv Hne Hlt) as (u & _ & Hedge & E & _).
    apply hops_step with (u := u); [|done]. apply IH; [|lia|lia].
    destruct Hedge as (r & i & Hr & _). by eapply lookup_lt_Some.
Qed.

(** No path is shorter than the distance. *)
Lemma inv_shortest l s : dijkstra_inv l s None -> Z.of_nat (length l) + 1 < INFINITE_DISTANCE ->
  (forall v, found l v = false -> dist l v = INFINITE_DISTANCE) ->
  forall v n, hops l s v n -> dist l v <= Z.of_nat n /\ dist l v < INFINITE_DISTANCE.
Proof.
  intros Hi Hsz Hnf v n H. induction H as [|u v n Hu [IH1 IH2] Hedge].
  - destruct (inv_source _ _ _ Hi) as (_ & _ & ->). unfold INFINITE_DISTANCE. lia.
  - assert (found l u = true) as Hf.
    { destruct (found l u) eqn:E; [done|]. rewrite (Hnf u E) in IH2. lia. }
    assert (u < length l)%nat as Hul by (destruct Hedge as (? & ? & ? & _); by eapply lookup_lt_Some).
    pose proof (inv_relaxed _ _ _ Hi u v Hf ltac:(done) Hedge) as Hle.
    pose proof (inv_count _ _ _ Hi u Hul IH2). pose proof (n_found_le l). lia.
Qed.

(** C2: The shortest-path computation terminates and gives every router its
    hop count from ours over the active interfaces, or the infinite distance
    when it cannot be reached; the predecessor of a reached router is the
    address of a router one hop nearer with an interface that leads to it. *)
Theorem shortest_paths_correct our l s :
  NoDup (map pr_router_id l) -> (forall r, r ∈ l -> pr_router_id r ≠ 0) ->
  get_router_by_rid our l = Some s -> Z.of_nat (length l) + 1 < INFINITE_DISTANCE ->
  exists l', shortest_paths our l = Some l' /\ same_graph l l' /\
    forall v r, l' !! v = Some r ->
      (pr_distance r = INFINITE_DISTANCE /\ forall n, ~ hops l s v n) \/
      (exists n, pr_distance r = Z.of_nat n /\ hops l s v n /\ (forall m, hops l s v m -> (n <= m)%nat) /\
         (v = s \/ exists u, pr_prev_router r = addr_of l u /\ edge l u v /\
            dist l' u + 1 = pr_distance r)).
Proof.
  intros Hnd Hnz Hs Hsz.
  destruct (init_inv our l s Hnd Hnz Hs) as (Hi & G1 & Ds & Hn & Hlt & Honly).
  set (l1 := alter set_pr_found s (map (init_distance our) l)) in *.
  pose proof (same_graph_length _ _ G1) as GL1.
  destruct (relax_inv l1 s s Hi) as (Hi2 & G2 & N2); [lia|apply Hi|lia|lia| | |].
  { intros v Hv. rewrite Ds. apply (inv_range _ _ _ Hi). }
  { intros u Hu Hf. by rewrite (Honly u Hu Hf). }
  set (l2 := update_neighbor_distance s l1) in *.
  pose proof (same_graph_length _ _ G2) as GL2.
  destruct (dijkstra_loop_spec (length l) l2 s Hi2) as (l' & E & Hi' & G' & Hnf); [lia|lia|].
  pose proof (same_graph_length _ _ G') as GL'.
  assert (same_graph l l') as G by (eapply same_graph_trans; [exact G1|]; by eapply same_graph_trans).
  exists l'. split_and!; [|done|].
  - unfold shortest_paths. rewrite length_map.
    assert (get_router_by_rid our (map (init_distance our) l) = Some s) as ->.
    { rewrite <- Hs. symmetry. apply get_router_by_rid_same. unfold same_graph. rewrite map_map.
      apply map_ext. intros r. unfold init_distance. by repeat case_match. }
    exact E.
  - intros v r Hr. assert (dist l' v = pr_distance r) as Ed by (unfold dist; by rewrite Hr).
    pose proof (lookup_lt_Some _ _ _ Hr) as Hv. pose proof (inv_range _ _ _ Hi' v) as Hrange.
    assert (forall n, hops l s v n -> hops l' s v n) as Hto.
    { intros n H. clear -H G. induction H; [constructor|]. econstructor; [done|by eapply edge_same]. }
    assert (forall n, hops l' s v n -> hops l s v n) as Hfrom.
    { intros n H. clear -H G. induction H; [constructor|]. econstructor; [done|].
      eapply edge_same; [by apply same_graph_sym|done]. }
    pose proof (inv_shortest l' s Hi' ltac:(lia) Hnf v) as Hsh.
    destruct (Z.eqb_spec (pr_distance r) INFINITE_DISTANCE) as [Einf|Nfin].
    + left. split; [done|]. intros n Hh%Hto. destruct (Hsh n Hh). lia.
    + right. exists (Z.to_nat (pr_distance r)). rewrite Z2Nat.id by lia. split_and!; [done| | |].
      * apply Hfrom, inv_path; [done|done|lia|lia].
      * intros m Hm%Hto. destruct (Hsh m Hm). lia.
      * destruct (decide (v = s)) as [->|Hne]; [by left|right].
        destruct (inv_prev _ _ _ Hi' v Hv Hne ltac:(lia)) as (u & _ & U2 & U3 & U4).
        exists u. split_and!; [|eapply edge_same; [by apply same_graph_sym|done]|lia].
        unfold prev_of in U4. rewrite Hr in U4. by rewrite (same_graph_addr _ _ u G).
Qed.
