(* ===== verification/Pwospf.v ===== *)
(** or_pwospf.c: the link-state routing protocol. Hello packets discover the
    neighbours of each interface, link state updates (LSU) carry the
    interfaces of every router; both feed the router list that Dijkstra.v
    computes routes from. Outgoing updates are queued and sent by a thread. *)

From S2P Require Import Prelude Words Bytes State CStrings Headers Checksum Packets Netfpga.
From S2P Require Import Rtable Iface Arp Dijkstra.
Local Open Scope Z_scope.

Definition lock_mutex_pwospf_lsu_queue : M unit := acquire L_lsu_queue Mutex.
Definition unlock_mutex_pwospf_lsu_queue : M unit := release L_lsu_queue.
Definition lock_mutex_pwospf_lsu_bcast : M unit := acquire L_lsu_bcast Mutex.
Definition unlock_mutex_pwospf_lsu_bcast : M unit := release L_lsu_bcast.

(** ** Changes of a router of the list *)

Definition set_pr_interface_list (l : list pwospf_interface) (r : pwospf_router) : pwospf_router :=
  mk_pwospf_router (pr_addr r) (pr_router_id r) (pr_area_id r) (pr_seq r) (pr_last_update r)
    (pr_distance r) (pr_shortest_path_found r) l (pr_prev_router r).

Definition set_pr_seq (seq : Z) (r : pwospf_router) : pwospf_router :=
  mk_pwospf_router (pr_addr r) (pr_router_id r) (pr_area_id r) seq (pr_last_update r)
    (pr_distance r) (pr_shortest_path_found r) (pr_interface_list r) (pr_prev_router r).

Definition set_pr_last_update (t : Z) (r : pwospf_router) : pwospf_router :=
  mk_pwospf_router (pr_addr r) (pr_router_id r) (pr_area_id r) (pr_seq r) t
    (pr_distance r) (pr_shortest_path_found r) (pr_interface_list r) (pr_prev_router r).

Definition modify_router (k : nat) (f : pwospf_router -> pwospf_router) : M unit :=
  modify_rs (fun rs => set_pwospf_router_list (alter f k (pwospf_router_list rs)) rs).

Definition set_pi_router_id (rid : Z) (e : pwospf_interface) : pwospf_interface :=
  mk_pwospf_interface (pi_subnet e) (pi_mask e) rid (pi_is_active e).

Definition set_pi_active (b : bool) (e : pwospf_interface) : pwospf_interface :=
  mk_pwospf_interface (pi_subnet e) (pi_mask e) (pi_router_id e) b.

(** ** Advertisements *)

Record pwospf_lsu_adv := mk_lsu_adv { la_sub : Z; la_mask : Z; la_rid : Z }.

Fixpoint read_advs (p : bytes) (o n : nat) : option (list pwospf_lsu_adv) :=
  match n with
  | O => Some []
  | S n' =>
      sub ← adv_sub p o; mask ← adv_mask p o; rid ← adv_rid p o;
      rest ← read_advs p (o + sizeof_pwospf_lsu_adv) n';
      Some (mk_lsu_adv sub mask rid :: rest)
  end.

(** The [pwospf_num] advertisements the loops walk over. The number comes from
    the packet and is not checked against its length. *)
Definition packet_advs (p : bytes) : option (list pwospf_lsu_adv) :=
  num ← lsu_num p get_pwospf_lsu_hdr;
  if Z.of_nat get_pwospf_lsu_data + Z.of_nat sizeof_pwospf_lsu_adv * ntohl num
       <=? Z.of_nat (length p)
  then read_advs p get_pwospf_lsu_data (Z.to_nat (ntohl num)) else None.

(** The comparison of an interface with an advertisement. *)
Definition adv_matches (a : pwospf_lsu_adv) (e : pwospf_interface) : bool :=
  (pi_subnet e =? Z.land (la_sub a) (la_mask a)) && (pi_mask e =? la_mask a)
  && (pi_router_id e =? la_rid a).

(** The interface built when the list was empty. *)
Definition first_interface (a : pwospf_lsu_adv) : pwospf_interface :=
  mk_pwospf_interface (Z.land (la_sub a) (la_mask a)) (la_mask a) (la_rid a) false.

(** The interface appended to a list; its subnet is [sub & sub]. *)
Definition new_interface (a : pwospf_lsu_adv) : pwospf_interface :=
  mk_pwospf_interface (Z.land (la_sub a) (la_sub a)) (la_mask a) (la_rid a) false.

Fixpoint add_new_advs (advs : list pwospf_lsu_adv) (l : list pwospf_interface) (changed : bool)
    : list pwospf_interface * bool :=
  match advs with
  | [] => (l, changed)
  | a :: advs' =>
      if existsb (adv_matches a) l then add_new_advs advs' l changed
      else add_new_advs advs' (l ++ [new_interface a]) true
  end.

Fixpoint remove_missing_advs (advs : list pwospf_lsu_adv) (l : list pwospf_interface)
    (changed : bool) : list pwospf_interface * bool :=
  match l with
  | [] => ([], changed)
  | e :: l' =>
      if existsb (fun a => adv_matches a e) advs then
        let '(r, c) := remove_missing_advs advs l' changed in (e :: r, c)
      else remove_missing_advs advs l' true
  end.

(** The new interface list, and whether it changed. *)
Definition populate_pwospf_router_interface_list (advs : list pwospf_lsu_adv)
    (l : list pwospf_interface) : list pwospf_interface * bool :=
  match l with
  | [] => (map first_interface advs, true)
  | _ =>
      let '(l, changed) := add_new_advs advs l false in
      remove_missing_advs advs l changed
  end.

(** ** Active interfaces *)

Definition interface_at (l : list pwospf_router) (k j : nat) : option pwospf_interface :=
  r ← l !! k; pr_interface_list r !! j.

Definition set_active_at (b : bool) (k j : nat) (l : list pwospf_router) : list pwospf_router :=
  alter (fun r => set_pr_interface_list (alter (set_pi_active b) j (pr_interface_list r)) r) k l.

Definition interfaces_of (l : list pwospf_router) (k : nat) : list nat :=
  match l !! k with Some r => seq 0 (length (pr_interface_list r)) | None => [] end.

Definition active_match (this another : pwospf_interface) : bool :=
  (pi_subnet this =? pi_subnet another) && (pi_mask this =? pi_mask another)
  && negb ((pi_router_id this =? 0) || (pi_router_id another =? 0)).

(** Interface [j] of router [k] against interface [m] of router [v], which may
    be the same object. *)
Definition determine_active_pair (k j v : nat) (l : list pwospf_router) (m : nat)
    : list pwospf_router :=
  match interface_at l k j, interface_at l v m with
  | Some pi_this, Some pi_another =>
      if active_match pi_this pi_another
      then set_active_at true v m (set_active_at true k j l) else l
  | _, _ => l
  end.

Definition determine_active_interface (k : nat) (l : list pwospf_router) (j : nat)
    : list pwospf_router :=
  let l := set_active_at false k j l in
  match interface_at l k j with
  | Some pi_this =>
      match get_router_by_rid (pi_router_id pi_this) l with
      | Some v => foldl (determine_active_pair k j v) l (interfaces_of l v)
      | None => l
      end
  | None => l
  end.

Definition determine_active_interfaces (l : list pwospf_router) (k : nat) : list pwospf_router :=
  foldl (determine_active_interface k) l (interfaces_of l k).

(** ** Link state updates sent *)

Definition adv_bytes (a : pwospf_lsu_adv) : bytes :=
  word_bytes (la_sub a) ++ word_bytes (la_mask a) ++ word_bytes (la_rid a).

(** The advertisements of our router. *)
Definition construct_pwospf_lsu_adv (rs : router_state) : option (list pwospf_lsu_adv) :=
  k ← get_router_by_rid (router_id rs) (pwospf_router_list rs);
  r ← pwospf_router_list rs !! k;
  Some (map (fun i => mk_lsu_adv (pi_subnet i) (pi_mask i) (pi_router_id i)) (pr_interface_list r)).

Definition build_lsu (rid aid seq : Z) (advs : list pwospf_lsu_adv) : option bytes :=
  let num := length advs in
  let len := (sizeof_pwospf_hdr + sizeof_pwospf_lsu_hdr + num * sizeof_pwospf_lsu_adv)%nat in
  p ← populate_pwospf (calloc len) 0 PWOSPF_TYPE_LINK_STATE_UPDATE (Z.of_nat len) rid aid;
  p ← populate_pwospf_lsu p sizeof_pwospf_hdr seq (Z.of_nat num);
  p ← put_range p (sizeof_pwospf_hdr + sizeof_pwospf_lsu_hdr) (concat (map adv_bytes advs));
  fill_pwospf_checksum p 0.

Definition construct_pwospf_lsu_packet : M bytes :=
  rs ← get_rs;
  k ← lift AssertFailed (get_router_by_rid (router_id rs) (pwospf_router_list rs));
  our_router ← deref (pwospf_router_list rs !! k);
  advs ← lift AssertFailed (construct_pwospf_lsu_adv rs);
  packet ← mem (build_lsu (router_id rs) (area_id rs) (pr_seq our_router) advs);
  now ← time;
  modify_router k (fun r => set_pr_seq (u16 (pr_seq r + 1)) (set_pr_last_update now r));;
  mret packet.

(** The frame that carries a PWOSPF packet to a neighbour. *)
Definition build_lsu_frame (pwospf : bytes) (iface : iface_entry) (nbr : nbr_router)
    : option (bytes * nat) :=
  plen ← pwospf_len pwospf 0;
  let plen := Z.to_nat (ntohs plen) in
  let len := (sizeof_eth_hdr + sizeof_ip_hdr + plen)%nat in
  data ← get_range pwospf 0 plen;
  p ← put_range (calloc len) get_pwospf_hdr data;
  p ← populate_ip p get_ip_hdr (Z.of_nat plen) IP_PROTO_PWOSPF (if_ip iface) (nbr_ip nbr);
  '(p, c) ← compute_ip_checksum p get_ip_hdr;
  p ← set_ip_sum p get_ip_hdr (htons c);
  p ← populate_eth_hdr p 0 None (if_addr iface) ETH_TYPE_IP;
  Some (p, len).

(** [!src_ip || (src_ip->s_addr != nbr->ip.s_addr)] *)
Definition not_source (src_ip : option Z) (nbr : nbr_router) : bool :=
  match src_ip with Some s => negb (s =? nbr_ip nbr) | None => true end.

Definition queue_lsu_for_nbr (pwospf : bytes) (src_ip : option Z) (iface : iface_entry)
    (nbr : nbr_router) : M unit :=
  if not_source src_ip nbr then
    '(packet, len) ← mem (build_lsu_frame pwospf iface nbr);
    lock_mutex_pwospf_lsu_queue;;
    modify_rs (fun rs => set_pwospf_lsu_queue
      (pwospf_lsu_queue rs
       ++ [mk_pwospf_lsu_queue_entry (if_ip iface) (if_name iface) packet len]) rs);;
    unlock_mutex_pwospf_lsu_queue
  else mret tt.

Definition broadcast_pwospf_lsu_packet (pwospf : bytes) (src_ip : option Z) : M unit :=
  rs ← get_rs;
  foreach (fun iface =>
    if if_is_active iface
    then foreach (queue_lsu_for_nbr pwospf src_ip iface) (if_nbr_routers iface)
    else mret tt) (if_list rs).

Definition start_lsu_bcast_flood : M unit :=
  rs ← get_rs;
  if pwospf_lsu_broadcast rs =? 0 then mret tt
  else
    packet ← construct_pwospf_lsu_packet;
    broadcast_pwospf_lsu_packet packet None;;
    rs ← get_rs;
    k ← deref (get_router_by_rid (router_id rs) (pwospf_router_list rs));
    now ← time;
    modify_router k (set_pr_last_update now).

(** The interface to exclude is passed along by the callers and never used. *)
Definition propagate_pwospf_changes : M unit :=
  modify_rs (fun rs => set_pwospf_router_list
    (foldl determine_active_interfaces (pwospf_router_list rs)
       (seq 0 (length (pwospf_router_list rs)))) rs);;
  dijkstra_trigger;;
  start_lsu_bcast_flood.

(** ** Packets received *)

(** The packet, its checksum field cleared by the computation of the checksum,
    and whether it is valid. *)
Definition is_pwospf_packet_valid (rs : router_state) (packet : bytes) : option (bytes * bool) :=
  ver ← pwospf_ver packet get_pwospf_hdr;
  if negb (ver =? 2) then Some (packet, false)
  else
    sum ← pwospf_sum packet get_pwospf_hdr;
    '(packet, sum') ← compute_pwospf_checksum packet get_pwospf_hdr;
    if negb (htons sum =? sum') then Some (packet, false)
    else
      atype ← pwospf_atype packet get_pwospf_hdr;
      aid ← pwospf_aid packet get_pwospf_hdr;
      rid ← pwospf_rid packet get_pwospf_hdr;
      Some (packet, (ntohs atype =? 0) && (ntohl aid =? area_id rs)
                    && negb (ntohl rid =? router_id rs)).

(** The neighbour the hello comes from; the loop keeps the last match. *)
Definition nbr_matches (iface : iface_entry) (src mask rid : Z) (nbr : nbr_router) : bool :=
  (nbr_ip nbr =? src) && (if_mask iface =? mask) && (nbr_router_id nbr =? rid).

Fixpoint find_last_index {A} (f : A -> bool) (l : list A) (i : nat) (match_ : option nat)
    : option nat :=
  match l with
  | [] => match_
  | x :: l' => find_last_index f l' (S i) (if f x then Some i else match_)
  end.

Definition set_nbr_last_rcvd_hello (t : Z) (nbr : nbr_router) : nbr_router :=
  mk_nbr_router (nbr_router_id nbr) (nbr_ip nbr) t.

(** The interface of our router the neighbour is recorded in: one with a blank
    router id, else a new one. *)
Definition on_subnet_of (iface : iface_entry) (e : pwospf_interface) : bool :=
  (pi_subnet e =? Z.land (if_ip iface) (if_mask iface)) && (pi_mask e =? if_mask iface).

Definition record_neighbor (iface : iface_entry) (rid : Z) (l : list pwospf_interface)
    : option (list pwospf_interface) :=
  match find_index (fun e => on_subnet_of iface e && (pi_router_id e =? 0)) l with
  | Some j => Some (alter (set_pi_router_id rid) j l)
  | None =>
      match l with
      | [] => None
      | _ => Some (l ++ [mk_pwospf_interface (Z.land (if_ip iface) (if_mask iface)) (if_mask iface)
                           rid false])
      end
  end.

Definition hello_from_new_neighbor (interface : string) (iface : iface_entry) (src rid : Z)
    : M unit :=
  now ← time;
  modify_iface interface (fun e =>
    set_if_nbr_routers (if_nbr_routers e ++ [mk_nbr_router rid src now]) e);;
  rs ← get_rs;
  k ← lift AssertFailed (get_router_by_rid (router_id rs) (pwospf_router_list rs));
  r ← deref (pwospf_router_list rs !! k);
  l ← lift AssertFailed (record_neighbor iface rid (pr_interface_list r));
  modify_router k (set_pr_interface_list l).

(** The locks the caller holds are released and taken again for writing; when
    the masks differ the function returns without releasing the mutex. *)
Definition process_pwospf_hello_packet (packet : bytes) (interface : string) : M unit :=
  rs ← get_rs;
  hint ← mem (hello_hint packet get_pwospf_hello_hdr);
  if negb (pwospf_hello_interval rs =? ntohs hint) then mret tt
  else
    unlock_rtable;;
    unlock_if_list;;
    lock_if_list_wr;;
    lock_rtable_rd;;
    lock_mutex_pwospf_router_list;;
    rs ← get_rs;
    iface ← deref (get_iface rs interface);
    mask ← mem (hello_mask packet get_pwospf_hello_hdr);
    if negb (if_mask iface =? mask) then mret tt
    else
      src ← mem (ip_src packet get_ip_hdr);
      rid ← mem (pwospf_rid packet get_pwospf_hdr);
      match find_last_index (nbr_matches iface src mask rid) (if_nbr_routers iface) 0 None with
      | None =>
          hello_from_new_neighbor interface iface src rid;;
          propagate_pwospf_changes;;
          unlock_mutex_pwospf_router_list;;
          signal C_lsu_bcast
      | Some i =>
          now ← time;
          modify_iface interface (fun e =>
            set_if_nbr_routers (alter (set_nbr_last_rcvd_hello now) i (if_nbr_routers e)) e);;
          unlock_mutex_pwospf_router_list
      end.

Definition add_new_router_neighbor (packet : bytes) : M unit :=
  rid ← mem (pwospf_rid packet get_pwospf_hdr);
  aid ← mem (pwospf_aid packet get_pwospf_hdr);
  seq ← mem (lsu_seq packet get_pwospf_lsu_hdr);
  addr ← fresh_addr;
  now ← time;
  advs ← mem (packet_advs packet);
  let '(l, _) := populate_pwospf_router_interface_list advs [] in
  modify_rs (fun rs => set_pwospf_router_list
    (pwospf_router_list rs
     ++ [mk_pwospf_router addr rid (ntohl aid) (ntohs seq) now 0 false l None]) rs).

(** The copy of the update that is forwarded, its TTL and checksum changed. *)
Definition build_bcasted_lsu (packet : bytes) (ttl : Z) : option bytes :=
  plen ← pwospf_len packet get_pwospf_hdr;
  p ← get_range packet get_pwospf_hdr (Z.to_nat (ntohs plen));
  p ← set_lsu_ttl p sizeof_pwospf_hdr (htons ttl);
  fill_pwospf_checksum p 0.

(** Records the update: whether it is to be forwarded and whether anything
    changed. *)
Definition record_lsu (packet : bytes) : M (bool * bool) :=
  rs ← get_rs;
  rid ← mem (pwospf_rid packet get_pwospf_hdr);
  match get_router_by_rid rid (pwospf_router_list rs) with
  | Some k =>
      router ← deref (pwospf_router_list rs !! k);
      seq ← mem (lsu_seq packet get_pwospf_lsu_hdr);
      if negb (pr_seq router =? ntohs seq) && (pr_seq router <? ntohs seq) then
        now ← time;
        modify_router k (fun r => set_pr_seq (htons seq) (set_pr_last_update now r));;
        advs ← mem (packet_advs packet);
        let '(l, changed) :=
          populate_pwospf_router_interface_list advs (pr_interface_list router) in
        modify_router k (set_pr_interface_list l);;
        mret (true, changed)
      else mret (false, false)
  | None => add_new_router_neighbor packet;; mret (true, true)
  end.

Definition process_pwospf_lsu_packet (packet : bytes) : M unit :=
  rs ← get_rs;
  rid ← mem (pwospf_rid packet get_pwospf_hdr);
  if router_id rs =? rid then mret tt
  else
    unlock_rtable;;
    lock_rtable_wr;;
    lock_mutex_pwospf_router_list;;
    '(rebroadcast_packet, update_neighbors) ← record_lsu packet;
    pttl ← mem (lsu_ttl packet get_pwospf_lsu_hdr);
    let ttl := u16 (ntohs pttl - 1) in
    let bcast_incoming_lsu_packet := rebroadcast_packet && (0 <? ttl) in
    (if bcast_incoming_lsu_packet then
       bcasted ← mem (build_bcasted_lsu packet ttl);
       src ← mem (ip_src packet get_ip_hdr);
       broadcast_pwospf_lsu_packet bcasted (Some src)
     else mret tt);;
    (if update_neighbors : bool then propagate_pwospf_changes else mret tt);;
    unlock_mutex_pwospf_router_list;;
    if update_neighbors || bcast_incoming_lsu_packet then signal C_lsu_bcast else mret tt.

Definition process_pwospf_packet (packet : bytes) (interface : string) : M unit :=
  rs ← get_rs;
  '(packet, valid) ← mem (is_pwospf_packet_valid rs packet);
  if negb valid then mret tt
  else
    type ← mem (pwospf_type packet get_pwospf_hdr);
    if type =? PWOSPF_TYPE_HELLO then process_pwospf_hello_packet packet interface
    else if type =? PWOSPF_TYPE_LINK_STATE_UPDATE then process_pwospf_lsu_packet packet
    else mret tt.

(** ** Hellos sent, and neighbours that time out *)

(** Removes the interface of our router that leads to a lost neighbour, or
    blanks its router id when it is the last one on the subnet. *)
Definition forget_neighbor (iface : iface_entry) (nbr : nbr_router) (l : list pwospf_interface)
    : option (list pwospf_interface) :=
  let count := length (bfilter (on_subnet_of iface) l) in
  if (count =? 0)%nat then None
  else if (count =? 1)%nat then
    match find_index (on_subnet_of iface) l with
    | Some j => Some (alter (set_pi_router_id 0) j l)
    | None => Some l
    end
  else
    match find_index (fun e => on_subnet_of iface e && (nbr_router_id nbr =? pi_router_id e)) l with
    | Some j => Some (delete j l)
    | None => Some l
    end.

(** The neighbours kept, and whether one timed out. *)
Fixpoint determine_timedout_loop (iface : iface_entry) (cur : list nbr_router) (timedout : bool)
    : M (list nbr_router * bool) :=
  match cur with
  | [] => mret ([], timedout)
  | nbr :: cur' =>
      now ← time;
      rs ← get_rs;
      if 3 * pwospf_hello_interval rs <? now - nbr_last_rcvd_hello nbr then
        k ← deref (get_router_by_rid (router_id rs) (pwospf_router_list rs));
        our_router ← deref (pwospf_router_list rs !! k);
        l ← lift AssertFailed (forget_neighbor iface nbr (pr_interface_list our_router));
        modify_router k (set_pr_interface_list l);;
        determine_timedout_loop iface cur' true
      else
        '(rest, t) ← determine_timedout_loop iface cur' timedout;
        mret (nbr :: rest, t)
  end.

(** For the interface at position [i]. *)
Definition determine_timedout_interface (i : nat) (iface : iface_entry) : M bool :=
  '(nbrs, timedout) ← determine_timedout_loop iface (if_nbr_routers iface) false;
  modify_rs (fun rs => set_if_list (alter (set_if_nbr_routers nbrs) i (if_list rs)) rs);;
  mret timedout.

Definition HELLO_LEN : nat := sizeof_eth_hdr + sizeof_ip_hdr + sizeof_pwospf_hdr + sizeof_pwospf_hello_hdr.

Definition build_hello (rs : router_state) (ie : iface_entry) : option bytes :=
  let plen := Z.of_nat (sizeof_pwospf_hdr + sizeof_pwospf_hello_hdr) in
  p ← populate_pwospf_hello (calloc HELLO_LEN) get_pwospf_hello_hdr (if_mask ie)
        (pwospf_hello_interval rs);
  p ← populate_pwospf p get_pwospf_hdr PWOSPF_TYPE_HELLO plen (router_id rs) (area_id rs);
  p ← fill_pwospf_checksum p get_pwospf_hdr;
  p ← populate_ip p get_ip_hdr plen IP_PROTO_PWOSPF (if_ip ie) (htonl PWOSPF_HELLO_TIP);
  '(p, c) ← compute_ip_checksum p get_ip_hdr;
  p ← set_ip_sum p get_ip_hdr (htons c);
  populate_eth_hdr p 0 (Some ETH_BROADCAST) (if_addr ie) ETH_TYPE_IP.

(** The interfaces from position [i] on, [n] of them. *)
Fixpoint broadcast_hello_loop (n i : nat) (timedout : bool) : M bool :=
  match n with
  | O => mret timedout
  | S n' =>
      rs ← get_rs;
      ie ← deref (if_list rs !! i);
      t ← (if if_is_active ie then
             packet ← mem (build_hello rs ie);
             _ ← send_packet packet HELLO_LEN (if_name ie);
             now ← time;
             modify_rs (fun rs => set_if_list
               (alter (set_if_last_sent_hello now) i (if_list rs)) rs);;
             lock_mutex_pwospf_router_list;;
             t ← determine_timedout_interface i ie;
             unlock_mutex_pwospf_router_list;;
             mret t
           else mret false);
      broadcast_hello_loop n' (S i) (timedout || t)
  end.

Definition broadcast_pwospf_hello_packet : M unit :=
  rs ← get_rs;
  timedout ← broadcast_hello_loop (length (if_list rs)) 0 false;
  if timedout : bool then
    lock_mutex_pwospf_router_list;;
    propagate_pwospf_changes;;
    unlock_mutex_pwospf_router_list;;
    signal C_lsu_bcast
  else mret tt.

(** ** Routes of the interface list *)

Definition default_route_present (rs : router_state) : option pwospf_interface :=
  re ← find_first (fun re => re_is_static re && (re_ip re =? 0) && (re_mask re =? 0)) (rtable rs);
  Some (mk_pwospf_interface (Z.land (re_ip re) (re_mask re)) (re_mask re) 0 false).

Definition is_route_present (router : pwospf_router) (iface : pwospf_interface) : bool :=
  existsb (fun pi => (pi_subnet pi =? pi_subnet iface) && (pi_mask pi =? pi_mask iface)
                     && (pi_router_id pi =? pi_router_id iface)) (pr_interface_list router).

(** ** The threads, one round each *)

(** [pwospf_hello_thread] *)
Definition pwospf_hello_round : M unit :=
  lock_if_list_wr;;
  broadcast_pwospf_hello_packet;;
  unlock_if_list.

(** [pwospf_lsu_thread]; the difference of the times is compared with the
    interval as an unsigned number. *)
Definition pwospf_lsu_round : M unit :=
  lock_mutex_pwospf_router_list;;
  rs ← get_rs;
  unlock_mutex_pwospf_router_list;;
  now ← time;
  match get_router_by_rid (router_id rs) (pwospf_router_list rs) with
  | Some k =>
      our_router ← deref (pwospf_router_list rs !! k);
      if pwospf_lsu_interval rs <? u32 (now - pr_last_update our_router) then
        lock_mutex_pwospf_router_list;;
        start_lsu_bcast_flood;;
        unlock_mutex_pwospf_router_list;;
        signal C_lsu_bcast
      else mret tt
  | None => mret tt
  end.

(** Keeps a router, or removes it when it was not heard of for three
    intervals; our own is kept without looking at the time. *)
Definition lsu_timeout_entry (rs : router_state) (r : pwospf_router) : M (option pwospf_router) :=
  if pr_router_id r =? router_id rs then mret (Some r)
  else
    now ← time;
    mret (if u32 (pwospf_lsu_interval rs * 3) <? u32 (now - pr_last_update r)
          then None else Some r).

(** [pwospf_lsu_timeout_thread] *)
Definition pwospf_lsu_timeout_round : M unit :=
  lock_mutex_pwospf_router_list;;
  rs ← get_rs;
  l ← filter_mapM (lsu_timeout_entry rs) (pwospf_router_list rs);
  put_rs (set_pwospf_router_list l rs);;
  let timeout_occured := (length l <? length (pwospf_router_list rs))%nat in
  (if timeout_occured then propagate_pwospf_changes else mret tt);;
  unlock_mutex_pwospf_router_list;;
  if timeout_occured then signal C_lsu_bcast else mret tt.

Definition send_queued_lsu (lqe : pwospf_lsu_queue_entry) : M unit :=
  rs ← get_rs;
  dst ← mem (ip_dst (lq_packet lqe) get_ip_hdr);
  match get_next_hop IF_LEN rs dst with
  | Some (next_hop, next_hop_iface) =>
      _ ← send_ip (lq_packet lqe) (lq_len lqe) next_hop next_hop_iface; mret tt
  | None => mret tt
  end.

(** [pwospf_lsu_bcast_thread]; waiting on the condition releases the mutex and
    takes it again. *)
Definition pwospf_lsu_bcast_round : M unit :=
  lock_mutex_pwospf_lsu_bcast;;
  unlock_mutex_pwospf_lsu_bcast;;
  lock_mutex_pwospf_lsu_bcast;;
  lock_mutex_pwospf_lsu_queue;;
  rs ← get_rs;
  let lsu_queue := pwospf_lsu_queue rs in
  put_rs (set_pwospf_lsu_queue [] rs);;
  unlock_mutex_pwospf_lsu_queue;;
  lock_arp_cache_rd;;
  lock_arp_queue_wr;;
  lock_if_list_rd;;
  lock_rtable_rd;;
  foreach send_queued_lsu lsu_queue;;
  unlock_rtable;;
  unlock_if_list;;
  unlock_arp_queue;;
  unlock_arp_cache;;
  unlock_mutex_pwospf_lsu_bcast.

(** ** Lemmas: the updates built *)

Definition pwospf_header (type len rid aid sum : Z) : bytes :=
  [2; u8 type] ++ half_bytes (htons (u16 len)) ++ word_bytes rid ++ word_bytes (htonl aid)
  ++ half_bytes sum ++ [0; 0] ++ calloc 8.

Definition lsu_header (seq ttl num : Z) : bytes :=
  half_bytes (htons seq) ++ half_bytes (htons ttl) ++ word_bytes (htonl num).

(** A link state update, from its PWOSPF header on. *)
Definition lsu_bytes (rid aid seq ttl sum : Z) (advs : list pwospf_lsu_adv) : bytes :=
  pwospf_header PWOSPF_TYPE_LINK_STATE_UPDATE (Z.of_nat (32 + 12 * length advs)) rid aid sum
  ++ lsu_header seq ttl (Z.of_nat (length advs)) ++ concat (map adv_bytes advs).

Lemma adv_bytes_length advs : length (concat (map adv_bytes advs)) = (12 * length advs)%nat.
Proof. induction advs as [|a advs IH]; [done|]. cbn [map concat]. rewrite length_app, IH. simpl. lia. Qed.

Lemma adv_bytes_is_bytes advs : is_bytes (concat (map adv_bytes advs)).
Proof.
  induction advs as [|a advs IH]; [constructor|]. cbn [map concat]. unfold is_bytes, adv_bytes in *.
  rewrite !Forall_app. split_and!; [apply word_bytes_is_bytes..|done].
Qed.

Lemma populate_pwospf_app h b type len rid aid : length h = 24%nat ->
  populate_pwospf (h ++ b) 0 type len rid aid = Some (pwospf_header type len rid aid 0 ++ b).
Proof.
  intros Hh. do 24 (destruct h as [|? h]; [discriminate Hh|]). destruct h; [|discriminate Hh].
  reflexivity.
Qed.

Lemma populate_pwospf_lsu_app h b seq num : length h = 8%nat ->
  populate_pwospf_lsu (h ++ b) 0 seq num = Some (lsu_header seq 64 num ++ b).
Proof.
  intros Hh. do 8 (destruct h as [|? h]; [discriminate Hh|]). destruct h; [|discriminate Hh].
  reflexivity.
Qed.

Lemma populate_pwospf_lsu_shift a p seq num :
  populate_pwospf_lsu (a ++ p) (length a) seq num = (app a) <$> populate_pwospf_lsu p 0 seq num.
Proof.
  unfold populate_pwospf_lsu, bzero. rewrite put_range_shift0.
  destruct (put_range p 0 _) as [q|]; simpl fmap; cbn [mbind option_bind]; [|done].
  rewrite <- (Nat.add_0_r (length a)) at 1. rewrite <- (Nat.add_0_r (length a)) at 1.
  rewrite !Nat.add_0_r.
  assert (put16 (a ++ q) (length a) (htons seq) = (app a) <$> put16 q 0 (htons seq)) as ->
    by (rewrite <- put16_shift; by rewrite Nat.add_0_r).
  destruct (put16 q 0 _) as [q1|]; simpl fmap; cbn [mbind option_bind]; [|done].
  rewrite put16_shift. destruct (put16 q1 _ _) as [q2|]; simpl fmap; cbn [mbind option_bind]; [|done].
  apply put32_shift.
Qed.

Lemma pwospf_header_is_bytes type len rid aid sum : is_bytes (pwospf_header type len rid aid sum).
Proof.
  unfold pwospf_header, is_bytes. rewrite !Forall_app.
  split_and!; try apply half_bytes_is_bytes; try apply word_bytes_is_bytes; try apply calloc_bytes;
    repeat apply Forall_cons_2; try apply Forall_nil_2; try apply u8_range; unfold is_u8; lia.
Qed.

Lemma lsu_bytes_is_bytes rid aid seq ttl sum advs : is_bytes (lsu_bytes rid aid seq ttl sum advs).
Proof.
  unfold lsu_bytes, lsu_header, is_bytes. rewrite !Forall_app.
  split_and!; try apply half_bytes_is_bytes; try apply word_bytes_is_bytes;
    [apply pwospf_header_is_bytes|apply adv_bytes_is_bytes].
Qed.

Lemma lsu_bytes_length rid aid seq ttl sum advs :
  length (lsu_bytes rid aid seq ttl sum advs) = (32 + 12 * length advs)%nat.
Proof. unfold lsu_bytes. rewrite !length_app, adv_bytes_length. reflexivity. Qed.

(** The largest number of advertisements an update can carry. *)
Definition advs_fit (advs : list pwospf_lsu_adv) : Prop := Z.of_nat (32 + 12 * length advs) <= 65535.

Lemma lsu_len_field rid aid seq ttl sum advs : advs_fit advs ->
  pwospf_len (lsu_bytes rid aid seq ttl sum advs) 0 = Some (htons (Z.of_nat (32 + 12 * length advs))).
Proof.
  intros Hf. unfold pwospf_len, lsu_bytes, pwospf_header. rewrite <- !app_assoc.
  change (0 + 2)%nat with (length [2%Z; u8 PWOSPF_TYPE_LINK_STATE_UPDATE] + 0)%nat.
  rewrite get16_shift, u16_id by (unfold advs_fit, is_u16 in *; lia).
  apply get16_half_bytes, bswap16_range.
Qed.

(** Computing the checksum of an update, whatever its checksum field holds. *)
Lemma fill_lsu_checksum rid aid seq ttl sum advs : advs_fit advs ->
  exists c p1, fill_pwospf_checksum (lsu_bytes rid aid seq ttl sum advs) 0 =
      Some (lsu_bytes rid aid seq ttl (htons c) advs) /\
    is_u16 c /\ compute_pwospf_checksum (lsu_bytes rid aid seq ttl (htons c) advs) 0 = Some (p1, c).
Proof.
  intros Hf. destruct (fill_pwospf_checksum_spec (lsu_bytes rid aid seq ttl sum advs)
    (htons (Z.of_nat (32 + 12 * length advs)))) as (c & p1 & p' & -> & E & Hc & _ & Hr).
  - apply lsu_bytes_is_bytes.
  - by apply lsu_len_field.
  - unfold ntohs, htons. rewrite bswap16_involutive by (unfold advs_fit, is_u16 in *; lia).
    rewrite lsu_bytes_length.
    assert (2 * (Z.of_nat (32 + 12 * length advs) / 2) <= Z.of_nat (32 + 12 * length advs))
      by (apply Z.mul_div_le; lia).
    lia.
  - rewrite lsu_bytes_length. lia.
  - assert (p' = lsu_bytes rid aid seq ttl (htons c) advs) as ->.
    { apply (inj Some). rewrite <- E. reflexivity. }
    exists c, p1. done.
Qed.

(** [build_lsu] succeeds, and what it builds passes the checksum test. *)
Lemma build_lsu_spec rid aid seq advs : advs_fit advs ->
  exists c p1, build_lsu rid aid seq advs = Some (lsu_bytes rid aid seq 64 (htons c) advs) /\
    is_u16 c /\ compute_pwospf_checksum (lsu_bytes rid aid seq 64 (htons c) advs) 0 = Some (p1, c).
Proof.
  intros Hf. set (n := length advs). unfold build_lsu. fold n.
  change (sizeof_pwospf_hdr + sizeof_pwospf_lsu_hdr)%nat with 32%nat.
  change sizeof_pwospf_hdr with 24%nat. change sizeof_pwospf_lsu_adv with 12%nat.
  replace (32 + n * 12)%nat with (24 + (8 + 12 * n))%nat by lia. rewrite !calloc_app. cbv zeta.
  rewrite populate_pwospf_app by done. rewrite opt_bind_Some.
  rewrite (populate_pwospf_lsu_shift (pwospf_header _ _ _ _ _)) by done.
  rewrite populate_pwospf_lsu_app by done. cbn [fmap option_fmap option_map].
  rewrite opt_bind_Some, app_assoc.
  pose proof (put_range_app (pwospf_header PWOSPF_TYPE_LINK_STATE_UPDATE
    (Z.of_nat (24 + (8 + 12 * n))) rid aid 0 ++ lsu_header seq 64 (Z.of_nat n)) (calloc (12 * n))
    (concat (map adv_bytes advs)) []) as E. rewrite !app_nil_r in E.
  change (length (pwospf_header PWOSPF_TYPE_LINK_STATE_UPDATE
    (Z.of_nat (24 + (8 + 12 * n))) rid aid 0 ++ lsu_header seq 64 (Z.of_nat n))) with 32%nat in E.
  rewrite E, opt_bind_Some by (rewrite adv_bytes_length; unfold calloc; by rewrite length_replicate).
  rewrite <- app_assoc. clear E.
  change (pwospf_header PWOSPF_TYPE_LINK_STATE_UPDATE (Z.of_nat (24 + (8 + 12 * n))) rid aid 0
    ++ lsu_header seq 64 (Z.of_nat n) ++ concat (map adv_bytes advs)) with (lsu_bytes rid aid seq 64 0 advs).
  destruct (fill_lsu_checksum rid aid seq 64 0 advs Hf) as (c & p1 & -> & Hc & Hr).
  by exists c, p1.
Qed.

(** ** Lemmas: the updates read *)

Definition adv_words (a : pwospf_lsu_adv) : Prop :=
  is_u32 (la_sub a) /\ is_u32 (la_mask a) /\ is_u32 (la_rid a).

Lemma get32_word_at a v b : is_u32 v -> get32 (a ++ word_bytes v ++ b) (length a) = Some v.
Proof.
  intros Hv. rewrite <- (Nat.add_0_r (length a)), get32_shift. by apply get32_word_bytes.
Qed.

Lemma get16_half_at a v b : is_u16 v -> get16 (a ++ half_bytes v ++ b) (length a) = Some v.
Proof.
  intros Hv. rewrite <- (Nat.add_0_r (length a)), get16_shift. by apply get16_half_bytes.
Qed.

Lemma read_advs_spec a advs b : Forall adv_words advs ->
  read_advs (a ++ concat (map adv_bytes advs) ++ b) (length a) (length advs) = Some advs.
Proof.
  revert a. induction advs as [|x advs IH]; intros a; [done|]. rewrite Forall_cons.
  intros [(H1 & H2 & H3) Hw]. specialize (IH (a ++ adv_bytes x) Hw).
  rewrite length_app in IH. change (length (adv_bytes x)) with sizeof_pwospf_lsu_adv in IH.
  cbn [map concat length read_advs]. set (R := concat (map adv_bytes advs) ++ b) in *.
  assert (a ++ (adv_bytes x ++ concat (map adv_bytes advs)) ++ b
    = a ++ word_bytes (la_sub x) ++ word_bytes (la_mask x) ++ word_bytes (la_rid x) ++ R) as ->
    by (unfold adv_bytes, R; by rewrite <- !app_assoc).
  assert ((a ++ adv_bytes x) ++ R
    = a ++ word_bytes (la_sub x) ++ word_bytes (la_mask x) ++ word_bytes (la_rid x) ++ R) as E
    by (unfold adv_bytes; by rewrite <- !app_assoc). rewrite E in IH. clear E.
  unfold adv_sub, adv_mask, adv_rid. rewrite get32_word_at, opt_bind_Some by done.
  rewrite !get32_shift.
  rewrite (get32_word_at (word_bytes (la_sub x)) (la_mask x) _ H2 : get32 _ 4 = _), opt_bind_Some.
  rewrite (app_assoc (word_bytes (la_sub x))).
  rewrite (get32_word_at (word_bytes (la_sub x) ++ word_bytes (la_mask x)) (la_rid x) R H3
    : get32 _ 8 = _), opt_bind_Some.
  rewrite <- (app_assoc (word_bytes (la_sub x))), IH, opt_bind_Some. by destruct x.
Qed.

(** The fields of an update in a frame with any 34 bytes of headers. *)
Record reads_lsu (packet : bytes) (rid seq ttl : Z) (advs : list pwospf_lsu_adv) : Prop := {
  rl_type : pwospf_type packet get_pwospf_hdr = Some PWOSPF_TYPE_LINK_STATE_UPDATE;
  rl_rid : pwospf_rid packet get_pwospf_hdr = Some rid;
  rl_aid : is_Some (pwospf_aid packet get_pwospf_hdr);
  rl_seq : lsu_seq packet get_pwospf_lsu_hdr = Some (htons seq);
  rl_ttl : lsu_ttl packet get_pwospf_lsu_hdr = Some (htons ttl);
  rl_advs : packet_advs packet = Some advs
}.

Lemma lsu_bytes_reads hdr rid aid seq ttl sum advs :
  length hdr = 34%nat -> is_u32 rid -> is_u16 seq -> advs_fit advs -> Forall adv_words advs ->
  reads_lsu (hdr ++ lsu_bytes rid aid seq ttl sum advs) rid seq ttl advs.
Proof.
  intros Hh Hr Hs Hf Hw. split.
  - unfold pwospf_type. change get_pwospf_hdr with 34%nat. rewrite <- Hh, get8_shift. reflexivity.
  - unfold pwospf_rid. change get_pwospf_hdr with 34%nat. rewrite <- Hh, get32_shift.
    unfold lsu_bytes, pwospf_header. rewrite <- !app_assoc.
    rewrite (app_assoc [2; _]).
    exact (get32_word_at ([2; u8 PWOSPF_TYPE_LINK_STATE_UPDATE]
      ++ half_bytes (htons (u16 (Z.of_nat (32 + 12 * length advs))))) rid _ Hr).
  - unfold pwospf_aid. change get_pwospf_hdr with 34%nat. rewrite <- Hh, get32_shift. by eexists.
  - unfold lsu_seq. change get_pwospf_lsu_hdr with (34 + 24)%nat. rewrite <- Hh, get16_shift.
    unfold lsu_bytes, lsu_header. rewrite <- !app_assoc.
    exact (get16_half_at (pwospf_header PWOSPF_TYPE_LINK_STATE_UPDATE
      (Z.of_nat (32 + 12 * length advs)) rid aid sum) (htons seq) _ (bswap16_range _)).
  - unfold lsu_ttl. change (get_pwospf_lsu_hdr + 2)%nat with (34 + 26)%nat. rewrite <- Hh, get16_shift.
    unfold lsu_bytes, lsu_header. rewrite <- !app_assoc. rewrite app_assoc.
    exact (get16_half_at (pwospf_header PWOSPF_TYPE_LINK_STATE_UPDATE
      (Z.of_nat (32 + 12 * length advs)) rid aid sum ++ half_bytes (htons seq)) (htons ttl) _
      (bswap16_range _)).
  - unfold packet_advs, lsu_num. change (get_pwospf_lsu_hdr + 4)%nat with (34 + 28)%nat.
    rewrite <- Hh, get32_shift.
    assert (get32 (lsu_bytes rid aid seq ttl sum advs) 28 = Some (htonl (Z.of_nat (length advs)))) as ->.
    { unfold lsu_bytes, lsu_header. rewrite <- !app_assoc. rewrite app_assoc, (app_assoc (_ ++ _)).
      exact (get32_word_at ((pwospf_header PWOSPF_TYPE_LINK_STATE_UPDATE
        (Z.of_nat (32 + 12 * length advs)) rid aid sum ++ half_bytes (htons seq))
        ++ half_bytes (htons ttl)) _ _ (bswap32_range _)). }
    rewrite opt_bind_Some. unfold ntohl, htonl, advs_fit in *.
    rewrite bswap32_involutive by (unfold is_u32; lia). rewrite Nat2Z.id.
    assert (Z.of_nat get_pwospf_lsu_data + Z.of_nat sizeof_pwospf_lsu_adv * Z.of_nat (length advs)
      <=? Z.of_nat (length (hdr ++ lsu_bytes rid aid seq ttl sum advs)) = true) as ->.
    { apply Z.leb_le. rewrite length_app, lsu_bytes_length, Hh.
      change get_pwospf_lsu_data with 66%nat. change sizeof_pwospf_lsu_adv with 12%nat. lia. }
    pose proof (read_advs_spec (hdr ++ pwospf_header PWOSPF_TYPE_LINK_STATE_UPDATE
      (Z.of_nat (32 + 12 * length advs)) rid aid sum ++ lsu_header seq ttl (Z.of_nat (length advs)))
      advs [] Hw) as E.
    rewrite app_nil_r, <- !app_assoc in E. rewrite !length_app, Hh in E. exact E.
Qed.

(** An update with the right checksum is accepted, and handled with its checksum
    field cleared. *)
Lemma lsu_accepted hdr rid seq ttl c p1 advs rs :
  length hdr = 34%nat -> is_u32 rid -> is_u32 (area_id rs) -> is_u16 c ->
  compute_pwospf_checksum (lsu_bytes rid (area_id rs) seq ttl (htons c) advs) 0 = Some (p1, c) ->
  ntohl rid ≠ router_id rs ->
  is_pwospf_packet_valid rs (hdr ++ lsu_bytes rid (area_id rs) seq ttl (htons c) advs) =
    Some (hdr ++ lsu_bytes rid (area_id rs) seq ttl 0 advs, true).
Proof.
  intros Hh Hr Ha Hc Ec Hne.
  set (p := lsu_bytes rid (area_id rs) seq ttl (htons c) advs) in *.
  assert (p1 = lsu_bytes rid (area_id rs) seq ttl 0 advs) as ->.
  { unfold compute_pwospf_checksum in Ec. apply bind_Some_inv in Ec as (q & Hq & Ec).
    apply bind_Some_inv in Ec as (? & _ & Ec). apply bind_Some_inv in Ec as (? & _ & Ec).
    injection Ec as -> _. apply (inj Some). rewrite <- Hq. reflexivity. }
  unfold is_pwospf_packet_valid, pwospf_ver, pwospf_sum. change get_pwospf_hdr with 34%nat.
  rewrite <- Hh. rewrite <- (Nat.add_0_r (length hdr)) at 1. rewrite get8_shift.
  change (get8 p 0) with (Some 2). rewrite opt_bind_Some. cbn [negb Z.eqb Pos.eqb].
  rewrite get16_shift.
  assert (get16 p 12 = Some (htons c)) as ->.
  { unfold p, lsu_bytes, pwospf_header. rewrite <- !app_assoc.
    rewrite (app_assoc [2; _]), (app_assoc (_ ++ _)), (app_assoc (_ ++ _)).
    exact (get16_half_at ((([2; u8 PWOSPF_TYPE_LINK_STATE_UPDATE]
      ++ half_bytes (htons (u16 (Z.of_nat (32 + 12 * length advs))))) ++ word_bytes rid)
      ++ word_bytes (htonl (area_id rs))) (htons c) _ (bswap16_range _)). }
  rewrite opt_bind_Some, (compute_pwospf_checksum_shift hdr p _ c Ec), opt_bind_Some.
  unfold htons at 1 2. rewrite bswap16_involutive, Z.eqb_refl by done. cbn [negb].
  unfold pwospf_atype, pwospf_aid, pwospf_rid. rewrite get16_shift, !get32_shift.
  change (get16 (lsu_bytes rid (area_id rs) seq ttl 0 advs) 14) with (Some 0). rewrite opt_bind_Some.
  assert (get32 (lsu_bytes rid (area_id rs) seq ttl 0 advs) 8 = Some (htonl (area_id rs))) as ->.
  { unfold lsu_bytes, pwospf_header. rewrite <- !app_assoc.
    rewrite (app_assoc [2; _]), (app_assoc (_ ++ _)).
    exact (get32_word_at (([2; u8 PWOSPF_TYPE_LINK_STATE_UPDATE]
      ++ half_bytes (htons (u16 (Z.of_nat (32 + 12 * length advs))))) ++ word_bytes rid)
      (htonl (area_id rs)) _ (bswap32_range _)). }
  assert (get32 (lsu_bytes rid (area_id rs) seq ttl 0 advs) 4 = Some rid) as ->.
  { unfold lsu_bytes, pwospf_header. rewrite <- !app_assoc. rewrite (app_assoc [2; _]).
    exact (get32_word_at ([2; u8 PWOSPF_TYPE_LINK_STATE_UPDATE]
      ++ half_bytes (htons (u16 (Z.of_nat (32 + 12 * length advs))))) rid _ Hr). }
  rewrite !opt_bind_Some. unfold ntohl at 1, htonl. rewrite bswap32_involutive, !Z.eqb_refl by done.
  apply Z.eqb_neq in Hne. rewrite Hne. reflexivity.
Qed.


(** ** Lemmas: the interface list of a router *)

Definition iface_key (e : pwospf_interface) : Z * Z * Z := (pi_subnet e, pi_mask e, pi_router_id e).
Definition adv_key (a : pwospf_lsu_adv) : Z * Z * Z := (Z.land (la_sub a) (la_mask a), la_mask a, la_rid a).

(** An advertisement whose subnet has no host bits, as routers send them. *)
Definition adv_masked (a : pwospf_lsu_adv) : Prop := Z.land (la_sub a) (la_mask a) = la_sub a.

Lemma adv_matches_key a e : adv_matches a e = true <-> iface_key e = adv_key a.
Proof.
  unfold adv_matches, iface_key, adv_key. rewrite !andb_true_iff, !Z.eqb_eq.
  split; [by intros [[-> ->] ->]|by intros [= -> -> ->]].
Qed.

Lemma existsb_adv_matches a l :
  existsb (adv_matches a) l = true <-> adv_key a ∈ map iface_key l.
Proof.
  rewrite existsb_exists. setoid_rewrite adv_matches_key. setoid_rewrite <- list_elem_of_In.
  rewrite list_elem_of_fmap. naive_solver.
Qed.

Lemma existsb_matches_adv e advs :
  existsb (fun a => adv_matches a e) advs = true <-> iface_key e ∈ map adv_key advs.
Proof.
  rewrite existsb_exists. setoid_rewrite adv_matches_key. setoid_rewrite <- list_elem_of_In.
  rewrite list_elem_of_fmap. naive_solver.
Qed.

Lemma remove_missing_advs_spec advs l changed :
  let '(r, c) := remove_missing_advs advs l changed in
  r = bfilter (fun e => existsb (fun a => adv_matches a e) advs) l /\
  (c = false <-> changed = false /\ r = l).
Proof.
  revert changed. induction l as [|e l IH]; intros changed; cbn [remove_missing_advs bfilter].
  { split; [done|]. tauto. }
  destruct (existsb (fun a => adv_matches a e) advs).
  - specialize (IH changed). destruct (remove_missing_advs advs l changed) as [r c].
    destruct IH as [<- IH]. split; [done|]. rewrite IH. split; [intros [-> ->]; done|].
    intros [-> [= E]]. done.
  - specialize (IH true). destruct (remove_missing_advs advs l true) as [r c].
    destruct IH as [-> IH]. split; [done|]. rewrite IH. split; [by intros [? _]|].
    intros [_ E]. apply (f_equal length) in E.
    pose proof (bfilter_length_le (fun e => existsb (fun a => adv_matches a e) advs) l).
    simpl in E. lia.
Qed.

(** After the first loop the list has the keys it had and those of the new
    entries; it is untouched exactly when every advertisement was known. *)
Lemma add_new_advs_spec advs l changed :
  let '(r, c) := add_new_advs advs l changed in
  (forall k, k ∈ map iface_key l -> k ∈ map iface_key r) /\
  (forall k, k ∈ map iface_key r ->
     k ∈ map iface_key l \/ exists a, a ∈ advs /\ k = iface_key (new_interface a)) /\
  (forall a, a ∈ advs ->
     adv_key a ∈ map iface_key r \/ iface_key (new_interface a) ∈ map iface_key r) /\
  (c = false -> changed = false /\ r = l) /\
  (changed = false -> (forall a, a ∈ advs -> adv_key a ∈ map iface_key l) -> c = false).
Proof.
  revert l changed. induction advs as [|a advs IH]; intros l changed; cbn [add_new_advs].
  { split_and!; [done|auto| |done|done]. by intros a ?%elem_of_nil. }
  destruct (existsb (adv_matches a) l) eqn:E.
  - specialize (IH l changed). destruct (add_new_advs advs l changed) as [r c].
    destruct IH as (H1 & H2 & H3 & H4 & H5). apply existsb_adv_matches in E. split_and!.
    + done.
    + intros k Hk. destruct (H2 k Hk) as [?|(a' & ? & ?)]; [by left|].
      right. exists a'. by rewrite elem_of_cons; auto.
    + intros a' [->|Ha']%elem_of_cons; [left; by apply H1|by apply H3].
    + done.
    + intros Hc Hall. apply H5; [done|]. intros a' Ha'. apply Hall. by apply list_elem_of_further.
  - specialize (IH (l ++ [new_interface a]) true).
    destruct (add_new_advs advs (l ++ [new_interface a]) true) as [r c].
    destruct IH as (H1 & H2 & H3 & H4 & H5). rewrite map_app in *. cbn [map] in *. split_and!.
    + intros k Hk. apply H1. rewrite elem_of_app. by left.
    + intros k Hk. destruct (H2 k Hk) as [Hk'|(a' & ? & ?)].
      * rewrite elem_of_app, list_elem_of_singleton in Hk'. destruct Hk' as [? | ->]; [by left|].
        right. exists a. by rewrite elem_of_cons; auto.
      * right. exists a'. by rewrite elem_of_cons; auto.
    + intros a' [->|Ha']%elem_of_cons; [|by apply H3].
      right. apply H1. rewrite elem_of_app, list_elem_of_singleton. by right.
    + intros Hc. by destruct (H4 Hc).
    + intros _ Hall. exfalso. specialize (Hall a (list_elem_of_here _ _)).
      apply existsb_adv_matches in Hall. congruence.
Qed.

Lemma populate_pwospf_router_interface_list_spec advs l :
  Forall adv_masked advs ->
  let '(r, changed) := populate_pwospf_router_interface_list advs l in
  (forall k, k ∈ map iface_key r <-> k ∈ map adv_key advs) /\
  (changed = false <-> l ≠ [] /\ forall k, k ∈ map iface_key l <-> k ∈ map adv_key advs).
Proof.
  intros Hm. rewrite Forall_forall in Hm. unfold populate_pwospf_router_interface_list.
  destruct l as [|e0 l0].
  { split; [|split; [done|by intros [? _]]]. intros k. by rewrite map_map. }
  set (l := e0 :: l0). pose proof (add_new_advs_spec advs l false) as H.
  destruct (add_new_advs advs l false) as [l1 c1]. destruct H as (H1 & H2 & H3 & H4 & H5).
  pose proof (remove_missing_advs_spec advs l1 c1) as H.
  destruct (remove_missing_advs advs l1 c1) as [r c]. destruct H as [-> H6].
  assert (forall a, a ∈ advs -> iface_key (new_interface a) = adv_key a) as Hkey.
  { intros a Ha. unfold iface_key, adv_key, new_interface. simpl.
    by rewrite (Hm a Ha : Z.land _ _ = _), Z.land_diag. }
  assert (forall k, k ∈ map iface_key (bfilter (fun e => existsb (fun a => adv_matches a e) advs) l1)
    <-> k ∈ map adv_key advs) as Hr.
  { intros k. rewrite list_elem_of_fmap. split.
    - intros (e & -> & He). apply elem_of_bfilter in He as [_ He]. by apply existsb_matches_adv.
    - intros Hk. assert (k ∈ map iface_key l1) as Hk1.
      { apply list_elem_of_fmap in Hk as (a & -> & Ha).
        destruct (H3 a Ha) as [?|Hn]; [done|]. by rewrite Hkey in Hn. }
      apply list_elem_of_fmap in Hk1 as (e & -> & He). exists e. split; [done|].
      apply elem_of_bfilter. split; [done|]. by apply existsb_matches_adv. }
  split; [exact Hr|]. rewrite H6. split.
  - intros [Hc1 Hl1]. destruct (H4 Hc1) as [_ ->]. split; [done|].
    intros k. rewrite <- Hr. by rewrite Hl1.
  - intros [_ Hall]. assert (c1 = false) as Hc1.
    { apply H5; [done|]. intros a Ha. apply Hall. apply list_elem_of_fmap. by exists a. }
    split; [done|]. destruct (H4 Hc1) as [_ ->]. apply bfilter_true.
    intros e He. apply existsb_matches_adv, Hall, list_elem_of_fmap. by exists e.
Qed.

(** From advertisements without host bits, a router's interface list gets
    exactly the advertised interfaces, and the update counts as a change
    unless the list was not empty and already held exactly those. *)
Theorem populate_pwospf_router_interface_list_correct advs l :
  Forall adv_masked advs ->
  let '(r, changed) := populate_pwospf_router_interface_list advs l in
  (forall k, k ∈ map iface_key r <-> k ∈ map adv_key advs) /\
  (changed = false <-> l ≠ [] /\ forall k, k ∈ map iface_key l <-> k ∈ map adv_key advs).
Proof. apply populate_pwospf_router_interface_list_spec. Qed.

(** An advertisement with host bits that a known router did not advertise
    before is never learnt: its entry is made with the unmasked subnet and
    removed again, so the router's list stays as it was and every such update
    counts as a change. *)
Theorem unmasked_adv_never_learnt a e l :
  Z.land (la_sub a) (la_mask a) ≠ la_sub a -> adv_key a ∉ map iface_key (e :: l) ->
  let known := map (fun e => mk_lsu_adv (pi_subnet e) (pi_mask e) (pi_router_id e)) (e :: l) in
  Forall adv_masked known ->
  populate_pwospf_router_interface_list (known ++ [a]) (e :: l) = (e :: l, true).
Proof.
  intros Hun Hnew known Hm. unfold populate_pwospf_router_interface_list.
  assert (map adv_key known = map iface_key (e :: l)) as Hkeys.
  { unfold known in *. clear Hnew. induction (e :: l) as [|x t IH]; [done|].
    cbn [map] in *. apply Forall_cons in Hm as [Hx Ht]. rewrite IH by done. f_equal.
    unfold adv_key, iface_key. simpl. unfold adv_masked in Hx. simpl in Hx. by rewrite Hx. }
  assert (forall advs c, (forall x, x ∈ advs -> adv_key x ∈ map iface_key (e :: l)) ->
    add_new_advs (advs ++ [a]) (e :: l) c = ((e :: l) ++ [new_interface a], true)) as Hadd.
  { induction advs as [|x advs IH]; intros c Hin; cbn [app add_new_advs].
    - destruct (existsb (adv_matches a) (e :: l)) eqn:E; [|done].
      by apply existsb_adv_matches in E.
    - assert (existsb (adv_matches x) (e :: l) = true) as ->
        by (apply existsb_adv_matches, Hin, list_elem_of_here).
      apply IH. intros y Hy. apply Hin. by apply list_elem_of_further. }
  rewrite Hadd.
  2:{ intros x Hx. rewrite <- Hkeys. apply list_elem_of_fmap. by exists x. }
  pose proof (remove_missing_advs_spec (known ++ [a]) ((e :: l) ++ [new_interface a]) true) as H.
  destruct (remove_missing_advs (known ++ [a]) ((e :: l) ++ [new_interface a]) true) as [r c].
  destruct H as [-> Hc]. destruct c; [|by destruct Hc as [[? _] _]]. f_equal.
  rewrite bfilter_app, (bfilter_true _ (e :: l)).
  2:{ intros x Hx. apply existsb_matches_adv. rewrite map_app, elem_of_app, Hkeys. left.
      apply list_elem_of_fmap. by exists x. }
  cbn [bfilter].
  assert (existsb (fun b => adv_matches b (new_interface a)) (known ++ [a]) = false) as ->.
  { apply not_true_is_false. intros H%existsb_matches_adv. rewrite map_app, elem_of_app in H.
    unfold iface_key, new_interface in H. cbn [pi_subnet pi_mask pi_router_id] in H.
    rewrite Z.land_diag in H.
    destruct H as [H|H].
    - apply list_elem_of_fmap in H as (b & Hb & Hin).
      rewrite Forall_forall in Hm. specialize (Hm b Hin). unfold adv_masked in Hm.
      injection Hb as E1 E2 E3. rewrite Hm in E1. apply Hun. by rewrite E1, E2.
    - cbn [map] in H. rewrite list_elem_of_singleton in H. injection H as E. congruence. }
  by rewrite app_nil_r.
Qed.

(** ** Lemmas: recording an update *)

(** The record of a router says what its last update said. *)
Definition records (r : pwospf_router) (rid seq : Z) (advs : list pwospf_lsu_adv) : Prop :=
  pr_router_id r = rid /\ pr_seq r = seq /\
  forall k, k ∈ map iface_key (pr_interface_list r) <-> k ∈ map adv_key advs.

Lemma record_lsu_spec packet rid seq ttl advs w :
  reads_lsu packet rid seq ttl advs -> is_u16 seq -> Forall adv_masked advs ->
  exists rebroadcast changed w', record_lsu packet w = Done (rebroadcast, changed) w' /\
    w_trace w' = w_trace w /\
    match get_router_by_rid rid (pwospf_router_list (w_rs w)) with
    | None =>
        rebroadcast = true /\ changed = true /\ exists r, records r rid seq advs /\
          w_rs w' = set_pwospf_router_list (pwospf_router_list (w_rs w) ++ [r]) (w_rs w)
    | Some k =>
        exists r, pwospf_router_list (w_rs w) !! k = Some r /\
          if pr_seq r <? seq then
            rebroadcast = true /\ exists r', records r' rid seq advs /\
              w_rs w' = set_pwospf_router_list (<[k := r']> (pwospf_router_list (w_rs w))) (w_rs w) /\
              (changed = false <-> pr_interface_list r ≠ [] /\
                 forall k, k ∈ map iface_key (pr_interface_list r) <-> k ∈ map adv_key advs)
          else rebroadcast = false /\ changed = false /\ w' = w
    end.
Proof.
  intros [_ Hrid [aid Haid] Hseq _ Hadvs] Hs Hm. unfold record_lsu.
  erewrite bind_done by reflexivity. rewrite Hrid. erewrite bind_done by reflexivity.
  destruct (get_router_by_rid rid (pwospf_router_list (w_rs w))) as [k|] eqn:Ek.
  - destruct (get_router_by_rid_lt _ _ _ Ek) as (r & Hr & Hid). rewrite Hr.
    erewrite bind_done by reflexivity. rewrite Hseq. erewrite bind_done by reflexivity.
    unfold ntohs, htons. rewrite bswap16_involutive by done.
    destruct (Z.ltb_spec (pr_seq r) seq) as [Hlt|Hge].
    + destruct (Z.eqb_spec (pr_seq r) seq); [lia|]. cbn [negb andb].
      do 2 (erewrite bind_done by reflexivity). rewrite Hadvs. erewrite bind_done by reflexivity.
      pose proof (populate_pwospf_router_interface_list_spec advs (pr_interface_list r) Hm) as HP.
      destruct (populate_pwospf_router_interface_list advs (pr_interface_list r)) as [l changed].
      destruct HP as [HP1 HP2]. erewrite bind_done by reflexivity.
      eexists _, _, _. split; [reflexivity|]. split; [done|]. exists r. split; [done|].
      rewrite (proj2 (Z.ltb_lt _ _) Hlt).
      split; [done|]. cbn [w_rs pwospf_router_list set_pwospf_router_list].
      rewrite list_alter_alter_eq, (alter_lookup _ _ _ r Hr).
      eexists. split; [|split; [reflexivity|exact HP2]].
      split; [done|]. split; [done|exact HP1].
    + assert (negb (pr_seq r =? seq) && false = false) as -> by apply andb_false_r.
      eexists _, _, _. split; [reflexivity|]. split; [done|]. exists r. split; [done|].
      by rewrite (proj2 (Z.ltb_ge _ _) Hge).
  - unfold add_new_router_neighbor. rewrite Hrid, Haid, Hseq, Hadvs.
    eexists _, _, _. split; [reflexivity|]. split; [done|]. split; [done|]. split; [done|].
    eexists. split; [|reflexivity]. split; [done|]. cbn. unfold ntohs, htons.
    split; [by apply bswap16_involutive|]. intros k. by rewrite map_map.
Qed.

(** C12: An update with masked subnets from a router that is not known adds it to
    the list with what the update says; one newer than the last of a known router
    replaces what is recorded of it; an older or repeated update is ignored. A
    newer update is reported as no change exactly when the list recorded before
    is not empty and names the same interfaces: one that finds an empty list is
    a change, also when it is empty itself. *)
Theorem record_lsu_correct packet rid seq ttl advs w :
  reads_lsu packet rid seq ttl advs -> is_u16 seq -> Forall adv_masked advs ->
  exists rebroadcast changed w', record_lsu packet w = Done (rebroadcast, changed) w' /\
    w_trace w' = w_trace w /\
    match get_router_by_rid rid (pwospf_router_list (w_rs w)) with
    | None =>
        rebroadcast = true /\ changed = true /\ exists r, records r rid seq advs /\
          w_rs w' = set_pwospf_router_list (pwospf_router_list (w_rs w) ++ [r]) (w_rs w)
    | Some k =>
        exists r, pwospf_router_list (w_rs w) !! k = Some r /\
          if pr_seq r <? seq then
            rebroadcast = true /\ exists r', records r' rid seq advs /\
              w_rs w' = set_pwospf_router_list (<[k := r']> (pwospf_router_list (w_rs w))) (w_rs w) /\
              (changed = false <-> pr_interface_list r ≠ [] /\
                 forall k, k ∈ map iface_key (pr_interface_list r) <-> k ∈ map adv_key advs)
          else rebroadcast = false /\ changed = false /\ w' = w
    end.
Proof. apply record_lsu_spec. Qed.

(** ** Lemmas: forwarding an update *)

Lemma put16_half_at a v b v' :
  put16 (a ++ half_bytes v ++ b) (length a) v' = Some (a ++ half_bytes v' ++ b).
Proof.
  rewrite <- (Nat.add_0_r (length a)), put16_shift. reflexivity.
Qed.

Lemma build_bcasted_lsu_spec hdr rid aid seq ttl sum advs ttl' :
  length hdr = 34%nat -> advs_fit advs ->
  exists c p1, build_bcasted_lsu (hdr ++ lsu_bytes rid aid seq ttl sum advs) ttl' =
      Some (lsu_bytes rid aid seq ttl' (htons c) advs) /\ is_u16 c /\
    compute_pwospf_checksum (lsu_bytes rid aid seq ttl' (htons c) advs) 0 = Some (p1, c).
Proof.
  intros Hh Hf. unfold build_bcasted_lsu, pwospf_len. change get_pwospf_hdr with 34%nat.
  rewrite <- Hh, get16_shift.
  pose proof (lsu_len_field rid aid seq ttl sum advs Hf) as E. unfold pwospf_len in E.
  change (0 + 2)%nat with 2%nat in E. rewrite E, opt_bind_Some. clear E.
  assert (ntohs (htons (Z.of_nat (32 + 12 * length advs))) = Z.of_nat (32 + 12 * length advs)) as ->
    by (apply bswap16_involutive; unfold advs_fit, is_u16 in *; lia).
  rewrite Nat2Z.id, <- (lsu_bytes_length rid aid seq ttl sum advs), get_range_app, opt_bind_Some.
  unfold set_lsu_ttl. change sizeof_pwospf_hdr with 24%nat.
  assert (put16 (lsu_bytes rid aid seq ttl sum advs) (24 + 2) (htons ttl') =
    Some (lsu_bytes rid aid seq ttl' sum advs)) as ->.
  { unfold lsu_bytes, lsu_header. rewrite <- !app_assoc. rewrite app_assoc.
    rewrite (app_assoc _ (half_bytes (htons seq)) (half_bytes (htons ttl') ++ _)).
    exact (put16_half_at (pwospf_header PWOSPF_TYPE_LINK_STATE_UPDATE
      (Z.of_nat (32 + 12 * length advs)) rid aid sum ++ half_bytes (htons seq)) (htons ttl) _ (htons ttl')). }
  rewrite opt_bind_Some. by apply fill_lsu_checksum.
Qed.

(** A frame queued for a neighbour. *)
Record carries (pwospf : bytes) (iface : iface_entry) (nbr : nbr_router)
    (e : pwospf_lsu_queue_entry) : Prop := {
  ca_iface : lq_iface e = if_name iface;
  ca_ip : lq_ip e = if_ip iface;
  ca_len : lq_len e = length (lq_packet e);
  ca_frame : exists dhost c, length dhost = 6%nat /\
    lq_packet e = dhost ++ if_addr iface ++ half_bytes (htons ETH_TYPE_IP)
      ++ ip_header (Z.of_nat (length pwospf)) IP_PROTO_PWOSPF (if_ip iface) (nbr_ip nbr) c ++ pwospf;
  ca_checksum : checksummed (lq_packet e) get_ip_hdr 20
}.

(** The bytes before the PWOSPF packet are headers. *)
Lemma carries_split pwospf iface nbr e :
  length (if_addr iface) = ETH_ADDR_LEN -> carries pwospf iface nbr e ->
  exists hdr, length hdr = 34%nat /\ lq_packet e = hdr ++ pwospf.
Proof.
  intros Ha [_ _ _ (d & c & Hd & E) _].
  exists (d ++ if_addr iface ++ half_bytes (htons ETH_TYPE_IP)
    ++ ip_header (Z.of_nat (length pwospf)) IP_PROTO_PWOSPF (if_ip iface) (nbr_ip nbr) c).
  rewrite !length_app, Hd, Ha, ip_header_length. split; [done|]. by rewrite <- !app_assoc.
Qed.

Lemma build_lsu_frame_spec p len iface nbr :
  is_bytes p -> pwospf_len p 0 = Some len -> Z.to_nat (ntohs len) = length p ->
  length (if_addr iface) = ETH_ADDR_LEN ->
  exists packet, build_lsu_frame p iface nbr = Some (packet, (34 + length p)%nat) /\
    carries p iface nbr (mk_pwospf_lsu_queue_entry (if_ip iface) (if_name iface) packet (34 + length p)).
Proof.
  intros Hb Hlen Hl Ha. unfold build_lsu_frame. rewrite Hlen, opt_bind_Some, Hl.
  change (sizeof_eth_hdr + sizeof_ip_hdr)%nat with 34%nat.
  pose proof (get_range_app [] p) as E. cbn [app length] in E. rewrite E, opt_bind_Some. clear E.
  rewrite calloc_app. change (calloc 34) with (calloc 14 ++ calloc 20). rewrite <- app_assoc.
  pose proof (put_range_app (calloc 14 ++ calloc 20) (calloc (length p)) p []) as E.
  rewrite !app_nil_r, <- !app_assoc in E. change (length (calloc 14 ++ calloc 20)) with get_pwospf_hdr in E.
  rewrite E, opt_bind_Some by apply length_replicate. clear E.
  change get_ip_hdr with (length (calloc 14)).
  rewrite populate_ip_app, opt_bind_Some by done.
  set (q := calloc 14 ++ ip_header (Z.of_nat (length p)) IP_PROTO_PWOSPF (if_ip iface) (nbr_ip nbr) 0 ++ p).
  assert (is_bytes q) as Bq.
  { apply Forall_app. split; [apply calloc_bytes|]. apply Forall_app. split; [apply ip_header_bytes|done]. }
  destruct (fill_ip_checksum_spec q (length (calloc 14))) as (c & q' & Ef & Ep & Hc); [done|reflexivity| |].
  { unfold q. rewrite !length_app, ip_header_length. lia. }
  unfold fill_ip_checksum in Ef. apply bind_Some_inv in Ef as ([q1 c1] & E1 & E2).
  rewrite E1, opt_bind_Some, E2, opt_bind_Some.
  unfold q in Ep. rewrite put_ip_sum in Ep. apply (inj Some) in Ep as <-.
  change (calloc 14) with (calloc 6 ++ calloc 8). rewrite <- (app_assoc (calloc 6)).
  rewrite populate_eth_app, opt_bind_Some by done. eexists. split; [reflexivity|].
  split; cbn [lq_iface lq_ip lq_len lq_packet]; [done|done| | |].
  - rewrite !length_app, Ha, ip_header_length. reflexivity.
  - by exists (calloc 6), c.
  - eapply checksummed_ext; [|exact Hc]. intros i Hi.
    change get_ip_hdr with 14%nat in Hi.
    set (R := ip_header _ _ _ _ _ ++ p).
    replace i with (14 + (i - 14))%nat by lia.
    transitivity (R !! (i - 14)%nat); [|symmetry; exact (lookup_shift (calloc 14) R _)].
    rewrite (app_assoc (if_addr iface)), (app_assoc (calloc 6)).
    rewrite <- (lookup_shift (calloc 6 ++ if_addr iface ++ half_bytes (htons ETH_TYPE_IP)) R).
    f_equal. rewrite !length_app, Ha. unfold ETH_ADDR_LEN. simpl. lia.
Qed.

(** Whom an update is forwarded to: the neighbours on the active interfaces,
    but the one it came from. *)
Definition lsu_targets (ifs : list iface_entry) (src : option Z) : list (iface_entry * nbr_router) :=
  concat (map (fun iface =>
    if if_is_active iface then map (pair iface) (bfilter (not_source src) (if_nbr_routers iface))
    else []) ifs).

(** [w'] has frames with [p] queued for the targets. *)
Definition queues (p : bytes) (targets : list (iface_entry * nbr_router)) (w w' : world) : Prop :=
  exists es, w_rs w' = set_pwospf_lsu_queue (pwospf_lsu_queue (w_rs w) ++ es) (w_rs w) /\
    Forall2 (fun t e => carries p t.1 t.2 e) targets es.

Lemma queues_nil p w w' : w_rs w' = w_rs w -> queues p [] w w'.
Proof. intros E. exists []. rewrite E, app_nil_r. split; [by destruct (w_rs w)|constructor]. Qed.

Lemma queues_app p l1 l2 w w1 w2 : queues p l1 w w1 -> queues p l2 w1 w2 -> queues p (l1 ++ l2) w w2.
Proof.
  intros (e1 & E1 & H1) (e2 & E2 & H2). exists (e1 ++ e2). rewrite E2, E1. simpl.
  rewrite app_assoc. split; [done|]. by apply Forall2_app.
Qed.

Lemma foreach_queues {A} p (f : A -> M unit) (g : A -> list (iface_entry * nbr_router)) l :
  (forall x w, x ∈ l -> wp (f x) (fun _ w' => queues p (g x) w w') w) ->
  forall w, wp (foreach f l) (fun _ w' => queues p (concat (map g l)) w w') w.
Proof.
  induction l as [|x l IH]; intros H w; cbn [foreach map concat]; [by apply queues_nil|].
  apply wp_bind. eapply wp_mono; [apply H, list_elem_of_here|]. intros [] w1 H1.
  eapply wp_mono; [apply IH; intros; by apply H, list_elem_of_further|].
  intros [] w2 H2. by eapply queues_app.
Qed.

Lemma queue_lsu_for_nbr_spec p len src iface nbr w :
  is_bytes p -> pwospf_len p 0 = Some len -> Z.to_nat (ntohs len) = length p ->
  length (if_addr iface) = ETH_ADDR_LEN ->
  wp (queue_lsu_for_nbr p src iface nbr)
    (fun _ w' => queues p (map (pair iface) (bfilter (not_source src) [nbr])) w w') w.
Proof.
  intros Hb Hlen Hl Ha. unfold queue_lsu_for_nbr. cbn [bfilter].
  destruct (not_source src nbr); [|by apply queues_nil].
  destruct (build_lsu_frame_spec p len iface nbr Hb Hlen Hl Ha) as (packet & E & Hc).
  rewrite E. eapply wp_done; [reflexivity|].
  eexists. split; [reflexivity|]. constructor; [exact Hc|constructor].
Qed.

Lemma broadcast_pwospf_lsu_packet_spec p len src w :
  is_bytes p -> pwospf_len p 0 = Some len -> Z.to_nat (ntohs len) = length p ->
  Forall (fun iface => length (if_addr iface) = ETH_ADDR_LEN) (if_list (w_rs w)) ->
  wp (broadcast_pwospf_lsu_packet p src)
    (fun _ w' => queues p (lsu_targets (if_list (w_rs w)) src) w w') w.
Proof.
  intros Hb Hlen Hl Ha. unfold broadcast_pwospf_lsu_packet.
  apply wp_bind. eapply wp_done; [reflexivity|]. apply foreach_queues.
  intros iface w1 Hin. rewrite Forall_forall in Ha. specialize (Ha _ Hin).
  destruct (if_is_active iface); [|by apply queues_nil].
  assert (map (pair iface) (bfilter (not_source src) (if_nbr_routers iface)) =
    concat (map (fun nbr => map (pair iface) (bfilter (not_source src) [nbr])) (if_nbr_routers iface)))
    as ->.
  { induction (if_nbr_routers iface) as [|n l IH]; [done|]. cbn [map concat bfilter].
    destruct (not_source src n); simpl; by rewrite IH. }
  apply foreach_queues. intros nbr w2 _. by eapply queue_lsu_for_nbr_spec.
Qed.

(** ** Correctness: updates received *)

(** Nothing but the locks of the handler. *)
Definition lsu_lock_events : list event :=
  [EvUnlock L_rtable; EvLock L_rtable Wr; EvLock L_router_list Mutex; EvUnlock L_router_list].

(** Flooding ends: our own updates, and updates of known routers that are
    not newer than the last one, change nothing, are not forwarded, and wake
    nobody. *)
Theorem stale_lsu_ignored packet rid seq ttl advs w :
  reads_lsu packet rid seq ttl advs -> is_u16 seq -> Forall adv_masked advs ->
  router_id (w_rs w) = rid \/
  (exists k r, get_router_by_rid rid (pwospf_router_list (w_rs w)) = Some k /\
     pwospf_router_list (w_rs w) !! k = Some r /\ seq <= pr_seq r) ->
  exists w', process_pwospf_lsu_packet packet w = Done tt w' /\ w_rs w' = w_rs w /\
    (w_trace w' = w_trace w \/ w_trace w' = w_trace w ++ lsu_lock_events).
Proof.
  intros Hrd Hs Hm Hcase. unfold process_pwospf_lsu_packet.
  erewrite bind_done by reflexivity. erewrite bind_done by (apply mem_Some, (rl_rid _ _ _ _ _ Hrd)).
  destruct (Z.eqb_spec (router_id (w_rs w)) rid) as [|Hne].
  { exists w. by split_and!; [| |left]. }
  destruct Hcase as [?|(k & r & Hk & Hr & Hle)]; [done|].
  do 3 (erewrite bind_done by reflexivity).
  set (w1 := mk_world _ _ _ _ _).
  destruct (record_lsu_spec packet rid seq ttl advs w1 Hrd Hs Hm) as (rb & ch & w2 & E & _ & Hc).
  change (w_rs w1) with (w_rs w) in Hc. rewrite Hk in Hc. destruct Hc as (r' & Hr' & Hc).
  rewrite Hr in Hr'. injection Hr' as <-.
  destruct (Z.ltb_spec (pr_seq r) seq); [lia|]. destruct Hc as (-> & -> & ->).
  erewrite bind_done by exact E. cbv beta iota.
  erewrite bind_done by (apply mem_Some, (rl_ttl _ _ _ _ _ Hrd)). cbn [andb orb].
  do 3 (erewrite bind_done by reflexivity).
  eexists. split; [reflexivity|]. split; [done|]. right. simpl. by rewrite <- !app_assoc.
Qed.

(** A built update is queued for every neighbour but the sender. *)
Lemma broadcast_lsu_bytes rid aid seq ttl c advs skip w :
  advs_fit advs -> Forall (fun iface => length (if_addr iface) = ETH_ADDR_LEN) (if_list (w_rs w)) ->
  let p := lsu_bytes rid aid seq ttl c advs in
  wp (broadcast_pwospf_lsu_packet p skip)
    (fun _ w' => queues p (lsu_targets (if_list (w_rs w)) skip) w w') w.
Proof.
  intros Hf Ha p. eapply broadcast_pwospf_lsu_packet_spec; [apply lsu_bytes_is_bytes|by apply lsu_len_field| |done].
  unfold p. rewrite lsu_bytes_length. unfold ntohs, htons.
  rewrite bswap16_involutive by (unfold advs_fit, is_u16 in *; lia). by rewrite Nat2Z.id.
Qed.

(** Only a time to live of 1 runs out: 0 becomes 65535. *)
Lemma ttl_runs_out ttl : is_u16 ttl -> (0 <? u16 (ttl - 1)) = negb (ttl =? 1).
Proof.
  unfold u16, is_u16. intros H. destruct (Z.eqb_spec ttl 1) as [->|]; [done|]. simpl.
  apply Z.ltb_lt. change (2 ^ 16) with 65536 in *. Z.div_mod_to_equations. lia.
Qed.

(** What a newer update of a known router that repeats its interfaces does,
    whatever its time to live. *)
Lemma lsu_refresh_done hdr rid seq ttl advs src w k r :
  length hdr = 34%nat -> get32 hdr 26 = Some src -> is_u32 rid -> is_u32 (area_id (w_rs w)) ->
  is_u16 seq -> is_u16 ttl -> advs_fit advs -> Forall adv_words advs -> Forall adv_masked advs ->
  router_id (w_rs w) ≠ rid -> get_router_by_rid rid (pwospf_router_list (w_rs w)) = Some k ->
  pwospf_router_list (w_rs w) !! k = Some r -> pr_seq r < seq -> pr_interface_list r ≠ [] ->
  (forall key, key ∈ map iface_key (pr_interface_list r) <-> key ∈ map adv_key advs) ->
  Forall (fun iface => length (if_addr iface) = ETH_ADDR_LEN) (if_list (w_rs w)) ->
  exists p w' r' es,
    process_pwospf_lsu_packet (hdr ++ lsu_bytes rid (area_id (w_rs w)) seq ttl 0 advs) w = Done tt w' /\
    records r' rid seq advs /\
    pwospf_router_list (w_rs w') = <[k := r']> (pwospf_router_list (w_rs w)) /\
    pwospf_lsu_queue (w_rs w') = pwospf_lsu_queue (w_rs w) ++ es /\
    if ttl =? 1 then es = [] else
      Forall2 (fun t e => carries p t.1 t.2 e) (lsu_targets (if_list (w_rs w)) (Some src)) es /\
      forall hdr' rs, length hdr' = 34%nat -> area_id rs = area_id (w_rs w) ->
        ntohl rid ≠ router_id rs ->
        exists packet, is_pwospf_packet_valid rs (hdr' ++ p) = Some (packet, true) /\
          reads_lsu packet rid seq (u16 (ttl - 1)) advs.
Proof.
  intros Hh Hsrc Urid Uaid Useq Uttl Hf Hw Hm Hne Hk Hr Hlt Hnil Hkeys Ha.
  set (aid := area_id (w_rs w)) in *. set (packet := hdr ++ _).
  assert (reads_lsu packet rid seq ttl advs) as Hrd by by apply lsu_bytes_reads.
  destruct (build_bcasted_lsu_spec hdr rid aid seq ttl 0 advs (u16 (ttl - 1)) Hh Hf)
    as (c & p1 & Eb & Uc & Ec).
  set (p := lsu_bytes rid aid seq (u16 (ttl - 1)) (htons c) advs) in *. exists p.
  unfold process_pwospf_lsu_packet. erewrite bind_done by reflexivity.
  erewrite bind_done by (apply mem_Some, (rl_rid _ _ _ _ _ Hrd)).
  apply Z.eqb_neq in Hne as Hne'. rewrite Hne'. do 3 (erewrite bind_done by reflexivity).
  set (w1 := mk_world _ _ _ _ _).
  destruct (record_lsu_spec packet rid seq ttl advs w1 Hrd Useq Hm) as (rb & ch & w2 & E & _ & Hc).
  change (w_rs w1) with (w_rs w) in Hc. rewrite Hk in Hc. destruct Hc as (r0 & Hr0 & Hc).
  rewrite Hr in Hr0. injection Hr0 as <-.
  rewrite (proj2 (Z.ltb_lt _ _) Hlt) in Hc. destruct Hc as (-> & r' & Hrec & Hrs & Hch).
  assert (ch = false) as -> by by apply Hch.
  erewrite bind_done by exact E. cbv beta iota.
  erewrite bind_done by (apply mem_Some, (rl_ttl _ _ _ _ _ Hrd)).
  assert (ntohs (htons ttl) = ttl) as -> by by apply bswap16_involutive.
  cbv zeta. cbn [andb orb].
  assert (forall hdr' rs, length hdr' = 34%nat -> area_id rs = aid -> ntohl rid ≠ router_id rs ->
    exists packet, is_pwospf_packet_valid rs (hdr' ++ p) = Some (packet, true) /\
      reads_lsu packet rid seq (u16 (ttl - 1)) advs) as Hacc.
  { intros hdr' rs Hh' Ea Hn'.
    pose proof (lsu_accepted hdr' rid seq (u16 (ttl - 1)) c p1 advs rs Hh' Urid) as L.
    rewrite Ea in L. eexists. split; [by apply L|by apply lsu_bytes_reads]. }
  rewrite ttl_runs_out by done.
  destruct (ttl =? 1); cbn [negb orb].
  - do 3 (erewrite bind_done by reflexivity). eexists _, r', []. split; [reflexivity|].
    simpl. rewrite Hrs, app_nil_r. by split_and!.
  - assert (Forall (fun iface => length (if_addr iface) = ETH_ADDR_LEN) (if_list (w_rs w2))) as Ha2
      by by rewrite Hrs.
    pose proof (broadcast_lsu_bytes rid aid seq (u16 (ttl - 1)) (htons c) advs (Some src) w2 Hf Ha2) as Hb.
    apply wp_inv in Hb as ([] & w3 & Hb & es & Ees & Hes). rewrite Hrs in Ees, Hes.
    erewrite bind_done.
    2:{ erewrite bind_done by (by apply mem_Some). erewrite bind_done; [exact Hb|].
        apply mem_Some. unfold ip_src. rewrite <- Hsrc. apply get32_ext. intros j Hj.
        unfold packet. rewrite lookup_app_l; [done|].
        unfold get_ip_hdr, ETH_HDR_LEN in Hj. lia. }
    do 2 (erewrite bind_done by reflexivity). eexists _, r', es. split; [reflexivity|].
    simpl. rewrite Ees. by split_and!.
Qed.


(** An update that arrives with a time to live of 0 is forwarded like any other,
    with a time to live of 65535. *)
Theorem lsu_ttl_zero_wraps hdr rid seq advs src w k r :
  length hdr = 34%nat -> get32 hdr 26 = Some src -> is_u32 rid -> is_u32 (area_id (w_rs w)) ->
  is_u16 seq -> advs_fit advs -> Forall adv_words advs -> Forall adv_masked advs ->
  router_id (w_rs w) ≠ rid -> get_router_by_rid rid (pwospf_router_list (w_rs w)) = Some k ->
  pwospf_router_list (w_rs w) !! k = Some r -> pr_seq r < seq -> pr_interface_list r ≠ [] ->
  (forall key, key ∈ map iface_key (pr_interface_list r) <-> key ∈ map adv_key advs) ->
  Forall (fun iface => length (if_addr iface) = ETH_ADDR_LEN) (if_list (w_rs w)) ->
  exists p w' r' es,
    process_pwospf_lsu_packet (hdr ++ lsu_bytes rid (area_id (w_rs w)) seq 0 0 advs) w = Done tt w' /\
    records r' rid seq advs /\
    pwospf_router_list (w_rs w') = <[k := r']> (pwospf_router_list (w_rs w)) /\
    pwospf_lsu_queue (w_rs w') = pwospf_lsu_queue (w_rs w) ++ es /\
      Forall2 (fun t e => carries p t.1 t.2 e) (lsu_targets (if_list (w_rs w)) (Some src)) es /\
      forall hdr' rs, length hdr' = 34%nat -> area_id rs = area_id (w_rs w) ->
        ntohl rid ≠ router_id rs ->
        exists packet, is_pwospf_packet_valid rs (hdr' ++ p) = Some (packet, true) /\
          reads_lsu packet rid seq 65535 advs.
Proof.
  intros Hh Hsrc Urid Uaid Useq. by apply (lsu_refresh_done hdr rid seq 0).
Qed.
