(* ===== verification/Nat.v ===== *)
(** Network address translation: or_nat.c without its maintenance thread, and
    [populate_nat_packet] of or_utils.c. A packet that leaves by the WAN
    interface gets the external address and port of its table entry, a packet
    that comes in by it the internal ones, and the checksums are updated from
    the sums cached in the entry. *)

From S2P Require Import Prelude Words Bytes State Headers Checksum Packets.
Local Open Scope Z_scope.
Local Open Scope scone_scope.

Definition lock_nat_table : M unit := acquire L_nat_table Mutex.
Definition unlock_nat_table : M unit := release L_nat_table.

Inductive nat_type := NAT_EXTERNAL | NAT_INTERNAL.

(** ** Headers

    The TCP, UDP and ICMP headers are at the same place; an ICMP error holds
    the IP header of the packet it is about, followed by its ports or by its
    ICMP header. *)

Definition sizeof_nat_icmp_hdr : nat := 8.

Definition get_nat_tcp_hdr : nat := ETH_HDR_LEN + sizeof_ip_hdr.
Definition get_nat_udp_hdr : nat := ETH_HDR_LEN + sizeof_ip_hdr.
Definition get_nat_icmp_hdr : nat := ETH_HDR_LEN + sizeof_ip_hdr.
Definition get_ip_hdr_from_icmp_data : nat := ETH_HDR_LEN + sizeof_ip_hdr + sizeof_nat_icmp_hdr.
Definition get_nat_port_list_from_icmp_data : nat :=
  ETH_HDR_LEN + sizeof_ip_hdr + sizeof_nat_icmp_hdr + sizeof_ip_hdr.
Definition get_icmp_hdr_from_icmp_data : nat :=
  ETH_HDR_LEN + sizeof_ip_hdr + sizeof_nat_icmp_hdr + sizeof_ip_hdr.

Definition tcp_sport (p : bytes) (o : nat) : option Z := get16 p o.
Definition tcp_dport (p : bytes) (o : nat) : option Z := get16 p (o + 2).
Definition tcp_sum (p : bytes) (o : nat) : option Z := get16 p (o + 16).
Definition set_tcp_sport (p : bytes) (o : nat) (v : Z) : option bytes := put16 p o v.
Definition set_tcp_dport (p : bytes) (o : nat) (v : Z) : option bytes := put16 p (o + 2) v.
Definition set_tcp_sum (p : bytes) (o : nat) (v : Z) : option bytes := put16 p (o + 16) v.

Definition udp_sport (p : bytes) (o : nat) : option Z := get16 p o.
Definition udp_dport (p : bytes) (o : nat) : option Z := get16 p (o + 2).
Definition udp_sum (p : bytes) (o : nat) : option Z := get16 p (o + 6).
Definition set_udp_sport (p : bytes) (o : nat) (v : Z) : option bytes := put16 p o v.
Definition set_udp_dport (p : bytes) (o : nat) (v : Z) : option bytes := put16 p (o + 2) v.
Definition set_udp_sum (p : bytes) (o : nat) (v : Z) : option bytes := put16 p (o + 6) v.

Definition icmp_sum (p : bytes) (o : nat) : option Z := get16 p (o + 2).
Definition icmp_opt1 (p : bytes) (o : nat) : option Z := get16 p (o + 4).
Definition set_icmp_opt1 (p : bytes) (o : nat) (v : Z) : option bytes := put16 p (o + 4) v.

Definition is_echo (type : Z) : bool :=
  (type =? ICMP_TYPE_ECHO_REQUEST) || (type =? ICMP_TYPE_ECHO_REPLY).

Definition is_icmp_error (type : Z) : bool :=
  (type =? ICMP_TYPE_TIME_EXCEEDED) || (type =? ICMP_TYPE_DESTINATION_UNREACHABLE).

(** ** The address and port of a packet *)

Definition get_nat_echo_id_from_icmp_data (packet : bytes) : option Z :=
  icmp_opt1 packet get_icmp_hdr_from_icmp_data.

(** The port, 0 when the message has none. *)
Definition get_nat_port_from_icmp (packet : bytes) (t : nat_type) : option Z :=
  type ← icmp_type packet get_nat_icmp_hdr;
  if is_echo type then icmp_opt1 packet get_nat_icmp_hdr
  else if is_icmp_error type then
    proto ← ip_p packet get_ip_hdr_from_icmp_data;
    if (proto =? IP_PROTO_UDP) || (proto =? IP_PROTO_TCP) then
      match t with
      | NAT_EXTERNAL => get16 packet get_nat_port_list_from_icmp_data
      | NAT_INTERNAL => get16 packet (get_nat_port_list_from_icmp_data + 2)
      end
    else if proto =? IP_PROTO_ICMP then get_nat_echo_id_from_icmp_data packet
    else Some 0
  else Some 0.

Definition get_nat_ip_port_pair (packet : bytes) (t : nat_type) : option (Z * Z) :=
  proto ← ip_p packet get_ip_hdr;
  ip ← match t with
       | NAT_EXTERNAL => ip_dst packet get_ip_hdr
       | NAT_INTERNAL => ip_src packet get_ip_hdr
       end;
  if proto =? IP_PROTO_TCP then
    port ← match t with
           | NAT_EXTERNAL => tcp_dport packet get_nat_tcp_hdr
           | NAT_INTERNAL => tcp_sport packet get_nat_tcp_hdr
           end;
    Some (ip, port)
  else if proto =? IP_PROTO_UDP then
    port ← match t with
           | NAT_EXTERNAL => udp_dport packet get_nat_udp_hdr
           | NAT_INTERNAL => udp_sport packet get_nat_udp_hdr
           end;
    Some (ip, port)
  else if proto =? IP_PROTO_ICMP then
    port ← get_nat_port_from_icmp packet t; Some (ip, port)
  else Some (0, 0).

Definition get_src_port_number_from_icmp (packet : bytes) : option Z :=
  type ← icmp_type packet get_nat_icmp_hdr;
  if is_echo type then icmp_opt1 packet get_nat_icmp_hdr
  else if is_icmp_error type then get16 packet get_nat_port_list_from_icmp_data
  else Some 0.

Definition get_src_port_number (packet : bytes) (ip_protocol : Z) : option Z :=
  if ip_protocol =? IP_PROTO_TCP then tcp_sport packet get_nat_tcp_hdr
  else if ip_protocol =? IP_PROTO_UDP then udp_sport packet get_nat_udp_hdr
  else if ip_protocol =? IP_PROTO_ICMP then get_src_port_number_from_icmp packet
  else Some 0.

(** ** The table *)

Definition nat_side (ne : nat_entry) (t : nat_type) : nat_ip_port_pair :=
  match t with NAT_EXTERNAL => nat_ext ne | NAT_INTERNAL => nat_int ne end.

Definition found_nat_table_match (nipp : Z * Z) (t : nat_type) (ne : nat_entry) : bool :=
  (np_ip (nat_side ne t) =? nipp.1) && (np_port (nat_side ne t) =? nipp.2).

(** The position of the entry in the table. *)
Definition get_nat_table_entry (table : list nat_entry) (packet : bytes) (t : nat_type)
    : option (option nat) :=
  pair ← get_nat_ip_port_pair packet t;
  Some (find_index (found_nat_table_match pair t) table).

(** The port of the argument is in host order, the one of the entries in
    network order. *)
Definition is_unique_nat_ext_port (table : list nat_entry) (port : Z) : bool :=
  negb (existsb (fun ne => np_port (nat_ext ne) =? port) table).

(** [port = (unsigned short) rand()] until a port above 1024 passes the test. *)
Fixpoint random_ext_port (fuel : nat) (table : list nat_entry) : M Z :=
  match fuel with
  | O => fail OutOfFuel
  | S fuel' =>
      r ← rand;
      let port := u16 r in
      if (1024 <? port) && is_unique_nat_ext_port table port then mret port
      else random_ext_port fuel' table
  end.

(** Appends an entry; its position. *)
Definition create_nat_table_entry (fuel : nat) (packet : bytes) (ext_ip : Z) : M nat :=
  rs ← get_rs;
  port ← random_ext_port fuel (nat_table rs);
  now ← time;
  src ← mem (ip_src packet get_ip_hdr);
  proto ← mem (ip_p packet get_ip_hdr);
  src_port ← mem (get_src_port_number packet proto);
  let ne := mk_nat_entry
    (compute_nat_checksums (mk_nat_ip_port_pair ext_ip (htons port) 0 0 0))
    (compute_nat_checksums (mk_nat_ip_port_pair src src_port 0 0 0))
    0 now 0 255 0 in
  modify_rs (fun rs => set_nat_table (nat_table rs ++ [ne]) rs);;
  signal C_nat_table;;
  mret (length (nat_table rs)).

(** [ne->hits++] *)
Definition hit (ne : nat_entry) : nat_entry :=
  mk_nat_entry (nat_ext ne) (nat_int ne) (nat_last_hits ne) (nat_last_hits_time ne)
    (u32 (nat_hits ne + 1)) (nat_hw_row ne) (nat_is_static ne).

Definition count_hit (i : nat) : M unit :=
  modify_rs (fun rs => set_nat_table (alter hit i (nat_table rs)) rs).

(** ** Rewriting a packet (or_utils.c) *)

(** The addresses inside an ICMP error: an error that goes out is about a
    packet that came in, so its destination is rewritten. The IP checksum of
    the outer header is cleared as well. *)
Definition populate_nat_icmp_data_ip (p : bytes) (ne : nat_entry) (t : nat_type) : option bytes :=
  let data_ip := get_ip_hdr_from_icmp_data in
  p ← match t with
      | NAT_EXTERNAL => set_ip_dst p data_ip (np_ip (nat_ext ne))
      | NAT_INTERNAL => set_ip_src p data_ip (np_ip (nat_int ne))
      end;
  sum ← ip_sum p data_ip;
  let checksum :=
    match t with
    | NAT_EXTERNAL => nat_checksum sum (np_checksum_ip (nat_ext ne)) (np_checksum_ip (nat_int ne))
    | NAT_INTERNAL => nat_checksum sum (np_checksum_ip (nat_int ne)) (np_checksum_ip (nat_ext ne))
    end in
  p ← set_ip_sum p get_ip_hdr 0;
  set_ip_sum p data_ip checksum.

(** The identifier and checksum of the echo packet an ICMP error is about. *)
Definition populate_nat_icmp_data_echo (p : bytes) (ne : nat_entry) (t : nat_type) : option bytes :=
  let icmp_data := get_icmp_hdr_from_icmp_data in
  type ← icmp_type p icmp_data;
  if is_echo type then
    p ← set_icmp_opt1 p icmp_data
          (np_port (match t with NAT_EXTERNAL => nat_ext ne | NAT_INTERNAL => nat_int ne end));
    sum ← icmp_sum p icmp_data;
    let checksum :=
      match t with
      | NAT_EXTERNAL => nat_checksum sum (np_checksum_port (nat_ext ne)) (np_checksum_port (nat_int ne))
      | NAT_INTERNAL => nat_checksum sum (np_checksum_port (nat_int ne)) (np_checksum_port (nat_ext ne))
      end in
    set_icmp_sum p icmp_data checksum
  else Some p.

Definition populate_nat_icmp (p : bytes) (ne : nat_entry) (t : nat_type) : option bytes :=
  type ← icmp_type p get_nat_icmp_hdr;
  if is_echo type then set_icmp_opt1 p get_nat_icmp_hdr (np_port (nat_side ne t))
  else if is_icmp_error type then
    p ← populate_nat_icmp_data_ip p ne t;
    proto ← ip_p p get_ip_hdr_from_icmp_data;
    if (proto =? IP_PROTO_TCP) || (proto =? IP_PROTO_UDP) then
      match t with
      | NAT_EXTERNAL => put16 p (get_nat_port_list_from_icmp_data + 2) (np_port (nat_ext ne))
      | NAT_INTERNAL => put16 p get_nat_port_list_from_icmp_data (np_port (nat_int ne))
      end
    else if proto =? IP_PROTO_ICMP then populate_nat_icmp_data_echo p ne t
    else Some p
  else Some p.

Definition populate_nat_packet (p : bytes) (ne : nat_entry) (t : nat_type) : option bytes :=
  p ← match t with
      | NAT_EXTERNAL => set_ip_src p get_ip_hdr (np_ip (nat_ext ne))
      | NAT_INTERNAL => set_ip_dst p get_ip_hdr (np_ip (nat_int ne))
      end;
  proto ← ip_p p get_ip_hdr;
  if proto =? IP_PROTO_TCP then
    match t with
    | NAT_EXTERNAL => set_tcp_sport p get_nat_tcp_hdr (np_port (nat_ext ne))
    | NAT_INTERNAL => set_tcp_dport p get_nat_tcp_hdr (np_port (nat_int ne))
    end
  else if proto =? IP_PROTO_UDP then
    match t with
    | NAT_EXTERNAL => set_udp_sport p get_nat_udp_hdr (np_port (nat_ext ne))
    | NAT_INTERNAL => set_udp_dport p get_nat_udp_hdr (np_port (nat_int ne))
    end
  else if proto =? IP_PROTO_ICMP then populate_nat_icmp p ne t
  else Some p.

(** The checksum of the transport header. [new] and [old] are the sides of the
    entry the packet gets and loses. *)
Definition nat_transport_checksum (p : bytes) (new old : nat_ip_port_pair) : option bytes :=
  proto ← ip_p p get_ip_hdr;
  if proto =? IP_PROTO_TCP then
    sum ← tcp_sum p get_nat_tcp_hdr;
    set_tcp_sum p get_nat_tcp_hdr (nat_checksum sum (np_checksum new) (np_checksum old))
  else if proto =? IP_PROTO_UDP then
    sum ← udp_sum p get_nat_udp_hdr;
    set_udp_sum p get_nat_udp_hdr (nat_checksum sum (np_checksum new) (np_checksum old))
  else if proto =? IP_PROTO_ICMP then
    type ← icmp_type p get_nat_icmp_hdr;
    if is_echo type then
      sum ← icmp_sum p get_nat_icmp_hdr;
      set_icmp_sum p get_nat_icmp_hdr
        (nat_checksum sum (np_checksum_port new) (np_checksum_port old))
    else if is_icmp_error type then
      ip_len ← get16 p (get_ip_hdr + 2);
      '(p, c) ← compute_icmp_checksum p get_nat_icmp_hdr
                  (ntohs ip_len - Z.of_nat (sizeof_ip_hdr + sizeof_icmp_hdr));
      set_icmp_sum p get_nat_icmp_hdr (htons c)
    else Some p
  else Some p.

(** The checksum of the IP header; the sum subtracted is the one of the address
    and the port. *)
Definition nat_ip_checksum (p : bytes) (new old : nat_ip_port_pair) : option bytes :=
  sum ← ip_sum p get_ip_hdr;
  set_ip_sum p get_ip_hdr (nat_checksum sum (np_checksum_ip new) (np_checksum old)).

(** ** Incoming and outgoing packets *)

(** A packet that came in by the WAN interface; the packet rewritten. *)
Definition process_nat_ext_packet (packet : bytes) : M bytes :=
  rs ← get_rs;
  found ← mem (get_nat_table_entry (nat_table rs) packet NAT_EXTERNAL);
  match found with
  | None => mret packet
  | Some i =>
      ne ← deref (nat_table rs !! i);
      count_hit i;;
      mem (p ← populate_nat_packet packet ne NAT_INTERNAL;
           p ← nat_transport_checksum p (nat_int ne) (nat_ext ne);
           nat_ip_checksum p (nat_int ne) (nat_ext ne))
  end.

(** A packet that leaves by the WAN interface. For other protocols [ne] is
    still NULL when its hits are counted. *)
Definition process_nat_int_packet (fuel : nat) (packet : bytes) (ext_ip : Z) : M bytes :=
  proto ← mem (ip_p packet get_ip_hdr);
  if (proto =? IP_PROTO_TCP) || (proto =? IP_PROTO_UDP) || (proto =? IP_PROTO_ICMP) then
    rs ← get_rs;
    found ← mem (get_nat_table_entry (nat_table rs) packet NAT_INTERNAL);
    i ← match found with
        | Some i => mret i
        | None => create_nat_table_entry fuel packet ext_ip
        end;
    rs ← get_rs;
    ne ← deref (nat_table rs !! i);
    packet ← mem (populate_nat_packet packet ne NAT_EXTERNAL);
    count_hit i;;
    mem (p ← nat_transport_checksum packet (nat_ext ne) (nat_int ne);
         nat_ip_checksum p (nat_ext ne) (nat_int ne))
  else fail NullDeref.

(** ** Lemmas: the packets NAT translates

    TCP segments, UDP datagrams and ICMP echo messages: where their port (or
    identifier) and checksum are, and which cached sum updates the checksum. *)

Inductive nat_kind := KTcp | KUdp | KEcho.

Definition kind_proto (k : nat_kind) : Z :=
  match k with KTcp => IP_PROTO_TCP | KUdp => IP_PROTO_UDP | KEcho => IP_PROTO_ICMP end.

(** The side of the packet that [NAT_EXTERNAL] (a packet that leaves) or
    [NAT_INTERNAL] (a packet that enters) rewrites. *)
Definition ip_at (t : nat_type) : nat := match t with NAT_EXTERNAL => 26 | NAT_INTERNAL => 30 end.

Definition port_at (k : nat_kind) (t : nat_type) : nat :=
  match k, t with KEcho, _ => 38 | _, NAT_EXTERNAL => 34 | _, NAT_INTERNAL => 36 end.

Definition sum_at (k : nat_kind) : nat := match k with KTcp => 50 | KUdp => 40 | KEcho => 36 end.

Definition kind_checksum (k : nat_kind) (pr : nat_ip_port_pair) : Z :=
  match k with KEcho => np_checksum_port pr | _ => np_checksum pr end.

Record nat_packet (k : nat_kind) (p : bytes) : Prop := {
  np_bytes : is_bytes p;
  np_proto : get8 p 23 = Some (kind_proto k);
  np_echo : k = KEcho -> exists type, get8 p 34 = Some type /\ is_echo type = true;
  np_length : (Nat.max 40 (sum_at k + 2) <= length p)%nat
}.

Definition other (t : nat_type) : nat_type :=
  match t with NAT_EXTERNAL => NAT_INTERNAL | NAT_INTERNAL => NAT_EXTERNAL end.

(** The four stores of a translation. *)
Definition nat_rewrite (p : bytes) (oip oport osum : nat) (new : nat_ip_port_pair)
    (pos neg ipos ineg : Z) : option bytes :=
  p ← put32 p oip (np_ip new);
  p ← put16 p oport (np_port new);
  sum ← get16 p osum;
  p ← put16 p osum (nat_checksum sum pos neg);
  isum ← get16 p 24;
  put16 p 24 (nat_checksum isum ipos ineg).

Lemma nat_steps k t p ne :
  nat_packet k p ->
  (p ← populate_nat_packet p ne t;
   p ← nat_transport_checksum p (nat_side ne t) (nat_side ne (other t));
   nat_ip_checksum p (nat_side ne t) (nat_side ne (other t))) =
  nat_rewrite p (ip_at t) (port_at k t) (sum_at k) (nat_side ne t)
    (kind_checksum k (nat_side ne t)) (kind_checksum k (nat_side ne (other t)))
    (np_checksum_ip (nat_side ne t)) (np_checksum (nat_side ne (other t))).
Proof.
  intros [Hb Hproto Hecho Hl]. unfold nat_rewrite, populate_nat_packet.
  assert (match t with
    | NAT_EXTERNAL => set_ip_src p get_ip_hdr (np_ip (nat_ext ne))
    | NAT_INTERNAL => set_ip_dst p get_ip_hdr (np_ip (nat_int ne))
    end = put32 p (ip_at t) (np_ip (nat_side ne t))) as -> by by destruct t.
  destruct (put32_total p (ip_at t) (np_ip (nat_side ne t))) as (p1 & E1 & L1); [destruct t; simpl; lia|].
  rewrite E1, !opt_bind_Some.
  assert (forall j, (j < 26 \/ 34 <= j)%nat -> p1 !! j = p !! j) as K1.
  { intros j Hj. apply (lookup_put32_ne _ _ _ _ _ E1). destruct t; simpl; lia. }
  assert (ip_p p1 get_ip_hdr = Some (kind_proto k)) as ->.
  { unfold ip_p, get8 in *. rewrite K1; [done|unfold get_ip_hdr, ETH_HDR_LEN; lia]. }
  rewrite opt_bind_Some.
  assert (k = KEcho -> exists type, icmp_type p1 get_nat_icmp_hdr = Some type /\ is_echo type = true)
    as Hecho1.
  { intros E. destruct (Hecho E) as (type & Ht & He). exists type. split; [|done].
    unfold icmp_type, get8 in *. rewrite K1; [done|unfold get_nat_icmp_hdr, ETH_HDR_LEN, sizeof_ip_hdr; lia]. }
  assert ((if kind_proto k =? IP_PROTO_TCP then
      match t with
      | NAT_EXTERNAL => set_tcp_sport p1 get_nat_tcp_hdr (np_port (nat_ext ne))
      | NAT_INTERNAL => set_tcp_dport p1 get_nat_tcp_hdr (np_port (nat_int ne))
      end
    else if kind_proto k =? IP_PROTO_UDP then
      match t with
      | NAT_EXTERNAL => set_udp_sport p1 get_nat_udp_hdr (np_port (nat_ext ne))
      | NAT_INTERNAL => set_udp_dport p1 get_nat_udp_hdr (np_port (nat_int ne))
      end
    else if kind_proto k =? IP_PROTO_ICMP then populate_nat_icmp p1 ne t else Some p1) =
    put16 p1 (port_at k t) (np_port (nat_side ne t))) as ->.
  { destruct k, t; try done; cbn [kind_proto Z.eqb Pos.eqb IP_PROTO_TCP IP_PROTO_UDP IP_PROTO_ICMP];
      destruct (Hecho1 eq_refl) as (type & Ht & He); unfold populate_nat_icmp;
      by rewrite Ht, opt_bind_Some, He. }
  destruct (put16_total p1 (port_at k t) (np_port (nat_side ne t))) as (p2 & E2 & L2);
    [destruct k, t; simpl in *; lia|].
  rewrite E2, !opt_bind_Some.
  assert (forall j, (j < 26 \/ j = 34)%nat -> k = KEcho \/ (j < 26)%nat -> p2 !! j = p1 !! j) as K2.
  { intros j Hj Hk. apply (lookup_put16_ne _ _ _ _ _ E2); destruct k, t; simpl; lia || (destruct Hk; [done|lia]). }
  unfold nat_transport_checksum.
  assert (ip_p p2 get_ip_hdr = Some (kind_proto k)) as ->.
  { unfold ip_p, get8 in *. rewrite K2, K1; [done|unfold get_ip_hdr, ETH_HDR_LEN; lia..]. }
  rewrite opt_bind_Some.
  assert (k = KEcho -> exists type, icmp_type p2 get_nat_icmp_hdr = Some type /\ is_echo type = true)
    as Hecho2.
  { intros E. destruct (Hecho1 E) as (type & Ht & He). exists type. split; [|done].
    unfold icmp_type, get8 in *. rewrite K2; [done| |by left].
    unfold get_nat_icmp_hdr, ETH_HDR_LEN, sizeof_ip_hdr; lia. }
  destruct k; cbn [kind_proto Z.eqb Pos.eqb IP_PROTO_TCP IP_PROTO_UDP IP_PROTO_ICMP].
  - unfold tcp_sum, set_tcp_sum. change (get_nat_tcp_hdr + 16)%nat with (sum_at KTcp).
    destruct (get16 p2 (sum_at KTcp)); [|done]. rewrite !opt_bind_Some.
    by destruct (put16 p2 (sum_at KTcp) _).
  - unfold udp_sum, set_udp_sum. change (get_nat_udp_hdr + 6)%nat with (sum_at KUdp).
    destruct (get16 p2 (sum_at KUdp)); [|done]. rewrite !opt_bind_Some.
    by destruct (put16 p2 (sum_at KUdp) _).
  - destruct (Hecho2 eq_refl) as (type & Ht & He). rewrite Ht, opt_bind_Some, He.
    unfold icmp_sum, set_icmp_sum. change (get_nat_icmp_hdr + 2)%nat with (sum_at KEcho).
    destruct (get16 p2 (sum_at KEcho)); [|done]. rewrite !opt_bind_Some.
    by destruct (put16 p2 (sum_at KEcho) _).
Qed.

(** What a translation does to a packet: [p'] has the address and port of
    [new], [p] the ones of [old]; besides the two checksums nothing else
    changes. *)
Record translated (k : nat_kind) (t : nat_type) (new : nat_ip_port_pair) (p p' : bytes) : Prop := {
  tr_length : length p' = length p;
  tr_bytes : is_bytes p';
  tr_ip : get32 p' (ip_at t) = Some (np_ip new);
  tr_port : get16 p' (port_at k t) = Some (np_port new);
  tr_rest : forall j, ~ (ip_at t <= j < ip_at t + 4)%nat -> ~ (port_at k t <= j < port_at k t + 2)%nat ->
    ~ (sum_at k <= j < sum_at k + 2)%nat -> ~ (24 <= j < 26)%nat -> p' !! j = p !! j
}.

(** The big-endian words a transport checksum covers: the message of [n] bytes,
    padded to words, and for TCP and UDP the pseudo header. *)
Definition transport_sum (k : nat_kind) (src dst : Z) (p : bytes) (n : nat) : Z :=
  (match k with KEcho => 0 | _ => addr_words src + addr_words dst + kind_proto k + Z.of_nat n end)
  + sum16 (window p 34 n ++ [0]).

Definition transport_valid (k : nat_kind) (p : bytes) (n : nat) : Prop :=
  exists src dst, get32 p 26 = Some src /\ get32 p 30 = Some dst /\
    transport_sum k src dst p n ≡₁ 0.

Record pair_ok (pr : nat_ip_port_pair) : Prop := {
  pok_ip : is_u32 (np_ip pr);
  pok_port : is_u16 (np_port pr);
  pok_sums : compute_nat_checksums pr = pr
}.

Lemma pair_ok_sums pr : pair_ok pr ->
  (np_checksum pr ≡₁ - (ip_words (np_ip pr) + np_port pr)) /\
  (np_checksum_ip pr ≡₁ - ip_words (np_ip pr)) /\
  (np_checksum_port pr ≡₁ - np_port pr).
Proof.
  intros [H1 H2 E]. pose proof (compute_nat_checksums_eq1c pr H1 H2) as H. by rewrite E in H.
Qed.

Lemma pair_ok_range pr : pair_ok pr ->
  is_u16 (np_checksum pr) /\ is_u16 (np_checksum_ip pr) /\ is_u16 (np_checksum_port pr).
Proof.
  intros [H1 H2 <-]. split_and!; [apply bswap16_range..|apply ones_complement_range].
Qed.

Lemma kind_checksum_range k pr : pair_ok pr -> is_u16 (kind_checksum k pr).
Proof. intros (? & ? & ?)%pair_ok_range. by destruct k. Qed.

Lemma get16_put16_ne p x v p' o : put16 p x v = Some p' -> (o + 2 <= x \/ x + 2 <= o)%nat ->
  get16 p' o = get16 p o.
Proof. intros H Ho. apply get16_ext. intros j Hj. apply (lookup_put16_ne _ _ _ _ _ H); lia. Qed.

Lemma get32_put16_ne p x v p' o : put16 p x v = Some p' -> (o + 4 <= x \/ x + 2 <= o)%nat ->
  get32 p' o = get32 p o.
Proof. intros H Ho. apply get32_ext. intros j Hj. apply (lookup_put16_ne _ _ _ _ _ H); lia. Qed.

Lemma get16_put32_ne p x v p' o : put32 p x v = Some p' -> (o + 2 <= x \/ x + 4 <= o)%nat ->
  get16 p' o = get16 p o.
Proof. intros H Ho. apply get16_ext. intros j Hj. apply (lookup_put32_ne _ _ _ _ _ H); lia. Qed.

Lemma get32_put32_ne p x v p' o : put32 p x v = Some p' -> (o + 4 <= x \/ x + 4 <= o)%nat ->
  get32 p' o = get32 p o.
Proof. intros H Ho. apply get32_ext. intros j Hj. apply (lookup_put32_ne _ _ _ _ _ H); lia. Qed.

(** The intermediate packets of [nat_rewrite]. *)
Record rewritten (k : nat_kind) (t : nat_type) (new : nat_ip_port_pair)
    (pos neg ipos ineg : Z) (p p' : bytes) : Prop := {
  rw_sum : exists p1 p2 p3 sum isum,
    put32 p (ip_at t) (np_ip new) = Some p1 /\ put16 p1 (port_at k t) (np_port new) = Some p2 /\
    get16 p (sum_at k) = Some sum /\ get16 p 24 = Some isum /\
    put16 p2 (sum_at k) (nat_checksum sum pos neg) = Some p3 /\
    put16 p3 24 (nat_checksum isum ipos ineg) = Some p'
}.

Lemma nat_rewrite_total k t new pos neg ipos ineg p : nat_packet k p ->
  exists p', nat_rewrite p (ip_at t) (port_at k t) (sum_at k) new pos neg ipos ineg = Some p' /\
    rewritten k t new pos neg ipos ineg p p'.
Proof.
  intros [Hb _ _ Hl]. unfold nat_rewrite.
  destruct (get16_total p (sum_at k)) as [sum Hsum]; [lia|].
  destruct (get16_total p 24) as [isum Hisum]; [lia|].
  destruct (put32_total p (ip_at t) (np_ip new)) as (p1 & E1 & L1); [destruct t; simpl; lia|].
  destruct (put16_total p1 (port_at k t) (np_port new)) as (p2 & E2 & L2);
    [destruct k, t; simpl in *; lia|].
  destruct (put16_total p2 (sum_at k) (nat_checksum sum pos neg)) as (p3 & E3 & L3); [lia|].
  destruct (put16_total p3 24 (nat_checksum isum ipos ineg)) as (p4 & E4 & L4); [lia|].
  exists p4. split; [|split; by exists p1, p2, p3, sum, isum].
  rewrite E1, opt_bind_Some, E2, opt_bind_Some.
  assert (get16 p2 (sum_at k) = Some sum) as ->.
  { rewrite (get16_put16_ne _ _ _ _ _ E2), (get16_put32_ne _ _ _ _ _ E1); [done|..];
      destruct k, t; simpl; lia. }
  rewrite opt_bind_Some, E3, opt_bind_Some.
  assert (get16 p3 24 = Some isum) as ->; [|done].
  rewrite (get16_put16_ne _ _ _ _ _ E3), (get16_put16_ne _ _ _ _ _ E2), (get16_put32_ne _ _ _ _ _ E1);
    [done|..]; destruct k, t; simpl; lia.
Qed.

Lemma rewritten_translated k t new pos neg ipos ineg p p' :
  nat_packet k p -> pair_ok new -> rewritten k t new pos neg ipos ineg p p' ->
  translated k t new p p'.
Proof.
  intros [Hb _ _ Hl] [Hi Hport _] [(p1 & p2 & p3 & sum & isum & E1 & E2 & _ & _ & E3 & E4)]. split.
  - by rewrite (put16_length _ _ _ _ E4), (put16_length _ _ _ _ E3), (put16_length _ _ _ _ E2),
      (put32_length _ _ _ _ E1).
  - eauto 10 using put16_bytes, put32_bytes.
  - rewrite (get32_put16_ne _ _ _ _ _ E4), (get32_put16_ne _ _ _ _ _ E3), (get32_put16_ne _ _ _ _ _ E2);
      [by apply (get32_put32 _ _ _ _ Hi E1)|..]; destruct k, t; simpl; lia.
  - rewrite (get16_put16_ne _ _ _ _ _ E4), (get16_put16_ne _ _ _ _ _ E3);
      [by apply (get16_put16 _ _ _ _ Hport E2)|..]; destruct k, t; simpl; lia.
  - intros j H1 H2 H3 H4.
    rewrite (lookup_put16_ne _ _ _ _ _ E4), (lookup_put16_ne _ _ _ _ _ E3),
      (lookup_put16_ne _ _ _ _ _ E2) by lia.
    apply (lookup_put32_ne _ _ _ _ _ E1). lia.
Qed.

Lemma window_put32 p x v p' o n : put32 p x v = Some p' -> (o + n <= x \/ x + 4 <= o)%nat ->
  window p' o n = window p o n.
Proof.
  intros Hp Hx. apply window_ext. intros i Hi. apply (lookup_put32_ne _ _ _ _ _ Hp). lia.
Qed.

(** The message sum: only the port and the checksum field lie in the message. *)
Lemma rewritten_message k t new old ipos ineg p p' n :
  nat_packet k p -> pair_ok new -> pair_ok old ->
  rewritten k t new (kind_checksum k new) (kind_checksum k old) ipos ineg p p' ->
  get16 p (port_at k t) = Some (np_port old) ->
  (40 <= 34 + n)%nat -> (sum_at k + 2 <= 34 + n <= length p)%nat ->
  sum16 (window p' 34 n ++ [0]) ≡₁ sum16 (window p 34 n ++ [0])
    + 256 * (np_port new - np_port old + kind_checksum k new - kind_checksum k old).
Proof.
  intros Hp Hnew Hold [(p1 & p2 & p3 & sum & isum & E1 & E2 & Hsum & _ & E3 & E4)] Hport Hn Hl.
  destruct Hp as [Hb _ _ Hl0].
  assert (is_bytes p1) as B1 by eauto using put32_bytes.
  assert (is_bytes p2) as B2 by eauto using put16_bytes.
  pose proof (put32_length _ _ _ _ E1) as L1. pose proof (put16_length _ _ _ _ E2) as L2.
  assert (get16 p2 (sum_at k) = Some sum) as Hsum2.
  { rewrite <- Hsum, (get16_put16_ne _ _ _ _ _ E2), (get16_put32_ne _ _ _ _ _ E1); [done|..];
      destruct k, t; simpl; lia. }
  assert (get16 p1 (port_at k t) = Some (np_port old)) as Hport1.
  { rewrite <- Hport. apply (get16_put32_ne _ _ _ _ _ E1). destruct k, t; simpl; lia. }
  rewrite (sum16_put16_ne _ _ _ _ _ _ _ E4) by lia.
  rewrite (sum16_put16 p2 p3 34 n (sum_at k) sum _ _ B2 Hsum2 E3) by
    (done || (destruct k; simpl in *; lia) || by (destruct k; [exists 8%nat|exists 3%nat|exists 1%nat])).
  rewrite (sum16_put16 p1 p2 34 n (port_at k t) (np_port old) _ _ B1 Hport1 E2) by
    (done || (destruct k, t; simpl in *; lia)
     || by (destruct k, t; [exists 0%nat|exists 1%nat|exists 0%nat|exists 1%nat|exists 2%nat|exists 2%nat])).
  rewrite (window_put32 _ _ _ _ _ _ E1) by (destruct t; simpl; lia).
  assert (is_u16 sum) as Us by (by eapply get16_is_u16).
  pose proof (kind_checksum_range k new Hnew) as Un.
  pose proof (kind_checksum_range k old Hold) as Uo.
  rewrite !bswap16_eq1c by (apply nat_checksum_range || done || by apply pok_port).
  rewrite nat_checksum_spec by done. apply reflexive_eq. lia.
Qed.

Lemma rewritten_transport k t new old ipos ineg p p' n :
  nat_packet k p -> pair_ok new -> pair_ok old ->
  rewritten k t new (kind_checksum k new) (kind_checksum k old) ipos ineg p p' ->
  get32 p (ip_at t) = Some (np_ip old) -> get16 p (port_at k t) = Some (np_port old) ->
  (40 <= 34 + n)%nat -> (sum_at k + 2 <= 34 + n <= length p)%nat ->
  transport_valid k p n -> transport_valid k p' n.
Proof.
  intros Hp Hnew Hold Hrw Hip Hport Hn Hl (src & dst & Hsrc & Hdst & Hv).
  pose proof (rewritten_translated _ _ _ _ _ _ _ _ _ Hp Hnew Hrw) as [_ _ Hip' _ Hrest].
  pose proof (rewritten_message k t new old ipos ineg p p' n Hp Hnew Hold Hrw Hport Hn Hl) as Hm.
  destruct (pair_ok_sums _ Hnew) as (Sn & _ & Pn). destruct (pair_ok_sums _ Hold) as (So & _ & Po).
  assert (forall o, (o + 4 <= ip_at t \/ ip_at t + 4 <= o)%nat -> (26 <= o)%nat -> (o + 4 <= 34)%nat ->
    get32 p' o = get32 p o) as Hne.
  { intros o H1 H2 H3. apply get32_ext. intros j Hj. apply Hrest; destruct k, t; simpl in *; lia. }
  destruct t; simpl in Hip, Hip', Hne.
  - rewrite Hip in Hsrc. injection Hsrc as <-.
    exists (np_ip new), dst. split; [done|]. split; [by rewrite Hne by lia|].
    unfold transport_sum in *. etransitivity; [|exact Hv]. rewrite Hm.
    destruct k; cbn [kind_checksum];
      rewrite ?addr_words_eq1c, ?Sn, ?So, ?Pn, ?Po by (by apply pok_ip || by eapply get32_is_u32, Hdst; apply Hp);
      apply reflexive_eq; lia.
  - rewrite Hip in Hdst. injection Hdst as <-.
    exists src, (np_ip new). split; [by rewrite Hne by lia|]. split; [done|].
    unfold transport_sum in *. etransitivity; [|exact Hv]. rewrite Hm.
    destruct k; cbn [kind_checksum];
      rewrite ?addr_words_eq1c, ?Sn, ?So, ?Pn, ?Po by (by apply pok_ip || by eapply get32_is_u32, Hsrc; apply Hp);
      apply reflexive_eq; lia.
Qed.

(** The sum of the IP header is off by the old port: the sum subtracted from
    the checksum is the one of the address and the port. *)
Lemma rewritten_ip k t new old p p' pos neg :
  nat_packet k p -> pair_ok new -> pair_ok old ->
  rewritten k t new pos neg (np_checksum_ip new) (np_checksum old) p p' ->
  get32 p (ip_at t) = Some (np_ip old) ->
  sum16 (window p' 14 20) ≡₁ sum16 (window p 14 20) + bswap16 (np_port old).
Proof.
  intros Hp Hnew Hold [(p1 & p2 & p3 & sum & isum & E1 & E2 & _ & Hisum & E3 & E4)] Hip.
  destruct Hp as [Hb _ _ Hl0].
  assert (is_bytes p1) as B1 by eauto using put32_bytes.
  assert (is_bytes p3) as B3 by eauto using put16_bytes.
  pose proof (put32_length _ _ _ _ E1) as L1. pose proof (put16_length _ _ _ _ E2) as L2.
  pose proof (put16_length _ _ _ _ E3) as L3.
  destruct (pair_ok_sums _ Hnew) as (_ & Sn & _). destruct (pair_ok_sums _ Hold) as (So & _ & _).
  assert (get16 p3 24 = Some isum) as Hisum3.
  { rewrite <- Hisum, (get16_put16_ne _ _ _ _ _ E3), (get16_put16_ne _ _ _ _ _ E2),
      (get16_put32_ne _ _ _ _ _ E1); [done|..]; destruct k, t; simpl; lia. }
  rewrite <- (app_nil_r (window p' 14 20)), <- (app_nil_r (window p 14 20)).
  rewrite (sum16_put16 p3 p' 14 20 24 isum _ _ B3 Hisum3 E4) by (done || lia || by exists 5%nat).
  rewrite (sum16_put16_ne _ _ _ _ _ _ _ E3), (sum16_put16_ne _ _ _ _ _ _ _ E2)
    by (destruct k, t; simpl; lia).
  rewrite (sum16_put32 p p1 14 20 (ip_at t) (np_ip old) (np_ip new) _ Hb Hip E1) by
    (done || (destruct t; simpl; lia) || by (destruct t; [exists 6%nat|exists 8%nat])).
  assert (is_u16 isum) by (by eapply get16_is_u16).
  destruct (pair_ok_range _ Hnew) as (_ & ? & _). destruct (pair_ok_range _ Hold) as (? & _ & _).
  rewrite !addr_words_eq1c by (by apply pok_ip).
  rewrite !bswap16_eq1c by (apply nat_checksum_range || done || by apply pok_port).
  rewrite nat_checksum_spec, Sn, So by done. apply reflexive_eq. lia.
Qed.

(** ** Lemmas: the table *)

Lemma nat_pair_spec k t p : nat_packet k p ->
  exists ip port, get32 p (ip_at (other t)) = Some ip /\ get16 p (port_at k (other t)) = Some port /\
    is_u32 ip /\ is_u16 port /\ get_nat_ip_port_pair p t = Some (ip, port).
Proof.
  intros [Hb Hproto Hecho Hl].
  destruct (get32_total p (ip_at (other t))) as [ip Hip]; [destruct t; simpl; lia|].
  destruct (get16_total p (port_at k (other t))) as [port Hport]; [destruct k, t; simpl; lia|].
  exists ip, port. split_and!; [done..|by eapply get32_is_u32|by eapply get16_is_u16|].
  unfold get_nat_ip_port_pair. assert (ip_p p get_ip_hdr = Some (kind_proto k)) as -> by done.
  rewrite opt_bind_Some.
  assert (match t with
    | NAT_EXTERNAL => ip_dst p get_ip_hdr | NAT_INTERNAL => ip_src p get_ip_hdr
    end = Some ip) as -> by (rewrite <- Hip; by destruct t).
  rewrite opt_bind_Some.
  destruct k; cbn [kind_proto Z.eqb Pos.eqb IP_PROTO_TCP IP_PROTO_UDP IP_PROTO_ICMP].
  - assert (match t with
      | NAT_EXTERNAL => tcp_dport p get_nat_tcp_hdr | NAT_INTERNAL => tcp_sport p get_nat_tcp_hdr
      end = Some port) as -> by (rewrite <- Hport; by destruct t). done.
  - assert (match t with
      | NAT_EXTERNAL => udp_dport p get_nat_udp_hdr | NAT_INTERNAL => udp_sport p get_nat_udp_hdr
      end = Some port) as -> by (rewrite <- Hport; by destruct t). done.
  - destruct (Hecho eq_refl) as (type & Ht & He). unfold get_nat_port_from_icmp.
    assert (icmp_type p get_nat_icmp_hdr = Some type) as -> by done.
    rewrite opt_bind_Some, He.
    assert (icmp_opt1 p get_nat_icmp_hdr = Some port) as -> by (rewrite <- Hport; by destruct t).
    done.
Qed.

(** The source port of a new entry is the one the table is searched with. *)
Lemma get_src_port_number_spec k p port : nat_packet k p ->
  get16 p (port_at k NAT_EXTERNAL) = Some port -> get_src_port_number p (kind_proto k) = Some port.
Proof.
  intros [_ _ Hecho _] Hport. unfold get_src_port_number.
  destruct k; [done|done|]. cbn [kind_proto Z.eqb Pos.eqb IP_PROTO_TCP IP_PROTO_UDP IP_PROTO_ICMP].
  destruct (Hecho eq_refl) as (type & Ht & He). unfold get_src_port_number_from_icmp.
  assert (icmp_type p get_nat_icmp_hdr = Some type) as -> by done. by rewrite opt_bind_Some, He.
Qed.

(** The draws before the [m]-th are rejected, the [m]-th is accepted. *)
Definition acceptable (table : list nat_entry) (port : Z) : bool :=
  (1024 <? port) && is_unique_nat_ext_port table port.

Record draws (w : world) (m : nat) (port : Z) : Prop := {
  dr_port : u16 (env_rand (w_env w) (w_tick w + m)) = port;
  dr_accepted : acceptable (nat_table (w_rs w)) port = true;
  dr_before : forall j, (j < m)%nat ->
    acceptable (nat_table (w_rs w)) (u16 (env_rand (w_env w) (w_tick w + j))) = false
}.

Definition advance (n : nat) (w : world) : world :=
  mk_world (w_rs w) (w_trace w) (w_tick w + n) (w_next_addr w) (w_env w).

(** The search for a port ends with the first acceptable draw. *)
Lemma random_ext_port_spec fuel w m port : draws w m port -> (m < fuel)%nat ->
  random_ext_port fuel (nat_table (w_rs w)) w = Done port (advance (S m) w).
Proof.
  revert w m. induction fuel as [|fuel IH]; intros w m [Hp Ha Hb] Hm; [lia|].
  cbn [random_ext_port]. erewrite bind_done by reflexivity. cbv zeta.
  destruct m as [|m].
  - rewrite Nat.add_0_r in Hp. rewrite Hp. unfold acceptable in Ha. rewrite Ha.
    unfold advance. by rewrite Nat.add_1_r.
  - specialize (Hb 0%nat ltac:(lia)) as H0. rewrite Nat.add_0_r in H0. unfold acceptable in H0.
    rewrite H0. set (w1 := mk_world _ _ _ _ _).
    change (nat_table (w_rs w)) with (nat_table (w_rs w1)). rewrite (IH w1 m).
    + unfold advance, w1. simpl. do 3 f_equal. lia.
    + split; unfold w1; cbn [w_env w_tick w_rs]; [by rewrite Nat.add_succ_comm|done|].
      intros j Hj. rewrite Nat.add_succ_comm. apply Hb. lia.
    + lia.
Qed.

(** The entry made for a packet. *)
Definition new_nat_entry (ext_ip port src src_port now : Z) : nat_entry :=
  mk_nat_entry (compute_nat_checksums (mk_nat_ip_port_pair ext_ip (htons port) 0 0 0))
    (compute_nat_checksums (mk_nat_ip_port_pair src src_port 0 0 0)) 0 now 0 255 0.

Record entry_ok (ne : nat_entry) : Prop := {
  eok_ext : pair_ok (nat_ext ne);
  eok_int : pair_ok (nat_int ne)
}.

Lemma entry_side_ok ne t : entry_ok ne -> pair_ok (nat_side ne t).
Proof. intros []. by destruct t. Qed.

Lemma new_nat_entry_ok ext_ip port src src_port now :
  is_u32 ext_ip -> is_u32 src -> is_u16 src_port ->
  entry_ok (new_nat_entry ext_ip port src src_port now).
Proof. intros ???. split; split; try done. apply bswap16_range. Qed.

Definition nat_table_is (table : list nat_entry) (w w' : world) : Prop :=
  w_rs w' = set_nat_table table (w_rs w) /\ w_env w' = w_env w /\ w_next_addr w' = w_next_addr w.

Lemma create_nat_table_entry_spec fuel k p ext_ip w m port src src_port :
  nat_packet k p -> draws w m port -> (m < fuel)%nat ->
  get32 p 26 = Some src -> get16 p (port_at k NAT_EXTERNAL) = Some src_port ->
  exists now w', create_nat_table_entry fuel p ext_ip w = Done (length (nat_table (w_rs w))) w' /\
    nat_table_is (nat_table (w_rs w) ++ [new_nat_entry ext_ip port src src_port now]) w w' /\
    w_trace w' = w_trace w ++ [EvSignal C_nat_table].
Proof.
  intros Hp Hd Hm Hsrc Hport. unfold create_nat_table_entry.
  erewrite bind_done by reflexivity.
  erewrite bind_done by (by apply (random_ext_port_spec _ _ _ _ Hd Hm)).
  erewrite bind_done by reflexivity.
  erewrite bind_done by (apply mem_Some, Hsrc).
  erewrite bind_done by (apply mem_Some, (np_proto _ _ Hp)).
  erewrite bind_done by (apply mem_Some, (get_src_port_number_spec _ _ _ Hp Hport)).
  eexists _, _. split; [reflexivity|]. by split.
Qed.

(** ** Lemmas: translating *)

(** The message of [n] bytes is in the packet, port and checksum included. *)
Definition message_fits (k : nat_kind) (p : bytes) (n : nat) : Prop :=
  (40 <= 34 + n)%nat /\ (sum_at k + 2 <= 34 + n <= length p)%nat.

(** [p'] is [p] with the pair [new] in place of [old]: its transport checksum is
    right if the one of [p] is, its IP header sums to the one of [p] plus the
    old port. *)
Record translation (k : nat_kind) (t : nat_type) (new old : nat_ip_port_pair) (p p' : bytes)
    : Prop := {
  tl_translated : translated k t new p p';
  tl_transport : forall n, message_fits k p n -> transport_valid k p n -> transport_valid k p' n;
  tl_ip : sum16 (window p' 14 20) ≡₁ sum16 (window p 14 20) + bswap16 (np_port old)
}.

Lemma translate_spec k t p ne :
  nat_packet k p -> entry_ok ne ->
  get32 p (ip_at t) = Some (np_ip (nat_side ne (other t))) ->
  get16 p (port_at k t) = Some (np_port (nat_side ne (other t))) ->
  exists p1 p', populate_nat_packet p ne t = Some p1 /\
    (p ← nat_transport_checksum p1 (nat_side ne t) (nat_side ne (other t));
     nat_ip_checksum p (nat_side ne t) (nat_side ne (other t))) = Some p' /\
    translation k t (nat_side ne t) (nat_side ne (other t)) p p'.
Proof.
  intros Hp Hok Hip Hport. pose proof (nat_steps k t p ne Hp) as Hs.
  pose proof (entry_side_ok ne t Hok) as Hn. pose proof (entry_side_ok ne (other t) Hok) as Ho.
  destruct (nat_rewrite_total k t (nat_side ne t) (kind_checksum k (nat_side ne t))
    (kind_checksum k (nat_side ne (other t))) (np_checksum_ip (nat_side ne t))
    (np_checksum (nat_side ne (other t))) p Hp) as (p' & E & Hrw).
  rewrite E in Hs. apply bind_Some_inv in Hs as (p1 & H1 & H2).
  exists p1, p'. split; [done|]. split; [done|]. split.
  - by eapply rewritten_translated.
  - intros n [Hn1 Hn2] Hv.
    apply (rewritten_transport k t _ _ _ _ p p' n Hp Hn Ho Hrw Hip Hport Hn1 Hn2 Hv).
  - apply (rewritten_ip k t _ _ p p' _ _ Hp Hn Ho Hrw Hip).
Qed.

Lemma count_hit_spec i ne w : nat_table (w_rs w) !! i = Some ne ->
  exists w', count_hit i w = Done tt w' /\ nat_table_is (<[i := hit ne]> (nat_table (w_rs w))) w w' /\
    w_trace w' = w_trace w.
Proof.
  intros Hi. rewrite <- (alter_lookup hit _ _ _ Hi). unfold count_hit.
  eexists. split; [reflexivity|]. done.
Qed.

(** The position found holds an entry with the pair of the packet. *)
Lemma get_nat_table_entry_Some k t p table i :
  nat_packet k p -> get_nat_table_entry table p t = Some (Some i) ->
  exists ne, table !! i = Some ne /\
    get32 p (ip_at (other t)) = Some (np_ip (nat_side ne t)) /\
    get16 p (port_at k (other t)) = Some (np_port (nat_side ne t)).
Proof.
  intros Hp H. destruct (nat_pair_spec k t p Hp) as (ip & port & Hip & Hport & _ & _ & Hpair).
  unfold get_nat_table_entry in H. rewrite Hpair, opt_bind_Some in H. injection H as H.
  apply find_index_Some in H as (l1 & ne & l2 & -> & <- & Hf & _).
  exists ne. split; [apply lookup_middle|].
  unfold found_nat_table_match in Hf. cbn [fst snd] in Hf.
  apply andb_true_iff in Hf as [->%Z.eqb_eq ->%Z.eqb_eq]. done.
Qed.

Lemma process_nat_int_packet_known fuel k p ext_ip i w :
  nat_packet k p -> get_nat_table_entry (nat_table (w_rs w)) p NAT_INTERNAL = Some (Some i) ->
  Forall entry_ok (nat_table (w_rs w)) ->
  exists ne p' w', nat_table (w_rs w) !! i = Some ne /\
    process_nat_int_packet fuel p ext_ip w = Done p' w' /\
    translation k NAT_EXTERNAL (nat_ext ne) (nat_int ne) p p' /\
    nat_table_is (<[i := hit ne]> (nat_table (w_rs w))) w w' /\ w_trace w' = w_trace w.
Proof.
  intros Hp Hi Hok. destruct (get_nat_table_entry_Some _ _ _ _ _ Hp Hi) as (ne & Hne & Hip & Hport).
  assert (entry_ok ne) as Hek by (by eapply Forall_lookup_1).
  destruct (translate_spec k NAT_EXTERNAL p ne Hp Hek Hip Hport) as (p1 & p' & H1 & H2 & Ht).
  destruct (count_hit_spec i ne w Hne) as (w' & Hc & Hw & Htr).
  exists ne, p', w'. split; [done|]. split; [|done].
  unfold process_nat_int_packet. erewrite bind_done by (apply mem_Some, (np_proto _ _ Hp)).
  assert ((kind_proto k =? IP_PROTO_TCP) || (kind_proto k =? IP_PROTO_UDP)
    || (kind_proto k =? IP_PROTO_ICMP) = true) as -> by by destruct k.
  erewrite bind_done by reflexivity. erewrite bind_done by (by apply mem_Some).
  do 2 (erewrite bind_done by reflexivity). erewrite bind_done by (by apply deref_Some).
  erewrite bind_done by (by apply mem_Some). erewrite bind_done by exact Hc.
  by apply mem_Some.
Qed.

Lemma process_nat_int_packet_new fuel k p ext_ip w m port :
  nat_packet k p -> get_nat_table_entry (nat_table (w_rs w)) p NAT_INTERNAL = Some None ->
  draws w m port -> (m < fuel)%nat -> is_u32 ext_ip ->
  exists src src_port now p' w',
    get32 p 26 = Some src /\ get16 p (port_at k NAT_EXTERNAL) = Some src_port /\
    process_nat_int_packet fuel p ext_ip w = Done p' w' /\
    let ne := new_nat_entry ext_ip port src src_port now in
    entry_ok ne /\ translation k NAT_EXTERNAL (nat_ext ne) (nat_int ne) p p' /\
    nat_table_is (nat_table (w_rs w) ++ [hit ne]) w w' /\
    w_trace w' = w_trace w ++ [EvSignal C_nat_table].
Proof.
  intros Hp Hn Hd Hm He.
  destruct (nat_pair_spec k NAT_INTERNAL p Hp) as (src & src_port & Hsrc & Hport & Us & Up & _).
  destruct (create_nat_table_entry_spec fuel k p ext_ip w m port src src_port Hp Hd Hm Hsrc Hport)
    as (now & w1 & Hc & (Hrs & Hen & Hna) & Htr1).
  set (ne := new_nat_entry ext_ip port src src_port now) in *.
  assert (entry_ok ne) as Hek by by apply new_nat_entry_ok.
  assert (nat_table (w_rs w1) = nat_table (w_rs w) ++ [ne]) as Htab by by rewrite Hrs.
  assert (nat_table (w_rs w1) !! length (nat_table (w_rs w)) = Some ne) as Hne
    by (rewrite Htab; apply lookup_middle).
  destruct (translate_spec k NAT_EXTERNAL p ne Hp Hek Hsrc Hport) as (p1 & p' & H1 & H2 & Ht).
  destruct (count_hit_spec _ _ _ Hne) as (w' & Hch & (Hrs' & Hen' & Hna') & Htr).
  exists src, src_port, now, p', w'. split; [done|]. split; [done|]. split.
  - unfold process_nat_int_packet. erewrite bind_done by (apply mem_Some, (np_proto _ _ Hp)).
    assert ((kind_proto k =? IP_PROTO_TCP) || (kind_proto k =? IP_PROTO_UDP)
      || (kind_proto k =? IP_PROTO_ICMP) = true) as -> by by destruct k.
    erewrite bind_done by reflexivity. erewrite bind_done by (by apply mem_Some).
    erewrite bind_done by exact Hc. erewrite bind_done by reflexivity.
    erewrite bind_done by (by apply deref_Some).
    erewrite bind_done by (by apply mem_Some). erewrite bind_done by exact Hch.
    by apply mem_Some.
  - split; [done|]. split; [done|]. split; [|by rewrite Htr, Htr1].
    split_and!; [|by rewrite Hen'|by rewrite Hna'].
    rewrite Hrs', Htab, Hrs. rewrite insert_app_r_alt by lia. rewrite Nat.sub_diag. done.
Qed.

Lemma process_nat_ext_packet_known k p i w :
  nat_packet k p -> get_nat_table_entry (nat_table (w_rs w)) p NAT_EXTERNAL = Some (Some i) ->
  Forall entry_ok (nat_table (w_rs w)) ->
  exists ne p' w', nat_table (w_rs w) !! i = Some ne /\
    process_nat_ext_packet p w = Done p' w' /\
    translation k NAT_INTERNAL (nat_int ne) (nat_ext ne) p p' /\
    nat_table_is (<[i := hit ne]> (nat_table (w_rs w))) w w' /\ w_trace w' = w_trace w.
Proof.
  intros Hp Hi Hok. destruct (get_nat_table_entry_Some _ _ _ _ _ Hp Hi) as (ne & Hne & Hip & Hport).
  assert (entry_ok ne) as Hek by (by eapply Forall_lookup_1).
  destruct (translate_spec k NAT_INTERNAL p ne Hp Hek Hip Hport) as (p1 & p' & H1 & H2 & Ht).
  destruct (count_hit_spec i ne w Hne) as (w' & Hc & Hw & Htr).
  exists ne, p', w'. split; [done|]. split; [|done].
  unfold process_nat_ext_packet. erewrite bind_done by reflexivity.
  erewrite bind_done by (by apply mem_Some). cbv beta iota.
  erewrite bind_done by (by apply deref_Some).
  erewrite bind_done by exact Hc. apply mem_Some. by rewrite H1.
Qed.

(** Where a test finds its element in a list with [x] put behind it. *)
Lemma find_index_snoc {A} (f : A -> bool) l x :
  f x = true ->
  exists i o, find_index f (l ++ [x]) = Some i /\ (l ++ [x]) !! i = Some o /\
    ((forall y, y ∈ l -> f y = false) -> o = x) /\
    (forall l1 e l2, l = l1 ++ e :: l2 -> f e = true -> (forall y, y ∈ l1 -> f y = false) -> o = e).
Proof.
  intros Hx. induction l as [|y l (i & o & Hi & Ho & H1 & H2)]; cbn [app find_index].
  { exists 0%nat, x. rewrite Hx. split_and!; try done. by intros [|]. }
  destruct (f y) eqn:Ey.
  - exists 0%nat, y. split_and!; try done.
    + intros H. by rewrite (H y (list_elem_of_here _ _)) in Ey.
    + intros [|z l1] e l2 E He Hl1; [by injection E|]. injection E as <- ->.
      by rewrite (Hl1 y (list_elem_of_here _ _)) in Ey.
  - exists (S i), o. rewrite Hi. split_and!; try done.
    + intros H. apply H1. intros z Hz. apply H. by apply list_elem_of_further.
    + intros [|z l1] e l2 E He Hl1; [injection E as <- <-; congruence|]. injection E as <- ->.
      apply (H2 l1 e l2); [done..|]. intros z Hz. apply Hl1. by apply list_elem_of_further.
Qed.

(** The search for a packet with a given pair. *)
Lemma get_nat_table_entry_pair k t p ip port table :
  nat_packet k p -> get32 p (ip_at (other t)) = Some ip -> get16 p (port_at k (other t)) = Some port ->
  get_nat_table_entry table p t = Some (find_index (found_nat_table_match (ip, port) t) table).
Proof.
  intros Hp Hip Hport. destruct (nat_pair_spec k t p Hp) as (i & o & Hi & Ho & _ & _ & Hpair).
  unfold get_nat_table_entry. rewrite Hpair, opt_bind_Some. congruence.
Qed.

Lemma hit_ok ne : entry_ok ne -> entry_ok (hit ne).
Proof. by intros []. Qed.

(** ** Correctness *)

(** A packet of a known flow that leaves by the WAN interface gets the
    external address and port of its entry, a packet that comes in for an
    external pair the internal ones; the transport checksum stays right if it
    was, the entry's hit is counted, and no other byte changes but the IP
    checksum. *)
Theorem nat_known_flow k t p i fuel ext_ip w :
  nat_packet k p -> get_nat_table_entry (nat_table (w_rs w)) p (other t) = Some (Some i) ->
  Forall entry_ok (nat_table (w_rs w)) ->
  exists ne p' w', nat_table (w_rs w) !! i = Some ne /\
    match t with
    | NAT_EXTERNAL => process_nat_int_packet fuel p ext_ip w
    | NAT_INTERNAL => process_nat_ext_packet p w
    end = Done p' w' /\
    translated k t (nat_side ne t) p p' /\
    (forall n, message_fits k p n -> transport_valid k p n -> transport_valid k p' n) /\
    nat_table_is (<[i := hit ne]> (nat_table (w_rs w))) w w'.
Proof.
  intros Hp Hi Hok. destruct t; simpl in Hi.
  - destruct (process_nat_int_packet_known fuel k p ext_ip i w Hp Hi Hok)
      as (ne & p' & w' & Hne & Hr & [H1 H2 _] & Hw & _).
    by exists ne, p', w'.
  - destruct (process_nat_ext_packet_known k p i w Hp Hi Hok)
      as (ne & p' & w' & Hne & Hr & [H1 H2 _] & Hw & _).
    by exists ne, p', w'.
Qed.

(** C9: The first packet of a flow that leaves makes an entry with an external
    port above 1024 and leaves with the pair of the external address and that
    port. A reply to this pair is brought back to the address and port the packet
    came from when no older entry of the table has the pair; when one has, which
    the code's test for a free port does not rule out, the reply goes to the
    address and port of the first such entry. The checksums of the transport
    stay valid on both ways. *)
Theorem nat_flow_round_trip fuel k p r ext_ip w m port :
  nat_packet k p -> get_nat_table_entry (nat_table (w_rs w)) p NAT_INTERNAL = Some None ->
  Forall entry_ok (nat_table (w_rs w)) -> draws w m port -> (m < fuel)%nat -> is_u32 ext_ip ->
  nat_packet k r -> get32 r 30 = Some ext_ip -> get16 r (port_at k NAT_INTERNAL) = Some (htons port) ->
  let has_pair ne := np_ip (nat_ext ne) = ext_ip /\ np_port (nat_ext ne) = htons port in
  exists p' w' r' w'', process_nat_int_packet fuel p ext_ip w = Done p' w' /\
    get32 p' 26 = Some ext_ip /\ get16 p' (port_at k NAT_EXTERNAL) = Some (htons port) /\
    1024 < port /\ (forall n, message_fits k p n -> transport_valid k p n -> transport_valid k p' n) /\
    process_nat_ext_packet r w' = Done r' w'' /\
    ((forall ne, ne ∈ nat_table (w_rs w) -> ~ has_pair ne) ->
       get32 r' 30 = get32 p 26 /\
       get16 r' (port_at k NAT_INTERNAL) = get16 p (port_at k NAT_EXTERNAL)) /\
    (forall l1 ne l2, nat_table (w_rs w) = l1 ++ ne :: l2 -> has_pair ne ->
       (forall ne', ne' ∈ l1 -> ~ has_pair ne') ->
       get32 r' 30 = Some (np_ip (nat_int ne)) /\
       get16 r' (port_at k NAT_INTERNAL) = Some (np_port (nat_int ne))) /\
    (forall n, message_fits k r n -> transport_valid k r n -> transport_valid k r' n).
Proof.
  intros Hp Hn Hok Hd Hm He Hr Hri Hrp has_pair.
  destruct (process_nat_int_packet_new fuel k p ext_ip w m port Hp Hn Hd Hm He)
    as (src & src_port & now & p' & w' & Hsrc & Hport & Hrun & Hek & [Ht Hv _] & (Hrs & _) & _).
  set (ne := new_nat_entry ext_ip port src src_port now) in *.
  assert (nat_table (w_rs w') = nat_table (w_rs w) ++ [hit ne]) as Htab by by rewrite Hrs.
  set (f := found_nat_table_match (ext_ip, htons port) NAT_EXTERNAL).
  assert (forall e, f e = true <-> has_pair e) as Hf.
  { intros e. unfold f, found_nat_table_match. by rewrite andb_true_iff, !Z.eqb_eq. }
  assert (f (hit ne) = true) as Hnew by by apply Hf.
  destruct (find_index_snoc f (nat_table (w_rs w)) (hit ne) Hnew) as (i & o & Hi & Ho & Hnone & Hsome).
  assert (get_nat_table_entry (nat_table (w_rs w')) r NAT_EXTERNAL = Some (Some i)) as Hget.
  { rewrite (get_nat_table_entry_pair k NAT_EXTERNAL r ext_ip (htons port)) by done. rewrite Htab. by f_equal. }
  destruct (process_nat_ext_packet_known k r _ w' Hr Hget) as (e & r' & w'' & Hne & Hrun' & [Ht' Hv' _] & _).
  { rewrite Htab. apply Forall_app. split; [done|]. constructor; [by apply hit_ok|done]. }
  rewrite Htab, Ho in Hne. injection Hne as <-.
  exists p', w', r', w''. split; [done|]. destruct Ht as [_ _ T1 T2 _], Ht' as [_ _ T3 T4 _].
  destruct Hd as [_ [Hgt%Z.ltb_lt _]%andb_true_iff _].
  split_and!; [done..| | |done].
  - intros Hfree. assert (o = hit ne) as ->.
    { apply Hnone. intros e0 He0. apply not_true_is_false. rewrite Hf. by apply Hfree. }
    by rewrite Hsrc, Hport.
  - intros l1 e0 l2 El Hpair Hl1. assert (o = e0) as ->; [|done].
    apply (Hsome l1 e0 l2); [done|by apply Hf|].
    intros e' He'. apply not_true_is_false. rewrite Hf. by apply Hl1.
Qed.

(** The test for a free port compares the drawn port in host order with the
    ports of the table in network order: a second host can be given the
    external pair of the first, and the replies to it go to the first host. *)
Theorem nat_port_collision fuel k p r ext_ip w port ne :
  nat_packet k p -> nat_table (w_rs w) = [ne] -> entry_ok ne ->
  get_nat_table_entry [ne] p NAT_INTERNAL = Some None ->
  np_ip (nat_ext ne) = ext_ip -> np_port (nat_ext ne) = htons port -> is_u32 ext_ip ->
  1024 < port -> htons port ≠ port -> u16 (env_rand (w_env w) (w_tick w)) = port ->
  nat_packet k r -> get32 r 30 = Some ext_ip -> get16 r (port_at k NAT_INTERNAL) = Some (htons port) ->
  exists p' w' ne' r' w'', process_nat_int_packet (S fuel) p ext_ip w = Done p' w' /\
    nat_table (w_rs w') = [ne; ne'] /\ np_ip (nat_ext ne') = np_ip (nat_ext ne) /\
    np_port (nat_ext ne') = np_port (nat_ext ne) /\
    Some (np_ip (nat_int ne')) = get32 p 26 /\
    process_nat_ext_packet r w' = Done r' w'' /\ get32 r' 30 = Some (np_ip (nat_int ne)).
Proof.
  intros Hp Htab0 Hok Hn Hip Hpo He Hgt Hne Hdraw Hr Hri Hrp. rewrite <- Htab0 in Hn.
  assert (draws w 0 port) as Hd.
  { split; [by rewrite Nat.add_0_r| |lia].
    unfold acceptable, is_unique_nat_ext_port. rewrite Htab0. cbn [existsb].
    apply Z.ltb_lt in Hgt as ->. rewrite Hpo. by apply Z.eqb_neq in Hne as ->. }
  destruct (process_nat_int_packet_new (S fuel) k p ext_ip w 0 port Hp Hn Hd ltac:(lia) He)
    as (src & src_port & now & p' & w' & Hsrc & Hport & Hrun & Hek & _ & (Hrs & _) & _).
  set (e := new_nat_entry ext_ip port src src_port now) in *.
  assert (nat_table (w_rs w') = [ne; hit e]) as Htab by (rewrite Hrs; simpl; by rewrite Htab0).
  assert (get_nat_table_entry (nat_table (w_rs w')) r NAT_EXTERNAL = Some (Some 0%nat)) as Hi.
  { rewrite (get_nat_table_entry_pair k NAT_EXTERNAL r ext_ip (htons port)) by done.
    rewrite Htab. cbn [find_index]. unfold found_nat_table_match at 1. cbn [fst snd nat_side].
    by rewrite Hip, Hpo, !Z.eqb_refl. }
  destruct (process_nat_ext_packet_known k r _ w' Hr Hi) as (e' & r' & w'' & Hne' & Hrun' & [Ht' _ _] & _).
  { rewrite Htab. repeat constructor; try apply Hok; apply Hek. }
  rewrite Htab in Hne'. injection Hne' as <-.
  exists p', w', (hit e), r', w''. split; [done|]. split; [done|]. split; [done|].
  split; [done|]. split; [by rewrite Hsrc|]. split; [done|]. apply Ht'.
Qed.

(** The IP checksum NAT leaves is not the one of the packet: the cached sum
    of the address and port is subtracted from it where the sum of the address
    is meant, so the header of a valid packet sums to the port that was
    replaced. *)
Theorem nat_ip_checksum_off_by_port k p i w :
  nat_packet k p -> checksummed p 14 20 ->
  get_nat_table_entry (nat_table (w_rs w)) p NAT_EXTERNAL = Some (Some i) ->
  Forall entry_ok (nat_table (w_rs w)) ->
  exists ne p' w', nat_table (w_rs w) !! i = Some ne /\
    process_nat_ext_packet p w = Done p' w' /\
    sum16 (window p' 14 20) ≡₁ ntohs (np_port (nat_ext ne)) /\
    (0 < ntohs (np_port (nat_ext ne)) < 65535 -> ~ checksummed p' 14 20).
Proof.
  intros Hp [_ Hc] Hi Hok.
  destruct (process_nat_ext_packet_known k p i w Hp Hi Hok)
    as (ne & p' & w' & Hne & Hr & [_ _ Hip] & _).
  exists ne, p', w'. split; [done|]. split; [done|].
  assert (sum16 (window p' 14 20) ≡₁ ntohs (np_port (nat_ext ne))) as H.
  { rewrite Hip. apply eq1c_mod in Hc. rewrite Hc. done. }
  split; [done|]. intros Hpos [_ Hc']. apply eq1c_mod in Hc'. rewrite H in Hc'.
  destruct Hc' as [q Hq]. lia.
Qed.
