(* ===== verification/IfaceCtl.v ===== *)
(** [iface_up] and [iface_down] of or_iface.c: bringing an interface up or down
    changes the routes through it, its neighbours, the interfaces our router
    advertises, and floods a link state update. *)

From S2P Require Import Prelude Words Bytes State Nodes CStrings Headers Netfpga Rtable Iface.
From S2P Require Import Arp Dijkstra Pwospf.
Local Open Scope Z_scope.

(** The loop that clears the neighbours removes the first node again and again
    ([clear_loop] of Nodes.v): with a neighbour it uses a freed node. *)
Definition clear_nbr_routers (iface : iface_entry) : M unit :=
  match if_nbr_routers iface with
  | [] => mret tt
  | _ => fail UseAfterFree
  end.

Definition our_interface (iface : iface_entry) : pwospf_interface :=
  mk_pwospf_interface (Z.land (if_ip iface) (if_mask iface)) (if_mask iface) 0 false.

(** Returns 0 if the interface was brought up. *)
Definition iface_up (interface : string) : M Z :=
  rs ← get_rs;
  match get_iface rs interface with
  | None => mret 1
  | Some iface =>
      if if_is_active iface then mret 0
      else
        modify_iface interface (set_if_active true);;
        _ ← activate_routes interface;
        clear_nbr_routers iface;;
        let pi := our_interface iface in
        rs ← get_rs;
        k ← deref (get_router_by_rid (router_id rs) (pwospf_router_list rs));
        our_router ← deref (pwospf_router_list rs !! k);
        (if is_route_present our_router pi then mret tt
         else modify_router k (set_pr_interface_list (pr_interface_list our_router ++ [pi])));;
        lock_mutex_pwospf_router_list;;
        propagate_pwospf_changes;;
        unlock_mutex_pwospf_router_list;;
        signal C_lsu_bcast;;
        mret 0
  end.

(** The interfaces of our router on the subnet of [iface], whatever their
    mask, are removed. *)
Definition off_subnet (iface : iface_entry) (pi : pwospf_interface) : bool :=
  negb (pi_subnet pi =? Z.land (if_ip iface) (if_mask iface)).

(** Returns 0 if the interface was brought down. *)
Definition iface_down (interface : string) : M Z :=
  rs ← get_rs;
  match get_iface rs interface with
  | None => mret 1
  | Some iface =>
      if negb (if_is_active iface) then mret 0
      else
        modify_iface interface (set_if_active false);;
        _ ← deactivate_routes interface;
        clear_nbr_routers iface;;
        rs ← get_rs;
        k ← deref (get_router_by_rid (router_id rs) (pwospf_router_list rs));
        our_router ← deref (pwospf_router_list rs !! k);
        let l := bfilter (off_subnet iface) (pr_interface_list our_router) in
        let iface_removed := (length l <? length (pr_interface_list our_router))%nat in
        modify_router k (set_pr_interface_list l);;
        (if iface_removed then
           lock_mutex_pwospf_router_list;;
           propagate_pwospf_changes;;
           unlock_mutex_pwospf_router_list;;
           signal C_lsu_bcast
         else mret tt);;
        mret 0
  end.

(** ** Lemmas *)

(** [clear_nbr_routers] is what the loop over the nodes does. *)
Lemma clear_nbr_routers_loop fuel h hd (l : list (nat * nbr_router)) iface w :
  dll h hd l -> if_nbr_routers iface = l.*2 ->
  clear_nbr_routers iface w =
  match clear_loop (S (S fuel)) h hd hd with
  | inl c => Crashed c w
  | inr _ => Done tt w
  end.
Proof.
  intros Hd Hl. unfold clear_nbr_routers. rewrite Hl. destruct l as [|[n d] l]; simpl fmap.
  - destruct Hd as (-> & _). done.
  - by rewrite (clear_loop_use_after_free fuel h hd n d l Hd).
Qed.

Lemma iface_named_change (f : iface_entry -> iface_entry) interface w :
  modify_iface interface f w =
  Done tt (mk_world (set_if_list (update_iface interface f (if_list (w_rs w))) (w_rs w)) (w_trace w)
             (w_tick w) (w_next_addr w) (w_env w)).
Proof. done. Qed.

(** ** Correctness *)

(** Bringing an interface that has a neighbour down (or up, when it was
    down) uses memory after it was freed: the loop that clears the neighbour
    list does not advance past the node it removed. *)
Theorem iface_change_with_neighbours_crashes interface iface w :
  names_ok (rtable (w_rs w)) -> get_iface (w_rs w) interface = Some iface ->
  if_nbr_routers iface ≠ [] ->
  exists w', (if if_is_active iface then iface_down interface else iface_up interface) w =
             Crashed UseAfterFree w'.
Proof.
  intros Hn Hi Hnbr.
  assert (forall w', clear_nbr_routers iface w' = Crashed UseAfterFree w') as Hc.
  { intros w'. unfold clear_nbr_routers. by destruct (if_nbr_routers iface). }
  assert (forall l, names_ok (rtable (set_if_list l (w_rs w)))) as Hn' by by intros l.
  destruct (if_is_active iface) eqn:Ea.
  - unfold iface_down. erewrite bind_done by reflexivity. rewrite Hi, Ea. cbn [negb].
    erewrite bind_done by apply iface_named_change.
    set (w1 := mk_world _ _ _ _ _).
    assert (wp (deactivate_routes interface) (fun _ _ => True) w1) as Hd.
    { eapply wp_mono; [apply change_table_spec, deactivate_names_ok, Hn'|done]. }
    apply wp_inv in Hd as (r & w2 & Hd & _).
    erewrite bind_done by exact Hd. exists w2. unfold mbind at 1, M_bind at 1. by rewrite Hc.
  - unfold iface_up. erewrite bind_done by reflexivity. rewrite Hi, Ea.
    erewrite bind_done by apply iface_named_change.
    set (w1 := mk_world _ _ _ _ _).
    assert (wp (activate_routes interface) (fun _ _ => True) w1) as Hd.
    { eapply wp_mono; [apply change_table_spec, activate_names_ok, Hn'|done]. }
    apply wp_inv in Hd as (r & w2 & Hd & _).
    erewrite bind_done by exact Hd. exists w2. unfold mbind at 1, M_bind at 1. by rewrite Hc.
Qed.
