(* ===== verification/Sprint.v ===== *)
(** The tables as text, for the command line: the [sprint_] functions of
    or_output.c. A line is formatted into a buffer of fixed size, then copied
    to a buffer allocated for the expected number of lines; a copy past its end
    is an access outside the buffer. *)

From S2P Require Import Prelude Words Bytes State Nodes CStrings Netfpga Rtable Iface.
From Stdlib Require Import Ascii.
From stdpp Require Import pretty.
Local Open Scope Z_scope.

(** ** The parts of [printf] the formats use *)

Definition tab : string := String (ascii_of_nat 9) EmptyString.

Definition spaces (n : nat) : string := implode (replicate n " "%char).

(** [%-ns], [%ns] *)
Definition pad_right (n : nat) (s : string) : string := s +:+ spaces (n - String.length s).
Definition pad_left (n : nat) (s : string) : string := spaces (n - String.length s) +:+ s.

(** [%u], and [%d] or [%i] of a 32-bit word. *)
Definition fmt_u (x : Z) : string := pretty x.
Definition fmt_d (x : Z) : string := pretty (if x <? 2 ^ 31 then x else x - 2 ^ 32).

(** [%f] of a whole number. *)
Definition fmt_f (x : Z) : string := pretty x +:+ ".000000".

(** [%02X] of a byte. *)
Definition fmt_02X (x : Z) : string := implode [hex_char (x / 16); hex_char (x mod 16)].

(** The string [snprintf] leaves in a buffer of [size] bytes. *)
Definition snprintf (size : nat) (s : string) : string := str_take (size - 1) s.

Definition inet_ntop (ip : Z) : string :=
  pretty (ip mod 2 ^ 8) +:+ "." +:+ pretty (ip / 2 ^ 8 mod 2 ^ 8) +:+ "." +:+
  pretty (ip / 2 ^ 16 mod 2 ^ 8) +:+ "." +:+ pretty (ip / 2 ^ 24).

(** "%02X:%02X:%02X:%02X:%02X:%02X" *)
Definition fmt_mac (a b c d e f : Z) : string :=
  fmt_02X a +:+ ":" +:+ fmt_02X b +:+ ":" +:+ fmt_02X c +:+ ":" +:+
  fmt_02X d +:+ ":" +:+ fmt_02X e +:+ ":" +:+ fmt_02X f.

Definition mac_str (addr : bytes) : option string :=
  a ← addr !! 0%nat; b ← addr !! 1%nat; c ← addr !! 2%nat;
  d ← addr !! 3%nat; e ← addr !! 4%nat; f ← addr !! 5%nat;
  Some (fmt_mac a b c d e f).

Definition yes_no (b : bool) : string := if b then "Y" else "N".

(** ** The text buffer *)

(** The macro [COPY_STRING], into a buffer of [cap] bytes. *)
Definition COPY_STRING (cap : nat) (buf str : string) : M string :=
  if (String.length buf + String.length str <=? cap)%nat then mret (buf +:+ str)
  else fail OutOfBounds.

(** The loops: one line per element. *)
Fixpoint copy_lines {A} (line : A -> M string) (cap : nat) (buf : string) (l : list A) : M string :=
  match l with
  | [] => mret buf
  | x :: l' => s ← line x; buf ← COPY_STRING cap buf s; copy_lines line cap buf l'
  end.

(** ** The tables of the software *)

Definition ARP_CACHE_COL : string := "IP Address      MAC               TTL" +:+ nl.
Definition ARP_CACHE_ENTRY_TO_STRING_LEN : nat := 82.

Definition arp_ttl_str (ttl : Z) (e : arp_cache_entry) : M string :=
  if ac_is_static e =? 0 then
    now ← time;
    mret (snprintf 47 (fmt_f (ttl - (now - ac_TTL e))))
  else mret (snprintf 47 "static").

Definition arp_line (ttl : Z) (e : arp_cache_entry) : M string :=
  t ← arp_ttl_str ttl e;
  mac ← mem (mac_str (ac_ha e));
  mret (snprintf ARP_CACHE_ENTRY_TO_STRING_LEN
          (pad_right 15 (inet_ntop (ac_ip e)) +:+ " " +:+ mac +:+ " " +:+ pad_right 46 t +:+ nl)).

Definition sprint_arp_cache : M string :=
  rs ← get_rs;
  let cap := (String.length ARP_CACHE_COL
              + ARP_CACHE_ENTRY_TO_STRING_LEN * length (arp_cache rs))%nat in
  buf ← COPY_STRING cap "" ARP_CACHE_COL;
  copy_lines (arp_line (arp_ttl rs)) cap buf (arp_cache rs).

Definition IFACE_COL : string :=
  "Name                  MAC               IP              Mask            Speed Up WAN" +:+ nl.
Definition IFACE_ENTRY_TO_STRING_LEN : nat := 100.
Definition IFACE_MAX_IFACE_LEN : nat := 21.

Definition iface_line (e : iface_entry) : M string :=
  mac ← mem (mac_str (if_addr e));
  mret (snprintf IFACE_ENTRY_TO_STRING_LEN
          (pad_right 21 (snprintf IFACE_MAX_IFACE_LEN (if_name e)) +:+ " " +:+ mac +:+ " " +:+
           pad_right 15 (inet_ntop (if_ip e)) +:+ " " +:+ pad_right 15 (inet_ntop (if_mask e)) +:+
           " " +:+ pad_right 5 (fmt_d (if_speed e)) +:+ " " +:+
           pad_right 2 (yes_no (if_is_active e)) +:+ " " +:+ pad_right 2 (yes_no (if_is_wan e =? 1))
           +:+ nl)).

Definition sprint_if_list : M string :=
  rs ← get_rs;
  let cap := (String.length IFACE_COL + IFACE_ENTRY_TO_STRING_LEN * length (if_list rs))%nat in
  buf ← COPY_STRING cap "" IFACE_COL;
  copy_lines iface_line cap buf (if_list rs).

Definition RTABLE_COL : string :=
  "Destination     Gateway         Mask            Iface              Static Active" +:+ nl.
Definition RTABLE_ENTRY_TO_STRING_LEN : nat := 82.
Definition RTABLE_MAX_IFACE_LEN : nat := 18.

Definition route_text (re : rtable_entry) : M string :=
  mret (snprintf RTABLE_ENTRY_TO_STRING_LEN
          (pad_right 15 (inet_ntop (re_ip re)) +:+ " " +:+ pad_right 15 (inet_ntop (re_gw re)) +:+
           " " +:+ pad_right 15 (inet_ntop (re_mask re)) +:+ " " +:+
           pad_right 18 (snprintf RTABLE_MAX_IFACE_LEN (re_iface re)) +:+ " " +:+
           pad_right 6 (yes_no (re_is_static re)) +:+ " " +:+ pad_right 6 (yes_no (re_is_active re))
           +:+ nl)).

Definition sprint_rtable : M string :=
  rs ← get_rs;
  let cap := (String.length RTABLE_COL + RTABLE_ENTRY_TO_STRING_LEN * length (rtable rs))%nat in
  buf ← COPY_STRING cap "" RTABLE_COL;
  copy_lines route_text cap buf (rtable rs).

(** *** Interfaces and neighbours of PWOSPF *)

Definition PWOSPF_IFACE_COL : string :=
  "Name IP                  Mask                LSH  NID                 NIP                 LRH  A" +:+ nl.
Definition PWOSPF_IFACE_ENTRY_TO_STRING_LEN : nat := 256.
Definition PWOSPF_IFACE_MAX_IFACE_LEN : nat := 21.

(** The age of a hello, or EXP when it is more than [limit] seconds old. *)
Definition age_str (limit age : Z) : string :=
  snprintf 47 (if limit <? age then "EXP" else pretty age).

(** "%-5s%-20s%-20s%-5s%-20s%-20s%-5s%-1s \n" *)
Definition pwospf_if_format (name ip mask lsh nid nip lrh a : string) : string :=
  snprintf PWOSPF_IFACE_ENTRY_TO_STRING_LEN
    (pad_right 5 name +:+ pad_right 20 ip +:+ pad_right 20 mask +:+ pad_right 5 lsh +:+
     pad_right 20 nid +:+ pad_right 20 nip +:+ pad_right 5 lrh +:+ pad_right 1 a +:+ " " +:+ nl).

Definition nbr_line (hello now : Z) (nbr : nbr_router) : string :=
  pwospf_if_format "" "" "" "" (inet_ntop (nbr_router_id nbr)) (inet_ntop (nbr_ip nbr))
    (age_str (3 * hello) (now - nbr_last_rcvd_hello nbr)) "".

(** [nid] and [nip] are not cleared from one interface to the next: an
    interface without neighbours shows those of the one before it. The age of
    the last hello is cleared. *)
Fixpoint pwospf_if_loop (cap : nat) (hello : Z) (buf : string) (nid nip : Z) (l : list iface_entry)
    : M string :=
  match l with
  | [] => mret buf
  | iface :: l' =>
      now ← time;
      let lsent := age_str hello (now - if_last_sent_hello iface) in
      now ← time;
      let '(nid, nip, lrecv) :=
        match if_nbr_routers iface with
        | nbr :: _ => (nbr_router_id nbr, nbr_ip nbr, age_str (3 * hello) (now - nbr_last_rcvd_hello nbr))
        | [] => (nid, nip, "")
        end in
      let known := negb (nip =? 0) in
      buf ← COPY_STRING cap buf
              (pwospf_if_format (snprintf PWOSPF_IFACE_MAX_IFACE_LEN (if_name iface))
                 (inet_ntop (if_ip iface)) (inet_ntop (if_mask iface)) lsent
                 (if known then inet_ntop nid else "") (if known then inet_ntop nip else "")
                 (if known then lrecv else "") (yes_no (if_is_active iface)));
      let others := tail (if_nbr_routers iface) in
      buf ← copy_lines (fun nbr => mret (nbr_line hello now nbr)) cap buf others;
      let '(nid, nip) :=
        match last others with Some nbr => (nbr_router_id nbr, nbr_ip nbr) | None => (nid, nip) end in
      pwospf_if_loop cap hello buf nid nip l'
  end.

Definition sprint_pwospf_if_list : M string :=
  rs ← get_rs;
  let cap := (String.length PWOSPF_IFACE_COL
              + PWOSPF_IFACE_ENTRY_TO_STRING_LEN * length (if_list rs))%nat in
  buf ← COPY_STRING cap "" PWOSPF_IFACE_COL;
  pwospf_if_loop cap (pwospf_hello_interval rs) buf 0 0 (if_list rs).

(** *** The router list *)

Definition PWOSPF_ROUTER_LIST_COL : string := "RID                 AID  SEQ  LU   DIST SPF" +:+ nl.
Definition PWOSPF_ROUTER_LIST_TO_STRING_LEN : nat := 160.

Definition spf_digit (b : bool) : string := if b then "1" else "0".

(** The interval is unsigned: the age is compared as an unsigned word. *)
Definition router_line (interval : Z) (r : pwospf_router) : M string :=
  now ← time;
  let age := now - pr_last_update r in
  let last_update := snprintf 47 (if u32 (interval * 3) <? u32 age then "EXP" else pretty age) in
  mret (snprintf PWOSPF_ROUTER_LIST_TO_STRING_LEN
          (pad_right 20 (inet_ntop (pr_router_id r)) +:+ pad_right 5 (fmt_d (ntohl (pr_area_id r))) +:+
           pad_right 5 (fmt_d (pr_seq r)) +:+ pad_right 5 last_update +:+
           pad_right 5 (fmt_d (pr_distance r)) +:+
           pad_right 5 (spf_digit (pr_shortest_path_found r)) +:+ nl)).

Definition router_iface_line (pi : pwospf_interface) : M string :=
  mret (snprintf PWOSPF_ROUTER_LIST_TO_STRING_LEN
          (spaces 10 +:+ pad_right 20 (inet_ntop (pi_subnet pi)) +:+
           pad_right 20 (inet_ntop (pi_mask pi)) +:+ pad_right 20 (inet_ntop (pi_router_id pi)) +:+
           pad_right 5 (spf_digit (pi_is_active pi)) +:+ nl)).

Fixpoint router_list_loop (cap : nat) (interval : Z) (buf : string) (l : list pwospf_router) : M string :=
  match l with
  | [] => mret buf
  | r :: l' =>
      line ← router_line interval r;
      buf ← COPY_STRING cap buf line;
      buf ← copy_lines router_iface_line cap buf (pr_interface_list r);
      router_list_loop cap interval buf l'
  end.

(** A line per router and one per interface of a router. *)
Definition num_entries (l : list pwospf_router) : nat :=
  foldl (fun n r => n + (1 + length (pr_interface_list r)))%nat 0%nat l.

Definition sprint_pwospf_router_list : M string :=
  rs ← get_rs;
  let cap := (String.length PWOSPF_ROUTER_LIST_COL
              + (num_entries (pwospf_router_list rs) + 1) * PWOSPF_ROUTER_LIST_TO_STRING_LEN)%nat in
  buf ← COPY_STRING cap "" PWOSPF_ROUTER_LIST_COL;
  router_list_loop cap (pwospf_lsu_interval rs) buf (pwospf_router_list rs).

(** ** The tables of the device *)

(** [for(i = 0; i < n; i++)], a line per row. *)
Definition copy_rows (line : nat -> M string) (cap : nat) (buf : string) (n : nat) : M string :=
  copy_lines line cap buf (seq 0 n).

Definition HW_RTABLE_COL : string :=
  "ROW  IP                  GW                  MASK                IFACE" +:+ nl.
Definition HW_RTABLE_ENTRY_TO_STRING_LEN : nat := 160.

Definition hw_rtable_line (i : nat) : M string :=
  writeReg RT_RD_ADDR (Z.of_nat i);;
  ip ← readReg RT_ENTRY_IP;
  mask ← readReg RT_ENTRY_MASK;
  gw ← readReg RT_ENTRY_NEXT_HOP_IP;
  port ← readReg RT_ENTRY_OUTPUT_PORT;
  mret (snprintf HW_RTABLE_ENTRY_TO_STRING_LEN
          (pad_right 5 (pretty (Z.of_nat i)) +:+ pad_right 20 (inet_ntop (ntohl ip)) +:+
           pad_right 20 (inet_ntop (ntohl gw)) +:+ pad_right 20 (inet_ntop (ntohl mask)) +:+
           pad_right 20 (getIfaceFromOneHotPortNumber IF_LEN port) +:+ nl)).

Definition sprint_hw_rtable : M string :=
  let cap := (String.length HW_RTABLE_COL + TABLE_DEPTH * HW_RTABLE_ENTRY_TO_STRING_LEN)%nat in
  buf ← COPY_STRING cap "" HW_RTABLE_COL;
  copy_rows hw_rtable_line cap buf TABLE_DEPTH.

(** A MAC address from the two words that hold it. *)
Definition hw_mac_str (mac_hi mac_lo : Z) : string :=
  fmt_mac (u8 (Z.shiftr mac_hi 8)) (u8 mac_hi) (u8 (Z.shiftr mac_lo 24)) (u8 (Z.shiftr mac_lo 16))
    (u8 (Z.shiftr mac_lo 8)) (u8 mac_lo).

Definition HW_ARP_CACHE_COL : string := "MAC" +:+ tab +:+ tab +:+ tab +:+ "GW" +:+ nl.
Definition HW_ARP_CACHE_ENTRY_TO_STRING_LEN : nat := 80.

Definition hw_arp_line (i : nat) : M string :=
  writeReg ARP_RD_ADDR (Z.of_nat i);;
  mac_hi ← readReg ARP_ENTRY_MAC_HI;
  mac_lo ← readReg ARP_ENTRY_MAC_LO;
  gw ← readReg ARP_ENTRY_NEXT_HOP_IP;
  mret (snprintf HW_ARP_CACHE_ENTRY_TO_STRING_LEN
          (hw_mac_str mac_hi mac_lo +:+ tab +:+ pad_right 15 (inet_ntop (htonl gw)) +:+ nl)).

Definition sprint_hw_arp_cache : M string :=
  let cap := (String.length HW_ARP_CACHE_COL + TABLE_DEPTH * HW_ARP_CACHE_ENTRY_TO_STRING_LEN)%nat in
  buf ← COPY_STRING cap "" HW_ARP_CACHE_COL;
  copy_rows hw_arp_line cap buf TABLE_DEPTH.

Definition HW_IFACE_COL : string := "Port" +:+ tab +:+ "MAC" +:+ nl.
Definition HW_IFACE_ENTRY_TO_STRING_LEN : nat := 80.

Definition port_name (i : nat) : string :=
  match i with 0%nat => ETH0 | 1%nat => ETH1 | 2%nat => ETH2 | _ => ETH3 end.

Definition hw_iface_line (i : nat) : M string :=
  '(mac_hi, mac_lo) ← read_hw_iface_mac (Z.of_nat i);
  mret (snprintf HW_IFACE_ENTRY_TO_STRING_LEN
          (pad_right 5 (port_name i) +:+ tab +:+ hw_mac_str mac_hi mac_lo +:+ nl)).

Definition sprint_hw_iface : M string :=
  let cap := (String.length HW_IFACE_COL + 4 * HW_IFACE_ENTRY_TO_STRING_LEN)%nat in
  buf ← COPY_STRING cap "" HW_IFACE_COL;
  copy_rows hw_iface_line cap buf 4.

Definition HW_DROPS_LEN : nat := 80.

(** "%4s %10u" for each of four counters, separated by spaces. *)
Definition four_counters (n0 : string) (v0 : Z) (n1 : string) (v1 : Z) (n2 : string) (v2 : Z)
    (n3 : string) (v3 : Z) : string :=
  snprintf HW_DROPS_LEN
    (pad_left 4 n0 +:+ " " +:+ pad_left 10 (fmt_u v0) +:+ " " +:+
     pad_left 4 n1 +:+ " " +:+ pad_left 10 (fmt_u v1) +:+ " " +:+
     pad_left 4 n2 +:+ " " +:+ pad_left 10 (fmt_u v2) +:+ " " +:+
     pad_left 4 n3 +:+ " " +:+ pad_left 10 (fmt_u v3) +:+ nl).

(** The packets a port dropped, for a full queue or a bad checksum. *)
Definition port_drops (i : Z) : M Z :=
  full ← get_rx_queue_num_pkts_dropped_full i;
  bad ← get_rx_queue_num_pkts_dropped_bad i;
  mret (u32 (full + bad)).

(** Without a NetFPGA nothing is printed. The order in which the arguments are
    evaluated, and so the registers read, is the compiler's; here it is theirs. *)
Definition sprint_hw_drops : M string :=
  rs ← get_rs;
  if is_netfpga rs then
    d0 ← port_drops 0; d1 ← port_drops 1; d2 ← port_drops 2; d3 ← port_drops 3;
    COPY_STRING (1 * HW_DROPS_LEN + 1) "" (four_counters "eth0" d0 "eth1" d1 "eth2" d2 "eth3" d3)
  else mret "".

Definition HW_OQ_DROPS_LEN : nat := 80.

Definition sprint_hw_oq_drops : M string :=
  rs ← get_rs;
  if is_netfpga rs then
    let cap := (2 * HW_OQ_DROPS_LEN + 1)%nat in
    d0 ← get_oq_num_pkts_dropped 0; d1 ← get_oq_num_pkts_dropped 1;
    d2 ← get_oq_num_pkts_dropped 2; d3 ← get_oq_num_pkts_dropped 3;
    buf ← COPY_STRING cap "" (four_counters "Q0" d0 "Q1" d1 "Q2" d2 "Q3" d3);
    d4 ← get_oq_num_pkts_dropped 4; d5 ← get_oq_num_pkts_dropped 5;
    d6 ← get_oq_num_pkts_dropped 6; d7 ← get_oq_num_pkts_dropped 7;
    COPY_STRING cap buf (four_counters "Q4" d4 "Q5" d5 "Q6" d6 "Q7" d7)
  else mret "".

Definition HW_LOCAL_IP_FILTER_HEADER : string := "Row IP             " +:+ nl.
Definition HW_LOCAL_IP_FILTER_LEN : nat := 21.

Definition hw_filter_line (i : nat) : M string :=
  writeReg FILTER_RD_ADDR (Z.of_nat i);;
  ip ← readReg FILTER_ENTRY_IP;
  mret (snprintf HW_LOCAL_IP_FILTER_LEN
          (pad_left 3 (pretty (Z.of_nat i)) +:+ " " +:+ pad_left 15 (inet_ntop (htonl ip)) +:+ nl)).

Definition sprint_hw_local_ip_filter : M string :=
  let cap := ((1 + TABLE_DEPTH) * HW_LOCAL_IP_FILTER_LEN + 1)%nat in
  rs ← get_rs;
  if is_netfpga rs then
    buf ← COPY_STRING cap "" HW_LOCAL_IP_FILTER_HEADER;
    copy_rows hw_filter_line cap buf TABLE_DEPTH
  else mret "".

(** ** Lemmas: text *)

Lemma chars_app a b : chars (a +:+ b) = chars a ++ chars b.
Proof. induction a as [|c a IH]; simpl; [done|by rewrite IH]. Qed.

Lemma str_app_assoc a b c : (a +:+ b) +:+ c = a +:+ (b +:+ c).
Proof.
  induction a as [|x a IH]; [done|].
  change (String x ((a +:+ b) +:+ c) = String x (a +:+ (b +:+ c))). by rewrite IH.
Qed.

Lemma length_chars s : length (chars s) = String.length s.
Proof. induction s as [|c s IH]; simpl; [done|by rewrite IH]. Qed.

Lemma length_implode l : String.length (implode l) = length l.
Proof. induction l as [|c l IH]; simpl; [done|by rewrite IH]. Qed.

Lemma length_spaces n : String.length (spaces n) = n.
Proof. unfold spaces. by rewrite length_implode, length_replicate. Qed.

Lemma str_take_length n s : (String.length (str_take n s) <= n)%nat.
Proof. revert s. induction n as [|n IH]; intros [|c s]; simpl; [lia..|]. specialize (IH s). lia. Qed.

Lemma snprintf_length n s : (String.length (snprintf n s) <= n - 1)%nat.
Proof. apply str_take_length. Qed.

Lemma snprintf_fits n s : (String.length s <= n - 1)%nat -> snprintf n s = s.
Proof. apply str_take_all. Qed.

Lemma length_pad_right n s : String.length (pad_right n s) = Nat.max n (String.length s).
Proof. unfold pad_right. rewrite string_length_app, length_spaces. lia. Qed.

Lemma chars_pad_right n s :
  chars (pad_right n s) = chars s ++ replicate (n - String.length s) " "%char.
Proof. unfold pad_right, spaces. by rewrite chars_app, chars_implode. Qed.

(** *** Addresses *)

Definition octet_ok (z : Z) : bool :=
  match octet (chars (pretty z)) with Some z' => z' =? z | None => false end
  && forallb is_digit (chars (pretty z))
  && (1 <=? String.length (pretty z))%nat && (String.length (pretty z) <=? 3)%nat.

Lemma octets_ok : forallb (fun n => octet_ok (Z.of_nat n)) (seq 0 256) = true.
Proof. vm_compute. reflexivity. Qed.

Lemma octet_pretty z : is_u8 z ->
  octet (chars (pretty z)) = Some z /\ forallb is_digit (chars (pretty z)) = true /\
  (1 <= String.length (pretty z) <= 3)%nat.
Proof.
  intros Hz. pose proof octets_ok as H. rewrite forallb_forall in H.
  specialize (H (Z.to_nat z)). rewrite Z2Nat.id in H by (unfold is_u8 in Hz; lia).
  assert (octet_ok z = true) as Ho.
  { apply H, in_seq. unfold is_u8 in Hz. change (2 ^ 8) with 256 in Hz. lia. }
  unfold octet_ok in Ho. destruct (octet (chars (pretty z))) as [z'|]; [|done].
  apply andb_true_iff in Ho as [Ho H4]. apply andb_true_iff in Ho as [Ho H3].
  apply andb_true_iff in Ho as [H1 H2]. apply Z.eqb_eq in H1 as ->. apply Nat.leb_le in H3, H4. done.
Qed.

Lemma split_dots_digits l rest : forallb is_digit l = true ->
  split_dots (l ++ "."%char :: rest) = l :: split_dots rest.
Proof.
  induction l as [|c l IH]; cbn [app split_dots forallb]; [done|]. intros H.
  apply andb_true_iff in H as [Hc Hl]. rewrite IH by done.
  destruct (Ascii.eqb_spec c "."%char) as [->|]; [discriminate Hc|done].
Qed.

Lemma split_dots_last l : forallb is_digit l = true -> split_dots l = [l].
Proof.
  induction l as [|c l IH]; cbn [split_dots forallb]; [done|]. intros H.
  apply andb_true_iff in H as [Hc Hl]. rewrite IH by done.
  destruct (Ascii.eqb_spec c "."%char) as [->|]; [discriminate Hc|done].
Qed.

Lemma ip_octets ip : is_u32 ip ->
  is_u8 (ip mod 2 ^ 8) /\ is_u8 (ip / 2 ^ 8 mod 2 ^ 8) /\ is_u8 (ip / 2 ^ 16 mod 2 ^ 8) /\
  is_u8 (ip / 2 ^ 24) /\
  ip mod 2 ^ 8 + 2 ^ 8 * (ip / 2 ^ 8 mod 2 ^ 8) + 2 ^ 16 * (ip / 2 ^ 16 mod 2 ^ 8)
    + 2 ^ 24 * (ip / 2 ^ 24) = ip.
Proof.
  unfold is_u32, is_u8. change (2 ^ 8) with 256. change (2 ^ 16) with 65536.
  change (2 ^ 24) with 16777216. change (2 ^ 32) with 4294967296. intros H.
  Z.div_mod_to_equations. lia.
Qed.

(** An address that was printed is read back. *)
Lemma inet_pton_ntop ip : is_u32 ip -> inet_pton (inet_ntop ip) = Some ip.
Proof.
  intros H. destruct (ip_octets ip H) as (Ha & Hb & Hc & Hd & E).
  destruct (octet_pretty _ Ha) as (Pa & Da & _), (octet_pretty _ Hb) as (Pb & Db & _).
  destruct (octet_pretty _ Hc) as (Pc & Dc & _), (octet_pretty _ Hd) as (Pd & Dd & _).
  unfold inet_pton, inet_ntop. rewrite !chars_app. change (chars ".") with ["."%char]. cbn [app].
  rewrite split_dots_digits by done. rewrite split_dots_digits by done.
  rewrite split_dots_digits by done. rewrite split_dots_last by done.
  rewrite Pa, Pb, Pc, Pd. cbn [mbind option_bind]. by rewrite E.
Qed.

Lemma inet_ntop_length ip : is_u32 ip -> (7 <= String.length (inet_ntop ip) <= 15)%nat.
Proof.
  intros H. destruct (ip_octets ip H) as (Ha & Hb & Hc & Hd & _).
  destruct (octet_pretty _ Ha) as (_ & _ & La), (octet_pretty _ Hb) as (_ & _ & Lb).
  destruct (octet_pretty _ Hc) as (_ & _ & Lc), (octet_pretty _ Hd) as (_ & _ & Ld).
  unfold inet_ntop. rewrite !string_length_app. change (String.length ".") with 1%nat. lia.
Qed.

(** The digits of a number below a power of ten. *)
Lemma pretty_N_go_length k x t : (x < 10 ^ N.of_nat k)%N ->
  (String.length (pretty_N_go x t) <= k + String.length t)%nat.
Proof.
  revert x t. induction k as [|k IH]; intros x t Hx.
  - assert (x = 0%N) as -> by (simpl in Hx; lia). by rewrite pretty_N_go_0.
  - destruct (decide (x = 0%N)) as [->|Hn]; [rewrite pretty_N_go_0; lia|].
    rewrite pretty_N_go_step by lia. etrans; [apply IH|simpl; lia].
    rewrite Nat2N.inj_succ, N.pow_succ_r' in Hx. apply N.Div0.div_lt_upper_bound; lia.
Qed.

Lemma pretty_length k z : (0 < k)%nat -> 0 <= z < 10 ^ Z.of_nat k -> (String.length (pretty z) <= k)%nat.
Proof.
  intros Hk Hz. destruct z as [|p|p]; [simpl; lia| |lia].
  change (pretty (Z.pos p)) with (pretty_N_go (N.pos p) "").
  etrans; [apply (pretty_N_go_length k)|simpl; lia].
  apply N2Z.inj_lt. rewrite N2Z.inj_pow, nat_N_Z. exact (proj2 Hz).
Qed.
