(* ===== verification/Ip.v ===== *)
(** or_ip.c: validation, delivery and forwarding of IP packets, and the packets
    the transport stack sends. *)

From S2P Require Import Prelude Words Bytes State CStrings Headers Checksum Packets Netfpga.
From S2P Require Import Rtable Iface Arp Icmp Dijkstra Pwospf Nat.
Local Open Scope Z_scope.

(** ** Validation *)

(** Version 4, no options, not a fragment, and a correct header checksum. *)
Definition is_packet_valid (packet : bytes) : option bool :=
  v ← ip_v packet get_ip_hdr;
  if negb (v =? 4) then Some false
  else
    hl ← ip_hl packet get_ip_hdr;
    if negb (hl =? 5) then Some false
    else
      off ← ip_off packet get_ip_hdr;
      let frag_field := ntohs off in
      if negb (Z.land frag_field IP_FRAG_MF =? 0) || negb (Z.land frag_field IP_FRAG_OFFMASK =? 0)
      then Some false
      else
        r ← verify_checksum packet get_ip_hdr (Z.to_nat (4 * hl));
        Some (r =? 0).

(** ** Delivery *)

(** [sr_transport_input]: the packet from its IP header on. *)
Definition sr_transport_input (packet : bytes) : M unit :=
  emit (EvTransport (drop get_ip_hdr packet)).

Definition send_icmp_error (packet : bytes) (len : nat) (type code : Z) : M unit :=
  _ ← send_icmp_packet packet len type code; mret tt.

(** A packet for one of our addresses. *)
Definition deliver_ip_packet (packet : bytes) (len : nat) (interface : string) : M unit :=
  proto ← mem (ip_p packet get_ip_hdr);
  if proto =? IP_PROTO_TCP then sr_transport_input packet
  else if proto =? IP_PROTO_ICMP then process_icmp_packet packet len
  else if proto =? IP_PROTO_PWOSPF then process_pwospf_packet packet interface
  else if proto =? IP_PROTO_UDP then
    send_icmp_error packet len ICMP_TYPE_DESTINATION_UNREACHABLE ICMP_CODE_PORT_UNREACHABLE
  else
    send_icmp_error packet len ICMP_TYPE_DESTINATION_UNREACHABLE ICMP_CODE_PROTOCOL_UNREACHABLE.

(** ** Forwarding *)

(** The rewriting of a packet that is forwarded: the TTL, the checksum, and the
    source MAC address. *)
Definition forward_rewrite (packet : bytes) (ttl : Z) (addr : bytes) : option bytes :=
  packet ← set_ip_ttl packet get_ip_hdr (u8 (ttl - 1));
  packet ← set_ip_sum packet get_ip_hdr 0;
  packet ← fill_ip_checksum packet get_ip_hdr;
  populate_eth_hdr packet 0 None addr ETH_TYPE_IP.

(** A packet for another host. [fuel] bounds the search for a free NAT port. *)
Definition forward_ip_packet (fuel : nat) (packet : bytes) (len : nat) (interface : string)
    : M unit :=
  rs ← get_rs;
  dst ← mem (ip_dst packet get_ip_hdr);
  match get_next_hop IF_LEN rs dst with
  | None =>
      send_icmp_error packet len ICMP_TYPE_DESTINATION_UNREACHABLE ICMP_CODE_NET_UNKNOWN
  | Some (next_hop, next_hop_iface) =>
      if strncmp_eq interface next_hop_iface IF_LEN then
        send_icmp_error packet len ICMP_TYPE_DESTINATION_UNREACHABLE ICMP_CODE_NET_UNREACHABLE
      else
        iface ← deref (get_iface rs next_hop_iface);
        packet ← (if negb (if_is_wan iface =? 0) then
                    lock_nat_table;;
                    packet ← process_nat_int_packet fuel packet (if_ip iface);
                    unlock_nat_table;;
                    mret packet
                  else mret packet);
        ttl ← mem (ip_ttl packet get_ip_hdr);
        if ttl =? 1 then
          send_icmp_error packet len ICMP_TYPE_TIME_EXCEEDED ICMP_CODE_TTL_EXCEEDED
        else
          packet ← mem (forward_rewrite packet ttl (if_addr iface));
          packet_copy ← mem (get_range packet 0 len);
          _ ← send_ip packet_copy len next_hop next_hop_iface;
          mret tt
  end.

Definition process_ip_packet (fuel : nat) (packet : bytes) (len : nat) (interface : string)
    : M unit :=
  valid ← mem (is_packet_valid packet);
  if negb valid then mret tt
  else
    lock_arp_cache_rd;;
    lock_arp_queue_wr;;
    lock_if_list_rd;;
    lock_rtable_rd;;
    rs ← get_rs;
    iface ← deref (get_iface rs interface);
    packet ← (if if_is_wan iface =? 1 then
                lock_nat_table;;
                packet ← process_nat_ext_packet packet;
                unlock_nat_table;;
                mret packet
              else mret packet);
    rs ← get_rs;
    dst ← mem (ip_dst packet get_ip_hdr);
    (if iface_match_ip rs dst then deliver_ip_packet packet len interface
     else if dst =? htonl PWOSPF_HELLO_TIP then process_pwospf_packet packet interface
     else forward_ip_packet fuel packet len interface);;
    unlock_rtable;;
    unlock_if_list;;
    unlock_arp_queue;;
    unlock_arp_cache.

(** ** Packets of the transport stack *)

Definition build_ip_packet (proto src dest : Z) (payload : bytes) : option bytes :=
  let len := length payload in
  let data_offset := (sizeof_eth_hdr + sizeof_ip_hdr)%nat in
  p ← put_range (calloc (data_offset + len)) data_offset payload;
  p ← populate_ip p get_ip_hdr (Z.of_nat len) proto src dest;
  fill_ip_checksum p get_ip_hdr.

(** Returns 1 without releasing the locks when there is no route. *)
Definition send_ip_packet (proto src dest : Z) (payload : bytes) : M Z :=
  lock_arp_cache_rd;;
  lock_arp_queue_wr;;
  lock_if_list_rd;;
  lock_rtable_rd;;
  new_packet ← mem (build_ip_packet proto src dest payload);
  rs ← get_rs;
  match get_next_hop IF_LEN rs dest with
  | None => mret 1
  | Some (next_hop, iface) =>
      iface_struct ← deref (get_iface rs iface);
      new_packet ← mem (populate_eth_hdr new_packet 0 None (if_addr iface_struct) ETH_TYPE_IP);
      ret ← send_ip new_packet (length new_packet) next_hop (if_name iface_struct);
      unlock_rtable;;
      unlock_if_list;;
      unlock_arp_queue;;
      unlock_arp_cache;;
      mret ret
  end.

(** ** Lemmas: validation *)

(** What a packet must be to be handled. *)
Record well_formed_ip (packet : bytes) : Prop := {
  wf_version : ip_v packet get_ip_hdr = Some 4;
  wf_options : ip_hl packet get_ip_hdr = Some 5;
  wf_fragment : exists off, ip_off packet get_ip_hdr = Some off /\
    Z.land (ntohs off) IP_FRAG_MF = 0 /\ Z.land (ntohs off) IP_FRAG_OFFMASK = 0;
  wf_checksum : checksummed packet get_ip_hdr 20
}.

Lemma is_packet_valid_spec packet :
  is_bytes packet -> (34 <= length packet)%nat ->
  exists b, is_packet_valid packet = Some b /\ (b = true <-> well_formed_ip packet).
Proof.
  intros Hp Hl. unfold is_packet_valid.
  destruct (get8_total packet get_ip_hdr) as [b0 Hb0]; [unfold get_ip_hdr, ETH_HDR_LEN; lia|].
  destruct (get16_total packet 20) as [off Hoff]; [lia|].
  assert (ip_v packet get_ip_hdr = Some (Z.shiftr b0 4)) as Hv by (unfold ip_v; by rewrite Hb0).
  assert (ip_hl packet get_ip_hdr = Some (Z.land b0 15)) as Hhl by (unfold ip_hl; by rewrite Hb0).
  assert (ip_off packet get_ip_hdr = Some off) as Ho by done.
  rewrite Hv, opt_bind_Some, Hhl, opt_bind_Some, Ho, opt_bind_Some. cbv zeta.
  destruct (Z.eqb_spec (Z.shiftr b0 4) 4) as [E4|N4]; cbn [negb].
  2:{ exists false. split; [done|]. split; [done|]. intros [H _ _ _]. congruence. }
  destruct (Z.eqb_spec (Z.land b0 15) 5) as [E5|N5]; cbn [negb].
  2:{ exists false. split; [done|]. split; [done|]. intros [_ H _ _]. congruence. }
  destruct (Z.eqb_spec (Z.land (ntohs off) IP_FRAG_MF) 0) as [Em|Nm]; cbn [negb orb].
  2:{ exists false. split; [done|]. split; [done|]. intros [_ _ (o & ? & ? & ?) _]. congruence. }
  destruct (Z.eqb_spec (Z.land (ntohs off) IP_FRAG_OFFMASK) 0) as [Eo|No]; cbn [negb].
  2:{ exists false. split; [done|]. split; [done|]. intros [_ _ (o & ? & ? & ?) _]. congruence. }
  rewrite E5. change (Z.to_nat (4 * 5)) with (2 * 10)%nat.
  pose proof (verify_checksummed packet get_ip_hdr 10 Hp) as Hc.
  destruct (verify_checksum_spec packet get_ip_hdr 10) as (r & Hr & _ & _); [done|unfold get_ip_hdr, ETH_HDR_LEN; lia|lia|].
  rewrite Hr in *. rewrite opt_bind_Some. exists (r =? 0). split; [done|].
  change (2 * 10)%nat with 20%nat in Hc. rewrite Z.eqb_eq. split.
  - intros ->. split; [by rewrite Hv, E4|by rewrite Hhl, E5|by exists off|].
    apply Hc; [unfold get_ip_hdr, ETH_HDR_LEN; lia|lia|done].
  - intros [_ _ _ H]. apply Hc in H; [by injection H|unfold get_ip_hdr, ETH_HDR_LEN; lia|lia].
Qed.

Lemma well_formed_valid packet :
  is_bytes packet -> (34 <= length packet)%nat -> well_formed_ip packet ->
  is_packet_valid packet = Some true.
Proof.
  intros Hp Hl Hw. unfold is_packet_valid. destruct Hw as [-> Hhl (off & -> & E1 & E2) Hc].
  rewrite opt_bind_Some, Hhl, !opt_bind_Some. cbn [negb Z.eqb Pos.eqb]. rewrite E1, E2.
  cbn [negb Z.eqb orb]. change (Z.to_nat (4 * 5)) with (2 * 10)%nat.
  rewrite (proj2 (verify_checksummed packet get_ip_hdr 10 Hp ltac:(unfold get_ip_hdr, ETH_HDR_LEN; lia) ltac:(lia)) Hc).
  done.
Qed.

Lemma valid_has_header packet : is_packet_valid packet = Some true -> (34 <= length packet)%nat.
Proof.
  unfold is_packet_valid. intros H.
  apply bind_Some_inv in H as (v & _ & H). destruct (v =? 4); [|done]. cbn [negb] in H.
  apply bind_Some_inv in H as (hl & _ & H). destruct (hl =? 5) eqn:Eh; [|done].
  apply Z.eqb_eq in Eh. subst hl. cbn [negb] in H.
  apply bind_Some_inv in H as (off & _ & H). cbv zeta in H. destruct (_ || _); [done|].
  apply bind_Some_inv in H as (r & Hr & _). change (Z.to_nat (4 * 5)) with 20%nat in Hr.
  apply (verify_checksum_in_range packet get_ip_hdr 20 r) in Hr; [|lia].
  unfold get_ip_hdr, ETH_HDR_LEN in Hr. change (20 / 2)%nat with 10%nat in Hr. lia.
Qed.

(** ** Lemmas: forwarding *)

(** [p'] is [packet] with the time to live [ttl], the source MAC address
    [addr], and valid for the next router; the rest is unchanged. *)
Record forwards packet p' (ttl : Z) (addr : bytes) : Prop := {
  fw_length : length p' = length packet;
  fw_bytes : is_bytes p';
  fw_ttl : ip_ttl p' get_ip_hdr = Some ttl;
  fw_valid : well_formed_ip p';
  fw_shost : eth_shost p' 0 = Some addr;
  fw_type : eth_type p' 0 = Some (htons ETH_TYPE_IP);
  fw_rest : forall k, (k < 6 \/ 14 <= k)%nat -> k ≠ 22%nat -> k ≠ 24%nat -> k ≠ 25%nat ->
    p' !! k = packet !! k
}.

Lemma well_formed_ext p p' :
  (forall k, (k = 14 \/ k = 20 \/ k = 21)%nat -> p' !! k = p !! k) ->
  well_formed_ip p -> checksummed p' get_ip_hdr 20 -> well_formed_ip p'.
Proof.
  intros H [Hv Hh Hf _] Hc. split; [| | |done].
  - unfold ip_v, get8 in *. rewrite H; [done|by left].
  - unfold ip_hl, get8 in *. rewrite H; [done|by left].
  - destruct Hf as (off & Ho & Hm). exists off. split; [|done].
    unfold ip_off in *. rewrite <- Ho. apply get16_ext. intros k Hk. apply H.
    unfold get_ip_hdr, ETH_HDR_LEN in Hk. lia.
Qed.

Lemma forward_rewrite_spec packet ttl addr :
  is_bytes packet -> (34 <= length packet)%nat -> well_formed_ip packet ->
  is_bytes addr -> length addr = ETH_ADDR_LEN ->
  exists p', forward_rewrite packet ttl addr = Some p' /\
    forwards packet p' (u8 (ttl - 1)) addr.
Proof.
  intros Hp Hl Hw Hba Ha. unfold forward_rewrite, set_ip_ttl, set_ip_sum.
  assert (get_ip_hdr = 14%nat) as Eip by done.
  destruct (put8_total packet (get_ip_hdr + 8) (u8 (ttl - 1))) as (p1 & E1 & L1); [lia|].
  rewrite E1, opt_bind_Some. pose proof (put8_bytes _ _ _ _ Hp E1) as B1.
  destruct (put16_total p1 (get_ip_hdr + 10) 0) as (p2 & E2 & L2); [lia|].
  rewrite E2, opt_bind_Some. pose proof (put16_bytes _ _ _ _ B1 E2) as B2.
  assert (forall k, k ≠ 22%nat -> k ≠ 24%nat -> k ≠ 25%nat -> p2 !! k = packet !! k) as K2.
  { intros k ???. by rewrite (lookup_put16_ne _ _ _ _ _ E2), (lookup_put8_ne _ _ _ _ _ E1) by lia. }
  destruct (fill_ip_checksum_spec p2 get_ip_hdr) as (c & p3 & -> & E3 & C3); [done| |lia|].
  { destruct Hw as [_ Hh _ _]. unfold ip_hl, get8 in *. rewrite K2; [done|lia..]. }
  rewrite opt_bind_Some. pose proof (put16_bytes _ _ _ _ B2 E3) as B3.
  pose proof (put16_length _ _ _ _ E3) as L3.
  unfold populate_eth_hdr. rewrite opt_bind_Some.
  destruct (put_range_total p3 (0 + 6) (take ETH_ADDR_LEN addr)) as (p4 & E4 & L4).
  { rewrite length_take, Ha. unfold ETH_ADDR_LEN. lia. }
  rewrite E4, opt_bind_Some.
  destruct (put16_total p4 (0 + 12) (htons ETH_TYPE_IP)) as (p5 & E5 & L5); [lia|].
  rewrite E5. exists p5. split; [done|].
  assert (is_bytes p5) as B5.
  { eapply put16_bytes; [|exact E5]. eapply put_range_bytes; [done| |exact E4]. by apply Forall_take. }
  rewrite take_ge in E4 by (rewrite Ha; done).
  assert (forall k, (14 <= k)%nat -> p5 !! k = p3 !! k) as K5.
  { intros k Hk. rewrite (lookup_put16_ne _ _ _ _ _ E5) by lia.
    rewrite (lookup_put_range _ _ _ _ k E4), Ha. unfold ETH_ADDR_LEN.
    destruct (Nat.leb_spec (0 + 6) k), (Nat.ltb_spec k (0 + 6 + 6)); simpl; done || lia. }
  assert (forall k, (14 <= k)%nat -> k ≠ 22%nat -> k ≠ 24%nat -> k ≠ 25%nat -> p5 !! k = packet !! k)
    as K.
  { intros k ????. rewrite K5 by done. rewrite (lookup_put16_ne _ _ _ _ _ E3) by lia. by apply K2. }
  split.
  - lia.
  - done.
  - unfold ip_ttl, get8. rewrite Eip, K5, (lookup_put16_ne _ _ _ _ _ E3),
      (lookup_put16_ne _ _ _ _ _ E2) by lia.
    apply put8_inv in E1 as [_ ->]. rewrite list_lookup_insert_eq by lia.
    by rewrite (u8_id (u8 _)) by apply u8_range.
  - apply (well_formed_ext packet); [|done|].
    + intros k Hk. apply K; lia.
    + eapply checksummed_ext; [|exact C3]. intros i Hi. apply K5. lia.
  - apply get_range_lookup; [by rewrite Ha|lia|]. intros i Hi.
    rewrite (lookup_put16_ne _ _ _ _ _ E5) by lia.
    rewrite (lookup_put_range _ _ _ _ _ E4), Ha. unfold ETH_ADDR_LEN.
    destruct (Nat.leb_spec (0 + 6) (0 + 6 + i)), (Nat.ltb_spec (0 + 6 + i) (0 + 6 + 6));
      simpl; try lia. f_equal. lia.
  - unfold eth_type. eapply get16_put16; [|exact E5]. apply bswap16_range.
  - intros k [Hk|Hk] ???; [|by apply K].
    rewrite (lookup_put16_ne _ _ _ _ _ E5) by lia.
    rewrite (lookup_put_range _ _ _ _ _ E4), Ha. unfold ETH_ADDR_LEN.
    destruct (Nat.leb_spec (0 + 6) k); [lia|]. simpl.
    rewrite (lookup_put16_ne _ _ _ _ _ E3) by lia. by apply K2; lia.
Qed.

(** ** Lemmas: the handler *)

Definition enter_events : list event :=
  [EvLock L_arp_cache Rd; EvLock L_arp_queue Wr; EvLock L_if_list Rd; EvLock L_rtable Rd].

Definition leave_events : list event :=
  [EvUnlock L_rtable; EvUnlock L_if_list; EvUnlock L_arp_queue; EvUnlock L_arp_cache].

(** A valid packet that came in by an interface without NAT. *)
Record arrives (rs : router_state) (packet : bytes) (interface : string) (dst : Z) : Prop := {
  ar_bytes : is_bytes packet;
  ar_length : (42 <= length packet)%nat /\ Z.of_nat (length packet) <= 65000;
  ar_valid : well_formed_ip packet;
  ar_iface : exists ie, get_iface rs interface = Some ie /\ if_is_wan ie ≠ 1;
  ar_dst : ip_dst packet get_ip_hdr = Some dst
}.

(** What the handler does between taking and releasing the locks. *)
Definition handle_ip_packet (fuel : nat) (packet : bytes) (interface : string) (dst : Z)
    (rs : router_state) : M unit :=
  if iface_match_ip rs dst then deliver_ip_packet packet (length packet) interface
  else if dst =? htonl PWOSPF_HELLO_TIP then process_pwospf_packet packet interface
  else forward_ip_packet fuel packet (length packet) interface.

Lemma process_ip_packet_handles fuel packet interface dst w w' :
  arrives (w_rs w) packet interface dst ->
  handle_ip_packet fuel packet interface dst (w_rs w) (with_trace w enter_events) = Done tt w' ->
  process_ip_packet fuel packet (length packet) interface w = Done tt (with_trace w' leave_events).
Proof.
  intros [Hp [Hl _] Hw (ie & Hi & Hn) Hd] E. unfold process_ip_packet.
  rewrite (well_formed_valid packet Hp ltac:(lia) Hw). erewrite bind_done by reflexivity.
  cbn [negb]. do 5 (erewrite bind_done by reflexivity). cbn [w_rs]. rewrite Hi.
  erewrite bind_done by reflexivity. apply Z.eqb_neq in Hn. rewrite Hn.
  do 2 (erewrite bind_done by reflexivity). rewrite Hd. erewrite bind_done by reflexivity.
  cbn [w_rs].
  assert (mk_world (w_rs w) ((((w_trace w ++ [EvLock L_arp_cache Rd]) ++ [EvLock L_arp_queue Wr])
    ++ [EvLock L_if_list Rd]) ++ [EvLock L_rtable Rd]) (w_tick w) (w_next_addr w) (w_env w)
    = with_trace w enter_events) as Ew by (unfold with_trace; by rewrite <- !app_assoc).
  rewrite (bind_done _ _ _ tt w').
  2:{ cbn [w_trace w_tick w_next_addr w_env] in *. rewrite Ew. exact E. }
  do 3 (erewrite bind_done by reflexivity). unfold with_trace, leave_events, unlock_arp_cache,
    release, emit. cbn [w_rs w_trace w_tick w_next_addr w_env]. by rewrite <- !app_assoc.
Qed.

(** A packet for another host, with the route it takes. *)
Record in_transit (rs : router_state) (dst next_hop : Z) (out interface : string)
    (oe : iface_entry) : Prop := {
  tr_not_ours : iface_match_ip rs dst = false;
  tr_not_hello : dst ≠ htonl PWOSPF_HELLO_TIP;
  tr_route : get_next_hop IF_LEN rs dst = Some (next_hop, out);
  tr_other : strncmp_eq interface out IF_LEN = false;
  tr_out : get_iface rs out = Some oe;
  tr_not_wan : if_is_wan oe = 0
}.

Lemma get_range_all p : get_range p 0 (length p) = Some p.
Proof. unfold get_range. simpl. by rewrite Nat.leb_refl, take_ge. Qed.

Lemma frames_app t1 t2 : frames (t1 ++ t2) = frames t1 ++ frames t2.
Proof. apply bfilter_app. Qed.

(** C13: Exactly the packets are accepted that have a whole IP header, are IPv4,
    have no options, are not a fragment, and whose header sums to the all-ones
    word. The check has no length to go by: it stays inside a packet that has the
    34 bytes of its headers, and what it reads of a shorter one, which is not
    accepted, may lie behind its end. *)
Theorem is_packet_valid_correct packet :
  is_bytes packet ->
  (is_packet_valid packet = Some true <-> (34 <= length packet)%nat /\ well_formed_ip packet) /\
  (is_packet_valid packet = None -> (length packet < 34)%nat).
Proof.
  intros Hp. split; [split|].
  - intros H. assert (34 <= length packet)%nat as Hl by by apply valid_has_header.
    destruct (is_packet_valid_spec packet Hp Hl) as (b & E & Hb). split; [done|]. apply Hb. congruence.
  - intros [Hl Hw]. by apply well_formed_valid.
  - intros H. destruct (Nat.lt_ge_cases (length packet) 34) as [|Hl]; [done|].
    destruct (is_packet_valid_spec packet Hp Hl) as (b & E & _). congruence.
Qed.

Lemma forward_done fuel packet interface dst next_hop out oe ace ttl w :
  arrives (w_rs w) packet interface dst ->
  in_transit (w_rs w) dst next_hop out interface oe ->
  is_bytes (if_addr oe) -> length (if_addr oe) = ETH_ADDR_LEN ->
  ip_ttl packet get_ip_hdr = Some ttl -> ttl ≠ 1 ->
  in_arp_cache (w_rs w) next_hop = Some ace -> length (ac_ha ace) = ETH_ADDR_LEN ->
  exists p' w', process_ip_packet fuel packet (length packet) interface w = Done tt w' /\
    w_rs w' = w_rs w /\ forwards packet p' (u8 (ttl - 1)) (if_addr oe) /\
    frames (w_trace w') = frames (w_trace w) ++
      [EvSend (frame_of (with_dhost p' (ac_ha ace)) (length packet))
         (Nat.max (length packet) 60) out].
Proof.
  intros Har [H1 H2 H3 H4 H5 H6] Hba Hla Ht Hn1 Hc Hm.
  pose proof Har as [Hp [Hl _] Hw _ Hd].
  destruct (forward_rewrite_spec packet ttl (if_addr oe)) as (p' & E & Hf); [done|lia|done..|].
  exists p'. eexists. split; [|split; [|split; [exact Hf|]]].
  - apply process_ip_packet_handles with (dst := dst); [done|].
    unfold handle_ip_packet. rewrite H1. apply Z.eqb_neq in H2. rewrite H2.
    unfold forward_ip_packet. erewrite bind_done by reflexivity. rewrite Hd.
    erewrite bind_done by reflexivity. cbn [w_rs with_trace]. rewrite H3, H4, H5.
    erewrite bind_done by reflexivity. rewrite H6. erewrite bind_done by reflexivity.
    rewrite Ht. erewrite bind_done by reflexivity. apply Z.eqb_neq in Hn1. rewrite Hn1, E.
    erewrite bind_done by reflexivity.
    rewrite <- (fw_length _ _ _ _ Hf), get_range_all. erewrite bind_done by reflexivity.
    erewrite bind_done; [reflexivity|]. apply (send_ip_hit _ _ _ _ _ ace); [done|done|].
    rewrite (fw_length _ _ _ _ Hf). lia.
  - done.
  - cbn [w_trace with_trace sent]. rewrite !frames_app. simpl. rewrite !app_nil_r.
    by rewrite (fw_length _ _ _ _ Hf).
Qed.

(** C3: A packet for another host whose time to live is at least 2 goes out of the
    interface of the longest matching route, which is not that of the wide area
    network, to the MAC address cached for the next hop, in one frame: the time
    to live is one less, the header is valid for the next router, the source
    address is the interface's, and nothing else is changed. The state of the
    router is the same afterwards. *)
Theorem process_ip_packet_forwards fuel packet interface dst next_hop out oe ace ttl w :
  arrives (w_rs w) packet interface dst ->
  in_transit (w_rs w) dst next_hop out interface oe ->
  is_bytes (if_addr oe) -> length (if_addr oe) = ETH_ADDR_LEN ->
  ip_ttl packet get_ip_hdr = Some ttl -> 2 <= ttl ->
  in_arp_cache (w_rs w) next_hop = Some ace -> length (ac_ha ace) = ETH_ADDR_LEN ->
  exists p' w', process_ip_packet fuel packet (length packet) interface w = Done tt w' /\
    w_rs w' = w_rs w /\ forwards packet p' (ttl - 1) (if_addr oe) /\
    frames (w_trace w') = frames (w_trace w) ++
      [EvSend (frame_of (with_dhost p' (ac_ha ace)) (length packet))
         (Nat.max (length packet) 60) out].
Proof.
  intros Har Htr Hba Hla Ht H2 Hc Hm.
  rewrite <- (u8_id (ttl - 1)); [by eapply forward_done; [..|lia| |]|].
  assert (is_u8 ttl) as Hb by (eapply get8_is_u8; [apply Har|exact Ht]).
  unfold is_u8 in *. lia.
Qed.

(** A packet that arrives with a time to live of 0 is not refused: it leaves with
    255 of them. *)
Theorem ttl_zero_wraps fuel packet interface dst next_hop out oe ace w :
  arrives (w_rs w) packet interface dst ->
  in_transit (w_rs w) dst next_hop out interface oe ->
  is_bytes (if_addr oe) -> length (if_addr oe) = ETH_ADDR_LEN ->
  ip_ttl packet get_ip_hdr = Some 0 ->
  in_arp_cache (w_rs w) next_hop = Some ace -> length (ac_ha ace) = ETH_ADDR_LEN ->
  exists p' w', process_ip_packet fuel packet (length packet) interface w = Done tt w' /\
    forwards packet p' 255 (if_addr oe) /\
    frames (w_trace w') = frames (w_trace w) ++
      [EvSend (frame_of (with_dhost p' (ac_ha ace)) (length packet))
         (Nat.max (length packet) 60) out].
Proof.
  intros Har Htr Hba Hla Ht Hc Hm.
  destruct (forward_done fuel packet interface dst next_hop out oe ace 0 w) as (p' & w' & H1 & _ & H2 & H3);
    [done..|]. by exists p', w'.
Qed.

(** ** Errors *)

(** The ICMP error a packet deserves, type and code. *)
Definition ip_error (rs : router_state) (packet : bytes) (interface : string) (dst : Z)
    : option (Z * Z) :=
  if iface_match_ip rs dst then
    proto ← ip_p packet get_ip_hdr;
    if (proto =? IP_PROTO_TCP) || (proto =? IP_PROTO_ICMP) || (proto =? IP_PROTO_PWOSPF) then None
    else if proto =? IP_PROTO_UDP
    then Some (ICMP_TYPE_DESTINATION_UNREACHABLE, ICMP_CODE_PORT_UNREACHABLE)
    else Some (ICMP_TYPE_DESTINATION_UNREACHABLE, ICMP_CODE_PROTOCOL_UNREACHABLE)
  else if dst =? htonl PWOSPF_HELLO_TIP then None
  else
    match get_next_hop IF_LEN rs dst with
    | None => Some (ICMP_TYPE_DESTINATION_UNREACHABLE, ICMP_CODE_NET_UNKNOWN)
    | Some (_, out) =>
        if strncmp_eq interface out IF_LEN
        then Some (ICMP_TYPE_DESTINATION_UNREACHABLE, ICMP_CODE_NET_UNREACHABLE)
        else
          oe ← get_iface rs out; ttl ← ip_ttl packet get_ip_hdr;
          if (if_is_wan oe =? 0) && (ttl =? 1)
          then Some (ICMP_TYPE_TIME_EXCEEDED, ICMP_CODE_TTL_EXCEEDED) else None
    end.

Lemma ip_error_handled fuel packet interface dst rs type code w :
  ip_error rs packet interface dst = Some (type, code) -> ip_dst packet get_ip_hdr = Some dst ->
  w_rs w = rs ->
  type ≠ ICMP_TYPE_ECHO_REPLY /\
  handle_ip_packet fuel packet interface dst rs w =
    send_icmp_error packet (length packet) type code w.
Proof.
  unfold ip_error, handle_ip_packet. intros H Hd Hrs. destruct (iface_match_ip rs dst).
  - unfold deliver_ip_packet. apply bind_Some_inv in H as (proto & Hp & H). rewrite Hp.
    rewrite (bind_done _ _ w proto w) by done.
    destruct (proto =? IP_PROTO_TCP); [done|]. destruct (proto =? IP_PROTO_ICMP); [done|].
    destruct (proto =? IP_PROTO_PWOSPF); [done|]. cbn [orb] in H.
    by destruct (proto =? IP_PROTO_UDP); injection H as <- <-.
  - destruct (dst =? htonl PWOSPF_HELLO_TIP); [done|]. unfold forward_ip_packet.
    rewrite (bind_done _ _ w rs w) by (unfold get_rs; by rewrite Hrs).
    rewrite Hd, (bind_done _ _ w dst w) by done.
    destruct (get_next_hop IF_LEN rs dst) as [[nh out]|]; [|by injection H as <- <-].
    destruct (strncmp_eq interface out IF_LEN); [by injection H as <- <-|].
    apply bind_Some_inv in H as (oe & -> & H). apply bind_Some_inv in H as (ttl & Ht & H).
    rewrite (bind_done _ _ w oe w) by done.
    destruct (if_is_wan oe =? 0); [|done]. destruct (ttl =? 1) eqn:E1; [|done].
    injection H as <- <-. cbn [negb]. rewrite (bind_done _ _ w packet w) by done.
    rewrite Ht, (bind_done _ _ w ttl w) by done. by rewrite E1.
Qed.

(** C39: A packet that cannot be delivered or forwarded (no service on a closed
    port, an unknown protocol, no route, a route back out of the interface it
    came from, or a time to live of exactly one) is answered by the ICMP error for
    that reason and by nothing else, when the router has a route for the source
    of the packet and its next hop in the ARP cache: one frame to the source,
    with valid checksums, quoting the header and eight bytes of the packet.
    Without a route for the source the packet is dropped in silence. *)
Theorem process_ip_packet_errors fuel packet interface dst src type code w :
  arrives (w_rs w) packet interface dst ->
  ip_error (w_rs w) packet interface dst = Some (type, code) ->
  ip_src packet get_ip_hdr = Some src ->
  (forall ie ace, answerable (w_rs w) src ie ace ->
   exists ipc icmpc data w',
     let p := icmp_frame (if_addr ie) ipc (if reply_from_dst type code then dst else if_ip ie) src
                type code icmpc (calloc 4 ++ data) in
     process_ip_packet fuel packet (length packet) interface w = Done tt w' /\
     w_rs w' = w_rs w /\ get_range packet get_ip_hdr 28 = Some data /\
     checksummed p get_ip_hdr 20 /\ checksummed p get_icmp_hdr 36 /\
     frames (w_trace w') = frames (w_trace w) ++
       [EvSend (frame_of (with_dhost p (ac_ha ace)) 70) 70 (if_name ie)]) /\
  (get_next_hop IF_LEN (w_rs w) src = None ->
   exists w', process_ip_packet fuel packet (length packet) interface w = Done tt w' /\
     w_rs w' = w_rs w /\ frames (w_trace w') = frames (w_trace w)).
Proof.
  intros Har He Hsrc. pose proof Har as [Hp [Hl Hn] _ _ Hd].
  destruct (ip_error_handled fuel packet interface dst (w_rs w) type code
    (with_trace w enter_events)) as [Ht E]; [done..|]. split.
  - intros ie ace Ha.
    destruct (send_icmp_error_spec packet (length packet) type code src dst ie ace
      (with_trace w enter_events)) as (ipc & icmpc & data & r & E2 & Hdata & H1 & H2); [done..|].
    exists ipc, icmpc, data. eexists. cbv zeta in *. split_and!; [| |done|done|done|].
    + apply process_ip_packet_handles with (dst := dst); [done|]. rewrite E.
      unfold send_icmp_error. erewrite bind_done; [reflexivity|exact E2].
    + done.
    + cbn [w_trace with_trace sent]. rewrite !frames_app. simpl. by rewrite !app_nil_r.
  - intros Hno. eexists. split.
    + apply process_ip_packet_handles with (dst := dst); [done|]. rewrite E.
      unfold send_icmp_error. erewrite bind_done; [reflexivity|].
      unfold send_icmp_packet. erewrite bind_done by reflexivity. rewrite Hsrc.
      erewrite bind_done by reflexivity. cbn [w_rs with_trace]. by rewrite Hno.
    + split; [done|]. cbn [w_trace with_trace]. rewrite !frames_app. simpl. by rewrite !app_nil_r.
Qed.

(** A packet that is not well formed is dropped: nothing is sent, nothing
    is changed, and no lock is taken. *)
Theorem process_ip_packet_drops fuel packet len interface w :
  is_bytes packet -> (34 <= length packet)%nat -> ~ well_formed_ip packet ->
  process_ip_packet fuel packet len interface w = Done tt w.
Proof.
  intros Hp Hl Hw. destruct (is_packet_valid_spec packet Hp Hl) as ([] & E & Hb).
  - destruct Hw. by apply Hb.
  - unfold process_ip_packet. rewrite E. by erewrite bind_done by reflexivity.
Qed.
