(* ===== verification/Sping.v ===== *)
(** or_sping.c: the ping command, its wait for the reply, and the cleanup of
    replies nobody waited for. *)

From S2P Require Import Prelude Words Bytes State CStrings Headers Netfpga Rtable Iface Arp.
From S2P Require Import Icmp.
Local Open Scope Z_scope.

(** The identifier of a reply, right after the ICMP header. *)
Definition sping_id (se : sping_queue_entry) : option Z :=
  get16 (sq_packet se) (get_icmp_hdr + sizeof_icmp_hdr).

(** The walk over the queue: the queue without the first reply that has the
    identifier. *)
Fixpoint take_reply (id : Z) (cur : list sping_queue_entry)
    : option (option (list sping_queue_entry)) :=
  match cur with
  | [] => Some None
  | se :: cur' =>
      pckt_id ← sping_id se;
      if pckt_id =? id then Some (Some cur')
      else r ← take_reply id cur'; Some (fmap (M:=option) (cons se) r)
  end.

(** How a wait on the condition ends: by a timeout, or woken up after other
    threads queued some replies. *)
Inductive wakeup := TimedOut | Woken (arrived : list sping_queue_entry).

(** Returns 0 when the reply came. The mutex is released during a wait and held
    again after it. *)
Fixpoint wait_for_reply_loop (waits : list wakeup) (id : Z) : M Z :=
  match waits with
  | [] => fail OutOfFuel
  | TimedOut :: _ => mret 1
  | Woken arrived :: waits' =>
      modify_rs (fun rs => set_sping_queue (sping_queue rs ++ arrived) rs);;
      rs ← get_rs;
      r ← mem (take_reply id (sping_queue rs));
      match r with
      | Some q => put_rs (set_sping_queue q rs);; mret 0
      | None => wait_for_reply_loop waits' id
      end
  end.

Definition wait_for_reply (waits : list wakeup) (id : Z) : M Z :=
  lock_mutex_sping_queue;;
  response ← wait_for_reply_loop waits id;
  unlock_mutex_sping_queue;;
  mret response.

Definition cli_sping (waits : list wakeup) (fd : Z) (dst_str : string) : M unit :=
  match inet_pton dst_str with
  | None => send_to_socket fd ("syntax error : destination ip" ++ nl)
  | Some dst =>
      rs ← get_rs;
      if iface_match_ip rs dst then
        send_to_socket fd ("That is one of our interfaces!" ++ nl)
      else
        _ ← time;
        r ← rand;
        let id := u16 r in
        sent ← send_icmp_echo_request_packet dst id;
        if negb (sent =? 0) then
          send_to_socket fd ("error : failed to send ICMP echo request packet" ++ nl)
        else
          response ← wait_for_reply waits id;
          (if negb (response =? 0) then send_to_socket fd "no reply from : "
           else send_to_socket fd "GOT reply from : ");;
          send_to_socket fd dst_str;;
          send_to_socket fd nl
  end.

Definition expire_sping (se : sping_queue_entry) : M (option sping_queue_entry) :=
  now ← time;
  mret (if 30 <? now - sq_arrival_time se then None else Some se).

(** A round of [sping_queue_cleanup_thread]. *)
Definition sping_queue_cleanup_round : M unit :=
  lock_mutex_sping_queue;;
  rs ← get_rs;
  q ← filter_mapM expire_sping (sping_queue rs);
  put_rs (set_sping_queue q rs);;
  unlock_mutex_sping_queue.
