(* ===== verification/Cli.v ===== *)
(** The command line of the router: the requests of a client and the table of
    commands (or_cli.c, init_cli of or_main.c), and the handlers of the commands,
    which each component has in its own file. A command is matched by the
    longest registered prefix, then read with [sscanf]; the handlers answer on
    the client's socket. *)

From S2P Require Import Prelude Words Bytes State Nodes CStrings Sorting Netfpga Rtable Headers.
From S2P Require Import Packets Iface Arp Icmp Dijkstra Pwospf IfaceCtl Sprint Ip Sping.
From Stdlib Require Import Ascii.
From stdpp Require Import pretty.
Local Open Scope Z_scope.

(** ** Requests *)

Record cli_request := mk_cli_request { req_sockfd : Z; req_command : string }.

(** What a handler needs besides the state: the settings of the simulation
    client, how the wait of a ping ends, and the line of statistics, whose
    averages are floating-point numbers. *)
Record cli_context := mk_cli_context {
  sr_user : string;
  sr_vhost : string;
  sr_lhost : string;
  sr_topo_id : Z;
  sr_port : Z;
  sr_ip : Z;
  cx_waits : list wakeup;
  cx_hw_stats : string
}.

(** [send_to_socket(req->sockfd, msg, strlen(msg))] for one or several lines. *)
Definition say (req : cli_request) (msg : string) : M unit :=
  send_to_socket (req_sockfd req) (msg +:+ nl).
Definition say_lines (req : cli_request) (msgs : list string) : M unit := foreach (say req) msgs.
Definition send_text (req : cli_request) (text : string) : M unit :=
  send_to_socket (req_sockfd req) text.

(** ** The table of commands *)

(** The addresses of the handlers. *)
Inductive cli_command_handler :=
  | Cli_help | Cli_show_help | Cli_show_vns_help | Cli_show_vns | Cli_show_vns_user
  | Cli_show_vns_user_help | Cli_show_vns_lhost | Cli_show_vns_lhost_help | Cli_show_vns_vhost
  | Cli_show_vns_vhost_help | Cli_show_vns_server | Cli_show_vns_server_help
  | Cli_show_vns_topology | Cli_show_vns_topology_help | Cli_show_ip_help | Cli_show_ip_arp
  | Cli_show_ip_arp_help | Cli_show_ip_iface | Cli_show_ip_iface_help | Cli_show_ip_rtable
  | Cli_show_ip_rtable_help | Cli_ip_help | Cli_ip_route_help | Cli_ip_route_add
  | Cli_ip_route_add_help | Cli_ip_route_del | Cli_ip_route_del_help | Cli_ip_interface_help
  | Cli_ip_interface | Cli_ip_arp_help | Cli_ip_arp_add | Cli_ip_arp_add_help | Cli_ip_arp_del
  | Cli_ip_arp_del_help | Cli_ip_arp_set_ttl | Cli_sping | Cli_sping_help | Cli_pwospf_help
  | Cli_show_pwospf_iface | Cli_show_pwospf_iface_help | Cli_show_pwospf_router_list
  | Cli_show_pwospf_info | Cli_pwospf_set_aid | Cli_pwospf_set_aid_help | Cli_pwospf_set_hello
  | Cli_pwospf_set_lsu_broadcast | Cli_pwospf_set_lsu_interval | Cli_pwospf_send_hello
  | Cli_pwospf_send_lsu | Cli_hw_info | Cli_hw_help | Cli_show_hw_rtable
  | Cli_show_hw_arp_cache | Cli_nuke_arp_cache | Cli_nuke_hw_arp_cache_entry
  | Cli_show_hw_interface | Cli_hw_interface_add | Cli_hw_interface_del | Cli_hw_interface_set
  | Cli_hw_arp_cache_misses | Cli_hw_num_pckts_fwd.

#[export] Instance cli_command_handler_dec : EqDecision cli_command_handler.
Proof. solve_decision. Defined.

Record cli_entry := mk_cli_entry { ce_command : string; ce_handler : cli_command_handler }.

(** The calls of [register_cli_command], in order; each appends an entry. *)
Definition cli_commands : list cli_entry := map (fun c => mk_cli_entry c.1 c.2)
  [("help", Cli_help); ("?", Cli_help); ("show ?", Cli_show_help);
   ("show vns ?", Cli_show_vns_help); ("show vns", Cli_show_vns);
   ("show vns user", Cli_show_vns_user); ("show vns user ?", Cli_show_vns_user_help);
   ("show vns lhost", Cli_show_vns_lhost); ("show vns lhost ?", Cli_show_vns_lhost_help);
   ("show vns vhost", Cli_show_vns_vhost); ("show vns vhost ?", Cli_show_vns_vhost_help);
   ("show vns server", Cli_show_vns_server); ("show vns server ?", Cli_show_vns_server_help);
   ("show vns topology", Cli_show_vns_topology);
   ("show vns topology ?", Cli_show_vns_topology_help); ("show ip", Cli_show_ip_help);
   ("show ip ?", Cli_show_ip_help); ("show ip arp", Cli_show_ip_arp);
   ("show ip arp ?", Cli_show_ip_arp_help); ("show ip interface", Cli_show_ip_iface);
   ("show ip interface ?", Cli_show_ip_iface_help); ("show ip route", Cli_show_ip_rtable);
   ("show ip route ?", Cli_show_ip_rtable_help); ("ip ?", Cli_ip_help);
   ("ip route ?", Cli_ip_route_help); ("ip route add", Cli_ip_route_add);
   ("ip route add ?", Cli_ip_route_add_help); ("ip route del", Cli_ip_route_del);
   ("ip route del ?", Cli_ip_route_del_help); ("ip interface ?", Cli_ip_interface_help);
   ("ip interface", Cli_ip_interface); ("ip arp ?", Cli_ip_arp_help);
   ("ip arp add", Cli_ip_arp_add); ("ip arp add ?", Cli_ip_arp_add_help);
   ("ip arp del", Cli_ip_arp_del); ("ip arp del ?", Cli_ip_arp_del_help);
   ("ip arp set ttl", Cli_ip_arp_set_ttl); ("sping", Cli_sping); ("sping ?", Cli_sping_help);
   ("pwospf ?", Cli_pwospf_help); ("show pwospf iface", Cli_show_pwospf_iface);
   ("show pwospf iface ?", Cli_show_pwospf_iface_help);
   ("show pwospf router", Cli_show_pwospf_router_list);
   ("show pwospf info", Cli_show_pwospf_info); ("set aid", Cli_pwospf_set_aid);
   ("set aid ?", Cli_pwospf_set_aid_help); ("set hello interval", Cli_pwospf_set_hello);
   ("set lsu broadcast", Cli_pwospf_set_lsu_broadcast);
   ("set lsu interval", Cli_pwospf_set_lsu_interval); ("send hello", Cli_pwospf_send_hello);
   ("send lsu", Cli_pwospf_send_lsu); ("hw info", Cli_hw_info); ("hw ?", Cli_hw_help);
   ("show hw rtable", Cli_show_hw_rtable); ("show hw arp", Cli_show_hw_arp_cache);
   ("nuke arp", Cli_nuke_arp_cache); ("nuke hw arp", Cli_nuke_hw_arp_cache_entry);
   ("show hw iface", Cli_show_hw_interface); ("hw iface add", Cli_hw_interface_add);
   ("hw iface del", Cli_hw_interface_del); ("hw iface", Cli_hw_interface_set);
   ("hw arp miss", Cli_hw_arp_cache_misses); ("hw pckts fwd", Cli_hw_num_pckts_fwd)].

(** [strcmp(a->command, b->command) == 1] *)
Definition cli_swap `{Strcmp} (a b : cli_entry) : bool := strcmp (ce_command a) (ce_command b) =? 1.

Definition init_cli `{Strcmp} : option (list cli_entry) := bubble_sort cli_swap cli_commands.

(** The walk keeps the longest entry that is a prefix of the command so far,
    and its length. *)
Fixpoint cli_command_lpm_loop (command : string) (n : list cli_entry) (longest_match : nat)
    (longest_match_entry : option cli_entry) : option cli_entry :=
  match n with
  | [] => longest_match_entry
  | ce :: n' =>
      let entry_len := String.length (ce_command ce) in
      if (longest_match <? entry_len)%nat && (entry_len <=? String.length command)%nat
         && strncmp_eq command (ce_command ce) entry_len
      then cli_command_lpm_loop command n' entry_len (Some ce)
      else cli_command_lpm_loop command n' longest_match longest_match_entry
  end.

Definition cli_command_lpm (commands : list cli_entry) (command : string)
    : option cli_command_handler :=
  ce_handler <$> cli_command_lpm_loop command commands 0 None.

(** ** Help *)

Definition cli_help (req : cli_request) : M unit :=
  say_lines req ["usage: <args>";
    tab +:+ "show vns [user server vhost lhost topology]"; tab +:+ "show ip [route interface arp]";
    tab +:+ "ip [route interface arp]"; tab +:+ "sping [dest]";
    tab +:+ "show pwopsf [iface router info]"; tab +:+ "set aid [area id]";
    tab +:+ "set hello interval [interval]"; tab +:+ "set lsu broadcast [on off]";
    tab +:+ "set lsu interval [interval]"; tab +:+ "send hello"; tab +:+ "send lsu";
    tab +:+ "show hw rtable"; tab +:+ "show hw arp"; tab +:+ "show hw iface";
    tab +:+ "hw iface add [eth0 eth1 eth2 eth3] [mac adress]";
    tab +:+ "hw iface del [eth0 eth1 eth2 eth3]"; tab +:+ "nuke arp"; tab +:+ "nuke hw arp [row]";
    tab +:+ "hw iface [eth0 eth1 eth2 eth3] up"; tab +:+ "hw iface [eth0 eth1 eth2 eth3] down";
    tab +:+ "hw packts fwd"].

Definition cli_show_help (req : cli_request) : M unit :=
  say_lines req ["usage: show <args>"; "show vns [user server vhost lhost topology]";
    "show ip [route interface arp]"].

Definition cli_hw_help (req : cli_request) : M unit :=
  say_lines req [tab +:+ "show hw rtable"; tab +:+ "show hw arp"; tab +:+ "show hw iface";
    tab +:+ "nuke arp"; tab +:+ "nuke hw arp [row]";
    tab +:+ "hw iface add [eth0 eth1 eth2 eth3] [mac addr]";
    tab +:+ "hw iface del [eth0 eth1 eth2 eth3]"; tab +:+ "hw iface [eth0 eth1 eth2 eth3] up";
    tab +:+ "hw iface [eth0 eth1 eth2 eth3] down"; tab +:+ "hw packts fwd"].

Definition cli_show_ip_help (req : cli_request) : M unit :=
  say req "usage: show ip [route interface arp]".
Definition cli_ip_help (req : cli_request) : M unit :=
  say_lines req ["usage: ip <args>"; "ip [route interface arp]"].
Definition cli_sping_help (req : cli_request) : M unit := say req "usage: sping [address]".
Definition cli_show_ip_rtable_help (req : cli_request) : M unit := say req "usage: show ip route".
Definition cli_ip_route_help (req : cli_request) : M unit :=
  say_lines req ["usage: ip route <args>"; "ip route add dest gateway mask interface";
    "ip route del dest mask"].
Definition cli_ip_route_add_help (req : cli_request) : M unit :=
  say req "usage: ip route add dest gateway mask interface".
Definition cli_ip_route_del_help (req : cli_request) : M unit :=
  say req "usage: ip route del dest mask".
Definition cli_show_ip_iface_help (req : cli_request) : M unit :=
  say req "usage: show ip interface".
Definition cli_ip_interface_help (req : cli_request) : M unit :=
  say_lines req ["usage: ip iterface <args>"; "ip interface name ip mask"; "ip interface name up";
    "ip interface name down"].
Definition cli_show_ip_arp_help (req : cli_request) : M unit := say req "usage: show ip arp".
Definition cli_ip_arp_help (req : cli_request) : M unit :=
  say_lines req ["usage: ip arp <args>"; "ip arp add ip MAC"; "ip arp del ip"].
Definition cli_ip_arp_add_help (req : cli_request) : M unit := say req "usage ip arp add ip MAC".
Definition cli_ip_arp_del_help (req : cli_request) : M unit := say req "usage ip arp del ip".
Definition cli_show_pwospf_iface_help (req : cli_request) : M unit :=
  say req "usage: show pwospf interface".
Definition cli_pwospf_set_aid_help (req : cli_request) : M unit :=
  say req "usage: aid set [number]".
Definition cli_pwospf_help (req : cli_request) : M unit :=
  say_lines req ["pwospf usage: "; tab +:+ "show pwospf interface"; tab +:+ "show pwospf router";
    tab +:+ "set aid [value]"; tab +:+ "set hello interval [value]";
    tab +:+ "set lsu broadcast [on/off]"; tab +:+ "set lsu interval [value]"; tab +:+ "send hello";
    tab +:+ "send lsu"].

(** ** Showing the state *)

Definition cli_show_ip_rtable (req : cli_request) : M unit :=
  lock_rtable_rd;;
  info ← sprint_rtable;
  unlock_rtable;;
  send_text req info.

Definition cli_show_ip_iface (req : cli_request) : M unit :=
  lock_if_list_rd;;
  info ← sprint_if_list;
  unlock_if_list;;
  send_text req info.

Definition cli_show_ip_arp (req : cli_request) : M unit :=
  rs ← get_rs;
  send_text req (snprintf 32 ("Arp Cache TTL: " +:+ pad_left 5 (fmt_u (arp_ttl rs)) +:+ " seconds"
                              +:+ nl +:+ nl));;
  lock_arp_cache_rd;;
  info ← sprint_arp_cache;
  unlock_arp_cache;;
  send_text req info.

Definition cli_show_pwospf_iface (req : cli_request) : M unit :=
  lock_if_list_rd;;
  info ← sprint_pwospf_if_list;
  unlock_if_list;;
  send_text req info.

Definition cli_show_pwospf_router_list (req : cli_request) : M unit :=
  lock_mutex_pwospf_router_list;;
  info ← sprint_pwospf_router_list;
  unlock_mutex_pwospf_router_list;;
  send_text req info.

Definition cli_show_pwospf_info (req : cli_request) : M unit :=
  say req "PWOSPF INFORMATION:";;
  rs ← get_rs;
  send_text req ("Area ID: " +:+ fmt_u (area_id rs) +:+ nl +:+
                 "Hello Interval: " +:+ fmt_u (pwospf_hello_interval rs) +:+ nl +:+
                 "LSU Interval: " +:+ fmt_u (pwospf_lsu_interval rs) +:+ nl +:+ nl);;
  lock_mutex_pwospf_router_list;;
  info ← sprint_pwospf_router_list;
  unlock_mutex_pwospf_router_list;;
  send_text req info;;
  send_text req (nl +:+ nl);;
  lock_if_list_rd;;
  info ← sprint_pwospf_if_list;
  unlock_if_list;;
  send_text req info.

(** *** The device: nothing is answered without a NetFPGA *)

Definition on_netfpga (m : M unit) : M unit :=
  rs ← get_rs; if is_netfpga rs then m else mret tt.

Definition cli_show_hw_rtable (req : cli_request) : M unit :=
  on_netfpga (info ← sprint_hw_rtable; send_text req info).
Definition cli_show_hw_arp_cache (req : cli_request) : M unit :=
  on_netfpga (info ← sprint_hw_arp_cache; send_text req info).
Definition cli_show_hw_interface (req : cli_request) : M unit :=
  on_netfpga (info ← sprint_hw_iface; send_text req info).

Definition cli_hw_arp_cache_misses (req : cli_request) : M unit :=
  on_netfpga (misses ← readReg ARP_NUM_MISSES;
              send_text req (snprintf 80 ("HW ARP CACHE MISSES: " +:+ fmt_d (ntohl misses) +:+ nl))).

Definition cli_hw_num_pckts_fwd (req : cli_request) : M unit :=
  on_netfpga (number ← readReg NUM_PKTS_FORWARDED;
              send_text req (snprintf 80 ("HW NUMBER OF PACKETS FORWARDED: " +:+ fmt_d (ntohl number)
                                          +:+ nl))).

Definition cli_hw_info (cx : cli_context) (req : cli_request) : M unit :=
  on_netfpga (
    say req "HW STATS";;
    send_text req (cx_hw_stats cx);;
    send_text req (nl +:+ "HW DROPS" +:+ nl);;
    info ← sprint_hw_drops; send_text req info;;
    info ← sprint_hw_oq_drops; send_text req info;;
    send_text req (nl +:+ "HW IFACE INFO" +:+ nl);;
    info ← sprint_hw_iface; send_text req info;;
    send_text req (nl +:+ "HW IP FILTERS INFO" +:+ nl);;
    info ← sprint_hw_local_ip_filter; send_text req info;;
    send_text req (nl +:+ "HW RTABLE INFO" +:+ nl);;
    info ← sprint_hw_rtable; send_text req info;;
    send_text req (nl +:+ "HW ARP CACHE INFO" +:+ nl);;
    info ← sprint_hw_arp_cache; send_text req info;;
    misses ← readReg ARP_NUM_MISSES;
    send_text req (snprintf 80 (nl +:+ "HW ARP CACHE MISSES: " +:+ fmt_d misses +:+ nl));;
    number ← readReg NUM_PKTS_FORWARDED;
    send_text req (snprintf 80 ("HW NUMBER OF PACKETS FORWARDED: " +:+ fmt_d number +:+ nl))).

(** *** The simulation client (or_vns.c) *)

Definition vns_server (cx : cli_context) : string :=
  "AF_INET" +:+ tab +:+ tab +:+ "Port: " +:+ fmt_d (htons (sr_port cx)) +:+ tab +:+
  "IP: " +:+ inet_ntop (sr_ip cx).

Definition cli_show_vns (cx : cli_context) (req : cli_request) : M unit :=
  send_text req "VNS Values:";;
  send_text req (nl +:+ tab +:+ "User:" +:+ tab +:+ tab);;
  send_text req (sr_user cx);;
  send_text req (nl +:+ tab +:+ "Server:" +:+ tab +:+ tab);;
  send_text req (vns_server cx);;
  send_text req (nl +:+ tab +:+ "Vhost:" +:+ tab +:+ tab);;
  send_text req (sr_vhost cx);;
  send_text req (nl +:+ tab +:+ "Lhost:" +:+ tab +:+ tab);;
  send_text req (sr_lhost cx);;
  send_text req (nl +:+ tab +:+ "Topology: " +:+ tab +:+ fmt_d (sr_topo_id cx) +:+ nl).

Definition show_vns_field (name value : string) (req : cli_request) : M unit :=
  send_text req (name +:+ ":" +:+ tab +:+ tab);; send_text req value;; send_text req nl.

Definition cli_show_vns_user (cx : cli_context) : cli_request -> M unit :=
  show_vns_field "User" (sr_user cx).
Definition cli_show_vns_vhost (cx : cli_context) : cli_request -> M unit :=
  show_vns_field "Vhost" (sr_vhost cx).
Definition cli_show_vns_lhost (cx : cli_context) : cli_request -> M unit :=
  show_vns_field "Lhost" (sr_lhost cx).
Definition cli_show_vns_server (cx : cli_context) (req : cli_request) : M unit :=
  send_text req ("Server:" +:+ tab +:+ tab);; say req (vns_server cx).
Definition cli_show_vns_topology (cx : cli_context) (req : cli_request) : M unit :=
  say req ("Topology: " +:+ tab +:+ fmt_d (sr_topo_id cx)).

Definition cli_show_vns_help (req : cli_request) : M unit :=
  say req "usage: show vns [user server vhost lhost topology]".
Definition cli_show_vns_user_help (req : cli_request) : M unit := say req "Usage: show vns user".
Definition cli_show_vns_server_help (req : cli_request) : M unit := say req "Usage: show vns server".
Definition cli_show_vns_vhost_help (req : cli_request) : M unit := say req "Usage: show vns vhost".
Definition cli_show_vns_lhost_help (req : cli_request) : M unit := say req "Usage: show vns lhost".
Definition cli_show_vns_topology_help (req : cli_request) : M unit :=
  say req "Usage: show vns topology".

(** ** Changing the state *)

Definition bad_arguments (req : cli_request) : M unit := say req "Failure reading arguments.".

(** *** Routes (or_rtable.c) *)

Definition cli_ip_route_add (req : cli_request) : M unit :=
  match sscanf (req_command req) "ip route add %as %as %as %as" with
  | [AStr dest_str; AStr gateway_str; AStr mask_str; AStr interface] =>
      match inet_pton dest_str with
      | None => say req "Failure reading destination."
      | Some dest =>
      match inet_pton gateway_str with
      | None => say req "Failure reading gateway."
      | Some gateway =>
      match inet_pton mask_str with
      | None => say req "Failure reading mask."
      | Some mask =>
          lock_rtable_wr;;
          add_result ← add_route dest gateway mask interface;
          unlock_rtable;;
          if negb (add_result =? 0) then say req "Failure adding route."
          else say req "Successfully added route."
      end end end
  | _ => bad_arguments req
  end.

Definition cli_ip_route_del (req : cli_request) : M unit :=
  match sscanf (req_command req) "ip route del %as %as" with
  | [AStr dest_str; AStr mask_str] =>
      match inet_pton dest_str with
      | None => say req "Failure reading destination."
      | Some dest =>
      match inet_pton mask_str with
      | None => say req "Failure reading mask."
      | Some mask =>
          lock_rtable_wr;;
          del_result ← del_route dest mask;
          unlock_rtable;;
          send_text req (snprintf 256
            (if negb (del_result =? 1) then fmt_d del_result +:+ " routes deleted." +:+ nl
             else fmt_d del_result +:+ " route deleted." +:+ nl))
      end end
  | _ => bad_arguments req
  end.

(** *** Interfaces (or_iface.c) *)

(** [strncmp(p, s, strlen(p)) == 0] *)
Definition starts_with (p s : string) : bool := strncmp_eq p s (String.length p).

(** The reply after an interface was brought up or down. *)
Definition updown_reply (what name : string) (retval : Z) : string :=
  snprintf 128 (if retval =? 0 then "Successfully brought " +:+ what +:+ " " +:+ name +:+ "." +:+ nl
                else "No interface " +:+ name +:+ " found." +:+ nl).

(** With two arguments [mask_str] stays NULL. *)
Definition cli_ip_interface (req : cli_request) : M unit :=
  let run name ip_str mask_str :=
    if starts_with "up" ip_str then
      lock_if_list_wr;;
      lock_rtable_wr;;
      retval ← iface_up name;
      unlock_rtable;;
      unlock_if_list;;
      send_text req (updown_reply "up" name retval)
    else if starts_with "down" ip_str then
      lock_if_list_wr;;
      lock_rtable_wr;;
      retval ← iface_down name;
      unlock_rtable;;
      unlock_if_list;;
      send_text req (updown_reply "down" name retval)
    else
      match inet_pton ip_str with
      | None => say req "Failure reading ip."
      | Some ip =>
          mask_str ← deref mask_str;
          match inet_pton mask_str with
          | None => say req "Failure reading mask."
          | Some mask =>
              lock_if_list_wr;;
              retval ← iface_update name ip mask;
              unlock_if_list;;
              send_text req (snprintf 128
                (if negb (retval =? 0) then "Succesfully updated " +:+ name +:+ "." +:+ nl
                 else "No interface updated." +:+ nl))
          end
      end in
  match sscanf (req_command req) "ip interface %as %as %as" with
  | [AStr name; AStr ip_str] => run name ip_str None
  | [AStr name; AStr ip_str; AStr mask_str] => run name ip_str (Some mask_str)
  | _ => say req "Syntax error."
  end.

(** The port an interface name starts with. *)
Definition hw_port (iface : string) : option Z :=
  if starts_with ETH0 iface then Some 0
  else if starts_with ETH1 iface then Some 1
  else if starts_with ETH2 iface then Some 2
  else if starts_with ETH3 iface then Some 3
  else None.

Definition cli_hw_interface_add (req : cli_request) : M unit :=
  on_netfpga
    match sscanf (req_command req) "hw iface add %as %2X:%2X:%2X:%2X:%2X:%2X" with
    | [AStr iface; ANum a; ANum b; ANum c; ANum d; ANum e; ANum f] =>
        match hw_port iface with
        | None => say req "Failure reading the interface name."
        | Some port =>
            mac_hi ← mem (mac_hi_word [a; b; c; d; e; f]);
            mac_lo ← mem (mac_lo_word [a; b; c; d; e; f]);
            write_hw_iface_mac port mac_hi mac_lo;;
            say req "Interface added"
        end
    | _ => bad_arguments req
    end.

Definition cli_hw_interface_del (req : cli_request) : M unit :=
  on_netfpga
    match sscanf (req_command req) "hw iface del %as" with
    | [AStr iface] =>
        match hw_port iface with
        | None => say req "Failure reading the interface name."
        | Some port => write_hw_iface_mac port 0 0;; say req "Interface deleted"
        end
    | _ => bad_arguments req
    end.

Definition cli_hw_interface_set (req : cli_request) : M unit :=
  on_netfpga
    match sscanf (req_command req) "hw iface %as %as" with
    | [AStr name; AStr cmd] =>
        match hw_port name with
        | None => say req "Invalid interface name"
        | Some queue =>
            if starts_with "up" cmd then
              set_hw_iface queue 0;;
              send_text req (snprintf 80 ("HW interface " +:+ name +:+ " was brought up" +:+ nl))
            else if starts_with "down" cmd then
              set_hw_iface queue 3;;
              send_text req (snprintf 80 ("HW interface " +:+ name +:+ " was brought down" +:+ nl))
            else say req "Invalid command name"
        end
    | _ => say req "Syntax error."
    end.

(** *** The ARP cache (or_arp.c) *)

Definition cli_ip_arp_add (req : cli_request) : M unit :=
  match sscanf (req_command req) "ip arp add %as %2X:%2X:%2X:%2X:%2X:%2X" with
  | [AStr ip_str; ANum a; ANum b; ANum c; ANum d; ANum e; ANum f] =>
      match inet_pton ip_str with
      | None => say req "Failure reading ip."
      | Some ip =>
          lock_arp_cache_wr;;
          result ← update_arp_cache ip [a; b; c; d; e; f] 1;
          unlock_arp_cache;;
          if negb (result =? 0) then say req "Failure adding arp cache entry."
          else say req "Successfully added arp cache entry."
      end
  | _ => bad_arguments req
  end.

Definition cli_ip_arp_del (req : cli_request) : M unit :=
  match sscanf (req_command req) "ip arp del %as" with
  | [AStr ip_str] =>
      match inet_pton ip_str with
      | None => say req "Failure reading ip."
      | Some ip =>
          lock_arp_cache_wr;;
          result ← del_arp_cache ip;
          (if 0 <? result then trigger_arp_cache_modified else mret tt);;
          unlock_arp_cache;;
          send_text req (snprintf 256
            (if negb (result =? 1) then fmt_d result +:+ " arp cache entries deleted." +:+ nl
             else fmt_d result +:+ " arp cache entry deleted." +:+ nl))
      end
  | _ => bad_arguments req
  end.

Definition cli_nuke_arp_cache (req : cli_request) : M unit :=
  lock_arp_cache_wr;;
  modify_rs (set_arp_cache []);;
  rs ← get_rs;
  (if is_netfpga rs then trigger_arp_cache_modified else mret tt);;
  unlock_arp_cache;;
  say req "SW and HW arp cache info was nuked".

Definition cli_nuke_hw_arp_cache_entry (req : cli_request) : M unit :=
  on_netfpga
    match sscanf (req_command req) "nuke hw arp %ui" with
    | [ANum row] =>
        if Z.of_nat TABLE_DEPTH - 1 <? row then say req "Specified invalid row"
        else
          writeReg ARP_ENTRY_MAC_HI 0;;
          writeReg ARP_ENTRY_MAC_LO 0;;
          writeReg ARP_ENTRY_NEXT_HOP_IP 0;;
          writeReg ARP_WR_ADDR row;;
          send_text req (snprintf 80 ("Row " +:+ fmt_d row +:+ " has been nuked" +:+ nl))
    | _ => say req "Failure to read arguments."
    end.

Definition cli_ip_arp_set_ttl (req : cli_request) : M unit :=
  match sscanf (req_command req) "ip arp set ttl %ui" with
  | [ANum timeout] =>
      modify_rs (set_arp_ttl timeout);;
      send_text req (snprintf 80 ("Arp entry TTL has been set to: " +:+ fmt_d timeout +:+ nl))
  | _ => say req "Syntax error"
  end.

(** *** PWOSPF (or_pwospf.c) *)

Definition cli_pwospf_set_aid (req : cli_request) : M unit :=
  match sscanf (req_command req) "set aid %u" with
  | [ANum aid] => modify_rs (set_area_id aid);; say req "Area id has been set"
  | _ => bad_arguments req
  end.

(** Without a number the failure is reported, and 0 is set all the same. *)
Definition cli_pwospf_set_hello (req : cli_request) : M unit :=
  hello_interval ←
    match sscanf (req_command req) "set hello interval %u" with
    | [ANum z] => mret z
    | _ => bad_arguments req;; mret 0
    end;
  modify_rs (set_pwospf_hello_interval (u16 hello_interval));;
  say req "Hello interval has been set".

Definition cli_pwospf_set_lsu_broadcast (req : cli_request) : M unit :=
  match sscanf (req_command req) "set lsu broadcast %as" with
  | [AStr value_str] =>
      if strcmp_eq "on" value_str then
        modify_rs (set_pwospf_lsu_broadcast 1);; say req "LSU Broadcasting set to ON."
      else if strcmp_eq "off" value_str then
        modify_rs (set_pwospf_lsu_broadcast 0);; say req "LSU Broadcasting set to OFF."
      else bad_arguments req
  | _ => bad_arguments req
  end.

Definition cli_pwospf_set_lsu_interval (req : cli_request) : M unit :=
  lsu_interval ←
    match sscanf (req_command req) "set lsu interval %u" with
    | [ANum z] => mret z
    | _ => bad_arguments req;; mret 0
    end;
  modify_rs (set_pwospf_lsu_interval lsu_interval);;
  say req "LSU Interval set.".

Definition cli_pwospf_send_hello (req : cli_request) : M unit :=
  lock_if_list_wr;;
  broadcast_pwospf_hello_packet;;
  unlock_if_list;;
  say req "Hello packet sent on each interface".

Definition cli_pwospf_send_lsu (req : cli_request) : M unit :=
  lock_mutex_pwospf_router_list;;
  start_lsu_bcast_flood;;
  unlock_mutex_pwospf_router_list;;
  signal C_lsu_bcast;;
  say req "LSU packet sent on each interface (up or down)".

(** *** Ping (or_sping.c) *)

(** [req->command + strlen("sping ")]: a command that ends before it points
    past its terminating null character. *)
Definition sping_argument (command : string) : option string :=
  let skip := String.length "sping " in
  if (skip <=? String.length command)%nat
  then Some (String.substring skip (String.length command - skip) command) else None.

Definition cli_sping_request (cx : cli_context) (req : cli_request) : M unit :=
  dst_str ← mem (sping_argument (req_command req));
  cli_sping (cx_waits cx) (req_sockfd req) dst_str.

(** ** Calling a handler *)

Definition call_handler (cx : cli_context) (h : cli_command_handler) (req : cli_request) : M unit :=
  match h with
  | Cli_help => cli_help req
  | Cli_show_help => cli_show_help req
  | Cli_show_vns_help => cli_show_vns_help req
  | Cli_show_vns => cli_show_vns cx req
  | Cli_show_vns_user => cli_show_vns_user cx req
  | Cli_show_vns_user_help => cli_show_vns_user_help req
  | Cli_show_vns_lhost => cli_show_vns_lhost cx req
  | Cli_show_vns_lhost_help => cli_show_vns_lhost_help req
  | Cli_show_vns_vhost => cli_show_vns_vhost cx req
  | Cli_show_vns_vhost_help => cli_show_vns_vhost_help req
  | Cli_show_vns_server => cli_show_vns_server cx req
  | Cli_show_vns_server_help => cli_show_vns_server_help req
  | Cli_show_vns_topology => cli_show_vns_topology cx req
  | Cli_show_vns_topology_help => cli_show_vns_topology_help req
  | Cli_show_ip_help => cli_show_ip_help req
  | Cli_show_ip_arp => cli_show_ip_arp req
  | Cli_show_ip_arp_help => cli_show_ip_arp_help req
  | Cli_show_ip_iface => cli_show_ip_iface req
  | Cli_show_ip_iface_help => cli_show_ip_iface_help req
  | Cli_show_ip_rtable => cli_show_ip_rtable req
  | Cli_show_ip_rtable_help => cli_show_ip_rtable_help req
  | Cli_ip_help => cli_ip_help req
  | Cli_ip_route_help => cli_ip_route_help req
  | Cli_ip_route_add => cli_ip_route_add req
  | Cli_ip_route_add_help => cli_ip_route_add_help req
  | Cli_ip_route_del => cli_ip_route_del req
  | Cli_ip_route_del_help => cli_ip_route_del_help req
  | Cli_ip_interface_help => cli_ip_interface_help req
  | Cli_ip_interface => cli_ip_interface req
  | Cli_ip_arp_help => cli_ip_arp_help req
  | Cli_ip_arp_add => cli_ip_arp_add req
  | Cli_ip_arp_add_help => cli_ip_arp_add_help req
  | Cli_ip_arp_del => cli_ip_arp_del req
  | Cli_ip_arp_del_help => cli_ip_arp_del_help req
  | Cli_ip_arp_set_ttl => cli_ip_arp_set_ttl req
  | Cli_sping => cli_sping_request cx req
  | Cli_sping_help => cli_sping_help req
  | Cli_pwospf_help => cli_pwospf_help req
  | Cli_show_pwospf_iface => cli_show_pwospf_iface req
  | Cli_show_pwospf_iface_help => cli_show_pwospf_iface_help req
  | Cli_show_pwospf_router_list => cli_show_pwospf_router_list req
  | Cli_show_pwospf_info => cli_show_pwospf_info req
  | Cli_pwospf_set_aid => cli_pwospf_set_aid req
  | Cli_pwospf_set_aid_help => cli_pwospf_set_aid_help req
  | Cli_pwospf_set_hello => cli_pwospf_set_hello req
  | Cli_pwospf_set_lsu_broadcast => cli_pwospf_set_lsu_broadcast req
  | Cli_pwospf_set_lsu_interval => cli_pwospf_set_lsu_interval req
  | Cli_pwospf_send_hello => cli_pwospf_send_hello req
  | Cli_pwospf_send_lsu => cli_pwospf_send_lsu req
  | Cli_hw_info => cli_hw_info cx req
  | Cli_hw_help => cli_hw_help req
  | Cli_show_hw_rtable => cli_show_hw_rtable req
  | Cli_show_hw_arp_cache => cli_show_hw_arp_cache req
  | Cli_nuke_arp_cache => cli_nuke_arp_cache req
  | Cli_nuke_hw_arp_cache_entry => cli_nuke_hw_arp_cache_entry req
  | Cli_show_hw_interface => cli_show_hw_interface req
  | Cli_hw_interface_add => cli_hw_interface_add req
  | Cli_hw_interface_del => cli_hw_interface_del req
  | Cli_hw_interface_set => cli_hw_interface_set req
  | Cli_hw_arp_cache_misses => cli_hw_arp_cache_misses req
  | Cli_hw_num_pckts_fwd => cli_hw_num_pckts_fwd req
  end.

Definition lock_cli_commands_rd : M unit := acquire L_cli_commands Rd.
Definition unlock_cli_commands : M unit := release L_cli_commands.

Definition handle_command (cx : cli_context) (commands : list cli_entry) (req : cli_request) : M unit :=
  match cli_command_lpm commands (req_command req) with
  | None => say req "invalid command ... type ? or help for valid command help"
  | Some handler => call_handler cx handler req
  end.

(** ** The thread of a client *)

Definition MAX_COMMAND_SIZE : nat := 128.

(** The results of [recv]: some characters, none (the client closed the
    connection), or an error. *)
Inductive recv_result := Received (data : list ascii) | Closed | Failed.

Definition NUL : ascii := "000"%char.

(** The string at the start of a buffer, if it ends within it. *)
Fixpoint c_string (buf : list ascii) : option string :=
  match buf with
  | [] => None
  | c :: buf' => if Ascii.eqb c NUL then Some EmptyString else String c <$> c_string buf'
  end.

(** [cleanCRLFs] on a buffer: the carriage returns and line feeds of the string
    at its start become null characters. *)
Fixpoint clean_buffer (buf : list ascii) : list ascii :=
  match buf with
  | [] => []
  | c :: buf' =>
      if Ascii.eqb c NUL then buf
      else (if (code c =? 13) || (code c =? 10) then NUL else c) :: clean_buffer buf'
  end.

(** The prompt is sent with its terminating null character. *)
Definition prompt (fd : Z) : M unit := send_to_socket fd ("> " +:+ String NUL EmptyString).

(** The loop of [process_client_request] on the results of [recv], with the
    buffer that is not cleared between two of them: [true] when the client was
    served to its end. A closed connection is asked again, for ever. *)
Fixpoint client_loop (cx : cli_context) (commands : list cli_entry) (fd : Z) (buf : list ascii)
    (recvs : list recv_result) : M bool :=
  match recvs with
  | [] => mret false
  | Closed :: recvs' => client_loop cx commands fd buf recvs'
  | Failed :: _ => mret true
  | Received data :: recvs' =>
      let buf := data ++ drop (length data) buf in
      _ ← mem (c_string buf);
      let buf := clean_buffer buf in
      command ← mem (c_string buf);
      if strncmp_eq command "exit" 4 then send_to_socket fd ("bye!" +:+ nl);; emit (EvClose fd);; mret true
      else
        handle_command cx commands (mk_cli_request fd command);;
        prompt fd;;
        client_loop cx commands fd buf recvs'
  end.

Definition process_client_request (cx : cli_context) (commands : list cli_entry) (fd : Z)
    (recvs : list recv_result) : M bool :=
  prompt fd;;
  client_loop cx commands fd (replicate MAX_COMMAND_SIZE NUL) recvs.
