(* ===== verification/Www.v ===== *)
(** The web server of the router (or_www.c): the queue of connections, reading a
    request, and the answers: the list of commands, the statistics, the result of
    a command, a file. The results of [recv] and of [send], the directory and its
    files are arguments; a run that waits for a result it is not given stops
    there, as [client_loop] does. *)

From S2P Require Import Prelude Words Bytes State CStrings Sorting Netfpga Sprint Cli.
From Stdlib Require Import Ascii.
From stdpp Require Import pretty.
Local Open Scope Z_scope.

(** ** The queue of connections *)

Definition lock_www : M unit := acquire L_www Mutex.
Definition unlock_www : M unit := release L_www.

(** The body of the loop of [www_main], after [accept]. *)
Definition www_main_round (www_request_queue : list Z) (clientfd : Z) : M (list Z) :=
  lock_www;;
  let www_request_queue := www_request_queue ++ [clientfd] in
  unlock_www;;
  emit (EvSignal C_www);;
  mret www_request_queue.

(** ** Reading a request *)

Definition CRLF : string := String "013" (String "010" EmptyString).

Definition crlfcrlf_at (buf : list ascii) : bool :=
  match buf with
  | a :: b :: c :: d :: _ =>
      Ascii.eqb a "013" && Ascii.eqb b "010" && Ascii.eqb c "013" && Ascii.eqb d "010"
  | _ => false
  end.
Fixpoint contains_crlfcrlf (buf : list ascii) : bool :=
  match buf with
  | [] => false
  | _ :: buf' => crlfcrlf_at buf || contains_crlfcrlf buf'
  end.

(** The request read; no request (the client closed, or an error); or the
    client still has to send. *)
Inductive request_read := Request (buf : list ascii) | NoRequest | Waiting.

Definition BUF_ALLOC_SIZE : nat := 100.

(** [recv] returns at most the characters it was asked for; a full buffer is
    copied into one of twice the size. *)
Fixpoint read_loop (buf_alloc_size : nat) (buf : list ascii) (recvs : list recv_result) : request_read :=
  match recvs with
  | [] => Waiting
  | Received data :: recvs' =>
      let buf := buf ++ take (buf_alloc_size - length buf) data in
      let received_crlfcrlf := contains_crlfcrlf buf in
      let buf_alloc_size := if (length buf =? buf_alloc_size)%nat then (buf_alloc_size * 2)%nat
                            else buf_alloc_size in
      if received_crlfcrlf then Request buf else read_loop buf_alloc_size buf recvs'
  | Closed :: _ => if contains_crlfcrlf buf then Request buf else NoRequest
  | Failed :: _ => NoRequest
  end.

Definition read_request (recvs : list recv_result) : request_read := read_loop BUF_ALLOC_SIZE [] recvs.

(** ** Sending *)

Definition MAX_SEND : nat := 8400.

Fixpoint str_drop (n : nat) (s : string) : string :=
  match n, s with S n', String _ s' => str_drop n' s' | _, _ => s end.

(** [send_all] on the results of [send]: its result with the results left, or
    nothing when it still has to send. *)
Fixpoint send_all (fd : Z) (msg : string) (sends : list Z) : M (option (Z * list Z)) :=
  match msg with
  | EmptyString => mret (Some (0, sends))
  | _ =>
      match sends with
      | [] => mret None
      | s :: sends' =>
          if s <? 0 then mret (Some (-1, sends'))
          else
            let n := Nat.min (Z.to_nat s) (Nat.min MAX_SEND (String.length msg)) in
            emit (EvSocket fd (str_take n msg));;
            send_all fd (str_drop n msg) sends'
      end
  end.

(** One [send], whose result is ignored. *)
Definition send_once (fd : Z) (msg : string) (sends : list Z) : M (option (list Z)) :=
  match sends with
  | [] => mret None
  | s :: sends' => (if s <? 0 then mret tt else emit (EvSocket fd (str_take (Z.to_nat s) msg)));; mret (Some sends')
  end.

(** What comes after a step that may still be waiting. *)
Definition and_then {A} (m : M (option A)) (k : A -> M bool) : M bool :=
  o ← m; match o with None => mret false | Some a => k a end.

Record file := mk_file { f_size : nat; f_read : string }.

Definition content_length (size : Z) : string := "Content-Length: " +:+ pretty size +:+ CRLF +:+ CRLF.

Definition send_file (fd : Z) (f : file) (sends : list Z) : M (option (Z * list Z)) :=
  o ← send_all fd (snprintf 127 (content_length (Z.of_nat (f_size f)))) sends;
  match o with
  | None => mret None
  | Some (_, sends) =>
      if negb (String.length (f_read f) =? f_size f)%nat then mret (Some (-1, sends))
      else send_all fd (f_read f) sends
  end.

(** ** The answers *)

Definition strncat_ (left right : string) (alloc_size : Z) : M (string * Z) :=
  lift OutOfFuel (my_strncat left right alloc_size).

Fixpoint list_loop (msg : string) (alloc_size : Z) (cur : list cli_entry) : M string :=
  match cur with
  | [] => mret msg
  | entry :: cur' =>
      '(msg, alloc_size) ← strncat_ msg (ce_command entry) alloc_size;
      '(msg, alloc_size) ← strncat_ msg nl alloc_size;
      list_loop msg alloc_size cur'
  end.

Definition list_commands (commands : list cli_entry) : M string :=
  lock_cli_commands_rd;;
  msg ← list_loop "" 256 commands;
  unlock_cli_commands;;
  mret msg.

(** [strtok]: the next token and what follows its delimiter. *)
Definition strtok (delim : ascii -> bool) (l : list ascii) : option (list ascii * list ascii) :=
  match (span delim l).2 with
  | [] => None
  | l' => let '(tok, rest) := span (fun c => negb (delim c)) l' in Some (tok, tail rest)
  end.

Definition is_delimiter (c : ascii) : bool := Ascii.eqb c "=" || Ascii.eqb c "&".

(** The second token of the URL, decoded; nothing when there is none. *)
Definition decoded_command (url : string) : string :=
  match strtok is_delimiter (chars url) with
  | Some (_, rest) =>
      match strtok is_delimiter rest with
      | Some (command, _) => urldecode (implode command)
      | None => ""
      end
  | None => ""
  end.

Definition HTTP_OK : string := "HTTP/1.0 200 OK" +:+ CRLF.
Definition HTTP_NOT_FOUND : string := "HTTP/1.0 404 Not Found" +:+ CRLF +:+ CRLF.
Definition NOT_FOUND_PAGE : string :=
  "<html><head><title>404 Not Found</title></head><body><h1>Not Found</h1><p>The requested URL was not found on this server.</p></body></html>".

Definition answer_list (commands : list cli_entry) (fd : Z) (sends : list Z) : M bool :=
  body ← list_commands commands;
  '(result, alloc_size) ← strncat_ HTTP_OK (content_length (Z.of_nat (String.length body))) 512;
  '(result, alloc_size) ← strncat_ result body alloc_size;
  and_then (send_all fd result sends) (fun _ => mret true).

(** The text of the statistics is copied over the header, into 512 bytes. *)
Definition answer_stats (cx : cli_context) (fd : Z) (sends : list Z) : M bool :=
  let statsBuf := cx_hw_stats cx in
  result ← mem (if (String.length statsBuf <? 512)%nat then Some statsBuf else None);
  and_then (send_all fd result sends) (fun _ => mret true).

(** The command runs under the lock of the commands. *)
Definition run_web_command (cx : cli_context) (commands : list cli_entry) (req : cli_request) : M unit :=
  lock_cli_commands_rd;;
  match cli_command_lpm commands (req_command req) with
  | None => send_to_socket (req_sockfd req) ("invalid command" +:+ nl)
  | Some handler => call_handler cx handler req
  end;;
  unlock_cli_commands.

Definition answer_command (cx : cli_context) (commands : list cli_entry) (url : string) (fd : Z)
    (sends : list Z) : M bool :=
  let decodedCommand := decoded_command url in
  and_then (send_all fd (HTTP_OK +:+ CRLF) sends) (fun _ =>
    run_web_command cx commands (mk_cli_request fd decodedCommand);; mret true).

(** [strncat(fileName, s, 511 - strlen(fileName))] *)
Definition append_name (fileName s : string) : string :=
  fileName +:+ str_take (511 - String.length fileName) s.

Definition file_name (cwd url : string) : string :=
  let fileName := append_name cwd "/www" in
  append_name fileName (if String.eqb url "/" then "/index.html" else url).

Definition answer_file (cwd : string) (fopen : string -> option file) (url : string) (fd : Z)
    (sends : list Z) : M bool :=
  match fopen (file_name cwd url) with
  | None =>
      and_then (send_once fd HTTP_NOT_FOUND sends) (fun sends =>
      and_then (send_once fd NOT_FOUND_PAGE sends) (fun _ => mret true))
  | Some f =>
      and_then (send_once fd HTTP_OK sends) (fun sends =>
      and_then (send_file fd f sends) (fun _ => mret true))
  end.

(** The method and the URL of a request: the buffer holds a null character
    after it. *)
Definition request_line (buf : list ascii) : M (option (string * string)) :=
  text ← mem (c_string (buf ++ [NUL]));
  mret (match sscanf text "%as %as" with
        | [AStr method; AStr url] => Some (method, url)
        | _ => None
        end).

Definition answer (cx : cli_context) (commands : list cli_entry) (cwd : string) (fopen : string -> option file)
    (url : string) (fd : Z) (sends : list Z) : M bool :=
  if strcmp_eq url "/list.html" then answer_list commands fd sends
  else if strncmp_eq url "/stats.html" 11 then answer_stats cx fd sends
  else if strncmp_eq url "/command.html" 13 then answer_command cx commands url fd sends
  else answer_file cwd fopen url fd sends.

(** [true] when the connection was served to its end and closed. *)
Definition service_request (cx : cli_context) (commands : list cli_entry) (cwd : string)
    (fopen : string -> option file) (fd : Z) (recvs : list recv_result) (sends : list Z) : M bool :=
  match read_request recvs with
  | Waiting => mret false
  | NoRequest => emit (EvClose fd);; mret true
  | Request buf =>
      line ← request_line buf;
      match line with
      | None => emit (EvClose fd);; mret true
      | Some (_, url) =>
          served ← answer cx commands cwd fopen url fd sends;
          if served : bool then emit (EvClose fd);; mret true else mret false
      end
  end.

(** The body of the loop of [www_client_thread], after the wait for a second:
    the queue, and whether a connection is still being served. *)
Definition www_client_round (cx : cli_context) (commands : list cli_entry) (cwd : string)
    (fopen : string -> option file) (recvs : Z -> list recv_result) (sends : Z -> list Z)
    (www_request_queue : list Z) : M (list Z * bool) :=
  lock_www;;
  match www_request_queue with
  | [] => unlock_www;; mret ([], true)
  | fd :: www_request_queue' =>
      unlock_www;;
      served ← service_request cx commands cwd fopen fd (recvs fd) (sends fd);
      mret (www_request_queue', served)
  end.
