(* ===== verification/Main.v ===== *)
(** or_main.c: the entry point for packets, the initialisation of the interface
    list, the router list, the routing table and the device, and the services
    offered to the transport stack; with the wrappers of sr_integration.c. *)

From S2P Require Import Prelude Words Bytes State CStrings Headers Netfpga Rtable Iface Arp.
From S2P Require Import Dijkstra Pwospf Ip.
Local Open Scope Z_scope.

(** ** Packets *)

Definition process_packet (fuel : nat) (packet : bytes) (len : nat) (interface : string) : M unit :=
  active ← iface_is_active interface;
  if negb active then mret tt
  else
    type ← mem (eth_type packet 0);
    if ntohs type =? ETH_TYPE_IP then process_ip_packet fuel packet len interface
    else if ntohs type =? ETH_TYPE_ARP then process_arp_packet packet
    else mret tt.

Definition sr_integ_input (fuel : nat) (packet : bytes) (len : nat) (interface : string) : M unit :=
  process_packet fuel packet len interface.

(** ** Services for the transport stack *)

Definition find_srcip (dest : Z) : M Z :=
  lock_if_list_rd;;
  lock_rtable_rd;;
  rs ← get_rs;
  srcip ← match get_next_hop IF_LEN rs dest with
          | None => mret 0
          | Some (_, iface) =>
              iface_struct ← lift AssertFailed (get_iface rs iface);
              mret (if_ip iface_struct)
          end;
  unlock_rtable;;
  unlock_if_list;;
  mret srcip.

Definition integ_ip_output (payload : bytes) (proto src dest : Z) : M Z :=
  send_ip_packet proto src dest payload.

Definition sr_integ_findsrcip (dest : Z) : M Z := find_srcip dest.

Definition sr_integ_ip_output (payload : bytes) (proto src dest : Z) : M Z :=
  integ_ip_output payload proto src dest.

(** ** Initialisation *)

Definition PWOSPF_AREA_ID : Z := 0.
Definition PWOSPF_NEIGHBOR_TIMEOUT : Z := 5.
Definition PWOSPF_LSUINT : Z := 30.
Definition INITIAL_ARP_TIMEOUT : Z := 300.

(** The state [init] leaves: everything zero except the parameters. *)
Definition init_state (netfpga : bool) : router_state :=
  mk_router_state 0 PWOSPF_AREA_ID PWOSPF_NEIGHBOR_TIMEOUT PWOSPF_LSUINT 1 0 netfpga
    INITIAL_ARP_TIMEOUT 120 [] [] [] [] [] [] [] [] [].

(** The reset of the router, then zeros in its tables. *)
Definition init_hardware : M unit :=
  writeReg CPCI_CTRL 65792;;
  write_arp_cache_to_hw;;
  write_rtable_to_hw.

(** [init], once the device is open: its locks and threads are not part of the
    state. [srand] seeds what the environment answers. *)
Definition init `{Strcmp} (netfpga : bool) : M unit :=
  _ ← time;
  put_rs (init_state netfpga);;
  if netfpga then
    init_hardware;;
    _ ← add_local_ip_filter (default 0 (inet_pton "224.0.0.5")) "pwospf";
    mret tt
  else mret tt.

(** [struct sr_vns_if] *)
Record sr_vns_if := mk_sr_vns_if {
  vif_name : string; vif_addr : bytes; vif_ip : Z; vif_mask : Z; vif_speed : Z
}.

Definition init_add_interface `{Strcmp} (vns_if : sr_vns_if) : M unit :=
  if strstr (vif_name vns_if) "cpu" then mret tt
  else
    let ie := mk_iface_entry (strncpy (vif_name vns_if) IF_LEN) (vif_addr vns_if) (vif_ip vns_if)
                (vif_mask vns_if) (vif_speed vns_if) true 0 [] 0 in
    (if strncmp_eq (if_name ie) "eth0" IF_LEN then modify_rs (set_router_id (if_ip ie))
     else mret tt);;
    modify_rs (fun rs => set_if_list (if_list rs ++ [ie]) rs);;
    rs ← get_rs;
    (if is_netfpga rs then
       mac_hi ← mem (mac_hi_word (vif_addr vns_if));
       mac_lo ← mem (mac_lo_word (vif_addr vns_if));
       port ← getPortNumber (vif_name vns_if);
       if (0 <=? port) && (port <=? 3) then
         writeReg (MAC_HI port) mac_hi;; writeReg (MAC_LO port) mac_lo
       else mret tt
     else mret tt);;
    _ ← add_local_ip_filter (vif_ip vns_if) (vif_name vns_if);
    mret tt.

Definition sr_integ_add_interface `{Strcmp} (vns_if : sr_vns_if) : M unit :=
  init_add_interface vns_if.

(** What our router advertises: one interface per subnet it is on. *)
Definition init_router_list : M unit :=
  rs ← get_rs;
  addr ← fresh_addr;
  now ← time;
  assert_ (match pwospf_router_list rs with [] => true | _ => false end);;
  let interfaces := map (fun ie => mk_pwospf_interface (Z.land (if_ip ie) (if_mask ie)) (if_mask ie)
                                     0 false) (if_list rs) in
  modify_rs (set_pwospf_router_list
    [mk_pwospf_router addr (router_id rs) (area_id rs) 0 now 0 false interfaces None]).

(** A line of the routing table file. An argument [sscanf] did not find is a
    null pointer; an address that does not parse leaves the field zero. *)
Definition rtable_line (buf : string) : option rtable_entry :=
  match sscanf buf "%as %as %as %as" with
  | [AStr ip; AStr gw; AStr mask; AStr iface] =>
      Some (mk_rtable_entry (default 0 (inet_pton ip)) (default 0 (inet_pton gw))
              (default 0 (inet_pton mask)) (strncpy iface IF_LEN) true true)
  | _ => None
  end.

Fixpoint read_rtable (lines : list string) : M unit :=
  match lines with
  | [] => mret tt
  | buf :: lines' =>
      entry ← deref (rtable_line buf);
      modify_rs (fun rs => set_rtable (rtable rs ++ [entry]) rs);;
      read_rtable lines'
  end.

(** [lines] are the lines of the file. The table is neither sorted nor written
    to the device here: the Dijkstra thread does it. *)
Definition init_rtable (lines : list string) : M unit :=
  lock_rtable_wr;;
  read_rtable lines;;
  rs ← get_rs;
  let default_route := default_route_present rs in
  unlock_rtable;;
  (match default_route with
   | Some pi =>
       lock_mutex_pwospf_router_list;;
       rs ← get_rs;
       k ← deref (get_router_by_rid (router_id rs) (pwospf_router_list rs));
       modify_router k (fun r => set_pr_interface_list (pr_interface_list r ++ [pi]) r);;
       unlock_mutex_pwospf_router_list
   | None => mret tt
   end);;
  dijkstra_trigger.

(** [sr_integ_hw_setup], without the registration of the CLI commands. *)
Definition sr_integ_hw_setup (lines : list string) : M unit :=
  init_router_list;;
  init_rtable lines.
