(* ===== verification/Card.v ===== *)
(** The Linux driver of the NetFPGA card (lib/C/kernel): the registers of
    common/nf2.h, the state of nf2kernel.h, the monad the driver's functions
    are written in, and the resets of nf2util.c and nf2util.h.

    The kernel's services are events of the trace (register writes, DMA
    mappings, freed socket buffers, delivered packets, interrupt requests, lock
    operations) or answers of the environment (register reads, the result of a
    call that can fail). *)

From S2P Require Import Prelude Words Bytes.
Local Open Scope Z_scope.

(** ** Registers and masks of nf2.h *)

Definition CPCI_REG_RESET : Z := 12.               (* 0x00c *)
Definition CPCI_REG_ERROR : Z := 16.               (* 0x010 *)
Definition CPCI_REG_INTERRUPT_MASK : Z := 64.      (* 0x040 *)
Definition CPCI_REG_INTERRUPT_STATUS : Z := 68.    (* 0x044 *)
Definition CPCI_REG_PROG_STATUS : Z := 260.        (* 0x104 *)
Definition CPCI_REG_DMA_I_ADDR : Z := 320.         (* 0x140 *)
Definition CPCI_REG_DMA_E_ADDR : Z := 324.         (* 0x144 *)
Definition CPCI_REG_DMA_I_SIZE : Z := 328.         (* 0x148 *)
Definition CPCI_REG_DMA_E_SIZE : Z := 332.         (* 0x14c *)
Definition CPCI_REG_DMA_I_CTRL : Z := 336.         (* 0x150 *)
Definition CPCI_REG_DMA_E_CTRL : Z := 340.         (* 0x154 *)
Definition CPCI_REG_DMA_QUEUE_STATUS : Z := 344.   (* 0x158 *)
Definition CNET_REG_BASE : Z := 4194304.           (* 0x400000 *)
Definition CNET_REG_CTRL : Z := CNET_REG_BASE + 4.
Definition CNET_REG_RESET : Z := CNET_REG_BASE + 8.
Definition CNET_REG_ERROR : Z := CNET_REG_BASE + 12.
Definition CNET_REG_ENABLE : Z := CNET_REG_BASE + 16.
Definition MDIO_0_BASE : Z := 4456448.             (* 0x0440000 *)
Definition MDIO_0_PHY_ID_LO_REG : Z := 4456456.    (* 0x0440008 *)
Definition MDIO_0_PHY_ID_HI_REG : Z := 4456460.    (* 0x044000c *)
Definition MDIO_0_AUX_STATUS : Z := 4456548.       (* 0x0440064 *)
Definition MDIO_0_INTR_STATUS : Z := 4456552.      (* 0x0440068 *)
Definition ADDRESS_DELTA : Z := 128.               (* 0x80 *)

Definition CTRL_CNET_RESET : Z := 256.             (* 0x100 *)
Definition RESET_CPCI : Z := 1.
Definition CNET_RESET_MAC_3 : Z := 8.
Definition CNET_RESET_MAC_2 : Z := 4.
Definition CNET_RESET_MAC_1 : Z := 2.
Definition CNET_RESET_MAC_0 : Z := 1.
Definition CNET_ENABLE_RX_FIFO_0 : Z := 4096.      (* 0x1000 *)
Definition CNET_ENABLE_TX_MAC_0 : Z := 256.        (* 0x100 *)
Definition CNET_ENABLE_INGRESS_ARBITER : Z := 2.
Definition CNET_ENABLE_RX_DMA : Z := 1.
Definition DMA_CTRL_OWNER : Z := 1.
Definition INTR_LINK_STATUS_POS : Z := 2.
Definition AUX_LINK_STATUS_POS : Z := 4.

Definition INT_DMA_RX_COMPLETE : Z := 2147483648.  (* 0x80000000 *)
Definition INT_DMA_TX_COMPLETE : Z := 1073741824.  (* 0x40000000 *)
Definition INT_PHY_INTERRUPT : Z := 536870912.     (* 0x20000000 *)
Definition INT_DMA_QUEUE_STATUS_CHANGE : Z := 512. (* 0x200 *)
Definition INT_PKT_AVAIL : Z := 256.               (* 0x100 *)
Definition INT_CNET_ERROR : Z := 32.
Definition INT_DMA_TRANSFER_ERROR : Z := 4.
Definition INT_DMA_SETUP_ERROR : Z := 2.
Definition INT_DMA_FATAL_ERROR : Z := 1.

Definition NF2_SET_DMA_CTRL_MAC (x : Z) : Z := Z.shiftl x 8.

(** [~x] on 32 bits. *)
Definition not32 (x : Z) : Z := Z.lxor x 4294967295.

(** [x & m] as a condition. *)
Definition has (x m : Z) : bool := negb (Z.land x m =? 0).

(** ** State of nf2kernel.h *)

Definition MAX_IFACE : nat := 4.
Definition MAX_DMA_LEN : Z := 2048.

(** A socket buffer of the kernel: which one, and its data. *)
Record sk_buff := mk_skb { skb_id : nat; skb_data : bytes }.

Definition skb_len (skb : sk_buff) : Z := Z.of_nat (length (skb_data skb)).

(** [struct txbuff]; [buff] and [len] belong to user cards. *)
Record tx_slot := mk_tx_slot { tx_skb : option sk_buff; tx_iface : nat }.

Record net_device_stats := mk_stats {
  rx_packets : Z;
  rx_bytes : Z;
  rx_dropped : Z;
  tx_packets : Z;
  tx_bytes : Z;
  tx_errors : Z
}.

(** What the driver sets of a [net_device] and of its [nf2_iface_priv]. *)
Record net_device := mk_net_device {
  nd_carrier : bool;
  nd_stopped : bool;
  nd_addr : bytes;
  nd_stats : net_device_stats
}.

(** The buffer of the one packet that is received at a time. *)
Record nf2_packet := mk_nf2_packet { pkt_dev : option nat; pkt_len : Z; pkt_data : bytes }.

Record nf2_card_priv := mk_card {
  is_ctrl : bool;
  txbuff : list tx_slot;
  wr_txbuff : Z;
  rd_txbuff : Z;
  free_txbuffs : Z;
  free_txbuffs_port : list Z;
  dma_tx_addr : Z;
  dma_rx_addr : Z;
  dma_tx_in_progress : Z;
  dma_rx_in_progress : Z;
  dma_can_wr_pkt : Z;
  ndev : list net_device;
  ifup : Z;
  wr_pool : nf2_packet
}.

Definition set_is_ctrl (v : bool) (c : nf2_card_priv) : nf2_card_priv :=
  mk_card v (txbuff c) (wr_txbuff c) (rd_txbuff c) (free_txbuffs c) (free_txbuffs_port c)
    (dma_tx_addr c) (dma_rx_addr c) (dma_tx_in_progress c) (dma_rx_in_progress c)
    (dma_can_wr_pkt c) (ndev c) (ifup c) (wr_pool c).
Definition set_txbuff (v : list tx_slot) (c : nf2_card_priv) : nf2_card_priv :=
  mk_card (is_ctrl c) v (wr_txbuff c) (rd_txbuff c) (free_txbuffs c) (free_txbuffs_port c)
    (dma_tx_addr c) (dma_rx_addr c) (dma_tx_in_progress c) (dma_rx_in_progress c)
    (dma_can_wr_pkt c) (ndev c) (ifup c) (wr_pool c).
Definition set_wr_txbuff (v : Z) (c : nf2_card_priv) : nf2_card_priv :=
  mk_card (is_ctrl c) (txbuff c) v (rd_txbuff c) (free_txbuffs c) (free_txbuffs_port c)
    (dma_tx_addr c) (dma_rx_addr c) (dma_tx_in_progress c) (dma_rx_in_progress c)
    (dma_can_wr_pkt c) (ndev c) (ifup c) (wr_pool c).
Definition set_rd_txbuff (v : Z) (c : nf2_card_priv) : nf2_card_priv :=
  mk_card (is_ctrl c) (txbuff c) (wr_txbuff c) v (free_txbuffs c) (free_txbuffs_port c)
    (dma_tx_addr c) (dma_rx_addr c) (dma_tx_in_progress c) (dma_rx_in_progress c)
    (dma_can_wr_pkt c) (ndev c) (ifup c) (wr_pool c).
Definition set_free_txbuffs (v : Z) (c : nf2_card_priv) : nf2_card_priv :=
  mk_card (is_ctrl c) (txbuff c) (wr_txbuff c) (rd_txbuff c) v (free_txbuffs_port c)
    (dma_tx_addr c) (dma_rx_addr c) (dma_tx_in_progress c) (dma_rx_in_progress c)
    (dma_can_wr_pkt c) (ndev c) (ifup c) (wr_pool c).
Definition set_free_txbuffs_port (v : list Z) (c : nf2_card_priv) : nf2_card_priv :=
  mk_card (is_ctrl c) (txbuff c) (wr_txbuff c) (rd_txbuff c) (free_txbuffs c) v
    (dma_tx_addr c) (dma_rx_addr c) (dma_tx_in_progress c) (dma_rx_in_progress c)
    (dma_can_wr_pkt c) (ndev c) (ifup c) (wr_pool c).
Definition set_dma_tx_addr (v : Z) (c : nf2_card_priv) : nf2_card_priv :=
  mk_card (is_ctrl c) (txbuff c) (wr_txbuff c) (rd_txbuff c) (free_txbuffs c)
    (free_txbuffs_port c) v (dma_rx_addr c) (dma_tx_in_progress c) (dma_rx_in_progress c)
    (dma_can_wr_pkt c) (ndev c) (ifup c) (wr_pool c).
Definition set_dma_rx_addr (v : Z) (c : nf2_card_priv) : nf2_card_priv :=
  mk_card (is_ctrl c) (txbuff c) (wr_txbuff c) (rd_txbuff c) (free_txbuffs c)
    (free_txbuffs_port c) (dma_tx_addr c) v (dma_tx_in_progress c) (dma_rx_in_progress c)
    (dma_can_wr_pkt c) (ndev c) (ifup c) (wr_pool c).
Definition set_dma_tx_in_progress (v : Z) (c : nf2_card_priv) : nf2_card_priv :=
  mk_card (is_ctrl c) (txbuff c) (wr_txbuff c) (rd_txbuff c) (free_txbuffs c)
    (free_txbuffs_port c) (dma_tx_addr c) (dma_rx_addr c) v (dma_rx_in_progress c)
    (dma_can_wr_pkt c) (ndev c) (ifup c) (wr_pool c).
Definition set_dma_rx_in_progress (v : Z) (c : nf2_card_priv) : nf2_card_priv :=
  mk_card (is_ctrl c) (txbuff c) (wr_txbuff c) (rd_txbuff c) (free_txbuffs c)
    (free_txbuffs_port c) (dma_tx_addr c) (dma_rx_addr c) (dma_tx_in_progress c) v
    (dma_can_wr_pkt c) (ndev c) (ifup c) (wr_pool c).
Definition set_dma_can_wr_pkt (v : Z) (c : nf2_card_priv) : nf2_card_priv :=
  mk_card (is_ctrl c) (txbuff c) (wr_txbuff c) (rd_txbuff c) (free_txbuffs c)
    (free_txbuffs_port c) (dma_tx_addr c) (dma_rx_addr c) (dma_tx_in_progress c)
    (dma_rx_in_progress c) v (ndev c) (ifup c) (wr_pool c).
Definition set_ndev (v : list net_device) (c : nf2_card_priv) : nf2_card_priv :=
  mk_card (is_ctrl c) (txbuff c) (wr_txbuff c) (rd_txbuff c) (free_txbuffs c)
    (free_txbuffs_port c) (dma_tx_addr c) (dma_rx_addr c) (dma_tx_in_progress c)
    (dma_rx_in_progress c) (dma_can_wr_pkt c) v (ifup c) (wr_pool c).
Definition set_ifup (v : Z) (c : nf2_card_priv) : nf2_card_priv :=
  mk_card (is_ctrl c) (txbuff c) (wr_txbuff c) (rd_txbuff c) (free_txbuffs c)
    (free_txbuffs_port c) (dma_tx_addr c) (dma_rx_addr c) (dma_tx_in_progress c)
    (dma_rx_in_progress c) (dma_can_wr_pkt c) (ndev c) v (wr_pool c).
Definition set_wr_pool (v : nf2_packet) (c : nf2_card_priv) : nf2_card_priv :=
  mk_card (is_ctrl c) (txbuff c) (wr_txbuff c) (rd_txbuff c) (free_txbuffs c)
    (free_txbuffs_port c) (dma_tx_addr c) (dma_rx_addr c) (dma_tx_in_progress c)
    (dma_rx_in_progress c) (dma_can_wr_pkt c) (ndev c) (ifup c) v.

(** ** Effects *)

Inductive dma_direction := PCI_DMA_TODEVICE | PCI_DMA_FROMDEVICE.

Inductive kevent :=
  | KWrite (reg val : Z)            (* iowrite32 *)
  | KMap (dir : dma_direction) (addr len : Z)    (* pci_map_single *)
  | KUnmap (dir : dma_direction) (addr len : Z)  (* pci_unmap_single *)
  | KFree (skb : nat)               (* dev_kfree_skb *)
  | KRx (dev : nat) (data : bytes)  (* netif_rx *)
  | KRequestIrq | KFreeIrq
  | KDown | KUp                     (* state_lock *)
  | KSpinLock | KSpinUnlock.        (* txbuff_lock *)

(** The answers to the n-th question: a register, the result of [request_irq],
    whether [down_interruptible] was interrupted, a DMA address, whether
    [dev_alloc_skb], [skb_pad] and a copy from or to user memory fail, and what
    the card has written to the receive buffer. *)
Record kenv := mk_kenv {
  ke_reg : nat -> Z -> Z;
  ke_irq : nat -> Z;
  ke_interrupted : nat -> bool;
  ke_map : nat -> Z;
  ke_alloc_fails : nat -> bool;
  ke_pad_fails : nat -> bool;
  ke_copy_fails : nat -> bool;
  ke_rx_buffer : nat -> bytes;
  ke_resource_len : Z
}.

Record kworld := mk_kworld {
  kw_card : nf2_card_priv;
  kw_trace : list kevent;
  kw_tick : nat;
  kw_env : kenv
}.

(** [None] is an invalid memory access: the kernel would oops. *)
Definition K (A : Type) : Type := kworld -> option (A * kworld).

#[export] Instance K_ret : MRet K := fun A a w => Some (a, w).
#[export] Instance K_bind : MBind K := fun A B f m w =>
  match m w with Some (a, w') => f a w' | None => None end.

Definition kget : K nf2_card_priv := fun w => Some (kw_card w, w).

Definition kmod (f : nf2_card_priv -> nf2_card_priv) : K unit := fun w =>
  Some (tt, mk_kworld (f (kw_card w)) (kw_trace w) (kw_tick w) (kw_env w)).

Definition kemit (e : kevent) : K unit := fun w =>
  Some (tt, mk_kworld (kw_card w) (kw_trace w ++ [e]) (kw_tick w) (kw_env w)).

Definition kask {A} (f : kenv -> nat -> A) : K A := fun w =>
  Some (f (kw_env w) (kw_tick w), mk_kworld (kw_card w) (kw_trace w) (S (kw_tick w)) (kw_env w)).

Definition kdef {A} (o : option A) : K A := fun w =>
  match o with Some a => Some (a, w) | None => None end.

Definition kwhen (b : bool) (m : K unit) : K unit := if b then m else mret tt.

Definition iowrite32 (val reg : Z) : K unit := kemit (KWrite reg val).
Definition ioread32 (reg : Z) : K Z := kask (fun e n => ke_reg e n reg).

(** *** Devices of the card *)

Definition set_nd_carrier (v : bool) (d : net_device) : net_device :=
  mk_net_device v (nd_stopped d) (nd_addr d) (nd_stats d).
Definition set_nd_stopped (v : bool) (d : net_device) : net_device :=
  mk_net_device (nd_carrier d) v (nd_addr d) (nd_stats d).
Definition set_nd_addr (v : bytes) (d : net_device) : net_device :=
  mk_net_device (nd_carrier d) (nd_stopped d) v (nd_stats d).
Definition set_nd_stats (v : net_device_stats) (d : net_device) : net_device :=
  mk_net_device (nd_carrier d) (nd_stopped d) (nd_addr d) v.

Definition on_dev (f : net_device -> net_device) (i : nat) : K unit :=
  c ← kget;
  _ ← kdef (ndev c !! i);
  kmod (fun c => set_ndev (alter f i (ndev c)) c).

Definition netif_carrier_on (i : nat) : K unit := on_dev (set_nd_carrier true) i.
Definition netif_carrier_off (i : nat) : K unit := on_dev (set_nd_carrier false) i.
Definition netif_stop_queue (i : nat) : K unit := on_dev (set_nd_stopped true) i.
Definition netif_wake_queue (i : nat) : K unit := on_dev (set_nd_stopped false) i.

(** The counters are [unsigned long], 64 bits wide. *)
Definition ulong (x : Z) : Z := x mod 2 ^ 64.

Definition count_rx (len : Z) (s : net_device_stats) : net_device_stats :=
  mk_stats (ulong (rx_packets s + 1)) (ulong (rx_bytes s + len)) (rx_dropped s) (tx_packets s)
    (tx_bytes s) (tx_errors s).
Definition count_dropped (s : net_device_stats) : net_device_stats :=
  mk_stats (rx_packets s) (rx_bytes s) (ulong (rx_dropped s + 1)) (tx_packets s) (tx_bytes s)
    (tx_errors s).
Definition count_tx (len : Z) (s : net_device_stats) : net_device_stats :=
  mk_stats (rx_packets s) (rx_bytes s) (rx_dropped s) (ulong (tx_packets s + 1))
    (ulong (tx_bytes s + len)) (tx_errors s).
Definition count_tx_error (s : net_device_stats) : net_device_stats :=
  mk_stats (rx_packets s) (rx_bytes s) (rx_dropped s) (tx_packets s) (tx_bytes s)
    (ulong (tx_errors s + 1)).

Definition on_stats (f : net_device_stats -> net_device_stats) (i : nat) : K unit :=
  on_dev (fun d => set_nd_stats (f (nd_stats d)) d) i.

(** ** nf2util.h and nf2util.c *)

Definition nf2_write_flush : K unit := _ ← ioread32 0; mret tt.

Definition nf2_enable_irq : K unit := iowrite32 0 CPCI_REG_INTERRUPT_MASK;; nf2_write_flush.

Definition nf2_disable_irq : K unit :=
  iowrite32 4294967295 CPCI_REG_INTERRUPT_MASK;; nf2_write_flush.

Definition nf2_hw_reset : K unit :=
  iowrite32 RESET_CPCI CPCI_REG_RESET;;
  c ← kget;
  kwhen (is_ctrl c)
    (iowrite32 CTRL_CNET_RESET CNET_REG_CTRL;;
     iowrite32 (Z.lor (Z.lor (Z.lor CNET_RESET_MAC_3 CNET_RESET_MAC_2) CNET_RESET_MAC_1)
                  CNET_RESET_MAC_0) CNET_REG_RESET;;
     iowrite32 0 CNET_REG_ENABLE);;
  nf2_write_flush.

Definition nf2_reset_cpci : K unit :=
  intmask ← ioread32 CPCI_REG_INTERRUPT_MASK;
  iowrite32 RESET_CPCI CPCI_REG_RESET;;
  iowrite32 intmask CPCI_REG_INTERRUPT_MASK;;
  nf2_write_flush.
