(* ===== verification/CardDriver.v ===== *)
(** nf2_control.c: the network devices of a card. Packets to send wait in a
    ring of [tx_pool_size] buffers shared by the four ports; one DMA transfer
    runs in each direction, and the interrupt handler drives both. *)

From S2P Require Import Prelude Words Bytes Card.
Local Open Scope Z_scope.

Definition ERESTARTSYS : Z := 512.
Definition EFAULT : Z := 14.
Definition EBUSY : Z := 16.
Definition EADDRNOTAVAIL : Z := 99.
Definition EOPNOTSUPP : Z := 95.

Section Driver.

(** The module parameter of nf2main.c. *)
Context (tx_pool_size : Z).

(** ** The transmit ring *)

Definition next_txbuff (i : Z) : Z := (i + 1) mod tx_pool_size.

(** [card->txbuff[card->rd_txbuff]] and its [skb]. *)
Definition rd_slot (c : nf2_card_priv) : option tx_slot := txbuff c !! Z.to_nat (rd_txbuff c).
Definition rd_skb (c : nf2_card_priv) : option sk_buff := rd_slot c ≫= tx_skb.

Definition add_port_credit (i : nat) (d : Z) (c : nf2_card_priv) : nf2_card_priv :=
  set_free_txbuffs_port (alter (fun n => n + d) i (free_txbuffs_port c)) c.

Definition nf2c_send : K Z :=
  c ← kget;
  (* atomic_add_return *)
  kmod (set_dma_tx_in_progress (dma_tx_in_progress c + 1));;
  if negb (dma_tx_in_progress c + 1 =? 1) then
    kmod (set_dma_tx_in_progress (dma_tx_in_progress c));; mret 1
  else if free_txbuffs c =? tx_pool_size then
    kmod (set_dma_tx_in_progress (dma_tx_in_progress c));; mret 1
  else
    slot ← kdef (rd_slot c);
    if Z.land (dma_can_wr_pkt c) (Z.shiftl 1 (Z.of_nat (tx_iface slot))) =? 0 then
      kmod (set_dma_tx_in_progress (dma_tx_in_progress c));; mret 1
    else
      skb ← kdef (tx_skb slot);
      addr ← kask ke_map;
      kemit (KMap PCI_DMA_TODEVICE addr (skb_len skb));;
      kmod (set_dma_tx_addr addr);;
      iowrite32 addr CPCI_REG_DMA_E_ADDR;;
      dma_len ← (if skb_len skb <? 60 then
                   fails ← kask ke_pad_fails;
                   kwhen fails (kemit (KFree (skb_id skb)));;
                   mret 60
                 else mret (skb_len skb));
      iowrite32 dma_len CPCI_REG_DMA_E_SIZE;;
      iowrite32 (Z.lor (NF2_SET_DMA_CTRL_MAC (Z.of_nat (tx_iface slot))) DMA_CTRL_OWNER)
        CPCI_REG_DMA_E_CTRL;;
      mret 0.

(** The queueing of [nf2c_tx], once a buffer is free. *)
Definition enqueue_tx (skb : sk_buff) (i : nat) (c : nf2_card_priv) : nf2_card_priv :=
  add_port_credit i (-1)
    (set_free_txbuffs (free_txbuffs c - 1)
       (set_wr_txbuff (next_txbuff (wr_txbuff c))
          (set_txbuff (<[Z.to_nat (wr_txbuff c) := mk_tx_slot (Some skb) i]> (txbuff c)) c))).

Definition nf2c_tx (skb : sk_buff) (i : nat) : K Z :=
  kemit KSpinLock;;
  c ← kget;
  err ← (if free_txbuffs c =? 0 then mret 1
         else
           _ ← kdef (txbuff c !! Z.to_nat (wr_txbuff c));
           kmod (enqueue_tx skb i);;
           c ← kget;
           credit ← kdef (free_txbuffs_port c !! i);
           kwhen (credit =? 0) (netif_stop_queue i);;
           _ ← nf2c_send;
           mret 0);
  kemit KSpinUnlock;;
  mret err.

(** Frees the buffer at the front of the ring after its transfer, wakes the
    queue of its port when this gives it its first buffer, and ends the
    transfer. *)
Definition dequeue_tx (c : nf2_card_priv) : nf2_card_priv :=
  set_free_txbuffs (free_txbuffs c + 1) (set_rd_txbuff (next_txbuff (rd_txbuff c)) c).

Definition finish_tx (ifnum : nat) : K unit :=
  kmod (fun c => add_port_credit ifnum 1 (dequeue_tx c));;
  kmod (fun c => set_dma_tx_in_progress (dma_tx_in_progress c - 1) c);;
  c ← kget;
  credit ← kdef (free_txbuffs_port c !! ifnum);
  kwhen (credit =? 1) (netif_wake_queue ifnum).

Definition nf2c_clear_dma_flags : K unit :=
  c ← kget;
  kwhen (negb (dma_rx_in_progress c =? 0))
    (kemit (KUnmap PCI_DMA_FROMDEVICE (dma_rx_addr c) MAX_DMA_LEN);;
     kmod (set_dma_rx_in_progress (dma_rx_in_progress c - 1)));;
  kwhen (negb (dma_tx_in_progress c =? 0))
    (slot ← kdef (rd_slot c);
     skb ← kdef (tx_skb slot);
     kemit (KUnmap PCI_DMA_TODEVICE (dma_tx_addr c) (skb_len skb));;
     kemit KSpinLock;;
     kemit (KFree (skb_id skb));;
     finish_tx (tx_iface slot);;
     kemit KSpinUnlock).

(** [if (card->free_txbuffs != tx_pool_size) nf2c_send(netdev);] *)
Definition send_if_any : K unit :=
  c ← kget;
  if negb (free_txbuffs c =? tx_pool_size) then _ ← nf2c_send; mret tt else mret tt.

(** The loop of [nf2c_release] and [nf2c_remove] that empties the ring: a buffer
    is freed per round, so the number of buffers in use bounds the rounds. *)
Fixpoint free_tx_ring (fuel : nat) : K unit :=
  match fuel with
  | O => mret tt
  | S fuel' =>
      c ← kget;
      if free_txbuffs c <? tx_pool_size then
        skb ← kdef (rd_skb c);
        kemit (KFree (skb_id skb));;
        kmod dequeue_tx;;
        free_tx_ring fuel'
      else mret tt
  end.

(** ** Opening and closing an interface *)

Definition enable_mac (i : nat) : Z :=
  Z.lor (Z.lor (Z.shiftl (Z.lor CNET_ENABLE_RX_FIFO_0 CNET_ENABLE_TX_MAC_0) (Z.of_nat i))
           CNET_ENABLE_INGRESS_ARBITER) CNET_ENABLE_RX_DMA.

Definition nf2c_open (i : nat) : K Z :=
  interrupted ← kask ke_interrupted;
  if interrupted : bool then mret (- ERESTARTSYS)
  else
    kemit KDown;;
    netif_carrier_off i;;
    c ← kget;
    err ← (if ifup c =? 0 then
             nf2_hw_reset;;
             err ← kask (fun e n => ke_irq e n);
             if err =? 0 then kemit KRequestIrq;; nf2_enable_irq;; mret 0 else mret err
           else mret 0);
    if negb (err =? 0) then kemit KUp;; mret err
    else
      kmod (fun c => set_ifup (Z.lor (ifup c) (Z.shiftl 1 (Z.of_nat i))) c);;
      iowrite32 (Z.shiftl CNET_RESET_MAC_0 (Z.of_nat i)) CNET_REG_RESET;;
      enable ← ioread32 CNET_REG_ENABLE;
      iowrite32 (Z.lor enable (enable_mac i)) CNET_REG_ENABLE;;
      netif_wake_queue i;;
      kemit KUp;;
      mret 0.

(** The last interface went down: the interrupt and the queued packets go. *)
Definition shut_down : K unit :=
  kemit KFreeIrq;;
  nf2_hw_reset;;
  c ← kget;
  kwhen (negb (free_txbuffs c =? tx_pool_size))
    (kwhen (negb (dma_tx_in_progress c =? 0))
       (skb ← kdef (rd_skb c);
        kemit (KUnmap PCI_DMA_TODEVICE (dma_tx_addr c) (skb_len skb)));;
     free_tx_ring (Z.to_nat (tx_pool_size - free_txbuffs c)));;
  kmod (set_dma_tx_in_progress 0);;
  kmod (set_dma_rx_in_progress 0).

Definition nf2c_release (i : nat) : K Z :=
  interrupted ← kask ke_interrupted;
  if interrupted : bool then mret (- ERESTARTSYS)
  else
    kemit KDown;;
    netif_carrier_off i;;
    netif_stop_queue i;;
    enable ← ioread32 CNET_REG_ENABLE;
    iowrite32 (Z.land enable (not32 (Z.shiftl (Z.lor CNET_ENABLE_RX_FIFO_0 CNET_ENABLE_TX_MAC_0)
                                       (Z.of_nat i)))) CNET_REG_ENABLE;;
    iowrite32 (Z.shiftl CNET_RESET_MAC_0 (Z.of_nat i)) CNET_REG_RESET;;
    kmod (fun c => set_ifup (Z.land (ifup c) (not32 (Z.shiftl 1 (Z.of_nat i)))) c);;
    c ← kget;
    kwhen (ifup c =? 0) shut_down;;
    kemit KUp;;
    mret 0.

(** [up] is [dev->flags & IFF_UP]. *)
Definition nf2c_config (up : bool) (map_addr dev_addr map_irq dev_irq : Z) : Z :=
  if up then - EBUSY
  else if negb (map_addr =? dev_addr) then - EOPNOTSUPP
  else if negb (map_irq =? dev_irq) then - EOPNOTSUPP
  else 0.

(** ** Receiving *)

(** A 32-bit register value stored in an [int]. *)
Definition s32 (x : Z) : Z := if x <? 2 ^ 31 then x else x - 2 ^ 32.

(** [memcpy(skb_put(skb, pkt->len), pkt->data, pkt->len)]: reading past the
    receive buffer is an invalid access. *)
Definition pkt_payload (pkt : nf2_packet) : option bytes :=
  if (0 <=? pkt_len pkt) && (pkt_len pkt <=? Z.of_nat (length (pkt_data pkt)))
  then Some (take (Z.to_nat (pkt_len pkt)) (pkt_data pkt)) else None.

Definition nf2c_rx (i : nat) (pkt : nf2_packet) : K unit :=
  fails ← kask ke_alloc_fails;
  if fails : bool then on_stats count_dropped i
  else
    data ← kdef (pkt_payload pkt);
    on_stats (count_rx (pkt_len pkt)) i;;
    kemit (KRx i data).

(** ** Registers from user space *)

(** [struct nf2reg] *)
Record nf2reg := mk_nf2reg { reg : Z; val : Z }.

(** The result, and the value read. The callers pass the address of a word, and
    [ioaddr] is set as long as there are devices. *)
Definition nf2k_reg_read (addr : Z) : K (Z * option Z) :=
  len ← kask (fun e _ => ke_resource_len e);
  if len <=? addr then mret (1, None)
  else v ← ioread32 addr; mret (0, Some v).

Definition nf2k_reg_write (addr data : Z) : K Z :=
  len ← kask (fun e _ => ke_resource_len e);
  if len <=? addr then mret 1
  else iowrite32 data addr;; mret 0.

Inductive ioctl_cmd := SIOCREGREAD | SIOCREGWRITE | SIOCGMIIPHY | SIOCGMIIREG | SIOC_OTHER.

(** The result, and what the call leaves in the memory of the user: the
    register structure, or the [phy_id] or [val_out] of the MII structure. *)
Definition nf2c_ioctl (i : nat) (cmd : ioctl_cmd) (rq : nf2reg) (reg_num : Z) : K (Z * option Z) :=
  match cmd with
  | SIOCREGREAD =>
      fails ← kask ke_copy_fails;
      if fails : bool then mret (- EFAULT, None)
      else
        r ← nf2k_reg_read (reg rq);
        fails ← kask ke_copy_fails;
        if fails : bool then mret (- EFAULT, None)
        else mret (0, Some (default (val rq) r.2))
  | SIOCREGWRITE =>
      fails ← kask ke_copy_fails;
      if fails : bool then mret (- EFAULT, None)
      else _ ← nf2k_reg_write (reg rq) (val rq); mret (0, None)
  | SIOCGMIIPHY =>
      lo ← ioread32 (MDIO_0_PHY_ID_LO_REG + ADDRESS_DELTA * Z.of_nat i);
      hi ← ioread32 (MDIO_0_PHY_ID_HI_REG + ADDRESS_DELTA * Z.of_nat i);
      (* phy_id of mii_ioctl_data has 16 bits *)
      mret (0, Some (u16 (Z.lor (u32 (Z.shiftl hi 16)) lo)))
  | SIOCGMIIREG =>
      v ← ioread32 (MDIO_0_BASE + ADDRESS_DELTA * Z.of_nat i + reg_num);
      mret (0, Some (u16 v))
  | SIOC_OTHER => mret (- EOPNOTSUPP, None)
  end.

Definition nf2c_stats (i : nat) : K net_device_stats :=
  c ← kget; d ← kdef (ndev c !! i); mret (nd_stats d).

(** [valid] is [is_valid_ether_addr] of the kernel. *)
Definition nf2c_set_mac_address (valid : bytes -> bool) (i : nat) (addr : bytes) : K Z :=
  if negb (valid addr) then mret (- EADDRNOTAVAIL)
  else on_dev (set_nd_addr addr) i;; mret 0.

(** ** Timeout and interrupts *)

Definition nf2c_tx_timeout (i : nat) : K unit :=
  on_stats count_tx_error i;;
  enable ← ioread32 CNET_REG_ENABLE;
  intmask ← ioread32 CPCI_REG_INTERRUPT_MASK;
  nf2_hw_reset;;
  iowrite32 enable CNET_REG_ENABLE;;
  iowrite32 intmask CPCI_REG_INTERRUPT_MASK;;
  nf2c_clear_dma_flags;;
  send_if_any;;
  netif_wake_queue i.

Definition nf2c_check_link_status (i : nat) : K unit :=
  phy_aux_status ← ioread32 (MDIO_0_AUX_STATUS + ADDRESS_DELTA * Z.of_nat i);
  if has phy_aux_status AUX_LINK_STATUS_POS then netif_carrier_on i else netif_carrier_off i.

(** The parts of [nf2c_intr], one per interrupt. *)
Definition intr_queue_status : K unit :=
  v ← ioread32 CPCI_REG_DMA_QUEUE_STATUS;
  kmod (set_dma_can_wr_pkt (Z.land v 65535));;
  kmod (fun c => set_dma_rx_in_progress (dma_rx_in_progress c + 1) c);;
  c ← kget;
  kwhen (dma_rx_in_progress c =? 1) send_if_any;;
  kmod (fun c => set_dma_rx_in_progress (dma_rx_in_progress c - 1) c).

Definition intr_rx_complete : K unit :=
  c ← kget;
  kemit (KUnmap PCI_DMA_FROMDEVICE (dma_rx_addr c) MAX_DMA_LEN);;
  len ← ioread32 CPCI_REG_DMA_I_SIZE;
  ctrl ← ioread32 CPCI_REG_DMA_I_CTRL;
  data ← kask ke_rx_buffer;
  let dev := Z.to_nat (Z.shiftr (Z.land ctrl 768) 8) in
  let pkt := mk_nf2_packet (Some dev) (s32 len) data in
  kmod (set_wr_pool pkt);;
  kmod (fun c => set_dma_rx_in_progress (dma_rx_in_progress c - 1) c);;
  nf2c_rx dev pkt.

Definition intr_tx_complete : K unit :=
  c ← kget;
  if dma_tx_in_progress c =? 0 then mret tt
  else
    slot ← kdef (rd_slot c);
    skb ← kdef (tx_skb slot);
    kemit (KUnmap PCI_DMA_TODEVICE (dma_tx_addr c) (skb_len skb));;
    on_stats (count_tx (skb_len skb)) (tx_iface slot);;
    kemit (KFree (skb_id skb));;
    kemit KSpinLock;;
    finish_tx (tx_iface slot);;
    kemit KSpinUnlock;;
    send_if_any.

Fixpoint intr_phy (n i : nat) : K unit :=
  match n with
  | O => mret tt
  | S n' =>
      s ← ioread32 (MDIO_0_INTR_STATUS + ADDRESS_DELTA * Z.of_nat i);
      kwhen (has s INTR_LINK_STATUS_POS) (nf2c_check_link_status i);;
      intr_phy n' (S i)
  end.

Definition intr_pkt_avail : K unit :=
  kmod (fun c => set_dma_rx_in_progress (dma_rx_in_progress c + 1) c);;
  c ← kget;
  if dma_rx_in_progress c =? 1 then
    addr ← kask ke_map;
    kemit (KMap PCI_DMA_FROMDEVICE addr MAX_DMA_LEN);;
    kmod (set_dma_rx_addr addr);;
    iowrite32 addr CPCI_REG_DMA_I_ADDR;;
    iowrite32 DMA_CTRL_OWNER CPCI_REG_DMA_I_CTRL
  else kmod (set_dma_rx_in_progress (dma_rx_in_progress c - 1)).

(** After an error the DMA engine is reset and the next packet is tried;
    [regs] are the registers read for the report. *)
Fixpoint read_all (regs : list Z) : K unit :=
  match regs with [] => mret tt | r :: regs' => _ ← ioread32 r; read_all regs' end.

Definition intr_dma_error (regs : list Z) : K unit :=
  read_all regs;;
  nf2_reset_cpci;;
  nf2c_clear_dma_flags;;
  send_if_any.

(** The interrupt mask that is written back at the end. *)
Definition intr_mask (status int_mask : Z) : Z :=
  let m := if has status INT_DMA_RX_COMPLETE then Z.land int_mask (not32 INT_PKT_AVAIL)
           else int_mask in
  let m := if has status INT_PKT_AVAIL then Z.lor m INT_PKT_AVAIL else m in
  if has status INT_CNET_ERROR then Z.lor m INT_CNET_ERROR else m.

(** [true] is [IRQ_HANDLED]. *)
Definition nf2c_intr : K bool :=
  int_mask ← ioread32 CPCI_REG_INTERRUPT_MASK;
  nf2_disable_irq;;
  s ← ioread32 CPCI_REG_INTERRUPT_STATUS;
  let status := Z.land s (not32 (Z.land int_mask (not32 INT_PKT_AVAIL))) in
  kwhen (has status INT_DMA_QUEUE_STATUS_CHANGE) intr_queue_status;;
  kwhen (has status INT_DMA_RX_COMPLETE) intr_rx_complete;;
  kwhen (has status INT_DMA_TX_COMPLETE) intr_tx_complete;;
  kwhen (has status INT_PHY_INTERRUPT) (intr_phy MAX_IFACE 0);;
  kwhen (has status INT_PKT_AVAIL) intr_pkt_avail;;
  kwhen (has status INT_CNET_ERROR) (read_all [CNET_REG_ERROR]);;
  kwhen (has status INT_DMA_TRANSFER_ERROR)
    (intr_dma_error [CPCI_REG_ERROR; CPCI_REG_PROG_STATUS]);;
  kwhen (has status INT_DMA_SETUP_ERROR) (intr_dma_error [CPCI_REG_ERROR]);;
  kwhen (has status INT_DMA_FATAL_ERROR) (intr_dma_error [CPCI_REG_ERROR]);;
  iowrite32 (intr_mask status int_mask) CPCI_REG_INTERRUPT_MASK;;
  mret (negb (status =? 0)).

End Driver.
