(* ===== verification/CardProbe.v ===== *)
(** nf2main.c, and the probe and removal of nf2_control.c: what the driver
    acquires when a card appears, in which order it gives it back when a step
    fails or the card goes, and the state it starts in. *)

From S2P Require Import Prelude Words Bytes Card CardDriver.
Local Open Scope Z_scope.

Definition ENODEV : Z := 19.
Definition ENOMEM : Z := 12.

(** ** Module parameters *)

(** [HZ], the ticks of the kernel in a second, is a constant of its configuration. *)
Definition NF2_TIMEOUT (HZ : Z) : Z := 2 * HZ.
Definition NUM_TX_BUFFS : Z := 16.
Definition NUM_RX_BUFFS : Z := 8.
Definition NF2_MAJOR : Z := 0.

Record module_params := mk_params {
  p_timeout : Z;
  p_rx_pool_size : Z;
  p_tx_pool_size : Z;
  p_nf2_major : Z;
  p_nf2_minor : Z
}.

Definition nf2_validate_params (HZ : Z) (p : module_params) : module_params :=
  let p := if p_timeout p <=? 0 then
             mk_params (NF2_TIMEOUT HZ) (p_rx_pool_size p) (p_tx_pool_size p) (p_nf2_major p) (p_nf2_minor p)
           else p in
  let p := if p_rx_pool_size p <=? 0 then
             mk_params (p_timeout p) NUM_RX_BUFFS (p_tx_pool_size p) (p_nf2_major p) (p_nf2_minor p)
           else p in
  let p := if p_tx_pool_size p <=? 0 then
             mk_params (p_timeout p) (p_rx_pool_size p) NUM_TX_BUFFS (p_nf2_major p) (p_nf2_minor p)
           else p in
  let p := if p_nf2_major p <? 0 then
             mk_params (p_timeout p) NF2_MAJOR (p_tx_pool_size p) (p_nf2_major p) (p_nf2_minor p)
           else p in
  if p_nf2_minor p <? 0 then
    mk_params (p_timeout p) 0 (p_tx_pool_size p) (p_nf2_major p) (p_nf2_minor p)
  else p.

(** ** Resources *)

Inductive resource :=
  | PciDevice                (* pci_enable_device *)
  | MemRegion                (* request_mem_region *)
  | CardPriv                 (* the nf2_card_priv *)
  | Drvdata                  (* pci_set_drvdata *)
  | IoMap                    (* ioremap *)
  | RxPool                   (* nf2c_create_pool *)
  | TxBuffs                  (* card->txbuff *)
  | Netdev (i : nat)         (* alloc_netdev *)
  | Registered (i : nat).    (* register_netdev *)

#[export] Instance resource_eq_dec : EqDecision resource.
Proof. solve_decision. Defined.

Inductive res_event := Acquire (r : resource) | Release (r : resource).

(** The results of the kernel's calls while the card is probed. *)
Record probe_env := mk_probe_env {
  pe_enable : Z;
  pe_revision : Z;
  pe_dma_mask : Z;
  pe_region : bool;
  pe_card : bool;
  pe_ioremap : bool;
  pe_pool : bool;
  pe_txbuff : bool;
  pe_netdev : nat -> bool;
  pe_register : nat -> Z
}.

(** A step of a probe function: its result and the resources it touched. *)
Definition probe_result : Type := Z * list res_event.

Definition nf2c_create_pool (pe : probe_env) : probe_result :=
  if pe_pool pe then (0, [Acquire RxPool]) else (- ENOMEM, []).

Definition nf2c_destroy_pool : list res_event := [Release RxPool].

(** The loop over the [n] interfaces from [i] on: whether all devices could be
    allocated, and the ones that were. *)
Fixpoint alloc_netdevs (pe : probe_env) (n i : nat) : bool * list nat :=
  match n with
  | O => (true, [])
  | S n' =>
      if pe_netdev pe i then let r := alloc_netdevs pe n' (S i) in (r.1, i :: r.2)
      else (false, [])
  end.

Definition nf2c_probe (pe : probe_env) : probe_result :=
  let '(err, ev) := nf2c_create_pool pe in
  if negb (err =? 0) then (err, ev)
  else if negb (pe_txbuff pe) then (- ENOMEM, ev ++ nf2c_destroy_pool)
  else
    let '(ok, devs) := alloc_netdevs pe MAX_IFACE 0 in
    let ev := ev ++ [Acquire TxBuffs] ++ map (fun i => Acquire (Netdev i)) devs in
    if ok : bool then
      (0, ev ++ map (fun i => Acquire (Registered i))
                 (bfilter (fun i => pe_register pe i =? 0) (seq 0 MAX_IFACE)))
    else
      (- ENOMEM, ev ++ map (fun i => Release (Netdev i)) devs ++ [Release TxBuffs]
                 ++ nf2c_destroy_pool).

Definition nf2_probe (pe : probe_env) : probe_result :=
  if negb (pe_enable pe =? 0) then (- ENODEV, [Release PciDevice])
  else
    let ev := [Acquire PciDevice] in
    if negb (pe_revision pe =? 0) then (- ENODEV, ev)
    else if negb (pe_dma_mask pe =? 0) then (- ENODEV, ev ++ [Release PciDevice])
    else if negb (pe_region pe) then (- ENODEV, ev ++ [Release PciDevice])
    else
      let ev := ev ++ [Acquire MemRegion] in
      let err_out_free_mem_region := [Release MemRegion; Release PciDevice] in
      if negb (pe_card pe) then (- ENOMEM, ev ++ err_out_free_mem_region)
      else
        let ev := ev ++ [Acquire CardPriv; Acquire Drvdata] in
        let err_out_free_card := [Release Drvdata; Release CardPriv] ++ err_out_free_mem_region in
        if negb (pe_ioremap pe) then (- ENODEV, ev ++ err_out_free_card)
        else
          let '(ret, ev') := nf2c_probe pe in
          let ev := ev ++ [Acquire IoMap] ++ ev' in
          if ret <? 0 then (ret, ev ++ [Release IoMap] ++ err_out_free_card) else (ret, ev).

(** What [nf2c_remove] gives back, and what [nf2_remove] gives back of a card
    whose probe succeeded. *)
Definition nf2c_remove_events : list res_event :=
  concat (map (fun i => [Release (Registered i); Release (Netdev i)]) (seq 0 MAX_IFACE))
  ++ [Release TxBuffs] ++ nf2c_destroy_pool.

Definition nf2_remove_events : list res_event :=
  nf2c_remove_events ++
  [Release IoMap; Release CardPriv; Release Drvdata; Release MemRegion; Release PciDevice].

(** The packets that still wait are freed before the ring that holds them. *)
Definition nf2c_remove (tx_pool_size : Z) : K (list res_event) :=
  c ← kget;
  kwhen (negb (free_txbuffs c =? tx_pool_size))
    (free_tx_ring tx_pool_size (Z.to_nat (tx_pool_size - free_txbuffs c)));;
  mret nf2c_remove_events.

Definition nf2_remove (tx_pool_size : Z) : K (list res_event) :=
  _ ← nf2c_remove tx_pool_size;
  mret nf2_remove_events.

(** ** The state after the probe *)

Definition init_device (devnum i : nat) : net_device :=
  mk_net_device true false [0; 78; 70; 50; 67; u8 (Z.of_nat (devnum + i))]
    (mk_stats 0 0 0 0 0 0).

(** [memset] of the card to 0, then the initialisations of [nf2c_probe]; the
    slots and the receive buffer come from [kmalloc] and hold nothing yet. *)
Definition probed_card (tx_pool_size : Z) (devnum : nat) : nf2_card_priv :=
  mk_card true (replicate (Z.to_nat tx_pool_size) (mk_tx_slot None 0)) 0 0 tx_pool_size
    (replicate MAX_IFACE (Z.quot tx_pool_size (Z.of_nat MAX_IFACE))) 0 0 0 0 0
    (map (init_device devnum) (seq 0 MAX_IFACE)) 0
    (mk_nf2_packet None 0 (replicate (Z.to_nat (MAX_DMA_LEN + 2)) 0)).

(** ** Theorems *)

(** Replays the events from the resources held; releasing what is not held has
    no outcome. *)
Definition res_step (held : list resource) (e : res_event) : option (list resource) :=
  match e with
  | Acquire r => Some (held ++ [r])
  | Release r => if decide (r ∈ held) then Some (list_difference held [r]) else None
  end.

Fixpoint run_res (held : list resource) (t : list res_event) : option (list resource) :=
  match t with
  | [] => Some held
  | e :: t' => res_step held e ≫= fun h => run_res h t'
  end.

(** What a card holds when the devices of [registered] could be registered, and
    when all could. *)
Definition resources_with (registered : list nat) : list resource :=
  [PciDevice; MemRegion; CardPriv; Drvdata; IoMap; RxPool; TxBuffs]
  ++ map Netdev (seq 0 MAX_IFACE) ++ map Registered registered.

Definition card_resources : list resource := resources_with (seq 0 MAX_IFACE).

(** C20: What a probe keeps, whichever of the kernel's calls fail. A device that
    cannot be enabled is disabled all the same, and one of unknown revision is
    left enabled; every other probe that fails gives back, once each and in a
    valid order, all it had acquired. One that succeeds holds everything but the
    registrations that failed, which it does not report; removing the card gives
    everything back if none failed, and otherwise withdraws a registration that
    does not exist. *)
Theorem nf2_probe_correct pe :
  let '(ret, ev) := nf2_probe pe in
  if negb (pe_enable pe =? 0) then ret = - ENODEV /\ ev = [Release PciDevice]
  else if negb (pe_revision pe =? 0) then ret = - ENODEV /\ run_res [] ev = Some [PciDevice]
  else
    let registers i := pe_register pe i =? 0 in
    (ret < 0 /\ run_res [] ev = Some []) \/
    (ret = 0 /\ run_res [] ev = Some (resources_with (bfilter registers (seq 0 MAX_IFACE))) /\
     run_res [] (ev ++ nf2_remove_events) =
       if forallb registers (seq 0 MAX_IFACE) then Some [] else None).
Proof.
  unfold nf2_probe, nf2c_probe, nf2c_create_pool, resources_with.
  destruct (pe_enable pe =? 0); simpl; [|done].
  destruct (pe_revision pe =? 0); simpl; [|done].
  destruct (negb (pe_dma_mask pe =? 0)); [left; by split|].
  destruct (pe_region pe); simpl; [|left; by split].
  destruct (pe_card pe); simpl; [|left; by split].
  destruct (pe_ioremap pe); simpl; [|left; by split].
  destruct (pe_pool pe); simpl; [|left; by split].
  destruct (pe_txbuff pe); simpl; [|left; by split].
  destruct (pe_netdev pe 0); simpl; [|left; by split].
  destruct (pe_netdev pe 1); simpl; [|left; by split].
  destruct (pe_netdev pe 2); simpl; [|left; by split].
  destruct (pe_netdev pe 3); simpl; [|left; by split].
  right. destruct (pe_register pe 0 =? 0), (pe_register pe 1 =? 0), (pe_register pe 2 =? 0),
    (pe_register pe 3 =? 0); by split_and!.
Qed.

(** An unknown revision leaves the device enabled, and a device that cannot
    be enabled is disabled all the same. *)
Theorem nf2_probe_early_exits pe :
  (pe_enable pe = 0 -> pe_revision pe ≠ 0 ->
     (nf2_probe pe).1 = - ENODEV /\ run_res [] (nf2_probe pe).2 = Some [PciDevice]) /\
  (pe_enable pe ≠ 0 -> run_res [] (nf2_probe pe).2 = None).
Proof.
  unfold nf2_probe. split.
  - intros -> Hr. apply Z.eqb_neq in Hr. by rewrite Hr.
  - intros He. apply Z.eqb_neq in He. by rewrite He.
Qed.

(** The pool of transmit buffers and the timeout are always positive after
    the parameters were validated; the size of the receive pool is when the
    device numbers are not negative, and is 0 for a negative minor number. *)
Theorem nf2_validate_params_correct HZ p :
  0 < HZ ->
  let p' := nf2_validate_params HZ p in
  0 < p_timeout p' /\ 0 < p_tx_pool_size p' /\
  (0 <= p_nf2_major p -> 0 <= p_nf2_minor p -> 0 < p_rx_pool_size p') /\
  (p_nf2_minor p < 0 -> p_rx_pool_size p' = 0 /\ p_nf2_minor p' = p_nf2_minor p).
Proof.
  intros HHz. unfold nf2_validate_params, NF2_TIMEOUT, NUM_RX_BUFFS, NUM_TX_BUFFS, NF2_MAJOR.
  destruct p as [t r x ma mi]. cbn [p_timeout p_rx_pool_size p_tx_pool_size p_nf2_major p_nf2_minor].
  destruct (Z.leb_spec t 0); simpl; destruct (Z.leb_spec r 0); simpl;
    destruct (Z.leb_spec x 0); simpl; destruct (Z.ltb_spec ma 0); simpl;
    destruct (Z.ltb_spec mi 0); simpl; lia.
Qed.
