(* ===== verification/CardQueue.v ===== *)
(** What the driver of the card promises: its transmit ring is a FIFO queue,
    every packet it accepts is freed once and in order, one transfer to the
    card runs at a time and its DMA mapping is undone with the address and
    length it was made with, and the credits of the ports add up. *)

From S2P Require Import Prelude Words Bytes Card CardDriver CardProbe.
Local Open Scope Z_scope.

(** ** Weakest preconditions *)

Definition kwp {A} (m : K A) (Q : A -> kworld -> Prop) (w : kworld) : Prop :=
  match m w with Some (a, w') => Q a w' | None => False end.

Lemma kwp_bind {A B} (m : K A) (f : A -> K B) Q w :
  kwp m (fun a w' => kwp (f a) Q w') w -> kwp (m ≫= f) Q w.
Proof. unfold kwp, mbind, K_bind. by destruct (m w) as [[a w']|]. Qed.

Lemma kwp_mono {A} (m : K A) (P Q : A -> kworld -> Prop) w :
  kwp m P w -> (forall a w', P a w' -> Q a w') -> kwp m Q w.
Proof. unfold kwp. destruct (m w) as [[a w']|]; naive_solver. Qed.

Lemma kwp_inv {A} (m : K A) Q w : kwp m Q w -> exists a w', m w = Some (a, w') /\ Q a w'.
Proof. unfold kwp. destruct (m w) as [[a w']|]; naive_solver. Qed.

Lemma kwp_done {A} (m : K A) (Q : A -> kworld -> Prop) w a w' : m w = Some (a, w') -> Q a w' -> kwp m Q w.
Proof. unfold kwp. by intros ->. Qed.

Lemma kbind_done {A B} (m : K A) (f : A -> K B) w a w' :
  m w = Some (a, w') -> (m ≫= f) w = f a w'.
Proof. unfold mbind, K_bind. by intros ->. Qed.

Lemma kwp_when b (m : K unit) Q w :
  (b = true -> kwp m Q w) -> (b = false -> Q tt w) -> kwp (kwhen b m) Q w.
Proof. destruct b; simpl; [auto|]. intros _ H. by apply H. Qed.

(** ** The ring as a queue *)

Section Queue.
Context (size : Z).

Notation entry := (sk_buff * nat)%type.

(** The slots from [rd_txbuff] on hold the packets [q], oldest first. *)
Record ring_ok (c : nf2_card_priv) (q : list entry) : Prop := {
  rg_size : 0 < size;
  rg_length : Z.of_nat (length (txbuff c)) = size;
  rg_rd : 0 <= rd_txbuff c < size;
  rg_fits : Z.of_nat (length q) <= size;
  rg_free : free_txbuffs c = size - Z.of_nat (length q);
  rg_wr : wr_txbuff c = (rd_txbuff c + Z.of_nat (length q)) mod size;
  rg_slot : forall k x, q !! k = Some x ->
    txbuff c !! Z.to_nat ((rd_txbuff c + Z.of_nat k) mod size) = Some (mk_tx_slot (Some x.1) x.2);
  rg_iface : Forall (fun x => (x.2 < MAX_IFACE)%nat) q
}.

Lemma ring_head c x q : ring_ok c (x :: q) -> rd_slot c = Some (mk_tx_slot (Some x.1) x.2).
Proof.
  intros H. pose proof (rg_slot _ _ H 0 x eq_refl) as E. pose proof (rg_rd _ _ H).
  rewrite Z.add_0_r, Z.mod_small in E by done. done.
Qed.

Lemma mod_ne a k n : 0 < k < n -> (a + k) mod n <> a mod n.
Proof.
  intros Hk E. assert (k mod n = 0) as H.
  { replace k with ((a + k) - a) by lia. rewrite Zminus_mod, E, Z.sub_diag. apply Zmod_0_l. }
  rewrite Z.mod_small in H by lia. lia.
Qed.

Lemma ring_push c q skb i :
  ring_ok c q -> Z.of_nat (length q) < size -> (i < MAX_IFACE)%nat ->
  ring_ok (enqueue_tx size skb i c) (q ++ [(skb, i)]).
Proof.
  intros [H1 H2 H3 H4 H5 H6 H7 H8] Hlt Hi.
  assert (Hwr : 0 <= wr_txbuff c < size) by (rewrite H6; apply Z.mod_pos_bound; lia).
  split; cbn [enqueue_tx add_port_credit set_free_txbuffs_port set_free_txbuffs set_wr_txbuff
    set_txbuff txbuff rd_txbuff wr_txbuff free_txbuffs]; rewrite ?length_app, ?length_insert; simpl; try lia.
  - unfold next_txbuff. rewrite H6, Zplus_mod_idemp_l. f_equal. lia.
  - intros k x Hx. destruct (decide (k = length q)) as [->|Hne].
    + rewrite lookup_app_r, Nat.sub_diag in Hx by lia. injection Hx as <-.
      rewrite <- H6, list_lookup_insert_eq by lia. done.
    + assert (k < length q)%nat as Hk.
      { apply lookup_lt_Some in Hx. rewrite length_app in Hx. simpl in Hx. lia. }
      rewrite lookup_app_l in Hx by done.
      rewrite list_lookup_insert_ne; [by apply H7|].
      pose proof (Z.mod_pos_bound (rd_txbuff c + Z.of_nat k) size H1).
      intros E. apply Z2Nat.inj in E; [|lia..]. rewrite H6 in E.
      apply (mod_ne (rd_txbuff c + Z.of_nat k) (Z.of_nat (length q) - Z.of_nat k) size); [lia|].
      rewrite <- E. f_equal. lia.
  - apply Forall_app_2; [done|]. by apply Forall_singleton.
Qed.

Lemma ring_pop c x q : ring_ok c (x :: q) -> ring_ok (dequeue_tx size c) q.
Proof.
  intros [H1 H2 H3 H4 H5 H6 H7 H8]. simpl length in *.
  split; cbn [dequeue_tx set_free_txbuffs set_rd_txbuff txbuff rd_txbuff wr_txbuff free_txbuffs];
    unfold next_txbuff; try done; try lia.
  - apply Z.mod_pos_bound. lia.
  - rewrite Zplus_mod_idemp_l, H6. f_equal. lia.
  - intros k y Hy. rewrite Zplus_mod_idemp_l, <- (H7 (S k) y Hy). do 3 f_equal. lia.
  - by apply Forall_cons_1 in H8 as [_ ?].
Qed.

(** A ring is unchanged by what does not touch its fields. *)
Lemma ring_ext c c' q :
  txbuff c' = txbuff c -> wr_txbuff c' = wr_txbuff c -> rd_txbuff c' = rd_txbuff c ->
  free_txbuffs c' = free_txbuffs c -> ring_ok c q -> ring_ok c' q.
Proof. intros E1 E2 E3 E4 []. split; rewrite ?E1, ?E2, ?E3, ?E4; done. Qed.

(** ** What the trace tells *)

(** The buffers freed, in order. *)
Definition freed (t : list kevent) : list nat :=
  omap (fun e => match e with KFree n => Some n | _ => None end) t.

(** Replays the mappings towards the card: the ones that are open at the end,
    [None] if one was undone that was not open. *)
Definition map_step (open : list (Z * Z)) (e : kevent) : option (list (Z * Z)) :=
  match e with
  | KMap PCI_DMA_TODEVICE a l => Some (open ++ [(a, l)])
  | KUnmap PCI_DMA_TODEVICE a l => if decide ((a, l) ∈ open) then Some (list_difference open [(a, l)]) else None
  | _ => Some open
  end.

Fixpoint open_maps (open : list (Z * Z)) (t : list kevent) : option (list (Z * Z)) :=
  match t with
  | [] => Some open
  | e :: t' => map_step open e ≫= fun open' => open_maps open' t'
  end.

Lemma open_maps_app o t1 t2 : open_maps o (t1 ++ t2) = open_maps o t1 ≫= fun o' => open_maps o' t2.
Proof.
  revert o. induction t1 as [|e t1 IH]; intros o; simpl; [done|].
  destruct (map_step o e); simpl; [apply IH|done].
Qed.

Lemma freed_app t1 t2 : freed (t1 ++ t2) = freed t1 ++ freed t2.
Proof. apply omap_app. Qed.

Lemma unmap_only a l : map_step [(a, l)] (KUnmap PCI_DMA_TODEVICE a l) = Some [].
Proof.
  simpl. destruct (decide _) as [_|H]; [|destruct H; by apply list_elem_of_singleton].
  destruct (decide_rel _ _ _) as [_|H]; [done|destruct H; by apply list_elem_of_singleton].
Qed.

(** Events that neither free a buffer nor map one towards the card. *)
Definition neutral (e : kevent) : bool :=
  match e with KFree _ | KMap PCI_DMA_TODEVICE _ _ | KUnmap PCI_DMA_TODEVICE _ _ => false | _ => true end.

Lemma neutral_freed t : forallb neutral t = true -> freed t = [].
Proof.
  induction t as [|e t IH]; simpl; [done|]. intros [He Ht]%andb_true_iff. rewrite <- (IH Ht).
  by destruct e.
Qed.

Lemma neutral_maps o t : forallb neutral t = true -> open_maps o t = Some o.
Proof.
  induction t as [|e t IH]; simpl; [done|]. intros [He Ht]%andb_true_iff. rewrite <- (IH Ht).
  by destruct e as [|[]|[]| | | | | | | |].
Qed.

(** ** Steps that do not concern the ring *)

Definition view (c : nf2_card_priv) :=
  (txbuff c, wr_txbuff c, rd_txbuff c, free_txbuffs c, free_txbuffs_port c, dma_tx_addr c,
   dma_tx_in_progress c, length (ndev c), dma_can_wr_pkt c).

Definition unconcerned (w w' : kworld) : Prop :=
  view (kw_card w') = view (kw_card w) /\ kw_env w' = kw_env w /\
  exists t, kw_trace w' = kw_trace w ++ t /\ forallb neutral t = true.

(** What is asked of the environment: [skb_pad] finds memory, and the card
    reports no packet longer than the buffer it was given. *)
Record sane (e : kenv) : Prop := {
  sane_pads : forall n, ke_pad_fails e n = false;
  sane_sizes : forall m n, 0 <= s32 (ke_reg e m CPCI_REG_DMA_I_SIZE) <= Z.of_nat (length (ke_rx_buffer e n))
}.

(** [m] returns, whatever it is answered, and leaves the ring alone. *)
Definition harmless {A} (m : K A) : Prop :=
  forall w, length (ndev (kw_card w)) = MAX_IFACE -> sane (kw_env w) ->
    kwp m (fun _ w' => unconcerned w w') w.

Lemma unconcerned_refl w : unconcerned w w.
Proof. split_and!; [done..|]. exists []. by rewrite app_nil_r. Qed.

Lemma unconcerned_trans w1 w2 w3 : unconcerned w1 w2 -> unconcerned w2 w3 -> unconcerned w1 w3.
Proof.
  intros (V1 & E1 & t1 & T1 & N1) (V2 & E2 & t2 & T2 & N2). split_and!; [congruence..|].
  exists (t1 ++ t2). rewrite T2, T1, app_assoc, forallb_app, N1, N2. done.
Qed.

Lemma unconcerned_ndev w w' : unconcerned w w' -> length (ndev (kw_card w')) = length (ndev (kw_card w)).
Proof. intros (V & _). by injection V. Qed.

Lemma harmless_ret {A} (a : A) : harmless (mret a).
Proof. intros w _ _. apply unconcerned_refl. Qed.

Lemma harmless_bind {A B} (m : K A) (f : A -> K B) :
  harmless m -> (forall a, harmless (f a)) -> harmless (m ≫= f).
Proof.
  intros Hm Hf w Hw He. apply kwp_bind. eapply kwp_mono; [by apply Hm|]. intros a w' H. cbv beta.
  eapply kwp_mono; [apply Hf; [by rewrite (unconcerned_ndev _ _ H)|by destruct H as (_ & -> & _)]|].
  intros b w'' H'. cbv beta in *. by eapply unconcerned_trans.
Qed.

Lemma harmless_kget : harmless kget.
Proof. intros w _ _. apply unconcerned_refl. Qed.

Lemma harmless_kask {A} (f : kenv -> nat -> A) : harmless (kask f).
Proof. intros w _ _. split_and!; [done..|]. exists []. by rewrite app_nil_r. Qed.

Lemma harmless_kemit e : neutral e = true -> harmless (kemit e).
Proof. intros He w _ _. split_and!; [done..|]. exists [e]. simpl. by rewrite He. Qed.

Lemma harmless_kmod f : (forall c, view (f c) = view c) -> harmless (kmod f).
Proof. intros Hf w _ _. split_and!; [apply Hf|done|]. exists []. by rewrite app_nil_r. Qed.

Lemma harmless_when b m : harmless m -> harmless (kwhen b m).
Proof. intros H. destruct b; [done|apply harmless_ret]. Qed.

Lemma harmless_on_dev f i : (i < MAX_IFACE)%nat -> harmless (on_dev f i).
Proof.
  intros Hi w Hw _. unfold on_dev. apply kwp_bind. unfold kget, kwp at 1. apply kwp_bind.
  unfold kdef. destruct (ndev (kw_card w) !! i) as [d|] eqn:E.
  - unfold kwp at 1. split_and!; [|done|by exists []; rewrite app_nil_r]. unfold view. simpl.
    by rewrite length_alter.
  - apply lookup_ge_None in E. lia.
Qed.

Lemma harmless_iowrite v r : harmless (iowrite32 v r).
Proof. by apply harmless_kemit. Qed.
Lemma harmless_ioread r : harmless (ioread32 r).
Proof. apply harmless_kask. Qed.

Create HintDb card discriminated.
Hint Resolve harmless_ret harmless_kget harmless_kask harmless_iowrite harmless_ioread
  harmless_on_dev : card.
Hint Extern 1 (harmless (kemit _)) => apply harmless_kemit; reflexivity : card.
Hint Extern 1 (harmless (kmod _)) => apply harmless_kmod; intros; reflexivity : card.

(** Walks through a function none of whose steps concern the ring. *)
Ltac walk :=
  repeat first
    [ solve [auto with card nocore]
    | apply harmless_bind; [|intros ?]
    | apply harmless_when
    | match goal with |- harmless (if ?b then _ else _) => destruct b end
    | match goal with |- harmless (match ?x with _ => _ end) => destruct x end ].

Lemma harmless_flush : harmless nf2_write_flush.
Proof. unfold nf2_write_flush. walk. Qed.
Hint Resolve harmless_flush : card.
Lemma harmless_hw_reset : harmless nf2_hw_reset.
Proof. unfold nf2_hw_reset. walk. Qed.
Lemma harmless_reset_cpci : harmless nf2_reset_cpci.
Proof. unfold nf2_reset_cpci. walk. Qed.
Lemma harmless_enable_irq : harmless nf2_enable_irq.
Proof. unfold nf2_enable_irq. walk. Qed.
Lemma harmless_disable_irq : harmless nf2_disable_irq.
Proof. unfold nf2_disable_irq. walk. Qed.
Hint Resolve harmless_hw_reset harmless_reset_cpci harmless_enable_irq harmless_disable_irq : card.

Lemma harmless_phy n i : (i + n <= MAX_IFACE)%nat -> harmless (intr_phy n i).
Proof.
  revert i. induction n as [|n IH]; intros i Hi; simpl; [walk|].
  assert (i < MAX_IFACE)%nat by lia.
  apply harmless_bind; [walk|intros s]. apply harmless_bind; [|intros _; apply IH; lia].
  apply harmless_when. unfold nf2c_check_link_status, netif_carrier_on, netif_carrier_off. walk.
Qed.

Lemma harmless_pkt_avail : harmless intr_pkt_avail.
Proof. unfold intr_pkt_avail. walk. Qed.

Lemma harmless_read_all l : harmless (read_all l).
Proof. induction l; simpl; walk. Qed.
Hint Resolve harmless_pkt_avail harmless_read_all : card.

(** ** The invariant *)

Definition count_port (i : nat) (ports : list nat) : Z := Z.of_nat (length (bfilter (Nat.eqb i) ports)).

(** The mapping of the packet that is being transferred. *)
Definition in_flight (c : nf2_card_priv) (q : list entry) : list (Z * Z) :=
  match q with
  | x :: _ => if dma_tx_in_progress c =? 0 then [] else [(dma_tx_addr c, skb_len x.1)]
  | [] => []
  end.

(** [acc] are the packets accepted so far, [lost] the ports of those an
    interface that went down has thrown away. *)
Record card_inv (acc lost : list nat) (w : kworld) (q : list entry) : Prop := {
  ci_ring : ring_ok (kw_card w) q;
  ci_ndev : length (ndev (kw_card w)) = MAX_IFACE;
  ci_dma : dma_tx_in_progress (kw_card w) = 0 \/ dma_tx_in_progress (kw_card w) = 1 /\ q <> [];
  ci_freed : acc = freed (kw_trace w) ++ map (fun x => skb_id x.1) q;
  ci_maps : open_maps [] (kw_trace w) = Some (in_flight (kw_card w) q);
  ci_ports : length (free_txbuffs_port (kw_card w)) = MAX_IFACE;
  ci_credit : forall i, (i < MAX_IFACE)%nat -> free_txbuffs_port (kw_card w) !! i =
    Some (size / Z.of_nat MAX_IFACE - count_port i (map snd q) - count_port i lost);
  ci_env : sane (kw_env w)
}.

Lemma inv_unconcerned acc lost w w' q :
  unconcerned w w' -> card_inv acc lost w q -> card_inv acc lost w' q.
Proof.
  intros (V & E & t & T & N) [R D B F M P C A]. unfold view in V.
  injection V as V1 V2 V3 V4 V5 V6 V7 V8 V9. split.
  - by apply (ring_ext _ _ _ V1 V2 V3 V4).
  - congruence.
  - by rewrite V7.
  - by rewrite T, freed_app, (neutral_freed _ N), app_nil_r.
  - rewrite T, open_maps_app, M. simpl. rewrite (neutral_maps _ _ N). unfold in_flight.
    by rewrite V6, V7.
  - by rewrite V5.
  - by rewrite V5.
  - by rewrite E.
Qed.

Lemma inv_harmless {A} (m : K A) acc lost w q :
  harmless m -> card_inv acc lost w q -> kwp m (fun _ w' => card_inv acc lost w' q) w.
Proof.
  intros Hm Hi. eapply kwp_mono; [apply Hm; apply Hi|]. intros a w' H.
  cbv beta in H. eapply inv_unconcerned; [exact H|exact Hi].
Qed.

(** ** Starting a transfer *)

Definition can_start (c : nf2_card_priv) (q : list entry) : bool :=
  (dma_tx_in_progress c =? 0) &&
  match q with
  | x :: _ => negb (Z.land (dma_can_wr_pkt c) (Z.shiftl 1 (Z.of_nat x.2)) =? 0)
  | [] => false
  end.

Definition start_events (addr : Z) (x : entry) : list kevent :=
  [KMap PCI_DMA_TODEVICE addr (skb_len x.1); KWrite CPCI_REG_DMA_E_ADDR addr;
   KWrite CPCI_REG_DMA_E_SIZE (Z.max 60 (skb_len x.1));
   KWrite CPCI_REG_DMA_E_CTRL (Z.lor (NF2_SET_DMA_CTRL_MAC (Z.of_nat x.2)) DMA_CTRL_OWNER)].

(** [nf2c_send] starts the transfer of the oldest packet, padded to 60 bytes,
    when none is running and its port can take it; otherwise it does nothing. *)
Lemma send_starts acc lost w x q :
  card_inv acc lost w (x :: q) -> can_start (kw_card w) (x :: q) = true ->
  exists addr n, nf2c_send size w =
    Some (0, mk_kworld (set_dma_tx_addr addr (set_dma_tx_in_progress 1 (kw_card w)))
               (kw_trace w ++ start_events addr x) n (kw_env w)).
Proof.
  intros H Hs. unfold can_start in Hs. apply andb_true_iff in Hs as [Hd Hp].
  pose proof (ring_head _ _ _ (ci_ring _ _ _ _ H)) as Hh. pose proof (rg_free _ _ (ci_ring _ _ _ _ H)) as Hf.
  pose proof (sane_pads _ (ci_env _ _ _ _ H)) as Hpad. simpl length in Hf.
  apply Z.eqb_eq in Hd. unfold nf2c_send. do 2 (erewrite kbind_done by reflexivity).
  rewrite Hd. change (negb (0 + 1 =? 1)) with false. cbv iota.
  assert (free_txbuffs (kw_card w) =? size = false) as -> by (apply Z.eqb_neq; lia).
  cbv iota. rewrite Hh. erewrite kbind_done by reflexivity. cbn [tx_iface tx_skb].
  apply negb_true_iff in Hp. rewrite Hp. cbv iota. do 5 (erewrite kbind_done by reflexivity).
  exists (ke_map (kw_env w) (kw_tick w)).
  cbn [kw_card kw_trace kw_tick kw_env]. unfold start_events. destruct (skb_len x.1 <? 60) eqn:E.
  - erewrite kbind_done. 2:{ erewrite kbind_done by reflexivity. cbn [kw_env]. rewrite Hpad. reflexivity. }
    do 2 (erewrite kbind_done by reflexivity). eexists. cbn [kw_card kw_trace kw_tick kw_env].
    rewrite <- !app_assoc, Z.max_l by lia. reflexivity.
  - do 3 (erewrite kbind_done by reflexivity). eexists. cbn [kw_card kw_trace kw_tick kw_env].
    rewrite <- !app_assoc, Z.max_r by lia. reflexivity.
Qed.

Lemma send_skips acc lost w q :
  card_inv acc lost w q -> can_start (kw_card w) q = false -> nf2c_send size w = Some (1, w).
Proof.
  intros H Hs. unfold can_start in Hs.
  pose proof (rg_free _ _ (ci_ring _ _ _ _ H)) as Hf. pose proof (ci_dma _ _ _ _ H) as Hdma.
  assert (forall v, kmod (set_dma_tx_in_progress (dma_tx_in_progress (kw_card w)))
    (mk_kworld (set_dma_tx_in_progress v (kw_card w)) (kw_trace w) (kw_tick w) (kw_env w)) =
    Some (tt, w)) as Hback by (intros v; by destruct w as [[] ? ? ?]).
  unfold nf2c_send. do 2 (erewrite kbind_done by reflexivity).
  destruct (negb (dma_tx_in_progress (kw_card w) + 1 =? 1)) eqn:Eb.
  { by erewrite kbind_done by apply Hback. }
  apply negb_false_iff, Z.eqb_eq in Eb.
  assert (dma_tx_in_progress (kw_card w) =? 0 = true) as E0 by (apply Z.eqb_eq; lia).
  rewrite E0 in Hs. destruct (free_txbuffs (kw_card w) =? size) eqn:Ef.
  { by erewrite kbind_done by apply Hback. }
  destruct q as [|x q]; [simpl in Hf; lia|].
  rewrite (ring_head _ _ _ (ci_ring _ _ _ _ H)). erewrite kbind_done by reflexivity. cbn [tx_iface].
  simpl in Hs. apply negb_false_iff in Hs. rewrite Hs. cbv iota. by erewrite kbind_done by apply Hback.
Qed.

(** ** The invariant is kept *)

Lemma count_port_app i l1 l2 : count_port i (l1 ++ l2) = count_port i l1 + count_port i l2.
Proof. unfold count_port. rewrite bfilter_app, length_app. lia. Qed.

Lemma count_port_cons i j l : count_port i (j :: l) = (if (i =? j)%nat then 1 else 0) + count_port i l.
Proof. unfold count_port. simpl. destruct (i =? j)%nat; simpl length; lia. Qed.

Lemma start_inv acc lost w x q addr n :
  card_inv acc lost w (x :: q) -> dma_tx_in_progress (kw_card w) = 0 ->
  card_inv acc lost (mk_kworld (set_dma_tx_addr addr (set_dma_tx_in_progress 1 (kw_card w)))
                       (kw_trace w ++ start_events addr x) n (kw_env w)) (x :: q).
Proof.
  intros [R D B F M P C A] Hd. split; cbn [kw_card kw_trace kw_env].
  - by apply (ring_ext (kw_card w)).
  - done.
  - by right.
  - rewrite freed_app. simpl. by rewrite app_nil_r.
  - rewrite open_maps_app, M. unfold in_flight. rewrite Hd. done.
  - done.
  - done.
  - done.
Qed.

Lemma send_inv acc lost w q :
  card_inv acc lost w q -> kwp (nf2c_send size) (fun _ w' => card_inv acc lost w' q) w.
Proof.
  intros H. destruct (can_start (kw_card w) q) eqn:E.
  - destruct q as [|x q]; [by unfold can_start in E; rewrite andb_false_r in E|].
    destruct (send_starts _ _ _ _ _ H E) as (addr & n & Es).
    eapply kwp_done; [exact Es|]. apply start_inv; [done|].
    unfold can_start in E. apply andb_true_iff in E as [E _]. by apply Z.eqb_eq.
  - eapply kwp_done; [by eapply send_skips|done].
Qed.

Lemma send_if_any_inv acc lost w q :
  card_inv acc lost w q -> kwp (send_if_any size) (fun _ w' => card_inv acc lost w' q) w.
Proof.
  intros H. unfold send_if_any. apply kwp_bind. eapply kwp_done; [reflexivity|].
  destruct (negb _); [|exact H]. apply kwp_bind. eapply kwp_mono; [by apply send_inv|].
  intros r w' H'. exact H'.
Qed.

Lemma enqueue_inv acc lost w q skb i :
  card_inv acc lost w q -> Z.of_nat (length q) < size -> (i < MAX_IFACE)%nat ->
  card_inv (acc ++ [skb_id skb]) lost
    (mk_kworld (enqueue_tx size skb i (kw_card w)) (kw_trace w) (kw_tick w) (kw_env w))
    (q ++ [(skb, i)]).
Proof.
  intros [R D B F M P C A] Hlt Hi. split; cbn [kw_card kw_trace kw_env].
  - by apply ring_push.
  - done.
  - destruct B as [B|[B Hq]]; [by left|right]. split; [done|]. by destruct q.
  - by rewrite F, map_app, app_assoc.
  - rewrite M. f_equal. unfold in_flight. simpl. destruct q as [|x q]; simpl; [|done].
    destruct B as [->|[_ B]]; done.
  - simpl. by rewrite length_alter.
  - intros j Hj. simpl. rewrite map_app, count_port_app. simpl map.
    rewrite count_port_cons. change (count_port j []) with 0. specialize (C j Hj).
    destruct (decide (i = j)) as [->|Hne].
    + rewrite list_lookup_alter_eq, C, Nat.eqb_refl. simpl. f_equal; lia.
    + rewrite list_lookup_alter_ne, C by done.
      apply Nat.eqb_neq in Hne. rewrite Nat.eqb_sym, Hne. f_equal; lia.
  - done.
Qed.

(** The end of a transfer: [w1] is the state after the buffer was unmapped and
    freed. *)
Lemma finish_inv acc lost w w1 x q t :
  card_inv acc lost w (x :: q) -> dma_tx_in_progress (kw_card w) = 1 ->
  view (kw_card w1) = view (kw_card w) -> kw_env w1 = kw_env w -> kw_trace w1 = kw_trace w ++ t ->
  freed t = [skb_id x.1] -> open_maps [(dma_tx_addr (kw_card w), skb_len x.1)] t = Some [] ->
  kwp (finish_tx size x.2) (fun _ w' => card_inv acc lost w' q /\ dma_tx_in_progress (kw_card w') = 0 /\
    dma_can_wr_pkt (kw_card w') = dma_can_wr_pkt (kw_card w) /\ kw_env w' = kw_env w) w1.
Proof.
  intros [R D B F M P C A] Hd V E T Hf Ho. unfold view in V. injection V as V1 V2 V3 V4 V5 V6 V7 V8 V9.
  assert (x.2 < MAX_IFACE)%nat as Hx by exact (proj1 (Forall_cons_1 _ _ _ (rg_iface _ _ R))).
  assert (card_inv acc lost
    (mk_kworld (set_dma_tx_in_progress 0 (add_port_credit x.2 1 (dequeue_tx size (kw_card w1))))
       (kw_trace w1) (kw_tick w1) (kw_env w1)) q) as Hi.
  { split; cbn [kw_card kw_trace kw_env].
    - apply (ring_ext (dequeue_tx size (kw_card w1))); try done.
      apply (ring_pop _ x). by apply (ring_ext (kw_card w)).
    - simpl. congruence.
    - by left.
    - rewrite T, freed_app, Hf, F. simpl. by rewrite <- app_assoc.
    - rewrite T, open_maps_app, M. simpl. rewrite Hd. simpl. rewrite Ho. by destruct q.
    - simpl. rewrite length_alter. congruence.
    - intros j Hj. simpl. rewrite V5. specialize (C j Hj). simpl map in C.
      rewrite count_port_cons in C. destruct (decide (x.2 = j)) as [<-|Hne].
      + rewrite list_lookup_alter_eq, C, Nat.eqb_refl. simpl. f_equal; lia.
      + rewrite list_lookup_alter_ne, C by done.
        apply Nat.eqb_neq in Hne. rewrite Nat.eqb_sym, Hne. f_equal; lia.
    - by rewrite E. }
  unfold finish_tx. apply kwp_bind. eapply kwp_done; [reflexivity|].
  apply kwp_bind. eapply kwp_done; [reflexivity|]. apply kwp_bind. eapply kwp_done; [reflexivity|].
  cbn [kw_card kw_trace kw_tick kw_env].
  match goal with |- context [mk_kworld ?c _ _ _] =>
    replace c with (set_dma_tx_in_progress 0 (add_port_credit x.2 1 (dequeue_tx size (kw_card w1))))
  end.
  2:{ simpl. by rewrite V7, Hd. }
  apply kwp_bind.
  pose proof (ci_credit _ _ _ _ Hi x.2 Hx) as Hc. cbn [kw_card] in Hc. rewrite Hc. eapply kwp_done; [reflexivity|].
  apply kwp_when; [intros _|done].
  eapply kwp_mono; [apply (harmless_on_dev (set_nd_stopped false)); [exact Hx|apply Hi..]|].
  intros [] w' H'. split; [by eapply inv_unconcerned|].
  destruct H' as (V & En & _). injection V as _ _ _ _ _ _ -> _ ->. split_and!; [done..|].
  rewrite En. exact E.
Qed.

Lemma shiftr_channel ctrl : (Z.to_nat (Z.shiftr (Z.land ctrl 768) 8) < MAX_IFACE)%nat.
Proof.
  rewrite Z.shiftr_land. change (Z.shiftr 768 8) with (Z.ones 2). rewrite Z.land_ones by lia.
  pose proof (Z.mod_pos_bound (Z.shiftr ctrl 8) (2 ^ 2)). unfold MAX_IFACE. lia.
Qed.

Lemma harmless_on_stats f i : (i < MAX_IFACE)%nat -> harmless (on_stats f i).
Proof. apply harmless_on_dev. Qed.
Hint Resolve harmless_on_stats : card.

(** A sane length is within the receive buffer. *)
Lemma harmless_rx_complete : harmless intr_rx_complete.
Proof.
  unfold intr_rx_complete. do 2 (apply harmless_bind; [walk|intros ?]).
  intros w Hw He. apply kwp_bind. eapply kwp_done; [reflexivity|].
  pose proof (shiftr_channel (ke_reg (kw_env w) (S (kw_tick w)) CPCI_REG_DMA_I_CTRL)) as Hdev.
  apply kwp_bind. eapply kwp_done; [reflexivity|]. apply kwp_bind. eapply kwp_done; [reflexivity|].
  cbn [kw_card kw_trace kw_tick kw_env]. set (dev := Z.to_nat _) in *. cbv zeta.
  set (w1 := mk_kworld _ _ _ _).
  assert (unconcerned w w1) as H1 by (split_and!; [done..|]; exists []; by rewrite app_nil_r).
  set (data := ke_rx_buffer _ _). set (len := s32 _).
  assert (harmless (kmod (set_wr_pool (mk_nf2_packet (Some dev) len data));;
    kmod (fun c => set_dma_rx_in_progress (dma_rx_in_progress c - 1) c);;
    nf2c_rx dev (mk_nf2_packet (Some dev) len data))) as Hrest.
  { do 2 (apply harmless_bind; [walk|intros _]). unfold nf2c_rx.
    apply harmless_bind; [walk|intros []]; [walk|]. unfold pkt_payload. cbn [pkt_len pkt_data].
    assert ((0 <=? len) && (len <=? Z.of_nat (length data)) = true) as ->.
    { apply andb_true_iff. rewrite !Z.leb_le. apply (sane_sizes _ He). }
    apply harmless_bind; [apply harmless_ret|intros d]. walk. }
  eapply kwp_mono; [by apply Hrest|]. intros [] w' H2. cbv beta in H2.
  eapply unconcerned_trans; [exact H1|exact H2].
Qed.

(** The two ways a transfer ends: the interrupt, and an error. *)
Lemma tx_complete_idle w :
  dma_tx_in_progress (kw_card w) = 0 -> intr_tx_complete size w = Some (tt, w).
Proof. intros E. unfold intr_tx_complete. erewrite kbind_done by reflexivity. by rewrite E. Qed.

(** The next transfer starts at once if the port of the next packet can take it. *)
Definition ready (can_wr : Z) (q : list entry) : bool :=
  match q with x :: _ => negb (Z.land can_wr (Z.shiftl 1 (Z.of_nat x.2)) =? 0) | [] => false end.

Lemma send_if_any_next acc lost w q :
  card_inv acc lost w q -> dma_tx_in_progress (kw_card w) = 0 ->
  kwp (send_if_any size) (fun _ w' => card_inv acc lost w' q /\
    dma_can_wr_pkt (kw_card w') = dma_can_wr_pkt (kw_card w) /\ kw_env w' = kw_env w /\
    dma_tx_in_progress (kw_card w') = if ready (dma_can_wr_pkt (kw_card w)) q then 1 else 0) w.
Proof.
  intros H Hd. unfold send_if_any. apply kwp_bind. eapply kwp_done; [reflexivity|].
  pose proof (rg_free _ _ (ci_ring _ _ _ _ H)) as Hf.
  destruct (Z.eqb_spec (free_txbuffs (kw_card w)) size) as [E|E]; cbn [negb].
  - destruct q; [|simpl in Hf; lia]. by split.
  - apply kwp_bind. destruct (can_start (kw_card w) q) eqn:Es.
    + destruct q as [|x q]; [by unfold can_start in Es; rewrite andb_false_r in Es|].
      destruct (send_starts _ _ _ _ _ H Es) as (addr & n & E'). eapply kwp_done; [exact E'|].
      split; [by apply start_inv|]. unfold can_start in Es. apply andb_true_iff in Es as [_ Es].
      unfold ready. by rewrite Es.
    + eapply kwp_done; [by eapply send_skips|]. split; [done|]. unfold can_start in Es.
      rewrite Hd in Es. simpl in Es. unfold ready. rewrite Es. by rewrite Hd.
Qed.

Lemma tx_complete_next acc lost w x q :
  card_inv acc lost w (x :: q) -> dma_tx_in_progress (kw_card w) = 1 ->
  kwp (intr_tx_complete size) (fun _ w' => card_inv acc lost w' q /\
    dma_can_wr_pkt (kw_card w') = dma_can_wr_pkt (kw_card w) /\ kw_env w' = kw_env w /\
    dma_tx_in_progress (kw_card w') = if ready (dma_can_wr_pkt (kw_card w)) q then 1 else 0) w.
Proof.
  intros H E. unfold intr_tx_complete. apply kwp_bind. eapply kwp_done; [reflexivity|].
  rewrite E. change (1 =? 0) with false. cbv iota.
  rewrite (ring_head _ _ _ (ci_ring _ _ _ _ H)).
  do 3 (apply kwp_bind; eapply kwp_done; [reflexivity|]). cbn [tx_skb tx_iface].
  assert (x.2 < MAX_IFACE)%nat as Hx by exact (proj1 (Forall_cons_1 _ _ _ (rg_iface _ _ (ci_ring _ _ _ _ H)))).
  set (w1 := mk_kworld _ _ _ _). apply kwp_bind.
  eapply kwp_mono; [apply (harmless_on_stats (count_tx (skb_len x.1)) _ Hx w1); apply H|].
  intros [] w2 (V & En & t & T & Nt).
  do 2 (apply kwp_bind; eapply kwp_done; [reflexivity|]). apply kwp_bind.
  eapply kwp_mono.
  { apply (finish_inv acc lost w _ x q
      ([KUnmap PCI_DMA_TODEVICE (dma_tx_addr (kw_card w)) (skb_len x.1)] ++ t ++
       [KFree (skb_id x.1); KSpinLock])); try done.
    - cbn [kw_trace]. rewrite T. unfold w1. cbn [kw_trace]. by rewrite <- !app_assoc.
    - rewrite !freed_app, (neutral_freed _ Nt). done.
    - rewrite !open_maps_app. cbn [open_maps]. rewrite unmap_only. simpl.
      by rewrite open_maps_app, (neutral_maps _ _ Nt). }
  intros [] w3 (H3 & D3 & C3 & E3). apply kwp_bind. eapply kwp_done; [reflexivity|].
  set (w4 := mk_kworld _ _ _ _).
  assert (card_inv acc lost w4 q) as H4.
  { eapply inv_unconcerned; [|exact H3]. split_and!; [done..|]. by exists [KSpinUnlock]. }
  eapply kwp_mono; [by apply (send_if_any_next acc lost w4 q)|].
  intros [] w5 (H5 & C5 & E5 & D5). unfold w4 in *. cbn [kw_card kw_env] in *.
  split_and!; [done|congruence|congruence|]. by rewrite D5, C3.
Qed.

Lemma clear_flags_inv acc lost w q :
  card_inv acc lost w q ->
  kwp (nf2c_clear_dma_flags size) (fun _ w' => card_inv acc lost w'
    (if dma_tx_in_progress (kw_card w) =? 0 then q else tail q)) w.
Proof.
  intros H. unfold nf2c_clear_dma_flags. apply kwp_bind. eapply kwp_done; [reflexivity|].
  apply kwp_bind. eapply kwp_mono.
  { assert (harmless (kwhen (negb (dma_rx_in_progress (kw_card w) =? 0))
      (kemit (KUnmap PCI_DMA_FROMDEVICE (dma_rx_addr (kw_card w)) MAX_DMA_LEN);;
       kmod (set_dma_rx_in_progress (dma_rx_in_progress (kw_card w) - 1))))) as Hh by walk.
    apply Hh; apply H. }
  intros [] w1 H1. cbv beta in H1. pose proof (inv_unconcerned _ _ _ _ _ H1 H) as Hi.
  destruct H1 as (V & En & t & T & Nt).
  destruct (ci_dma _ _ _ _ H) as [E|[E Hq]]; rewrite E; [exact Hi|].
  change (negb (1 =? 0)) with true. change (1 =? 0) with false. cbv iota. unfold kwhen.
  destruct q as [|x q]; [done|]. simpl tail. rewrite (ring_head _ _ _ (ci_ring _ _ _ _ H)).
  do 5 (apply kwp_bind; eapply kwp_done; [reflexivity|]). cbn [tx_skb tx_iface]. apply kwp_bind.
  eapply kwp_mono.
  { apply (finish_inv acc lost w _ x q (t ++
      [KUnmap PCI_DMA_TODEVICE (dma_tx_addr (kw_card w)) (skb_len x.1); KSpinLock;
       KFree (skb_id x.1)])); try done.
    - cbn [kw_trace]. rewrite T. by rewrite <- !app_assoc.
    - rewrite freed_app, (neutral_freed _ Nt). done.
    - rewrite open_maps_app, (neutral_maps _ _ Nt). cbn [mbind option_bind open_maps].
      by rewrite unmap_only. }
  intros [] w3 [H3 _]. eapply inv_harmless; [walk|exact H3].
Qed.

(** *** Sequences of such steps *)

(** [m] returns, and the queue is what is left of it at its front. *)
Definition keeps {A} (m : K A) : Prop := forall acc lost w q, card_inv acc lost w q ->
  kwp m (fun _ w' => exists q', card_inv acc lost w' q' /\ q' `suffix_of` q) w.

Lemma keeps_same {A} (m : K A) :
  (forall acc lost w q, card_inv acc lost w q -> kwp m (fun _ w' => card_inv acc lost w' q) w) -> keeps m.
Proof. intros H acc lost w q Hi. eapply kwp_mono; [by apply H|]. intros a w' H'. by exists q. Qed.

Lemma keeps_harmless {A} (m : K A) : harmless m -> keeps m.
Proof. intros H. apply keeps_same. intros. by apply inv_harmless. Qed.

Lemma keeps_bind {A B} (m : K A) (f : A -> K B) : keeps m -> (forall a, keeps (f a)) -> keeps (m ≫= f).
Proof.
  intros Hm Hf acc lost w q H. apply kwp_bind. eapply kwp_mono; [by apply Hm|].
  intros a w1 (q1 & H1 & S1). eapply kwp_mono; [by apply Hf|].
  intros b w2 (q2 & H2 & S2). exists q2. split; [done|]. by etrans.
Qed.

Lemma keeps_when b m : keeps m -> keeps (kwhen b m).
Proof. intros H. destruct b; [done|]. apply keeps_harmless, harmless_ret. Qed.

Lemma suffix_tail {A} (b : bool) (q : list A) : (if b then q else tail q) `suffix_of` q.
Proof. destruct b; [done|]. destruct q; [done|]. by apply suffix_cons_r. Qed.

Lemma keeps_send_if_any : keeps (send_if_any size).
Proof. apply keeps_same. intros. by apply send_if_any_inv. Qed.

Lemma keeps_tx_complete : keeps (intr_tx_complete size).
Proof.
  intros acc lost w q H. destruct (ci_dma _ _ _ _ H) as [E|[E Hq]].
  - eapply kwp_done; [by apply tx_complete_idle|by exists q].
  - destruct q as [|x q]; [done|]. eapply kwp_mono; [by eapply tx_complete_next|].
    intros [] w' [H' _]. exists q. split; [done|]. by apply suffix_cons_r.
Qed.

Lemma keeps_clear_flags : keeps (nf2c_clear_dma_flags size).
Proof.
  intros acc lost w q H. eapply kwp_mono; [by apply clear_flags_inv|]. intros [] w' H'.
  eexists. split; [exact H'|apply suffix_tail].
Qed.

Hint Resolve keeps_send_if_any keeps_tx_complete keeps_clear_flags harmless_rx_complete : card.
Hint Extern 2 (keeps _) => apply keeps_harmless; solve [walk] : card.

Ltac keep :=
  repeat first
    [ solve [auto with card nocore] | apply keeps_when | apply keeps_bind; [|intros ?] ].

Lemma keeps_dma_error regs : keeps (intr_dma_error size regs).
Proof. unfold intr_dma_error. keep. Qed.

Lemma can_wr_inv acc lost w q v :
  card_inv acc lost w q ->
  card_inv acc lost (mk_kworld (set_dma_can_wr_pkt v (kw_card w)) (kw_trace w) (kw_tick w) (kw_env w)) q.
Proof. intros []. split; try done. by apply (ring_ext (kw_card w)). Qed.

Lemma keeps_can_wr v : keeps (kmod (set_dma_can_wr_pkt v)).
Proof. apply keeps_same. intros acc lost w q H. eapply kwp_done; [reflexivity|by apply can_wr_inv]. Qed.
Hint Resolve keeps_can_wr : card.

Lemma keeps_queue_status : keeps (intr_queue_status size).
Proof. unfold intr_queue_status. keep. Qed.
Hint Resolve keeps_dma_error keeps_queue_status : card.

Lemma keeps_phy : keeps (intr_phy MAX_IFACE 0).
Proof. by apply keeps_harmless, harmless_phy. Qed.
Hint Resolve keeps_phy : card.

Lemma keeps_intr : keeps (nf2c_intr size).
Proof. unfold nf2c_intr. keep. Qed.

Lemma keeps_tx_timeout i : (i < MAX_IFACE)%nat -> keeps (nf2c_tx_timeout size i).
Proof.
  intros Hi. unfold nf2c_tx_timeout, netif_wake_queue. keep.
Qed.

Lemma keeps_open i : (i < MAX_IFACE)%nat -> keeps (nf2c_open i).
Proof.
  intros Hi. apply keeps_harmless.
  unfold nf2c_open, netif_carrier_off, netif_wake_queue. walk.
Qed.

(** ** Accepting a packet *)

Lemma tx_inv acc lost w q skb i :
  card_inv acc lost w q -> (i < MAX_IFACE)%nat ->
  kwp (nf2c_tx size skb i) (fun r w' =>
    if decide (Z.of_nat (length q) < size)
    then r = 0 /\ card_inv (acc ++ [skb_id skb]) lost w' (q ++ [(skb, i)])
    else r = 1 /\ card_inv acc lost w' q) w.
Proof.
  intros H Hi. unfold nf2c_tx. pose proof (ci_ring _ _ _ _ H) as R.
  pose proof (rg_free _ _ R) as Hf. pose proof (rg_fits _ _ R) as Hfit.
  do 2 (apply kwp_bind; eapply kwp_done; [reflexivity|]). cbn [kw_card kw_trace kw_tick kw_env].
  set (w1 := mk_kworld _ _ _ _).
  assert (card_inv acc lost w1 q) as H1.
  { eapply inv_unconcerned; [|exact H]. split_and!; [done..|]. by exists [KSpinLock]. }
  apply kwp_bind. destruct (decide _) as [Hlt|Hge].
  - assert (free_txbuffs (kw_card w) =? 0 = false) as -> by (apply Z.eqb_neq; lia).
    pose proof (enqueue_inv _ _ _ _ skb i H1 Hlt Hi) as H2.
    assert (is_Some (txbuff (kw_card w) !! Z.to_nat (wr_txbuff (kw_card w)))) as [s Hs].
    { apply lookup_lt_is_Some. pose proof (rg_length _ _ R). pose proof (rg_size _ _ R).
      rewrite (rg_wr _ _ R). pose proof (Z.mod_pos_bound (rd_txbuff (kw_card w) + Z.of_nat (length q)) size).
      lia. }
    cbv iota. rewrite Hs. do 3 (apply kwp_bind; eapply kwp_done; [reflexivity|]).
    cbn [kw_card kw_trace kw_tick kw_env] in *. apply kwp_bind.
    pose proof (ci_credit _ _ _ _ H2 i Hi) as Hc. cbn [kw_card] in Hc.
    rewrite Hc. eapply kwp_done; [reflexivity|]. apply kwp_bind.
    eapply kwp_mono.
    { apply inv_harmless; [|exact H2]. apply harmless_when. by apply harmless_on_dev. }
    intros [] w3 H3. apply kwp_bind. eapply kwp_mono; [by apply send_inv|]. intros r w4 H4. cbv beta.
    eapply kwp_done; [reflexivity|]. apply kwp_bind.
    eapply kwp_mono; [eapply inv_harmless; [|exact H4]; walk|].
    intros [] w5 H5. by split.
  - assert (free_txbuffs (kw_card w) =? 0 = true) as -> by (apply Z.eqb_eq; lia).
    eapply kwp_done; [reflexivity|]. apply kwp_bind.
    eapply kwp_mono; [eapply inv_harmless; [|exact H1]; walk|].
    intros [] w5 H5. by split.
Qed.

(** ** Going down *)

Lemma free_tx_ring_spec w q :
  ring_ok (kw_card w) q ->
  exists c', free_tx_ring size (length q) w =
    Some (tt, mk_kworld c' (kw_trace w ++ map (fun x => KFree (skb_id x.1)) q) (kw_tick w) (kw_env w)) /\
    ring_ok c' [] /\ free_txbuffs_port c' = free_txbuffs_port (kw_card w) /\ ndev c' = ndev (kw_card w) /\
    ifup c' = ifup (kw_card w).
Proof.
  revert w. induction q as [|x q IH]; intros w R.
  - exists (kw_card w). split; [|done]. simpl. rewrite app_nil_r. by destruct w.
  - cbn [length free_tx_ring]. pose proof (rg_free _ _ R) as Hf. simpl length in Hf.
    erewrite kbind_done by reflexivity.
    assert (free_txbuffs (kw_card w) <? size = true) as -> by (apply Z.ltb_lt; lia).
    unfold rd_skb. cbv iota. rewrite (ring_head _ _ _ R). cbn [mbind option_bind tx_skb].
    do 3 (erewrite kbind_done by reflexivity). cbn [kw_card kw_trace kw_tick kw_env].
    destruct (IH (mk_kworld (dequeue_tx size (kw_card w)) (kw_trace w ++ [KFree (skb_id x.1)])
                    (kw_tick w) (kw_env w))) as (c' & E & R' & P & N & U); [by apply (ring_pop _ x)|].
    exists c'. rewrite E. split_and!; try done. cbn [kw_trace map]. by rewrite <- app_assoc.
Qed.

Lemma freed_frees {A} (f : A -> nat) l : freed (map (fun x => KFree (f x)) l) = map f l.
Proof. induction l; simpl; [done|]. by f_equal. Qed.

Lemma open_maps_frees {A} (f : A -> nat) o l : open_maps o (map (fun x => KFree (f x)) l) = Some o.
Proof. induction l; simpl; done. Qed.

(** The last interface going down ends the transfer, frees the queue in order,
    and does not give the ports their credits back. *)
(** The loop that empties the ring, as [nf2c_release] and [nf2c_remove] run it. *)
Definition drained (w : kworld) (q : list entry) (w' : kworld) : Prop :=
  kw_env w' = kw_env w /\ ring_ok (kw_card w') [] /\
  free_txbuffs_port (kw_card w') = free_txbuffs_port (kw_card w) /\
  ndev (kw_card w') = ndev (kw_card w) /\
  kw_trace w' = kw_trace w ++ map (fun x => KFree (skb_id x.1)) q.

Lemma free_tx_ring_drains w q :
  ring_ok (kw_card w) q ->
  kwp (free_tx_ring size (Z.to_nat (size - free_txbuffs (kw_card w)))) (fun _ => drained w q) w.
Proof.
  intros R. pose proof (rg_free _ _ R) as Hf. replace (Z.to_nat _) with (length q) by lia.
  destruct (free_tx_ring_spec w q R) as (c' & E & R' & P' & N' & _).
  eapply kwp_done; [exact E|]. by split_and!.
Qed.

Lemma shut_down_inv acc lost w q :
  card_inv acc lost w q ->
  kwp (shut_down size) (fun _ w' => card_inv acc (lost ++ map snd q) w' []) w.
Proof.
  intros H. unfold shut_down. apply kwp_bind. eapply kwp_done; [reflexivity|].
  set (w0 := mk_kworld _ _ _ _). apply kwp_bind.
  assert (card_inv acc lost w0 q) as H0.
  { eapply inv_unconcerned; [|exact H]. split_and!; [done..|]. by exists [KFreeIrq]. }
  eapply kwp_mono; [apply inv_harmless; [apply harmless_hw_reset|exact H0]|].
  clear H H0. intros [] w1 [R D B F M P C A]. apply kwp_bind. eapply kwp_done; [reflexivity|].
  pose proof (rg_free _ _ R) as Hf. apply kwp_bind.
  assert (kwp (kwhen (negb (free_txbuffs (kw_card w1) =? size))
    (kwhen (negb (dma_tx_in_progress (kw_card w1) =? 0))
       (skb ← kdef (rd_skb (kw_card w1));
        kemit (KUnmap PCI_DMA_TODEVICE (dma_tx_addr (kw_card w1)) (skb_len skb)));;
     free_tx_ring size (Z.to_nat (size - free_txbuffs (kw_card w1)))))
    (fun _ w' => kw_env w' = kw_env w1 /\ ring_ok (kw_card w') [] /\
       free_txbuffs_port (kw_card w') = free_txbuffs_port (kw_card w1) /\
       ndev (kw_card w') = ndev (kw_card w1) /\
       freed (kw_trace w') = freed (kw_trace w1) ++ map (fun x => skb_id x.1) q /\
       open_maps [] (kw_trace w') = Some []) w1) as Hk.
  { apply kwp_when; intros Hq.
    - apply negb_true_iff, Z.eqb_neq in Hq. destruct q as [|x q]; [simpl in Hf; lia|].
      apply kwp_bind. apply kwp_when; intros Hd.
      + unfold rd_skb. rewrite (ring_head _ _ _ R). cbn [mbind option_bind tx_skb].
        apply kwp_bind. eapply kwp_done; [reflexivity|]. eapply kwp_done; [reflexivity|].
        eapply kwp_mono; [by apply (free_tx_ring_drains (mk_kworld (kw_card w1) _ _ _))|].
        intros [] w' (E' & R' & P' & N' & T'). cbn [kw_card kw_trace kw_env] in *.
        rewrite T'. split_and!; try done.
        * rewrite !freed_app, freed_frees. by rewrite app_nil_r.
        * rewrite !open_maps_app, M. apply negb_true_iff in Hd. unfold in_flight. rewrite Hd.
          cbn [mbind option_bind open_maps]. rewrite unmap_only. cbn [mbind option_bind].
          apply open_maps_frees.
      + eapply kwp_mono; [by apply free_tx_ring_drains|].
        intros [] w' (E' & R' & P' & N' & T'). rewrite T'. split_and!; try done.
        * by rewrite freed_app, freed_frees.
        * rewrite open_maps_app, M. apply negb_false_iff in Hd. unfold in_flight. rewrite Hd.
          apply open_maps_frees.
    - apply negb_false_iff, Z.eqb_eq in Hq. destruct q as [|x q]; [|simpl in Hf; lia].
      split_and!; try done. by rewrite app_nil_r. }
  eapply kwp_mono; [exact Hk|]. intros [] w2 (E2 & R2 & P2 & N2 & F2 & M2).
  apply kwp_bind. eapply kwp_done; [reflexivity|]. eapply kwp_done; [reflexivity|].
  split; cbn [kw_card kw_trace kw_env].
  - by apply (ring_ext (kw_card w2)).
  - simpl. by rewrite N2.
  - by left.
  - rewrite F2. by rewrite app_nil_r.
  - by rewrite M2.
  - simpl. by rewrite P2.
  - intros i Hi. simpl. rewrite P2, (C i Hi), count_port_app. f_equal. unfold count_port at 3. simpl. lia.
  - by rewrite E2.
Qed.

Lemma release_inv acc lost w q i :
  card_inv acc lost w q -> (i < MAX_IFACE)%nat ->
  kwp (nf2c_release size i) (fun _ w' =>
    card_inv acc lost w' q \/ card_inv acc (lost ++ map snd q) w' []) w.
Proof.
  intros H Hi. unfold nf2c_release.
  assert (forall {A} (m : K A) (f : A -> K Z) w Q, harmless m -> card_inv acc lost w q ->
    (forall a w', card_inv acc lost w' q -> kwp (f a) Q w') -> kwp (m ≫= f) Q w) as step.
  { intros A m f w' Q Hm H' Hf. apply kwp_bind. eapply kwp_mono; [by apply inv_harmless|].
    intros a w'' H''. by apply Hf. }
  unfold netif_carrier_off, netif_stop_queue.
  apply step; [walk|done|]. clear H. intros [] w1 H; [by left|].
  apply step; [walk|done|]. clear H. intros _ w2 H.
  apply step; [walk|done|]. clear H. intros _ w3 H.
  apply step; [walk|done|]. clear H. intros _ w4 H.
  apply step; [walk|done|]. clear H. intros e w5 H.
  apply step; [walk|done|]. clear H. intros _ w6 H.
  apply step; [walk|done|]. clear H. intros _ w7 H.
  apply step; [walk|done|]. clear H. intros _ w8 H.
  apply step; [walk|done|]. clear H. intros c w9 H.
  apply kwp_bind. apply kwp_when; intros _.
  - eapply kwp_mono; [by apply shut_down_inv|]. intros [] w10 H10. cbv beta in H10.
    apply kwp_bind. eapply kwp_mono; [eapply inv_harmless; [|exact H10]; walk|].
    intros ? w11 H11. by right.
  - apply kwp_bind. eapply kwp_mono; [eapply inv_harmless; [|exact H]; walk|].
    intros ? w11 H11. by left.
Qed.

(** ** Sequences of operations *)

(** What the kernel calls: the transmission of a packet on a port, the
    interrupt handler, the transmit watchdog, bringing a port up or down, the
    control calls. Each runs to its end: [nf2c_tx] disables interrupts, and the
    handler masks them. *)
Inductive driver_op :=
  | OpTx (skb : sk_buff) (i : nat)
  | OpIntr
  | OpTimeout (i : nat)
  | OpOpen (i : nat)
  | OpRelease (i : nat)
  | OpIoctl (i : nat) (cmd : ioctl_cmd) (rq : nf2reg) (reg_num : Z).

Definition op_port (o : driver_op) : nat :=
  match o with
  | OpTx _ i | OpTimeout i | OpOpen i | OpRelease i | OpIoctl i _ _ _ => i
  | OpIntr => 0
  end.

(** Runs an operation; the answer is the packet it accepted. *)
Definition run_op (o : driver_op) : K (list nat) :=
  match o with
  | OpTx skb i => r ← nf2c_tx size skb i; mret (if r =? 0 then [skb_id skb] else [])
  | OpIntr => _ ← nf2c_intr size; mret []
  | OpTimeout i => nf2c_tx_timeout size i;; mret []
  | OpOpen i => _ ← nf2c_open i; mret []
  | OpRelease i => _ ← nf2c_release size i; mret []
  | OpIoctl i cmd rq n => _ ← nf2c_ioctl i cmd rq n; mret []
  end.

(** The packets accepted by a sequence, in order. *)
Fixpoint run_ops (ops : list driver_op) : K (list nat) :=
  match ops with
  | [] => mret []
  | o :: ops' => a ← run_op o; b ← run_ops ops'; mret (a ++ b)
  end.

Definition is_release (o : driver_op) : bool := match o with OpRelease _ => true | _ => false end.

Lemma harmless_ioctl i cmd rq n : harmless (nf2c_ioctl i cmd rq n).
Proof. unfold nf2c_ioctl, nf2k_reg_read, nf2k_reg_write. destruct cmd; walk. Qed.

Lemma run_op_inv o acc lost w q :
  (op_port o < MAX_IFACE)%nat -> card_inv acc lost w q ->
  kwp (run_op o) (fun a w' => exists q' lost', card_inv (acc ++ a) lost' w' q' /\
    (is_release o = false -> lost' = lost)) w.
Proof.
  intros Hp H. assert (forall {A} (m : K A), keeps m -> is_release o = false ->
    kwp (_ ← m; mret []) (fun a w' => exists q' lost', card_inv (acc ++ a) lost' w' q' /\
      (is_release o = false -> lost' = lost)) w) as Hk.
  { intros A m Hm Ho. apply kwp_bind. eapply kwp_mono; [by apply Hm|].
    intros a w' (q' & H' & _). exists q', lost. split; [by rewrite app_nil_r|done]. }
  destruct o as [skb i| |i|i|i|i cmd rq n]; unfold run_op; try (apply Hk; [|done]).
  - apply kwp_bind. eapply kwp_mono; [by apply tx_inv|]. intros r w' H'. cbv beta in H'.
    eapply kwp_done; [reflexivity|]. destruct (decide _); destruct H' as [-> H']; simpl.
    + eexists _, lost. split; [exact H'|done].
    + rewrite app_nil_r. eexists _, lost. split; [exact H'|done].
  - apply keeps_intr.
  - by apply keeps_tx_timeout.
  - by apply keeps_open.
  - apply kwp_bind. eapply kwp_mono; [by apply release_inv|]. intros r w' H'. cbv beta in H'.
    eapply kwp_done; [reflexivity|]. rewrite app_nil_r.
    destruct H' as [H'|H']; eexists _, _; (split; [exact H'|done]).
  - apply keeps_harmless, harmless_ioctl.
Qed.

Lemma run_ops_inv ops acc lost w q :
  (forall o, o ∈ ops -> (op_port o < MAX_IFACE)%nat) -> card_inv acc lost w q ->
  kwp (run_ops ops) (fun a w' => exists q' lost', card_inv (acc ++ a) lost' w' q' /\
    (forallb (fun o => negb (is_release o)) ops = true -> lost' = lost)) w.
Proof.
  revert acc lost w q. induction ops as [|o ops IH]; intros acc lost w q Hp H; simpl.
  - eapply kwp_done; [reflexivity|]. exists q, lost. by rewrite app_nil_r.
  - apply kwp_bind. eapply kwp_mono; [eapply (run_op_inv o); [|exact H]|].
    { apply Hp. apply list_elem_of_here. }
    intros a w1 (q1 & l1 & H1 & L1). apply kwp_bind.
    eapply kwp_mono; [eapply IH; [|exact H1]|].
    { intros o' Ho'. apply Hp. by apply list_elem_of_further. }
    intros b w2 (q2 & l2 & H2 & L2). eapply kwp_done; [reflexivity|].
    exists q2, l2. rewrite app_assoc. split; [done|].
    intros [Ho Hops]%andb_true_iff. apply negb_true_iff in Ho. rewrite L2, L1; done.
Qed.

(** The card as the probe leaves it. *)
Definition probed (devnum : nat) (e : kenv) : kworld := mk_kworld (probed_card size devnum) [] 0 e.

Lemma probed_inv devnum e : 0 < size -> sane e -> card_inv [] [] (probed devnum e) [].
Proof.
  intros Hs He. split; try done.
  - split; simpl; try done; try lia.
    rewrite length_replicate. lia.
  - by left.
  - intros i Hi. cbn [kw_card probed probed_card free_txbuffs_port].
    rewrite lookup_replicate_2 by done. unfold count_port. simpl. f_equal.
    rewrite Z.quot_div_nonneg by lia. lia.
Qed.

End Queue.
