(* ===== verification/CardTheorems.v ===== *)
(** The theorems about the driver of the card, over sequences of operations
    from the state the probe leaves. *)

From S2P Require Import Prelude Words Bytes Card CardDriver CardProbe CardQueue.
Local Open Scope Z_scope.

Section Theorems.
Context (size : Z) (Hsize : 0 < size).

(** The operations concern the four ports of the card. *)
Definition on_ports (ops : list driver_op) : Prop := forall o, o ∈ ops -> (op_port o < MAX_IFACE)%nat.

Lemma run_ops_probed devnum e ops :
  sane e -> on_ports ops ->
  exists acc w' q lost, run_ops size ops (probed size devnum e) = Some (acc, w') /\
    card_inv size acc lost w' q /\ (forallb (fun o => negb (is_release o)) ops = true -> lost = []).
Proof.
  intros He Ho. pose proof (run_ops_inv size ops [] [] _ [] Ho (probed_inv size devnum e Hsize He)) as H.
  apply kwp_inv in H as (acc & w' & E & q & lost & Hi & Hl). by exists acc, w', q, lost.
Qed.

(** ** A driver that does not oops and frees what it accepts *)

(** C10: As long as [skb_pad] finds memory and the card reports no length beyond the
    buffer it was given, whatever sequence of transmissions, interrupts,
    timeouts, control calls and changes of the interfaces the kernel runs on a
    probed card, no operation reads an invalid buffer, the ring always holds a
    queue of packets, and the packets accepted are, in the order they were
    accepted, those freed, each once, and then those of the queue: nothing is
    lost, freed twice or reordered. *)
Theorem card_frees_in_order devnum e ops :
  sane e -> on_ports ops ->
  exists acc w' q, run_ops size ops (probed size devnum e) = Some (acc, w') /\
    ring_ok size (kw_card w') q /\
    acc = freed (kw_trace w') ++ map (fun x => skb_id x.1) q.
Proof.
  intros He Ho. destruct (run_ops_probed devnum e ops He Ho) as (acc & w' & q & lost & E & H & _).
  exists acc, w', q. split_and!; [done|apply H..].
Qed.

(** ** One transfer at a time *)

(** C11: At every point of such a sequence at most one buffer is mapped for sending,
    exactly when a transfer is in progress: every unmapping gives back the
    address and length of the mapping that is open, and a new transfer starts
    only after the last one has ended. *)
Theorem card_one_transfer devnum e ops :
  sane e -> on_ports ops ->
  exists acc w' maps, run_ops size ops (probed size devnum e) = Some (acc, w') /\
    open_maps [] (kw_trace w') = Some maps /\ Z.of_nat (length maps) = dma_tx_in_progress (kw_card w') /\
    (dma_tx_in_progress (kw_card w') = 0 \/ dma_tx_in_progress (kw_card w') = 1).
Proof.
  intros He Ho. destruct (run_ops_probed devnum e ops He Ho) as (acc & w' & q & lost & E & H & _).
  exists acc, w'. eexists. split; [done|]. split; [apply H|]. unfold in_flight.
  destruct (ci_dma _ _ _ _ _ H) as [->|[-> Hq]]; destruct q; simpl; auto. done.
Qed.

(** ** Credits *)

(** C21: As long as no interface is closed, every port has a quarter of the buffers,
    less the ones its own packets hold in the queue. *)
Theorem card_credits devnum e ops :
  sane e -> on_ports ops -> forallb (fun o => negb (is_release o)) ops = true ->
  exists acc w' q, run_ops size ops (probed size devnum e) = Some (acc, w') /\
    ring_ok size (kw_card w') q /\
    forall i, (i < MAX_IFACE)%nat -> free_txbuffs_port (kw_card w') !! i =
      Some (size / Z.of_nat MAX_IFACE - count_port i (map snd q)).
Proof.
  intros He Ho Hn. destruct (run_ops_probed devnum e ops He Ho) as (acc & w' & q & lost & E & H & Hl).
  exists acc, w', q. split_and!; [done|apply H|]. intros i Hi. rewrite (ci_credit _ _ _ _ _ H i Hi).
  rewrite (Hl Hn). f_equal. unfold count_port at 2. simpl. lia.
Qed.

Lemma on_dev_done f i w :
  (i < MAX_IFACE)%nat -> length (ndev (kw_card w)) = MAX_IFACE ->
  on_dev f i w = Some (tt, mk_kworld (set_ndev (alter f i (ndev (kw_card w))) (kw_card w))
                             (kw_trace w) (kw_tick w) (kw_env w)).
Proof.
  intros Hi Hn. unfold on_dev. erewrite kbind_done by reflexivity.
  destruct (lookup_lt_is_Some_2 (ndev (kw_card w)) i) as [d Hd]; [lia|]. by rewrite Hd.
Qed.

(** Closing the last interface empties the ring but not the accounts of the
    ports: a port that had packets in the queue keeps fewer credits than its
    share after the ring is free again. *)
Theorem release_loses_credits acc w q i :
  card_inv size acc [] w q -> (i < MAX_IFACE)%nat ->
  ke_interrupted (kw_env w) (kw_tick w) = false -> ifup (kw_card w) = Z.shiftl 1 (Z.of_nat i) ->
  exists w', nf2c_release size i w = Some (0, w') /\ free_txbuffs (kw_card w') = size /\
    forall j, (j < MAX_IFACE)%nat -> free_txbuffs_port (kw_card w') !! j =
      Some (size / Z.of_nat MAX_IFACE - count_port j (map snd q)).
Proof.
  intros H Hi Hint Hup. unfold nf2c_release.
  erewrite kbind_done by reflexivity. rewrite Hint. cbv iota.
  erewrite kbind_done by reflexivity. unfold netif_carrier_off, netif_stop_queue.
  erewrite kbind_done by (apply on_dev_done; [done|apply H]). cbn [kw_card kw_trace kw_tick kw_env].
  erewrite kbind_done by (apply on_dev_done; [done|simpl; rewrite length_alter; apply H]).
  do 5 (erewrite kbind_done by reflexivity). cbn [kw_card kw_trace kw_tick kw_env].
  set (w1 := mk_kworld _ _ _ _).
  assert (card_inv size acc [] w1 q) as H1.
  { eapply inv_unconcerned; [|exact H]. unfold w1. split_and!; [|done|].
    - unfold view. simpl. by rewrite !length_alter.
    - eexists. rewrite <- !app_assoc. split; [reflexivity|done]. }
  assert (ifup (kw_card w1) =? 0 = true) as E0.
  { unfold w1. cbn. rewrite Hup. destruct i as [|[|[|[|]]]]; try reflexivity. unfold MAX_IFACE in Hi. lia. }
  cbn in E0 |- *. rewrite E0. unfold kwhen at 1.
  destruct (kwp_inv _ _ _ (shut_down_inv _ _ _ _ _ H1)) as ([] & w2 & E2 & H2).
  erewrite kbind_done by exact E2. eexists. split; [reflexivity|]. cbn [kw_card].
  pose proof (rg_free _ _ _ (ci_ring _ _ _ _ _ H2)) as Hf. simpl in Hf. split; [lia|].
  intros j Hj. rewrite (ci_credit _ _ _ _ _ H2 j Hj). simpl. f_equal. unfold count_port at 1. simpl. lia.
Qed.

(** ** Backpressure *)

(** A packet is accepted exactly when one of the buffers is free, and then
    waits behind all the others; otherwise the call fails and the queue is as it
    was. The result tells which. *)
Theorem nf2c_tx_correct acc lost w q skb i :
  card_inv size acc lost w q -> (i < MAX_IFACE)%nat ->
  exists r w', nf2c_tx size skb i w = Some (r, w') /\
    if decide (Z.of_nat (length q) < size)
    then r = 0 /\ ring_ok size (kw_card w') (q ++ [(skb, i)])
    else r = 1 /\ ring_ok size (kw_card w') q.
Proof.
  intros H Hi. destruct (kwp_inv _ _ _ (tx_inv _ _ _ _ _ skb i H Hi)) as (r & w' & E & Hr).
  exists r, w'. split; [done|]. destruct (decide _); (split; [apply Hr|apply (ci_ring _ _ _ _ _ (proj2 Hr))]).
Qed.

(** ** Progress *)

(** The card answers every question about its interrupts with the same mask
    and status. *)
Definition steady (e : kenv) (mask status : Z) : Prop := forall n,
  ke_reg e n CPCI_REG_INTERRUPT_MASK = mask /\ ke_reg e n CPCI_REG_INTERRUPT_STATUS = status.

Lemma harmless_env {A} (m : K A) w a w' :
  harmless m -> length (ndev (kw_card w)) = MAX_IFACE -> sane (kw_env w) -> m w = Some (a, w') ->
  unconcerned w w'.
Proof. intros Hm Hn He E. specialize (Hm w Hn He). unfold kwp in Hm. by rewrite E in Hm. Qed.

(** An interrupt that reports the end of the transfer takes the packet off
    the queue and starts the next one. *)
Lemma intr_tx_next acc lost w x q :
  card_inv size acc lost w (x :: q) -> dma_tx_in_progress (kw_card w) = 1 ->
  steady (kw_env w) 0 INT_DMA_TX_COMPLETE ->
  kwp (nf2c_intr size) (fun r w' => r = true /\ card_inv size acc lost w' q /\
    kw_env w' = kw_env w /\ dma_can_wr_pkt (kw_card w') = dma_can_wr_pkt (kw_card w) /\
    dma_tx_in_progress (kw_card w') = if ready (dma_can_wr_pkt (kw_card w)) q then 1 else 0) w.
Proof.
  intros H Hd Hs. unfold nf2c_intr. apply kwp_bind. eapply kwp_done; [reflexivity|].
  rewrite (proj1 (Hs _)). apply kwp_bind. eapply kwp_done; [reflexivity|]. cbn [kw_card kw_trace kw_tick kw_env].
  apply kwp_bind. eapply kwp_done; [reflexivity|]. cbn [kw_card kw_trace kw_tick kw_env].
  rewrite (proj2 (Hs _)). cbv zeta.
  change (Z.land INT_DMA_TX_COMPLETE (not32 (Z.land 0 (not32 INT_PKT_AVAIL)))) with INT_DMA_TX_COMPLETE.
  set (w1 := mk_kworld _ _ _ _).
  assert (card_inv size acc lost w1 (x :: q)) as H1.
  { eapply inv_unconcerned; [|exact H]. unfold w1. split_and!; [done..|].
    eexists. split; [reflexivity|done]. }
  do 2 (apply kwp_bind; eapply kwp_done; [reflexivity|]). apply kwp_bind.
  change (kwhen (has INT_DMA_TX_COMPLETE INT_DMA_TX_COMPLETE) (intr_tx_complete size))
    with (intr_tx_complete size).
  pose proof (tx_complete_next size acc lost w1 x q H1 Hd) as Hn.
  apply kwp_inv in Hn as ([] & w2 & E2 & H2 & C2 & He & D2).
  eapply kwp_done; [exact E2|].
  do 6 (apply kwp_bind; eapply kwp_done; [reflexivity|]).
  apply kwp_bind. eapply kwp_done; [reflexivity|]. eapply kwp_done; [reflexivity|].
  split; [done|]. split.
  - eapply inv_unconcerned; [|exact H2]. split_and!; [done..|]. eexists. split; [reflexivity|done].
  - cbn [kw_card kw_env]. split_and!; [exact He|exact C2|exact D2].
Qed.

(** [n] interrupts. *)
Fixpoint interrupts (n : nat) : K unit :=
  match n with O => mret tt | S n' => _ ← nf2c_intr size; interrupts n' end.

(** Interrupts alone, while a transfer runs whenever a packet waits. *)
Lemma interrupts_drain acc lost w q :
  card_inv size acc lost w q -> (q ≠ [] -> dma_tx_in_progress (kw_card w) = 1) ->
  steady (kw_env w) 0 INT_DMA_TX_COMPLETE ->
  (forall x, x ∈ q -> Z.land (dma_can_wr_pkt (kw_card w)) (Z.shiftl 1 (Z.of_nat x.2)) ≠ 0) ->
  exists w', interrupts (length q) w = Some (tt, w') /\
    ring_ok size (kw_card w') [] /\ freed (kw_trace w') = acc.
Proof.
  revert w. induction q as [|x q IH]; intros w H Hd Hs Hr.
  - exists w. split; [done|]. split; [apply H|]. by rewrite (ci_freed _ _ _ _ _ H), app_nil_r.
  - cbn [length interrupts].
    destruct (kwp_inv _ _ _ (intr_tx_next _ _ _ _ _ H (Hd ltac:(done)) Hs))
      as (r & w1 & E & -> & H1 & E1 & C1 & D1).
    erewrite kbind_done by exact E. apply IH; [done| |by rewrite E1|].
    + intros Hq. rewrite D1. destruct q as [|y q]; [done|]. unfold ready.
      assert (Z.land (dma_can_wr_pkt (kw_card w)) (Z.shiftl 1 (Z.of_nat y.2)) ≠ 0) as Hy
        by (apply Hr; set_solver).
      by apply Z.eqb_neq in Hy as ->.
    + intros y Hy. rewrite C1. apply Hr. by apply list_elem_of_further.
Qed.

(** C18: When the ports of the packets that wait can take packets and the card
    reports the end of every transfer, one interrupt per packet empties the
    queue, provided a transfer runs: every accepted packet has then been sent and
    freed. In a state where none runs, the interrupts do so after one call of
    [nf2c_send], which every transmission of a packet makes. *)
Theorem card_drains acc lost w q :
  card_inv size acc lost w q -> steady (kw_env w) 0 INT_DMA_TX_COMPLETE ->
  (forall x, x ∈ q -> Z.land (dma_can_wr_pkt (kw_card w)) (Z.shiftl 1 (Z.of_nat x.2)) ≠ 0) ->
  (dma_tx_in_progress (kw_card w) = 1 ->
     exists w', interrupts (length q) w = Some (tt, w') /\
       ring_ok size (kw_card w') [] /\ freed (kw_trace w') = acc) /\
  exists r w0 w', nf2c_send size w = Some (r, w0) /\ interrupts (length q) w0 = Some (tt, w') /\
    ring_ok size (kw_card w') [] /\ freed (kw_trace w') = acc.
Proof.
  intros H Hs Hr. split; [intros Hd; by eapply interrupts_drain|].
  destruct (can_start (kw_card w) q) eqn:Ec.
  - destruct q as [|x q]; [by unfold can_start in Ec; rewrite andb_false_r in Ec|].
    destruct (send_starts _ _ _ _ _ _ H Ec) as (addr & n & Es).
    edestruct interrupts_drain as (w' & Hw'); [| | | |eexists 0, _, w'; split; [exact Es|exact Hw']].
    + apply start_inv; [exact H|]. unfold can_start in Ec. apply andb_true_iff in Ec as [E _]. by apply Z.eqb_eq.
    + done.
    + exact Hs.
    + exact Hr.
  - edestruct interrupts_drain as (w' & Hw'); [exact H| |exact Hs|exact Hr|].
    + intros Hq. destruct (ci_dma _ _ _ _ _ H) as [E0|[E1 _]]; [|done].
      destruct q as [|x q]; [done|]. unfold can_start in Ec. rewrite E0 in Ec. simpl in Ec.
      exfalso. unfold ready in Ec. apply negb_false_iff, Z.eqb_eq in Ec. by apply (Hr x (list_elem_of_here _ _)).
    + exists 1, w, w'. split; [by eapply send_skips|exact Hw'].
Qed.

(** While a packet is being received, the interrupt that tells that a port
    can take packets again does not start the transfer that waited for it,
    although it could start: the handler tests the flag of the receive side. *)
Theorem queue_status_ignored_while_receiving acc lost w q v :
  card_inv size acc lost w q -> dma_rx_in_progress (kw_card w) = 1 ->
  dma_tx_in_progress (kw_card w) = 0 ->
  ke_reg (kw_env w) (kw_tick w) CPCI_REG_DMA_QUEUE_STATUS = v -> ready (Z.land v 65535) q = true ->
  exists w', intr_queue_status size w = Some (tt, w') /\ kw_trace w' = kw_trace w /\
    can_start (kw_card w') q = true.
Proof.
  intros H Hrx Htx Hv Hr. unfold intr_queue_status.
  erewrite kbind_done by reflexivity. rewrite Hv. do 3 (erewrite kbind_done by reflexivity).
  cbn [kw_card kw_trace kw_tick kw_env].
  cbn. rewrite Hrx. change (1 + 1 =? 1) with false. cbn. eexists. split; [reflexivity|].
  split; [done|]. unfold can_start. cbn. rewrite Htx. exact Hr.
Qed.

(** ** A transfer *)

(** C17: A transfer starts exactly when there is a packet, no transfer runs and the
    port of the oldest packet can take one: the oldest packet is mapped, its
    address, its length padded to 60 bytes and its port are given to the card,
    in this order. Otherwise nothing changes, the count of transfers included. *)
Theorem nf2c_send_correct acc lost w q :
  card_inv size acc lost w q ->
  exists r w', nf2c_send size w = Some (r, w') /\ card_inv size acc lost w' q /\
    match q with
    | x :: _ =>
        if can_start (kw_card w) q then
          r = 0 /\ dma_tx_in_progress (kw_card w') = 1 /\
          kw_trace w' = kw_trace w ++ start_events (dma_tx_addr (kw_card w')) x
        else r = 1 /\ w' = w
    | [] => r = 1 /\ w' = w
    end.
Proof.
  intros H. destruct (can_start (kw_card w) q) eqn:E.
  - destruct q as [|x q]; [by unfold can_start in E; rewrite andb_false_r in E|].
    destruct (send_starts _ _ _ _ _ _ H E) as (addr & n & Es).
    eexists 0, _. split; [exact Es|]. split; [|done]. apply start_inv; [done|].
    unfold can_start in E. apply andb_true_iff in E as [E _]. by apply Z.eqb_eq.
  - exists 1, w. split; [by eapply send_skips|]. split; [done|]. by destruct q.
Qed.

(** ** Removal *)

(** C19: A card that is removed after any such sequence, once its interfaces are
    down, has freed every packet it accepted, once each and in order, and gives
    back all the resources of its probe. *)
Theorem nf2_remove_correct devnum e ops :
  sane e -> on_ports ops ->
  exists acc w1 w2 ev, run_ops size ops (probed size devnum e) = Some (acc, w1) /\
    nf2_remove size w1 = Some (ev, w2) /\ ring_ok size (kw_card w2) [] /\
    freed (kw_trace w2) = acc /\ run_res card_resources ev = Some [].
Proof.
  intros He Ho. destruct (run_ops_probed devnum e ops He Ho) as (acc & w' & q & lost & E & H & _).
  assert (kwp (nf2_remove size) (fun ev w2 => ring_ok size (kw_card w2) [] /\
    freed (kw_trace w2) = acc /\ run_res card_resources ev = Some []) w') as Hr.
  { unfold nf2_remove, nf2c_remove. do 2 apply kwp_bind. eapply kwp_done; [reflexivity|].
    apply kwp_bind. apply kwp_when; intros Hq.
    - eapply kwp_mono; [apply free_tx_ring_drains, H|]. intros [] w2 (_ & R & _ & _ & T).
      split; [done|]. split; [|by vm_compute].
      by rewrite T, freed_app, freed_frees, (ci_freed _ _ _ _ _ H).
    - apply negb_false_iff, Z.eqb_eq in Hq. pose proof (rg_free _ _ _ (ci_ring _ _ _ _ _ H)) as Hf.
      destruct q as [|x q]; [|simpl in Hf; lia]. split; [apply H|]. split; [|by vm_compute].
      by rewrite (ci_freed _ _ _ _ _ H), app_nil_r. }
  apply kwp_inv in Hr as (ev & w2 & E2 & R2 & F2 & V2). by exists acc, w', w2, ev.
Qed.

(** ** Registers *)

(** The register calls report success whatever happened: for an address past
    the end of the card's memory, a read hands the user's own value back and a
    write does nothing, and both return 0. *)
Theorem ioctl_hides_refusals i rq n w :
  ke_copy_fails (kw_env w) = (fun _ => false) -> ke_resource_len (kw_env w) <= reg rq ->
  exists w1 w2, nf2c_ioctl i SIOCREGREAD rq n w = Some ((0, Some (val rq)), w1) /\
    nf2c_ioctl i SIOCREGWRITE rq n w = Some ((0, None), w2) /\
    kw_trace w1 = kw_trace w /\ kw_trace w2 = kw_trace w.
Proof.
  intros Hc Hl. apply Z.leb_le in Hl. unfold nf2c_ioctl, nf2k_reg_read, nf2k_reg_write.
  eexists _, _. split_and!.
  - erewrite kbind_done by reflexivity. rewrite Hc. cbv iota.
    erewrite kbind_done; [|erewrite kbind_done by reflexivity; cbn [kw_env]; rewrite Hl; reflexivity].
    erewrite kbind_done by reflexivity. cbn [kw_env]. rewrite Hc. reflexivity.
  - erewrite kbind_done by reflexivity. rewrite Hc. cbv iota.
    erewrite kbind_done; [|erewrite kbind_done by reflexivity; cbn [kw_env]; rewrite Hl; reflexivity].
    reflexivity.
  - reflexivity.
  - reflexivity.
Qed.

End Theorems.
