(* ===== verification/CardWitnesses.v ===== *)
(** A card on which the hypotheses of the theorems about the driver hold: a
    ring of four buffers, ports that can always take a packet, a card that
    reports the end of a transfer at every interrupt. Each lemma [X_witness]
    applies the theorem [X] to it. *)

From S2P Require Import Prelude Words Bytes Card CardDriver CardProbe CardQueue CardTheorems.
Local Open Scope Z_scope.

(** The registers of the card, for a given interrupt status. *)
Definition card_reg (status : Z) (_ : nat) (r : Z) : Z :=
  if r =? CPCI_REG_INTERRUPT_STATUS then status
  else if r =? CPCI_REG_DMA_QUEUE_STATUS then 15
  else 0.

Definition card_env (status : Z) : kenv :=
  mk_kenv (card_reg status) (fun _ => 0) (fun _ => false) (fun _ => 4096) (fun _ => false)
    (fun _ => false) (fun _ => false) (fun _ => replicate 64 0) 134217728.

Definition busy_env : kenv := card_env (Z.lor INT_DMA_QUEUE_STATUS_CHANGE INT_DMA_TX_COMPLETE).

Definition packet (k : nat) : sk_buff := mk_skb k (replicate (50 * k) 0).

(** Two ports are opened, three packets arrive, one of them is sent. *)
Definition card_ops : list driver_op :=
  [OpOpen 0; OpOpen 1; OpIntr; OpTx (packet 1) 0; OpTx (packet 2) 1; OpIntr; OpTx (packet 3) 0].

(** The same, then the ports go down again. *)
Definition card_life : list driver_op := card_ops ++ [OpRelease 0; OpRelease 1].

Lemma card_env_sane status : sane (card_env status).
Proof. split; [done|]. intros m n. by vm_compute. Qed.

Lemma life_on_ports : on_ports card_life.
Proof.
  assert (forallb (fun o => (op_port o <? MAX_IFACE)%nat) card_life = true) as H by reflexivity.
  intros o Ho. rewrite forallb_forall in H. by apply Nat.ltb_lt, H, list_elem_of_In.
Qed.

Lemma ops_on_ports : on_ports card_ops.
Proof. intros o Ho. apply life_on_ports, elem_of_app. by left. Qed.

(** What the operations of [card_ops] do. *)
Definition summary (r : option (list nat * kworld)) : option (list nat * list nat) :=
  match r with Some (acc, w) => Some (acc, freed (kw_trace w)) | None => None end.

Lemma card_frees_in_order_witness :
  exists acc w' (q : list (sk_buff * nat)), run_ops 4 card_ops (probed 4 0 busy_env) = Some (acc, w') /\
    acc = [1; 2; 3]%nat /\ freed (kw_trace w') = [1]%nat /\ map (fun x => skb_id x.1) q = [2; 3]%nat.
Proof.
  destruct (card_frees_in_order 4 eq_refl 0 busy_env card_ops (card_env_sane _) ops_on_ports)
    as (acc & w' & q & E & _ & F).
  assert (summary (run_ops 4 card_ops (probed 4 0 busy_env)) = Some ([1; 2; 3], [1])%nat) as S
    by (vm_compute; reflexivity).
  rewrite E in S. injection S as -> S. exists [1; 2; 3]%nat, w', q. split; [exact E|]. split; [reflexivity|].
  split; [exact S|]. rewrite S in F. injection F as F. symmetry. exact F.
Defined.

(** Without memory for [skb_pad] the claim is false: the short packet it freed is
    freed again when its transfer ends. *)
Lemma pad_failure_frees_twice :
  let e := mk_kenv (ke_reg busy_env) (ke_irq busy_env) (ke_interrupted busy_env) (ke_map busy_env)
             (ke_alloc_fails busy_env) (fun _ => true) (ke_copy_fails busy_env) (ke_rx_buffer busy_env)
             (ke_resource_len busy_env) in
  summary (run_ops 4 [OpOpen 0; OpOpen 1; OpIntr; OpTx (packet 1) 0; OpIntr] (probed 4 0 e))
  = Some ([1], [1; 1])%nat.
Proof. by vm_compute. Qed.

Lemma card_one_transfer_witness :
  exists acc w' maps, run_ops 4 card_ops (probed 4 0 busy_env) = Some (acc, w') /\
    open_maps [] (kw_trace w') = Some maps /\ length maps = 1%nat.
Proof.
  destruct (card_one_transfer 4 eq_refl 0 busy_env card_ops (card_env_sane _) ops_on_ports)
    as (acc & w' & maps & E & M & L & _).
  assert (dma_tx_in_progress <$> (kw_card <$> (snd <$> run_ops 4 card_ops (probed 4 0 busy_env))) = Some 1)
    as S by (vm_compute; reflexivity).
  rewrite E in S. injection S as S. rewrite S in L. exists acc, w', maps.
  split; [exact E|]. split; [exact M|]. lia.
Defined.

Lemma card_credits_witness :
  exists acc w' (q : list (sk_buff * nat)), run_ops 4 card_ops (probed 4 0 busy_env) = Some (acc, w') /\
    free_txbuffs_port (kw_card w') !! 1%nat = Some (4 / Z.of_nat MAX_IFACE - count_port 1 (map snd q)).
Proof.
  destruct (card_credits 4 eq_refl 0 busy_env card_ops (card_env_sane _) ops_on_ports eq_refl)
    as (acc & w' & q & E & _ & C).
  exists acc, w', q. split; [exact E|]. apply (C 1%nat). unfold MAX_IFACE. lia.
Defined.

Lemma nf2_remove_correct_witness :
  exists acc w1 w2 ev, run_ops 4 card_life (probed 4 0 busy_env) = Some (acc, w1) /\
    nf2_remove 4 w1 = Some (ev, w2) /\ freed (kw_trace w2) = [1; 2; 3]%nat.
Proof.
  destruct (nf2_remove_correct 4 eq_refl 0 busy_env card_life (card_env_sane _) life_on_ports)
    as (acc & w1 & w2 & ev & E1 & E2 & _ & F & _).
  assert (summary (run_ops 4 card_life (probed 4 0 busy_env)) = Some ([1; 2; 3], [1; 2; 3])%nat) as S
    by (vm_compute; reflexivity).
  rewrite E1 in S. injection S as -> _. exists [1; 2; 3]%nat, w1, w2, ev.
  split; [exact E1|]. split; [exact E2|exact F].
Defined.

(** ** States *)

(** A probed card, told that its ports can take packets, with packets to send. *)
Definition sending (status : Z) (ops : list driver_op) : kworld :=
  match (kmod (set_dma_can_wr_pkt 15);; run_ops 4 ops) (probed 4 0 (card_env status)) with
  | Some (_, w) => w
  | None => probed 4 0 (card_env status)
  end.

Definition two_packets : list driver_op := [OpTx (packet 1) 0; OpTx (packet 2) 0].

(** The queue is in the order of the packets; the credits follow from it. *)
Ltac check_inv :=
  split;
  [ split; try (vm_compute; first [reflexivity | lia | split; congruence | discriminate]);
    [ let k := fresh in let x := fresh in let H := fresh in
      intros k x H; do 3 (destruct k as [|k]; [inversion H; vm_compute; reflexivity|]); inversion H
    | repeat constructor; vm_compute; lia ]
  | vm_compute; reflexivity
  | first [ left; vm_compute; reflexivity | right; split; [vm_compute; reflexivity|discriminate] ]
  | vm_compute; reflexivity
  | vm_compute; reflexivity
  | vm_compute; reflexivity
  | let i := fresh in let H := fresh in
    intros i H; unfold MAX_IFACE in H;
    do 4 (destruct i as [|i]; [vm_compute; reflexivity|]); lia
  | apply card_env_sane ].

Definition one_port_up : list driver_op := OpOpen 0 :: two_packets.

Definition queued : list (sk_buff * nat) := [(packet 1, 0%nat); (packet 2, 0%nat)].

Lemma sending_inv status : card_inv 4 [1; 2]%nat [] (sending status two_packets) queued.
Proof. check_inv. Qed.

Lemma sending_up_inv : card_inv 4 [1; 2]%nat [] (sending 0 one_port_up) queued.
Proof. check_inv. Qed.

Lemma release_loses_credits_witness :
  exists w', nf2c_release 4 0 (sending 0 one_port_up) = Some (0, w') /\
    free_txbuffs (kw_card w') = 4 /\ free_txbuffs_port (kw_card w') !! 0%nat = Some (-1).
Proof.
  destruct (release_loses_credits 4 _ _ _ 0%nat sending_up_inv) as (w' & E & F & C);
    [unfold MAX_IFACE; lia|reflexivity|vm_compute; reflexivity|].
  exists w'. split; [exact E|]. split; [exact F|]. apply (C 0%nat). unfold MAX_IFACE. lia.
Defined.

Lemma nf2c_tx_correct_witness :
  exists r w', nf2c_tx 4 (packet 3) 1 (sending 0 two_packets) = Some (r, w') /\ r = 0 /\
    ring_ok 4 (kw_card w') (queued ++ [(packet 3, 1%nat)]).
Proof.
  destruct (nf2c_tx_correct 4 _ _ _ _ (packet 3) 1%nat (sending_inv 0)) as (r & w' & E & R);
    [unfold MAX_IFACE; lia|].
  exists r, w'. split; [exact E|]. rewrite decide_True in R by (vm_compute; reflexivity). exact R.
Defined.

Lemma nf2c_send_correct_witness :
  exists w', nf2c_send 4 (sending 0 two_packets) = Some (1, w') /\ w' = sending 0 two_packets.
Proof.
  destruct (nf2c_send_correct 4 _ _ _ _ (sending_inv 0)) as (r & w' & E & _ & H).
  assert (can_start (kw_card (sending 0 two_packets)) queued = false) as Hc by (vm_compute; reflexivity).
  rewrite Hc in H. unfold queued in H. destruct H as [-> H]. exists w'. split; [exact E|exact H].
Defined.

Lemma card_drains_witness :
  exists w', interrupts 4 2 (sending INT_DMA_TX_COMPLETE two_packets) = Some (tt, w') /\
    ring_ok 4 (kw_card w') [] /\ freed (kw_trace w') = [1; 2]%nat.
Proof.
  refine (proj1 (card_drains 4 eq_refl _ _ _ _ (sending_inv INT_DMA_TX_COMPLETE) _ _) _).
  - intros n. split; reflexivity.
  - intros x Hx. apply list_elem_of_In in Hx as [<-|[<-|[]]]; intros E; vm_compute in E; discriminate E.
  - vm_compute. reflexivity.
Defined.

(** ** Probe *)

Lemma nf2_validate_params_correct_witness :
  0 < p_tx_pool_size (nf2_validate_params 250 (mk_params 0 0 (-5) 0 0)) /\
  0 < p_rx_pool_size (nf2_validate_params 250 (mk_params 0 0 (-5) 0 0)).
Proof.
  destruct (nf2_validate_params_correct 250 (mk_params 0 0 (-5) 0 0) eq_refl) as (_ & H1 & H2 & _).
  split; [exact H1|]. apply H2; vm_compute; discriminate.
Defined.

Lemma ioctl_hides_refusals_witness :
  exists w1, nf2c_ioctl 0 SIOCREGREAD (mk_nf2reg 134217728 7) 0 (sending 0 two_packets) = Some ((0, Some 7), w1).
Proof.
  destruct (ioctl_hides_refusals 0 (mk_nf2reg 134217728 7) 0 (sending 0 two_packets)) as (w1 & _ & E & _);
    [vm_compute; reflexivity|vm_compute; discriminate|].
  exists w1. exact E.
Defined.

(** A packet is being received, and one waits for its port. *)
Definition receiving : kworld :=
  match (kmod (set_dma_rx_in_progress 1);; run_ops 4 [OpTx (packet 1) 0]) (probed 4 0 busy_env) with
  | Some (_, w) => w
  | None => probed 4 0 busy_env
  end.

Lemma receiving_inv : card_inv 4 [1]%nat [] receiving [(packet 1, 0%nat)].
Proof. check_inv. Qed.

Lemma queue_status_ignored_while_receiving_witness :
  exists w', intr_queue_status 4 receiving = Some (tt, w') /\ kw_trace w' = kw_trace receiving /\
    can_start (kw_card w') [(packet 1, 0%nat)] = true.
Proof.
  apply (queue_status_ignored_while_receiving 4 _ _ _ _ 15 receiving_inv); vm_compute; reflexivity.
Defined.
