(* ===== verification/LockOrder.v ===== *)
(** The lock discipline of the handlers and threads, over all the components:
    locks are taken in one global order (the rank of State.v), so that threads
    that follow it cannot deadlock, and are released before a handler
    returns, except on the paths the theorems single out. *)

From S2P Require Import Prelude Words Bytes State CStrings Headers Checksum Sorting Netfpga.
From S2P Require Import Rtable Iface Arp Icmp Dijkstra Pwospf Nat IfaceCtl Ip Sping Main.
Local Open Scope Z_scope.

(** ** Rules *)

Lemma below_mono h l l' : below h l = true -> (rank l <= rank l')%nat -> below h l' = true.
Proof.
  unfold below. rewrite !forallb_forall. intros H Hr x Hx. specialize (H x Hx).
  apply Nat.ltb_lt in H. apply Nat.ltb_lt. lia.
Qed.

#[export] Hint Extern 1 (below _ _ = true) =>
  first [reflexivity | simpl; first [eassumption | eapply below_mono; [eassumption | simpl; lia]]]
  : locks.

Lemma spec_acquire {B} h l m (f : unit -> M B) Q :
  below h l = true -> lock_spec (l :: h) (f tt) Q -> lock_spec h (acquire l m ≫= f) Q.
Proof.
  intros Hb Hf. eapply lock_spec_bind with (P := fun _ h' => h' = l :: h).
  - eapply lock_spec_emit; [simpl; by rewrite Hb|done].
  - by intros [] h' ->.
Qed.

Lemma spec_release {B} h l h' (f : unit -> M B) Q :
  remove_lock l h = Some h' -> lock_spec h' (f tt) Q -> lock_spec h (release l ≫= f) Q.
Proof.
  intros Hr Hf. eapply lock_spec_bind with (P := fun _ h'' => h'' = h').
  - by eapply lock_spec_emit.
  - by intros [] h'' ->.
Qed.

Lemma spec_release_last h l h' (Q : unit -> list lock -> Prop) :
  remove_lock l h = Some h' -> Q tt h' -> lock_spec h (release l) Q.
Proof. intros. by eapply lock_spec_emit. Qed.

Lemma spec_bind {A B} h (m : M A) (f : A -> M B) Q :
  balanced h m -> (forall a, lock_spec h (f a) Q) -> lock_spec h (m ≫= f) Q.
Proof. intros Hm Hf. eapply lock_spec_bind; [exact Hm|]. intros a h' ->. apply Hf. Qed.

Lemma spec_balanced {A} h (m : M A) (Q : A -> list lock -> Prop) :
  balanced h m -> (forall a, Q a h) -> lock_spec h m Q.
Proof. intros Hm HQ. eapply lock_spec_mono; [exact Hm|]. by intros a h' ->. Qed.

Lemma balanced_ret {A} h (a : A) : balanced h (mret a).
Proof. by apply lock_spec_ret. Qed.
Lemma balanced_fail {A} h c : balanced h (fail (A := A) c).
Proof. apply lock_spec_fail. Qed.
Lemma balanced_emit_send h p n i : balanced h (emit (EvSend p n i)).
Proof. by eapply lock_spec_emit. Qed.
Lemma balanced_emit_transport h p : balanced h (emit (EvTransport p)).
Proof. by eapply lock_spec_emit. Qed.
Lemma balanced_emit_socket h fd s : balanced h (emit (EvSocket fd s)).
Proof. by eapply lock_spec_emit. Qed.
Lemma balanced_emit_close h fd : balanced h (emit (EvClose fd)).
Proof. by eapply lock_spec_emit. Qed.
#[export] Hint Resolve balanced_ret balanced_fail balanced_emit_send balanced_emit_transport
  balanced_emit_socket balanced_emit_close : locks.

(** One step of a handler. *)
Ltac lk_step :=
  cbv beta zeta;
  lazymatch goal with
  | |- balanced ?h ?m => first [solve [auto with locks nocore] | unfold balanced; lk_step]
  | |- lock_spec _ (mret _) _ => apply lock_spec_ret; first [reflexivity | idtac]
  | |- lock_spec _ (fail _) _ => apply lock_spec_fail
  | |- lock_spec _ (acquire _ _ ≫= _) _ => apply spec_acquire; [auto with locks|]
  | |- lock_spec _ (release _ ≫= _) _ => eapply spec_release; [reflexivity|]
  | |- lock_spec _ (release _) _ => eapply spec_release_last; [reflexivity|try reflexivity]
  | |- lock_spec ?h ((match ?x with _ => _ end) ≫= _) _ => apply spec_bind; [|intros ?]
  | |- lock_spec ?h (_ ≫= _) _ => apply spec_bind; [|intros ?]
  | |- lock_spec _ (match ?x with _ => _ end) _ => destruct x
  | |- lock_spec ?h ?m (fun _ h' => h' = ?h) => change (balanced h m)
  end.
Ltac lk := repeat lk_step.

(** ** Routines that take no lock *)

Lemma balanced_write_slots {A} h (f : nat -> option A -> M unit) n i l :
  (forall i o, balanced h (f i o)) -> balanced h (write_slots f n i l).
Proof.
  intros Hf. revert i l. induction n as [|n IH]; intros i l; simpl; [lk|].
  destruct l; (apply spec_bind; [apply Hf|intros _; apply IH]).
Qed.

Lemma balanced_write_route_row h i o : balanced h (write_route_row i o).
Proof. unfold write_route_row, getOneHotPortNumber. destruct o; lk. Qed.
#[export] Hint Resolve balanced_write_route_row : locks.

Lemma balanced_write_rtable_loop h n i cur : balanced h (write_rtable_loop n i cur).
Proof. revert i cur. induction n as [|n IH]; intros i cur; cbn [write_rtable_loop]; [lk|]. destruct cur; lk. Qed.
#[export] Hint Resolve balanced_write_rtable_loop : locks.

Lemma balanced_trigger_rtable_modified h : balanced h trigger_rtable_modified.
Proof. unfold trigger_rtable_modified, write_rtable_to_hw. lk. Qed.
#[export] Hint Resolve balanced_trigger_rtable_modified : locks.

Lemma balanced_activate_routes h i : balanced h (activate_routes i).
Proof. unfold activate_routes. lk. Qed.
Lemma balanced_deactivate_routes h i : balanced h (deactivate_routes i).
Proof. unfold deactivate_routes. lk. Qed.
#[export] Hint Resolve balanced_activate_routes balanced_deactivate_routes : locks.

Lemma balanced_write_arp_cache_entry_to_hw h o i : balanced h (write_arp_cache_entry_to_hw o i).
Proof. unfold write_arp_cache_entry_to_hw. destruct o; lk. Qed.
#[export] Hint Resolve balanced_write_arp_cache_entry_to_hw : locks.

Lemma balanced_write_arp_static h cur i : balanced h (write_arp_static cur i).
Proof. revert i. induction cur as [|e cur IH]; intros i; cbn [write_arp_static]; lk. Qed.

Lemma balanced_write_arp_dynamic h cur i : balanced h (write_arp_dynamic cur i).
Proof.
  rewrite write_arp_dynamic_slots. apply balanced_write_slots. intros. unfold write_arp_slot. lk.
Qed.
#[export] Hint Resolve balanced_write_arp_static balanced_write_arp_dynamic : locks.

Lemma balanced_trigger_arp_cache_modified h : balanced h trigger_arp_cache_modified.
Proof. unfold trigger_arp_cache_modified, write_arp_cache_to_hw. lk. Qed.
#[export] Hint Resolve balanced_trigger_arp_cache_modified : locks.

Lemma balanced_update_arp_cache h ip mac st : balanced h (update_arp_cache ip mac st).
Proof. unfold update_arp_cache. lk. Qed.
#[export] Hint Resolve balanced_update_arp_cache : locks.

Lemma balanced_expire_arp_cache h : balanced h expire_arp_cache.
Proof.
  unfold expire_arp_cache. lk. apply balanced_filter_mapM. intros e. unfold expire_arp_entry. lk.
Qed.
#[export] Hint Resolve balanced_expire_arp_cache : locks.

(** ** Output *)

Lemma balanced_send_packet h p n i : below h L_write = true -> balanced h (send_packet p n i).
Proof. intros Hb. unfold send_packet, low_level_output. lk. Qed.
#[export] Hint Resolve balanced_send_packet : locks.

Lemma balanced_send_arp_request h tip i :
  below h L_write = true -> balanced h (send_arp_request tip i).
Proof. intros Hb. unfold send_arp_request. lk. Qed.
#[export] Hint Resolve balanced_send_arp_request : locks.

Lemma balanced_send_ip h p n nh i : below h L_write = true -> balanced h (send_ip p n nh i).
Proof. intros Hb. unfold send_ip, arp_queue_add. lk. Qed.
#[export] Hint Resolve balanced_send_ip : locks.

(** ** ARP *)

Lemma balanced_get_arp_hdr h p : balanced h (get_arp_hdr p).
Proof. unfold get_arp_hdr. lk. Qed.
#[export] Hint Resolve balanced_get_arp_hdr : locks.

Lemma balanced_send_entry_packets h fuel n :
  below h L_write = true -> balanced h (send_entry_packets fuel n).
Proof.
  intros Hb. induction fuel as [|fuel IH]; cbn [send_entry_packets]; lk.
Qed.
#[export] Hint Resolve balanced_send_entry_packets : locks.

Lemma balanced_send_queued_packets h dst :
  below h L_write = true -> balanced h (send_queued_packets dst).
Proof.
  intros Hb. unfold send_queued_packets. lk.
  generalize (queue_fuel (arp_queue a)) at 2. intros f2. generalize (queue_fuel (arp_queue a)).
  intros f1. generalize 0%nat as n.
  induction f1 as [|f1 IH]; intros n; cbn [send_queued_packets_loop]; lk.
Qed.
#[export] Hint Resolve balanced_send_queued_packets : locks.

Lemma balanced_process_arp_packet p : balanced [] (process_arp_packet p).
Proof.
  unfold process_arp_packet, process_arp_request, process_arp_reply, send_arp_reply.
  unfold lock_if_list_rd, unlock_if_list, lock_arp_cache_wr, unlock_arp_cache, lock_arp_cache_rd,
    lock_arp_queue_wr, unlock_arp_queue. lk.
Qed.

(** ** ICMP and the retry queue *)

Lemma balanced_send_icmp_packet h p n t c :
  below h L_write = true -> balanced h (send_icmp_packet p n t c).
Proof. intros Hb. unfold send_icmp_packet. lk. Qed.
#[export] Hint Resolve balanced_send_icmp_packet : locks.

Lemma balanced_send_icmp_echo_request_packet h d i :
  below h L_write = true -> balanced h (send_icmp_echo_request_packet d i).
Proof. intros Hb. unfold send_icmp_echo_request_packet. lk. Qed.
#[export] Hint Resolve balanced_send_icmp_echo_request_packet : locks.

Lemma balanced_process_icmp_packet h p n :
  below h L_sping = true -> balanced h (process_icmp_packet p n).
Proof.
  intros Hb. unfold process_icmp_packet, process_icmp_echo_reply_packet, lock_mutex_sping_queue,
    unlock_mutex_sping_queue. lk.
Qed.
#[export] Hint Resolve balanced_process_icmp_packet : locks.

Lemma balanced_bounce_packets h fuel n :
  below h L_write = true -> balanced h (bounce_packets fuel n).
Proof. intros Hb. induction fuel as [|fuel IH]; cbn [bounce_packets]; lk. Qed.
#[export] Hint Resolve balanced_bounce_packets : locks.

Lemma balanced_process_arp_queue h : below h L_write = true -> balanced h process_arp_queue.
Proof.
  intros Hb. unfold process_arp_queue. lk.
  generalize (2 * queue_fuel (arp_queue a))%nat at 2. intros f2.
  generalize (2 * queue_fuel (arp_queue a))%nat. intros f1. generalize 0%nat as n.
  induction f1 as [|f1 IH]; intros n; cbn [process_arp_queue_loop]; lk.
Qed.
#[export] Hint Resolve balanced_process_arp_queue : locks.

(** ** PWOSPF *)

Lemma balanced_modify_router h k f : balanced h (modify_router k f).
Proof. unfold modify_router. lk. Qed.
Lemma balanced_modify_iface h i f : balanced h (modify_iface i f).
Proof. unfold modify_iface. lk. Qed.
#[export] Hint Resolve balanced_modify_router balanced_modify_iface : locks.

Lemma balanced_broadcast_pwospf_lsu_packet h p s :
  below h L_lsu_queue = true -> balanced h (broadcast_pwospf_lsu_packet p s).
Proof.
  intros Hb. unfold broadcast_pwospf_lsu_packet. lk.
  apply balanced_foreach. intros iface. lk. apply balanced_foreach. intros nbr.
  unfold queue_lsu_for_nbr, lock_mutex_pwospf_lsu_queue, unlock_mutex_pwospf_lsu_queue. lk.
Qed.
#[export] Hint Resolve balanced_broadcast_pwospf_lsu_packet : locks.

Lemma balanced_start_lsu_bcast_flood h :
  below h L_lsu_queue = true -> balanced h start_lsu_bcast_flood.
Proof. intros Hb. unfold start_lsu_bcast_flood, construct_pwospf_lsu_packet. lk. Qed.
#[export] Hint Resolve balanced_start_lsu_bcast_flood : locks.

Lemma balanced_propagate_pwospf_changes h :
  below h L_lsu_queue = true -> balanced h propagate_pwospf_changes.
Proof. intros Hb. unfold propagate_pwospf_changes, dijkstra_trigger. lk. Qed.
#[export] Hint Resolve balanced_propagate_pwospf_changes : locks.

Lemma balanced_record_lsu h p : balanced h (record_lsu p).
Proof. unfold record_lsu, add_new_router_neighbor. lk. Qed.
#[export] Hint Resolve balanced_record_lsu : locks.

(** The locks [process_ip_packet] holds around its handlers. *)
Definition ip_locks : list lock := [L_rtable; L_if_list; L_arp_queue; L_arp_cache].

Lemma balanced_process_pwospf_lsu_packet p : balanced ip_locks (process_pwospf_lsu_packet p).
Proof.
  unfold process_pwospf_lsu_packet, unlock_rtable, lock_rtable_wr, lock_mutex_pwospf_router_list,
    unlock_mutex_pwospf_router_list, ip_locks. lk.
Qed.

(** A hello returns with the locks it was given, or with the router list mutex
    as well. *)
Definition hello_locks (h : list lock) : Prop := h = ip_locks \/ h = L_router_list :: ip_locks.

Lemma locks_process_pwospf_hello_packet p i :
  lock_spec ip_locks (process_pwospf_hello_packet p i) (fun _ => hello_locks).
Proof.
  unfold process_pwospf_hello_packet, hello_from_new_neighbor, unlock_rtable, unlock_if_list,
    lock_if_list_wr, lock_rtable_rd, lock_mutex_pwospf_router_list,
    unlock_mutex_pwospf_router_list, ip_locks. lk.
  all: unfold hello_locks; auto.
  apply spec_balanced; [lk|auto].
Qed.

Lemma locks_process_pwospf_packet p i :
  lock_spec ip_locks (process_pwospf_packet p i) (fun _ => hello_locks).
Proof.
  unfold process_pwospf_packet. lk; try (by left).
  - apply locks_process_pwospf_hello_packet.
  - eapply spec_balanced; [apply balanced_process_pwospf_lsu_packet|by left].
Qed.

(** ** NAT and IP *)

Lemma balanced_random_ext_port h fuel t : balanced h (random_ext_port fuel t).
Proof. induction fuel as [|fuel IH]; cbn [random_ext_port]; lk. Qed.
#[export] Hint Resolve balanced_random_ext_port : locks.

Lemma balanced_process_nat_ext_packet h p : balanced h (process_nat_ext_packet p).
Proof. unfold process_nat_ext_packet, count_hit. lk. Qed.
Lemma balanced_process_nat_int_packet h fuel p ip : balanced h (process_nat_int_packet fuel p ip).
Proof. unfold process_nat_int_packet, create_nat_table_entry, count_hit. lk. Qed.
#[export] Hint Resolve balanced_process_nat_ext_packet balanced_process_nat_int_packet : locks.

Lemma balanced_send_icmp_error h p n t c :
  below h L_write = true -> balanced h (send_icmp_error p n t c).
Proof. intros Hb. unfold send_icmp_error. lk. Qed.
#[export] Hint Resolve balanced_send_icmp_error : locks.

Lemma balanced_sr_transport_input h p : balanced h (sr_transport_input p).
Proof. unfold sr_transport_input. lk. Qed.
#[export] Hint Resolve balanced_sr_transport_input : locks.

Lemma balanced_forward_ip_packet fuel p n i : balanced ip_locks (forward_ip_packet fuel p n i).
Proof. unfold forward_ip_packet, lock_nat_table, unlock_nat_table, ip_locks. lk. Qed.

Lemma locks_deliver_ip_packet p n i :
  lock_spec ip_locks (deliver_ip_packet p n i) (fun _ => hello_locks).
Proof.
  unfold deliver_ip_packet. apply spec_bind; [lk|intros proto].
  repeat match goal with |- lock_spec _ (if ?b then _ else _) _ => destruct b end.
  3: apply locks_process_pwospf_packet.
  all: apply spec_balanced; [auto with locks|by left].
Qed.

(** What is held once a handler has released the locks of [ip_locks]. *)
Definition at_most_router_list (h : list lock) : Prop := h = [] \/ h = [L_router_list].

Lemma locks_process_ip_packet fuel p n i :
  lock_spec [] (process_ip_packet fuel p n i) (fun _ => at_most_router_list).
Proof.
  unfold process_ip_packet, lock_arp_cache_rd, lock_arp_queue_wr, lock_if_list_rd, lock_rtable_rd,
    lock_nat_table, unlock_nat_table.
  apply spec_bind; [lk|intros valid]. destruct (negb valid); [apply lock_spec_ret; by left|].
  do 4 (apply spec_acquire; [reflexivity|]).
  do 2 (apply spec_bind; [lk|intros ?]).
  apply spec_bind; [lk|intros packet]. do 2 (apply spec_bind; [lk|intros ?]).
  apply lock_spec_bind with (P := fun _ => hello_locks).
  { destruct (iface_match_ip _ _); [apply locks_deliver_ip_packet|].
    destruct (_ =? _); [apply locks_process_pwospf_packet|].
    apply spec_balanced; [apply balanced_forward_ip_packet|by left]. }
  intros _ h [-> | ->]; unfold unlock_rtable, unlock_if_list, unlock_arp_queue, unlock_arp_cache;
    do 3 (eapply spec_release; [reflexivity|]); (eapply spec_release_last; [reflexivity|]);
    [by left|by right].
Qed.

(** C14: Every packet the router is given is handled in the global order of
    the locks, and its handler returns with all of them released but for the
    mutex of the router list, which one path of the hello handler keeps. *)
Theorem process_packet_lock_order fuel packet len interface :
  lock_spec [] (process_packet fuel packet len interface) (fun _ => at_most_router_list).
Proof.
  unfold process_packet, iface_is_active, lock_if_list_rd, unlock_if_list.
  apply spec_bind; [lk|intros active]. destruct (negb active); [apply lock_spec_ret; by left|].
  apply spec_bind; [lk|intros type]. destruct (_ =? _); [apply locks_process_ip_packet|].
  destruct (_ =? _); [|apply lock_spec_ret; by left].
  apply spec_balanced; [apply balanced_process_arp_packet|by left].
Qed.

(** A hello with the right interval whose mask is not the interface's
    changes nothing and returns holding the mutex of the router list; whatever
    takes that mutex next, on any thread, waits for ever. *)
Theorem hello_mask_mismatch_keeps_mutex packet interface iface hint mask w :
  hello_hint packet get_pwospf_hello_hdr = Some hint ->
  ntohs hint = pwospf_hello_interval (w_rs w) ->
  get_iface (w_rs w) interface = Some iface ->
  hello_mask packet get_pwospf_hello_hdr = Some mask -> mask ≠ if_mask iface ->
  exists w', process_pwospf_hello_packet packet interface w = Done tt w' /\
    w_rs w' = w_rs w /\
    exists t, w_trace w' = w_trace w ++ t /\
      run_locks ip_locks t = Some (L_router_list :: ip_locks) /\
      run_locks (L_router_list :: ip_locks) [EvLock L_router_list Mutex] = None.
Proof.
  intros Hh Hi Hf Hm Hne. unfold process_pwospf_hello_packet.
  erewrite bind_done by reflexivity. rewrite Hh. erewrite bind_done by reflexivity.
  rewrite Hi, Z.eqb_refl. cbn [negb].
  do 6 (erewrite bind_done by reflexivity). cbn [w_rs]. rewrite Hf.
  erewrite bind_done by reflexivity. rewrite Hm. erewrite bind_done by reflexivity.
  destruct (Z.eqb_spec (if_mask iface) mask); [congruence|]. cbn [negb].
  eexists. split; [reflexivity|]. split; [done|]. cbn [w_trace].
  eexists. rewrite <- !app_assoc. split; [reflexivity|]. by split.
Qed.

(** ** The transport stack's packets *)

Lemma locks_send_ip_packet proto src dest payload :
  lock_spec [] (send_ip_packet proto src dest payload)
    (fun r h => h = [] \/ (r = 1 /\ h = ip_locks)).
Proof.
  unfold send_ip_packet, lock_arp_cache_rd, lock_arp_queue_wr, lock_if_list_rd, lock_rtable_rd,
    unlock_rtable, unlock_if_list, unlock_arp_queue, unlock_arp_cache. lk; auto.
Qed.

(** A packet of the transport stack for which there is no route leaves the
    ARP cache, the ARP queue, the interface list and the routing table locked
    when [send_ip_packet] returns. *)
Theorem send_ip_packet_no_route_keeps_locks proto src dest payload w :
  get_next_hop IF_LEN (w_rs w) dest = None ->
  is_Some (build_ip_packet proto src dest payload) ->
  exists w', send_ip_packet proto src dest payload w = Done 1 w' /\ w_rs w' = w_rs w /\
    exists t, w_trace w' = w_trace w ++ t /\ run_locks [] t = Some ip_locks.
Proof.
  intros Hr [p Hp]. unfold send_ip_packet. do 4 (erewrite bind_done by reflexivity).
  rewrite Hp. do 2 (erewrite bind_done by reflexivity). cbn [w_rs]. rewrite Hr.
  eexists. split; [reflexivity|]. split; [done|]. cbn [w_trace]. eexists.
  rewrite <- !app_assoc. by split.
Qed.

(** ** Threads and CLI operations *)

Lemma balanced_determine_timedout_interface h i iface :
  balanced h (determine_timedout_interface i iface).
Proof.
  unfold determine_timedout_interface. apply spec_bind; [|intros ?; lk].
  generalize false. generalize (if_nbr_routers iface) as l.
  induction l as [|nbr l IH]; intros b; cbn [determine_timedout_loop]; lk.
Qed.
#[export] Hint Resolve balanced_determine_timedout_interface : locks.

Lemma balanced_broadcast_hello_loop h n i t :
  below h L_router_list = true -> balanced h (broadcast_hello_loop n i t).
Proof.
  intros Hb. revert i t. induction n as [|n IH]; intros i t; cbn [broadcast_hello_loop];
    unfold lock_mutex_pwospf_router_list, unlock_mutex_pwospf_router_list; lk.
Qed.
#[export] Hint Resolve balanced_broadcast_hello_loop : locks.

Lemma balanced_broadcast_pwospf_hello_packet h :
  below h L_router_list = true -> balanced h broadcast_pwospf_hello_packet.
Proof.
  intros Hb. unfold broadcast_pwospf_hello_packet, lock_mutex_pwospf_router_list,
    unlock_mutex_pwospf_router_list. lk.
Qed.
#[export] Hint Resolve balanced_broadcast_pwospf_hello_packet : locks.

Lemma balanced_iface_up h i :
  below h L_router_list = true -> balanced (L_rtable :: L_if_list :: h) (iface_up i).
Proof.
  intros Hb.
  unfold iface_up, clear_nbr_routers, lock_mutex_pwospf_router_list,
    unlock_mutex_pwospf_router_list. lk.
Qed.

Lemma balanced_iface_down h i :
  below h L_router_list = true -> balanced (L_rtable :: L_if_list :: h) (iface_down i).
Proof.
  intros Hb.
  unfold iface_down, clear_nbr_routers, lock_mutex_pwospf_router_list,
    unlock_mutex_pwospf_router_list. lk.
Qed.

(** The threads, each with the locks it holds when a round starts. *)
Definition thread_rounds : list (list lock * M unit) :=
  [([], arp_thread_round); ([], pwospf_hello_round); ([], pwospf_lsu_round);
   ([], pwospf_lsu_timeout_round); ([], pwospf_lsu_bcast_round);
   ([], sping_queue_cleanup_round);
   ([L_dijkstra], dijkstra_round true); ([L_dijkstra], dijkstra_round false)].

Ltac unfold_locks :=
  unfold lock_arp_cache_rd, lock_arp_cache_wr, unlock_arp_cache, lock_arp_queue_wr,
    unlock_arp_queue, lock_if_list_rd, lock_if_list_wr, unlock_if_list, lock_rtable_rd,
    lock_rtable_wr, unlock_rtable, lock_mutex_pwospf_router_list,
    unlock_mutex_pwospf_router_list, lock_mutex_pwospf_lsu_queue, unlock_mutex_pwospf_lsu_queue,
    lock_mutex_pwospf_lsu_bcast, unlock_mutex_pwospf_lsu_bcast, lock_mutex_sping_queue,
    unlock_mutex_sping_queue.

