(* ===== verification/SprintTheorems.v ===== *)
(** What the printed tables say, and when their buffers are large enough. A
    route that was printed is read back by the parser of the route file and by
    the commands; the text of a table has a line per entry, in order. *)

From S2P Require Import Prelude Words Bytes State Nodes CStrings Netfpga Rtable Headers Iface Sprint Main.
From Stdlib Require Import Ascii.
From stdpp Require Import pretty.
Local Open Scope Z_scope.

(** ** Scanning words *)

Definition no_space (c : ascii) : bool := negb (is_space c).

(** A word is what [%as] reads. *)
Definition is_word (s : string) : Prop := s ≠ "" /\ forallb no_space (chars s) = true.

(** What may follow a word: nothing, or white space. *)
Definition ends_word (l : list ascii) : bool := match l with [] => true | c :: _ => is_space c end.

Lemma span_word l rest : forallb no_space l = true -> ends_word rest = true ->
  span no_space (l ++ rest) = (l, rest).
Proof.
  intros Hl Hr. induction l as [|c l IH]; simpl in *.
  - destruct rest as [|c rest]; [done|]. simpl in *. unfold no_space. by rewrite Hr.
  - apply andb_true_iff in Hl as [Hc Hl]. by rewrite Hc, IH.
Qed.

Lemma skip_spaces n l : skip_space (replicate n " "%char ++ l) = skip_space l.
Proof.
  unfold skip_space. induction n as [|n IH]; [done|]. cbn [replicate app span].
  change (is_space " "%char) with true. cbv iota. rewrite <- IH. by destruct (span _ _).
Qed.

Lemma skip_space_word s rest : is_word s -> skip_space (chars s ++ rest) = chars s ++ rest.
Proof.
  intros [Hn Hs]. destruct s as [|c s]; [done|]. simpl in *. apply andb_true_iff in Hs as [Hc _].
  unfold no_space in Hc. apply negb_true_iff in Hc. unfold skip_space. simpl. by rewrite Hc.
Qed.

Lemma scan_word_text fmt s n rest : is_word s -> ends_word rest = true ->
  scan (FStr :: fmt) (replicate n " "%char ++ chars s ++ rest) = AStr s :: scan fmt rest.
Proof.
  intros Hs Hr. cbn [scan]. rewrite skip_spaces, skip_space_word by done.
  change (fun c => negb (is_space c)) with no_space. rewrite span_word by (done || apply Hs).
  destruct Hs as [Hn _]. rewrite implode_chars. by destruct s.
Qed.

(** A directive of white space before a word changes nothing. *)
Lemma scan_space_word fmt l : scan (FSpace :: FStr :: fmt) l = scan (FStr :: fmt) l.
Proof.
  cbn [scan]. assert (skip_space (skip_space l) = skip_space l) as ->; [|done].
  unfold skip_space. induction l as [|c l IH]; [done|]. cbn [span]. destruct (is_space c) eqn:E.
  - destruct (span is_space l) as [a b] eqn:Es. exact IH.
  - simpl. by rewrite E.
Qed.

Lemma ends_word_spaces n l : (0 < n)%nat -> ends_word (replicate n " "%char ++ l) = true.
Proof. destruct n; [lia|done]. Qed.

Lemma digits_no_space l : forallb is_digit l = true -> forallb no_space l = true.
Proof.
  rewrite !forallb_forall. intros H c Hc. specialize (H c Hc). unfold is_digit, no_space, is_space in *.
  apply andb_true_iff in H as [H1 H2]. apply Z.leb_le in H1, H2.
  destruct (Z.eqb_spec (code c) 32); [lia|]. destruct (Z.leb_spec (code c) 13); [lia|].
  by rewrite andb_false_r.
Qed.

Lemma inet_ntop_word ip : is_u32 ip -> is_word (inet_ntop ip).
Proof.
  intros H. destruct (ip_octets ip H) as (Ha & Hb & Hc & Hd & _).
  destruct (octet_pretty _ Ha) as (_ & Da & _), (octet_pretty _ Hb) as (_ & Db & _).
  destruct (octet_pretty _ Hc) as (_ & Dc & _), (octet_pretty _ Hd) as (_ & Dd & _).
  split.
  - intros E. pose proof (inet_ntop_length ip H) as L. rewrite E in L. simpl in L. lia.
  - unfold inet_ntop. rewrite !chars_app, !forallb_app.
    by rewrite (digits_no_space _ Da), (digits_no_space _ Db), (digits_no_space _ Dc), (digits_no_space _ Dd).
Qed.

(** ** A printed route *)

(** A name that fits its column and that [%as] can read. *)
Definition shown_name (name : string) : Prop := is_word name /\ (String.length name <= 17)%nat.

Definition route_words (re : rtable_entry) : Prop :=
  is_u32 (re_ip re) /\ is_u32 (re_gw re) /\ is_u32 (re_mask re).

(** The four columns the parsers read, then the two flags. *)
Definition route_line (re : rtable_entry) : string :=
  pad_right 15 (inet_ntop (re_ip re)) +:+ " " +:+ pad_right 15 (inet_ntop (re_gw re)) +:+ " " +:+
  pad_right 15 (inet_ntop (re_mask re)) +:+ " " +:+ pad_right 18 (re_iface re) +:+ " " +:+
  pad_right 6 (yes_no (re_is_static re)) +:+ " " +:+ pad_right 6 (yes_no (re_is_active re)) +:+ nl.

Lemma route_line_length re : route_words re -> (String.length (re_iface re) <= 17)%nat ->
  String.length (route_line re) = 81%nat.
Proof.
  intros (H1 & H2 & H3) Hn. unfold route_line. rewrite !string_length_app, !length_pad_right.
  pose proof (inet_ntop_length _ H1). pose proof (inet_ntop_length _ H2). pose proof (inet_ntop_length _ H3).
  change (String.length " ") with 1%nat. change (String.length nl) with 1%nat.
  destruct (re_is_static re), (re_is_active re); simpl yes_no; simpl String.length; lia.
Qed.

Lemma route_text_line re w : route_words re -> (String.length (re_iface re) <= 17)%nat ->
  route_text re w = Done (route_line re) w.
Proof.
  intros Hr Hn. unfold route_text, RTABLE_ENTRY_TO_STRING_LEN, RTABLE_MAX_IFACE_LEN.
  rewrite (snprintf_fits 18) by lia. fold (route_line re).
  rewrite snprintf_fits by (rewrite route_line_length by done; lia). done.
Qed.

Lemma pad_chars n s rest : (String.length s <= n)%nat ->
  chars (pad_right n s) ++ " "%char :: rest =
  chars s ++ replicate (S (n - String.length s)) " "%char ++ rest.
Proof.
  intros H. rewrite chars_pad_right, <- app_assoc. f_equal.
  rewrite replicate_S_end, <- app_assoc. done.
Qed.

(** Four words separated by white space are read by the formats of the route
    file and of the commands. *)
Lemma scan_four a b c d n1 n2 n3 rest :
  is_word a -> is_word b -> is_word c -> is_word d -> ends_word rest = true ->
  scan [FStr; FSpace; FStr; FSpace; FStr; FSpace; FStr]
    (chars a ++ replicate (S n1) " "%char ++ chars b ++ replicate (S n2) " "%char ++
     chars c ++ replicate (S n3) " "%char ++ chars d ++ rest) = [AStr a; AStr b; AStr c; AStr d].
Proof.
  intros Ha Hb Hc Hd Hr.
  etrans; [apply (scan_word_text _ a 0); [done|apply ends_word_spaces; lia]|]. f_equal.
  rewrite scan_space_word, scan_word_text by (done || apply ends_word_spaces; lia). f_equal.
  rewrite scan_space_word, scan_word_text by (done || apply ends_word_spaces; lia). f_equal.
  rewrite scan_space_word, scan_word_text by done. done.
Qed.

(** C25: A line of the printed routing table, of a route whose interface name fits its
    column, read as a line of the route file, has the address, gateway, mask and
    interface of the route it was printed from; it is read as a static and active
    route, whatever the printed one was. *)
Theorem printed_route_read_back re w :
  route_words re -> shown_name (re_iface re) ->
  exists line, route_text re w = Done line w /\
    rtable_line line = Some (mk_rtable_entry (re_ip re) (re_gw re) (re_mask re) (re_iface re) true true).
Proof.
  intros Hr [Hw Hl]. exists (route_line re). split; [by apply route_text_line|].
  destruct Hr as (H1 & H2 & H3).
  unfold rtable_line, sscanf, route_line.
  change (parse_format (chars "%as %as %as %as")) with [FStr; FSpace; FStr; FSpace; FStr; FSpace; FStr].
  rewrite !chars_app. change (chars " ") with [" "%char]. cbn [app].
  pose proof (inet_ntop_length _ H1). pose proof (inet_ntop_length _ H2). pose proof (inet_ntop_length _ H3).
  rewrite !(pad_chars 15) by lia. rewrite (pad_chars 18) by lia.
  rewrite scan_four; [|by apply inet_ntop_word..|done|done].
  rewrite !inet_pton_ntop by done. unfold strncpy.
  rewrite str_take_all by (unfold IF_LEN; lia). done.
Qed.

(** ** Buffers that are large enough *)

Lemma COPY_STRING_fits cap buf str w : (String.length buf + String.length str <= cap)%nat ->
  COPY_STRING cap buf str w = Done (buf +:+ str) w.
Proof. intros H. unfold COPY_STRING. by apply Nat.leb_le in H as ->. Qed.

Lemma str_app_nil_r s : s +:+ "" = s.
Proof. induction s as [|c s IH]; [done|]. change (String c (s +:+ "") = String c s). by rewrite IH. Qed.

Definition join_text (l : list string) : string := foldr String.append "" l.

(** Lines of at most [k] characters fit in a buffer with room for [k] each. *)
Lemma copy_lines_fits {A} (line : A -> M string) cap k buf l w :
  (forall x w, x ∈ l -> wp (line x) (fun s _ => (String.length s <= k)%nat) w) ->
  (String.length buf + k * length l <= cap)%nat ->
  wp (copy_lines line cap buf l) (fun r _ => (String.length r <= String.length buf + k * length l)%nat) w.
Proof.
  revert buf w. induction l as [|x l IH]; intros buf w Hl Hc; cbn [copy_lines length].
  - apply wp_ret. lia.
  - cbn [length] in Hc. apply wp_bind. eapply wp_mono; [apply Hl, list_elem_of_here|].
    intros s w1 Hs. cbv beta in Hs. apply wp_bind. eapply wp_done; [apply COPY_STRING_fits; lia|].
    eapply wp_mono; [apply IH|].
    + intros y w' Hy. apply Hl. by apply list_elem_of_further.
    + rewrite string_length_app. lia.
    + intros r w2 Hr. cbv beta in Hr |- *. rewrite string_length_app in Hr. lia.
Qed.

(** Lines that only depend on their element. *)
Lemma copy_lines_text {A} (line : A -> M string) (f : A -> string) cap k buf l w :
  (forall x w, x ∈ l -> line x w = Done (f x) w /\ (String.length (f x) <= k)%nat) ->
  (String.length buf + k * length l <= cap)%nat ->
  copy_lines line cap buf l w = Done (buf +:+ join_text (map f l)) w.
Proof.
  revert buf. induction l as [|x l IH]; intros buf Hl Hc; cbn [copy_lines map].
  - simpl. by rewrite str_app_nil_r.
  - cbn [length] in Hc. destruct (Hl x w (list_elem_of_here _ _)) as [E L].
    erewrite bind_done by exact E. erewrite bind_done by (apply COPY_STRING_fits; lia).
    rewrite IH.
    + by rewrite str_app_assoc.
    + intros y w' Hy. apply Hl. by apply list_elem_of_further.
    + rewrite string_length_app. lia.
Qed.

(** The text of the routing table never overruns its buffer, and is the header
    and a line per route, in the order of the table. *)
Theorem sprint_rtable_correct w :
  Forall (fun re => route_words re /\ (String.length (re_iface re) <= 17)%nat) (rtable (w_rs w)) ->
  sprint_rtable w =
    Done (RTABLE_COL +:+ join_text (map route_line (rtable (w_rs w)))) w.
Proof.
  intros H. unfold sprint_rtable. erewrite bind_done by reflexivity. cbv zeta.
  set (cap := (_ + _)%nat). erewrite bind_done by (apply COPY_STRING_fits; unfold cap; change (String.length "") with 0%nat; lia).
  apply (copy_lines_text _ _ _ 81).
  - intros re w' Hre. rewrite Forall_forall in H. destruct (H re Hre) as [H1 H2].
    split; [by apply route_text_line|]. by rewrite route_line_length.
  - unfold cap, RTABLE_ENTRY_TO_STRING_LEN. change ("" +:+ RTABLE_COL) with RTABLE_COL. lia.
Qed.

Lemma copy_header cap str w : (String.length str <= cap)%nat -> COPY_STRING cap "" str w = Done str w.
Proof. intros H. by apply (COPY_STRING_fits cap "" str). Qed.

Lemma copy_rows_fits line cap k str n w :
  (forall i w, wp (line i) (fun s _ => (String.length s <= k)%nat) w) ->
  (String.length str + k * n <= cap)%nat ->
  wp (copy_rows line cap str n) (fun r _ => (String.length r <= String.length str + k * n)%nat) w.
Proof.
  intros Hl Hc. unfold copy_rows. pose proof (copy_lines_fits line cap k str (seq 0 n) w) as H.
  rewrite length_seq in H. apply H; [|done]. intros i w' _. apply Hl.
Qed.

(** Steps through reads, writes and the formatting of a line. *)
Ltac line :=
  repeat (apply wp_bind; eapply wp_done; [reflexivity|]); apply wp_ret;
  eapply Nat.le_trans; [apply snprintf_length|unfold ARP_CACHE_ENTRY_TO_STRING_LEN,
    IFACE_ENTRY_TO_STRING_LEN, PWOSPF_ROUTER_LIST_TO_STRING_LEN, HW_RTABLE_ENTRY_TO_STRING_LEN,
    HW_ARP_CACHE_ENTRY_TO_STRING_LEN, HW_LOCAL_IP_FILTER_LEN; lia].

Definition has_mac (addr : bytes) : Prop := length addr = ETH_ADDR_LEN.

Lemma mac_str_done addr w : has_mac addr -> exists s, mem (mac_str addr) w = Done s w.
Proof.
  intros H. destruct addr as [|a [|b [|c [|d [|e [|f [|]]]]]]]; try discriminate H.
  by eexists.
Qed.

Lemma arp_line_fits ttl e w : has_mac (ac_ha e) ->
  wp (arp_line ttl e) (fun s _ => (String.length s <= 81)%nat) w.
Proof.
  intros H. unfold arp_line. apply wp_bind.
  assert (exists t w1, arp_ttl_str ttl e w = Done t w1) as (t & w1 & E).
  { unfold arp_ttl_str. destruct (ac_is_static e =? 0); by eexists _, _. }
  eapply wp_done; [exact E|]. destruct (mac_str_done (ac_ha e) w1 H) as [s Es].
  apply wp_bind. eapply wp_done; [exact Es|]. line.
Qed.

Lemma iface_line_fits e w : has_mac (if_addr e) ->
  wp (iface_line e) (fun s _ => (String.length s <= 99)%nat) w.
Proof.
  intros H. unfold iface_line. destruct (mac_str_done (if_addr e) w H) as [s Es].
  apply wp_bind. eapply wp_done; [exact Es|]. line.
Qed.

Lemma foldl_entries l n : foldl (fun n r => n + (1 + length (pr_interface_list r)))%nat n l =
  (n + num_entries l)%nat.
Proof.
  unfold num_entries. revert n. induction l as [|r l IH]; intros n; simpl; [lia|].
  rewrite IH, (IH (S _)). lia.
Qed.

Lemma num_entries_cons r l : num_entries (r :: l) = (1 + length (pr_interface_list r) + num_entries l)%nat.
Proof. unfold num_entries at 1. simpl. by rewrite foldl_entries. Qed.

Lemma router_list_fits cap interval buf l w :
  (String.length buf + 159 * num_entries l <= cap)%nat ->
  wp (router_list_loop cap interval buf l) (fun _ _ => True) w.
Proof.
  revert buf w. induction l as [|r l IH]; intros buf w Hc; cbn [router_list_loop]; [by apply wp_ret|].
  rewrite num_entries_cons in Hc. apply wp_bind.
  eapply (wp_mono _ (fun s _ => (String.length s <= 159)%nat)); [unfold router_line; line|].
  intros s w1 Hs. cbv beta in Hs. apply wp_bind. eapply wp_done; [apply COPY_STRING_fits; lia|].
  apply wp_bind. eapply wp_mono.
  { apply (copy_lines_fits _ cap 159); [intros; unfold router_iface_line; line|].
    rewrite string_length_app. lia. }
  intros r' w2 Hr. cbv beta in Hr. rewrite string_length_app in Hr. apply IH. lia.
Qed.

Ltac fits := unfold ARP_CACHE_ENTRY_TO_STRING_LEN, IFACE_ENTRY_TO_STRING_LEN,
  PWOSPF_ROUTER_LIST_TO_STRING_LEN, HW_RTABLE_ENTRY_TO_STRING_LEN, HW_ARP_CACHE_ENTRY_TO_STRING_LEN,
  HW_LOCAL_IP_FILTER_LEN in *; lia.

Lemma four_counters_length n0 v0 n1 v1 n2 v2 n3 v3 :
  (String.length (four_counters n0 v0 n1 v1 n2 v2 n3 v3) <= 79)%nat.
Proof. apply snprintf_length. Qed.

(** A step that reads counters. *)
Ltac counter := apply wp_bind; eapply wp_done; [reflexivity|].

Lemma four_counters_fit buf cap n0 v0 n1 v1 n2 v2 n3 v3 w : (String.length buf + 79 <= cap)%nat ->
  wp (COPY_STRING cap buf (four_counters n0 v0 n1 v1 n2 v2 n3 v3))
    (fun r _ => (String.length r <= String.length buf + 79)%nat) w.
Proof.
  intros Hc. pose proof (four_counters_length n0 v0 n1 v1 n2 v2 n3 v3).
  eapply wp_done; [apply COPY_STRING_fits; lia|]. rewrite string_length_app. lia.
Qed.

(** No table but the one of the PWOSPF interfaces can overrun its buffer,
    whatever it holds: the caches and lists of the router, given six bytes per
    MAC address, and the tables of the device, whatever its registers answer. *)
Theorem tables_fit w :
  Forall (fun e => has_mac (ac_ha e)) (arp_cache (w_rs w)) ->
  Forall (fun e => has_mac (if_addr e)) (if_list (w_rs w)) ->
  Forall (fun m => wp m (fun _ _ => True) w)
    [sprint_arp_cache; sprint_if_list; sprint_pwospf_router_list; sprint_hw_rtable;
     sprint_hw_arp_cache; sprint_hw_iface; sprint_hw_local_ip_filter; sprint_hw_drops;
     sprint_hw_oq_drops].
Proof.
  intros Ha Hi. rewrite Forall_forall in Ha. rewrite Forall_forall in Hi. repeat apply Forall_cons_2; [..|by apply Forall_nil_2].
  - unfold sprint_arp_cache. apply wp_bind. eapply wp_done; [reflexivity|].
    apply wp_bind. eapply wp_done; [apply copy_header; lia|].
    eapply wp_mono; [apply (copy_lines_fits _ _ 81); [intros; by apply arp_line_fits, Ha|fits]|done].
  - unfold sprint_if_list. apply wp_bind. eapply wp_done; [reflexivity|].
    apply wp_bind. eapply wp_done; [apply copy_header; lia|].
    eapply wp_mono; [apply (copy_lines_fits _ _ 99); [intros; by apply iface_line_fits, Hi|fits]|done].
  - unfold sprint_pwospf_router_list. apply wp_bind. eapply wp_done; [reflexivity|].
    apply wp_bind. eapply wp_done; [apply copy_header; lia|]. apply router_list_fits. fits.
  - unfold sprint_hw_rtable. apply wp_bind. eapply wp_done; [apply copy_header; lia|].
    eapply wp_mono; [apply (copy_rows_fits _ _ 159); [intros; unfold hw_rtable_line; line|fits]|done].
  - unfold sprint_hw_arp_cache. apply wp_bind. eapply wp_done; [apply copy_header; lia|].
    eapply wp_mono; [apply (copy_rows_fits _ _ 79); [intros; unfold hw_arp_line; line|fits]|done].
  - unfold sprint_hw_iface. apply wp_bind. eapply wp_done; [apply copy_header; lia|].
    eapply wp_mono; [apply (copy_rows_fits _ _ 79); [|unfold HW_IFACE_ENTRY_TO_STRING_LEN; lia]|done].
    intros i w'. unfold hw_iface_line, read_hw_iface_mac. destruct ((0 <=? Z.of_nat i) && _).
    all: repeat (apply wp_bind; eapply wp_done; [reflexivity|]); apply wp_ret;
      eapply Nat.le_trans; [apply snprintf_length|unfold HW_IFACE_ENTRY_TO_STRING_LEN; lia].
  - unfold sprint_hw_local_ip_filter. apply wp_bind. eapply wp_done; [reflexivity|].
    destruct (is_netfpga (w_rs w)); [|by apply wp_ret].
    apply wp_bind. eapply wp_done; [apply copy_header; unfold HW_LOCAL_IP_FILTER_LEN; simpl; lia|].
    eapply wp_mono; [apply (copy_rows_fits _ _ 20); [intros; unfold hw_filter_line; line|]|done].
    change (String.length HW_LOCAL_IP_FILTER_HEADER) with 20%nat. fits.
  - unfold sprint_hw_drops. counter. destruct (is_netfpga (w_rs w)); [|by apply wp_ret].
    do 4 counter. eapply wp_mono; [apply four_counters_fit; unfold HW_DROPS_LEN; simpl; lia|done].
  - unfold sprint_hw_oq_drops. counter. destruct (is_netfpga (w_rs w)); [|by apply wp_ret].
    cbv zeta. do 4 counter. apply wp_bind.
    eapply wp_mono; [apply four_counters_fit; unfold HW_OQ_DROPS_LEN; simpl; lia|].
    intros buf w1 Hb. cbv beta in Hb. change (String.length "") with 0%nat in Hb. do 4 counter.
    eapply wp_mono; [apply four_counters_fit; unfold HW_OQ_DROPS_LEN; lia|done].
Qed.

(** ** The table of the PWOSPF interfaces

    The buffer has room for 256 characters per interface, but there is a line
    per neighbour, of 98 characters at least. *)

Lemma length_str_take n s : String.length (str_take n s) = Nat.min n (String.length s).
Proof. revert s. induction n as [|n IH]; intros [|c s]; simpl; [done..|]. by rewrite IH. Qed.

(** *** The length of a printed number *)

Lemma pretty_abs_length k (x : Z) : (0 < k)%nat -> Z.abs x < 10 ^ Z.of_nat k ->
  (String.length (pretty x) <= S k)%nat.
Proof.
  intros Hk Hx.
  assert (forall p, Z.pos p < 10 ^ Z.of_nat k -> (String.length (pretty_N (N.pos p)) <= k)%nat) as H.
  { intros p Hp. unfold pretty_N. destruct (decide _) as [E|_]; [discriminate E|].
    etrans; [apply (pretty_N_go_length k)|cbn [String.length]; lia]. apply N2Z.inj_lt. rewrite N2Z.inj_pow.
    change (Z.of_N 10) with 10. rewrite nat_N_Z. exact Hp. }
  destruct x as [|p|p]; [simpl; lia|specialize (H p Hx); unfold pretty, pretty_Z, pretty_positive, pretty; lia|].
  specialize (H p Hx). unfold pretty, pretty_Z. rewrite string_length_app.
  unfold pretty, pretty_positive, pretty. change (String.length "-") with 1%nat. lia.
Qed.

(** *** The length of a line *)

Lemma length_if_format name ip mask lsh nid nip lrh a :
  String.length (pwospf_if_format name ip mask lsh nid nip lrh a) =
  Nat.min 255 (Nat.max 5 (String.length name) + Nat.max 20 (String.length ip) +
    Nat.max 20 (String.length mask) + Nat.max 5 (String.length lsh) +
    Nat.max 20 (String.length nid) + Nat.max 20 (String.length nip) +
    Nat.max 5 (String.length lrh) + Nat.max 1 (String.length a) + 2).
Proof.
  unfold pwospf_if_format, snprintf, PWOSPF_IFACE_ENTRY_TO_STRING_LEN.
  rewrite length_str_take, !string_length_app, !length_pad_right.
  change (String.length " ") with 1%nat. change (String.length nl) with 1%nat. lia.
Qed.

Lemma if_format_at_least name ip mask lsh nid nip lrh a :
  (98 <= String.length (pwospf_if_format name ip mask lsh nid nip lrh a))%nat.
Proof. rewrite length_if_format. lia. Qed.

(** The lines of a table: one per interface, and one per neighbour after the first. *)
Definition if_lines (iface : iface_entry) : nat := Nat.max 1 (length (if_nbr_routers iface)).
Definition pwospf_if_lines (l : list iface_entry) : nat := sum_list_with if_lines l.

(** *** The overrun *)

Lemma copy_lines_overruns {A} (f : A -> string) cap k buf l w :
  (forall x, (k <= String.length (f x))%nat) -> (cap < String.length buf + k * length l)%nat ->
  (String.length buf <= cap)%nat ->
  copy_lines (fun x => mret (f x)) cap buf l w = Crashed OutOfBounds w.
Proof.
  revert buf. induction l as [|x l IH]; intros buf Hf Hc Hb; cbn [length] in Hc; [lia|].
  cbn [copy_lines]. erewrite bind_done by reflexivity. specialize (Hf x) as Hx.
  unfold COPY_STRING. destruct (Nat.leb_spec (String.length buf + String.length (f x)) cap); [|done].
  erewrite bind_done by reflexivity. apply IH; [done|rewrite string_length_app; lia..].
Qed.

Lemma copy_lines_longer {A} (f : A -> string) cap k buf l w b w' :
  (forall x, (k <= String.length (f x))%nat) ->
  copy_lines (fun x => mret (f x)) cap buf l w = Done b w' ->
  (String.length buf + k * length l <= String.length b)%nat.
Proof.
  revert buf. induction l as [|x l IH]; intros buf Hf E; cbn [copy_lines length] in *.
  - injection E as <- _. lia.
  - specialize (Hf x) as Hx. apply bind_done_inv in E as (s & w1 & E1 & E). injection E1 as <- <-.
    apply bind_done_inv in E as (b1 & w1 & E1 & E). unfold COPY_STRING in E1.
    destruct (Nat.leb_spec (String.length buf + String.length (f x)) cap); [|done].
    injection E1 as <- <-. apply IH in E; [|done]. rewrite string_length_app in E. lia.
Qed.

(** A copy either fits in what is left of the buffer, or overruns it. *)
Lemma COPY_STRING_cases cap buf str w :
  (COPY_STRING cap buf str w = Done (buf +:+ str) w /\
   (String.length buf + String.length str <= cap)%nat) \/
  (COPY_STRING cap buf str w = Crashed OutOfBounds w /\
   (cap < String.length buf + String.length str)%nat).
Proof.
  unfold COPY_STRING.
  destruct (Nat.leb_spec (String.length buf + String.length str) cap); [left|right]; done.
Qed.

Lemma copy_lines_cases {A} (f : A -> string) cap k buf l w :
  (forall x, (k <= String.length (f x))%nat) -> (String.length buf <= cap)%nat ->
  (exists b, copy_lines (fun x => mret (f x)) cap buf l w = Done b w /\
     (String.length buf + k * length l <= String.length b <= cap)%nat) \/
  copy_lines (fun x => mret (f x)) cap buf l w = Crashed OutOfBounds w.
Proof.
  intros Hf. revert buf. induction l as [|x l IH]; intros buf Hb; cbn [copy_lines length].
  - left. exists buf. split; [done|lia].
  - erewrite bind_done by reflexivity. specialize (Hf x) as Hx.
    destruct (COPY_STRING_cases cap buf (f x) w) as [(E & L)|(E & L)].
    + erewrite bind_done by exact E.
      destruct (IH (buf +:+ f x)) as [(b & -> & Hl)| ->]; rewrite ?string_length_app in *; [lia| |by right].
      left. exists b. split; [done|lia].
    + right. unfold mbind, M_bind. by rewrite E.
Qed.

Lemma pwospf_if_loop_overruns cap hello buf nid nip l w :
  (String.length buf <= cap)%nat -> (cap < String.length buf + 98 * pwospf_if_lines l)%nat ->
  exists w', pwospf_if_loop cap hello buf nid nip l w = Crashed OutOfBounds w'.
Proof.
  revert buf nid nip w. induction l as [|iface l IH]; intros buf nid nip w Hb Hc.
  { unfold pwospf_if_lines in Hc. simpl in Hc. lia. }
  change (pwospf_if_lines (iface :: l)) with (if_lines iface + pwospf_if_lines l)%nat in Hc.
  assert (if_lines iface = S (length (tail (if_nbr_routers iface)))) as Hi.
  { unfold if_lines. destruct (if_nbr_routers iface); simpl; lia. }
  cbn [pwospf_if_loop]. do 2 erewrite bind_done by reflexivity. cbv zeta.
  destruct (match if_nbr_routers iface with [] => _ | _ => _ end) as [[nid1 nip1] lrecv].
  set (line := pwospf_if_format _ _ _ _ _ _ _ _).
  assert (98 <= String.length line)%nat as Hl by apply if_format_at_least. clearbody line.
  match goal with |- exists w', _ ?w2 = _ => destruct (COPY_STRING_cases cap buf line w2) as [(E & L)|(E & L)] end.
  2: { eexists. unfold mbind, M_bind. by rewrite E. }
  erewrite bind_done by exact E.
  match goal with |- exists w', (copy_lines (fun nbr => mret (nbr_line _ ?now nbr)) _ _ _ ≫= _) ?w2 = _ =>
    destruct (copy_lines_cases (nbr_line hello now) cap 98 (buf +:+ line)
      (tail (if_nbr_routers iface)) w2) as [(b & E2 & L2)|E2] end.
  - intros nbr. apply if_format_at_least.
  - rewrite string_length_app. lia.
  - erewrite bind_done by exact E2. rewrite string_length_app in L2.
    destruct (match last _ with Some _ => _ | None => _ end) as [nid2 nip2]. apply IH; lia.
  - eexists. unfold mbind, M_bind. by rewrite E2.
Qed.

(** With more neighbours than the buffer allows for, the table of the PWOSPF
    interfaces is written past the end of its buffer: one interface with three
    neighbours is enough, whatever else they hold. *)
Theorem sprint_pwospf_if_list_overruns w :
  (256 * length (if_list (w_rs w)) < 98 * pwospf_if_lines (if_list (w_rs w)))%nat ->
  exists w', sprint_pwospf_if_list w = Crashed OutOfBounds w'.
Proof.
  intros H. unfold sprint_pwospf_if_list. erewrite bind_done by reflexivity. cbv zeta.
  erewrite bind_done by (apply copy_header; lia).
  apply pwospf_if_loop_overruns; unfold PWOSPF_IFACE_ENTRY_TO_STRING_LEN; lia.
Qed.

(** *** Two neighbours are safe *)

Lemma age_str_length limit age : 0 <= limit < 10 ^ 6 -> - 10 ^ 10 < age ->
  (String.length (age_str limit age) <= 11)%nat.
Proof.
  intros Hl Ha. unfold age_str. etrans; [unfold snprintf; rewrite length_str_take; apply Nat.le_min_r|].
  destruct (Z.ltb_spec limit age); [simpl; lia|]. apply (pretty_abs_length 10); [lia|].
  change (10 ^ Z.of_nat 10) with (10 ^ 10). lia.
Qed.

(** What the neighbours of an interface hold: addresses, and times of a clock
    of 31 bits. *)
Definition nbr_shown (nbr : nbr_router) : Prop :=
  is_u32 (nbr_router_id nbr) /\ is_u32 (nbr_ip nbr) /\ is_time (nbr_last_rcvd_hello nbr).
Definition iface_shown (iface : iface_entry) : Prop :=
  is_u32 (if_ip iface) /\ is_u32 (if_mask iface) /\ is_time (if_last_sent_hello iface) /\
  Forall nbr_shown (if_nbr_routers iface) /\ (length (if_nbr_routers iface) <= 2)%nat.

Lemma address_length (b : bool) ip : is_u32 ip -> (String.length (if b then inet_ntop ip else "") <= 15)%nat.
Proof. intros H. destruct b; [by apply inet_ntop_length|simpl; lia]. Qed.

Lemma hello_age limit now last : is_u16 limit -> is_time now -> is_time last ->
  (String.length (age_str limit (now - last)) <= 11)%nat /\
  (String.length (age_str (3 * limit) (now - last)) <= 11)%nat.
Proof.
  unfold is_u16, is_time. intros Hl Hn Ht. change (2 ^ 16) with 65536 in Hl. change (2 ^ 31) with 2147483648 in *.
  split; apply age_str_length; lia.
Qed.

Lemma nbr_line_length hello now nbr : is_u16 hello -> is_time now -> nbr_shown nbr ->
  (String.length (nbr_line hello now nbr) <= 104)%nat.
Proof.
  intros Hh Hn (H1 & H2 & H3). unfold nbr_line. rewrite length_if_format.
  pose proof (inet_ntop_length _ H1). pose proof (inet_ntop_length _ H2).
  destruct (hello_age hello now _ Hh Hn H3). simpl String.length. lia.
Qed.

(** The line of an interface, with the first neighbour it shows. *)
Lemma if_line_length hello now name ip mask sent (known : bool) nid nip lrecv (active : bool) :
  is_u16 hello -> is_time now -> is_time sent ->
  is_u32 ip -> is_u32 mask -> is_u32 nid -> is_u32 nip -> (String.length lrecv <= 11)%nat ->
  (String.length (pwospf_if_format (snprintf PWOSPF_IFACE_MAX_IFACE_LEN name)
     (inet_ntop ip) (inet_ntop mask) (age_str hello (now - sent))
     (if known then inet_ntop nid else "") (if known then inet_ntop nip else "")
     (if known then lrecv else "") (yes_no active)) <= 125)%nat.
Proof.
  intros Hh Hnow Hsent Hip Hmask Hnid Hnip Hr. rewrite length_if_format.
  pose proof (inet_ntop_length _ Hip). pose proof (inet_ntop_length _ Hmask).
  pose proof (address_length known _ Hnid). pose proof (address_length known _ Hnip).
  destruct (hello_age hello now _ Hh Hnow Hsent) as [Ha _].
  pose proof (snprintf_length PWOSPF_IFACE_MAX_IFACE_LEN name) as Hname.
  change (PWOSPF_IFACE_MAX_IFACE_LEN - 1)%nat with 20%nat in Hname.
  assert (String.length (if known then lrecv else "") <= 11)%nat by (destruct known; simpl; lia).
  assert (String.length (yes_no active) = 1)%nat by (by destruct active). lia.
Qed.

Lemma last_nbr_shown (l : list nbr_router) nid nip : is_u32 nid -> is_u32 nip -> Forall nbr_shown l ->
  exists nid' nip', is_u32 nid' /\ is_u32 nip' /\
    match last l with Some nbr => (nbr_router_id nbr, nbr_ip nbr) | None => (nid, nip) end = (nid', nip').
Proof.
  intros H1 H2 Hl. destruct (last l) as [nbr|] eqn:E; [|by exists nid, nip].
  apply last_Some in E as [l' ->]. apply Forall_app in Hl as [_ Hl].
  apply Forall_cons in Hl as [(? & ? & _) _]. eauto.
Qed.

Lemma first_nbr_shown hello now (l : list nbr_router) nid nip :
  is_u16 hello -> is_time now -> is_u32 nid -> is_u32 nip -> Forall nbr_shown l ->
  exists nid' nip' lrecv, is_u32 nid' /\ is_u32 nip' /\ (String.length lrecv <= 11)%nat /\
    match l with
    | nbr :: _ => (nbr_router_id nbr, nbr_ip nbr, age_str (3 * hello) (now - nbr_last_rcvd_hello nbr))
    | [] => (nid, nip, "")
    end = (nid', nip', lrecv).
Proof.
  intros Hh Hnow H1 H2 Hl. destruct l as [|nbr l].
  - exists nid, nip, "". split_and!; [done..|simpl; lia|done].
  - apply Forall_cons in Hl as [(? & ? & ?) _]. eexists _, _, _. split_and!; [..|done]; [done..|].
    by apply hello_age.
Qed.

Lemma pwospf_if_loop_fits cap hello buf nid nip l w :
  is_u16 hello -> (forall k, is_time (env_time (w_env w) k)) -> is_u32 nid -> is_u32 nip ->
  Forall iface_shown l -> (String.length buf + 256 * length l <= cap)%nat ->
  wp (pwospf_if_loop cap hello buf nid nip l) (fun _ _ => True) w.
Proof.
  intros Hh. revert buf nid nip w. induction l as [|iface l IH]; intros buf nid nip w Ht Hnid Hnip Hl Hc.
  { by apply wp_ret. }
  apply Forall_cons in Hl as [(Hip & Hmask & Hsent & Hn & Hn2) Hl]. cbn [pwospf_if_loop length] in *.
  do 2 (apply wp_bind; eapply wp_done; [reflexivity|]). cbv zeta. cbn [w_env w_tick].
  destruct (first_nbr_shown hello (env_time (w_env w) (S (w_tick w))) _ _ _ Hh (Ht _) Hnid Hnip Hn)
    as (nid1 & nip1 & lrecv & Hnid1 & Hnip1 & Hr & ->).
  set (line := pwospf_if_format _ _ _ _ _ _ _ _).
  assert (String.length line <= 125)%nat as Hline by (by apply if_line_length). clearbody line.
  assert (length (tail (if_nbr_routers iface)) <= 1)%nat as Hlen by (destruct (if_nbr_routers iface); simpl in *; lia).
  assert (Forall nbr_shown (tail (if_nbr_routers iface))) as Hn' by (destruct Hn; [constructor|done]).
  apply wp_bind. eapply wp_done; [apply COPY_STRING_fits; lia|].
  assert (forall nbr, nbr ∈ tail (if_nbr_routers iface) ->
    String.length (nbr_line hello (env_time (w_env w) (S (w_tick w))) nbr) <= 104)%nat as Hlines.
  { intros nbr Hnbr. apply nbr_line_length; [done|apply Ht|]. rewrite Forall_forall in Hn'. by apply Hn'. }
  apply wp_bind. eapply wp_done.
  { apply (copy_lines_text _ (nbr_line hello (env_time (w_env w) (S (w_tick w)))) _ 104).
    - intros nbr w' Hnbr. split; [done|by apply Hlines].
    - rewrite string_length_app. lia. }
  set (others := join_text _). assert (String.length others <= 104)%nat as Ho.
  { unfold others. destruct (tail (if_nbr_routers iface)) as [|nbr [|]]; simpl in Hlen |- *; [lia| |lia].
    rewrite str_app_nil_r. apply Hlines, list_elem_of_here. }
  destruct (last_nbr_shown _ nid1 nip1 Hnid1 Hnip1 Hn') as (nid2 & nip2 & ? & ? & ->).
  apply IH; [apply Ht|done..|]. rewrite !string_length_app. lia.
Qed.

(** While no interface has more than two neighbours, the table of the PWOSPF
    interfaces fits its buffer: the theorem above has the first case beyond. *)
Theorem sprint_pwospf_if_list_fits w :
  is_u16 (pwospf_hello_interval (w_rs w)) -> (forall k, is_time (env_time (w_env w) k)) ->
  Forall iface_shown (if_list (w_rs w)) -> wp sprint_pwospf_if_list (fun _ _ => True) w.
Proof.
  intros Hh Ht Hl. unfold sprint_pwospf_if_list. apply wp_bind. eapply wp_done; [reflexivity|]. cbv zeta.
  apply wp_bind. eapply wp_done; [apply copy_header; lia|].
  apply pwospf_if_loop_fits; [done..|unfold PWOSPF_IFACE_ENTRY_TO_STRING_LEN; lia].
Qed.
