(* ===== verification/CliTheorems.v ===== *)
(** The command line: a command reaches the handler of its longest registered
    prefix, whatever the order of the table; the requests of a client are
    served one by one although its buffer is not cleared between them; and the
    commands that change the state do to it what their text says. *)

From S2P Require Import Prelude Words Bytes State Nodes CStrings Sorting Netfpga Rtable Headers.
From S2P Require Import Packets Iface Arp Icmp Dijkstra Pwospf IfaceCtl Sprint Ip Sping Cli Main.
From S2P Require Import SprintTheorems LockOrder.
From Stdlib Require Import Ascii.
From stdpp Require Import pretty.
Local Open Scope Z_scope.

(** ** The longest registered prefix *)

(** The reference: an entry is a candidate when its text begins the command. *)
Definition candidate (command : string) (ce : cli_entry) : Prop :=
  String.prefix (ce_command ce) command = true.

Definition entry_len (ce : cli_entry) : nat := String.length (ce_command ce).

(** The entries the loop considers are the candidates. *)
Lemma strncmp_prefix p s :
  (String.length p <=? String.length s)%nat && strncmp_eq s p (String.length p) = String.prefix p s.
Proof.
  unfold strncmp_eq. revert s. induction p as [|a p IH]; intros [|b s]; [done..|].
  cbn [String.length str_take String.prefix]. rewrite <- IH.
  change (S (String.length p) <=? S (String.length s))%nat with (String.length p <=? String.length s)%nat.
  cbn [String.eqb]. destruct (ascii_dec a b) as [->|Hn].
  - by rewrite Ascii.eqb_refl.
  - destruct (Ascii.eqb_spec b a) as [->|]; [done|]. apply andb_false_r.
Qed.

Lemma lpm_loop_spec command n longest best :
  let r := cli_command_lpm_loop command n longest best in
  (r = best /\ forall ce, ce ∈ n -> candidate command ce -> (entry_len ce <= longest)%nat) \/
  (exists ce, r = Some ce /\ ce ∈ n /\ candidate command ce /\ (longest < entry_len ce)%nat /\
     forall ce', ce' ∈ n -> candidate command ce' -> (entry_len ce' <= entry_len ce)%nat).
Proof.
  unfold candidate, entry_len. revert longest best.
  induction n as [|ce n IH]; intros longest best; cbn [cli_command_lpm_loop].
  { left. split; [done|]. intros ce Hce. by apply elem_of_nil in Hce. }
  rewrite <- andb_assoc, strncmp_prefix.
  destruct (Nat.ltb_spec longest (String.length (ce_command ce))) as [Hl|Hl];
    [destruct (String.prefix (ce_command ce) command) eqn:Hp|]; cbn [andb].
  - right. destruct (IH (String.length (ce_command ce)) (Some ce)) as [[-> Hn]|(ce1 & -> & H1 & H2 & H3 & Hn)].
    + exists ce. split_and!; [done|by left|done|done|]. intros ce' [->|Hce']%elem_of_cons; [lia|by apply Hn].
    + exists ce1. split_and!; [done|by right|done|lia|]. intros ce' [->|Hce']%elem_of_cons; [lia|by apply Hn].
  - destruct (IH longest best) as [[-> Hn]|(ce1 & -> & H1 & H2 & H3 & Hn)]; [left|right].
    + split; [done|]. intros ce' [->|Hce']%elem_of_cons; [by rewrite Hp|by apply Hn].
    + exists ce1. split_and!; [done|by right|done|lia|].
      intros ce' [->|Hce']%elem_of_cons; [by rewrite Hp|by apply Hn].
  - destruct (IH longest best) as [[-> Hn]|(ce1 & -> & H1 & H2 & H3 & Hn)]; [left|right].
    + split; [done|]. intros ce' [->|Hce']%elem_of_cons; [lia|by apply Hn].
    + exists ce1. split_and!; [done|by right|done|lia|].
      intros ce' [->|Hce']%elem_of_cons; [lia|by apply Hn].
Qed.

(** The entry a command is for. *)
Definition longest_prefix (commands : list cli_entry) (command : string) (ce : cli_entry) : Prop :=
  ce ∈ commands /\ candidate command ce /\ (0 < entry_len ce)%nat /\
  forall ce', ce' ∈ commands -> candidate command ce' -> (entry_len ce' <= entry_len ce)%nat.

Definition distinct_commands (commands : list cli_entry) : Prop := NoDup (ce_command <$> commands).

Lemma prefix_same_length a b s : String.prefix a s = true -> String.prefix b s = true ->
  String.length a = String.length b -> a = b.
Proof.
  revert a b. induction s as [|c s IH]; intros [|x a] [|y b]; try done.
  cbn [String.prefix]. destruct (ascii_dec x c) as [->|]; [|done]. destruct (ascii_dec y c) as [->|]; [|done].
  intros Ha Hb [= Hl]. f_equal. by apply IH.
Qed.

Lemma longest_prefix_unique commands command a b : distinct_commands commands ->
  longest_prefix commands command a -> longest_prefix commands command b -> a = b.
Proof.
  intros Hd (Ha & Pa & _ & La) (Hb & Pb & _ & Lb).
  assert (ce_command a = ce_command b) as E.
  { eapply prefix_same_length; [exact Pa|exact Pb|].
    pose proof (La b Hb Pb). pose proof (Lb a Ha Pa). unfold entry_len in *. lia. }
  apply list_elem_of_lookup in Ha as [i Hi]. apply list_elem_of_lookup in Hb as [j Hj].
  assert (i = j) as ->; [|congruence].
  eapply (NoDup_lookup _ i j _ Hd); rewrite list_lookup_fmap; [by rewrite Hi|by rewrite Hj, E].
Qed.

(** The handler of a command is the one of the longest registered prefix of
    the command, and there is none exactly when no registered command begins
    it: the walk of the list is the lookup of a table by longest prefix. *)
Theorem cli_command_lpm_correct commands command : distinct_commands commands ->
  (forall h, cli_command_lpm commands command = Some h <->
     exists ce, longest_prefix commands command ce /\ ce_handler ce = h) /\
  (cli_command_lpm commands command = None <->
     forall ce, ce ∈ commands -> candidate command ce -> entry_len ce = 0%nat).
Proof.
  intros Hd. unfold cli_command_lpm.
  destruct (lpm_loop_spec command commands 0 None) as [[-> Hn]|(ce & -> & H1 & H2 & H3 & Hn)]; simpl.
  - split.
    + intros h. split; [done|]. intros (ce & (H1 & H2 & H3 & _) & _). specialize (Hn ce H1 H2). lia.
    + split; [|done]. intros _ ce H1 H2. specialize (Hn ce H1 H2). lia.
  - assert (longest_prefix commands command ce) as Hl by done. split.
    + intros h. split; [intros [= <-]; by exists ce|]. intros (ce' & Hl' & <-).
      by rewrite (longest_prefix_unique commands command ce' ce).
    + split; [done|]. intros H. specialize (H ce H1 H2). lia.
Qed.

(** ** The table of the router *)

#[export] Instance longest_prefix_Proper :
  Proper ((≡ₚ) ==> (=) ==> (=) ==> iff) longest_prefix.
Proof.
  intros l1 l2 Hl command ? <- ce ? <-. unfold longest_prefix. rewrite Hl.
  by setoid_rewrite Hl.
Qed.

#[export] Instance distinct_commands_Proper : Proper ((≡ₚ) ==> iff) distinct_commands.
Proof. intros l1 l2 Hl. unfold distinct_commands. by rewrite Hl. Qed.

(** The order of the table does not matter. *)
Lemma cli_command_lpm_perm l1 l2 command : l1 ≡ₚ l2 -> distinct_commands l1 ->
  cli_command_lpm l1 command = cli_command_lpm l2 command.
Proof.
  intros Hl H1. assert (distinct_commands l2) as H2 by (by rewrite <- Hl).
  destruct (cli_command_lpm_correct l1 command H1) as [S1 _].
  destruct (cli_command_lpm_correct l2 command H2) as [S2 _].
  destruct (cli_command_lpm l2 command) as [h|] eqn:E2.
  - apply S1. setoid_rewrite Hl. by apply S2.
  - destruct (cli_command_lpm l1 command) as [h|] eqn:E1; [|done].
    assert (None = Some h); [|done]. apply S2. setoid_rewrite <- Hl. by apply S1.
Qed.

Lemma cli_commands_distinct : distinct_commands cli_commands.
Proof. unfold distinct_commands. apply (bool_decide_unpack _). vm_compute. exact I. Qed.

(** Every registered text, as the text of a command. *)
Lemma cli_commands_reached :
  forallb (fun ce => match cli_command_lpm cli_commands (ce_command ce) with
                     | Some h => bool_decide (h = ce_handler ce)
                     | None => false
                     end) cli_commands = true.
Proof. vm_compute. reflexivity. Qed.

(** *** Commands with arguments *)

(** What a text says after [t] and a space: nothing when it does not extend
    them, else its next character, if any. *)
Fixpoint after_space (t p : string) : option (option ascii) :=
  match t, p with
  | String a t', String b p' => if Ascii.eqb a b then after_space t' p' else None
  | EmptyString, String b p' =>
      if Ascii.eqb b " " then Some (match p' with EmptyString => None | String c _ => Some c end) else None
  | _, EmptyString => None
  end.

(** The only longer registered texts are its help. *)
Definition takes_arguments (ce : cli_entry) : bool :=
  forallb (fun ce' => match after_space (ce_command ce) (ce_command ce') with
                      | None => true
                      | Some None => false
                      | Some (Some c) => Ascii.eqb c "?"
                      end) cli_commands.

Definition with_argument (ce : cli_entry) (c : ascii) (rest : string) : string :=
  ce_command ce +:+ String " " (String c rest).

Lemma prefix_app t s : String.prefix t (t +:+ s) = true.
Proof.
  induction t as [|a t IH]; [by destruct s|].
  change (String a t +:+ s) with (String a (t +:+ s)). cbn [String.prefix].
  by destruct (ascii_dec a a).
Qed.

Lemma longer_prefix t c rest p : String.prefix p (t +:+ String " " (String c rest)) = true ->
  (String.length t < String.length p)%nat ->
  after_space t p = Some None \/ after_space t p = Some (Some c).
Proof.
  revert p. induction t as [|a t IH]; intros [|b p]; cbn [String.length]; try lia.
  - change ("" +:+ String " " (String c rest)) with (String " " (String c rest)).
    cbn [String.prefix after_space]. destruct (ascii_dec b " ") as [->|]; [|done]. intros Hp _.
    destruct p as [|d p]; [by left|right]. cbn [String.prefix] in Hp.
    destruct (ascii_dec d c) as [->|]; done.
  - change (String a t +:+ String " " (String c rest)) with (String a (t +:+ String " " (String c rest))).
    cbn [String.prefix after_space]. destruct (ascii_dec b a) as [->|]; [|done].
    rewrite Ascii.eqb_refl. intros. apply IH; [done|lia].
Qed.

Lemma argument_reached ce c rest : ce ∈ cli_commands -> takes_arguments ce = true -> c ≠ "?"%char ->
  (0 < entry_len ce)%nat ->
  cli_command_lpm cli_commands (with_argument ce c rest) = Some (ce_handler ce).
Proof.
  intros Hce Ht Hc Hl. apply (cli_command_lpm_correct _ _ cli_commands_distinct). exists ce. split; [|done].
  split_and!; [done|apply prefix_app|done|]. intros ce' Hce' Hp.
  destruct (Nat.le_gt_cases (entry_len ce') (entry_len ce)) as [|Hgt]; [done|].
  unfold takes_arguments in Ht. rewrite forallb_forall in Ht.
  specialize (Ht ce' (proj1 (list_elem_of_In _ _) Hce')).
  destruct (longer_prefix _ _ _ _ Hp Hgt) as [E|E]; rewrite E in Ht; [done|].
  by apply Ascii.eqb_eq in Ht.
Qed.

Section Dispatch.
Context `{StrcmpLaws}.

Lemma cli_swap_asym a b : cli_swap a b = true -> cli_swap b a = false.
Proof.
  unfold cli_swap. rewrite Z.eqb_eq, Z.eqb_neq. intros E.
  pose proof (strcmp_antisym (ce_command a) (ce_command b)). lia.
Qed.

(** The table is built, however the library's [strcmp] orders it: every
    registered text reaches its own handler, and so does one followed by a
    space and arguments, for the texts that only their help extends. *)
Theorem init_cli_dispatch : exists commands, init_cli = Some commands /\
  (forall command, cli_command_lpm commands command = cli_command_lpm cli_commands command) /\
  (forall ce, ce ∈ cli_commands -> cli_command_lpm commands (ce_command ce) = Some (ce_handler ce)) /\
  (forall ce c rest, ce ∈ cli_commands -> takes_arguments ce = true -> c ≠ "?"%char ->
     cli_command_lpm commands (with_argument ce c rest) = Some (ce_handler ce)).
Proof.
  destruct (bubble_sort_spec cli_swap cli_swap_asym cli_commands) as (commands & E & Hp & _).
  assert (forall command, cli_command_lpm commands command = cli_command_lpm cli_commands command) as Hl.
  { intros command. apply cli_command_lpm_perm; [done|]. rewrite Hp. apply cli_commands_distinct. }
  exists commands. split_and!; [done|done|..].
  - intros ce Hce. rewrite Hl. pose proof cli_commands_reached as Hr. rewrite forallb_forall in Hr.
    specialize (Hr ce (proj1 (list_elem_of_In _ _) Hce)).
    destruct (cli_command_lpm _ _) as [h|]; [|done]. by apply bool_decide_eq_true in Hr as ->.
  - intros ce c rest Hce Ht Hc. rewrite Hl. apply argument_reached; [done..|].
    assert (forallb (fun ce => 0 <? entry_len ce)%nat cli_commands = true) as Hn by reflexivity.
    rewrite forallb_forall in Hn. apply Nat.ltb_lt, Hn, list_elem_of_In, Hce.
Qed.

End Dispatch.

(** ** Route commands *)

Lemma inet_ntop_head ip : is_u32 ip -> exists c s, inet_ntop ip = String c s /\ c ≠ "?"%char.
Proof.
  intros H. destruct (ip_octets ip H) as (Ha & _). destruct (octet_pretty _ Ha) as (_ & Da & La).
  unfold inet_ntop. destruct (pretty (ip mod 2 ^ 8)) as [|c s]; [simpl in La; lia|].
  exists c. eexists. split; [reflexivity|]. simpl in Da. apply andb_true_iff in Da as [Dc _].
  intros ->. discriminate Dc.
Qed.

(** Words, each after a space, and the directives that read them. *)
Definition spaced (ws : list string) : list ascii := concat (map (fun s => " "%char :: chars s) ws).
Definition word_directives (n : nat) : list directive := concat (replicate n [FSpace; FStr]).

Lemma ends_word_spaced ws : ends_word (spaced ws) = true.
Proof. by destruct ws. Qed.

Lemma scan_words ws : Forall is_word ws -> scan (word_directives (length ws)) (spaced ws) = map AStr ws.
Proof.
  induction 1 as [|s ws Hs Hws IH]; [done|].
  change (word_directives (length (s :: ws))) with (FSpace :: FStr :: word_directives (length ws)).
  change (spaced (s :: ws)) with (replicate 1 " "%char ++ chars s ++ spaced ws).
  rewrite scan_space_word, scan_word_text by (done || apply ends_word_spaced). cbn [map]. by rewrite IH.
Qed.

Lemma chars_text t ws : chars (t +:+ join_text (map (fun s => " " +:+ s) ws)) = chars t ++ spaced ws.
Proof.
  rewrite chars_app. f_equal. induction ws as [|s ws IH]; [done|].
  change (join_text (map (fun s => " " +:+ s) (s :: ws))) with
    ((" " +:+ s) +:+ join_text (map (fun s => " " +:+ s) ws)).
  rewrite !chars_app, IH. done.
Qed.

(** The text of a command with arguments. *)
Definition command_text (t : string) (ws : list string) : string := t +:+ join_text (map (fun s => " " +:+ s) ws).

Lemma ip_route_add_scan dest gateway mask interface :
  Forall is_word [dest; gateway; mask; interface] ->
  sscanf (command_text "ip route add" [dest; gateway; mask; interface]) "ip route add %as %as %as %as" =
    map AStr [dest; gateway; mask; interface].
Proof.
  intros H. unfold sscanf, command_text. rewrite chars_text.
  change (scan (word_directives 4) (spaced [dest; gateway; mask; interface]) =
    map AStr [dest; gateway; mask; interface]).
  by apply (scan_words [dest; gateway; mask; interface]).
Qed.

Lemma ip_route_del_scan dest mask : Forall is_word [dest; mask] ->
  sscanf (command_text "ip route del" [dest; mask]) "ip route del %as %as" = map AStr [dest; mask].
Proof.
  intros H. unfold sscanf, command_text. rewrite chars_text.
  change (scan (word_directives 2) (spaced [dest; mask]) = map AStr [dest; mask]).
  by apply (scan_words [dest; mask]).
Qed.

Ltac registered := unfold cli_commands; apply list_elem_of_In; simpl; tauto.

(** A command of the table with arguments is given to its handler. *)
Lemma handle_argument `{StrcmpLaws} cx commands fd ce c rest :
  init_cli = Some commands -> ce ∈ cli_commands -> takes_arguments ce = true -> c ≠ "?"%char ->
  let req := mk_cli_request fd (with_argument ce c rest) in
  handle_command cx commands req = call_handler cx (ce_handler ce) req.
Proof.
  intros Hi Hce Ht Hc req. destruct init_cli_dispatch as (commands' & Hi' & _ & _ & Ha).
  assert (commands' = commands) as -> by congruence.
  unfold handle_command, req. cbn [req_command]. by rewrite Ha.
Qed.

(** One whose first argument is a word. *)
Lemma handle_words `{StrcmpLaws} cx commands fd ce word ws :
  init_cli = Some commands -> ce ∈ cli_commands -> takes_arguments ce = true ->
  is_word word -> String.prefix "?" word = false ->
  let req := mk_cli_request fd (command_text (ce_command ce) (word :: ws)) in
  handle_command cx commands req = call_handler cx (ce_handler ce) req.
Proof.
  intros Hi Hce Ht [Hw _] Hq. destruct word as [|c s]; [done|].
  assert (c ≠ "?"%char) as Hc by (intros ->; by destruct s).
  apply (handle_argument cx commands fd ce c (s +:+ join_text (map (fun s => " " +:+ s) ws)) Hi Hce Ht Hc).
Qed.

Lemma inet_ntop_no_help ip : is_u32 ip -> String.prefix "?" (inet_ntop ip) = false.
Proof.
  intros H. destruct (inet_ntop_head ip H) as (c & s & -> & Hc). cbn [String.prefix].
  destruct (ascii_dec "?" c); [congruence|done].
Qed.

(** The last thing sent to a client. *)
Definition replied (fd : Z) (text : string) (w : world) : Prop :=
  last (w_trace w) = Some (EvSocket fd text).

Lemma reply fd text w : wp (send_to_socket fd text) (fun _ w' => w_rs w' = w_rs w /\ replied fd text w') w.
Proof. eapply wp_done; [reflexivity|]. split; [done|]. unfold replied. cbn [w_trace]. by rewrite last_snoc. Qed.

(** C24: The command [ip route add] with addresses as the tables print them adds
    that route to the sorted table, under the table's lock, and says so. *)
Theorem ip_route_add_correct `{StrcmpLaws} cx commands fd dest gateway mask interface w :
  init_cli = Some commands -> is_u32 dest -> is_u32 gateway -> is_u32 mask -> is_word interface ->
  names_ok (rtable (w_rs w)) -> is_Some (one_hot interface) ->
  wp (handle_command cx commands (mk_cli_request fd
        (command_text "ip route add" [inet_ntop dest; inet_ntop gateway; inet_ntop mask; interface])))
    (fun _ w' =>
       (exists l, w_rs w' = set_rtable l (w_rs w) /\ routes_sorted l /\
          l ≡ₚ mk_rtable_entry dest gateway mask interface true true :: rtable (w_rs w)) /\
       replied fd ("Successfully added route." +:+ nl) w') w.
Proof.
  intros Hi Hd Hg Hm Hw Hn Ho.
  rewrite (handle_words cx commands fd (mk_cli_entry "ip route add" Cli_ip_route_add));
    [|done|registered|reflexivity|by apply inet_ntop_word|by apply inet_ntop_no_help].
  cbn [ce_handler call_handler ce_command]. unfold cli_ip_route_add. cbn [req_command].
  rewrite ip_route_add_scan by (repeat constructor; try apply inet_ntop_word; done || apply Hw).
  cbn [map]. rewrite !inet_pton_ntop by done.
  apply wp_bind. eapply wp_done; [reflexivity|]. apply wp_bind.
  eapply wp_mono; [by apply add_route_correct|]. intros r w1 (-> & l & E & Hs & Hp).
  apply wp_bind. eapply wp_done; [reflexivity|]. cbn [negb Z.eqb].
  eapply wp_mono; [apply reply|]. intros [] w2 [E2 Hr]. split; [|done]. exists l. rewrite E2. by split_and!.
Qed.

(** The command [ip route del] deletes the routes with the destination and the
    mask it names, and tells how many they were. *)
Theorem ip_route_del_correct `{StrcmpLaws} cx commands fd dest mask w :
  init_cli = Some commands -> is_u32 dest -> is_u32 mask -> names_ok (rtable (w_rs w)) ->
  let gone := length (bfilter (route_is dest mask) (rtable (w_rs w))) in
  wp (handle_command cx commands (mk_cli_request fd
        (command_text "ip route del" [inet_ntop dest; inet_ntop mask])))
    (fun _ w' =>
       (exists l, w_rs w' = set_rtable l (w_rs w) /\ routes_sorted l /\
          l ≡ₚ bfilter (fun e => negb (route_is dest mask e)) (rtable (w_rs w))) /\
       replied fd (snprintf 256 (fmt_d (Z.of_nat gone) +:+
         (if (gone =? 1)%nat then " route deleted." else " routes deleted.") +:+ nl)) w') w.
Proof.
  intros Hi Hd Hm Hn gone.
  rewrite (handle_words cx commands fd (mk_cli_entry "ip route del" Cli_ip_route_del));
    [|done|registered|reflexivity|by apply inet_ntop_word|by apply inet_ntop_no_help].
  cbn [ce_handler call_handler ce_command]. unfold cli_ip_route_del. cbn [req_command].
  rewrite ip_route_del_scan by (repeat constructor; by apply inet_ntop_word).
  cbn [map]. rewrite !inet_pton_ntop by done.
  apply wp_bind. eapply wp_done; [reflexivity|]. apply wp_bind.
  eapply wp_mono; [by apply del_route_correct|]. intros r w1 (-> & l & E & Hs & Hp).
  apply wp_bind. eapply wp_done; [reflexivity|].
  eapply wp_mono; [apply reply|]. intros [] w2 [E2 Hr].
  split; [exists l; rewrite E2; by split_and!|].
  cbn [req_sockfd w_rs] in Hr. fold gone in Hr. assert ((Z.of_nat gone =? 1) = (gone =? 1)%nat) as E1.
  { apply eq_true_iff_eq. rewrite Nat.eqb_eq, Z.eqb_eq. lia. }
  rewrite E1 in Hr. by destruct (gone =? 1)%nat.
Qed.

(** ** The requests of a client *)

Definition CR : ascii := ascii_of_nat 13.
Definition LF : ascii := ascii_of_nat 10.

(** A line a terminal sends: the command and its terminator, shorter than the
    buffer. *)
Definition line_char (c : ascii) : bool :=
  negb (Ascii.eqb c NUL) && negb ((code c =? 13) || (code c =? 10)).
Definition is_line (command : string) : Prop :=
  forallb line_char (chars command) = true /\ (String.length command + 2 < MAX_COMMAND_SIZE)%nat /\
  strncmp_eq command "exit" 4 = false.
Definition line_of (command : string) : recv_result := Received (chars command ++ [CR; LF]).

(** A server without a buffer. *)
Fixpoint serve (cx : cli_context) (commands : list cli_entry) (fd : Z) (lines : list string) : M bool :=
  match lines with
  | [] => mret false
  | command :: lines' =>
      handle_command cx commands (mk_cli_request fd command);;
      prompt fd;;
      serve cx commands fd lines'
  end.

(** What is kept of the buffer: its size, and its last character is null. *)
Definition buffer_ok (buf : list ascii) : Prop :=
  length buf = MAX_COMMAND_SIZE /\ last buf = Some NUL.

Lemma c_string_Some l : NUL ∈ l -> is_Some (c_string l).
Proof.
  induction l as [|c l IH]; intros H; [by apply elem_of_nil in H|]. cbn [c_string].
  destruct (Ascii.eqb_spec c NUL) as [->|Hn]; [eauto|].
  apply elem_of_cons in H as [<-|H]; [done|]. destruct (IH H) as [s ->]. simpl. eauto.
Qed.

Lemma clean_buffer_length buf : length (clean_buffer buf) = length buf.
Proof.
  induction buf as [|c buf IH]; [done|]. cbn [clean_buffer]. destruct (Ascii.eqb c NUL); [done|].
  simpl. by rewrite IH.
Qed.

Lemma clean_buffer_last buf : last buf = Some NUL -> last (clean_buffer buf) = Some NUL.
Proof.
  induction buf as [|c buf IH]; [done|]. cbn [clean_buffer]. destruct (Ascii.eqb_spec c NUL) as [->|Hn]; [done|].
  destruct buf as [|d buf]; [intros [= ->]; done|].
  intros H. change (last (c :: d :: buf)) with (last (d :: buf)) in H. specialize (IH H).
  remember (clean_buffer (d :: buf)) as l. destruct l as [|x l]; [done|exact IH].
Qed.

Lemma last_In {A} (l : list A) x : last l = Some x -> x ∈ l.
Proof. intros H. apply last_Some in H as [l' ->]. set_solver. Qed.

(** The command that is read, whatever followed it in the buffer. *)
Lemma clean_line command rest : forallb line_char (chars command) = true ->
  c_string (clean_buffer (chars command ++ CR :: rest)) = Some command.
Proof.
  induction command as [|c command IH]; [done|]. cbn [chars app forallb clean_buffer].
  intros H. apply andb_true_iff in H as [Hc H]. unfold line_char in Hc. apply andb_true_iff in Hc as [Hn Hl].
  apply negb_true_iff in Hn, Hl. rewrite Hn, Hl. cbn [c_string]. rewrite Hn. by rewrite IH.
Qed.

Lemma received_ok buf data : buffer_ok buf -> (length data < MAX_COMMAND_SIZE)%nat ->
  buffer_ok (data ++ drop (length data) buf).
Proof.
  intros [Hl Hb] Hd. split; [rewrite length_app, length_drop; lia|].
  rewrite last_app. assert (last (drop (length data) buf) = Some NUL) as ->; [|done].
  rewrite last_lookup in *. rewrite lookup_drop, length_drop, <- Hb. f_equal. lia.
Qed.

Lemma clean_ok buf : buffer_ok buf -> buffer_ok (clean_buffer buf).
Proof. intros [Hl Hb]. split; [by rewrite clean_buffer_length|by apply clean_buffer_last]. Qed.

Lemma client_loop_serves cx commands fd buf lines w : buffer_ok buf -> Forall is_line lines ->
  client_loop cx commands fd buf (map line_of lines) w = serve cx commands fd lines w.
Proof.
  intros Hb Hl. revert buf w Hb. induction Hl as [|command lines (Hc & Hlen & He) Hl IH]; intros buf w Hb; [done|].
  cbn [map line_of client_loop serve]. set (data := chars command ++ [CR; LF]).
  assert (length data < MAX_COMMAND_SIZE)%nat as Hd.
  { unfold data. rewrite length_app, length_chars. simpl. lia. }
  pose proof (received_ok buf data Hb Hd) as Hb1. set (buf1 := data ++ _) in *.
  destruct (c_string_Some buf1) as [s Hs]; [apply last_In, Hb1|]. rewrite Hs.
  erewrite bind_done by reflexivity. cbv zeta.
  assert (c_string (clean_buffer buf1) = Some command) as ->.
  { unfold buf1, data. rewrite <- app_assoc. by apply clean_line. }
  erewrite bind_done by reflexivity. rewrite He.
  unfold mbind, M_bind. destruct (handle_command _ _ _ w) as [[] w1|]; [|done].
  destruct (prompt fd w1) as [[] w2|]; [|done]. by apply IH, clean_ok.
Qed.

(** C22: The lines of a terminal are served one by one: although the buffer is not
    cleared between two requests, nothing of a line is left in the next one. *)
Theorem process_client_request_serves cx commands fd lines w : Forall is_line lines ->
  process_client_request cx commands fd (map line_of lines) w =
  (prompt fd;; serve cx commands fd lines) w.
Proof.
  intros Hl. unfold process_client_request, mbind, M_bind. destruct (prompt fd w) as [[] w1|]; [|done].
  by apply client_loop_serves.
Qed.

(** What a program that sends no line terminators gets: the end of a longer
    request follows the next one. *)
Lemma unterminated_requests_mix cx commands fd w :
  process_client_request cx commands fd [Received (chars "show ip route"); Received (chars "help")] w =
  (prompt fd;; serve cx commands fd ["show ip route"; "help ip route"]) w.
Proof. reflexivity. Qed.

(** A request as long as the buffer, without a null character or before it: the
    string functions read past the buffer. *)
Theorem long_request_overruns cx commands fd buf data recvs w :
  length buf = MAX_COMMAND_SIZE -> length data = MAX_COMMAND_SIZE -> NUL ∉ data ->
  client_loop cx commands fd buf (Received data :: recvs) w = Crashed OutOfBounds w.
Proof.
  intros Hb Hd Hn. cbn [client_loop]. rewrite drop_ge, app_nil_r by lia.
  assert (c_string data = None) as ->; [|done].
  clear Hd. induction data as [|c data IH]; [done|]. cbn [c_string].
  apply not_elem_of_cons in Hn as [Hc Hn]. destruct (Ascii.eqb_spec c NUL); [congruence|].
  by rewrite (IH Hn).
Qed.

(** ** Locks *)

Lemma balanced_COPY_STRING h cap buf str : balanced h (COPY_STRING cap buf str).
Proof. unfold COPY_STRING. lk. Qed.
#[export] Hint Resolve balanced_COPY_STRING : locks.

Lemma balanced_copy_lines {A} h (line : A -> M string) cap buf l :
  (forall x, balanced h (line x)) -> balanced h (copy_lines line cap buf l).
Proof. intros Hl. revert buf. induction l as [|x l IH]; intros buf; cbn [copy_lines]; lk. Qed.

Ltac table := repeat (lk_step || (apply balanced_copy_lines; intros ?)).

Lemma balanced_sprint_rtable h : balanced h sprint_rtable.
Proof. unfold sprint_rtable, route_text. table. Qed.
Lemma balanced_sprint_arp_cache h : balanced h sprint_arp_cache.
Proof. unfold sprint_arp_cache, arp_line, arp_ttl_str. table. Qed.
Lemma balanced_sprint_if_list h : balanced h sprint_if_list.
Proof. unfold sprint_if_list, iface_line. table. Qed.
Lemma balanced_pwospf_if_loop h cap hello buf nid nip l :
  balanced h (pwospf_if_loop cap hello buf nid nip l).
Proof.
  revert buf nid nip. induction l as [|iface l IH]; intros buf nid nip; cbn [pwospf_if_loop]; table.
  all: apply IH.
Qed.
#[export] Hint Resolve balanced_pwospf_if_loop : locks.
Lemma balanced_sprint_pwospf_if_list h : balanced h sprint_pwospf_if_list.
Proof. unfold sprint_pwospf_if_list. table. Qed.
Lemma balanced_router_list_loop h cap interval buf l : balanced h (router_list_loop cap interval buf l).
Proof.
  revert buf. induction l as [|r l IH]; intros buf; cbn [router_list_loop]; unfold router_line, router_iface_line; table.
Qed.
#[export] Hint Resolve balanced_router_list_loop : locks.
Lemma balanced_sprint_pwospf_router_list h : balanced h sprint_pwospf_router_list.
Proof. unfold sprint_pwospf_router_list. table. Qed.
#[export] Hint Resolve balanced_sprint_rtable balanced_sprint_arp_cache balanced_sprint_if_list
  balanced_sprint_pwospf_if_list balanced_sprint_pwospf_router_list : locks.

Lemma balanced_copy_rows h (line : nat -> M string) cap buf n :
  (forall i, balanced h (line i)) -> balanced h (copy_rows line cap buf n).
Proof. intros Hl. by apply balanced_copy_lines. Qed.

Lemma balanced_sprint_hw_rtable h : balanced h sprint_hw_rtable.
Proof. unfold sprint_hw_rtable, copy_rows, hw_rtable_line. table. Qed.
Lemma balanced_sprint_hw_arp_cache h : balanced h sprint_hw_arp_cache.
Proof. unfold sprint_hw_arp_cache, copy_rows, hw_arp_line. table. Qed.
Lemma balanced_sprint_hw_iface h : balanced h sprint_hw_iface.
Proof. unfold sprint_hw_iface, copy_rows, hw_iface_line, read_hw_iface_mac. table. Qed.
Lemma balanced_sprint_hw_local_ip_filter h : balanced h sprint_hw_local_ip_filter.
Proof. unfold sprint_hw_local_ip_filter, copy_rows, hw_filter_line. table. Qed.
Lemma balanced_sprint_hw_drops h : balanced h sprint_hw_drops.
Proof. unfold sprint_hw_drops, port_drops. table. Qed.
Lemma balanced_sprint_hw_oq_drops h : balanced h sprint_hw_oq_drops.
Proof. unfold sprint_hw_oq_drops. table. Qed.
#[export] Hint Resolve balanced_sprint_hw_rtable balanced_sprint_hw_arp_cache balanced_sprint_hw_iface
  balanced_sprint_hw_local_ip_filter balanced_sprint_hw_drops balanced_sprint_hw_oq_drops : locks.

Lemma balanced_del_arp_cache h ip : balanced h (del_arp_cache ip).
Proof. unfold del_arp_cache. lk. Qed.
Lemma balanced_add_route h dest gateway mask interface : balanced h (add_route dest gateway mask interface).
Proof. unfold add_route. lk. Qed.
Lemma balanced_del_route h dest mask : balanced h (del_route dest mask).
Proof. unfold del_route. lk. Qed.
Lemma balanced_iface_update h name ip mask : balanced h (iface_update name ip mask).
Proof. unfold iface_update, update_iface. lk. Qed.
#[export] Hint Resolve balanced_del_arp_cache balanced_add_route balanced_del_route
  balanced_iface_update balanced_iface_up balanced_iface_down : locks.

Lemma balanced_wait_for_reply_loop h waits id : balanced h (wait_for_reply_loop waits id).
Proof. induction waits as [|[|arrived] waits IH]; cbn [wait_for_reply_loop]; lk. Qed.
#[export] Hint Resolve balanced_wait_for_reply_loop : locks.

Lemma balanced_send_to_socket h fd msg : balanced h (send_to_socket fd msg).
Proof. apply balanced_emit_socket. Qed.
Lemma balanced_say_lines h req msgs : balanced h (say_lines req msgs).
Proof. apply balanced_foreach. intros msg. apply balanced_send_to_socket. Qed.
Lemma balanced_say h req msg : balanced h (say req msg).
Proof. apply balanced_send_to_socket. Qed.
Lemma balanced_send_text h req text : balanced h (send_text req text).
Proof. apply balanced_send_to_socket. Qed.
Lemma balanced_on_netfpga h m : balanced h m -> balanced h (on_netfpga m).
Proof. intros Hm. unfold on_netfpga. lk. Qed.
#[export] Hint Resolve balanced_send_to_socket balanced_say_lines balanced_say balanced_send_text
  balanced_on_netfpga : locks.

Lemma balanced_cli_sping h waits fd dst : below h L_sping = true -> balanced h (cli_sping waits fd dst).
Proof. intros Hb. unfold cli_sping, wait_for_reply. unfold_locks. lk. Qed.
#[export] Hint Resolve balanced_cli_sping : locks.

Lemma balanced_bad_arguments h req : balanced h (bad_arguments req).
Proof. apply balanced_send_to_socket. Qed.
Lemma balanced_write_hw_iface_mac h port hi lo : balanced h (write_hw_iface_mac port hi lo).
Proof. unfold write_hw_iface_mac. lk. Qed.
Lemma balanced_set_hw_iface h port value : balanced h (set_hw_iface port value).
Proof. unfold set_hw_iface. lk. Qed.
Lemma balanced_show_vns_field h name value req : balanced h (show_vns_field name value req).
Proof. unfold show_vns_field. lk. Qed.
#[export] Hint Resolve balanced_bad_arguments balanced_write_hw_iface_mac balanced_set_hw_iface
  balanced_show_vns_field : locks.

(** Unfolds the handler a command is given to. *)
Ltac handler :=
  cbn [call_handler];
  match goal with |- balanced _ ?m => let f := get_head m in unfold f end.

(** The locks under which a command runs: none for a client of the command
    line, the lock of the commands for a client of the web server. *)
Definition command_locks (held : list lock) : Prop := held = [] \/ held = [L_cli_commands].

Lemma balanced_call_handler held cx h req : command_locks held -> balanced held (call_handler cx h req).
Proof.
  intros [-> | ->]; destruct h; handler; unfold_locks; repeat (lk_step || apply balanced_on_netfpga).
Qed.

Lemma balanced_handle_command cx commands req : balanced [] (handle_command cx commands req).
Proof.
  unfold handle_command. destruct (cli_command_lpm _ _) as [h|]; [apply balanced_call_handler; by left|lk].
Qed.
#[export] Hint Resolve balanced_handle_command : locks.

(** Whatever a client sends, the thread that serves it takes its locks in the
    global order and holds none between two commands, or when it ends: a client
    cannot make it part of a deadlock. *)
Theorem client_lock_order cx commands fd recvs :
  balanced [] (process_client_request cx commands fd recvs).
Proof.
  unfold process_client_request, prompt. apply spec_bind; [lk|intros _].
  generalize (replicate MAX_COMMAND_SIZE NUL). induction recvs as [|[data| |] recvs IH]; intros buf;
    cbn [client_loop]; unfold prompt; lk; apply IH.
Qed.

(** ** Numbers *)

Lemma decimal_snoc l c : decimal (l ++ [c]) = 10 * decimal l + (code c - 48).
Proof. unfold decimal. by rewrite foldl_app. Qed.

Lemma pretty_N_char_code x : (x < 10)%N ->
  is_digit (pretty_N_char x) = true /\ code (pretty_N_char x) - 48 = Z.of_N x.
Proof.
  intros H. assert (x = 0 \/ x = 1 \/ x = 2 \/ x = 3 \/ x = 4 \/ x = 5 \/ x = 6 \/ x = 7 \/ x = 8 \/ x = 9)%N
    as Hx by lia.
  repeat destruct Hx as [->|Hx]; [..|subst x]; by split.
Qed.

Lemma pretty_N_go_decimal x s : exists ds, chars (pretty_N_go x s) = ds ++ chars s /\
  forallb is_digit ds = true /\ decimal ds = Z.of_N x.
Proof.
  revert s. induction (N.lt_wf_0 x) as [x _ IH]; intros s.
  destruct (decide (x = 0)%N) as [->|Hx].
  { exists []. by rewrite pretty_N_go_0. }
  rewrite pretty_N_go_step by lia.
  destruct (IH (x / 10)%N (N.div_lt x 10 ltac:(lia) eq_refl) (String (pretty_N_char (x mod 10)) s))
    as (ds & -> & Hd & Ed).
  destruct (pretty_N_char_code (x mod 10)) as [Hc Ec]; [by apply N.mod_lt|].
  exists (ds ++ [pretty_N_char (x mod 10)]). split_and!.
  - by rewrite <- app_assoc.
  - rewrite forallb_app, Hd. simpl. by rewrite Hc.
  - rewrite decimal_snoc, Ed, Ec, N2Z.inj_div, N2Z.inj_mod. change (Z.of_N 10) with 10.
    rewrite <- Z.div_mod by lia. done.
Qed.

(** A number that was printed is made of digits, and they are read as it. *)
Lemma decimal_pretty n : 0 <= n -> exists ds, chars (pretty n) = ds /\ ds ≠ [] /\
  forallb is_digit ds = true /\ decimal ds = n.
Proof.
  intros Hn. exists (chars (pretty n)). split; [done|]. destruct n as [|p|p]; [by split_and!| |lia].
  unfold pretty, pretty_Z, pretty, pretty_positive, pretty, pretty_N.
  destruct (decide _) as [E|_]; [discriminate E|].
  destruct (pretty_N_go_decimal (N.pos p) "") as (ds & -> & Hd & Ed). rewrite app_nil_r.
  split_and!; [|done|done]. intros ->. discriminate Ed.
Qed.

Lemma span_digits ds : forallb is_digit ds = true -> span is_digit ds = (ds, []).
Proof.
  induction ds as [|c ds IH]; [done|]. cbn [forallb span]. intros H.
  apply andb_true_iff in H as [-> H]. by rewrite IH.
Qed.

Lemma scan_decimal_pretty n : 0 <= n -> scan_decimal (chars (pretty n)) = Some (n, []).
Proof.
  intros Hn. destruct (decimal_pretty n Hn) as (ds & -> & Hne & Hd & Ed).
  destruct ds as [|c ds]; [done|]. pose proof Hd as Hc. cbn [forallb] in Hc. apply andb_true_iff in Hc as [Hc _].
  unfold scan_decimal. assert (skip_space (c :: ds) = c :: ds) as ->.
  { unfold skip_space. cbn [span]. assert (is_space c = false) as ->; [|done].
    pose proof (digits_no_space [c]) as Hs. cbn [forallb] in Hs. rewrite Hc in Hs. specialize (Hs eq_refl).
    apply andb_true_iff in Hs as [Hs _]. by apply negb_true_iff in Hs. }
  assert (match c :: ds with "-"%char :: l' => (true, l') | "+"%char :: l' => (false, l')
          | _ => (false, c :: ds) end = (false, c :: ds)) as ->.
  { destruct c as [[] [] [] [] [] [] [] []]; try discriminate Hc; reflexivity. }
  rewrite span_digits by done. by rewrite Ed.
Qed.

(** ** The hello interval *)

(** What does not start a number: no digit, no sign, no white space. *)
Definition no_number (c : ascii) : bool :=
  negb (is_digit c || is_space c || Ascii.eqb c "+" || Ascii.eqb c "-" || Ascii.eqb c "?").

Definition set_hello_entry : cli_entry := mk_cli_entry "set hello interval" Cli_pwospf_set_hello.

Lemma set_hello_scan c rest :
  sscanf (with_argument set_hello_entry c rest) "set hello interval %u" =
  scan [FSpace; FUnsigned] (" "%char :: c :: chars rest).
Proof. unfold sscanf, with_argument. rewrite chars_app. reflexivity. Qed.

Lemma scan_no_number c l : no_number c = true -> scan [FSpace; FUnsigned] (" "%char :: c :: l) = [].
Proof.
  intros Hc. destruct c as [[] [] [] [] [] [] [] []]; try discriminate Hc; reflexivity.
Qed.

Lemma scan_number_text n : 0 <= n < 2 ^ 32 ->
  scan [FSpace; FUnsigned] (" "%char :: chars (pretty n)) = [ANum n].
Proof.
  intros Hn.
  assert (scan [FSpace; FUnsigned] (" "%char :: chars (pretty n)) = scan [FUnsigned] (chars (pretty n))) as ->.
  { cbn [scan]. f_equal. change (" "%char :: chars (pretty n)) with (replicate 1 " "%char ++ chars (pretty n)).
    rewrite skip_spaces. destruct (decimal_pretty n) as (ds & -> & Hne & Hd & _); [lia|].
    destruct ds as [|c ds]; [done|]. apply digits_no_space in Hd. cbn [forallb] in Hd.
    apply andb_true_iff in Hd as [Hc _]. unfold skip_space. cbn [span]. apply negb_true_iff in Hc. by rewrite Hc. }
  cbn [scan]. rewrite scan_decimal_pretty by lia. unfold to_unsigned.
  assert ((2 ^ 64 <=? Z.abs n) = false) as -> by (apply Z.leb_gt; change (2 ^ 32) with 4294967296 in Hn;
    change (2 ^ 64) with 18446744073709551616; lia).
  by rewrite u32_id.
Qed.

(** [set hello interval] with a printed number sets the interval to it; with
    anything that is not a number it says so, and then sets it to 0 and says it
    was set. *)
Theorem set_hello_interval_correct `{StrcmpLaws} cx commands fd w : init_cli = Some commands ->
  (forall n, 0 <= n < 2 ^ 16 ->
     wp (handle_command cx commands (mk_cli_request fd (command_text "set hello interval" [pretty n])))
       (fun _ w' => w_rs w' = set_pwospf_hello_interval n (w_rs w) /\
          w_trace w' = w_trace w ++ [EvSocket fd ("Hello interval has been set" +:+ nl)]) w) /\
  (forall c rest, no_number c = true ->
     wp (handle_command cx commands (mk_cli_request fd (with_argument set_hello_entry c rest)))
       (fun _ w' => w_rs w' = set_pwospf_hello_interval 0 (w_rs w) /\
          w_trace w' = w_trace w ++ [EvSocket fd ("Failure reading arguments." +:+ nl);
                                     EvSocket fd ("Hello interval has been set" +:+ nl)]) w).
Proof.
  intros Hi. split.
  - intros n Hn. change (2 ^ 16) with 65536 in Hn.
    destruct (decimal_pretty n) as (ds & Eds & Hne & Hd & _); [lia|].
    destruct (pretty n) as [|c rest] eqn:En; [by subst ds|].
    assert (command_text "set hello interval" [String c rest] = with_argument set_hello_entry c rest) as ->.
    { unfold command_text, with_argument. cbn [map join_text foldr]. by rewrite str_app_nil_r. }
    rewrite handle_argument; [|done|registered|reflexivity|].
    2: { subst ds. cbn [chars forallb] in Hd. intros ->. discriminate Hd. }
    cbn [call_handler ce_handler set_hello_entry]. unfold cli_pwospf_set_hello. cbn [req_command]. rewrite set_hello_scan.
    change (c :: chars rest) with (chars (String c rest)). rewrite <- En, scan_number_text by (change (2 ^ 32) with 4294967296; lia).
    apply wp_bind. eapply wp_done; [reflexivity|]. apply wp_bind. eapply wp_done; [reflexivity|].
    rewrite (u16_id n) by (unfold is_u16; change (2 ^ 16) with 65536; lia).
    eapply wp_done; [reflexivity|]. by split.
  - intros c rest Hc. rewrite handle_argument; [|done|registered|reflexivity|].
    2: { intros ->. discriminate Hc. }
    cbn [call_handler ce_handler set_hello_entry]. unfold cli_pwospf_set_hello. cbn [req_command]. rewrite set_hello_scan, scan_no_number by done.
    do 2 (apply wp_bind; eapply wp_done; [reflexivity|]). eapply wp_done; [reflexivity|]. split; [done|].
    cbn [w_trace]. by rewrite <- app_assoc.
Qed.

(** ** Changing an interface *)

(** A format that expects more words than there are stops at the end. *)
Lemma scan_words_short ws k : Forall is_word ws ->
  scan (word_directives (length ws + k)) (spaced ws) = map AStr ws.
Proof.
  induction 1 as [|s ws Hs Hws IH]; [by destruct k|].
  change (word_directives (length (s :: ws) + k)) with (FSpace :: FStr :: word_directives (length ws + k)).
  change (spaced (s :: ws)) with (replicate 1 " "%char ++ chars s ++ spaced ws).
  rewrite scan_space_word, scan_word_text by (done || apply ends_word_spaced). cbn [map]. by rewrite IH.
Qed.

Lemma ip_interface_scan name ip : Forall is_word [name; ip] ->
  sscanf (command_text "ip interface" [name; ip]) "ip interface %as %as %as" = [AStr name; AStr ip].
Proof.
  intros H. unfold sscanf, command_text. rewrite chars_text.
  change (scan (word_directives 3) (spaced [name; ip]) = map AStr [name; ip]).
  by apply (scan_words_short [name; ip] 1).
Qed.

Lemma inet_ntop_digit ip : is_u32 ip -> exists c s, inet_ntop ip = String c s /\ is_digit c = true.
Proof.
  intros H. destruct (ip_octets ip H) as (Ha & _). destruct (octet_pretty _ Ha) as (_ & Da & La).
  unfold inet_ntop. destruct (pretty (ip mod 2 ^ 8)) as [|c s]; [simpl in La; lia|].
  exists c. eexists. split; [reflexivity|]. simpl in Da. by apply andb_true_iff in Da as [Dc _].
Qed.

Lemma starts_with_digit p c s : is_digit c = true ->
  match p with EmptyString => false | String a _ => negb (is_digit a) end = true ->
  starts_with p (String c s) = false.
Proof.
  intros Hc Hp. destruct p as [|a p]; [done|]. unfold starts_with, strncmp_eq. cbn [String.length str_take].
  apply negb_true_iff in Hp. cbn [String.eqb]. destruct (Ascii.eqb_spec a c) as [->|]; [congruence|done].
Qed.

(** [ip interface] with a name and an address but no mask dereferences the null
    pointer left for the mask: the router crashes, in a state it did not
    change. *)
Theorem ip_interface_without_mask_crashes `{StrcmpLaws} cx commands fd name ip w :
  init_cli = Some commands -> is_word name -> String.prefix "?" name = false -> is_u32 ip ->
  handle_command cx commands (mk_cli_request fd (command_text "ip interface" [name; inet_ntop ip])) w =
  Crashed NullDeref w.
Proof.
  intros Hi Hn Hq Hip.
  rewrite (handle_words cx commands fd (mk_cli_entry "ip interface" Cli_ip_interface));
    [|done|registered|reflexivity|done..].
  cbn [ce_handler call_handler ce_command]. unfold cli_ip_interface. cbn [req_command].
  rewrite ip_interface_scan by (repeat constructor; apply Hn || by apply inet_ntop_word).
  cbv beta iota. destruct (inet_ntop_digit ip Hip) as (d & r & Ed & Hd). rewrite Ed.
  rewrite !starts_with_digit by done. rewrite <- Ed, inet_pton_ntop by done. done.
Qed.
