(* ===== verification/WwwTheorems.v ===== *)
(** What the web server does: a request is read whatever pieces it comes in, a
    command sent as a URL is the command the command line would run, what is
    sent is the text in order, and connections are served in the order they
    came, with the locks in the global order. *)

From S2P Require Import Prelude Words Bytes State CStrings Sorting Netfpga LockOrder Sprint.
From S2P Require Import Cli Www SprintTheorems CliTheorems.
From Stdlib Require Import Ascii.
Local Open Scope Z_scope.

(** ** Lemmas: the end of a request *)

Lemma crlfcrlf_at_mono a b : crlfcrlf_at a = true -> crlfcrlf_at (a ++ b) = true.
Proof. by destruct a as [|? [|? [|? [|? ?]]]]. Qed.

Lemma contains_mono a b : contains_crlfcrlf a = true -> contains_crlfcrlf (a ++ b) = true.
Proof.
  induction a as [|c a IH]; [done|]. cbn [contains_crlfcrlf app]. intros H. apply orb_true_iff in H as [H|H].
  - apply orb_true_iff. left. change (c :: a ++ b) with ((c :: a) ++ b). by apply crlfcrlf_at_mono.
  - apply orb_true_iff. right. by apply IH.
Qed.

(** What [recv] gives: at least one character and at most what fits. *)
Fixpoint fits_buffer (buf_alloc_size n : nat) (pieces : list (list ascii)) : Prop :=
  match pieces with
  | [] => True
  | data :: pieces' =>
      (0 < length data <= buf_alloc_size - n)%nat
      /\ let n' := (n + length data)%nat in
         fits_buffer (if (n' =? buf_alloc_size)%nat then (buf_alloc_size * 2)%nat else buf_alloc_size) n' pieces'
  end.

(** There is always room for another character. *)
Lemma read_loop_pieces alloc buf pieces rest :
  (length buf < alloc)%nat -> fits_buffer alloc (length buf) pieces ->
  contains_crlfcrlf buf = false -> contains_crlfcrlf (buf ++ concat pieces) = false ->
  exists alloc', (length (buf ++ concat pieces) < alloc')%nat
  /\ read_loop alloc buf (map Received pieces ++ rest) = read_loop alloc' (buf ++ concat pieces) rest.
Proof.
  revert alloc buf. induction pieces as [|data pieces IH]; intros alloc buf Ha Hf Hc Hcc.
  { exists alloc. cbn. rewrite app_nil_r. done. }
  destruct Hf as [Hd Hf]. cbn [map app read_loop concat] in *. rewrite take_ge by lia.
  assert (contains_crlfcrlf (buf ++ data) = false) as Hcd.
  { destruct (contains_crlfcrlf (buf ++ data)) eqn:E; [|done].
    apply (contains_mono _ (concat pieces)) in E. by rewrite <- app_assoc, Hcc in E. }
  rewrite Hcd. rewrite app_assoc in Hcc |- *. rewrite <- length_app in Hf. apply IH; try done.
  pose proof (length_app buf data). destruct (Nat.eqb_spec (length (buf ++ data)) alloc); lia.
Qed.

Lemma fits_buffer_app alloc n p q : fits_buffer alloc n (p ++ q) -> fits_buffer alloc n p.
Proof.
  revert alloc n. induction p as [|d p IH]; intros alloc n; [done|]. cbn. intros [H1 H2]. split; [done|]. by eapply IH.
Qed.

Lemma read_loop_ends alloc buf pieces data rest :
  (length buf < alloc)%nat -> fits_buffer alloc (length buf) (pieces ++ [data]) ->
  contains_crlfcrlf (buf ++ concat pieces) = false -> contains_crlfcrlf (buf ++ concat pieces ++ data) = true ->
  read_loop alloc buf (map Received (pieces ++ [data]) ++ rest) = Request (buf ++ concat pieces ++ data).
Proof.
  revert alloc buf. induction pieces as [|d pieces IH]; intros alloc buf Ha [Hd Hf] Hn Hc.
  - cbn [map app read_loop concat] in *. rewrite take_ge by lia. by rewrite Hc.
  - cbn [map app read_loop concat] in *. rewrite take_ge by lia.
    assert (contains_crlfcrlf (buf ++ d) = false) as ->.
    { destruct (contains_crlfcrlf (buf ++ d)) eqn:E; [|done].
      apply (contains_mono _ (concat pieces)) in E. by rewrite <- app_assoc, Hn in E. }
    rewrite <- (app_assoc d), (app_assoc buf) in Hc |- *. rewrite app_assoc in Hn. rewrite <- length_app in Hf.
    apply IH; try done. pose proof (length_app buf d). destruct (Nat.eqb_spec (length (buf ++ d)) alloc); lia.
Qed.

(** A request is what was received, in whatever pieces, up to the one that
    completes the first empty line; until then the server waits, and a client
    that closes or fails gets no answer. *)
Theorem read_request_correct pieces data recvs :
  fits_buffer BUF_ALLOC_SIZE 0 (pieces ++ [data]) -> contains_crlfcrlf (concat pieces) = false ->
  read_request (map Received pieces) = Waiting
  /\ read_request (map Received pieces ++ Closed :: recvs) = NoRequest
  /\ read_request (map Received pieces ++ Failed :: recvs) = NoRequest
  /\ (contains_crlfcrlf (concat pieces ++ data) = true ->
      read_request (map Received (pieces ++ [data]) ++ recvs) = Request (concat pieces ++ data)).
Proof.
  intros Hf Hc. pose proof (fits_buffer_app _ _ _ _ Hf) as Hf'. unfold read_request.
  assert (0 < BUF_ALLOC_SIZE)%nat as H0 by (unfold BUF_ALLOC_SIZE; lia).
  pose proof (fun rest => read_loop_pieces BUF_ALLOC_SIZE [] pieces rest H0 Hf' eq_refl Hc) as H. cbn [app] in H.
  split_and!.
  - rewrite <- (app_nil_r (map Received pieces)). by destruct (H []) as (alloc & _ & ->).
  - destruct (H (Closed :: recvs)) as (alloc & _ & ->). cbn. by rewrite Hc.
  - by destruct (H (Failed :: recvs)) as (alloc & _ & ->).
  - by apply (read_loop_ends _ []).
Qed.

(** ** Lemmas: sending *)

Definition join_texts (l : list string) : string := foldr String.append "" l.

Lemma str_take_drop n s : (str_take n s +:+ str_drop n s)%string = s.
Proof.
  revert s. induction n as [|n IH]; intros [|c s]; try done.
  change (String c (str_take n s +:+ str_drop n s)%string = String c s). by rewrite IH.
Qed.

(** The text goes out in order, in pieces of at most 8400 characters; when
    [send_all] succeeds all of it has gone. *)
Theorem send_all_correct fd msg sends w :
  exists pieces, Forall (fun p => (String.length p <= MAX_SEND)%nat) pieces
  /\ exists o, send_all fd msg sends w = Done o (with_trace w (map (EvSocket fd) pieces))
  /\ (exists rest, (join_texts pieces +:+ rest)%string = msg)
  /\ forall sends', o = Some (0, sends') -> join_texts pieces = msg.
Proof.
  revert msg w. induction sends as [|s sends IH]; intros msg w.
  - exists []. split; [done|]. destruct msg as [|c msg].
    + eexists. cbn. rewrite with_trace_nil. split; [done|]. split; [by exists ""|done].
    + eexists. cbn. rewrite with_trace_nil. split; [done|]. split; [by eexists|done].
  - destruct msg as [|c msg]; [exists []; split; [done|]; eexists; cbn; rewrite with_trace_nil;
      split; [done|]; split; [by exists ""|done]|].
    cbn [send_all]. destruct (s <? 0).
    + exists []. split; [done|]. eexists. cbn. rewrite with_trace_nil. split; [done|]. split; [by eexists|done].
    + set (n := Nat.min (Z.to_nat s) (Nat.min MAX_SEND (String.length (String c msg)))).
      set (text := String c msg). set (w1 := with_trace w [EvSocket fd (str_take n text)]).
      destruct (IH (str_drop n text) w1) as (pieces & Hp & o & E & (rest & Hr) & Hs).
      exists (str_take n text :: pieces). split; [constructor; [|done]|].
      { pose proof (str_take_length n text). lia. }
      exists o. split; [|split].
      * rewrite (bind_done _ _ _ tt w1) by done. rewrite E. unfold w1, with_trace. cbn. by rewrite <- app_assoc.
      * exists rest. cbn [join_texts foldr]. fold (join_texts pieces).
        rewrite str_app_assoc, Hr. apply str_take_drop.
      * intros sends' ->. cbn [join_texts foldr]. fold (join_texts pieces). rewrite (Hs _ eq_refl). apply str_take_drop.
Qed.

(** ** Lemmas: the request of a command *)

(** A character that the encoding of a command is made of. *)
Definition plain (c : ascii) : bool :=
  negb (is_space c) && negb (is_delimiter c) && negb (Ascii.eqb c NUL) && negb (Ascii.eqb c "013").

Lemma encoded_plain c :
  (if is_alnum c then plain c
   else plain "%" && plain (hex_char (Z.land (Z.shiftr (code c) 4) 15)) && plain (hex_char (Z.land (code c) 15)))
  = true.
Proof. destruct c as [[] [] [] [] [] [] [] []]; vm_compute; reflexivity. Qed.

Lemma urlencode_plain l : forallb plain (urlencode_chars l) = true.
Proof.
  induction l as [|c l IH]; [done|]. cbn [urlencode_chars]. pose proof (encoded_plain c) as H.
  destruct (is_alnum c); cbn [forallb]; rewrite IH; bool_to_prop.
  - by rewrite H.
  - repeat match goal with H : plain _ = true |- _ => rewrite H; clear H end. done.
Qed.

Lemma forallb_impl (P Q : ascii -> bool) l :
  (forall c, P c = true -> Q c = true) -> forallb P l = true -> forallb Q l = true.
Proof. rewrite !forallb_forall. auto. Qed.

Lemma plain_not_space c : plain c = true -> negb (is_space c) = true.
Proof. unfold plain. intros. by bool_to_prop; apply negb_true_iff. Qed.
Lemma plain_not_delimiter c : plain c = true -> negb (is_delimiter c) = true.
Proof. unfold plain. intros. by bool_to_prop; apply negb_true_iff. Qed.

(** The URL of a command, and the request for it. *)
Definition command_url (t : string) : string := "/command.html?command=" +:+ urlencode t.
Definition command_request (t : string) : list ascii :=
  chars "GET " ++ chars (command_url t) ++ chars " HTTP/1.0" ++ chars (CRLF +:+ CRLF).

Lemma chars_command_url t : chars (command_url t) = chars "/command.html?command=" ++ urlencode_chars (chars t).
Proof. unfold command_url, urlencode. by rewrite chars_app, chars_implode. Qed.

Lemma span_none_all (f : ascii -> bool) l : forallb f l = true -> span f l = (l, []).
Proof.
  induction l as [|c l IH]; [done|]. cbn [forallb span]. intros H. apply andb_true_iff in H as [-> H].
  by rewrite IH.
Qed.

Lemma strtok_whole l : l <> [] -> forallb plain l = true -> strtok is_delimiter l = Some (l, []).
Proof.
  intros Hn Hl. pose proof (forallb_impl _ _ _ plain_not_delimiter Hl) as Hd.
  destruct l as [|c l]; [done|]. unfold strtok.
  pose proof Hd as Hc. cbn [forallb] in Hc. apply andb_true_iff in Hc as [Hc _]. apply negb_true_iff in Hc.
  assert ((span is_delimiter (c :: l)).2 = c :: l) as -> by (cbn; by rewrite Hc).
  by rewrite span_none_all.
Qed.

Lemma decoded_command_url t : t <> "" -> decoded_command (command_url t) = t.
Proof.
  intros Ht. unfold decoded_command. rewrite chars_command_url.
  change (strtok is_delimiter (chars "/command.html?command=" ++ urlencode_chars (chars t)))
    with (Some (chars "/command.html?command", urlencode_chars (chars t))).
  cbv iota beta. rewrite strtok_whole; [apply urldecode_urlencode| |apply urlencode_plain].
  destruct t as [|c t]; [done|]. cbn [chars urlencode_chars]. by destruct (is_alnum c).
Qed.

Lemma command_url_word t : is_word (command_url t).
Proof.
  split; [done|]. rewrite chars_command_url, forallb_app. apply andb_true_iff. split; [done|].
  by apply (forallb_impl plain); [apply plain_not_space|apply urlencode_plain].
Qed.

Lemma command_request_no_nul t : NUL ∉ command_request t.
Proof.
  intros H%list_elem_of_In. revert H.
  assert (forallb (fun c => negb (Ascii.eqb c NUL)) (command_request t) = true) as Hf.
  { unfold command_request. rewrite chars_command_url, !forallb_app. repeat (apply andb_true_iff; split); try done.
    apply (forallb_impl plain); [|apply urlencode_plain]. intros c. unfold plain. intros. by bool_to_prop; apply negb_true_iff. }
  rewrite forallb_forall in Hf. intros H. by apply Hf in H.
Qed.

Lemma c_string_whole l : NUL ∉ l -> c_string (l ++ [NUL]) = Some (implode l).
Proof.
  induction l as [|c l IH]; [done|]. intros [Hc Hl]%not_elem_of_cons. cbn [app c_string implode].
  destruct (Ascii.eqb_spec c NUL); [congruence|]. by rewrite IH.
Qed.

Lemma request_line_command t w :
  request_line (command_request t) w = Done (Some ("GET", command_url t)) w.
Proof.
  unfold request_line. rewrite c_string_whole by apply command_request_no_nul.
  erewrite bind_done by reflexivity. unfold sscanf. rewrite chars_implode.
  change (parse_format (chars "%as %as")) with [FStr; FSpace; FStr]. unfold command_request.
  change (chars "GET " ++ ?l) with (replicate 0 " "%char ++ chars "GET" ++ (replicate 1 " "%char ++ l)).
  rewrite (scan_word_text [FSpace; FStr] "GET" 0) by (by split). rewrite scan_space_word.
  rewrite (scan_word_text [] (command_url t) 1) by (apply command_url_word || done). done.
Qed.

(** The request is complete with its last character, and not before. *)
Definition blank_line : list ascii := chars (CRLF +:+ CRLF).

Lemma contains_blank a b : contains_crlfcrlf (a ++ blank_line ++ b) = true.
Proof. induction a as [|c a IH]; [done|]. cbn [app contains_crlfcrlf]. by rewrite IH, orb_true_r. Qed.

Lemma contains_split l : contains_crlfcrlf l = true -> exists a b, l = a ++ blank_line ++ b.
Proof.
  induction l as [|c l IH]; [done|]. cbn [contains_crlfcrlf]. intros H. apply orb_true_iff in H as [H|H].
  - exists []. destruct l as [|c2 [|c3 [|c4 l]]]; try done. cbn [crlfcrlf_at] in H. bool_to_prop.
    repeat match goal with H : Ascii.eqb _ _ = true |- _ => apply Ascii.eqb_eq in H; subst end. by exists l.
  - destruct (IH H) as (a & b & ->). by exists (c :: a), b.
Qed.

Lemma command_request_ends t pieces data :
  concat pieces ++ data = command_request t -> data <> [] ->
  contains_crlfcrlf (concat pieces) = false /\ contains_crlfcrlf (concat pieces ++ data) = true.
Proof.
  intros E Hd. set (body := chars "GET " ++ chars (command_url t) ++ chars " HTTP/1.0").
  assert (command_request t = body ++ blank_line) as Et by (unfold body, command_request; by rewrite <- !app_assoc).
  assert (forallb (fun c => negb (Ascii.eqb c "013")) body = true) as Hb.
  { unfold body. rewrite chars_command_url, !forallb_app. repeat (apply andb_true_iff; split); try done.
    apply (forallb_impl plain); [|apply urlencode_plain]. intros c. unfold plain. intros. by bool_to_prop; apply negb_true_iff. }
  split; [|rewrite E, Et, <- (app_nil_r blank_line); apply contains_blank].
  destruct (contains_crlfcrlf (concat pieces)) eqn:Hc; [|done].
  apply contains_split in Hc as (a & b & Hc). rewrite Et, Hc in E.
  assert (length a < length body)%nat as Hl.
  { apply (f_equal length) in E. rewrite !length_app in E. destruct data; [done|]. cbn [length] in E. lia. }
  apply (f_equal (.!! length a)) in E. rewrite <- !app_assoc in E.
  rewrite (lookup_app_r a), Nat.sub_diag in E by lia. rewrite (lookup_app_l body) in E by lia.
  change ((blank_line ++ b ++ data) !! 0%nat) with (Some "013"%char) in E.
  symmetry in E. apply list_elem_of_lookup_2, list_elem_of_In in E.
  rewrite forallb_forall in Hb. by apply Hb in E.
Qed.

(** C23: A command sent as a URL, whatever pieces it comes in: the answer starts
    with the header, then the command is found and run as the command line would
    run it, under the lock of the commands, and the connection is closed. *)
Theorem web_command_runs cx commands cwd fopen fd t pieces data recvs sends w :
  t <> "" -> data <> [] -> concat pieces ++ data = command_request t ->
  fits_buffer BUF_ALLOC_SIZE 0 (pieces ++ [data]) ->
  service_request cx commands cwd fopen fd (map Received (pieces ++ [data]) ++ recvs) sends w
  = and_then (send_all fd (HTTP_OK +:+ CRLF) sends) (fun _ =>
      lock_cli_commands_rd;;
      match cli_command_lpm commands t with
      | None => send_to_socket fd ("invalid command" +:+ nl)
      | Some handler => call_handler cx handler (mk_cli_request fd t)
      end;;
      unlock_cli_commands;;
      emit (EvClose fd);;
      mret true) w.
Proof.
  intros Ht Hd E Hf. destruct (command_request_ends t pieces data E Hd) as [Hn Hc].
  unfold service_request.
  destruct (read_request_correct pieces data recvs Hf Hn) as (_ & _ & _ & Hr).
  rewrite (Hr Hc), E, (bind_done _ _ _ _ _ (request_line_command t w)). cbv iota beta.
  unfold answer. change (strcmp_eq (command_url t) "/list.html") with false.
  change (strncmp_eq (command_url t) "/stats.html" 11) with false.
  change (strncmp_eq (command_url t) "/command.html" 13) with true. cbv iota.
  unfold answer_command, run_web_command. rewrite decoded_command_url by done. cbn [req_command req_sockfd].
unfold and_then, mbind, M_bind. destruct (send_all _ _ _ w) as [[[r sends']|] w1|]; try done.
  destruct (lock_cli_commands_rd w1) as [[] w2|]; [|done].
  destruct (cli_command_lpm commands t) as [h|];
    [destruct (call_handler cx h _ w2) as [[] w3|]; [|done]|destruct (send_to_socket fd _ w2) as [[] w3|]; [|done]].
  all: by destruct (unlock_cli_commands w3) as [[] w4|].
Qed.

(** ** Locks *)

Lemma balanced_send_all h fd msg sends : balanced h (send_all fd msg sends).
Proof.
  revert msg. induction sends as [|s sends IH]; intros [|c msg]; cbn [send_all]; lk.
Qed.
Lemma balanced_send_once h fd msg sends : balanced h (send_once fd msg sends).
Proof. unfold send_once. lk. Qed.
#[export] Hint Resolve balanced_send_all balanced_send_once : locks.

Lemma balanced_and_then {A} h (m : M (option A)) k :
  balanced h m -> (forall a, balanced h (k a)) -> balanced h (and_then m k).
Proof. intros Hm Hk. unfold and_then. lk. Qed.

Lemma balanced_list_loop h msg size cur : balanced h (list_loop msg size cur).
Proof.
  revert msg size. induction cur as [|e cur IH]; intros msg size; cbn [list_loop]; unfold strncat_; lk.
Qed.
#[export] Hint Resolve balanced_list_loop : locks.

Lemma balanced_answer cx commands cwd fopen url fd sends : balanced [] (answer cx commands cwd fopen url fd sends).
Proof.
  unfold answer, answer_list, answer_stats, answer_command, answer_file, send_file, list_commands, run_web_command,
    strncat_, lock_cli_commands_rd, unlock_cli_commands.
  repeat (lk_step || (apply balanced_and_then; [|intros]) || (apply balanced_call_handler; by right)).
Qed.
#[export] Hint Resolve balanced_answer : locks.

(** Whatever connections, requests and results of the network a thread of the
    server gets, it takes its locks in the global order and holds none when it
    waits; connections are served in the order they came. *)
Theorem web_lock_order cx commands cwd fopen recvs sends queue clientfd :
  balanced [] (www_main_round queue clientfd)
  /\ balanced [] (www_client_round cx commands cwd fopen recvs sends queue)
  /\ (forall w q w', www_main_round queue clientfd w = Done q w' -> q = queue ++ [clientfd])
  /\ (forall fd queue' w q served w',
       www_client_round cx commands cwd fopen recvs sends (fd :: queue') w = Done (q, served) w' -> q = queue').
Proof.
  split_and!.
  - unfold www_main_round, lock_www, unlock_www. lk. by eapply lock_spec_emit.
  - unfold www_client_round, lock_www, unlock_www, service_request, request_line. lk.
  - intros w q w' [= <- _]. done.
  - intros fd queue' w q served w' H. unfold www_client_round in H.
    do 3 apply bind_done_inv in H as (? & ? & _ & H). by injection H.
Qed.
