(* ===== verification/Invariant.v ===== *)
(** The invariant of the state: every field holds what its C type can hold, the
    tables have one entry per key, and a request for an address is repeated at
    most four times. Every handler, thread and command preserves it, whatever the
    packets, the clients, the clock and the device say. *)

From S2P Require Import Prelude Words Bytes State CStrings Sorting Netfpga Rtable Headers Checksum.
From S2P Require Import Packets Iface Arp Icmp Dijkstra Pwospf Nat IfaceCtl Sprint Ip Sping Cli Main.
Local Open Scope Z_scope.

(** ** The invariant *)

Definition is_mac (addr : bytes) : Prop := length addr = ETH_ADDR_LEN /\ is_bytes addr.

Definition route_ok (e : rtable_entry) : Prop :=
  is_u32 (re_ip e) /\ is_u32 (re_gw e) /\ is_u32 (re_mask e).
Definition arp_entry_ok (e : arp_cache_entry) : Prop := is_u32 (ac_ip e) /\ is_mac (ac_ha e).
Definition nbr_ok (n : nbr_router) : Prop :=
  is_u32 (nbr_router_id n) /\ is_u32 (nbr_ip n) /\ is_time (nbr_last_rcvd_hello n).
Definition iface_ok (e : iface_entry) : Prop :=
  is_mac (if_addr e) /\ is_u32 (if_ip e) /\ is_u32 (if_mask e) /\ is_time (if_last_sent_hello e) /\
  Forall nbr_ok (if_nbr_routers e).
Definition queued_ok (q : arp_queue_packet_entry) : Prop := is_bytes (qp_packet q).
Definition queue_entry_ok (e : arp_queue_entry) : Prop :=
  is_u32 (aq_next_hop e) /\ 1 <= aq_requests e <= 5 /\ Forall queued_ok (aq_head e).
Definition link_ok (i : pwospf_interface) : Prop :=
  is_u32 (pi_subnet i) /\ is_u32 (pi_mask i) /\ is_u32 (pi_router_id i).
Definition pwospf_router_ok (r : pwospf_router) : Prop :=
  is_u32 (pr_router_id r) /\ is_u32 (pr_area_id r) /\ is_u16 (pr_seq r) /\ is_time (pr_last_update r) /\
  is_u32 (pr_distance r) /\ Forall link_ok (pr_interface_list r).
Definition queued_lsu_ok (q : pwospf_lsu_queue_entry) : Prop := is_u32 (lq_ip q) /\ is_bytes (lq_packet q).
Definition nat_side_ok (p : nat_ip_port_pair) : Prop := is_u32 (np_ip p) /\ is_u16 (np_port p).
Definition nat_entry_ok (e : nat_entry) : Prop :=
  nat_side_ok (nat_ext e) /\ nat_side_ok (nat_int e) /\ is_u32 (nat_hits e).

Definition filter_ok (e : local_ip_filter_entry) : Prop := is_u32 (lf_ip e).

Record state_ok (rs : router_state) : Prop := {
  ok_router_id : is_u32 (router_id rs);
  ok_area_id : is_u32 (area_id rs);
  ok_hello : is_u16 (pwospf_hello_interval rs);
  ok_lsu : is_u32 (pwospf_lsu_interval rs);
  ok_arp_ttl : is_u32 (arp_ttl rs);
  ok_routes : Forall route_ok (rtable rs);
  ok_cache : Forall arp_entry_ok (arp_cache rs);
  ok_cache_keys : NoDup (map ac_ip (arp_cache rs));
  ok_ifaces : Forall iface_ok (if_list rs);
  ok_queue : Forall queue_entry_ok (arp_queue rs);
  ok_queue_keys : NoDup (map aq_next_hop (arp_queue rs));
  ok_routers : Forall pwospf_router_ok (pwospf_router_list rs);
  ok_router_keys : NoDup (map pr_router_id (pwospf_router_list rs));
  ok_lsu_queue : Forall queued_lsu_ok (pwospf_lsu_queue rs);
  ok_nat : Forall nat_entry_ok (nat_table rs);
  ok_filters : Forall filter_ok (local_ip_filter_list rs)
}.

(** The environment tells the time of a clock of 31 bits. *)
Definition env_ok (e : env) : Prop := forall k, is_time (env_time e k).

(** ** Triples on the state

    [hoare P m Q]: from a state that satisfies [P], [m] returns, if it returns,
    in a state that satisfies [Q]. *)

Definition hoare {A} (P : router_state -> Prop) (m : M A) (Q : A -> router_state -> Prop) : Prop :=
  forall w, env_ok (w_env w) -> P (w_rs w) ->
    match m w with
    | Done a w' => w_env w' = w_env w /\ Q a (w_rs w')
    | Crashed _ _ => True
    end.

(** [m] preserves the invariant, and its result satisfies [V]. *)
Definition preserves {A} (m : M A) (V : A -> Prop) : Prop :=
  hoare state_ok m (fun a rs => V a /\ state_ok rs).
Definition any {A} (a : A) : Prop := True.

(** A next hop with its interface, a packet with its length or a verdict. *)
Definition hop_ok (p : Z * string) : Prop := is_u32 p.1.
Definition packet_of_ok {B} (p : bytes * B) : Prop := is_bytes p.1.

Lemma hoare_ret {A} P (a : A) (Q : A -> router_state -> Prop) :
  (forall rs, P rs -> Q a rs) -> hoare P (mret a) Q.
Proof. intros H w _ HP. split; [done|by apply H]. Qed.

Lemma hoare_bind {A B} P (m : M A) (f : A -> M B) R Q :
  hoare P m R -> (forall a, hoare (R a) (f a) Q) -> hoare P (m ≫= f) Q.
Proof.
  intros Hm Hf w He HP. specialize (Hm w He HP). unfold mbind, M_bind.
  destruct (m w) as [a w1|]; [|done]. destruct Hm as [E HR]. specialize (Hf a w1).
  rewrite E in Hf. specialize (Hf He HR). destruct (f a w1); [|done]. destruct Hf as [-> HQ]. done.
Qed.

Lemma hoare_conseq {A} (P P' : router_state -> Prop) (m : M A) (Q Q' : A -> router_state -> Prop) :
  hoare P' m Q' -> (forall rs, P rs -> P' rs) -> (forall a rs, Q' a rs -> Q a rs) -> hoare P m Q.
Proof.
  intros Hm HP HQ w He Hw. specialize (Hm w He (HP _ Hw)).
  destruct (m w); [|done]. destruct Hm. auto.
Qed.

(** Computations that do not touch the state. *)
Definition readonly {A} (m : M A) : Prop :=
  forall w, match m w with Done _ w' => w_env w' = w_env w /\ w_rs w' = w_rs w | Crashed _ _ => True end.

Lemma readonly_hoare {A} P (m : M A) : readonly m -> hoare P m (fun _ => P).
Proof. intros Hm w _ HP. specialize (Hm w). destruct (m w); [|done]. by destruct Hm as [? ->]. Qed.

Lemma readonly_ret {A} (a : A) : readonly (mret a).
Proof. intros w. done. Qed.
Lemma readonly_fail {A} c : readonly (fail (A := A) c).
Proof. intros w. done. Qed.
Lemma readonly_bind {A B} (m : M A) (f : A -> M B) : readonly m -> (forall a, readonly (f a)) -> readonly (m ≫= f).
Proof.
  intros Hm Hf w. specialize (Hm w). unfold mbind, M_bind. destruct (m w) as [a w1|]; [|done].
  destruct Hm as [E1 E2]. specialize (Hf a w1). destruct (f a w1); [|done]. destruct Hf. split; congruence.
Qed.
Lemma readonly_lift {A} c (o : option A) : readonly (lift c o).
Proof. intros w. by destruct o. Qed.
Lemma readonly_lift_res {A} (r : res A) : readonly (lift_res r).
Proof. intros w. by destruct r. Qed.
Lemma readonly_emit e : readonly (emit e).
Proof. intros w. done. Qed.
Lemma readonly_ask {A} (f : env -> nat -> A) : readonly (ask f).
Proof. intros w. done. Qed.
Lemma readonly_fresh_addr : readonly fresh_addr.
Proof. intros w. done. Qed.
Lemma readonly_get_rs : readonly get_rs.
Proof. intros w. done. Qed.
Lemma readonly_assert b : readonly (assert_ b).
Proof. intros w. by destruct b. Qed.
Lemma readonly_foreach {A} (f : A -> M unit) l : (forall x, readonly (f x)) -> readonly (foreach f l).
Proof. intros Hf. induction l as [|x l IH]; [apply readonly_ret|]. apply readonly_bind; [apply Hf|done]. Qed.

(** What is read is the state the next change finds, across readonly steps. *)
Lemma preserves_get {A} (f : router_state -> M A) V :
  (forall rs0, state_ok rs0 -> hoare (eq rs0) (f rs0) (fun a rs => V a /\ state_ok rs)) ->
  preserves (get_rs ≫= f) V.
Proof. intros H w He Hok. by apply (H (w_rs w) Hok w). Qed.
Lemma hoare_quiet_bind {A B} P (m : M A) (f : A -> M B) Q :
  readonly m -> (forall a, hoare P (f a) Q) -> hoare P (m ≫= f) Q.
Proof. intros Hm. eapply hoare_bind. by apply readonly_hoare. Qed.
Lemma hoare_modify P (f : router_state -> router_state) Q :
  (forall rs, P rs -> Q tt (f rs)) -> hoare P (modify_rs f) Q.
Proof. intros H w _ HP. split; [done|]. by apply H. Qed.
Lemma hoare_keeps {A B} P (m : M A) (f : A -> M B) V :
  hoare P m (fun _ => state_ok) -> (forall a, preserves (f a) V) ->
  hoare P (m ≫= f) (fun b rs => V b /\ state_ok rs).
Proof. intros Hm Hf. eapply hoare_bind; [exact Hm|]. intros a. apply Hf. Qed.

Create HintDb readonly discriminated.
Create HintDb preserves discriminated.
#[export] Hint Resolve readonly_ret readonly_fail readonly_emit readonly_fresh_addr readonly_get_rs readonly_assert : readonly.
#[export] Hint Extern 1 (readonly (mem _)) => apply readonly_lift : readonly.
#[export] Hint Extern 1 (readonly (deref _)) => apply readonly_lift : readonly.
#[export] Hint Extern 1 (readonly (lift _ _)) => apply readonly_lift : readonly.
#[export] Hint Extern 1 (readonly (lift_res _)) => apply readonly_lift_res : readonly.
#[export] Hint Extern 1 (readonly time) => apply readonly_ask : readonly.
#[export] Hint Extern 1 (readonly rand) => apply readonly_ask : readonly.
#[export] Hint Extern 1 (readonly (ask _)) => apply readonly_ask : readonly.
#[export] Hint Extern 1 (readonly (readReg _)) => apply readonly_ask : readonly.
#[export] Hint Extern 1 (readonly (writeReg _ _)) => apply readonly_emit : readonly.
#[export] Hint Extern 1 (readonly (acquire _ _)) => apply readonly_emit : readonly.
#[export] Hint Extern 1 (readonly (release _)) => apply readonly_emit : readonly.
#[export] Hint Extern 1 (readonly (signal _)) => apply readonly_emit : readonly.
#[export] Hint Extern 1 (readonly (send_to_socket _ _)) => apply readonly_emit : readonly.

(** Proves that a computation is readonly, from its structure. *)
Ltac readonly_step :=
  cbv beta zeta;
  lazymatch goal with
  | |- readonly ?m => first
      [ solve [auto with readonly nocore]
      | lazymatch m with
        | (match ?x with _ => _ end) ≫= _ => apply readonly_bind; [|intros ?]
        | _ ≫= _ => apply readonly_bind; [|intros ?]
        | match ?x with _ => _ end => destruct x
        end ]
  end.
Ltac readonly := repeat readonly_step.

(** ** Rules for the invariant *)

Lemma preserves_ret {A} (a : A) (V : A -> Prop) : V a -> preserves (mret a) V.
Proof. intros H. apply hoare_ret. auto. Qed.
Lemma preserves_bind {A B} (m : M A) (f : A -> M B) V W :
  preserves m V -> (forall a, V a -> preserves (f a) W) -> preserves (m ≫= f) W.
Proof.
  intros Hm Hf. eapply hoare_bind; [exact Hm|]. intros a w He [HV Hok]. by apply Hf.
Qed.
Lemma preserves_weaken {A} (m : M A) (V W : A -> Prop) : preserves m V -> (forall a, V a -> W a) -> preserves m W.
Proof. intros Hm H. eapply hoare_conseq; [exact Hm|done|]. intros a rs [HV Hok]. auto. Qed.
Lemma preserves_any {A} (m : M A) V : preserves m V -> preserves m any.
Proof. intros Hm. by eapply preserves_weaken. Qed.
Lemma preserves_quiet {A} (m : M A) : readonly m -> preserves m any.
Proof.
  intros Hm. eapply hoare_conseq; [apply (readonly_hoare state_ok m Hm)|done|]. by intros a rs Hok.
Qed.
Lemma preserves_fail {A} c (V : A -> Prop) : preserves (fail c) V.
Proof. intros w _ _. done. Qed.
Lemma preserves_get_rs : preserves get_rs state_ok.
Proof. intros w _ Hok. done. Qed.
Lemma preserves_put_rs rs : state_ok rs -> preserves (put_rs rs) any.
Proof. intros Hok w _ _. done. Qed.
Lemma preserves_modify f : (forall rs, state_ok rs -> state_ok (f rs)) -> preserves (modify_rs f) any.
Proof. intros Hf w _ Hok. simpl. unfold any. auto. Qed.
Lemma preserves_lift {A} c (o : option A) : preserves (lift c o) (fun a => o = Some a).
Proof. intros w _ Hok. destruct o; simpl; auto. Qed.
Lemma preserves_lift_res {A} (r : res A) : preserves (lift_res r) (fun a => r = inr a).
Proof. intros w _ Hok. destruct r; simpl; auto. Qed.
Lemma preserves_time : preserves time is_time.
Proof. intros w He Hok. simpl. auto. Qed.
Lemma preserves_foreach {A} (f : A -> M unit) (l : list A) (P : A -> Prop) :
  Forall P l -> (forall x, P x -> preserves (f x) any) -> preserves (foreach f l) any.
Proof.
  intros Hl Hf. induction Hl as [|x l Hx Hl IH]; [by apply preserves_ret|].
  eapply preserves_bind; [by apply Hf|]. intros _ _. exact IH.
Qed.
(** The elements kept by a filter are some of those it was given. *)
Lemma preserves_filter {A} (f : A -> M (option A)) l :
  (forall x, preserves (f x) (fun o => o = None \/ o = Some x)) ->
  preserves (filter_mapM f l) (fun r => sublist r l).
Proof.
  intros Hf. induction l as [|x l IH]; [apply preserves_ret; constructor|].
  eapply preserves_bind; [apply Hf|]. intros o Ho. eapply preserves_bind; [exact IH|]. intros r Hr.
  apply preserves_ret. destruct Ho as [-> | ->]; by constructor.
Qed.

(** ** Sublists, and lists changed at one place *)

Lemma sublist_map {A B} (f : A -> B) l k : sublist l k -> sublist (map f l) (map f k).
Proof. induction 1; simpl; by constructor. Qed.

Lemma sublist_bfilter {A} (f : A -> bool) l : sublist (bfilter f l) l.
Proof. induction l as [|x l IH]; simpl; [constructor|]. destruct (f x); by constructor. Qed.

Lemma Forall_sublist {A} (P : A -> Prop) l k : sublist l k -> Forall P k -> Forall P l.
Proof.
  induction 1; intros Hk; [done|apply Forall_cons in Hk as [??]; constructor; auto|].
  apply Forall_cons in Hk as [??]. auto.
Qed.

Lemma NoDup_sublist {A} (l k : list A) : sublist l k -> NoDup k -> NoDup l.
Proof.
  induction 1 as [|x l k H IH|x l k H IH]; intros Hk; [constructor| |].
  - apply NoDup_cons in Hk as [Hx Hk]. constructor; [|auto]. intros Hl. apply Hx.
    by eapply sublist_subseteq.
  - apply NoDup_cons in Hk as [_ Hk]. auto.
Qed.

Lemma map_alter_same {A B} (f : A -> B) (g : A -> A) i l :
  (forall x, f (g x) = f x) -> map f (alter g i l) = map f l.
Proof.
  intros H. revert i. induction l as [|x l IH]; intros [|i]; [done..| |]; cbn.
  - by rewrite H.
  - f_equal. apply IH.
Qed.

Lemma Forall_delete {A} (P : A -> Prop) i l : Forall P l -> Forall P (delete i l).
Proof. intros H. eapply Forall_sublist; [apply sublist_delete|done]. Qed.

(** Keys that are found once. *)
Lemma keys_snoc {A B} (key : A -> B) l x : NoDup (map key l) -> (forall y, y ∈ l -> key y ≠ key x) ->
  NoDup (map key (l ++ [x])).
Proof.
  intros Hl Hx. rewrite map_app. apply NoDup_app. split_and!; [done| |apply NoDup_singleton].
  intros k Hk1 Hk2. apply list_elem_of_singleton in Hk2 as ->.
  apply list_elem_of_fmap in Hk1 as (y & E & Hy). by apply (Hx y).
Qed.

(** ** One field at a time *)

Lemma ok_set_rtable rs l : state_ok rs -> Forall route_ok l -> state_ok (set_rtable l rs).
Proof. intros [] Hl. by constructor. Qed.
Lemma ok_set_arp_cache rs l : state_ok rs -> Forall arp_entry_ok l -> NoDup (map ac_ip l) ->
  state_ok (set_arp_cache l rs).
Proof. intros [] H1 H2. by constructor. Qed.
Lemma ok_set_if_list rs l : state_ok rs -> Forall iface_ok l -> state_ok (set_if_list l rs).
Proof. intros [] Hl. by constructor. Qed.
Lemma ok_set_arp_queue rs l : state_ok rs -> Forall queue_entry_ok l -> NoDup (map aq_next_hop l) ->
  state_ok (set_arp_queue l rs).
Proof. intros [] H1 H2. by constructor. Qed.
Lemma ok_set_router_list rs l : state_ok rs -> Forall pwospf_router_ok l -> NoDup (map pr_router_id l) ->
  state_ok (set_pwospf_router_list l rs).
Proof. intros [] H1 H2. by constructor. Qed.
Lemma ok_set_nat_table rs l : state_ok rs -> Forall nat_entry_ok l -> state_ok (set_nat_table l rs).
Proof. intros [] Hl. by constructor. Qed.
Lemma ok_set_filters rs l : state_ok rs -> Forall filter_ok l -> state_ok (set_local_ip_filter_list l rs).
Proof. intros [] Hl. by constructor. Qed.
Lemma ok_set_sping_queue rs l : state_ok rs -> state_ok (set_sping_queue l rs).
Proof. intros []. by constructor. Qed.
Lemma ok_set_lsu_queue rs l : state_ok rs -> Forall queued_lsu_ok l -> state_ok (set_pwospf_lsu_queue l rs).
Proof. intros [] Hl. by constructor. Qed.
Lemma ok_set_dirty rs v : state_ok rs -> state_ok (set_dijkstra_dirty v rs).
Proof. intros []. by constructor. Qed.
Lemma ok_set_area_id rs v : is_u32 v -> state_ok rs -> state_ok (set_area_id v rs).
Proof. intros Hv []. by constructor. Qed.
Lemma ok_set_hello rs v : is_u16 v -> state_ok rs -> state_ok (set_pwospf_hello_interval v rs).
Proof. intros Hv []. by constructor. Qed.
Lemma ok_set_lsu rs v : is_u32 v -> state_ok rs -> state_ok (set_pwospf_lsu_interval v rs).
Proof. intros Hv []. by constructor. Qed.
Lemma ok_set_lsu_broadcast rs v : state_ok rs -> state_ok (set_pwospf_lsu_broadcast v rs).
Proof. intros []. by constructor. Qed.
Lemma ok_set_arp_ttl rs v : is_u32 v -> state_ok rs -> state_ok (set_arp_ttl v rs).
Proof. intros Hv []. by constructor. Qed.
#[export] Hint Resolve ok_set_sping_queue ok_set_dirty ok_set_lsu_broadcast : preserves.
#[export] Hint Resolve preserves_get_rs preserves_time preserves_lift preserves_lift_res preserves_fail : preserves.

(** ** What a partial function returns *)

(** The result of [o], if there is one, satisfies [V]. *)
Definition returns {A} (V : A -> Prop) (o : option A) : Prop := forall a, o = Some a -> V a.

Lemma returns_bind {A B} V W (o : option A) (f : A -> option B) :
  returns W o -> (forall a, W a -> returns V (f a)) -> returns V (o ≫= f).
Proof. intros Ho Hf b (a & Ha & Hb)%bind_Some_inv. by apply (Hf a); [apply Ho|]. Qed.
Lemma returns_bind_any {A B} V (o : option A) (f : A -> option B) :
  (forall a, returns V (f a)) -> returns V (o ≫= f).
Proof. intros Hf b (a & Ha & Hb)%bind_Some_inv. by apply (Hf a). Qed.
Lemma returns_Some {A} (V : A -> Prop) a : V a -> returns V (Some a).
Proof. by intros Ha b [= <-]. Qed.
Lemma returns_None {A} (V : A -> Prop) : returns V None.
Proof. done. Qed.
Lemma returns_find {A} (V : A -> Prop) f l : Forall V l -> returns V (find_first f l).
Proof.
  intros Hl a. induction Hl as [|x l Hx Hl IH]; simpl; [done|].
  destruct (f x); [by intros [= <-]|done].
Qed.
Lemma returns_lookup {A} (V : A -> Prop) (l : list A) i : Forall V l -> returns V (l !! i).
Proof. intros Hl a Ha. by eapply Forall_lookup_1. Qed.

Lemma returns_get8 p o : is_bytes p -> returns is_u8 (get8 p o).
Proof. intros Hp v. by apply get8_is_u8. Qed.
Lemma returns_get16 p o : is_bytes p -> returns is_u16 (get16 p o).
Proof. intros Hp v. by apply get16_is_u16. Qed.
Lemma returns_get32 p o : is_bytes p -> returns is_u32 (get32 p o).
Proof. intros Hp v. by apply get32_is_u32. Qed.
Lemma returns_get_mac p o : is_bytes p -> returns is_mac (get_range p o 6).
Proof. intros Hp v H. split; [by eapply get_range_length|by eapply get_range_bytes]. Qed.
Lemma returns_get_range p o n : is_bytes p -> returns is_bytes (get_range p o n).
Proof. intros Hp v. by apply get_range_bytes. Qed.
Lemma returns_put8 p o v : is_bytes p -> returns is_bytes (put8 p o v).
Proof. intros Hp q. by apply put8_bytes. Qed.
Lemma returns_put16 p o v : is_bytes p -> returns is_bytes (put16 p o v).
Proof. intros Hp q. by apply put16_bytes. Qed.
Lemma returns_put32 p o v : is_bytes p -> returns is_bytes (put32 p o v).
Proof. intros Hp q. by apply put32_bytes. Qed.
Lemma returns_put_range p o bs : is_bytes p -> is_bytes bs -> returns is_bytes (put_range p o bs).
Proof. intros Hp Hb q. by apply put_range_bytes. Qed.
Lemma returns_bzero p o n : is_bytes p -> returns is_bytes (bzero p o n).
Proof. intros Hp q. by apply bzero_bytes. Qed.
Lemma is_bytes_take n p : is_bytes p -> is_bytes (take n p).
Proof. apply Forall_take. Qed.
Lemma is_mac_bytes p : is_mac p -> is_bytes p.
Proof. by intros []. Qed.
Lemma is_bytes_app p q : is_bytes p -> is_bytes q -> is_bytes (p ++ q).
Proof. intros. by apply Forall_app. Qed.

Lemma hop_u32 a b : hop_ok (a, b) -> is_u32 a.
Proof. done. Qed.
Lemma packet_of_bytes {B} p (b : B) : packet_of_ok (p, b) -> is_bytes p.
Proof. done. Qed.

Lemma hop_ok_pair a b : is_u32 a -> hop_ok (a, b).
Proof. done. Qed.
Lemma packet_of_pair {B} p (b : B) : is_bytes p -> packet_of_ok (p, b).
Proof. done. Qed.

Create HintDb returns discriminated.
#[export] Hint Resolve returns_None returns_get8 returns_get16 returns_get32 returns_get_mac
  returns_get_range returns_put8 returns_put16 returns_put32 returns_put_range returns_bzero
  calloc_bytes is_bytes_take is_mac_bytes is_bytes_app
  hop_ok_pair packet_of_pair : returns.
#[export] Hint Resolve is_mac_bytes : preserves.
#[export] Hint Extern 1 (is_bytes ?p) =>
  match goal with H : packet_of_ok (p, _) |- _ => exact (packet_of_bytes _ _ H) end : preserves returns.
#[export] Hint Extern 1 (is_u32 ?a) =>
  match goal with H : hop_ok (a, _) |- _ => exact (hop_u32 _ _ H) end : preserves returns.
Lemma land_u32 a b : is_u32 a -> is_u32 (Z.land a b).
Proof.
  intros Ha. rewrite <- (u32_id a Ha). unfold u32.
  rewrite <- Z.land_ones, <- Z.land_assoc, (Z.land_comm (Z.ones 32)), Z.land_assoc, Z.land_ones by lia.
  apply u32_range.
Qed.
Lemma ntohl_u32 x : is_u32 (ntohl x).
Proof. apply bswap32_range. Qed.
Lemma htonl_u32 x : is_u32 (htonl x).
Proof. apply bswap32_range. Qed.
Lemma ntohs_u16 x : is_u16 (ntohs x).
Proof. apply bswap16_range. Qed.
Lemma htons_u16 x : is_u16 (htons x).
Proof. apply bswap16_range. Qed.
Lemma u32_zero : is_u32 0.
Proof. done. Qed.
#[export] Hint Resolve land_u32 ntohl_u32 htonl_u32 ntohs_u16 htons_u16 u16_range u32_range u32_zero : preserves returns.
Lemma is_bytes_nil : is_bytes [].
Proof. constructor. Qed.
#[export] Hint Resolve is_bytes_nil : returns.
#[export] Hint Extern 1 (is_bytes (default _ _)) => progress cbn [default from_option] : returns.
#[export] Hint Extern 4 (returns _ (Some _)) => apply returns_Some : returns.
(* the fields of the headers are loads and stores *)
Ltac unfold_field := lazymatch goal with
  | |- returns _ (?f _ _) => unfold f
  | |- returns _ (?f _ _ _) => unfold f
  end.
#[export] Hint Extern 3 (returns is_u8 _) => unfold_field; simple apply returns_get8 : returns.
#[export] Hint Extern 3 (returns is_u16 _) => unfold_field; simple apply returns_get16 : returns.
#[export] Hint Extern 3 (returns is_u32 _) => unfold_field; simple apply returns_get32 : returns.
#[export] Hint Extern 3 (returns is_mac _) => unfold_field; simple apply returns_get_mac : returns.
#[export] Hint Extern 5 (returns is_bytes _) => unfold_field;
  first [simple apply returns_put8 | simple apply returns_put16 | simple apply returns_put32] : returns.

(** Proves [returns V o] from the structure of [o]. *)
Ltac returns_step :=
  cbv beta zeta;
  lazymatch goal with
  | |- returns _ (match ?x with _ => _ end) => destruct x eqn:?
  | |- returns _ (Some _) => apply returns_Some
  | |- returns _ (?o ≫= _) =>
      lazymatch type of o with
      | option (list Z) => apply (returns_bind _ is_bytes); [|intros ? ?]
      | option (list Z * ?B) => apply (returns_bind _ (@packet_of_ok B)); [|intros [? ?] ?; cbv beta iota]
      | _ => apply returns_bind_any; intros ?
      end
  | |- _ => solve [eauto with returns nocore]
  end.
Ltac returns := repeat returns_step.

(** Records what is known of the result of a partial function. *)
Ltac learn H :=
  lazymatch type of H with
  | ?o = Some ?a =>
      let known V := (let K := fresh "K" in assert (V a) as K
        by (revert H; generalize a; change (returns V o); solve [eauto with returns nocore])) in
      lazymatch type of a with
      | list Z => first [known is_mac | known is_bytes | idtac]
      | Z => first [known is_u8 | known is_u16 | known is_u32 | idtac]
      | iface_entry => first [known iface_ok | idtac]
      | arp_cache_entry => first [known arp_entry_ok | idtac]
      | arp_queue_entry => first [known queue_entry_ok | idtac]
      | pwospf_router => first [known pwospf_router_ok | idtac]
      | nat_entry => first [known nat_entry_ok | idtac]
      | prod Z string => first [known hop_ok | idtac]
      | prod (list Z) ?B => first [known (@packet_of_ok B) | idtac]
      | _ => idtac
      end
  | _ => idtac
  end.

(** Proves that a computation preserves the invariant, from its structure; what is
    left are the changes of the state and the results. *)
Ltac keep_step :=
  cbv beta zeta;
  lazymatch goal with
  | |- preserves (mret _) any => apply preserves_ret; exact I
  | |- preserves (mret _) is_bytes => apply preserves_ret; solve [eauto with preserves nocore]
  | |- preserves (fail _) _ => apply preserves_fail
  | |- preserves (get_rs ≫= _) _ => eapply preserves_bind; [apply preserves_get_rs|intros ? ?; cbv beta in *]
  | |- preserves (time ≫= _) _ => eapply preserves_bind; [apply preserves_time|intros ? ?; cbv beta in *]
  | |- preserves (mem _ ≫= _) _ => eapply preserves_bind; [apply preserves_lift|let H := fresh in intros ? H; cbv beta in H; learn H]
  | |- preserves (deref _ ≫= _) _ => eapply preserves_bind; [apply preserves_lift|let H := fresh in intros ? H; cbv beta in H; learn H]
  | |- preserves (lift _ _ ≫= _) _ => eapply preserves_bind; [apply preserves_lift|let H := fresh in intros ? H; cbv beta in H; learn H]
  | |- preserves (lift_res _ ≫= _) _ => eapply preserves_bind; [apply preserves_lift_res|intros ? ?; cbv beta in *]
  | |- preserves (put_rs _ ≫= _) _ => eapply preserves_bind; [apply preserves_put_rs|intros _ _]
  | |- preserves (modify_rs _ ≫= _) _ => eapply preserves_bind; [apply preserves_modify|intros _ _]
  | |- preserves (put_rs _) any => apply preserves_put_rs
  | |- preserves (modify_rs _) any => apply preserves_modify
  | |- preserves (match ?x with _ => _ end) _ => let H := fresh in destruct x eqn:H; learn H
  | |- preserves (mbind (A := ?T) _ (match ?x with _ => _ end)) _ =>
      lazymatch T with
      | list Z => eapply (preserves_bind _ _ is_bytes); [|intros ? ?; cbv beta in *]
      | _ => eapply (preserves_bind _ _ any); [|intros ? _]
      end
  | |- preserves (?m ≫= _) _ =>
      first [ eapply preserves_bind; [solve [eauto with preserves nocore]|intros ? ?; cbv beta in *]
            | eapply preserves_bind; [apply preserves_quiet; solve [readonly]|intros ? _]
            | lazymatch type of m with M (list Z) => eapply (preserves_bind _ _ is_bytes); [|intros ? ?; cbv beta in *] end
            | lazymatch m with _ ≫= _ => eapply (preserves_bind _ _ any); [|intros ? _] end ]
  | |- preserves _ any => first [solve [eauto with preserves nocore]
                            | eapply preserves_any; solve [eauto with preserves nocore]
                            | apply preserves_quiet; solve [readonly]]
  | |- preserves _ _ => solve [eauto with preserves nocore]
  | |- state_ok (set_dijkstra_dirty _ _) => apply ok_set_dirty
  | |- state_ok _ => solve [eauto with preserves nocore]
  | |- forall rs, state_ok rs -> _ => intros ? ?
  end.
Ltac keep := repeat keep_step.

