(* ===== verification/Preservation.v ===== *)
(** Every operation of the router preserves the invariant of Invariant.v, component
    by component. *)

From S2P Require Import Prelude Words Bytes State CStrings Sorting Netfpga Rtable Headers Checksum.
From S2P Require Import Packets Iface Arp Icmp Dijkstra Pwospf Nat IfaceCtl Sprint Ip Sping Cli Main.
From S2P Require Import Invariant.
Local Open Scope Z_scope.

(** ** The routing table *)

Lemma readonly_write_route_row i o : readonly (write_route_row i o).
Proof. unfold write_route_row, getOneHotPortNumber. destruct o; readonly. Qed.
#[export] Hint Resolve readonly_write_route_row : readonly.

Lemma readonly_write_rtable_loop n i cur : readonly (write_rtable_loop n i cur).
Proof. revert i cur. induction n as [|n IH]; intros i cur; cbn [write_rtable_loop]; [readonly|]. destruct cur; readonly. Qed.
#[export] Hint Resolve readonly_write_rtable_loop : readonly.

Lemma readonly_write_rtable_to_hw : readonly write_rtable_to_hw.
Proof. unfold write_rtable_to_hw. readonly. Qed.
#[export] Hint Resolve readonly_write_rtable_to_hw : readonly.

Lemma preserves_trigger_rtable_modified : preserves trigger_rtable_modified any.
Proof.
  unfold trigger_rtable_modified. keep. apply ok_set_rtable; [done|].
  match goal with H : bubble_sort _ _ = Some _ |- _ => apply bubble_loop_perm in H as -> end.
  by apply ok_routes.
Qed.
#[export] Hint Resolve preserves_trigger_rtable_modified : preserves.

Lemma preserves_add_route dest gateway mask interface : is_u32 dest -> is_u32 gateway -> is_u32 mask ->
  preserves (add_route dest gateway mask interface) any.
Proof.
  intros Hd Hg Hm. unfold add_route. keep. apply ok_set_rtable; [done|].
  apply Forall_app. split; [by apply ok_routes|]. by apply Forall_singleton.
Qed.

Lemma preserves_del_route dest mask : preserves (del_route dest mask) any.
Proof.
  unfold del_route. keep. apply ok_set_rtable; [done|].
  match goal with H : del_route_loop _ _ _ _ = _ |- _ => rewrite del_route_loop_spec in H; injection H as <- _ end.
  eapply Forall_sublist; [apply sublist_bfilter|by apply ok_routes].
Qed.

Lemma preserves_deactivate_routes interface : preserves (deactivate_routes interface) any.
Proof.
  unfold deactivate_routes. keep. apply ok_set_rtable; [done|].
  match goal with H : state_ok ?rs |- _ => pose proof (ok_routes rs H) as Hr end.
  induction Hr as [|e l He Hl IH]; simpl; [constructor|].
  destruct (route_on interface e); [destruct (re_is_static e)|]; try constructor; done.
Qed.

Lemma preserves_activate_routes interface : preserves (activate_routes interface) any.
Proof.
  unfold activate_routes. keep. apply ok_set_rtable; [done|].
  match goal with H : state_ok ?rs |- _ => pose proof (ok_routes rs H) as Hr end.
  induction Hr as [|e l He Hl IH]; simpl; constructor; [by destruct (route_on interface e)|done].
Qed.
#[export] Hint Resolve preserves_add_route preserves_del_route preserves_deactivate_routes preserves_activate_routes : preserves.

(** ** Frames and packets sent *)

Lemma returns_populate_eth_hdr p o dhost shost t :
  is_bytes p -> is_bytes (default [] dhost) -> is_bytes shost ->
  returns is_bytes (populate_eth_hdr p o dhost shost t).
Proof. intros Hp Hd Hs. unfold populate_eth_hdr. returns. Qed.
Lemma returns_populate_arp_hdr p o tha tip sha sip op :
  is_bytes p -> is_bytes (default [] tha) -> is_bytes sha ->
  returns is_bytes (populate_arp_hdr p o tha tip sha sip op).
Proof. intros Hp Hd Hs. unfold populate_arp_hdr. returns. Qed.
Lemma returns_populate_ip p o n proto src dst : is_bytes p -> returns is_bytes (populate_ip p o n proto src dst).
Proof. intros Hp. unfold populate_ip. returns. Qed.
Lemma returns_populate_icmp p o t c payload : is_bytes p -> is_bytes payload ->
  returns is_bytes (populate_icmp p o t c payload).
Proof. intros Hp Hd. unfold populate_icmp. returns. Qed.
Lemma returns_compute_ip_checksum p ip : is_bytes p -> returns packet_of_ok (compute_ip_checksum p ip).
Proof. intros Hp. unfold compute_ip_checksum. returns. Qed.
Lemma returns_compute_icmp_checksum p o n : is_bytes p -> returns packet_of_ok (compute_icmp_checksum p o n).
Proof. intros Hp. unfold compute_icmp_checksum. returns. Qed.
Lemma returns_compute_pwospf_checksum p o : is_bytes p -> returns packet_of_ok (compute_pwospf_checksum p o).
Proof. intros Hp. unfold compute_pwospf_checksum. returns. Qed.
#[export] Hint Resolve returns_compute_ip_checksum returns_compute_icmp_checksum
  returns_compute_pwospf_checksum : returns.
Lemma returns_fill_ip_checksum p ip : is_bytes p -> returns is_bytes (fill_ip_checksum p ip).
Proof. intros Hp. unfold fill_ip_checksum. returns. Qed.
Lemma returns_fill_icmp_checksum p o n : is_bytes p -> returns is_bytes (fill_icmp_checksum p o n).
Proof. intros Hp. unfold fill_icmp_checksum. returns. Qed.
Lemma returns_fill_pwospf_checksum p o : is_bytes p -> returns is_bytes (fill_pwospf_checksum p o).
Proof. intros Hp. unfold fill_pwospf_checksum. returns. Qed.
#[export] Hint Resolve returns_fill_pwospf_checksum : returns.
#[export] Hint Resolve returns_populate_eth_hdr returns_populate_arp_hdr returns_populate_ip
  returns_populate_icmp returns_fill_ip_checksum returns_fill_icmp_checksum : returns.

(** ** The ARP cache *)

Lemma readonly_write_arp_entry entry row : readonly (write_arp_cache_entry_to_hw entry row).
Proof. unfold write_arp_cache_entry_to_hw. readonly. Qed.
#[export] Hint Resolve readonly_write_arp_entry : readonly.
Lemma readonly_write_arp_static cur i : readonly (write_arp_static cur i).
Proof. revert i. induction cur as [|e cur IH]; intros i; cbn [write_arp_static]; readonly; apply IH. Qed.
Lemma readonly_write_arp_zero n i : readonly (write_arp_zero n i).
Proof. revert i. induction n as [|n IH]; intros i; cbn [write_arp_zero]; readonly; apply IH. Qed.
#[export] Hint Resolve readonly_write_arp_static readonly_write_arp_zero : readonly.
Lemma readonly_write_arp_dynamic cur i : readonly (write_arp_dynamic cur i).
Proof. revert i. induction cur as [|e cur IH]; intros i; cbn [write_arp_dynamic]; readonly; apply IH. Qed.
#[export] Hint Resolve readonly_write_arp_dynamic : readonly.
Lemma readonly_write_arp_cache_to_hw : readonly write_arp_cache_to_hw.
Proof. unfold write_arp_cache_to_hw. readonly. Qed.
#[export] Hint Resolve readonly_write_arp_cache_to_hw : readonly.
Lemma readonly_trigger_arp_cache_modified : readonly trigger_arp_cache_modified.
Proof. unfold trigger_arp_cache_modified. readonly. Qed.
#[export] Hint Resolve readonly_trigger_arp_cache_modified : readonly.

Lemma update_arp_entry_keys ip f l : (forall e, ac_ip (f e) = ac_ip e) ->
  map ac_ip (update_arp_entry ip f l) = map ac_ip l.
Proof.
  intros Hf. induction l as [|e l IH]; simpl; [done|].
  destruct (ip =? ac_ip e); simpl; by rewrite ?Hf, ?IH.
Qed.

Lemma ok_update_arp_cache rs ip mac t st : is_u32 ip -> is_mac mac -> state_ok rs ->
  state_ok (match in_arp_cache rs ip with
    | Some _ => set_arp_cache (update_arp_entry ip
        (fun e => mk_arp_cache_entry (ac_ip e) mac t st) (arp_cache rs)) rs
    | None => set_arp_cache (arp_cache rs ++ [mk_arp_cache_entry ip mac t st]) rs
    end).
Proof.
  intros Hip Hm Hok. destruct (in_arp_cache rs ip) eqn:E; apply ok_set_arp_cache; try done.
  - pose proof (ok_cache _ Hok) as Hc. clear E. induction Hc as [|e l [He1 He2] Hl IH]; simpl; [constructor|].
    by destruct (ip =? ac_ip e); constructor.
  - rewrite update_arp_entry_keys by done. by apply ok_cache_keys.
  - apply Forall_app. split; [by apply ok_cache|]. by apply Forall_singleton.
  - apply keys_snoc; [by apply ok_cache_keys|]. intros e He. simpl.
    apply (proj1 (find_first_None _ _) E), Z.eqb_neq in He. done.
Qed.

Lemma preserves_update_arp_cache ip mac st : is_u32 ip -> is_mac mac ->
  preserves (update_arp_cache ip mac st) any.
Proof.
  intros Hip Hm. apply preserves_get. intros rs0 Hok. apply hoare_quiet_bind; [readonly|]. intros t.
  apply hoare_keeps; [|intros _; keep].
  pose proof (ok_update_arp_cache rs0 ip mac t st Hip Hm Hok) as H.
  destruct (in_arp_cache rs0 ip); apply hoare_modify; by intros rs <-.
Qed.

Lemma del_arp_cache_loop_filter ip l r :
  (del_arp_cache_loop ip l r).1 = bfilter (fun e => negb (ac_ip e =? ip)) l.
Proof.
  revert r. induction l as [|e l IH]; intros r; simpl; [done|].
  destruct (ac_ip e =? ip); simpl; [apply IH|].
  specialize (IH r). by destruct (del_arp_cache_loop ip l r); simpl in *; subst.
Qed.

Lemma ok_sub_arp_cache rs l : sublist l (arp_cache rs) -> state_ok rs -> state_ok (set_arp_cache l rs).
Proof.
  intros Hs Hok. apply ok_set_arp_cache; [done| |].
  - eapply Forall_sublist; [done|by apply ok_cache].
  - eapply NoDup_sublist; [by apply sublist_map|by apply ok_cache_keys].
Qed.

Lemma preserves_del_arp_cache ip : preserves (del_arp_cache ip) any.
Proof.
  unfold del_arp_cache. keep. apply ok_sub_arp_cache; [|done].
  match goal with H : del_arp_cache_loop ip ?l ?r = _ |- _ =>
    pose proof (del_arp_cache_loop_filter ip l r) as E; rewrite H in E; simpl in E; subst end.
  apply sublist_bfilter.
Qed.

Lemma preserves_expire_arp_cache : preserves expire_arp_cache any.
Proof.
  unfold expire_arp_cache. eapply preserves_bind; [apply preserves_get_rs|intros rs Hok].
  eapply preserves_bind.
  - apply preserves_filter. intros e. unfold expire_arp_entry. keep; apply preserves_ret; [|by right].
    destruct (arp_ttl rs <? _); [by left|by right].
  - intros l Hl. cbv beta in Hl. keep. by apply ok_sub_arp_cache.
Qed.
#[export] Hint Resolve preserves_update_arp_cache preserves_del_arp_cache preserves_expire_arp_cache : preserves.

(** ** Output *)

Lemma readonly_send_packet packet len iface : readonly (send_packet packet len iface).
Proof. unfold send_packet, low_level_output. readonly. Qed.
#[export] Hint Resolve readonly_send_packet : readonly.
Lemma readonly_send_arp_request tip interface : readonly (send_arp_request tip interface).
Proof. unfold send_arp_request. readonly. Qed.
#[export] Hint Resolve readonly_send_arp_request : readonly.

Lemma ok_arp_queue_snoc rs aqe : get_from_arp_queue rs (aq_next_hop aqe) = None ->
  queue_entry_ok aqe -> state_ok rs -> state_ok (set_arp_queue (arp_queue rs ++ [aqe]) rs).
Proof.
  intros E He Hok. apply ok_set_arp_queue; [done| |].
  - apply Forall_app. split; [by apply ok_queue|]. by apply Forall_singleton.
  - apply keys_snoc; [by apply ok_queue_keys|]. intros e Hin.
    by apply (proj1 (find_index_None _ _) E), Z.eqb_neq in Hin.
Qed.

Lemma ok_arp_queue_alter rs f n :
  (forall e, queue_entry_ok e -> queue_entry_ok (f e)) -> (forall e, aq_next_hop (f e) = aq_next_hop e) ->
  state_ok rs -> state_ok (set_arp_queue (alter f n (arp_queue rs)) rs).
Proof.
  intros Hf Hk Hok. apply ok_set_arp_queue; [done| |].
  - apply Forall_alter; [by apply ok_queue|]. intros e _ He. by apply Hf.
  - rewrite map_alter_same by done. by apply ok_queue_keys.
Qed.

Lemma ok_arp_queue_delete rs n : state_ok rs -> state_ok (set_arp_queue (delete n (arp_queue rs)) rs).
Proof.
  intros Hok. apply ok_set_arp_queue; [done|apply Forall_delete; by apply ok_queue|].
  eapply NoDup_sublist; [|by apply ok_queue_keys]. apply sublist_map, sublist_delete.
Qed.

(** Taking the first packet of an entry off. *)
Lemma ok_arp_queue_pop rs n : state_ok rs ->
  state_ok (set_arp_queue (alter (fun aqe => set_aq_head (tail (aq_head aqe)) aqe) n (arp_queue rs)) rs).
Proof.
  apply ok_arp_queue_alter; [|done]. intros e (H1 & H2 & H3). split; [done|]. split; [done|]. simpl.
  destruct H3; [by constructor|done].
Qed.
#[export] Hint Resolve ok_arp_queue_delete : preserves.
#[export] Hint Extern 4 (state_ok (set_arp_queue (alter _ _ _) _)) => apply ok_arp_queue_pop : preserves.

Lemma preserves_arp_queue_add packet len iface next_hop : is_u32 next_hop -> is_bytes packet ->
  preserves (arp_queue_add packet len iface next_hop) any.
Proof.
  intros Hn Hp. apply preserves_get. intros rs0 Hok.
  assert (queued_ok (mk_arp_queue_packet_entry packet len)) as Hq by exact Hp.
  destruct (get_from_arp_queue rs0 next_hop) as [i|] eqn:E.
  - apply hoare_modify. intros rs <-. split; [done|]. apply ok_arp_queue_alter; [|done..].
    intros e (H1 & H2 & H3). split; [done|]. split; [done|]. apply Forall_app. split; [done|].
    by apply Forall_singleton.
  - apply hoare_quiet_bind; [readonly|]. intros now. apply hoare_quiet_bind; [readonly|]. intros _.
    apply hoare_modify. intros rs <-. split; [done|]. apply ok_arp_queue_snoc; [done| |done].
    split; [done|]. split; [simpl; lia|]. by apply Forall_singleton.
Qed.
#[export] Hint Resolve preserves_arp_queue_add : preserves.

Lemma returns_in_arp_cache rs next_hop : state_ok rs -> returns arp_entry_ok (get_from_arp_cache rs next_hop).
Proof. intros Hok. apply returns_find. by apply ok_cache. Qed.
Lemma returns_arp_queue rs n : state_ok rs -> returns queue_entry_ok (arp_queue rs !! n).
Proof. intros Hok. apply returns_lookup. by apply ok_queue. Qed.
Lemma returns_get_iface rs name : state_ok rs -> returns iface_ok (get_iface rs name).
Proof. intros Hok. apply returns_find. by apply ok_ifaces. Qed.
Lemma returns_get_interface rs name : state_ok rs -> returns iface_ok (get_interface rs name).
Proof. intros Hok. apply returns_find. by apply ok_ifaces. Qed.
Lemma returns_find_iface f rs : state_ok rs -> returns iface_ok (find_first f (if_list rs)).
Proof. intros Hok. apply returns_find. by apply ok_ifaces. Qed.
Lemma ace_bytes e : arp_entry_ok e -> is_bytes (ac_ha e).
Proof. by intros [_ []]. Qed.
Lemma iface_bytes e : iface_ok e -> is_bytes (if_addr e).
Proof. by intros [[] _]. Qed.
Lemma iface_ip_u32 e : iface_ok e -> is_u32 (if_ip e).
Proof. by intros (_ & ? & _). Qed.
Lemma iface_mask_u32 e : iface_ok e -> is_u32 (if_mask e).
Proof. by intros (_ & _ & ? & _). Qed.
Lemma queue_next_hop e : queue_entry_ok e -> is_u32 (aq_next_hop e).
Proof. by intros []. Qed.
#[export] Hint Resolve returns_in_arp_cache returns_arp_queue returns_get_iface returns_get_interface
  returns_find_iface ace_bytes iface_bytes iface_ip_u32 iface_mask_u32 queue_next_hop : returns.
#[export] Hint Resolve iface_ip_u32 iface_mask_u32 queue_next_hop : preserves.

Lemma preserves_send_ip packet len next_hop iface : is_u32 next_hop -> is_bytes packet ->
  preserves (send_ip packet len next_hop iface) any.
Proof. intros Hn Hp. unfold send_ip. keep. Qed.
#[export] Hint Resolve preserves_send_ip : preserves.

(** The packets of an entry that is not empty. *)
Lemma queue_first e aqpe rest : queue_entry_ok e -> aq_head e = aqpe :: rest -> is_bytes (qp_packet aqpe).
Proof. intros (_ & _ & H) E. rewrite E in H. by apply Forall_cons in H as [? _]. Qed.
#[export] Hint Extern 1 (is_bytes (qp_packet _)) =>
  match goal with H : aq_head ?e = _ :: _, K : queue_entry_ok ?e |- _ => exact (queue_first _ _ _ K H) end
  : preserves returns.

Lemma preserves_send_entry_packets fuel n : preserves (send_entry_packets fuel n) any.
Proof.
  induction fuel as [|fuel IH]; cbn [send_entry_packets]; keep.
Qed.
#[export] Hint Resolve preserves_send_entry_packets : preserves.
Lemma preserves_send_queued_packets_loop fuel fp n ip : preserves (send_queued_packets_loop fuel fp n ip) any.
Proof. revert n. induction fuel as [|fuel IH]; intros n; cbn [send_queued_packets_loop]; keep. Qed.
#[export] Hint Resolve preserves_send_queued_packets_loop : preserves.
Lemma preserves_send_queued_packets ip : preserves (send_queued_packets ip) any.
Proof. unfold send_queued_packets. keep. Qed.
#[export] Hint Resolve preserves_send_queued_packets : preserves.

(** ** ARP packets *)

Lemma readonly_get_arp_hdr packet : readonly (get_arp_hdr packet).
Proof. unfold get_arp_hdr. readonly. Qed.
#[export] Hint Resolve readonly_get_arp_hdr : readonly.
Lemma readonly_send_arp_reply packet iface : readonly (send_arp_reply packet iface).
Proof. unfold send_arp_reply. readonly. Qed.
#[export] Hint Resolve readonly_send_arp_reply : readonly.

Lemma preserves_process_arp_packet packet : is_bytes packet -> preserves (process_arp_packet packet) any.
Proof.
  intros Hp. unfold process_arp_packet, process_arp_request, process_arp_reply, lock_if_list_rd,
    unlock_if_list, lock_arp_cache_wr, unlock_arp_cache, lock_arp_cache_rd, lock_arp_queue_wr, unlock_arp_queue.
  keep.
Qed.
#[export] Hint Resolve preserves_process_arp_packet : preserves.

(** ** ICMP and the retry queue *)

Lemma returns_next_hop n rs dst : state_ok rs -> is_u32 dst -> returns hop_ok (get_next_hop n rs dst).
Proof.
  intros Hok Hd p. unfold get_next_hop.
  destruct (get_next_hop_loop_spec dst (rtable rs) None (-1)) as [[-> _]|(e & -> & He & _)]; [done|].
  intros [= <-]. unfold hop_ok. simpl. destruct (re_gw e =? 0); [done|].
  destruct He as (l1 & l2 & E & _). pose proof (ok_routes _ Hok) as Hr. rewrite E in Hr.
  apply Forall_app in Hr as [_ Hr]. apply Forall_cons in Hr as [(_ & ? & _) _]. done.
Qed.
#[export] Hint Resolve returns_next_hop : returns.

Lemma returns_icmp_payload p len t : is_bytes p -> returns is_bytes (icmp_payload p len t).
Proof. intros Hp. unfold icmp_payload. returns. Qed.
#[export] Hint Resolve returns_icmp_payload : returns.
Lemma returns_build_icmp_packet p len t c ie : is_bytes p -> iface_ok ie ->
  returns packet_of_ok (build_icmp_packet p len t c ie).
Proof. intros Hp Hi. unfold build_icmp_packet. returns. Qed.
Lemma returns_populate_padding p start len pad : is_bytes p -> returns is_bytes (populate_padding p start len pad).
Proof.
  revert p start pad. induction len as [|len IH]; intros p start pad Hp; cbn [populate_padding]; returns.
Qed.
#[export] Hint Resolve returns_build_icmp_packet returns_populate_padding : returns.
Lemma returns_build_echo_request dst id ie : iface_ok ie -> returns is_bytes (build_echo_request dst id ie).
Proof. intros Hi. unfold build_echo_request. returns. Qed.
Lemma returns_restore_ttl p : is_bytes p -> returns is_bytes (restore_ttl p).
Proof. intros Hp. unfold restore_ttl. returns. Qed.
#[export] Hint Resolve returns_build_echo_request returns_restore_ttl : returns.

Lemma preserves_send_icmp_packet p len t c : is_bytes p -> preserves (send_icmp_packet p len t c) any.
Proof. intros Hp. unfold send_icmp_packet. keep. Qed.
Lemma preserves_send_icmp_echo_request_packet dst id : is_u32 dst -> preserves (send_icmp_echo_request_packet dst id) any.
Proof. intros Hd. unfold send_icmp_echo_request_packet. keep. Qed.
#[export] Hint Resolve preserves_send_icmp_packet preserves_send_icmp_echo_request_packet : preserves.

Lemma preserves_process_icmp_packet p len : is_bytes p -> preserves (process_icmp_packet p len) any.
Proof.
  intros Hp. unfold process_icmp_packet, process_icmp_echo_reply_packet, lock_mutex_sping_queue,
    unlock_mutex_sping_queue. keep.
Qed.
#[export] Hint Resolve preserves_process_icmp_packet : preserves.

Lemma preserves_bounce_packets fuel n : preserves (bounce_packets fuel n) any.
Proof. induction fuel as [|fuel IH]; cbn [bounce_packets]; keep. Qed.
#[export] Hint Resolve preserves_bounce_packets : preserves.

Lemma retry_entry_ok now aqe : aq_requests aqe < 5 -> queue_entry_ok aqe -> queue_entry_ok (retry_entry now aqe).
Proof. intros Hlt (H1 & H2 & H3). split; [done|]. split; [simpl; lia|done]. Qed.

(** The entry that is tried again is the one whose requests were counted. *)
Lemma ok_retry rs n aqe now : state_ok rs -> arp_queue rs !! n = Some aqe -> aq_requests aqe < 5 ->
  state_ok (set_arp_queue (alter (retry_entry now) n (arp_queue rs)) rs).
Proof.
  intros Hok Hn Hlt. pose proof (ok_queue _ Hok) as Hq. apply ok_set_arp_queue; [done| |].
  - apply Forall_alter; [done|]. intros e He Hqe. apply retry_entry_ok; [|done]. congruence.
  - rewrite map_alter_same by done. by apply ok_queue_keys.
Qed.

Lemma preserves_process_arp_queue_loop fuel fp n : preserves (process_arp_queue_loop fuel fp n) any.
Proof.
  revert n. induction fuel as [|fuel IH]; intros n; cbn [process_arp_queue_loop]; [keep|].
  apply preserves_get. intros rs0 Hok. destruct (arp_queue rs0 !! n) as [aqe|] eqn:En.
  2:{ by apply hoare_ret; intros rs <-. }
  cbv zeta. apply hoare_quiet_bind; [readonly|]. intros now. apply hoare_keeps.
  2:{ intros removed. keep. }
  destruct (1 <? now - aq_last_req_time aqe).
  2:{ by apply hoare_ret; intros rs <-. }
  destruct (aq_requests aqe <? 5) eqn:E.
  - apply hoare_quiet_bind; [readonly|]. intros now'. apply (hoare_bind _ _ _ (fun _ => state_ok)).
    { apply hoare_modify. intros rs <-. apply (ok_retry _ _ aqe now' Hok En). by apply Z.ltb_lt. }
    intros _. apply readonly_hoare. readonly.
  - apply (hoare_conseq _ state_ok _ _ (fun b rs => any b /\ state_ok rs)); [|by intros rs <-|by intros b rs [_ ?]].
    assert (preserves (bounce_packets fp n;; modify_rs (fun rs => set_arp_queue (delete n (arp_queue rs)) rs);;
      mret true) any) as H by keep. exact H.
Qed.
#[export] Hint Resolve preserves_process_arp_queue_loop : preserves.

Lemma preserves_arp_thread_round : preserves arp_thread_round any.
Proof.
  unfold arp_thread_round, process_arp_queue, lock_arp_cache_wr, unlock_arp_cache, lock_arp_cache_rd,
    lock_arp_queue_wr, unlock_arp_queue, lock_if_list_rd, unlock_if_list, lock_rtable_rd, unlock_rtable. keep.
Qed.

(** ** Shortest paths and routes *)

Lemma router_found_ok d b r : is_u32 d -> pwospf_router_ok r -> pwospf_router_ok (set_pr_distance_found d b r).
Proof. intros Hd (? & ? & ? & ? & _ & ?). by split_and!. Qed.
Lemma router_prev_ok d a r : is_u32 d -> pwospf_router_ok r -> pwospf_router_ok (set_pr_prev d a r).
Proof. intros Hd (? & ? & ? & ? & _ & ?). by split_and!. Qed.

(** Lists of routers that hold what the fields can hold, with the same ids. *)
Definition routers_keep (l l' : list pwospf_router) : Prop :=
  (Forall pwospf_router_ok l -> Forall pwospf_router_ok l') /\ map pr_router_id l' = map pr_router_id l.

Lemma routers_keep_refl l : routers_keep l l.
Proof. done. Qed.
Lemma routers_keep_trans l1 l2 l3 : routers_keep l1 l2 -> routers_keep l2 l3 -> routers_keep l1 l3.
Proof. intros [H1 E1] [H2 E2]. split; [auto|congruence]. Qed.
Lemma routers_keep_alter f k l : (forall r, pwospf_router_ok r -> pwospf_router_ok (f r)) ->
  (forall r, pr_router_id (f r) = pr_router_id r) -> routers_keep l (alter f k l).
Proof.
  intros Hf Hi. split; [|by apply map_alter_same]. intros Hl. apply Forall_alter; [done|].
  intros r _. apply Hf.
Qed.
Lemma routers_keep_foldl {B} (f : list pwospf_router -> B -> list pwospf_router) bs l :
  (forall l b, routers_keep l (f l b)) -> routers_keep l (foldl f l bs).
Proof.
  intros Hf. revert l. induction bs as [|b bs IH]; intros l; simpl; [done|].
  eapply routers_keep_trans; [apply Hf|apply IH].
Qed.

Lemma routers_keep_relax w l i : routers_keep l (relax w l i).
Proof.
  unfold relax. repeat case_match; try done. apply routers_keep_alter; [|done].
  intros r Hr. apply router_prev_ok; [apply u32_range|done].
Qed.

Lemma routers_keep_dijkstra fuel o l l' : dijkstra_loop fuel o l = Some l' -> routers_keep l l'.
Proof.
  revert o l. induction fuel as [|fuel IH]; intros [w|] l H; cbn [dijkstra_loop] in H; try done; try by injection H as <-.
  apply IH in H. eapply routers_keep_trans; [|exact H]. eapply routers_keep_trans.
  - apply (routers_keep_alter set_pr_found w); [|done]. intros r Hr. apply router_found_ok; [|done].
    by destruct Hr as (_ & _ & _ & _ & ? & _).
  - unfold update_neighbor_distance. case_match; [|done]. apply routers_keep_foldl, routers_keep_relax.
Qed.

Lemma routers_keep_shortest_paths rid l l' : shortest_paths rid l = Some l' -> routers_keep l l'.
Proof.
  unfold shortest_paths. intros H%routers_keep_dijkstra. eapply routers_keep_trans; [|exact H]. split.
  - intros Hl. apply Forall_map. eapply Forall_impl; [exact Hl|]. intros r Hr. unfold init_distance.
    repeat case_match; try done; apply router_found_ok; done.
  - rewrite map_map. apply map_ext. intros r. unfold init_distance. by repeat case_match.
Qed.

Definition wrapper_ok (w : route_wrapper) : Prop := is_u32 (rw_ip w) /\ is_u32 (rw_mask w).

Definition yields {A} (V : A -> Prop) (r : res A) : Prop := forall a, r = inr a -> V a.

Lemma yields_ret {A} (V : A -> Prop) a : V a -> yields V (mret a).
Proof. by intros H b [= <-]. Qed.
Lemma yields_bind {A B} (V : B -> Prop) W (r : res A) (f : A -> res B) :
  yields W r -> (forall a, W a -> yields V (f a)) -> yields V (r ≫= f).
Proof. intros Hr Hf b Hb. destruct r as [|a]; [done|]. by apply (Hf a); [apply Hr|]. Qed.
Lemma yields_res_of {A} (V : A -> Prop) c o : returns V o -> yields V (res_of c o).
Proof. intros Ho a. destruct o; [|done]. intros [= <-]. by apply Ho. Qed.
Lemma yields_any {A} (r : res A) : yields any r.
Proof. done. Qed.

Lemma yields_add_route_wrapper rid l r head i : link_ok i -> Forall wrapper_ok head ->
  yields (Forall wrapper_ok) (add_route_wrapper rid l r head i).
Proof.
  intros (Hs & Hm & _) Hh. unfold add_route_wrapper. destruct (get_route_wrapper _ _ _) as [k|].
  - eapply yields_bind; [apply yields_res_of, returns_lookup; exact Hh|]. intros w [Hw1 Hw2].
    destruct (_ <=? _); [by apply yields_ret|]. eapply yields_bind; [apply yields_any|]. intros next _.
    apply yields_ret. by apply Forall_insert.
  - eapply yields_bind; [apply yields_any|]. intros next _. apply yields_ret, Forall_app.
    split; [done|]. apply Forall_singleton. split; [by apply land_u32|done].
Qed.

Lemma yields_add_route_wrappers rid l r cur head : Forall link_ok cur -> Forall wrapper_ok head ->
  yields (Forall wrapper_ok) (add_route_wrappers rid l r head cur).
Proof.
  intros Hc. revert head. induction Hc as [|i cur Hi Hc IH]; intros head Hh; [by apply yields_ret|].
  eapply yields_bind; [by apply yields_add_route_wrapper|]. intros head' Hh'. by apply IH.
Qed.

Lemma yields_build_route_wrapper_list rid l : Forall pwospf_router_ok l ->
  yields (Forall wrapper_ok) (build_route_wrapper_list rid l).
Proof.
  unfold build_route_wrapper_list. intros Hl. assert (Forall wrapper_ok []) as Hh by constructor.
  revert Hh. generalize (@nil route_wrapper) as head.
  assert (forall cur head, Forall pwospf_router_ok cur -> Forall wrapper_ok head ->
    yields (Forall wrapper_ok) (build_route_wrapper_list_loop rid l cur head)) as H.
  { intros cur head Hc. revert head. induction Hc as [|r cur Hr Hc IH]; intros head Hh; [by apply yields_ret|].
    eapply yields_bind; [apply yields_add_route_wrappers; [apply Hr|exact Hh]|]. intros head' Hh'. by apply IH. }
  intros head Hh. by apply H.
Qed.

Lemma yields_unwrap_route ifs w : Forall iface_ok ifs -> wrapper_ok w ->
  yields (fun o => Forall route_ok (option_list o)) (unwrap_route ifs w).
Proof.
  intros Hi [Hw1 Hw2]. unfold unwrap_route.
  destruct (match get_iface_by_rid (rw_next_rid w) ifs with Some iface => _ | None => _ end) as [ie|] eqn:E.
  2:{ by apply yields_ret. }
  assert (iface_ok ie) as (_ & _ & _ & _ & Hn).
  { revert E. unfold get_iface_by_rid, get_iface_by_subnet_mask. destruct (rw_next_rid w =? 0).
    - by apply returns_find.
    - destruct (find_first _ ifs) eqn:E; [intros [= <-]; revert E|]; by apply returns_find. }
  destruct (rw_directly_connected w); [by apply yields_ret, Forall_singleton|].
  eapply yields_bind; [apply yields_res_of, returns_find, Hn|]. intros nbr (_ & Hip & _).
  by apply yields_ret, Forall_singleton.
Qed.

Lemma yields_unwrap_routes ifs cur : Forall iface_ok ifs -> Forall wrapper_ok cur ->
  yields (Forall route_ok) (unwrap_routes ifs cur).
Proof.
  intros Hi Hc. induction Hc as [|w cur Hw Hc IH]; [by apply yields_ret|].
  eapply yields_bind; [by apply yields_unwrap_route|]. intros o Ho.
  eapply yields_bind; [exact IH|]. intros rest Hr. apply yields_ret.
  destruct o as [e|]; [|done]. change (Forall route_ok ([e] ++ rest)). by apply Forall_app.
Qed.

Lemma yields_compute_rtable rid l ifs : Forall pwospf_router_ok l -> Forall iface_ok ifs ->
  yields (fun p => routers_keep l p.1 /\ Forall route_ok p.2) (compute_rtable rid l ifs).
Proof.
  intros Hl Hi. unfold compute_rtable. eapply yields_bind.
  { apply yields_res_of. intros l'. apply routers_keep_shortest_paths. }
  intros l' Hk. eapply yields_bind; [apply yields_build_route_wrapper_list; by apply Hk|].
  intros ws Hw. eapply yields_bind; [by apply yields_unwrap_routes|]. intros routes Hr.
  by apply yields_ret.
Qed.

Lemma ok_routers_keep rs l : state_ok rs -> routers_keep (pwospf_router_list rs) l ->
  state_ok (set_pwospf_router_list l rs).
Proof.
  intros Hok [Hl Hk]. apply ok_set_router_list; [done|apply Hl; by apply ok_routers|].
  rewrite Hk. by apply ok_router_keys.
Qed.

Lemma preserves_dijkstra_trigger : preserves dijkstra_trigger any.
Proof. unfold dijkstra_trigger. keep. Qed.
#[export] Hint Resolve preserves_dijkstra_trigger : preserves.

Lemma preserves_dijkstra_round timed_out : preserves (dijkstra_round timed_out) any.
Proof.
  unfold dijkstra_round, lock_if_list_rd, unlock_if_list, lock_rtable_wr, unlock_rtable,
    lock_mutex_pwospf_router_list, unlock_mutex_pwospf_router_list. keep.
  match goal with H : compute_rtable _ _ _ = inr _ |- state_ok (set_pwospf_router_list _ (set_rtable _ ?rs)) =>
    apply (yields_compute_rtable _ _ _ (ok_routers rs ltac:(done)) (ok_ifaces rs ltac:(done))) in H as [Hk Hr] end.
  apply ok_routers_keep; [|done]. apply ok_set_rtable; [done|]. apply Forall_app. split; [|done].
  eapply Forall_sublist; [apply sublist_bfilter|by apply ok_routes].
Qed.
#[export] Hint Resolve preserves_dijkstra_round : preserves.

(** ** The link-state protocol *)

Lemma preserves_modify_iface name f : (forall e, iface_ok e -> iface_ok (f e)) -> preserves (modify_iface name f) any.
Proof.
  intros Hf. apply preserves_modify. intros rs Hok. apply ok_set_if_list; [done|].
  induction (ok_ifaces _ Hok) as [|e l He Hl IH]; simpl; [constructor|].
  destruct (iface_named name e); constructor; auto.
Qed.

Lemma preserves_modify_router k f : (forall r, pwospf_router_ok r -> pwospf_router_ok (f r)) ->
  (forall r, pr_router_id (f r) = pr_router_id r) -> preserves (modify_router k f) any.
Proof.
  intros Hf Hi. apply preserves_modify. intros rs Hok. apply ok_routers_keep; [done|].
  by apply routers_keep_alter.
Qed.

Lemma router_list_ok l r : Forall link_ok l -> pwospf_router_ok r -> pwospf_router_ok (set_pr_interface_list l r).
Proof. intros Hl (? & ? & ? & ? & ? & _). by split_and!. Qed.
Lemma router_seq_ok v r : is_u16 v -> pwospf_router_ok r -> pwospf_router_ok (set_pr_seq v r).
Proof. intros Hv (? & ? & _ & ? & ? & ?). by split_and!. Qed.
Lemma router_update_ok t r : is_time t -> pwospf_router_ok r -> pwospf_router_ok (set_pr_last_update t r).
Proof. intros Ht (? & ? & ? & _ & ? & ?). by split_and!. Qed.
Lemma router_links r : pwospf_router_ok r -> Forall link_ok (pr_interface_list r).
Proof. by intros (_ & _ & _ & _ & _ & ?). Qed.
Lemma returns_router rs k : state_ok rs -> returns pwospf_router_ok (pwospf_router_list rs !! k).
Proof. intros Hok. apply returns_lookup. by apply ok_routers. Qed.
Lemma iface_nbrs e : iface_ok e -> Forall nbr_ok (if_nbr_routers e).
Proof. by intros (_ & _ & _ & _ & ?). Qed.
Lemma iface_nbrs_ok l e : Forall nbr_ok l -> iface_ok e -> iface_ok (set_if_nbr_routers l e).
Proof. intros Hl (? & ? & ? & ? & _). by split_and!. Qed.
Lemma iface_hello_ok t e : is_time t -> iface_ok e -> iface_ok (set_if_last_sent_hello t e).
Proof. intros Ht (? & ? & ? & _ & ?). by split_and!. Qed.
Lemma iface_active_ok b e : iface_ok e -> iface_ok (set_if_active b e).
Proof. done. Qed.
Lemma iface_ip_mask_ok ip mask e : is_u32 ip -> is_u32 mask -> iface_ok e -> iface_ok (set_if_ip_mask ip mask e).
Proof. intros Hi Hm (? & _ & _ & ? & ?). by split_and!. Qed.
Lemma iface_wan_ok v e : iface_ok e -> iface_ok (set_if_is_wan v e).
Proof. done. Qed.
Lemma link_rid_ok rid i : is_u32 rid -> link_ok i -> link_ok (set_pi_router_id rid i).
Proof. intros Hr (? & ? & _). by split_and!. Qed.
Lemma nbr_hello_ok t n : is_time t -> nbr_ok n -> nbr_ok (set_nbr_last_rcvd_hello t n).
Proof. intros Ht (? & ? & _). by split_and!. Qed.
#[export] Hint Resolve router_list_ok router_seq_ok router_update_ok router_links iface_nbrs iface_nbrs_ok
  iface_hello_ok iface_active_ok iface_ip_mask_ok iface_wan_ok link_rid_ok nbr_hello_ok returns_router
  : preserves returns.

(** The interfaces read from an update. *)
Definition adv_ok (a : pwospf_lsu_adv) : Prop := is_u32 (la_sub a) /\ is_u32 (la_mask a) /\ is_u32 (la_rid a).

Lemma returns_read_advs p o n : is_bytes p -> returns (Forall adv_ok) (read_advs p o n).
Proof.
  intros Hp. revert o. induction n as [|n IH]; intros o; cbn [read_advs]; [by apply returns_Some|].
  eapply returns_bind; [by apply returns_get32|]. intros sub Hs.
  eapply returns_bind; [by apply returns_get32|]. intros mask Hm.
  eapply returns_bind; [by apply returns_get32|]. intros rid Hr.
  eapply returns_bind; [apply IH|]. intros rest Hrest. apply returns_Some. by constructor.
Qed.
Lemma returns_packet_advs p : is_bytes p -> returns (Forall adv_ok) (packet_advs p).
Proof.
  intros Hp. unfold packet_advs. apply returns_bind_any. intros num. destruct (_ <=? _); [|done].
  by apply returns_read_advs.
Qed.

Lemma add_new_advs_ok advs l c : Forall adv_ok advs -> Forall link_ok l -> Forall link_ok (add_new_advs advs l c).1.
Proof.
  intros Ha. revert l c. induction Ha as [|a advs (H1 & H2 & H3) Ha IH]; intros l c Hl; cbn [add_new_advs]; [done|].
  destruct (existsb _ l); apply IH; [done|]. apply Forall_app. split; [done|]. apply Forall_singleton.
  split; [by apply land_u32|done].
Qed.
Lemma remove_missing_advs_ok advs l c : Forall link_ok l -> Forall link_ok (remove_missing_advs advs l c).1.
Proof.
  intros Hl. revert c. induction Hl as [|e l He Hl IH]; intros c; cbn [remove_missing_advs]; [done|].
  destruct (existsb _ advs); [|apply IH]. specialize (IH c).
  destruct (remove_missing_advs advs l c). by constructor.
Qed.
Lemma interface_list_ok advs l l' c : Forall adv_ok advs -> Forall link_ok l ->
  populate_pwospf_router_interface_list advs l = (l', c) -> Forall link_ok l'.
Proof.
  intros Ha Hl. unfold populate_pwospf_router_interface_list. destruct l as [|i l].
  - intros [= <- _]. apply Forall_map. eapply Forall_impl; [exact Ha|]. intros a (H1 & H2 & H3).
    split; [by apply land_u32|done].
  - pose proof (add_new_advs_ok advs (i :: l) false Ha Hl) as H.
    destruct (add_new_advs advs (i :: l) false) as [l1 c1]. intros E.
    pose proof (remove_missing_advs_ok advs l1 c1 H) as H'. by rewrite E in H'.
Qed.

Lemma routers_keep_active b k j l : routers_keep l (set_active_at b k j l).
Proof.
  apply routers_keep_alter; [|done]. intros r Hr. apply router_list_ok; [|done].
  apply Forall_alter; [by apply router_links|]. by intros i _ (? & ? & ?).
Qed.
Lemma routers_keep_determine l k : routers_keep l (determine_active_interfaces l k).
Proof.
  apply routers_keep_foldl. clear l. intros l j. unfold determine_active_interface.
  eapply routers_keep_trans; [apply (routers_keep_active false k j)|]. cbv zeta.
  destruct (interface_at _ k j) as [pi|]; [|done]. destruct (get_router_by_rid _ _) as [v|]; [|done].
  apply routers_keep_foldl. intros l' m. unfold determine_active_pair.
  repeat case_match; try done. eapply routers_keep_trans; apply routers_keep_active.
Qed.

Lemma returns_populate_pwospf p o t len rid aid : is_bytes p -> returns is_bytes (populate_pwospf p o t len rid aid).
Proof. intros Hp. unfold populate_pwospf. returns. Qed.
Lemma returns_populate_pwospf_lsu p o seq num : is_bytes p -> returns is_bytes (populate_pwospf_lsu p o seq num).
Proof. intros Hp. unfold populate_pwospf_lsu. returns. Qed.
Lemma returns_populate_pwospf_hello p o mask h : is_bytes p -> returns is_bytes (populate_pwospf_hello p o mask h).
Proof. intros Hp. unfold populate_pwospf_hello. returns. Qed.
Lemma adv_bytes_bytes advs : is_bytes (concat (map adv_bytes advs)).
Proof.
  induction advs as [|a advs IH]; [constructor|]. cbn [map concat]. apply is_bytes_app; [|done].
  unfold adv_bytes, word_bytes. repeat apply is_bytes_app; repeat constructor; apply u8_range.
Qed.
#[export] Hint Resolve returns_populate_pwospf returns_populate_pwospf_lsu returns_populate_pwospf_hello
  adv_bytes_bytes : returns.
Lemma broadcast_bytes : is_bytes ETH_BROADCAST.
Proof. by repeat constructor. Qed.
#[export] Hint Resolve broadcast_bytes : returns.
Lemma returns_build_hello rs ie : iface_ok ie -> returns is_bytes (build_hello rs ie).
Proof. intros Hi. unfold build_hello. returns. Qed.
#[export] Hint Resolve returns_build_hello : returns.
Lemma returns_build_lsu rid aid seq advs : returns is_bytes (build_lsu rid aid seq advs).
Proof. unfold build_lsu. returns. Qed.
Lemma returns_build_lsu_frame p ie nbr : is_bytes p -> iface_ok ie -> returns packet_of_ok (build_lsu_frame p ie nbr).
Proof. intros Hp Hi. unfold build_lsu_frame. returns. Qed.
Lemma returns_build_bcasted_lsu p ttl : is_bytes p -> returns is_bytes (build_bcasted_lsu p ttl).
Proof. intros Hp. unfold build_bcasted_lsu. returns. Qed.
Lemma returns_pwospf_valid rs p : is_bytes p -> returns packet_of_ok (is_pwospf_packet_valid rs p).
Proof. intros Hp. unfold is_pwospf_packet_valid. returns. Qed.
#[export] Hint Resolve returns_build_lsu returns_build_lsu_frame returns_build_bcasted_lsu returns_pwospf_valid
  : returns.

Lemma preserves_construct_pwospf_lsu_packet : preserves construct_pwospf_lsu_packet is_bytes.
Proof.
  unfold construct_pwospf_lsu_packet. keep.
  eapply preserves_bind; [apply preserves_modify_router|intros _ _; by apply preserves_ret]; [|done].
  intros r Hr. eauto with preserves.
Qed.
#[export] Hint Resolve preserves_construct_pwospf_lsu_packet : preserves.

Lemma preserves_queue_lsu_for_nbr p src ie nbr : is_bytes p -> iface_ok ie -> preserves (queue_lsu_for_nbr p src ie nbr) any.
Proof.
  intros Hp Hi. unfold queue_lsu_for_nbr, lock_mutex_pwospf_lsu_queue, unlock_mutex_pwospf_lsu_queue. keep.
  apply ok_set_lsu_queue; [done|]. apply Forall_app. split; [by apply ok_lsu_queue|].
  apply Forall_singleton. split; [by apply iface_ip_u32|]. eauto with preserves.
Qed.

Lemma preserves_broadcast_pwospf_lsu_packet p src : is_bytes p -> preserves (broadcast_pwospf_lsu_packet p src) any.
Proof.
  intros Hp. unfold broadcast_pwospf_lsu_packet. keep.
  eapply preserves_foreach; [by apply ok_ifaces|]. intros ie Hi. keep.
  eapply preserves_foreach; [by apply iface_nbrs|]. intros nbr _. by apply preserves_queue_lsu_for_nbr.
Qed.
#[export] Hint Resolve preserves_broadcast_pwospf_lsu_packet : preserves.

Lemma preserves_start_lsu_bcast_flood : preserves start_lsu_bcast_flood any.
Proof. unfold start_lsu_bcast_flood. keep. apply preserves_modify_router; [|done]. eauto with preserves. Qed.
#[export] Hint Resolve preserves_start_lsu_bcast_flood : preserves.

Lemma preserves_propagate_pwospf_changes : preserves propagate_pwospf_changes any.
Proof.
  unfold propagate_pwospf_changes. keep. apply ok_routers_keep; [done|].
  apply routers_keep_foldl, routers_keep_determine.
Qed.
#[export] Hint Resolve preserves_propagate_pwospf_changes : preserves.

Lemma returns_record_neighbor ie rid l : is_u32 rid -> iface_ok ie -> Forall link_ok l ->
  returns (Forall link_ok) (record_neighbor ie rid l).
Proof.
  intros Hr Hi Hl. unfold record_neighbor. destruct (find_index _ l) as [j|].
  - apply returns_Some, Forall_alter; [done|]. intros i _ Hok. by apply link_rid_ok.
  - destruct l as [|i l]; [done|]. apply returns_Some, Forall_app. split; [done|]. apply Forall_singleton.
    split; [by apply land_u32, iface_ip_u32|]. split; [by apply iface_mask_u32|done].
Qed.

Lemma returns_forget_neighbor ie nbr l : Forall link_ok l -> returns (Forall link_ok) (forget_neighbor ie nbr l).
Proof.
  intros Hl. unfold forget_neighbor. destruct (_ =? 0)%nat; [done|]. destruct (_ =? 1)%nat.
  - destruct (find_index _ l); apply returns_Some; [|done]. apply Forall_alter; [done|].
    intros i _ Hok. by apply link_rid_ok.
  - destruct (find_index _ l); apply returns_Some; [|done]. by apply Forall_delete.
Qed.

Lemma preserves_hello_from_new_neighbor name ie src rid : iface_ok ie -> is_u32 src -> is_u32 rid ->
  preserves (hello_from_new_neighbor name ie src rid) any.
Proof.
  intros Hi Hs Hr. unfold hello_from_new_neighbor. keep_step.
  eapply preserves_bind.
  { apply preserves_modify_iface. intros e He. apply iface_nbrs_ok; [|done]. apply Forall_app.
    split; [by apply iface_nbrs|]. by apply Forall_singleton. }
  intros _ _. keep. apply preserves_modify_router; [|done]. intros r' Hr'. apply router_list_ok; [|done].
  match goal with H : record_neighbor _ _ (pr_interface_list ?r) = Some _, K : pwospf_router_ok ?r |- _ =>
    exact (returns_record_neighbor _ _ _ Hr Hi (router_links _ K) _ H) end.
Qed.
#[export] Hint Resolve preserves_hello_from_new_neighbor : preserves.

Lemma preserves_process_pwospf_hello_packet p name : is_bytes p -> preserves (process_pwospf_hello_packet p name) any.
Proof.
  intros Hp. unfold process_pwospf_hello_packet, unlock_rtable, unlock_if_list, lock_if_list_wr, lock_rtable_rd,
    lock_mutex_pwospf_router_list, unlock_mutex_pwospf_router_list. keep.
  eapply preserves_bind; [apply preserves_modify_iface|intros _ _; keep].
  intros e He. apply iface_nbrs_ok; [|done]. apply Forall_alter; [by apply iface_nbrs|].
  intros nbr _ Hn. by apply nbr_hello_ok.
Qed.
#[export] Hint Resolve preserves_process_pwospf_hello_packet : preserves.

(** A router is added only when no router of the list has its id. *)
Lemma ok_add_router rs r : state_ok rs -> get_router_by_rid (pr_router_id r) (pwospf_router_list rs) = None ->
  pwospf_router_ok r -> state_ok (set_pwospf_router_list (pwospf_router_list rs ++ [r]) rs).
Proof.
  intros Hok Hn Hr. apply ok_set_router_list; [done| |].
  - apply Forall_app. split; [by apply ok_routers|]. by apply Forall_singleton.
  - apply keys_snoc; [by apply ok_router_keys|]. intros r' Hr'.
    by apply (proj1 (find_index_None _ _) Hn), Z.eqb_neq in Hr'.
Qed.

(** A partial function in a triple. *)
Lemma hoare_lift {A B} P c (o : option A) (f : A -> M B) Q :
  (forall a, o = Some a -> hoare P (f a) Q) -> hoare P (lift c o ≫= f) Q.
Proof. intros H. destruct o as [a|]; [by apply H|]. by intros w _ _. Qed.
Lemma hoare_time {B} P (f : Z -> M B) Q : (forall t, is_time t -> hoare P (f t) Q) -> hoare P (time ≫= f) Q.
Proof. intros H w He HP. by apply (H (env_time (w_env w) (w_tick w)) (He _) (mk_world _ _ _ _ _)). Qed.

Lemma hoare_add_new_router_neighbor p rs0 : is_bytes p -> state_ok rs0 ->
  (forall rid, pwospf_rid p get_pwospf_hdr = Some rid -> get_router_by_rid rid (pwospf_router_list rs0) = None) ->
  hoare (eq rs0) (add_new_router_neighbor p) (fun _ => state_ok).
Proof.
  intros Hp Hok Hn. unfold add_new_router_neighbor. apply hoare_lift. intros rid Hrid.
  apply hoare_lift. intros aid Haid. apply hoare_lift. intros seq Hseq.
  apply hoare_quiet_bind; [readonly|]. intros addr. apply hoare_time. intros now Ht.
  apply hoare_lift. intros advs Ha. apply returns_packet_advs in Ha; [|done].
  destruct (populate_pwospf_router_interface_list advs []) as [l c] eqn:El.
  apply interface_list_ok in El; [|done|constructor].
  apply hoare_modify. intros rs <-. apply ok_add_router; [done|by apply Hn|].
  split_and!; [by eapply returns_get32|apply ntohl_u32|apply ntohs_u16|done|done|done].
Qed.

Lemma preserves_record_lsu p : is_bytes p -> preserves (record_lsu p) any.
Proof.
  intros Hp. apply preserves_get. intros rs0 Hok. apply hoare_lift. intros rid Hrid.
  destruct (get_router_by_rid rid (pwospf_router_list rs0)) as [k|] eqn:Ek.
  - apply (hoare_conseq _ state_ok _ _ (fun b rs => any b /\ state_ok rs)); [|by intros rs <-|done].
    match goal with |- hoare state_ok ?m _ => assert (preserves m any) as H; [|exact H] end. keep.
    eapply preserves_bind; [apply preserves_modify_router; [eauto with preserves|done]|]. intros _ _. keep.
    eapply preserves_bind; [apply preserves_modify_router; [|done]|intros _ _; keep].
    intros r Hr. apply router_list_ok; [|done]. eapply interface_list_ok; [| |eassumption].
    + by eapply returns_packet_advs.
    + by apply router_links.
  - apply hoare_keeps; [|intros _; keep]. apply hoare_add_new_router_neighbor; [done..|]. congruence.
Qed.

Lemma preserves_process_pwospf_lsu_packet p : is_bytes p -> preserves (process_pwospf_lsu_packet p) any.
Proof.
  intros Hp. pose proof (preserves_record_lsu p Hp) as Hrec.
  unfold process_pwospf_lsu_packet, unlock_rtable, lock_rtable_wr,
    lock_mutex_pwospf_router_list, unlock_mutex_pwospf_router_list. keep.
Qed.
#[export] Hint Resolve preserves_process_pwospf_lsu_packet : preserves.

Lemma preserves_process_pwospf_packet p name : is_bytes p -> preserves (process_pwospf_packet p name) any.
Proof. intros Hp. unfold process_pwospf_packet. keep. Qed.
#[export] Hint Resolve preserves_process_pwospf_packet : preserves.

Lemma preserves_determine_timedout_loop ie cur t : Forall nbr_ok cur ->
  preserves (determine_timedout_loop ie cur t) (fun r => Forall nbr_ok r.1).
Proof.
  intros Hc. revert t. induction Hc as [|nbr cur Hn Hc IH]; intros t; cbn [determine_timedout_loop].
  { by apply preserves_ret. }
  keep_step. keep_step. destruct (_ <? _).
  - keep. eapply preserves_bind; [apply preserves_modify_router|intros _ _; apply IH]; [|done].
    intros r Hr. apply router_list_ok; [|done].
    match goal with H : forget_neighbor _ _ (pr_interface_list ?r) = Some _, K : pwospf_router_ok ?r |- _ =>
      exact (returns_forget_neighbor _ _ _ (router_links _ K) _ H) end.
  - eapply preserves_bind; [apply IH|]. intros [rest t'] Hrest. apply preserves_ret. by constructor.
Qed.

Lemma preserves_determine_timedout_interface i ie : iface_ok ie -> preserves (determine_timedout_interface i ie) any.
Proof.
  intros Hi. unfold determine_timedout_interface. eapply preserves_bind.
  { apply preserves_determine_timedout_loop. by apply iface_nbrs. }
  intros [nbrs t] Hn. keep. apply ok_set_if_list; [done|]. apply Forall_alter; [by apply ok_ifaces|].
  intros e _ He. by apply iface_nbrs_ok.
Qed.
#[export] Hint Resolve preserves_determine_timedout_interface : preserves.

Lemma returns_iface_at rs i : state_ok rs -> returns iface_ok (if_list rs !! i).
Proof. intros Hok. apply returns_lookup. by apply ok_ifaces. Qed.
#[export] Hint Resolve returns_iface_at : returns.

Lemma preserves_broadcast_hello_loop n i t : preserves (broadcast_hello_loop n i t) any.
Proof.
  revert i t. induction n as [|n IH]; intros i t; cbn [broadcast_hello_loop];
    unfold lock_mutex_pwospf_router_list, unlock_mutex_pwospf_router_list; keep.
  apply ok_set_if_list; [done|]. apply Forall_alter; [by apply ok_ifaces|].
  intros e _ He. by apply iface_hello_ok.
Qed.
#[export] Hint Resolve preserves_broadcast_hello_loop : preserves.

Lemma preserves_pwospf_hello_round : preserves pwospf_hello_round any.
Proof.
  unfold pwospf_hello_round, broadcast_pwospf_hello_packet, lock_if_list_wr, unlock_if_list,
    lock_mutex_pwospf_router_list, unlock_mutex_pwospf_router_list. keep.
Qed.

Lemma preserves_pwospf_lsu_round : preserves pwospf_lsu_round any.
Proof. unfold pwospf_lsu_round, lock_mutex_pwospf_router_list, unlock_mutex_pwospf_router_list. keep. Qed.

Lemma preserves_pwospf_lsu_timeout_round : preserves pwospf_lsu_timeout_round any.
Proof.
  unfold pwospf_lsu_timeout_round, lock_mutex_pwospf_router_list, unlock_mutex_pwospf_router_list.
  keep_step. eapply preserves_bind; [apply preserves_get_rs|]. intros rs Hok. eapply preserves_bind.
  { apply (preserves_filter (lsu_timeout_entry rs)). intros r. unfold lsu_timeout_entry. keep; apply preserves_ret; [by right|].
    destruct (_ <? _); [by left|by right]. }
  intros l Hl. cbv beta in Hl. keep. apply ok_set_router_list; [done| |].
  - eapply Forall_sublist; [done|by apply ok_routers].
  - eapply NoDup_sublist; [by apply sublist_map|by apply ok_router_keys].
Qed.

Lemma preserves_send_queued_lsu q : queued_lsu_ok q -> preserves (send_queued_lsu q) any.
Proof. intros [_ Hq]. unfold send_queued_lsu. keep. Qed.

Lemma preserves_pwospf_lsu_bcast_round : preserves pwospf_lsu_bcast_round any.
Proof.
  unfold pwospf_lsu_bcast_round, lock_mutex_pwospf_lsu_bcast, unlock_mutex_pwospf_lsu_bcast,
    lock_mutex_pwospf_lsu_queue, unlock_mutex_pwospf_lsu_queue, lock_arp_cache_rd, unlock_arp_cache,
    lock_arp_queue_wr, unlock_arp_queue, lock_if_list_rd, unlock_if_list, lock_rtable_rd, unlock_rtable.
  keep; [apply ok_set_lsu_queue; [done|constructor]|].
  eapply preserves_bind; [eapply preserves_foreach; [by apply ok_lsu_queue|apply preserves_send_queued_lsu]|].
  intros _ _. keep.
Qed.
#[export] Hint Resolve preserves_arp_thread_round preserves_pwospf_hello_round preserves_pwospf_lsu_round
  preserves_pwospf_lsu_timeout_round preserves_pwospf_lsu_bcast_round : preserves.

(** ** Network address translation *)

Lemma returns_populate_nat_icmp_data_ip p ne t : is_bytes p -> returns is_bytes (populate_nat_icmp_data_ip p ne t).
Proof. intros Hp. unfold populate_nat_icmp_data_ip. returns. Qed.
Lemma returns_populate_nat_icmp_data_echo p ne t : is_bytes p -> returns is_bytes (populate_nat_icmp_data_echo p ne t).
Proof. intros Hp. unfold populate_nat_icmp_data_echo. returns. Qed.
#[export] Hint Resolve returns_populate_nat_icmp_data_ip returns_populate_nat_icmp_data_echo : returns.
Lemma returns_populate_nat_icmp p ne t : is_bytes p -> returns is_bytes (populate_nat_icmp p ne t).
Proof. intros Hp. unfold populate_nat_icmp. returns. Qed.
#[export] Hint Resolve returns_populate_nat_icmp : returns.
Lemma returns_populate_nat_packet p ne t : is_bytes p -> returns is_bytes (populate_nat_packet p ne t).
Proof. intros Hp. unfold populate_nat_packet. returns. Qed.
Lemma returns_nat_transport_checksum p new old : is_bytes p -> returns is_bytes (nat_transport_checksum p new old).
Proof. intros Hp. unfold nat_transport_checksum. returns. Qed.
Lemma returns_nat_ip_checksum p new old : is_bytes p -> returns is_bytes (nat_ip_checksum p new old).
Proof. intros Hp. unfold nat_ip_checksum. returns. Qed.
#[export] Hint Resolve returns_populate_nat_packet returns_nat_transport_checksum returns_nat_ip_checksum : returns.

Lemma returns_nat_entry rs i : state_ok rs -> returns nat_entry_ok (nat_table rs !! i).
Proof. intros Hok. apply returns_lookup. by apply ok_nat. Qed.
#[export] Hint Resolve returns_nat_entry : returns.

Lemma returns_src_port p proto : is_bytes p -> returns is_u16 (get_src_port_number p proto).
Proof.
  intros Hp. unfold get_src_port_number, get_src_port_number_from_icmp. returns; done.
Qed.

Lemma preserves_count_hit i : preserves (count_hit i) any.
Proof.
  unfold count_hit. keep. apply ok_set_nat_table; [done|]. apply Forall_alter; [by apply ok_nat|].
  intros e _ (? & ? & _). split_and!; [done|done|apply u32_range].
Qed.
#[export] Hint Resolve preserves_count_hit : preserves.

Lemma preserves_mem {A} (o : option A) V : returns V o -> preserves (mem o) V.
Proof. intros Ho. eapply preserves_weaken; [apply preserves_lift|]. exact Ho. Qed.

Lemma preserves_process_nat_ext_packet p : is_bytes p -> preserves (process_nat_ext_packet p) is_bytes.
Proof.
  intros Hp. unfold process_nat_ext_packet. keep.
  apply preserves_mem. returns.
Qed.

Lemma preserves_random_ext_port fuel t : preserves (random_ext_port fuel t) is_u16.
Proof.
  induction fuel as [|fuel IH]; cbn [random_ext_port]; keep. apply preserves_ret, u16_range.
Qed.
#[export] Hint Resolve preserves_process_nat_ext_packet preserves_random_ext_port returns_src_port : preserves returns.

Lemma compute_nat_checksums_ok pr : nat_side_ok pr -> nat_side_ok (compute_nat_checksums pr).
Proof. done. Qed.

Lemma preserves_create_nat_table_entry fuel p ext_ip : is_bytes p -> is_u32 ext_ip ->
  preserves (create_nat_table_entry fuel p ext_ip) any.
Proof.
  intros Hp He. unfold create_nat_table_entry. keep. apply ok_set_nat_table; [done|].
  apply Forall_app. split; [by apply ok_nat|]. apply Forall_singleton.
  split_and!; [apply compute_nat_checksums_ok; split; [done|apply htons_u16]|apply compute_nat_checksums_ok; by split|done].
Qed.
#[export] Hint Resolve preserves_create_nat_table_entry : preserves.

Lemma preserves_process_nat_int_packet fuel p ext_ip : is_bytes p -> is_u32 ext_ip ->
  preserves (process_nat_int_packet fuel p ext_ip) is_bytes.
Proof.
  intros Hp He. unfold process_nat_int_packet. keep.
  - apply preserves_mem. returns.
Qed.
#[export] Hint Resolve preserves_process_nat_int_packet : preserves.

(** ** IP *)

Lemma returns_forward_rewrite p ttl addr : is_bytes p -> is_bytes addr -> returns is_bytes (forward_rewrite p ttl addr).
Proof. intros Hp Ha. unfold forward_rewrite. returns. Qed.
Lemma returns_build_ip_packet proto src dest payload : is_bytes payload ->
  returns is_bytes (build_ip_packet proto src dest payload).
Proof. intros Hp. unfold build_ip_packet. returns. Qed.
#[export] Hint Resolve returns_forward_rewrite returns_build_ip_packet : returns.

Lemma preserves_send_icmp_error p len t c : is_bytes p -> preserves (send_icmp_error p len t c) any.
Proof. intros Hp. unfold send_icmp_error. keep. Qed.
#[export] Hint Resolve preserves_send_icmp_error : preserves.

Lemma preserves_deliver_ip_packet p len name : is_bytes p -> preserves (deliver_ip_packet p len name) any.
Proof. intros Hp. unfold deliver_ip_packet, sr_transport_input. keep. Qed.
#[export] Hint Resolve preserves_deliver_ip_packet : preserves.

Lemma preserves_forward_ip_packet fuel p len name : is_bytes p -> preserves (forward_ip_packet fuel p len name) any.
Proof. intros Hp. unfold forward_ip_packet, lock_nat_table, unlock_nat_table. keep. Qed.
#[export] Hint Resolve preserves_forward_ip_packet : preserves.

Lemma preserves_process_ip_packet fuel p len name : is_bytes p -> preserves (process_ip_packet fuel p len name) any.
Proof.
  intros Hp. unfold process_ip_packet, lock_arp_cache_rd, unlock_arp_cache, lock_arp_queue_wr, unlock_arp_queue,
    lock_if_list_rd, unlock_if_list, lock_rtable_rd, unlock_rtable, lock_nat_table, unlock_nat_table. keep.
Qed.
#[export] Hint Resolve preserves_process_ip_packet : preserves.

Lemma preserves_send_ip_packet proto src dest payload : is_u32 dest -> is_bytes payload ->
  preserves (send_ip_packet proto src dest payload) any.
Proof.
  intros Hd Hp. unfold send_ip_packet, lock_arp_cache_rd, unlock_arp_cache, lock_arp_queue_wr, unlock_arp_queue,
    lock_if_list_rd, unlock_if_list, lock_rtable_rd, unlock_rtable. keep.
Qed.
#[export] Hint Resolve preserves_send_ip_packet : preserves.

(** ** Interfaces brought up and down *)

Lemma our_interface_ok ie : iface_ok ie -> link_ok (our_interface ie).
Proof.
  intros Hi. split; [by apply land_u32, iface_ip_u32|]. split; [by apply iface_mask_u32|done].
Qed.

Lemma readonly_clear_nbr_routers ie : readonly (clear_nbr_routers ie).
Proof. unfold clear_nbr_routers. readonly. Qed.
#[export] Hint Resolve readonly_clear_nbr_routers : readonly.
#[export] Hint Extern 1 (preserves (modify_iface _ (set_if_active _)) _) =>
  apply preserves_modify_iface; intros e; apply iface_active_ok : preserves.

Lemma preserves_modify_links k l : Forall link_ok l -> preserves (modify_router k (set_pr_interface_list l)) any.
Proof. intros Hl. apply preserves_modify_router; [|done]. intros r. by apply router_list_ok. Qed.

Lemma preserves_iface_up name : preserves (iface_up name) any.
Proof.
  unfold iface_up, lock_mutex_pwospf_router_list, unlock_mutex_pwospf_router_list. keep.
  apply preserves_modify_links. apply Forall_app. split; [by apply router_links|].
  apply Forall_singleton. by apply our_interface_ok.
Qed.

Lemma preserves_iface_down name : preserves (iface_down name) any.
Proof.
  unfold iface_down, lock_mutex_pwospf_router_list, unlock_mutex_pwospf_router_list. keep.
  eapply preserves_bind; [apply preserves_modify_links|intros _ _; keep].
  eapply Forall_sublist; [apply sublist_bfilter|by apply router_links].
Qed.

Lemma preserves_iface_update name ip mask : is_u32 ip -> is_u32 mask -> preserves (iface_update name ip mask) any.
Proof.
  intros Hi Hm. unfold iface_update. keep.
  eapply preserves_bind; [apply preserves_modify_iface|intros _ _; keep]. intros e. by apply iface_ip_mask_ok.
Qed.
#[export] Hint Resolve preserves_iface_up preserves_iface_down preserves_iface_update : preserves.

(** ** Ping, and the entry points of or_main.c *)

Lemma preserves_wait_for_reply_loop waits id : preserves (wait_for_reply_loop waits id) any.
Proof. induction waits as [|[|arrived] waits IH]; cbn [wait_for_reply_loop]; keep. Qed.
#[export] Hint Resolve preserves_wait_for_reply_loop : preserves.

Lemma decimal_nonneg l : forallb is_digit l = true -> 0 <= decimal l.
Proof.
  unfold decimal. assert (forall acc, 0 <= acc -> forallb is_digit l = true ->
    0 <= foldl (fun acc c => 10 * acc + (code c - 48)) acc l) as H; [|by apply H].
  induction l as [|c l IH]; simpl; intros acc Ha; [done|]. intros [Hc Hl]%andb_true_iff.
  apply IH; [|done]. unfold is_digit in Hc. apply andb_true_iff in Hc as [Hc _]. apply Z.leb_le in Hc. lia.
Qed.

Lemma octet_u8 l : returns is_u8 (octet l).
Proof.
  intros z. unfold octet. destruct l as [|c l]; [done|]. destruct (_ && _ && _) eqn:E; [|done].
  intros [= <-]. apply andb_true_iff in E as [E _]. apply andb_true_iff in E as [Hd Hz].
  apply decimal_nonneg in Hd. apply Z.leb_le in Hz. unfold is_u8. lia.
Qed.

Lemma inet_pton_u32 s : returns is_u32 (inet_pton s).
Proof.
  unfold inet_pton. repeat case_match; try done.
  eapply returns_bind; [apply octet_u8|]. intros a Ha. eapply returns_bind; [apply octet_u8|]. intros b Hb.
  eapply returns_bind; [apply octet_u8|]. intros c Hc. eapply returns_bind; [apply octet_u8|]. intros d Hd.
  apply returns_Some. unfold is_u8, is_u32 in *. lia.
Qed.
#[export] Hint Resolve inet_pton_u32 : returns.

Lemma preserves_cli_sping waits fd dst : preserves (cli_sping waits fd dst) any.
Proof.
  unfold cli_sping, wait_for_reply, lock_mutex_sping_queue, unlock_mutex_sping_queue. keep.
Qed.

Lemma preserves_sping_queue_cleanup_round : preserves sping_queue_cleanup_round any.
Proof.
  unfold sping_queue_cleanup_round, lock_mutex_sping_queue, unlock_mutex_sping_queue. keep_step. keep_step.
  eapply preserves_bind.
  { apply preserves_filter. intros se. unfold expire_sping. keep. apply preserves_ret.
    destruct (_ <? _); [by left|by right]. }
  intros q _. keep.
Qed.

Lemma preserves_process_packet fuel p len name : is_bytes p -> preserves (process_packet fuel p len name) any.
Proof.
  intros Hp. unfold process_packet, iface_is_active, lock_if_list_rd, unlock_if_list. keep.
Qed.
#[export] Hint Resolve preserves_cli_sping preserves_sping_queue_cleanup_round preserves_process_packet : preserves.

Lemma preserves_find_srcip dest : preserves (find_srcip dest) any.
Proof.
  unfold find_srcip, lock_if_list_rd, unlock_if_list, lock_rtable_rd, unlock_rtable. apply preserves_quiet. readonly.
Qed.
#[export] Hint Resolve preserves_find_srcip : preserves.

(** ** Initialisation *)

Definition vif_ok (v : sr_vns_if) : Prop := is_mac (vif_addr v) /\ is_u32 (vif_ip v) /\ is_u32 (vif_mask v).

Lemma ok_set_router_id rs v : is_u32 v -> state_ok rs -> state_ok (set_router_id v rs).
Proof. intros Hv []. by constructor. Qed.

Lemma init_state_ok netfpga : state_ok (init_state netfpga).
Proof. by constructor; try constructor. Qed.

Lemma readonly_write_slots {A} (f : nat -> option A -> M unit) n i l : (forall i o, readonly (f i o)) ->
  readonly (write_slots f n i l).
Proof.
  intros Hf. revert i l. induction n as [|n IH]; intros i l; cbn [write_slots]; [readonly|].
  destruct l; (apply readonly_bind; [apply Hf|intros _; apply IH]).
Qed.

Lemma preserves_trigger_local_ip_filters_change `{Strcmp} : preserves trigger_local_ip_filters_change any.
Proof.
  unfold trigger_local_ip_filters_change, lock_local_ip_filters, unlock_local_ip_filters. keep.
  - apply ok_set_filters; [done|].
    match goal with H : bubble_sort _ _ = Some _ |- _ => apply bubble_loop_perm in H as -> end.
    by apply ok_filters.
  - apply preserves_quiet, readonly_write_slots. intros i o. unfold write_filter_row. readonly.
Qed.
#[export] Hint Extern 1 (preserves trigger_local_ip_filters_change _) =>
  apply preserves_trigger_local_ip_filters_change : preserves.

Lemma preserves_add_local_ip_filter `{Strcmp} ip name : is_u32 ip -> preserves (add_local_ip_filter ip name) any.
Proof.
  intros Hi. unfold add_local_ip_filter, lock_local_ip_filters, unlock_local_ip_filters. keep.
  apply ok_set_filters; [done|]. apply Forall_app. split; [by apply ok_filters|]. by apply Forall_singleton.
Qed.

#[export] Hint Extern 1 (preserves (add_local_ip_filter _ _) _) =>
  apply preserves_add_local_ip_filter; assumption : preserves.

(** Whatever the memory held, the state is well formed after [init]. *)
Lemma init_ok `{Strcmp} netfpga : hoare (fun _ => True) (init netfpga) (fun _ => state_ok).
Proof.
  apply (hoare_bind _ _ _ (fun _ _ => True)); [by intros w|]. intros _.
  apply (hoare_bind _ _ _ (fun _ => state_ok)); [intros w _ _; split; [done|apply init_state_ok]|]. intros _.
  destruct netfpga; [|by apply hoare_ret].
  assert (is_u32 (default 0 (inet_pton "224.0.0.5"))) as Hip by (vm_compute; split; [discriminate|reflexivity]).
  assert (preserves (init_hardware;; _ ← add_local_ip_filter (default 0 (inet_pton "224.0.0.5")) "pwospf"; mret tt) any) as Hk
    by (unfold init_hardware; keep).
  exact (hoare_conseq _ _ _ _ _ Hk (fun rs Hrs => Hrs) (fun a rs Hrs => proj2 Hrs)).
Qed.

Lemma preserves_init_add_interface `{Strcmp} v : vif_ok v -> preserves (init_add_interface v) any.
Proof.
  intros (Hm & Hi & Hk). unfold init_add_interface, getPortNumber. keep.
  - by apply ok_set_router_id.
  - apply ok_set_if_list; [done|]. apply Forall_app. split; [by apply ok_ifaces|]. by apply Forall_singleton.
Qed.

Lemma links_of_ifaces l : Forall iface_ok l ->
  Forall link_ok (map (fun ie => mk_pwospf_interface (Z.land (if_ip ie) (if_mask ie)) (if_mask ie) 0 false) l).
Proof.
  intros Hl. apply Forall_map. eapply Forall_impl; [exact Hl|]. apply our_interface_ok.
Qed.

Lemma preserves_init_router_list : preserves init_router_list any.
Proof.
  unfold init_router_list. keep. apply ok_set_router_list; [done| |apply NoDup_singleton].
  apply Forall_singleton. split_and!; [by apply ok_router_id|by apply ok_area_id|done|done|done|].
  by apply links_of_ifaces, ok_ifaces.
Qed.

Lemma returns_rtable_line buf : returns route_ok (rtable_line buf).
Proof.
  assert (forall s, is_u32 (default 0 (inet_pton s))) as H.
  { intros s. destruct (inet_pton s) eqn:E; [by eapply inet_pton_u32|done]. }
  unfold rtable_line. repeat case_match; try done. apply returns_Some.
  exact (conj (H _) (conj (H _) (H _))).
Qed.

Lemma preserves_read_rtable lines : preserves (read_rtable lines) any.
Proof.
  induction lines as [|buf lines IH]; cbn [read_rtable]; keep. apply ok_set_rtable; [done|].
  apply Forall_app. split; [by apply ok_routes|]. apply Forall_singleton. by eapply returns_rtable_line.
Qed.
#[export] Hint Resolve preserves_init_router_list preserves_read_rtable : preserves.

Lemma returns_default_route rs : state_ok rs -> returns link_ok (default_route_present rs).
Proof.
  intros Hok. unfold default_route_present. eapply returns_bind; [apply returns_find, (ok_routes _ Hok)|].
  intros re (H1 & H2 & H3). apply returns_Some. split; [by apply land_u32|done].
Qed.

Lemma preserves_sr_integ_hw_setup lines : preserves (sr_integ_hw_setup lines) any.
Proof.
  unfold sr_integ_hw_setup, init_rtable, lock_rtable_wr, unlock_rtable, lock_mutex_pwospf_router_list,
    unlock_mutex_pwospf_router_list. keep.
  eapply preserves_bind; [apply preserves_modify_router|intros _ _; keep]; [|done].
  intros r Hr. apply router_list_ok; [|done]. apply Forall_app. split; [by apply router_links|].
  apply Forall_singleton. eapply returns_default_route; [|eassumption]. done.
Qed.
