(* ===== verification/Reachable.v ===== *)
(** The states the router can reach. Packets, rounds of the threads, requests of
    clients and packets of the transport stack are the steps of a relation on
    states; all of them keep the invariant of Invariant.v, so every state that
    can be reached satisfies it. *)

From S2P Require Import Prelude Words Bytes State CStrings Sorting Netfpga Rtable Headers Checksum.
From S2P Require Import Packets Iface Arp Icmp Dijkstra Pwospf Nat IfaceCtl Sprint Ip Sping Cli Www Main.
From S2P Require Import SprintTheorems Invariant Preservation.
From Stdlib Require Import Ascii.
Local Open Scope Z_scope.

(** ** The numbers a command holds *)

Definition num_ok (P : Z -> Prop) (a : scan_arg) : Prop := match a with ANum z => P z | AStr _ => True end.

Definition only_hex (fmt : list directive) : bool :=
  forallb (fun d => match d with FUnsigned | FInt => false | _ => true end) fmt.
Definition no_int (fmt : list directive) : bool :=
  forallb (fun d => match d with FInt => false | _ => true end) fmt.

Lemma hex_digit_range c a : hex_digit c = Some a -> 0 <= a < 16.
Proof.
  unfold hex_digit, is_digit. repeat case_match; intros; simplify_eq; bool_to_prop; lia.
Qed.

Lemma scan_hex2_u8 l z rest : scan_hex2 l = Some (z, rest) -> is_u8 z.
Proof.
  unfold scan_hex2, is_u8. destruct (skip_space l) as [|c l']; [done|].
  destruct (hex_digit c) as [a|] eqn:Ea; [|done]. apply hex_digit_range in Ea.
  destruct l' as [|c2 l'']; [intros [= <- _]; lia|].
  destruct (hex_digit c2) as [b|] eqn:Eb; intros [= <- _]; [apply hex_digit_range in Eb|]; lia.
Qed.

Lemma scan_hex fmt l : only_hex fmt = true -> Forall (num_ok is_u8) (scan fmt l).
Proof.
  revert l. induction fmt as [|d fmt IH]; intros l H; [constructor|]. cbn [only_hex forallb] in H.
  apply andb_true_iff in H as [Hd H]. specialize (fun l => IH l H). destruct d; cbn [scan]; try done.
  - destruct (span _ _) as [[|c w] rest]; [constructor|]. by constructor.
  - destruct (scan_hex2 l) as [[z rest]|] eqn:E; [|constructor]. constructor; [by eapply scan_hex2_u8|done].
  - destruct l as [|c' l]; [constructor|]. destruct (Ascii.eqb c c'); [done|constructor].
Qed.

Lemma scan_unsigned fmt l : no_int fmt = true -> Forall (num_ok is_u32) (scan fmt l).
Proof.
  revert l. induction fmt as [|d fmt IH]; intros l H; [constructor|]. cbn [no_int forallb] in H.
  apply andb_true_iff in H as [Hd H]. specialize (fun l => IH l H). destruct d; cbn [scan]; try done.
  - destruct (span _ _) as [[|c w] rest]; [constructor|]. by constructor.
  - destruct (scan_decimal l) as [[z rest]|]; [|constructor]. constructor; [apply u32_range|done].
  - destruct (scan_hex2 l) as [[z rest]|] eqn:E; [|constructor]. constructor; [|done].
    apply scan_hex2_u8 in E. unfold num_ok, is_u8, is_u32 in *. lia.
  - destruct l as [|c' l]; [constructor|]. destruct (Ascii.eqb c c'); [done|constructor].
Qed.

Lemma sscanf_hex s fmt : only_hex (parse_format (chars fmt)) = true -> Forall (num_ok is_u8) (sscanf s fmt).
Proof. apply scan_hex. Qed.

(** The single number of a command. *)
Lemma sscanf_number s fmt z : no_int (parse_format (chars fmt)) = true -> sscanf s fmt = [ANum z] -> is_u32 z.
Proof.
  intros Hf E. pose proof (scan_unsigned _ (chars s) Hf) as H. unfold sscanf in E. rewrite E in H.
  exact (proj1 (Forall_singleton _ _) H).
Qed.

(** ** The commands *)

Lemma readonly_COPY_STRING cap buf str : readonly (COPY_STRING cap buf str).
Proof. unfold COPY_STRING. readonly. Qed.
#[export] Hint Resolve readonly_COPY_STRING : readonly.

Lemma readonly_copy_lines {A} (line : A -> M string) cap buf l : (forall x, readonly (line x)) ->
  readonly (copy_lines line cap buf l).
Proof.
  intros Hl. revert buf. induction l as [|x l IH]; intros buf; cbn [copy_lines]; readonly; auto.
Qed.
Lemma readonly_copy_rows line cap buf n : (forall i, readonly (line i)) -> readonly (copy_rows line cap buf n).
Proof. intros Hl. by apply readonly_copy_lines. Qed.

Lemma readonly_arp_line ttl e : readonly (arp_line ttl e).
Proof. unfold arp_line, arp_ttl_str. readonly. Qed.
Lemma readonly_iface_line e : readonly (iface_line e).
Proof. unfold iface_line. readonly. Qed.
Lemma readonly_route_text e : readonly (route_text e).
Proof. unfold route_text. readonly. Qed.
Lemma readonly_router_iface_line pi : readonly (router_iface_line pi).
Proof. unfold router_iface_line. readonly. Qed.
Lemma readonly_hw_rtable_line i : readonly (hw_rtable_line i).
Proof. unfold hw_rtable_line. readonly. Qed.
Lemma readonly_hw_arp_line i : readonly (hw_arp_line i).
Proof. unfold hw_arp_line. readonly. Qed.
Lemma readonly_hw_iface_line i : readonly (hw_iface_line i).
Proof. unfold hw_iface_line, read_hw_iface_mac. readonly. Qed.
Lemma readonly_hw_filter_line i : readonly (hw_filter_line i).
Proof. unfold hw_filter_line. readonly. Qed.
#[export] Hint Resolve readonly_copy_lines readonly_copy_rows readonly_arp_line readonly_iface_line readonly_route_text
  readonly_router_iface_line readonly_hw_rtable_line readonly_hw_arp_line readonly_hw_iface_line readonly_hw_filter_line : readonly.

Lemma readonly_pwospf_if_loop cap hello buf nid nip l : readonly (pwospf_if_loop cap hello buf nid nip l).
Proof.
  revert buf nid nip. induction l as [|e l IH]; intros buf nid nip; cbn [pwospf_if_loop]; [readonly|].
  apply readonly_bind; [readonly|]. intros now. cbv zeta. apply readonly_bind; [readonly|]. intros now'.
  destruct (match if_nbr_routers e with nbr :: _ => _ | [] => _ end) as [[nid' nip'] lrecv].
  apply readonly_bind; [readonly|]. intros b1. apply readonly_bind; [apply readonly_copy_lines; intros; readonly|]. intros b2.
  destruct (match last _ with Some nbr => _ | None => _ end) as [nid'' nip'']. apply IH.
Qed.
Lemma readonly_router_list_loop cap interval buf l : readonly (router_list_loop cap interval buf l).
Proof.
  revert buf. induction l as [|r l IH]; intros buf; cbn [router_list_loop]; [readonly|]. unfold router_line. readonly.
Qed.
#[export] Hint Resolve readonly_pwospf_if_loop readonly_router_list_loop : readonly.

Lemma readonly_sprint_rtable : readonly sprint_rtable.
Proof. unfold sprint_rtable. readonly. Qed.
Lemma readonly_sprint_if_list : readonly sprint_if_list.
Proof. unfold sprint_if_list. readonly. Qed.
Lemma readonly_sprint_arp_cache : readonly sprint_arp_cache.
Proof. unfold sprint_arp_cache. readonly. Qed.
Lemma readonly_sprint_pwospf_if_list : readonly sprint_pwospf_if_list.
Proof. unfold sprint_pwospf_if_list. readonly. Qed.
Lemma readonly_sprint_pwospf_router_list : readonly sprint_pwospf_router_list.
Proof. unfold sprint_pwospf_router_list. readonly. Qed.
Lemma readonly_sprint_hw_rtable : readonly sprint_hw_rtable.
Proof. unfold sprint_hw_rtable. readonly. Qed.
Lemma readonly_sprint_hw_arp_cache : readonly sprint_hw_arp_cache.
Proof. unfold sprint_hw_arp_cache. readonly. Qed.
Lemma readonly_sprint_hw_iface : readonly sprint_hw_iface.
Proof. unfold sprint_hw_iface. readonly. Qed.
Lemma readonly_sprint_hw_local_ip_filter : readonly sprint_hw_local_ip_filter.
Proof. unfold sprint_hw_local_ip_filter. readonly. Qed.
Lemma readonly_sprint_hw_drops : readonly sprint_hw_drops.
Proof.
  unfold sprint_hw_drops, port_drops, get_rx_queue_num_pkts_dropped_full, get_rx_queue_num_pkts_dropped_bad. readonly.
Qed.
Lemma readonly_sprint_hw_oq_drops : readonly sprint_hw_oq_drops.
Proof. unfold sprint_hw_oq_drops, get_oq_num_pkts_dropped. readonly. Qed.
#[export] Hint Resolve readonly_sprint_rtable readonly_sprint_if_list readonly_sprint_arp_cache
  readonly_sprint_pwospf_if_list readonly_sprint_pwospf_router_list readonly_sprint_hw_rtable readonly_sprint_hw_arp_cache
  readonly_sprint_hw_iface readonly_sprint_hw_local_ip_filter readonly_sprint_hw_drops readonly_sprint_hw_oq_drops : readonly.

Lemma readonly_send_text req text : readonly (send_text req text).
Proof. apply readonly_emit. Qed.
Lemma readonly_say req msg : readonly (say req msg).
Proof. apply readonly_emit. Qed.
Lemma readonly_say_lines req msgs : readonly (say_lines req msgs).
Proof. apply readonly_foreach. intros msg. apply readonly_say. Qed.
#[export] Hint Resolve readonly_send_text readonly_say readonly_say_lines : readonly.

Lemma preserves_cli_ip_route_add req : preserves (cli_ip_route_add req) any.
Proof. unfold cli_ip_route_add, bad_arguments, lock_rtable_wr, unlock_rtable. keep. Qed.
Lemma preserves_cli_ip_route_del req : preserves (cli_ip_route_del req) any.
Proof. unfold cli_ip_route_del, bad_arguments, lock_rtable_wr, unlock_rtable. keep. Qed.
Lemma preserves_cli_ip_interface req : preserves (cli_ip_interface req) any.
Proof.
  unfold cli_ip_interface, lock_if_list_wr, unlock_if_list, lock_rtable_wr, unlock_rtable. keep.
Qed.

Lemma readonly_cli_hw_interface_add req : readonly (cli_hw_interface_add req).
Proof. unfold cli_hw_interface_add, on_netfpga, bad_arguments, write_hw_iface_mac. readonly. Qed.
Lemma readonly_cli_hw_interface_del req : readonly (cli_hw_interface_del req).
Proof. unfold cli_hw_interface_del, on_netfpga, bad_arguments, write_hw_iface_mac. readonly. Qed.
Lemma readonly_cli_hw_interface_set req : readonly (cli_hw_interface_set req).
Proof. unfold cli_hw_interface_set, on_netfpga, set_hw_iface. readonly. Qed.
Lemma readonly_cli_nuke_hw_arp_cache_entry req : readonly (cli_nuke_hw_arp_cache_entry req).
Proof. unfold cli_nuke_hw_arp_cache_entry, on_netfpga. readonly. Qed.

#[export] Hint Resolve readonly_cli_hw_interface_add readonly_cli_hw_interface_del readonly_cli_hw_interface_set
  readonly_cli_nuke_hw_arp_cache_entry : readonly.

Lemma args_mac s a b c d e f :
  Forall (num_ok is_u8) [AStr s; ANum a; ANum b; ANum c; ANum d; ANum e; ANum f] -> is_mac [a; b; c; d; e; f].
Proof.
  rewrite !Forall_cons. cbn [num_ok]. intros (_ & ? & ? & ? & ? & ? & ? & _). split; [done|].
  repeat (constructor; [done|]). constructor.
Qed.

Lemma preserves_cli_ip_arp_add req : preserves (cli_ip_arp_add req) any.
Proof.
  unfold cli_ip_arp_add, bad_arguments, lock_arp_cache_wr, unlock_arp_cache.
  pose proof (sscanf_hex (req_command req) "ip arp add %as %2X:%2X:%2X:%2X:%2X:%2X" eq_refl) as H.
  keep. apply args_mac in H. keep.
Qed.
Lemma preserves_cli_ip_arp_del req : preserves (cli_ip_arp_del req) any.
Proof. unfold cli_ip_arp_del, bad_arguments, lock_arp_cache_wr, unlock_arp_cache. keep. Qed.
Lemma preserves_cli_nuke_arp_cache req : preserves (cli_nuke_arp_cache req) any.
Proof.
  unfold cli_nuke_arp_cache, lock_arp_cache_wr, unlock_arp_cache. keep.
  apply ok_sub_arp_cache; [apply sublist_nil_l|done].
Qed.

Lemma preserves_cli_ip_arp_set_ttl req : preserves (cli_ip_arp_set_ttl req) any.
Proof.
  unfold cli_ip_arp_set_ttl. keep.
  match goal with H : sscanf _ _ = [ANum ?z] |- _ => apply sscanf_number in H; [|reflexivity] end.
  by apply ok_set_arp_ttl.
Qed.
Lemma preserves_cli_pwospf_set_aid req : preserves (cli_pwospf_set_aid req) any.
Proof.
  unfold cli_pwospf_set_aid, bad_arguments. keep.
  match goal with H : sscanf _ _ = [ANum ?z] |- _ => apply sscanf_number in H; [|reflexivity] end.
  by apply ok_set_area_id.
Qed.
Lemma preserves_cli_pwospf_set_hello req : preserves (cli_pwospf_set_hello req) any.
Proof.
  unfold cli_pwospf_set_hello, bad_arguments. keep. apply ok_set_hello; [apply u16_range|done].
Qed.
Lemma preserves_cli_pwospf_set_lsu_interval req : preserves (cli_pwospf_set_lsu_interval req) any.
Proof.
  unfold cli_pwospf_set_lsu_interval, bad_arguments. eapply (preserves_bind _ _ is_u32).
  - destruct (sscanf _ _) as [|[|z] [|]] eqn:E; try (keep; by apply preserves_ret).
    apply sscanf_number in E; [|reflexivity]. by apply preserves_ret.
  - intros z Hz. keep. by apply ok_set_lsu.
Qed.
Lemma preserves_cli_pwospf_set_lsu_broadcast req : preserves (cli_pwospf_set_lsu_broadcast req) any.
Proof. unfold cli_pwospf_set_lsu_broadcast, bad_arguments. keep. Qed.
Lemma preserves_cli_pwospf_send_hello req : preserves (cli_pwospf_send_hello req) any.
Proof.
  unfold cli_pwospf_send_hello, broadcast_pwospf_hello_packet, lock_if_list_wr, unlock_if_list,
    lock_mutex_pwospf_router_list, unlock_mutex_pwospf_router_list. keep.
Qed.
Lemma preserves_cli_pwospf_send_lsu req : preserves (cli_pwospf_send_lsu req) any.
Proof.
  unfold cli_pwospf_send_lsu, lock_mutex_pwospf_router_list, unlock_mutex_pwospf_router_list. keep.
Qed.
Lemma preserves_cli_sping_request cx req : preserves (cli_sping_request cx req) any.
Proof. unfold cli_sping_request. keep. Qed.
#[export] Hint Resolve preserves_cli_ip_route_add preserves_cli_ip_route_del preserves_cli_ip_interface preserves_cli_ip_arp_add
  preserves_cli_ip_arp_del preserves_cli_nuke_arp_cache preserves_cli_ip_arp_set_ttl preserves_cli_pwospf_set_aid
  preserves_cli_pwospf_set_hello preserves_cli_pwospf_set_lsu_interval preserves_cli_pwospf_set_lsu_broadcast
  preserves_cli_pwospf_send_hello preserves_cli_pwospf_send_lsu preserves_cli_sping_request : preserves.

(** A handler that only answers. *)
Ltac answers :=
  lazymatch goal with
  | |- preserves (?f ?cx ?req) _ => unfold f
  | |- preserves (?f ?req) _ => unfold f
  end;
  unfold show_vns_field, on_netfpga, lock_rtable_rd, unlock_rtable, lock_if_list_rd, unlock_if_list,
    lock_arp_cache_rd, unlock_arp_cache, lock_mutex_pwospf_router_list, unlock_mutex_pwospf_router_list;
  apply preserves_quiet; readonly.

Lemma preserves_call_handler cx h req : preserves (call_handler cx h req) any.
Proof.
  destruct h; cbn [call_handler];
    first [solve [eauto with preserves nocore] | apply preserves_quiet; solve [auto with readonly nocore] | solve [answers]].
Qed.
#[export] Hint Resolve preserves_call_handler : preserves.

Lemma preserves_handle_command cx commands req : preserves (handle_command cx commands req) any.
Proof. unfold handle_command. keep. Qed.
#[export] Hint Resolve preserves_handle_command : preserves.

Lemma preserves_client_loop cx commands fd buf recvs : preserves (client_loop cx commands fd buf recvs) any.
Proof.
  revert buf. induction recvs as [|[data| |] recvs IH]; intros buf; cbn [client_loop]; unfold prompt; keep.
Qed.
#[export] Hint Resolve preserves_client_loop : preserves.

Lemma preserves_process_client_request cx commands fd recvs : preserves (process_client_request cx commands fd recvs) any.
Proof. unfold process_client_request, prompt. keep. Qed.
#[export] Hint Resolve preserves_process_client_request : preserves.

(** ** The web server *)

Lemma readonly_send_all fd msg sends : readonly (send_all fd msg sends).
Proof. revert msg. induction sends as [|s sends IH]; intros [|c msg]; cbn [send_all]; readonly; auto. Qed.
Lemma readonly_send_once fd msg sends : readonly (send_once fd msg sends).
Proof. unfold send_once. readonly. Qed.
#[export] Hint Resolve readonly_send_all readonly_send_once : readonly.

Lemma readonly_and_then {A} (m : M (option A)) k : readonly m -> (forall a, readonly (k a)) -> readonly (and_then m k).
Proof. intros Hm Hk. unfold and_then. readonly. Qed.
Lemma readonly_list_loop msg size cur : readonly (list_loop msg size cur).
Proof.
  revert msg size. induction cur as [|e cur IH]; intros msg size; cbn [list_loop]; unfold strncat_; readonly; auto.
Qed.
#[export] Hint Resolve readonly_and_then readonly_list_loop : readonly.

Lemma readonly_answer_list commands fd sends : readonly (answer_list commands fd sends).
Proof. unfold answer_list, list_commands, lock_cli_commands_rd, unlock_cli_commands, strncat_. readonly. Qed.
Lemma readonly_answer_stats cx fd sends : readonly (answer_stats cx fd sends).
Proof. unfold answer_stats. readonly. Qed.
Lemma readonly_answer_file cwd fopen url fd sends : readonly (answer_file cwd fopen url fd sends).
Proof.
  unfold answer_file. destruct (fopen _); repeat (apply readonly_and_then; [|intros]); unfold send_file; readonly.
Qed.
#[export] Hint Resolve readonly_answer_list readonly_answer_stats readonly_answer_file : readonly.

Lemma preserves_answer_command cx commands url fd sends : preserves (answer_command cx commands url fd sends) any.
Proof. unfold answer_command, run_web_command, lock_cli_commands_rd, unlock_cli_commands, and_then. keep. Qed.
#[export] Hint Resolve preserves_answer_command : preserves.

Lemma preserves_service_request cx commands cwd fopen fd recvs sends :
  preserves (service_request cx commands cwd fopen fd recvs sends) any.
Proof. unfold service_request, request_line, answer. keep. Qed.
#[export] Hint Resolve preserves_service_request : preserves.

(** ** Steps

    What the router does between two points where it waits: it handles a packet,
    a thread does a round, a client is served, or the transport stack calls. *)

Inductive action :=
  | Packet (fuel : nat) (packet : bytes) (len : nat) (interface : string)
  | ArpRound | DijkstraRound (timed_out : bool) | HelloRound | LsuRound | LsuTimeoutRound
  | LsuBcastRound | SpingRound
  | Client (cx : cli_context) (commands : list cli_entry) (fd : Z) (recvs : list recv_result)
  | Web (cx : cli_context) (commands : list cli_entry) (cwd : string) (fopen : string -> option file)
        (fd : Z) (recvs : list recv_result) (sends : list Z)
  | Output (payload : bytes) (proto src dest : Z)
  | FindSource (dest : Z).

Definition perform (a : action) : M unit :=
  match a with
  | Packet fuel packet len interface => sr_integ_input fuel packet len interface
  | ArpRound => arp_thread_round
  | DijkstraRound timed_out => dijkstra_round timed_out
  | HelloRound => pwospf_hello_round
  | LsuRound => pwospf_lsu_round
  | LsuTimeoutRound => pwospf_lsu_timeout_round
  | LsuBcastRound => pwospf_lsu_bcast_round
  | SpingRound => sping_queue_cleanup_round
  | Client cx commands fd recvs => _ ← process_client_request cx commands fd recvs; mret tt
  | Web cx commands cwd fopen fd recvs sends =>
      _ ← service_request cx commands cwd fopen fd recvs sends; mret tt
  | Output payload proto src dest => _ ← sr_integ_ip_output payload proto src dest; mret tt
  | FindSource dest => _ ← sr_integ_findsrcip dest; mret tt
  end.

(** What the drivers and the transport stack give the router. *)
Definition action_ok (a : action) : Prop :=
  match a with
  | Packet _ packet _ _ => is_bytes packet
  | Output payload _ _ dest => is_bytes payload /\ is_u32 dest
  | _ => True
  end.

Section Steps.
Context `{Strcmp}.

(** The state is set up, the interfaces are announced, then the tables are set up. *)
Definition boot (netfpga : bool) (vns_ifs : list sr_vns_if) (lines : list string) : M unit :=
  init netfpga;; foreach sr_integ_add_interface vns_ifs;; sr_integ_hw_setup lines.

(** The worlds the router reaches. *)
Inductive reachable : world -> Prop :=
  | reach_boot netfpga vns_ifs lines w w' :
      env_ok (w_env w) -> Forall vif_ok vns_ifs ->
      boot netfpga vns_ifs lines w = Done tt w' -> reachable w'
  | reach_step a w w' :
      reachable w -> action_ok a -> perform a w = Done tt w' -> reachable w'.

Lemma preserves_perform a : action_ok a -> preserves (perform a) any.
Proof.
  destruct a; cbn [perform action_ok]; unfold sr_integ_input, sr_integ_ip_output, integ_ip_output,
    sr_integ_findsrcip; intros Ha; lazymatch type of Ha with _ /\ _ => destruct Ha | _ => idtac end; keep.
Qed.

Lemma boot_ok netfpga vns_ifs lines : Forall vif_ok vns_ifs ->
  hoare (fun _ => True) (boot netfpga vns_ifs lines) (fun _ => state_ok).
Proof.
  intros Hv. eapply hoare_bind; [apply init_ok|]. intros [].
  assert (preserves (foreach sr_integ_add_interface vns_ifs;; sr_integ_hw_setup lines) any) as Hk.
  { eapply preserves_bind; [|intros _ _; apply preserves_sr_integ_hw_setup].
    eapply preserves_foreach; [exact Hv|]. intros v. apply preserves_init_add_interface. }
  exact (hoare_conseq _ _ _ _ _ Hk (fun rs Hrs => Hrs) (fun a rs Hrs => proj2 Hrs)).
Qed.

(** The invariant holds wherever the router gets, and the clock stays what it is. *)
Lemma reachable_invariant w : reachable w -> env_ok (w_env w) /\ state_ok (w_rs w).
Proof.
  induction 1 as [netfpga vns_ifs lines w w' He Hv Hb|a w w' Hr [He Hok] Ha Hp].
  - pose proof (boot_ok netfpga vns_ifs lines Hv w He I) as Hk. rewrite Hb in Hk.
    destruct Hk as [-> ?]. done.
  - pose proof (preserves_perform a Ha w He Hok) as Hk. rewrite Hp in Hk. destruct Hk as (-> & _ & ?). done.
Qed.

(** ** Correctness *)

(** C4: Every state the router reaches, whatever packets, client requests and calls
    of the transport stack it gets and in whatever order its threads run, is
    well formed: each field holds a value of its C type, the ARP cache has one
    entry per address, the ARP queue one per next hop with between one and five
    requests sent for it, the router list one per router id, and the queued
    frames are made of bytes. *)
Theorem reachable_state_ok w : reachable w -> state_ok (w_rs w).
Proof. intros Hr. by apply reachable_invariant. Qed.

(** C28: In every state the router reaches the tables it prints fit their buffers;
    the one of the PWOSPF interfaces, as long as no interface has more than two
    neighbours. *)
Theorem reachable_tables_fit w : reachable w ->
  Forall (fun m => wp m (fun _ _ => True) w)
    [sprint_arp_cache; sprint_if_list; sprint_pwospf_router_list; sprint_hw_rtable;
     sprint_hw_arp_cache; sprint_hw_iface; sprint_hw_local_ip_filter; sprint_hw_drops;
     sprint_hw_oq_drops] /\
  (Forall (fun e => (length (if_nbr_routers e) <= 2)%nat) (if_list (w_rs w)) ->
   wp sprint_pwospf_if_list (fun _ _ => True) w).
Proof.
  intros [He Hok]%reachable_invariant. split.
  - apply tables_fit.
    + eapply Forall_impl; [by apply ok_cache|]. by intros e [_ []].
    + eapply Forall_impl; [by apply ok_ifaces|]. by intros e [[] _].
  - intros Hn. apply sprint_pwospf_if_list_fits; [by apply ok_hello|done|].
    apply Forall_forall. intros e Hin.
    pose proof (proj1 (Forall_forall _ _) (ok_ifaces _ Hok) e Hin) as (_ & Hi & Hm & Ht & Hnbr).
    split_and!; [done..|]. by apply (proj1 (Forall_forall _ _) Hn).
Qed.
End Steps.
