(* ===== verification/Witnesses.v ===== *)
(** Concrete instances: a small router (two ports, a gateway, a cached
    neighbour, a NAT entry, an area of three routers) and the frames it meets,
    on which the hypotheses of the theorems of the other files hold. Each
    lemma [X_witness] applies the theorem [X] to them. *)

From S2P Require Import Prelude Words Bytes State Nodes CStrings Sorting Netfpga Rtable Headers.
From S2P Require Import Checksum Packets Iface Arp Icmp Dijkstra Pwospf Nat IfaceCtl Ip Sping.
From S2P Require Import Main LockOrder.
Local Open Scope Z_scope.

(** ** Addresses and frames *)

(** The word the host reads from the address [a.b.c.d]. *)
Definition ip4 (a b c d : Z) : Z := a + 256 * b + 65536 * c + 16777216 * d.

Definition mac (k : Z) : bytes := [2; 0; 0; 0; 0; k].

(** UDP from 10.0.0.5 port 1000 to 8.8.8.8 port 53. *)
Definition datagram : bytes :=
  [2; 0; 0; 0; 0; 1; 2; 0; 0; 0; 0; 8; 8; 0; 69; 0; 0; 28; 0; 1; 0; 0; 64; 17; 96; 188; 10; 0; 0; 5; 8; 8; 8; 8; 3; 232; 0; 53; 0; 8; 225; 172].

(** The same from 10.0.0.6 port 1001, *)
Definition datagram2 : bytes :=
  [2; 0; 0; 0; 0; 1; 2; 0; 0; 0; 0; 7; 8; 0; 69; 0; 0; 28; 0; 1; 0; 0; 64; 17; 96; 187; 10; 0; 0; 6; 8; 8; 8; 8; 3; 233; 0; 53; 0; 8; 225; 170].

(** at its last hop, *)
Definition dying_datagram : bytes :=
  [2; 0; 0; 0; 0; 1; 2; 0; 0; 0; 0; 8; 8; 0; 69; 0; 0; 28; 0; 1; 0; 0; 1; 17; 159; 188; 10; 0; 0; 5; 8; 8; 8; 8; 3; 232; 0; 53; 0; 8; 0; 0].

(** from 8.8.8.8 port 53 to 192.0.2.1 port 2000, *)
Definition answer : bytes :=
  [2; 0; 0; 0; 0; 1; 2; 0; 0; 0; 0; 9; 8; 0; 69; 0; 0; 28; 0; 1; 0; 0; 64; 17; 168; 191; 8; 8; 8; 8; 192; 0; 2; 1; 0; 53; 7; 208; 0; 8; 37; 200].

(** and with a wrong header checksum. *)
Definition damaged_datagram : bytes :=
  [2; 0; 0; 0; 0; 1; 2; 0; 0; 0; 0; 8; 8; 0; 69; 0; 0; 28; 0; 1; 0; 0; 64; 17; 97; 188; 10; 0; 0; 5; 8; 8; 8; 8; 3; 232; 0; 53; 0; 8; 225; 172].

(** An ARP packet from 10.0.1.2, as the gateway sends it. *)
Definition arp_packet (op : Z) (tip : Z) : bytes :=
  arp_frame (mac 2) (mac 9) op (mac 9) (ip4 10 0 1 2) (mac 2) tip.

(** ** The router *)

Definition eth0_iface : iface_entry :=
  mk_iface_entry "eth0" (mac 1) (ip4 10 0 0 1) (ip4 255 255 255 0) 0 true 0 [] 0.
Definition eth1_iface : iface_entry :=
  mk_iface_entry "eth1" (mac 2) (ip4 10 0 1 1) (ip4 255 255 255 0) 0 true 0
    [mk_nbr_router 2 (ip4 10 0 1 2) 0] 0.

Definition routes : list rtable_entry :=
  [mk_rtable_entry (ip4 10 0 0 0) 0 (ip4 255 255 255 0) "eth0" true true;
   mk_rtable_entry 0 (ip4 10 0 1 2) 0 "eth1" true true;
   mk_rtable_entry (ip4 10 0 1 0) 0 (ip4 255 255 255 0) "eth1" false true].

Definition gateway : arp_cache_entry := mk_arp_cache_entry (ip4 10 0 1 2) (mac 9) 95 0.
Definition laptop : arp_cache_entry := mk_arp_cache_entry (ip4 10 0 0 5) (mac 8) 50 0.
Definition printer : arp_cache_entry := mk_arp_cache_entry (ip4 10 0 0 7) (mac 7) 0 1.

(** The routers 1 (ours), 2 and 3, in a line. *)
Definition area : list pwospf_router :=
  [mk_pwospf_router 10 1 0 0 0 0 false [mk_pwospf_interface (ip4 10 0 1 0) (ip4 255 255 255 0) 2 true] None;
   mk_pwospf_router 11 2 0 7 0 0 false
     [mk_pwospf_interface (ip4 10 0 1 0) (ip4 255 255 255 0) 1 true;
      mk_pwospf_interface (ip4 10 0 2 0) (ip4 255 255 255 0) 3 true] None;
   mk_pwospf_router 12 3 0 4 0 0 false [mk_pwospf_interface (ip4 10 0 2 0) (ip4 255 255 255 0) 2 true] None].

(** The flow of [datagram] behind 192.0.2.1, at the given external port. *)
Definition ip_port (ip port : Z) : nat_ip_port_pair :=
  compute_nat_checksums (mk_nat_ip_port_pair ip (htons port) 0 0 0).
Definition flow (ext_port : Z) : nat_entry :=
  mk_nat_entry (ip_port (ip4 192 0 2 1) ext_port) (ip_port (ip4 10 0 0 5) 1000) 0 0 0 0 0.

Definition router : router_state :=
  mk_router_state 1 0 5 30 1 0 true 30 120 routes [gateway; laptop; printer]
    [eth0_iface; eth1_iface] [] [] area [] []
    [mk_local_ip_filter_entry (ip4 10 0 0 1) "eth0"; mk_local_ip_filter_entry (ip4 10 0 1 1) "eth1"].

(** It is 100 o'clock, and every random number is 2000. *)
Definition world_env : env := mk_env (fun _ => 100) (fun _ => 2000) (fun _ => 0) (fun _ _ => 0).
Definition running (rs : router_state) : world := mk_world rs [] 0 100 world_env.
Definition start : world := running router.

(** A device whose ARP table is the router's. *)
Definition synced_device : device :=
  mk_device zero_rt_row (replicate TABLE_DEPTH zero_rt_row) zero_arp_row
    (slot_rows arp_row_of TABLE_DEPTH (hw_arp_order (arp_cache router))) 0 (replicate TABLE_DEPTH 0).

(** ** Automation: decidable hypotheses by evaluation *)

Lemma is_bytes_check p : forallb (fun x => (0 <=? x) && (x <? 256)) p = true -> is_bytes p.
Proof.
  unfold is_bytes. rewrite forallb_forall, Forall_forall. intros H x Hx. apply list_elem_of_In, H in Hx.
  unfold is_u8. bool_to_prop. change (2 ^ 8) with 256. lia.
Qed.

Lemma is_u32_check x : (0 <=? x) && (x <? 2 ^ 32) = true -> is_u32 x.
Proof. intros H. bool_to_prop. split; lia. Qed.

Lemma all_check {A} (l : list A) (P : A -> Prop) : Forall P l -> forall x, x ∈ l -> P x.
Proof. by rewrite Forall_forall. Qed.

(** Closes a hypothesis about concrete data. *)
Ltac evaluate :=
  intros; lazymatch goal with
  | |- is_bytes _ => apply is_bytes_check; vm_compute; reflexivity
  | |- is_u16 _ => unfold is_u16; evaluate
  | |- advs_fit _ => unfold advs_fit; evaluate
  | |- is_u32 _ => apply is_u32_check; vm_compute; reflexivity
  | |- _ ≠ _ => let H := fresh in intros H; vm_compute in H; discriminate H
  | |- (_ <= _)%nat => apply Nat.leb_le; vm_compute; reflexivity
  | |- (_ < _)%nat => apply Nat.leb_le; vm_compute; reflexivity
  | |- _ <= _ => apply Z.leb_le; vm_compute; reflexivity
  | |- _ < _ => apply Z.ltb_lt; vm_compute; reflexivity
  | |- _ = _ => vm_compute; reflexivity
  | |- _ /\ _ => split; evaluate
  end.

(** The state a computation ends in. *)
Definition final_rs {A} (o : outcome A) : router_state :=
  match o with Done _ w | Crashed _ w => w_rs w end.

Lemma final_state {A} (m : M A) w a w' : m w = Done a w' -> final_rs (m w) = w_rs w'.
Proof. by intros ->. Qed.

(** ** Forwarding *)

Lemma well_formed_check p :
  is_bytes p -> (34 <= length p)%nat -> is_packet_valid p = Some true -> well_formed_ip p.
Proof.
  intros Hb Hl E. destruct (is_packet_valid_spec p Hb Hl) as (b & E' & H). apply H. congruence.
Qed.

Lemma datagram_arrives p dst :
  is_bytes p -> length p = 42%nat -> is_packet_valid p = Some true -> ip_dst p get_ip_hdr = Some dst ->
  arrives router p "eth0" dst.
Proof.
  intros Hb Hl Hv Hd. constructor; [done|rewrite Hl; evaluate| |exists eth0_iface; evaluate|done].
  apply well_formed_check; [done|lia|done].
Qed.

Lemma datagram_in_transit :
  in_transit router (ip4 8 8 8 8) (ip4 10 0 1 2) "eth1" "eth0" eth1_iface.
Proof. constructor; evaluate. Qed.

Lemma laptop_answerable : answerable router (ip4 10 0 0 5) eth0_iface laptop.
Proof. constructor; [|evaluate..]. exists (ip4 10 0 0 5), "eth0"%string. evaluate. Qed.

(** The datagram goes to the gateway. *)
Lemma process_ip_packet_forwards_witness :
  exists p' w', process_ip_packet 1 datagram 42 "eth0" start = Done tt w' /\
    forwards datagram p' 63 (mac 2) /\
    frames (w_trace w') = [EvSend (frame_of (with_dhost p' (mac 9)) 42) 60 "eth1"].
Proof.
  destruct (process_ip_packet_forwards 1 datagram "eth0" (ip4 8 8 8 8) (ip4 10 0 1 2) "eth1"
              eth1_iface gateway 64 start) as (p' & w' & H1 & _ & H2 & H3);
    [apply datagram_arrives; evaluate|apply datagram_in_transit|evaluate..|].
  exists p', w'. split; [exact H1|]. split; [exact H2|exact H3].
Defined.

Lemma is_packet_valid_correct_witness :
  is_packet_valid datagram = Some true /\ well_formed_ip datagram /\
  (is_packet_valid damaged_datagram = Some true <->
     (34 <= length damaged_datagram)%nat /\ well_formed_ip damaged_datagram) /\
  is_packet_valid damaged_datagram = Some false.
Proof.
  split; [evaluate|]. split.
  - refine (proj2 (proj1 (proj1 (is_packet_valid_correct datagram _)) _)); evaluate.
  - split; [apply (is_packet_valid_correct damaged_datagram)|]; evaluate.
Defined.

Lemma process_ip_packet_drops_witness :
  process_ip_packet 1 damaged_datagram 42 "eth0" start = Done tt start.
Proof.
  apply (process_ip_packet_drops 1 damaged_datagram 42 "eth0" start); [evaluate..|].
  intros [_ _ _ [_ H]]. vm_compute in H. discriminate H.
Defined.

(** The datagram at its last hop is answered with a time-exceeded message. *)
Lemma process_ip_packet_errors_witness :
  exists ipc icmpc data w',
    process_ip_packet 1 dying_datagram 42 "eth0" start = Done tt w' /\ w_rs w' = router /\
    checksummed (icmp_frame (mac 1) ipc (ip4 10 0 0 1) (ip4 10 0 0 5) ICMP_TYPE_TIME_EXCEEDED
                   ICMP_CODE_TTL_EXCEEDED icmpc (calloc 4 ++ data)) get_icmp_hdr 36.
Proof.
  destruct (process_ip_packet_errors 1 dying_datagram "eth0" (ip4 8 8 8 8) (ip4 10 0 0 5)
              ICMP_TYPE_TIME_EXCEEDED ICMP_CODE_TTL_EXCEEDED start) as [H _];
    [apply datagram_arrives; evaluate|evaluate|evaluate|].
  destruct (H eth0_iface laptop laptop_answerable)
    as (ipc & icmpc & data & w' & H1 & H2 & _ & _ & H3 & _).
  exists ipc, icmpc, data, w'. split; [exact H1|]. split; [exact H2|exact H3].
Defined.

Lemma send_icmp_error_correct_witness :
  exists r w', send_icmp_packet datagram 42 ICMP_TYPE_DESTINATION_UNREACHABLE ICMP_CODE_PORT_UNREACHABLE start
    = Done r w'.
Proof.
  destruct (send_icmp_error_correct datagram 42 ICMP_TYPE_DESTINATION_UNREACHABLE
              ICMP_CODE_PORT_UNREACHABLE (ip4 10 0 0 5) (ip4 8 8 8 8) eth0_iface laptop start)
    as (ipc & icmpc & data & r & H & _); [evaluate..|apply laptop_answerable|].
  eexists r, _. exact H.
Defined.

(** A queued packet whose last request is 10 seconds old. *)
Definition waiting : arp_queue_entry :=
  mk_arp_queue_entry "eth1" (ip4 10 0 1 2) 1 90 [mk_arp_queue_packet_entry datagram 42].
Definition waiting_router : router_state := set_arp_queue [waiting] router.

Lemma process_arp_queue_retries_witness :
  exists w', process_arp_queue (running waiting_router) = Done tt w' /\
    arp_queue (w_rs w') = [retried 100 waiting] /\ length (frames (w_trace w')) = 1%nat.
Proof.
  destruct (process_arp_queue_retries 100 (running waiting_router)) as (w' & H1 & H2 & H3);
    [done| | |].
  - refine (all_check _ _ _). repeat constructor.
  - refine (all_check _ _ _). repeat constructor. exists eth1_iface. evaluate.
  - exists w'. split; [exact H1|]. rewrite H2, H3. evaluate.
Defined.

(** ** ARP *)

Lemma router_cache_ok : cache_ok (arp_cache router).
Proof.
  split; [refine (all_check _ _ _); repeat constructor|].
  apply (bool_decide_unpack _). vm_compute. exact I.
Qed.

Lemma process_arp_reply_correct_witness :
  wp (process_arp_reply (arp_packet ARP_OP_REPLY (ip4 10 0 1 1))) (fun _ w' =>
    exists ttl, in_arp_cache (w_rs w') (ip4 10 0 1 2) =
                  Some (mk_arp_cache_entry (ip4 10 0 1 2) (mac 9) ttl 0) /\
    frames (w_trace w') = frames (flush_events (mac 9) waiting)) (running waiting_router).
Proof.
  eapply wp_mono.
  - apply (process_arp_reply_correct (arp_packet ARP_OP_REPLY (ip4 10 0 1 1)) (ip4 10 0 1 2) (mac 9)
             [] waiting [] (running waiting_router) device_reset); [evaluate..| | | | | |].
    + apply device_reset_ok.
    + apply router_cache_ok.
    + evaluate.
    + evaluate.
    + refine (all_check _ _ _). constructor.
    + unfold queued_ok. refine (all_check _ _ _). repeat constructor; evaluate.
  - intros [] w' (_ & _ & _ & [ttl H] & H'). exists ttl. split; [exact H|exact H'].
Defined.

Lemma process_arp_request_correct_witness :
  exists w', process_arp_request (arp_packet ARP_OP_REQUEST (ip4 10 0 1 1)) start = Done tt w' /\
    w_rs w' = router /\
    frames (w_trace w') =
      frames (send_events (arp_frame (mac 9) (mac 2) ARP_OP_REPLY (mac 2) (ip4 10 0 1 1)
                             (mac 9) (ip4 10 0 1 2)) ARP_FRAME_LEN "eth1").
Proof.
  destruct (process_arp_request_correct (arp_packet ARP_OP_REQUEST (ip4 10 0 1 1)) (mac 9) (mac 9)
              (ip4 10 0 1 2) (ip4 10 0 1 1) start) as (w' & H1 & H2 & H3); [evaluate..| |].
  - refine (all_check _ _ _). repeat constructor.
  - exists w'. split; [exact H1|]. split; [exact H2|]. rewrite H3. evaluate.
Defined.

Lemma send_ip_miss_witness :
  exists w', send_ip datagram 42 (ip4 10 0 1 9) "eth1" start = Done 0 w' /\
    length (arp_queue (w_rs w')) = 1%nat /\ length (frames (w_trace w')) = 1%nat.
Proof.
  destruct (send_ip_miss datagram 42 (ip4 10 0 1 9) "eth1" start eth1_iface) as (w' & H1 & H2 & H3);
    [evaluate..|].
  exists w'. split; [exact H1|]. rewrite H2, H3. evaluate.
Defined.

Lemma send_queued_packets_correct_witness :
  exists w', send_queued_packets (ip4 10 0 1 2) (running waiting_router) = Done tt w' /\
    arp_queue (w_rs w') = [] /\ w_trace w' = flush_events (mac 9) waiting.
Proof.
  destruct (send_queued_packets_correct (ip4 10 0 1 2) [] waiting [] gateway (running waiting_router))
    as (w' & H1 & H2 & H3); [evaluate..| | |evaluate|evaluate|].
  - refine (all_check _ _ _). constructor.
  - unfold queued_ok. refine (all_check _ _ _). repeat constructor; evaluate.
  - exists w'. split; [exact H1|]. rewrite H2. split; [evaluate|exact H3].
Defined.

Lemma update_arp_cache_correct_witness :
  wp (update_arp_cache (ip4 10 0 0 5) (mac 6) 1) (fun r w' =>
    r = 0 /\ arp_synced device_reset w' /\
    in_arp_cache (w_rs w') (ip4 10 0 1 2) = Some gateway) start.
Proof.
  eapply wp_mono.
  - apply (update_arp_cache_correct (ip4 10 0 0 5) (mac 6) 1 start device_reset);
      [apply device_reset_ok|apply router_cache_ok|evaluate].
  - intros r w' (H1 & _ & _ & H2 & _ & H3). split; [exact H1|]. split; [exact H2|].
    rewrite H3 by evaluate. evaluate.
Defined.

Lemma write_arp_cache_to_hw_correct_witness :
  wp write_arp_cache_to_hw (fun _ w' =>
    d_arp (dev_run device_reset (w_trace w')) = d_arp synced_device) start.
Proof.
  eapply wp_mono.
  - apply (write_arp_cache_to_hw_correct start device_reset); [apply device_reset_ok|].
    refine (all_check _ _ _). repeat constructor.
  - intros [] w' [_ H]. exact H.
Defined.

(** The entry of 10.0.0.5 is 50 seconds old, the limit is 30. *)
Lemma expire_arp_cache_correct_witness :
  wp expire_arp_cache (fun _ w' =>
    laptop ∉ arp_cache (w_rs w') /\ gateway ∈ arp_cache (w_rs w') /\ printer ∈ arp_cache (w_rs w') /\
    arp_synced synced_device w') start.
Proof.
  eapply wp_mono.
  - apply (expire_arp_cache_correct start synced_device 100 100).
    + by repeat split.
    + refine (all_check _ _ _). repeat constructor.
    + intros _. reflexivity.
    + intros k _. evaluate.
  - intros [] w' (_ & _ & H1 & H2 & H3). split_and!; [|apply H3..|exact H1].
    + intros [H|H]%H2; [discriminate H|]. by vm_compute in H.
    + set_solver.
    + right. evaluate.
    + set_solver.
    + left. evaluate.
Defined.

(** ** Routes *)

Lemma routes_named : names_ok (rtable router).
Proof. refine (all_check _ _ _). repeat constructor; eexists; reflexivity. Qed.

Lemma routes_ok : forall e, e ∈ rtable router -> route_ok e.
Proof.
  refine (all_check _ _ _). repeat constructor; try evaluate.
  - exists 24. evaluate.
  - eexists. reflexivity.
  - exists 0. evaluate.
  - eexists. reflexivity.
  - exists 24. evaluate.
  - eexists. reflexivity.
Qed.

(** The device sends what is for 8.8.8.8 to the gateway, on the port of eth1. *)
Lemma trigger_rtable_modified_refines_witness :
  wp trigger_rtable_modified (fun _ w' =>
    dev_lookup (dev_run device_reset (w_trace w')) (ntohl (ip4 8 8 8 8)) =
      Some (ntohl (ip4 10 0 1 2), 4)) start.
Proof.
  destruct (wp_inv _ _ _ (trigger_rtable_modified_refines start device_reset device_reset_ok eq_refl
    routes_ok ltac:(evaluate))) as (u & w' & E & H).
  eapply wp_done; [exact E|]. rewrite (H (ip4 8 8 8 8) ltac:(evaluate)).
  assert (get_next_hop IF_LEN (w_rs w') (ip4 8 8 8 8) = Some (ip4 10 0 1 2, "eth1"%string)) as ->.
  { rewrite <- (final_state _ _ _ _ E). evaluate. }
  reflexivity.
Defined.

Lemma add_route_correct_witness :
  wp (add_route (ip4 10 0 3 0) (ip4 10 0 0 9) (ip4 255 255 255 0) "eth0") (fun r w' =>
    r = 0 /\ routes_sorted (rtable (w_rs w')) /\ length (rtable (w_rs w')) = 4%nat) start.
Proof.
  eapply wp_mono.
  - apply (add_route_correct (ip4 10 0 3 0) (ip4 10 0 0 9) (ip4 255 255 255 0) "eth0" start);
      [apply routes_named|eexists; reflexivity].
  - intros r w' (H1 & l & -> & H2 & H3). split; [exact H1|]. split; [exact H2|].
    simpl. rewrite H3. reflexivity.
Defined.

Lemma del_route_correct_witness :
  wp (del_route (ip4 10 0 1 0) (ip4 255 255 255 0)) (fun r w' =>
    r = 1 /\ length (rtable (w_rs w')) = 2%nat) start.
Proof.
  eapply wp_mono.
  - apply (del_route_correct (ip4 10 0 1 0) (ip4 255 255 255 0) start), routes_named.
  - intros r w' (-> & l & -> & _ & H). split; [reflexivity|]. simpl. rewrite H. reflexivity.
Defined.

Lemma deactivate_routes_correct_witness :
  wp (deactivate_routes "eth1") (fun r w' =>
    r = 0 /\ forall e, e ∈ rtable (w_rs w') -> route_matches (ip4 8 8 8 8) e = true ->
      route_on "eth1" e = false) start.
Proof.
  eapply wp_mono.
  - apply (deactivate_routes_correct "eth1" start), routes_named.
  - intros r w' (H1 & l & -> & _ & _ & H). split; [exact H1|]. intros e. exact (H (ip4 8 8 8 8) e).
Defined.

Lemma deactivate_then_activate_witness :
  wp (deactivate_routes "eth1";; activate_routes "eth1") (fun r w' =>
    length (rtable (w_rs w')) = 2%nat) start.
Proof.
  eapply wp_mono.
  - apply (deactivate_then_activate "eth1" start), routes_named.
  - intros r w' (_ & l & -> & _ & H). simpl. rewrite H. reflexivity.
Defined.

Lemma trigger_local_ip_filters_change_correct_witness :
  let _ := strcmp_sign in
  wp trigger_local_ip_filters_change (fun _ w' =>
    length (local_ip_filter_list (w_rs w')) = 2%nat) start.
Proof.
  intros sc. eapply wp_mono.
  - apply (@trigger_local_ip_filters_change_correct strcmp_sign strcmp_sign_laws start device_reset);
      [apply device_reset_ok|evaluate].
  - intros [] w' (l & -> & H & _). simpl. rewrite H. reflexivity.
Defined.

(** ** Shortest paths *)

Lemma area_ids : NoDup (map pr_router_id area) /\ forall r, r ∈ area -> pr_router_id r ≠ 0.
Proof.
  split; [apply (bool_decide_unpack _); vm_compute; exact I|].
  refine (all_check _ _ _). repeat constructor; evaluate.
Qed.

Lemma shortest_paths_correct_witness :
  exists l', shortest_paths 1 area = Some l' /\ same_graph area l' /\
    dist l' 2 = 2 /\ prev_of l' 2 = Some 11%nat.
Proof.
  destruct area_ids as [H1 H2].
  destruct (shortest_paths_correct 1 area 0 H1 H2) as (l' & E & G & _); [evaluate..|].
  exists l'. split; [exact E|]. split; [exact G|]. vm_compute in E.
  apply (inj Some) in E as <-. evaluate.
Defined.

(** ** Checksums *)

Lemma verify_checksum_correct_witness :
  exists r, verify_checksum datagram 14 20 = Some r /\ (r = 0 \/ r = 1).
Proof.
  destruct (verify_checksum_correct datagram 14 10) as (r & H1 & _ & H2); [evaluate..|].
  exists r. split; [exact H1|exact H2].
Defined.

(** ** Linked lists *)

(** Three nodes, whose data are 7, 8 and 7. *)
Definition three_nodes : gmap nat (@node Z) :=
  {[1%nat := mk_node None (Some 2%nat) (Some 7);
    2%nat := mk_node (Some 1%nat) (Some 3%nat) (Some 8);
    3%nat := mk_node (Some 2%nat) None (Some 7)]}.

Lemma three_nodes_dll : dll three_nodes (Some 1%nat) [(1%nat, 7); (2%nat, 8); (3%nat, 7)].
Proof.
  split; [reflexivity|]. split; [apply (bool_decide_unpack _); vm_compute; exact I|].
  repeat split.
Qed.

Lemma node_remove_correct_witness :
  exists h' hd', node_remove three_nodes (Some 1%nat) 2 = inr (h', hd') /\
    dll h' hd' [(1%nat, 7); (3%nat, 7)].
Proof.
  destruct (node_remove_correct three_nodes (Some 1%nat) [(1%nat, 7)] 2 8 [(3%nat, 7)])
    as (h' & hd' & H1 & H2 & _); [apply three_nodes_dll|].
  exists h', hd'. split; [exact H1|exact H2].
Defined.

Lemma node_filter_loop_correct_witness :
  exists h' hd', node_filter_loop 3 (Z.eqb 7) three_nodes (Some 1%nat) (Some 1%nat) = inr (h', hd') /\
    dll h' hd' [(2%nat, 8)].
Proof.
  destruct (node_filter_loop_correct (Z.eqb 7) three_nodes (Some 1%nat) _ three_nodes_dll)
    as (h' & hd' & H1 & H2 & _).
  exists h', hd'. split; [exact H1|exact H2].
Defined.

Lemma my_strncat_correct_witness :
  exists size', my_strncat "route " "10.0.0.0" 4 = Some ("route 10.0.0.0"%string, size') /\ 15 <= size'.
Proof.
  destruct (my_strncat_correct "route " "10.0.0.0" 4) as (size' & H1 & H2 & _); [evaluate|].
  exists size'. split; [exact H1|exact H2].
Defined.

(** ** Link state updates *)

Definition net1 : pwospf_lsu_adv := mk_lsu_adv (ip4 10 0 1 0) (ip4 255 255 255 0) 1.
Definition net2 : pwospf_lsu_adv := mk_lsu_adv (ip4 10 0 2 0) (ip4 255 255 255 0) 3.
Definition net3_unmasked : pwospf_lsu_adv := mk_lsu_adv (ip4 10 0 3 9) (ip4 255 255 255 0) 4.

(** The headers in front of an update. *)
Definition lsu_envelope : bytes := take 34 datagram.

Definition router2 : pwospf_router :=
  mk_pwospf_router 11 2 0 7 0 0 false
    [mk_pwospf_interface (ip4 10 0 1 0) (ip4 255 255 255 0) 1 true;
     mk_pwospf_interface (ip4 10 0 2 0) (ip4 255 255 255 0) 3 true] None.

Lemma nets_words : Forall adv_words [net1; net2].
Proof. repeat constructor; evaluate. Qed.

Lemma nets_masked : Forall adv_masked [net1; net2].
Proof. repeat constructor. Qed.

Lemma update_read seq ttl sum :
  is_u16 seq -> reads_lsu (lsu_envelope ++ lsu_bytes 2 0 seq ttl sum [net1; net2]) 2 seq ttl [net1; net2].
Proof.
  intros H. apply lsu_bytes_reads; [reflexivity|evaluate|exact H|evaluate|].
  apply nets_words.
Qed.


Lemma record_lsu_correct_witness :
  exists w' r', record_lsu (lsu_envelope ++ lsu_bytes 2 0 8 64 0 [net1; net2]) start =
             Done (true, false) w' /\ records r' 2 8 [net1; net2] /\
    pwospf_router_list (w_rs w') = <[1%nat := r']> area.
Proof.
  destruct (record_lsu_correct (lsu_envelope ++ lsu_bytes 2 0 8 64 0 [net1; net2]) 2 8 64 [net1; net2]
              start) as (rb & ch & w' & H1 & _ & H);
    [apply update_read; evaluate|evaluate|apply nets_masked|].
  change (get_router_by_rid 2 (pwospf_router_list (w_rs start))) with (Some 1%nat) in H.
  destruct H as (r & Hr & H). apply (inj Some) in Hr as <-.
  destruct H as (-> & r' & H2 & H3 & H4).
  exists w', r'. split; [|split; [exact H2|rewrite H3; reflexivity]].
  rewrite H1. f_equal. f_equal. apply H4. split; [evaluate|]. intros key. reflexivity.
Defined.

(** Update 7 was seen before. *)
Lemma stale_lsu_ignored_witness :
  exists w', process_pwospf_lsu_packet (lsu_envelope ++ lsu_bytes 2 0 7 64 0 [net1; net2]) start =
             Done tt w' /\ w_rs w' = router.
Proof.
  destruct (stale_lsu_ignored (lsu_envelope ++ lsu_bytes 2 0 7 64 0 [net1; net2]) 2 7 64 [net1; net2]
              start) as (w' & H1 & H2 & _);
    [apply update_read; evaluate|evaluate|apply nets_masked|right; exists 1%nat, router2; evaluate|].
  exists w'. split; [exact H1|exact H2].
Defined.


Lemma populate_pwospf_router_interface_list_correct_witness :
  let '(r, changed) := populate_pwospf_router_interface_list [net1; net2] (pr_interface_list router2) in
  (forall k, k ∈ map iface_key r <-> k ∈ map adv_key [net1; net2]) /\
  (changed = false <-> pr_interface_list router2 ≠ [] /\
     forall k, k ∈ map iface_key (pr_interface_list router2) <-> k ∈ map adv_key [net1; net2]).
Proof.
  apply (populate_pwospf_router_interface_list_correct [net1; net2] (pr_interface_list router2)).
  apply nets_masked.
Defined.

Lemma unmasked_adv_never_learnt_witness :
  populate_pwospf_router_interface_list [net1; net2; net3_unmasked] (pr_interface_list router2) =
    (pr_interface_list router2, true).
Proof.
  apply (unmasked_adv_never_learnt net3_unmasked
           (mk_pwospf_interface (ip4 10 0 1 0) (ip4 255 255 255 0) 1 true)
           [mk_pwospf_interface (ip4 10 0 2 0) (ip4 255 255 255 0) 3 true]); [evaluate| |].
  - apply (bool_decide_unpack _). vm_compute. exact I.
  - repeat constructor.
Defined.

(** ** Translation *)

Lemma datagram_nat p : is_bytes p -> length p = 42%nat -> get8 p 23 = Some IP_PROTO_UDP -> nat_packet KUdp p.
Proof. intros Hb Hl Hp. constructor; [done|done|done|rewrite Hl; evaluate]. Qed.

Lemma flow_ok port : is_u16 (htons port) -> entry_ok (flow port).
Proof. intros H. constructor; constructor; [evaluate|exact H|reflexivity|evaluate|evaluate|reflexivity]. Qed.

Definition translating (port : Z) : world := running (set_nat_table [flow port] router).

(** The first packet of the flow leaves as 192.0.2.1 port 2000; the answer to
    it comes back to 10.0.0.5. *)
Lemma nat_flow_round_trip_witness :
  exists p' w' r' w'', process_nat_int_packet 1 datagram (ip4 192 0 2 1) start = Done p' w' /\
    get32 p' 26 = Some (ip4 192 0 2 1) /\ get16 p' 34 = Some (htons 2000) /\
    process_nat_ext_packet answer w' = Done r' w'' /\
    get32 r' 30 = Some (ip4 10 0 0 5) /\ get16 r' 36 = Some (htons 1000).
Proof.
  destruct (nat_flow_round_trip 1 KUdp datagram answer (ip4 192 0 2 1) start 0 2000)
    as (p' & w' & r' & w'' & H1 & H2 & H3 & _ & _ & H4 & H5 & _).
  - apply datagram_nat; evaluate.
  - evaluate.
  - constructor.
  - constructor; [evaluate..|]. intros j Hj. lia.
  - lia.
  - evaluate.
  - apply datagram_nat; evaluate.
  - evaluate.
  - evaluate.
  - destruct H5 as [H5 H6]; [intros ne Hne; by apply elem_of_nil in Hne|].
    exists p', w', r', w''. split; [exact H1|]. split; [exact H2|]. split; [exact H3|].
    split; [exact H4|]. split; [exact H5|exact H6].
Defined.

Lemma nat_known_flow_witness :
  exists p' w', process_nat_int_packet 1 datagram (ip4 192 0 2 1) (translating 3000) = Done p' w' /\
    get32 p' 26 = Some (ip4 192 0 2 1) /\ get16 p' 34 = Some (htons 3000) /\
    transport_valid KUdp p' 8.
Proof.
  destruct (nat_known_flow KUdp NAT_EXTERNAL datagram 0 1 (ip4 192 0 2 1) (translating 3000))
    as (ne & p' & w' & Hne & H1 & [_ _ H2 H3 _] & H4 & _).
  - apply datagram_nat; evaluate.
  - evaluate.
  - repeat constructor; evaluate.
  - apply (inj Some) in Hne as <-.
    exists p', w'. split; [exact H1|]. split; [exact H2|]. split; [exact H3|].
    apply H4; [split; evaluate|].
    exists (ip4 10 0 0 5), (ip4 8 8 8 8). split; [evaluate|]. split; [evaluate|].
    exists 1. evaluate.
Defined.

(** 10.0.0.5 already has port 2000; 10.0.0.6 draws it too. *)
Lemma nat_port_collision_witness :
  exists p' w' ne' r' w'',
    process_nat_int_packet 1 datagram2 (ip4 192 0 2 1) (translating 2000) = Done p' w' /\
    nat_table (w_rs w') = [flow 2000; ne'] /\ np_port (nat_ext ne') = np_port (nat_ext (flow 2000)) /\
    process_nat_ext_packet answer w' = Done r' w'' /\ get32 r' 30 = Some (ip4 10 0 0 5).
Proof.
  destruct (nat_port_collision 0 KUdp datagram2 answer (ip4 192 0 2 1) (translating 2000) 2000 (flow 2000))
    as (p' & w' & ne' & r' & w'' & H1 & H2 & _ & H3 & _ & H4 & H5).
  - apply datagram_nat; evaluate.
  - evaluate.
  - apply flow_ok. evaluate.
  - evaluate.
  - evaluate.
  - evaluate.
  - evaluate.
  - evaluate.
  - evaluate.
  - evaluate.
  - apply datagram_nat; evaluate.
  - evaluate.
  - evaluate.
  - exists p', w', ne', r', w''. split; [exact H1|]. split; [exact H2|]. split; [exact H3|].
    split; [exact H4|exact H5].
Defined.

Lemma nat_ip_checksum_off_by_port_witness :
  exists p' w', process_nat_ext_packet answer (translating 2000) = Done p' w' /\
    ~ checksummed p' 14 20.
Proof.
  destruct (nat_ip_checksum_off_by_port KUdp answer 0 (translating 2000))
    as (ne & p' & w' & Hne & H1 & _ & H2).
  - apply datagram_nat; evaluate.
  - split; evaluate.
  - evaluate.
  - repeat constructor; evaluate.
  - apply (inj Some) in Hne as <-. exists p', w'. split; [exact H1|]. apply H2. evaluate.
Defined.

(** ** Interfaces and locks *)

Lemma iface_change_with_neighbours_crashes_witness :
  exists w', (if if_is_active eth1_iface then iface_down "eth1" else iface_up "eth1") start =
             Crashed UseAfterFree w'.
Proof.
  apply (iface_change_with_neighbours_crashes "eth1" eth1_iface start);
    [apply routes_named|evaluate|evaluate].
Defined.


(** A hello from a neighbour that thinks the network of eth1 is a /16. *)
Definition wrong_hello : bytes :=
  lsu_envelope ++ replicate 24 0 ++ [255; 255; 0; 0; 0; 5; 0; 0].

Lemma hello_mask_mismatch_keeps_mutex_witness :
  exists w', process_pwospf_hello_packet wrong_hello "eth1" start = Done tt w' /\
    run_locks (L_router_list :: ip_locks) [EvLock L_router_list Mutex] = None.
Proof.
  destruct (hello_mask_mismatch_keeps_mutex wrong_hello "eth1" eth1_iface (htons 5) (ip4 255 255 0 0)
              start) as (w' & H1 & _ & t & _ & _ & H2); [evaluate..|].
  exists w'. split; [exact H1|exact H2].
Defined.
