(* ===== verification/CliWitnesses.v ===== *)
(** The command line and the printed tables on the router of Witnesses.v: each
    lemma [X_witness] applies the theorem [X] to it. *)

From S2P Require Import Prelude Words Bytes State Nodes CStrings Sorting Netfpga Rtable Headers.
From S2P Require Import Packets Iface Arp Icmp Dijkstra Pwospf IfaceCtl Sprint Ip Sping Cli Www Main.
From S2P Require Import LockOrder SprintTheorems CliTheorems WwwTheorems Invariant Preservation Reachable Witnesses.
From Stdlib Require Import Ascii.
Local Open Scope Z_scope.

(** ** Printed tables *)

Lemma printed_route_read_back_witness :
  exists line, route_text (mk_rtable_entry (ip4 10 0 1 0) 0 (ip4 255 255 255 0) "eth1" false true) start =
    Done line start /\
  rtable_line line = Some (mk_rtable_entry (ip4 10 0 1 0) 0 (ip4 255 255 255 0) "eth1" true true).
Proof.
  apply (printed_route_read_back (mk_rtable_entry (ip4 10 0 1 0) 0 (ip4 255 255 255 0) "eth1" false true)).
  - split; [evaluate|]. split; evaluate.
  - split; [split; [discriminate|reflexivity]|evaluate].
Defined.

(** The router with three neighbours behind its only interface. *)
Definition crowded : router_state :=
  set_if_list [mk_iface_entry "eth0" (mac 1) (ip4 10 0 0 1) (ip4 255 255 255 0) 0 true 0
    [mk_nbr_router 2 (ip4 10 0 0 2) 0; mk_nbr_router 3 (ip4 10 0 0 3) 0;
     mk_nbr_router 4 (ip4 10 0 0 4) 0] 0] router.

Lemma sprint_pwospf_if_list_overruns_witness :
  exists w', sprint_pwospf_if_list (running crowded) = Crashed OutOfBounds w'.
Proof. apply (sprint_pwospf_if_list_overruns (running crowded)). evaluate. Defined.

(** ** Commands *)

Lemma cli_command_lpm_correct_witness :
  cli_command_lpm cli_commands "show ip route ?" = Some Cli_show_ip_rtable_help.
Proof.
  apply (cli_command_lpm_correct cli_commands "show ip route ?" cli_commands_distinct).
  exists (mk_cli_entry "show ip route ?" Cli_show_ip_rtable_help). split; [|reflexivity].
  split; [registered|]. split; [reflexivity|]. split; [evaluate|].
  intros ce Hce. apply list_elem_of_In in Hce. simpl in Hce.
  repeat destruct Hce as [<-|Hce]; [..|done]; intros H; try discriminate H; evaluate.
Defined.

Lemma init_cli_dispatch_witness :
  let _ := strcmp_sign in
  exists commands, init_cli = Some commands /\
    cli_command_lpm commands "sping" = Some Cli_sping.
Proof.
  intros sc. destruct (@init_cli_dispatch strcmp_sign strcmp_sign_laws) as (commands & E & _ & H & _).
  exists commands. split; [exact E|]. apply (H (mk_cli_entry "sping" Cli_sping)). registered.
Defined.

Definition no_client : cli_context := mk_cli_context "" "" "" 0 0 0 [] "".

(** The route to 10.0.3.0, added by a command. *)
Lemma ip_route_add_correct_witness :
  let _ := strcmp_sign in
  exists commands, init_cli = Some commands /\
  wp (handle_command no_client commands (mk_cli_request 4
        (command_text "ip route add" [inet_ntop (ip4 10 0 3 0); inet_ntop (ip4 10 0 0 9);
                                      inet_ntop (ip4 255 255 255 0); "eth0"%string])))
    (fun _ w' => length (rtable (w_rs w')) = 4%nat /\ routes_sorted (rtable (w_rs w'))) start.
Proof.
  intros sc. destruct (@init_cli_dispatch strcmp_sign strcmp_sign_laws) as (commands & E & _).
  exists commands. split; [exact E|]. eapply wp_mono.
  - apply (@ip_route_add_correct strcmp_sign strcmp_sign_laws no_client commands 4 (ip4 10 0 3 0)
      (ip4 10 0 0 9) (ip4 255 255 255 0) "eth0" start E);
      [evaluate..|split; [discriminate|reflexivity]|apply routes_named|eexists; reflexivity].
  - intros [] w' [(l & -> & H1 & H2) _]. split; [simpl; rewrite H2; reflexivity|exact H1].
Defined.

Lemma ip_route_del_correct_witness :
  let _ := strcmp_sign in
  exists commands, init_cli = Some commands /\
  wp (handle_command no_client commands (mk_cli_request 4
        (command_text "ip route del" [inet_ntop (ip4 10 0 1 0); inet_ntop (ip4 255 255 255 0)])))
    (fun _ w' => length (rtable (w_rs w')) = 2%nat /\ replied 4 ("1 route deleted." +:+ nl) w') start.
Proof.
  intros sc. destruct (@init_cli_dispatch strcmp_sign strcmp_sign_laws) as (commands & E & _).
  exists commands. split; [exact E|]. eapply wp_mono.
  - apply (@ip_route_del_correct strcmp_sign strcmp_sign_laws no_client commands 4 (ip4 10 0 1 0)
      (ip4 255 255 255 0) start E); [evaluate..|apply routes_named].
  - intros [] w' [(l & -> & _ & H2) Hr]. split; [simpl; rewrite H2; reflexivity|exact Hr].
Defined.

Lemma set_hello_interval_correct_witness :
  let _ := strcmp_sign in
  exists commands, init_cli = Some commands /\
  wp (handle_command no_client commands (mk_cli_request 4
        (command_text "set hello interval" [pretty.pretty 30])))
    (fun _ w' => pwospf_hello_interval (w_rs w') = 30) start.
Proof.
  intros sc. destruct (@init_cli_dispatch strcmp_sign strcmp_sign_laws) as (commands & E & _).
  exists commands. split; [exact E|].
  destruct (@set_hello_interval_correct strcmp_sign strcmp_sign_laws no_client commands 4 start E) as [H _].
  eapply wp_mono; [apply (H 30); evaluate|]. intros [] w' [-> _]. reflexivity.
Defined.

Lemma ip_interface_without_mask_crashes_witness :
  let _ := strcmp_sign in
  exists commands, init_cli = Some commands /\
  handle_command no_client commands (mk_cli_request 4
    (command_text "ip interface" ["eth0"%string; inet_ntop (ip4 10 0 0 2)])) start = Crashed NullDeref start.
Proof.
  intros sc. destruct (@init_cli_dispatch strcmp_sign strcmp_sign_laws) as (commands & E & _).
  exists commands. split; [exact E|].
  apply (@ip_interface_without_mask_crashes strcmp_sign strcmp_sign_laws no_client commands 4 "eth0"
    (ip4 10 0 0 2) start E); [split; [discriminate|reflexivity]|reflexivity|evaluate].
Defined.

(** ** A client *)

Lemma process_client_request_serves_witness :
  process_client_request no_client cli_commands 4 (map line_of ["show ip route"; "help"]%string) start =
  (prompt 4;; serve no_client cli_commands 4 ["show ip route"; "help"]%string) start.
Proof.
  apply (process_client_request_serves no_client cli_commands 4 ["show ip route"; "help"]%string start).
  repeat constructor; simpl; lia.
Defined.

Lemma long_request_overruns_witness :
  client_loop no_client cli_commands 4 (replicate MAX_COMMAND_SIZE NUL)
    [Received (replicate MAX_COMMAND_SIZE "a"%char)] start = Crashed OutOfBounds start.
Proof.
  apply (long_request_overruns no_client cli_commands 4 (replicate MAX_COMMAND_SIZE NUL)
    (replicate MAX_COMMAND_SIZE "a"%char) [] start); [reflexivity..|].
  intros H. apply elem_of_replicate in H as [H _]. discriminate H.
Defined.

(** ** A run of the router *)

(** Two interfaces and two routes. *)
Definition announced : list sr_vns_if :=
  [mk_sr_vns_if "eth0" (mac 1) (ip4 10 0 0 1) (ip4 255 255 255 0) 0;
   mk_sr_vns_if "eth1" (mac 2) (ip4 10 0 1 1) (ip4 255 255 255 0) 0].
Definition route_file : list string :=
  ["10.0.0.0 0.0.0.0 255.255.255.0 eth0"; "10.0.1.0 0.0.0.0 255.255.255.0 eth1"].

(** The world an execution ends in. *)
Definition world_after (m : M unit) (w : world) : world :=
  match m w with Done _ w' => w' | Crashed _ w' => w' end.

Definition powered_on : world := mk_world (init_state false) [] 0 0 (w_env start).
Definition booted : world := let _ := strcmp_sign in world_after (boot false announced route_file) powered_on.
Definition greeted : world := world_after (perform HelloRound) booted.

Lemma greeted_reachable : let _ := strcmp_sign in reachable greeted.
Proof.
  cbv zeta. apply (reach_step HelloRound booted); [|exact I|vm_compute; reflexivity].
  apply (reach_boot false announced route_file powered_on); [| |vm_compute; reflexivity].
  - intros k. split; evaluate.
  - repeat (constructor || split); evaluate.
Qed.

Lemma reachable_state_ok_witness : state_ok (w_rs greeted).
Proof. exact (reachable_state_ok greeted greeted_reachable). Defined.

Lemma reachable_tables_fit_witness :
  wp sprint_arp_cache (fun _ _ => True) greeted /\ wp sprint_pwospf_if_list (fun _ _ => True) greeted.
Proof.
  pose proof (reachable_tables_fit greeted greeted_reachable) as [H1 H2]. split.
  - exact (Forall_inv H1).
  - apply H2. vm_compute. repeat constructor.
Defined.

(** ** The web server *)

(** A browser that asks for the help in two pieces. *)
Definition web_pieces : list (list ascii) := [take 30 (command_request "help")].
Definition web_data : list ascii := drop 30 (command_request "help").

Lemma web_pieces_fit : fits_buffer BUF_ALLOC_SIZE 0 (web_pieces ++ [web_data]).
Proof. repeat (split || (vm_compute; lia)). Defined.

Lemma read_request_correct_witness :
  read_request (map Received (web_pieces ++ [web_data])) = Request (command_request "help").
Proof.
  destruct (read_request_correct web_pieces web_data [] web_pieces_fit) as (_ & _ & _ & H); [reflexivity|].
  rewrite app_nil_r in H. rewrite H by reflexivity. reflexivity.
Defined.

Lemma web_command_runs_witness :
  service_request no_client cli_commands "/root" (fun _ => None) 4 (map Received (web_pieces ++ [web_data])) [19] start
  = (emit (EvSocket 4 (HTTP_OK +:+ CRLF));; lock_cli_commands_rd;;
     cli_help (mk_cli_request 4 "help");; unlock_cli_commands;; emit (EvClose 4);; mret true) start.
Proof.
  rewrite <- (app_nil_r (map Received _)).
  rewrite (web_command_runs no_client cli_commands "/root" (fun _ => None) 4 "help" web_pieces web_data [] [19] start);
    [reflexivity|discriminate|discriminate|reflexivity|apply web_pieces_fit].
Defined.
