(* ===== verification/RkAddr.v ===== *)
(** The address classes of the router kit (netinet++): [ipaddr] of ipaddr.hh
    and [ethernetaddr] of ethernetaddr.hh. An [ipaddr] holds its address in
    network order, as the word the host loads; the operators that take a plain
    number read it now in one byte order, now in the other. *)

From S2P Require Import Prelude Words Bytes CStrings Sprint.
From Stdlib Require Import Ascii.
Local Open Scope Z_scope.

(** How a function of the kit stops: an exception nobody catches, an assertion,
    a null pointer, a buffer overrun, a variable never set, [exit], [abort]. *)
Inductive stop := Thrown | Asserted | Null | Overrun | Unset | Exited | Aborted.

Definition cxx (A : Type) : Type := (stop + A)%type.
#[export] Instance cxx_ret : MRet cxx := fun A a => inr a.
#[export] Instance cxx_bind : MBind cxx := fun A B f m =>
  match m with inl s => inl s | inr a => f a end.

(** ** [ipaddr] *)

Record ipaddr := mk_ipaddr { addr : Z }.

#[export] Instance ipaddr_eq_dec : EqDecision ipaddr.
Proof. solve_decision. Defined.

Definition ipaddr_none : ipaddr := mk_ipaddr 0.
Definition ipaddr_uint32 (addr_in : Z) : ipaddr := mk_ipaddr (htonl addr_in).

(** [memcpy(&addr, hp->h_addr, hp->h_length)], the length checked before. *)
Definition host_addr (h : bytes) : cxx ipaddr :=
  match h with
  | [a; b; c; d] => mret (mk_ipaddr (a + 2 ^ 8 * b + 2 ^ 16 * c + 2 ^ 24 * d))
  | _ => inl Asserted
  end.

Section Names.
(** The resolver: the address of a host, if it has one. *)
Variable gethostbyname : string -> option bytes.

Definition ipaddr_cstr (addr_in : string) : cxx ipaddr :=
  match gethostbyname addr_in with None => mret (mk_ipaddr 0) | Some hp => host_addr hp end.
Definition ipaddr_string (addr_in : string) : cxx ipaddr :=
  match gethostbyname addr_in with None => inl Thrown | Some hp => host_addr hp end.
Definition ipaddr_assign_string (addr_in : string) : cxx ipaddr :=
  match gethostbyname addr_in with None => inl Thrown | Some hp => host_addr hp end.
End Names.

(** The first four bytes of the socket address: its family and its port. *)
Definition ipaddr_sockaddr (addr_in : bytes) : option ipaddr := v ← get32 addr_in 0; Some (mk_ipaddr v).
Definition ipaddr_in_addr (s_addr : Z) : ipaddr := mk_ipaddr s_addr.

(** The bytes of the pointer, not those it points to. *)
Definition ipaddr_bytes (pointer : Z) : cxx ipaddr :=
  if pointer =? 0 then inl Asserted else mret (mk_ipaddr (u32 pointer)).

Definition change_byte_ordering (a : ipaddr) : ipaddr := mk_ipaddr (htonl (addr a)).

Definition ip_string (a : ipaddr) : string := inet_ntop (addr a).
Definition ip_fill_string (a : ipaddr) : string := ip_string a.
Definition ip_fill_chars (a : ipaddr) : string := strncpy (ip_string a) 16.
Definition ip_c_string (a : ipaddr) : string := strncpy (inet_ntop (addr a)) 16.

Definition ip_bool (a : ipaddr) : bool := negb (addr a =? 0).
Definition ip_uint32 (a : ipaddr) : Z := addr a.
Definition ip_lnot (a : ipaddr) : bool := addr a =? 0.

(** [~], [&], [|] and their assignments. *)
Definition ip_not (a : ipaddr) : ipaddr := ipaddr_uint32 (htonl (u32 (Z.lnot (addr a)))).
Definition ip_and (a b : ipaddr) : ipaddr := ipaddr_uint32 (htonl (Z.land (addr a) (addr b))).
Definition ip_and_uint32 (a : ipaddr) (n : Z) : ipaddr := ipaddr_uint32 (Z.land (ntohl (addr a)) n).
Definition ip_and_assign (a b : ipaddr) : ipaddr := mk_ipaddr (Z.land (addr a) (addr b)).
Definition ip_and_assign_uint32 (a : ipaddr) (n : Z) : ipaddr := mk_ipaddr (Z.land (addr a) n).
Definition ip_or (a b : ipaddr) : ipaddr := ipaddr_uint32 (htonl (Z.lor (addr a) (addr b))).
Definition ip_or_uint32 (a : ipaddr) (n : Z) : ipaddr := ipaddr_uint32 (htonl (Z.lor (addr a) n)).
Definition ip_or_assign (a b : ipaddr) : ipaddr := mk_ipaddr (Z.lor (addr a) (addr b)).
Definition ip_or_assign_uint32 (a : ipaddr) (n : Z) : ipaddr := mk_ipaddr (Z.lor (addr a) n).

(** Arithmetic, on the host's view of the address. An [int] is a number in two's
    complement on 32 bits. *)
Definition ip_incr (a : ipaddr) : ipaddr := mk_ipaddr (htonl (u32 (htonl (addr a) + 1))).
(** The value of the expression and the object after it. *)
Definition ip_post_incr (a : ipaddr) : ipaddr * ipaddr := (a, ip_incr a).
Definition ip_decr (a : ipaddr) : ipaddr := mk_ipaddr (htonl (u32 (htonl (addr a) - 1))).
Definition ip_add_assign (a : ipaddr) (n : Z) : ipaddr := mk_ipaddr (htonl (u32 (htonl (addr a) + n))).
Definition ip_add (a : ipaddr) (n : Z) : ipaddr := ipaddr_uint32 (u32 (htonl (addr a) + n)).
Definition ip_diff (a b : ipaddr) : Z := int32 (u32 (htonl (addr a) - htonl (addr b))).
Definition ip_sub (a : ipaddr) (n : Z) : ipaddr := ipaddr_uint32 (u32 (htonl (addr a) - n)).

Definition ip_assign (a b : ipaddr) : ipaddr := mk_ipaddr (addr b).
Definition ip_assign_uint32 (a : ipaddr) (n : Z) : ipaddr := mk_ipaddr n.

Definition ip_eq (a b : ipaddr) : bool := addr a =? addr b.
Definition ip_eq_uint32 (a : ipaddr) (n : Z) : bool := addr a =? n.
Definition ip_ne (a b : ipaddr) : bool := negb (addr a =? addr b).
Definition ip_ne_uint32 (a : ipaddr) (n : Z) : bool := negb (addr a =? n).
Definition ip_lt_uint32 (a : ipaddr) (n : Z) : bool := htonl (addr a) <? n.
Definition ip_lt (a b : ipaddr) : bool := htonl (addr a) <? htonl (addr b).
Definition ip_le_uint32 (a : ipaddr) (n : Z) : bool := htonl (addr a) <=? n.
Definition ip_le (a b : ipaddr) : bool := htonl (addr a) <=? htonl (addr b).
Definition ip_gt_uint32 (a : ipaddr) (n : Z) : bool := n <? htonl (addr a).
Definition ip_gt (a b : ipaddr) : bool := htonl (addr b) <? htonl (addr a).
Definition ip_ge_uint32 (a : ipaddr) (n : Z) : bool := n <=? htonl (addr a).
Definition ip_ge (a b : ipaddr) : bool := htonl (addr b) <=? htonl (addr a).

(** ** [ethernetaddr] *)

Definition LEN : nat := 6.
Notation ethernetaddr := (list Z).

(** [htonll] and [ntohll]; the argument of [htonl] is 32 bits wide. *)
Definition htonll (n : Z) : Z := u64 (htonl (u32 n) * 2 ^ 32 + htonl (u32 (Z.shiftr n 32))).
Definition ntohll (n : Z) : Z := u64 (htonl (u32 n) * 2 ^ 32 + htonl (u32 (Z.shiftr n 32))).

(** The eight bytes of a word in memory, and the word loaded from them. *)
Definition long_bytes (v : Z) : bytes := word_bytes (u32 v) ++ word_bytes (u32 (v / 2 ^ 32)).
Definition get64 (p : bytes) (o : nat) : option Z :=
  lo ← get32 p o; hi ← get32 p (o + 4); Some (lo + 2 ^ 32 * hi).

(** [ether_aton] of the C library: six groups of one or two hexadecimal digits. *)
Definition ends_text (l : list ascii) : bool :=
  match l with [] => true | c :: _ => is_space c end.
Fixpoint aton_octets (left : nat) (l : list ascii) : option bytes :=
  let stops l := match left with
                 | S _ => match l with c :: _ => Ascii.eqb c ":" | [] => false end
                 | O => ends_text l
                 end in
  match l with
  | [] => None
  | c :: l =>
      a ← hex_digit c;
      '(v, l) ← (if stops l then Some (a, l) else
                 match l with
                 | [] => None
                 | c2 :: l => b ← hex_digit c2;
                     if match left with S _ => stops l | O => true end then Some (16 * a + b, l) else None
                 end);
      match left with
      | O => Some [v]
      | S left' => rest ← aton_octets left' (tail l); Some (v :: rest)
      end
  end.
Definition ether_aton (text : string) : option bytes := aton_octets 5 (chars text).

(** [ether_ntoa]: "%x:%x:%x:%x:%x:%x" *)
Definition fmt_hex (x : Z) : list ascii :=
  let digit d := chr (if d <? 10 then d + 48 else d + 87) in
  if x <? 16 then [digit x] else [digit (x / 16); digit (x mod 16)].
Fixpoint join_colons (l : list (list ascii)) : list ascii :=
  match l with
  | [] => []
  | [w] => w
  | w :: l' => w ++ ":"%char :: join_colons l'
  end.
Definition ether_ntoa (octet : ethernetaddr) : string := implode (join_colons (map fmt_hex octet)).

(** [memcmp], which is documented up to the sign of its result. *)
Fixpoint memcmp (a b : bytes) : Z :=
  match a, b with
  | x :: a', y :: b' => if x <? y then -1 else if y <? x then 1 else memcmp a' b'
  | _, _ => 0
  end.

Definition eth_none : ethernetaddr := replicate LEN 0.
Definition eth_uint64 (id : Z) : ethernetaddr := take LEN (drop 2 (long_bytes (htonll id))).
Definition eth_cstr (text : string) : ethernetaddr :=
  match ether_aton text with None => replicate LEN 0 | Some e_addr => e_addr end.
(** The bytes are cleared, then copied from the null pointer all the same. *)
Definition eth_string (text : string) : cxx ethernetaddr :=
  match ether_aton text with None => inl Null | Some e_addr => mret e_addr end.
Definition eth_assign_uint64 (id : Z) : ethernetaddr := take LEN (long_bytes id).
Definition eth_assign_cstr (addr_in : string) : cxx ethernetaddr :=
  match ether_aton addr_in with None => inl Null | Some e_addr => mret e_addr end.
Definition eth_set_octet (oct : bytes) : option ethernetaddr := get_range oct 0 LEN.

(** The warnings of the constructor and of the assignment, which tests other
    bits. *)
Definition eth_uint64_warns (id : Z) : bool := negb (Z.land id 71776119061217280 =? 0).
Definition eth_assign_uint64_warns (id : Z) : bool := negb (Z.land id 280375465082880 =? 0).

Definition eth_is_init (octet : ethernetaddr) : option bool :=
  lo ← get32 octet 0; hi ← get16 octet 4; Some (negb (lo =? 0) && negb (hi =? 0)).

(** The loop over the octets, from octet [i]. *)
Fixpoint eth_eq_loop (n i : nat) (a b : ethernetaddr) : bool :=
  match n with
  | O => true
  | S n' => if negb (default 0 (a !! i) =? default 0 (b !! i)) then false else eth_eq_loop n' (S i) a b
  end.
Definition eth_eq (a b : ethernetaddr) : bool := eth_eq_loop LEN 0 a b.
Fixpoint eth_ne_loop (n i : nat) (a b : ethernetaddr) : bool :=
  match n with
  | O => false
  | S n' => if negb (default 0 (a !! i) =? default 0 (b !! i)) then true else eth_ne_loop n' (S i) a b
  end.
Definition eth_ne (a b : ethernetaddr) : bool := eth_ne_loop LEN 0 a b.
Definition eth_lt (a b : ethernetaddr) : bool := memcmp b a <? 0.
Definition eth_le (a b : ethernetaddr) : bool := memcmp b a <=? 0.
Definition eth_gt (a b : ethernetaddr) : bool := 0 <? memcmp b a.
Definition eth_ge (a b : ethernetaddr) : bool := 0 <=? memcmp b a.

Definition eth_bool (octet : ethernetaddr) : bool := negb (memcmp octet (replicate LEN 0) =? 0).
(** The load of eight bytes runs two bytes past the octets, into [after]. *)
Definition eth_as_long (octet : ethernetaddr) (after : bytes) : option Z :=
  id ← get64 (octet ++ after) 0; Some (Z.shiftr (ntohll id) 16).
Definition eth_c_string (octet : ethernetaddr) : string := ether_ntoa octet.
Definition eth_to_string (octet : ethernetaddr) : string := ether_ntoa octet.

Definition eth_is_private (octet : ethernetaddr) : option bool :=
  b ← octet !! 0%nat; Some (negb (Z.land 64 b =? 0)).
Definition eth_is_multicast (octet : ethernetaddr) : option bool :=
  b ← octet !! 0%nat; Some (negb (Z.land 128 b =? 0)).
Definition eth_is_broadcast (octet : ethernetaddr) : option bool :=
  v ← get32 octet 0; Some (v =? 4294967295).
Definition eth_is_zero (octet : ethernetaddr) : option bool :=
  lo ← get32 octet 0; hi ← get16 octet 4; Some ((lo =? 0) && (hi =? 0)).


(** ** Lemmas: [ipaddr] *)

(** The address as the number its dotted form reads. *)
Definition ip_value (a : ipaddr) : Z := ntohl (addr a).
Definition ip_wf (a : ipaddr) : Prop := is_u32 (addr a).

Lemma ip_value_range a : is_u32 (ip_value a).
Proof. apply bswap32_range. Qed.

Lemma ip_value_of n : is_u32 n -> ip_value (mk_ipaddr (htonl n)) = n.
Proof. apply bswap32_involutive. Qed.

Lemma ip_value_inj a b : ip_wf a -> ip_wf b -> ip_value a = ip_value b -> a = b.
Proof. destruct a, b. unfold ip_wf, ip_value. simpl. intros ?? H. f_equal. by apply bswap32_inj. Qed.

Lemma ip_eq_true a b : ip_eq a b = true <-> a = b.
Proof. destruct a, b. unfold ip_eq. simpl. rewrite Z.eqb_eq. by split; [intros ->|intros [=]]. Qed.

Lemma ip_eq_value a b : ip_wf a -> ip_wf b -> ip_eq a b = (ip_value a =? ip_value b).
Proof. intros. by apply bswap32_eqb. Qed.

Lemma int32_small x : - 2 ^ 31 <= x < 2 ^ 31 -> int32 (u32 x) = x.
Proof. unfold int32, u32. intros H. rewrite Zplus_mod_idemp_l, Z.mod_small; lia. Qed.

Lemma u32_sub_idemp x y : u32 (u32 x - y) = u32 (x - y).
Proof. unfold u32. by rewrite Zminus_mod_idemp_l. Qed.

(** The arithmetic of the class is that of the numbers, modulo [2 ^ 32]. *)
Lemma ip_add_value a n : ip_value (ip_add a n) = u32 (ip_value a + n).
Proof. apply ip_value_of, u32_range. Qed.

Lemma ip_sub_value a n : ip_value (ip_sub a n) = u32 (ip_value a - n).
Proof. apply ip_value_of, u32_range. Qed.

Lemma ip_wf_of n : ip_wf (mk_ipaddr (htonl n)).
Proof. apply bswap32_range. Qed.

Lemma ip_sub_add a n : ip_wf a -> ip_sub (ip_add a n) n = a.
Proof.
  intros Ha. apply ip_value_inj; [apply ip_wf_of|done|].
  rewrite ip_sub_value, ip_add_value, u32_sub_idemp, Z.add_simpl_r.
  apply u32_id, ip_value_range.
Qed.

Lemma ip_decr_incr a : ip_wf a -> ip_decr (ip_incr a) = a.
Proof. apply (ip_sub_add a 1). Qed.

Lemma ip_diff_value a b : ip_diff a b = int32 (u32 (ip_value a - ip_value b)).
Proof. reflexivity. Qed.

Lemma ip_diff_add a n : - 2 ^ 31 <= n < 2 ^ 31 -> ip_diff (ip_add a n) a = n.
Proof.
  intros Hn. rewrite ip_diff_value, ip_add_value, u32_sub_idemp, Z.add_simpl_l. by apply int32_small.
Qed.

(** ** Lemmas: [ethernetaddr] *)

Definition six_octets (o : ethernetaddr) : Prop := length o = LEN /\ is_bytes o.

Lemma forall_u8 (P : Z -> bool) : forallb P (map Z.of_nat (seq 0 256)) = true -> forall v, is_u8 v -> P v = true.
Proof.
  rewrite forallb_forall. intros H v Hv. apply H. apply in_map_iff. exists (Z.to_nat v).
  unfold is_u8 in Hv. change (2 ^ 8) with 256 in Hv.
  split; [lia|]. apply in_seq. lia.
Qed.

(** What [fmt_hex] prints of an octet. *)
Definition hex_shape (v : Z) : bool :=
  match fmt_hex v with
  | [c] => bool_decide (hex_digit c = Some v)
  | [c; c2] => bool_decide (hex_digit c = Some (v / 16)) && bool_decide (hex_digit c2 = Some (v mod 16))
               && negb (Ascii.eqb c2 ":") && negb (is_space c2)
  | _ => false
  end.

Lemma fmt_hex_shape v : is_u8 v -> hex_shape v = true.
Proof. apply forall_u8. vm_compute. reflexivity. Qed.

Lemma hex_pair v : 16 * (v / 16) + v mod 16 = v.
Proof. symmetry. apply Z.div_mod. lia. Qed.

(** An octet is read back, whether another follows or the text ends. *)
Lemma aton_more v left l :
  is_u8 v -> aton_octets (S left) (fmt_hex v ++ ":"%char :: l) = (rest ← aton_octets left l; Some (v :: rest)).
Proof.
  intros Hv. pose proof (fmt_hex_shape v Hv) as H. unfold hex_shape in H.
  destruct (fmt_hex v) as [|c [|c2 [|]]]; try done.
  - apply bool_decide_eq_true in H. simpl. by rewrite H.
  - bool_to_prop. repeat match goal with H : bool_decide _ = true |- _ => apply bool_decide_eq_true in H end.
    match goal with H : hex_digit c = _, H2 : hex_digit c2 = _, H3 : (_ =? _)%char = _ |- _ =>
      simpl; rewrite H; simpl; rewrite H3, H2 end.
    simpl. by rewrite hex_pair.
Qed.

Lemma aton_last v : is_u8 v -> aton_octets 0 (fmt_hex v) = Some [v].
Proof.
  intros Hv. pose proof (fmt_hex_shape v Hv) as H. unfold hex_shape in H.
  destruct (fmt_hex v) as [|c [|c2 [|]]]; try done.
  - apply bool_decide_eq_true in H. simpl. by rewrite H.
  - bool_to_prop. repeat match goal with H : bool_decide _ = true |- _ => apply bool_decide_eq_true in H end.
    match goal with H : hex_digit c = _, H2 : hex_digit c2 = _, H3 : is_space _ = _ |- _ =>
      simpl; rewrite H; simpl; rewrite H3, H2 end.
    simpl. by rewrite hex_pair.
Qed.

Lemma aton_join left o :
  length o = S left -> is_bytes o -> aton_octets left (join_colons (map fmt_hex o)) = Some o.
Proof.
  revert left. induction o as [|v [|w o] IH]; intros left Hlen Ho; [done| |].
  - destruct left; [|done]. inversion_clear Ho. by apply aton_last.
  - destruct left as [|left]; [done|]. inversion_clear Ho.
    change (join_colons (map fmt_hex (v :: w :: o)))
      with (fmt_hex v ++ ":"%char :: join_colons (map fmt_hex (w :: o))).
    rewrite aton_more, IH by (simpl in *; done || lia). done.
Qed.

Lemma ether_aton_ntoa o : six_octets o -> ether_aton (ether_ntoa o) = Some o.
Proof. intros [Hl Ho]. unfold ether_aton, ether_ntoa. rewrite chars_implode. by apply aton_join. Qed.

(** The octets [a], ..., [f] of a number, most significant first. *)
Definition octets_value (o : ethernetaddr) : Z := foldl (fun v b => 256 * v + b) 0 o.

Lemma word_bytes_le a b c d :
  is_u8 a -> is_u8 b -> is_u8 c -> is_u8 d ->
  word_bytes (a + 2 ^ 8 * b + 2 ^ 16 * c + 2 ^ 24 * d) = [a; b; c; d].
Proof.
  unfold word_bytes, u8, is_u8. change (2 ^ 8) with 256. change (2 ^ 16) with 65536.
  change (2 ^ 24) with 16777216. intros. repeat f_equal; Z.div_mod_to_equations; lia.
Qed.

Lemma long_bytes_htonll hi lo :
  is_u32 hi -> is_u32 lo -> long_bytes (htonll (hi * 2 ^ 32 + lo)) = word_bytes (htonl hi) ++ word_bytes (htonl lo).
Proof.
  intros Hh Hl. unfold long_bytes, htonll.
  assert (u32 (hi * 2 ^ 32 + lo) = lo) as ->.
  { unfold u32, is_u32 in *. rewrite Z.add_comm, Z.mod_add, Z.mod_small; lia. }
  assert (u32 (Z.shiftr (hi * 2 ^ 32 + lo) 32) = hi) as ->.
  { rewrite Z.shiftr_div_pow2, Z.div_add_l, (Z.div_small lo), Z.add_0_r by (unfold is_u32 in *; lia).
    by apply u32_id. }
  pose proof (bswap32_range lo) as Rl. pose proof (bswap32_range hi) as Rh.
  assert (u64 (htonl lo * 2 ^ 32 + htonl hi) = htonl lo * 2 ^ 32 + htonl hi) as ->.
  { unfold u64, is_u32, htonl in *. apply Z.mod_small. lia. }
  f_equal; f_equal.
  - unfold u32, is_u32, htonl in *. rewrite Z.add_comm, Z.mod_add, Z.mod_small; lia.
  - rewrite Z.div_add_l, (Z.div_small (htonl hi)), Z.add_0_r by (unfold is_u32, htonl in *; lia). by apply u32_id.
Qed.

(** Six octets, and the numbers [hi] and [lo] of the first two and the others. *)
Lemma mac_cases (P : ethernetaddr -> Prop) :
  (forall a b c d e f, is_u8 a -> is_u8 b -> is_u8 c -> is_u8 d -> is_u8 e -> is_u8 f -> P [a; b; c; d; e; f]) ->
  forall o, six_octets o -> P o.
Proof.
  intros H o [Hl Ho]. destruct o as [|a [|b [|c [|d [|e [|f [|]]]]]]]; try done.
  unfold is_bytes in Ho. rewrite !Forall_cons in Ho. naive_solver.
Qed.

Lemma octets_value_split a b c d e f :
  octets_value [a; b; c; d; e; f]
  = (b + 2 ^ 8 * a) * 2 ^ 32 + (f + 2 ^ 8 * e + 2 ^ 16 * d + 2 ^ 24 * c).
Proof. unfold octets_value. cbn [foldl]. lia. Qed.

Lemma word_range a b c d :
  is_u8 a -> is_u8 b -> is_u8 c -> is_u8 d -> is_u32 (a + 2 ^ 8 * b + 2 ^ 16 * c + 2 ^ 24 * d).
Proof. unfold is_u8, is_u32. lia. Qed.

Lemma eth_uint64_octets o : six_octets o -> eth_uint64 (octets_value o) = o.
Proof.
  revert o. apply mac_cases. intros. unfold eth_uint64. rewrite octets_value_split.
  assert (is_u8 0) by (unfold is_u8; lia).
  replace (b + 2 ^ 8 * a) with (b + 2 ^ 8 * a + 2 ^ 16 * 0 + 2 ^ 24 * 0) by lia.
  rewrite long_bytes_htonll by (by apply word_range).
  unfold htonl. rewrite !bswap32_bytes, !word_bytes_le by done. done.
Qed.

Lemma eth_as_long_octets o after :
  six_octets o -> (2 <= length after)%nat -> is_bytes after -> eth_as_long o after = Some (octets_value o).
Proof.
  intros Ho Hl Ha. revert o Ho. apply mac_cases. intros a b c d e f **.
  destruct after as [|g [|h after]]; try (simpl in Hl; lia).
  unfold is_bytes in Ha. rewrite !Forall_cons in Ha. destruct Ha as (Hg & Hh & _).
  unfold eth_as_long, get64, get32. cbn [app lookup list_lookup mbind option_bind Nat.add]. f_equal.
  set (lo := a + _ + _ + _). set (hi := e + _ + _ + _).
  assert (is_u32 lo) as Rl by (by apply word_range). assert (is_u32 hi) as Rh by (by apply word_range).
  unfold ntohll.
  assert (u32 (lo + 2 ^ 32 * hi) = lo) as ->.
  { unfold u32, is_u32 in *. rewrite (Z.mul_comm (2 ^ 32)), Z.mod_add, Z.mod_small; lia. }
  assert (u32 (Z.shiftr (lo + 2 ^ 32 * hi) 32) = hi) as ->.
  { rewrite Z.shiftr_div_pow2, (Z.mul_comm (2 ^ 32)), Z.div_add, (Z.div_small lo), Z.add_0_l
      by (unfold is_u32 in *; lia). by apply u32_id. }
  unfold htonl, lo, hi. rewrite !bswap32_bytes by done. rewrite octets_value_split, Z.shiftr_div_pow2 by lia.
  unfold u64, is_u8 in *. change (2 ^ 8) with 256 in *. change (2 ^ 16) with 65536.
  change (2 ^ 24) with 16777216. change (2 ^ 32) with 4294967296. change (2 ^ 64) with 18446744073709551616.
  rewrite Z.mod_small by lia. symmetry. apply (Z.div_unique _ _ _ (h + 256 * g)); lia.
Qed.

(** [memcmp] compares the numbers of two texts of one length. *)
Lemma octets_acc acc o :
  foldl (fun v b => 256 * v + b) acc o = acc * 256 ^ Z.of_nat (length o) + octets_value o.
Proof.
  unfold octets_value. revert acc. induction o as [|x o IH]; intros acc; cbn [foldl length]; [lia|].
  rewrite (IH (256 * acc + x)), (IH (256 * 0 + x)), Nat2Z.inj_succ, Z.pow_succ_r by lia. lia.
Qed.

Lemma octets_value_cons x o : octets_value (x :: o) = x * 256 ^ Z.of_nat (length o) + octets_value o.
Proof. unfold octets_value at 1. cbn [foldl]. by rewrite octets_acc. Qed.

Lemma octets_value_range o : is_bytes o -> 0 <= octets_value o < 256 ^ Z.of_nat (length o).
Proof.
  induction 1 as [|x o Hx Ho IH]; [done|].
  rewrite octets_value_cons. cbn [length]. rewrite Nat2Z.inj_succ, Z.pow_succ_r by lia.
  unfold is_u8 in Hx. nia.
Qed.

Lemma memcmp_value a b :
  length a = length b -> is_bytes a -> is_bytes b -> memcmp a b = Z.sgn (octets_value a - octets_value b).
Proof.
  intros Hl Ha. revert b Hl. induction Ha as [|x a Hx Ha IH]; intros [|y b] Hl Hb; try done.
  inversion_clear Hb as [|?? Hy Hb']. injection Hl as Hl. cbn [memcmp].
  rewrite !octets_value_cons, Hl.
  pose proof (octets_value_range a Ha) as Ra. pose proof (octets_value_range b Hb') as Rb. rewrite Hl in Ra.
  destruct (x <? y) eqn:E1; [|destruct (y <? x) eqn:E2]; bool_to_prop.
  - symmetry. apply Z.sgn_neg. nia.
  - symmetry. apply Z.sgn_pos. nia.
  - assert (x = y) as -> by lia. rewrite (IH b Hl Hb'). f_equal. lia.
Qed.

Lemma sgn_ltb x y : (Z.sgn (x - y) <? 0) = (x <? y).
Proof. destruct (Z.ltb_spec x y), (Z.ltb_spec (Z.sgn (x - y)) 0); lia. Qed.
Lemma sgn_leb x y : (Z.sgn (x - y) <=? 0) = (x <=? y).
Proof. destruct (Z.leb_spec x y), (Z.leb_spec (Z.sgn (x - y)) 0); lia. Qed.

Lemma sgn_gtb x y : (0 <? Z.sgn (x - y)) = (y <? x).
Proof. destruct (Z.ltb_spec y x), (Z.ltb_spec 0 (Z.sgn (x - y))); lia. Qed.
Lemma sgn_geb x y : (0 <=? Z.sgn (x - y)) = (y <=? x).
Proof. destruct (Z.leb_spec y x), (Z.leb_spec 0 (Z.sgn (x - y))); lia. Qed.

Lemma eth_eq_loop_spec n i a b :
  length a = (i + n)%nat -> length b = (i + n)%nat ->
  eth_eq_loop n i a b = true <-> drop i a = drop i b.
Proof.
  revert i. induction n as [|n IH]; intros i Ha Hb; cbn [eth_eq_loop].
  - rewrite !drop_ge by lia. done.
  - destruct (lookup_lt_is_Some_2 a i ltac:(lia)) as [x Hx].
    destruct (lookup_lt_is_Some_2 b i ltac:(lia)) as [y Hy].
    rewrite (drop_S a x i), (drop_S b y i), Hx, Hy by done. cbn [default from_option id].
    destruct (x =? y) eqn:E; cbn [negb]; bool_to_prop.
    + rewrite IH by lia. subst y. split; [by intros ->|by intros [=]].
    + split; [done|congruence].
Qed.

Lemma eth_eq_true a b : length a = LEN -> length b = LEN -> eth_eq a b = true <-> a = b.
Proof. intros Ha Hb. unfold eth_eq. by rewrite eth_eq_loop_spec. Qed.

Lemma eth_ne_loop_negb n i a b : eth_ne_loop n i a b = negb (eth_eq_loop n i a b).
Proof. revert i. induction n as [|n IH]; intros i; simpl; [done|]. rewrite IH. by destruct (_ =? _). Qed.

(** The host's view of a conjunction of addresses is that of their numbers. *)
Lemma land_mod x y n : 0 <= n -> Z.land x y mod 2 ^ n = Z.land (x mod 2 ^ n) (y mod 2 ^ n).
Proof.
  intros Hn. rewrite <- !Z.land_ones by done. apply Z.bits_inj'. intros i Hi. rewrite !Z.land_spec.
  by destruct (Z.testbit x i), (Z.testbit y i), (Z.testbit (Z.ones n) i).
Qed.

Lemma land_byte a b c d :
  is_u8 a -> is_u8 c -> Z.land (a + 256 * b) (c + 256 * d) = Z.land a c + 256 * Z.land b d.
Proof.
  unfold is_u8. intros Ha Hc.
  rewrite (Z.div_mod (Z.land _ _) (2 ^ 8)) by lia. rewrite Z.add_comm. f_equal.
  - rewrite land_mod by lia. f_equal; symmetry; [apply (Z.mod_unique _ _ b)|apply (Z.mod_unique _ _ d)]; lia.
  - change (2 ^ 8) with 256 at 1. f_equal. rewrite <- !Z.shiftr_div_pow2, Z.shiftr_land, !Z.shiftr_div_pow2 by lia.
    f_equal; symmetry; [apply (Z.div_unique _ _ _ a)|apply (Z.div_unique _ _ _ c)]; lia.
Qed.

Lemma land_u8 a b : is_u8 a -> is_u8 b -> is_u8 (Z.land a b).
Proof.
  intros Ha Hb. rewrite <- (u8_id a), <- (u8_id b) by done. unfold u8. rewrite <- land_mod by lia. apply u8_range.
Qed.

Lemma bswap32_land x y : is_u32 x -> is_u32 y -> bswap32 (Z.land x y) = Z.land (bswap32 x) (bswap32 y).
Proof.
  intros (a & b & c & d & Ha & Hb & Hc & Hd & ->)%word32_bytes (e & f & g & h & He & Hf & Hg & Hh & ->)%word32_bytes.
  rewrite !bswap32_bytes by done.
  assert (forall a b c d, a + 2 ^ 8 * b + 2 ^ 16 * c + 2 ^ 24 * d = a + 256 * (b + 256 * (c + 256 * d))) as E
    by (intros; lia).
  rewrite !E, !land_byte by done. rewrite <- !E. apply bswap32_bytes; by apply land_u8.
Qed.

Lemma ip_value_and a b : ip_wf a -> ip_wf b -> ip_value (ip_and a b) = Z.land (ip_value a) (ip_value b).
Proof.
  intros Ha Hb. unfold ip_value, ip_and, ip_wf in *. cbn [ipaddr_uint32 addr].
  rewrite <- bswap32_land by done. unfold ntohl, htonl.
  by rewrite (bswap32_involutive (bswap32 _)) by apply bswap32_range.
Qed.

Lemma ip_and_assign_eq a b : ip_wf a -> ip_wf b -> ip_and_assign a b = ip_and a b.
Proof.
  intros Ha Hb. unfold ip_and_assign, ip_and, ipaddr_uint32, htonl, ip_wf in *. f_equal.
  rewrite bswap32_involutive; [done|]. rewrite <- (u32_id (addr a)), <- (u32_id (addr b)) by done.
  unfold u32. rewrite <- land_mod by lia. apply u32_range.
Qed.

(** ** Theorems *)

(** An [ipaddr] is a number modulo [2 ^ 32], the one its dotted form reads:
    sums, differences, increments, masks and comparisons are those of the
    numbers, and what one operator does its opposite undoes. *)
Theorem ipaddr_is_a_number a b n :
  ip_wf a -> ip_wf b -> - 2 ^ 31 <= n < 2 ^ 31 ->
  ip_value (ip_add a n) = u32 (ip_value a + n) /\ ip_value (ip_sub a n) = u32 (ip_value a - n)
  /\ ip_add_assign a n = ip_add a n /\ ip_incr a = ip_add a 1 /\ ip_decr a = ip_sub a 1
  /\ ip_sub (ip_add a n) n = a /\ ip_decr (ip_incr a) = a /\ ip_diff (ip_add a n) a = n
  /\ ip_value (ip_and a b) = Z.land (ip_value a) (ip_value b) /\ ip_and_assign a b = ip_and a b
  /\ ip_eq a b = (ip_value a =? ip_value b) /\ ip_ne a b = negb (ip_eq a b)
  /\ ip_lt a b = (ip_value a <? ip_value b) /\ ip_le a b = (ip_value a <=? ip_value b)
  /\ ip_gt a b = ip_lt b a /\ ip_ge a b = ip_le b a.
Proof.
  intros Ha Hb Hn.
  split_and!; try reflexivity;
    auto using ip_sub_add, ip_decr_incr, ip_diff_add, ip_value_and, ip_and_assign_eq, ip_eq_value, ip_add_value,
      ip_sub_value.
Qed.

(** An [ipaddr] made from a number and compared with the same number is at most
    it and at least it, but equal to it only when the number reads the same in
    both byte orders: [==] takes the word as it is in memory, [<=] and [>=] its
    value. *)
Theorem ipaddr_number_comparisons_disagree n :
  is_u32 n ->
  ip_le_uint32 (ipaddr_uint32 n) n = true /\ ip_ge_uint32 (ipaddr_uint32 n) n = true
  /\ ip_eq_uint32 (ipaddr_uint32 n) n = (bswap32 n =? n)
  /\ ip_eq_uint32 (ip_assign_uint32 (ipaddr_uint32 n) n) n = true.
Proof.
  intros Hn. unfold ip_le_uint32, ip_ge_uint32, ip_eq_uint32, ip_assign_uint32, ipaddr_uint32, htonl. cbn [addr].
  rewrite bswap32_involutive, Z.leb_refl, Z.eqb_refl by done. done.
Qed.

(** An Ethernet address is read back from its text by every constructor and
    assignment that takes one, and from its number; [==] is equality and [!=]
    its negation. *)
Theorem ethernetaddr_round_trip o after :
  six_octets o -> (2 <= length after)%nat -> is_bytes after ->
  eth_cstr (eth_c_string o) = o /\ eth_string (eth_to_string o) = inr o
  /\ eth_assign_cstr (eth_c_string o) = inr o
  /\ eth_as_long o after = Some (octets_value o) /\ eth_uint64 (octets_value o) = o
  /\ (forall o', six_octets o' -> (eth_eq o o' = true <-> o = o') /\ eth_ne o o' = negb (eth_eq o o')).
Proof.
  intros Ho Hl Ha. unfold eth_cstr, eth_string, eth_assign_cstr, eth_c_string, eth_to_string.
  rewrite ether_aton_ntoa by done. split_and!; auto using eth_as_long_octets, eth_uint64_octets.
  intros o' Ho'. split; [apply eth_eq_true; [apply Ho|apply Ho']|apply eth_ne_loop_negb].
Qed.

(** The order of Ethernet addresses is the reverse of the order of their octets. *)
Theorem ethernetaddr_order_reversed a b :
  six_octets a -> six_octets b ->
  eth_lt a b = (octets_value b <? octets_value a) /\ eth_le a b = (octets_value b <=? octets_value a)
  /\ eth_gt a b = (octets_value a <? octets_value b) /\ eth_ge a b = (octets_value a <=? octets_value b).
Proof.
  intros [La Ha] [Lb Hb].
  assert (memcmp b a = Z.sgn (octets_value b - octets_value a)) as E by (apply memcmp_value; congruence || done).
  unfold eth_lt, eth_le, eth_gt, eth_ge. rewrite E, sgn_ltb, sgn_leb. split_and!; try done.
  - apply sgn_gtb.
  - apply sgn_geb.
Qed.
