(* ===== verification/RouterKit.v ===== *)
(** The router kit (router_kit/sw): the daemon that copies the routes, the ARP
    entries and the interface addresses of Linux into the tables of the card.
    rtable.hh, arptable.hh, iflist.hh, linux_proc_net.cc, nf21_mon.cc and rkd.cc.
    A method of the monitor returns the monitor and its register writes, whose
    results the code ignores; the answers of the kernel are arguments. *)

From S2P Require Import Prelude Words Bytes State CStrings Netfpga RkAddr.
From Stdlib Require Import Ascii.
From stdpp Require Import pretty.
Local Open Scope Z_scope.

(** ** The tables (rtable.hh, arptable.hh, iflist.hh) *)

Record ipv4_entry := mk_ipv4_entry { r_dest : ipaddr; r_gw : ipaddr; r_mask : ipaddr; r_dev : string }.
Record arp_entry := mk_arp_entry { a_ip : ipaddr; a_etha : list Z; a_dev : string }.
Record ifentry := mk_ifentry { i_ip : ipaddr; i_etha : list Z; i_name : string }.

Definition ipv4_entry_eq (a b : ipv4_entry) : bool :=
  ip_eq (r_dest a) (r_dest b) && ip_eq (r_gw a) (r_gw b) && ip_eq (r_mask a) (r_mask b)
  && String.eqb (r_dev a) (r_dev b).
Definition arp_entry_eq (a b : arp_entry) : bool :=
  ip_eq (a_ip a) (a_ip b) && eth_eq (a_etha a) (a_etha b) && String.eqb (a_dev a) (a_dev b).
Definition ifentry_eq (a b : ifentry) : bool :=
  ip_eq (i_ip a) (i_ip b) && eth_eq (i_etha a) (i_etha b) && String.eqb (i_name a) (i_name b).

(** [==] of vectors: of one length, and equal entry by entry. *)
Fixpoint vector_eq {A} (eq : A -> A -> bool) (l k : list A) : bool :=
  match l, k with
  | [], [] => true
  | x :: l', y :: k' => eq x y && vector_eq eq l' k'
  | _, _ => false
  end.

Definition rtable_add (table : list ipv4_entry) (entry : ipv4_entry) : list ipv4_entry := table ++ [entry].
Definition rtable_clear : list ipv4_entry := [].
Definition rtable_contains (table : list ipv4_entry) (entry : ipv4_entry) : bool :=
  existsb (fun e => ipv4_entry_eq e entry) table.
Definition rtable_eq : list ipv4_entry -> list ipv4_entry -> bool := vector_eq ipv4_entry_eq.
Definition rtable_ne (a b : list ipv4_entry) : bool := negb (rtable_eq a b).

Definition arptable_add (table : list arp_entry) (entry : arp_entry) : list arp_entry := table ++ [entry].
Definition arptable_clear : list arp_entry := [].
Definition arptable_contains (table : list arp_entry) (entry : arp_entry) : bool :=
  existsb (fun e => arp_entry_eq e entry) table.
Definition arptable_eq : list arp_entry -> list arp_entry -> bool := vector_eq arp_entry_eq.
Definition arptable_ne (a b : list arp_entry) : bool := negb (arptable_eq a b).

Definition add_entry (interfaces : list ifentry) (entry : ifentry) : list ifentry := interfaces ++ [entry].
Definition iflist_clear : list ifentry := [].
Definition iflist_eq : list ifentry -> list ifentry -> bool := vector_eq ifentry_eq.
Definition iflist_ne (a b : list ifentry) : bool := negb (iflist_eq a b).

(** One interface of [SIOCGIFCONF]: its name, the address of its socket address,
    and what [SIOCGIFHWADDR] answers, the bytes of [sa_data] or an error. *)
Record ifreq := mk_ifreq { ifr_name : string; ifr_sin_addr : Z; ifr_sa_data : option bytes }.

Definition fill_entry (ifr : ifreq) : cxx ifentry :=
  let ip := ip_assign ipaddr_none (ipaddr_in_addr (ifr_sin_addr ifr)) in
  etha ← match ifr_sa_data ifr with
         | None => mret eth_none
         | Some sa_data => match eth_set_octet sa_data with Some o => mret o | None => inl Overrun end
         end;
  mret (mk_ifentry ip etha (ifr_name ifr)).

Fixpoint fill_loop (ifl : list ifentry) (ifrs : list ifreq) : cxx (list ifentry) :=
  match ifrs with
  | [] => mret ifl
  | ifr :: ifrs' => e ← fill_entry ifr; fill_loop (add_entry ifl e) ifrs'
  end.

(** [socket] and the answer of [SIOCGIFCONF]; the walk starts at index 1. *)
Definition fill_iflist (s : Z) (ifconf : option (list ifreq)) : cxx (list ifentry) :=
  if s <? 0 then inl Exited else
  match ifconf with
  | None => inl Exited
  | Some ifr_global => fill_loop iflist_clear (drop 1 ifr_global)
  end.

(** ** Loading the tables of Linux (linux_proc_net.cc)

    The conversions [%s], [%x] and [%d] of [sscanf]: the values converted, in
    order, up to the first that fails. *)

Inductive conv := Cs | Cx | Cd.

Definition is_hex (c : ascii) : bool := match hex_digit c with Some _ => true | None => false end.
Definition hexadecimal (l : list ascii) : Z := foldl (fun acc c => 16 * acc + default 0 (hex_digit c)) 0 l.

(** An optional sign, an optional [0x], hexadecimal digits. *)
Definition scan_sign (l : list ascii) : bool * list ascii :=
  match l with
  | "-"%char :: l' => (true, l')
  | "+"%char :: l' => (false, l')
  | _ => (false, l)
  end.
Definition scan_0x (l : list ascii) : list ascii :=
  match l with
  | "0"%char :: "x"%char :: l' => l'
  | "0"%char :: "X"%char :: l' => l'
  | _ => l
  end.
Definition scan_x (l : list ascii) : option (Z * list ascii) :=
  let '(neg, l) := scan_sign (skip_space l) in
  match span is_hex (scan_0x l) with
  | ([], _) => None
  | (ds, rest) => Some (if neg then - hexadecimal ds else hexadecimal ds, rest)
  end.

Fixpoint scan_fields (fmt : list conv) (l : list ascii) : list scan_arg :=
  match fmt with
  | [] => []
  | Cs :: fmt' =>
      match span (fun c => negb (is_space c)) (skip_space l) with
      | ([], _) => []
      | (w, rest) => AStr (implode w) :: scan_fields fmt' rest
      end
  | Cx :: fmt' =>
      match scan_x l with
      | Some (z, rest) => ANum (to_unsigned z) :: scan_fields fmt' rest
      | None => []
      end
  | Cd :: fmt' =>
      match scan_decimal l with
      | Some (z, rest) => ANum (to_int z) :: scan_fields fmt' rest
      | None => []
      end
  end.

(** A word converted into an array of [size] characters, or what the array
    held; a number converted into a variable, or what the variable held. *)
Definition into_chars (size : nat) (args : list scan_arg) (k : nat) (old : option string) : cxx (option string) :=
  match args !! k with
  | Some (AStr s) => if (String.length s <? size)%nat then mret (Some s) else inl Overrun
  | _ => mret old
  end.
Definition into_word (args : list scan_arg) (k : nat) (old : option Z) : option Z :=
  match args !! k with Some (ANum z) => Some z | _ => old end.

Definition get_set {A} (o : option A) : cxx A := match o with Some a => mret a | None => inl Unset end.

(** The variables of [linux_proc_net_load_rtable]: a line that converts fewer
    of them leaves the others as the line before it set them. *)
Record route_vars := mk_route_vars { v_dev : option string; v_dest : option Z; v_gw : option Z; v_mask : option Z }.

Definition route_format : list conv := [Cs; Cx; Cx; Cd; Cd; Cd; Cd; Cx; Cd; Cd; Cd].

Definition scan_route (buf : string) (v : route_vars) : cxx route_vars :=
  let args := scan_fields route_format (chars buf) in
  dev ← into_chars 16 args 0 (v_dev v);
  mret (mk_route_vars dev (into_word args 1 (v_dest v)) (into_word args 2 (v_gw v)) (into_word args 7 (v_mask v))).

Fixpoint load_routes (v : route_vars) (rt : list ipv4_entry) (lines : list string) : cxx (list ipv4_entry) :=
  match lines with
  | [] => mret rt
  | buf :: lines' =>
      v ← scan_route buf v;
      dest ← get_set (v_dest v); gw ← get_set (v_gw v); mask ← get_set (v_mask v); dev ← get_set (v_dev v);
      let idest := ip_assign_uint32 ipaddr_none dest in
      let igw := ip_assign_uint32 ipaddr_none gw in
      let imask := ip_assign_uint32 ipaddr_none mask in
      load_routes v (rtable_add rt (mk_ipv4_entry idest igw imask dev)) lines'
  end.

(** The lines of the file as [fgets] reads them, [None] when it cannot be
    opened; the first is thrown away. *)
Definition linux_proc_net_load_rtable (file : option (list string)) : cxx (list ipv4_entry) :=
  match file with
  | None => inl Null
  | Some lines => load_routes (mk_route_vars None None None None) rtable_clear (drop 1 lines)
  end.

Record arp_vars := mk_arp_vars { v_ip : option string; v_mac : option string; v_toss : option string;
                                 v_arp_dev : option string }.

Definition scan_arp (buf : string) (v : arp_vars) : cxx arp_vars :=
  let args := scan_fields [Cs; Cs; Cs; Cs; Cs; Cs] (chars buf) in
  ip ← into_chars 32 args 0 (v_ip v);
  toss ← into_chars 32 args 1 (v_toss v);
  toss ← into_chars 32 args 2 toss;
  mac ← into_chars 32 args 3 (v_mac v);
  toss ← into_chars 32 args 4 toss;
  dev ← into_chars 16 args 5 (v_arp_dev v);
  mret (mk_arp_vars ip mac toss dev).

Section Resolver.
Variable gethostbyname : string -> option bytes.

(** Entries without a MAC address are left out. *)
Fixpoint load_arps (v : arp_vars) (arps : list arp_entry) (lines : list string) : cxx (list arp_entry) :=
  match lines with
  | [] => mret arps
  | buf :: lines' =>
      v ← scan_arp buf v;
      mac ← get_set (v_mac v);
      if eth_bool (eth_cstr mac) then
        ip ← get_set (v_ip v); ip ← ipaddr_cstr gethostbyname ip; dev ← get_set (v_arp_dev v);
        load_arps v (arptable_add arps (mk_arp_entry ip (eth_cstr mac) dev)) lines'
      else load_arps v arps lines'
  end.

Definition linux_proc_net_load_arptable (file : option (list string)) : cxx (list arp_entry) :=
  match file with
  | None => inl Null
  | Some lines => load_arps (mk_arp_vars None None None None) arptable_clear (drop 1 lines)
  end.
End Resolver.

(** ** The monitor of the card (nf21_mon.cc) *)

Definition FIXME_RT_MAX : nat := 32.
Definition FIXME_ARP_MAX : nat := 32.
Definition FIXME_DST_FILTER_MAX : nat := 32.
Definition NF21_DEFAULT_DEV : string := "nf2c0".

(** The name of the card, its descriptor, the ports of its interfaces, and the
    copies of what was last written to the card. *)
Record nf21_mon := mk_nf21_mon {
  m_interface : string;
  m_fd : Z;
  devtoport : gmap string Z;
  m_rt : list ipv4_entry;
  m_at : list arp_entry;
  m_ifl : list ifentry
}.

(** The writes of the iterations [0 .. n - 1] of a loop. *)
Definition for_ (n : nat) (body : nat -> list event) : list event := flat_map body (seq 0 n).

Definition clear_filter_row (i : nat) : list event :=
  [EvWriteReg FILTER_ENTRY_IP 0; EvWriteReg FILTER_WR_ADDR (Z.of_nat i)].
Definition clear_route_row (i : nat) : list event :=
  [EvWriteReg RT_ENTRY_IP 0; EvWriteReg RT_ENTRY_MASK 4294967295; EvWriteReg RT_ENTRY_NEXT_HOP_IP 0;
   EvWriteReg RT_ENTRY_OUTPUT_PORT 0; EvWriteReg RT_WR_ADDR (Z.of_nat i)].
Definition clear_arp_row (i : nat) : list event :=
  [EvWriteReg ARP_ENTRY_NEXT_HOP_IP 0; EvWriteReg ARP_ENTRY_MAC_HI 0; EvWriteReg ARP_ENTRY_MAC_LO 0;
   EvWriteReg ARP_WR_ADDR (Z.of_nat i)].

Definition clear_dst_filter_rtable : list event := for_ FIXME_DST_FILTER_MAX clear_filter_row.
Definition clear_hw_rtable : list event := for_ FIXME_RT_MAX clear_route_row.
(** Every iteration writes row 1. *)
Definition clear_hw_arptable : list event := for_ FIXME_ARP_MAX (fun _ => clear_arp_row 1).

Definition fmt_i (x : Z) : string := pretty x.
Definition atoi (s : string) : Z := match scan_decimal (chars s) with Some (z, _) => to_int z | None => 0 end.

(** The four interfaces, numbered from that of the name of the card. *)
Definition devtoport_init (interface : string) : gmap string Z :=
  let base := atoi (implode (drop 4 (chars interface))) in
  let name k := ("nf2c" +:+ fmt_i (base + k)) in
  <[name 3 := 64]> (<[name 2 := 16]> (<[name 1 := 4]> (<[name 0 := 1]> ∅))).

Definition card_name (interface : string) : string :=
  if (0 <? String.length interface)%nat then strncpy interface 31 else strncpy NF21_DEFAULT_DEV 31.

(** The constructor: [open_nf2] is the descriptor of the card, if it opens. *)
Definition new_nf21_mon (open_nf2 : string -> option Z) (interface : string) : cxx (nf21_mon * list event) :=
  let this := card_name interface in
  match open_nf2 this with
  | None => inl Exited
  | Some fd =>
      mret (mk_nf21_mon this fd (devtoport_init this) [] [] [],
            clear_hw_rtable ++ clear_hw_arptable ++ clear_dst_filter_rtable)
  end.

Definition nf2_set_mac (addr : list Z) (index : nat) : list event :=
  let o k := default 0 (addr !! k) in
  let mac_hi := Z.lor (Z.shiftl (o 0%nat) 8) (o 1%nat) in
  let mac_lo := Z.lor (Z.lor (Z.lor (Z.shiftl (o 2%nat) 24) (Z.shiftl (o 3%nat) 16)) (Z.shiftl (o 4%nat) 8))
                  (o 5%nat) in
  if (index <? 4)%nat
  then [EvWriteReg (MAC_HI (Z.of_nat index)) mac_hi; EvWriteReg (MAC_LO (Z.of_nat index)) mac_lo]
  else [].

Definition filter_writes (i : nat) (ip : ipaddr) : list event :=
  [EvWriteReg FILTER_ENTRY_IP (htonl (addr ip)); EvWriteReg FILTER_WR_ADDR (Z.of_nat i)].

Fixpoint create_filters (i : nat) (newlist : list ifentry) : list event :=
  match newlist with
  | [] => []
  | e :: newlist' =>
      filter_writes i (i_ip e) ++ nf2_set_mac (i_etha e) i ++ create_filters (S i) newlist'
  end.

(** The address of OSPF is resolved from its text, and follows the others. *)
Definition update_interface_table (gethostbyname : string -> option bytes) (m : nf21_mon)
    (newlist : list ifentry) : cxx (list event) :=
  ospf ← ipaddr_cstr gethostbyname "224.0.0.5";
  mret (for_ (length (m_ifl m)) clear_filter_row ++ create_filters 0 newlist
        ++ filter_writes (length newlist) ospf).

(** [devtoport[dev]], which makes an entry of a name it does not have. *)
Definition devtoport_index (d : gmap string Z) (dev : string) : Z * gmap string Z :=
  match d !! dev with Some p => (p, d) | None => (0, <[dev := 0]> d) end.

Definition route_writes (i : nat) (e : ipv4_entry) (port : Z) : list event :=
  [EvWriteReg RT_ENTRY_IP (htonl (addr (r_dest e))); EvWriteReg RT_ENTRY_MASK (htonl (addr (r_mask e)));
   EvWriteReg RT_ENTRY_NEXT_HOP_IP (htonl (addr (r_gw e))); EvWriteReg RT_ENTRY_OUTPUT_PORT port;
   EvWriteReg RT_WR_ADDR (Z.of_nat i)].

Fixpoint create_routes (i : nat) (newrt : list ipv4_entry) (d : gmap string Z) : list event * gmap string Z :=
  match newrt with
  | [] => ([], d)
  | e :: newrt' =>
      let '(port, d) := devtoport_index d (r_dev e) in
      let '(evs, d) := create_routes (S i) newrt' d in
      (route_writes i e port ++ evs, d)
  end.

Definition update_routing_table (m : nf21_mon) (newrt : list ipv4_entry) : list event * gmap string Z :=
  let deleted := for_ (length (m_rt m)) clear_route_row in
  let '(evs, d) := create_routes 0 newrt (devtoport m) in (deleted ++ evs, d).

Definition arp_writes (i : nat) (e : arp_entry) : list event :=
  let o k := default 0 (a_etha e !! k) in
  [EvWriteReg ARP_ENTRY_NEXT_HOP_IP (ntohl (addr (a_ip e)));
   EvWriteReg ARP_ENTRY_MAC_HI (Z.lor (Z.shiftl (o 0%nat) 8) (o 1%nat));
   EvWriteReg ARP_ENTRY_MAC_LO
     (Z.lor (Z.lor (Z.lor (Z.shiftl (o 2%nat) 24) (Z.shiftl (o 3%nat) 16)) (Z.shiftl (o 4%nat) 8)) (o 5%nat));
   EvWriteReg ARP_WR_ADDR (Z.of_nat i)].

Fixpoint create_arps (i : nat) (newat : list arp_entry) : list event :=
  match newat with [] => [] | e :: newat' => arp_writes i e ++ create_arps (S i) newat' end.

Definition update_arp_table (m : nf21_mon) (newat : list arp_entry) : list event :=
  for_ (length (m_at m)) clear_arp_row ++ create_arps 0 newat.

(** The entries on an interface of the card. *)
Definition on_card (m : nf21_mon) (dev : string) : bool :=
  match devtoport m !! dev with Some _ => true | None => false end.

Fixpoint local_entries {A} (keep : A -> bool) (local : list A) (l : list A) : list A :=
  match l with
  | [] => local
  | e :: l' => local_entries keep (if keep e then local ++ [e] else local) l'
  end.

Definition rtable_update (m : nf21_mon) (rt_ : list ipv4_entry) : nf21_mon * list event :=
  let local := local_entries (fun e => on_card m (r_dev e)) [] rt_ in
  let '(evs, d) := if rtable_ne (m_rt m) local then update_routing_table m local else ([], devtoport m) in
  (mk_nf21_mon (m_interface m) (m_fd m) d local (m_at m) (m_ifl m), evs).

Definition arptable_update (m : nf21_mon) (at_ : list arp_entry) : nf21_mon * list event :=
  let local := local_entries (fun e => on_card m (a_dev e)) [] at_ in
  (mk_nf21_mon (m_interface m) (m_fd m) (devtoport m) (m_rt m) local (m_ifl m),
   if arptable_ne (m_at m) local then update_arp_table m local else []).

Definition interface_update (gethostbyname : string -> option bytes) (m : nf21_mon) (ifl_ : list ifentry)
    : cxx (nf21_mon * list event) :=
  let local := local_entries (fun e => on_card m (i_name e)) [] ifl_ in
  evs ← (if negb (iflist_eq (m_ifl m) local) then update_interface_table gethostbyname m local else mret []);
  mret (mk_nf21_mon (m_interface m) (m_fd m) (devtoport m) (m_rt m) (m_at m) local, evs).

(** ** The daemon (rkd.cc) *)

Definition DEFAULT_INTERVAL_MS : Z := 50.

(** What the daemon compares the tables of Linux with. *)
Record rkd := mk_rkd { rtcur : list ipv4_entry; arpcur : list arp_entry; ifcur : list ifentry; eh_mon : nf21_mon }.

(** What one round is told: the two files, a socket and the interfaces. *)
Record answers := mk_answers {
  route_file : option (list string);
  arp_file : option (list string);
  if_socket : Z;
  if_conf : option (list ifreq)
}.

Definition option_spec : Type := option string * Z * bool * Z.

(** [has_arg] of getopt.h: [no_argument], [required_argument], [optional_argument]. *)
Fixpoint long_options_to_short_options (options : list option_spec) : string :=
  match options with
  | [] | (None, _, _, _) :: _ => ""
  | (Some _, has_arg, flag_null, val) :: options' =>
      (if flag_null && (0 <? val) && (val <=? 255)
       then String (chr val) (if has_arg =? 1 then ":" else if has_arg =? 2 then "::" else "")
       else "") +:+ long_options_to_short_options options'
  end.

(** The options [getopt_long] reads, with their arguments. *)
Record settings := mk_settings { s_daemon : bool; s_interval : Z; s_interface : string }.

Fixpoint read_options (s : settings) (opts : list (ascii * string)) : cxx settings :=
  match opts with
  | [] => mret s
  | (c, optarg) :: opts' =>
      if Ascii.eqb c "h" then inl Exited
      else if Ascii.eqb c "d" then read_options (mk_settings true (s_interval s) (s_interface s)) opts'
      else if Ascii.eqb c "p" then read_options (mk_settings (s_daemon s) (atoi optarg) (s_interface s)) opts'
      else if Ascii.eqb c "i" then read_options (mk_settings (s_daemon s) (s_interval s) (strncpy optarg 32)) opts'
      else if Ascii.eqb c "?" then inl Exited
      else inl Aborted
  end.

(** What [daemonize] leaves open, in the child: every descriptor is closed, and
    0, 1 and 2 are opened again. *)
Definition daemonize (ppid fork : Z) (fds : list Z) : cxx (list Z) :=
  if ppid =? 1 then mret fds
  else if negb (fork =? 0) then inl Exited
  else mret [0; 1; 2].

(** The writes that reach the card: those made on an open descriptor. *)
Definition performed (fds : list Z) (m : nf21_mon) (evs : list event) : list event :=
  if decide (m_fd m ∈ fds) then evs else [].

Section Daemon.
Variable gethostbyname : string -> option bytes.

Definition poll_rtable (a : answers) (s : rkd) : cxx (rkd * list event) :=
  rtcheck ← linux_proc_net_load_rtable (route_file a);
  if rtable_ne rtcheck (rtcur s)
  then let '(m, evs) := rtable_update (eh_mon s) rtcheck in mret (mk_rkd rtcheck (arpcur s) (ifcur s) m, evs)
  else mret (s, []).

Definition poll_arptable (a : answers) (s : rkd) : cxx (rkd * list event) :=
  arpcheck ← linux_proc_net_load_arptable gethostbyname (arp_file a);
  if arptable_ne arpcheck (arpcur s)
  then let '(m, evs) := arptable_update (eh_mon s) arpcheck in mret (mk_rkd (rtcur s) arpcheck (ifcur s) m, evs)
  else mret (s, []).

Definition poll_iflist (a : answers) (s : rkd) : cxx (rkd * list event) :=
  ifcheck ← fill_iflist (if_socket a) (if_conf a);
  if iflist_ne ifcheck (ifcur s)
  then '(m, evs) ← interface_update gethostbyname (eh_mon s) ifcheck;
       mret (mk_rkd (rtcur s) (arpcur s) ifcheck m, evs)
  else mret (s, []).

(** The body of [while (1)]. *)
Definition rkd_round (a : answers) (s : rkd) : cxx (rkd * list event) :=
  '(s, evs1) ← poll_rtable a s;
  '(s, evs2) ← poll_arptable a s;
  '(s, evs3) ← poll_iflist a s;
  mret (s, evs1 ++ evs2 ++ evs3).

Fixpoint rkd_rounds (l : list answers) (s : rkd) : cxx (rkd * list event) :=
  match l with
  | [] => mret (s, [])
  | a :: l' => '(s, evs) ← rkd_round a s; '(s, evs') ← rkd_rounds l' s; mret (s, evs ++ evs')
  end.

(** [main], for the rounds of [l]: the writes that reach the card. *)
Definition rkd_main (open_nf2 : string -> option Z) (ppid fork : Z) (opts : list (ascii * string))
    (l : list answers) : cxx (rkd * list event) :=
  o ← read_options (mk_settings false DEFAULT_INTERVAL_MS "") opts;
  '(m, evs) ← (if (String.length (s_interface o) <? 32)%nat then new_nf21_mon open_nf2 (s_interface o)
               else inl Overrun);
  let fds := [0; 1; 2; m_fd m] in
  fds' ← (if s_daemon o then daemonize ppid fork fds else mret fds);
  '(s, evs') ← rkd_rounds l (mk_rkd [] [] [] m);
  mret (s, performed fds m evs ++ performed fds' m evs').
End Daemon.

(** ** Lemmas: writes into a table of the card *)

(** The events of the entries of a list, from row [i]. *)
Fixpoint each {A} (body : nat -> A -> list event) (i : nat) (l : list A) : list event :=
  match l with [] => [] | x :: l' => body i x ++ each body (S i) l' end.

Section Table.
Context {R : Type} (rows : device -> list R).

Lemma run_keeps_rows d evs :
  (forall e d, e ∈ evs -> rows (dev_step d e) = rows d) -> rows (dev_run d evs) = rows d.
Proof.
  revert d. induction evs as [|e evs IH]; intros d H; [done|].
  change (dev_run d (e :: evs)) with (dev_run (dev_step d e) evs).
  rewrite IH by (intros; apply H; by apply list_elem_of_further). apply H, list_elem_of_here.
Qed.

Lemma each_rows {A} (body : nat -> A -> list event) (row : A -> R) i l d :
  (forall d i x, rows (dev_run d (body i x)) = <[i := row x]> (rows d)) ->
  (i + length l <= length (rows d))%nat ->
  rows (dev_run d (each body i l)) = take i (rows d) ++ map row l ++ drop (i + length l) (rows d).
Proof.
  intros Hb. revert i d. induction l as [|x l IH]; intros i d Hl; cbn [each map length] in *.
  - rewrite Nat.add_0_r. cbn. by rewrite take_drop.
  - replace (i + S (length l))%nat with (S i + length l)%nat in * by lia.
    rewrite dev_run_app, IH; rewrite Hb, ?length_insert; [|lia].
    rewrite (take_S_r _ i (row x)) by (apply list_lookup_insert_eq; lia).
    rewrite take_insert_ge, drop_insert_lt, <- app_assoc by lia. done.
Qed.

Lemma for_rows (body : nat -> list event) (r : R) k d :
  (forall d i, rows (dev_run d (body i)) = <[i := r]> (rows d)) ->
  (k <= length (rows d))%nat ->
  rows (dev_run d (for_ k body)) = replicate k r ++ drop k (rows d).
Proof.
  intros Hb Hk.
  assert (for_ k body = each (fun i (_ : nat) => body i) 0 (seq 0 k)) as ->.
  { unfold for_. generalize 0%nat as i. clear Hk. induction k as [|k IH]; intros i; [done|].
    cbn. by rewrite IH. }
  rewrite (each_rows (fun i (_ : nat) => body i) (fun _ => r)); [|by intros|by rewrite length_seq].
  rewrite length_seq, take_0, app_nil_l, Nat.add_0_l. f_equal. clear.
  generalize 0%nat. induction k as [|k IH]; intros i; [done|]. cbn. by rewrite (IH (S i)).
Qed.
End Table.

(** A table whose first [k] rows hold those of one list, the others being those
    of [start], holds the rows of another list once the rows of the first are
    cleared and those of the second written. *)
Lemma rewrite_rows {R A} (rows : device -> list R) (row : option A -> R) clear body start k (old new : list A) d :
  (forall d i, rows (dev_run d (clear i)) = <[i := row None]> (rows d)) ->
  (forall d i x, rows (dev_run d (body i x)) = <[i := row (Some x)]> (rows d)) ->
  (length old <= k <= length start)%nat -> (length new <= length start)%nat ->
  rows d = slot_rows row k old ++ drop k start ->
  rows (dev_run d (for_ (length old) clear ++ each body 0 new))
  = slot_rows row (k `max` length new) new ++ drop (k `max` length new) start.
Proof.
  intros Hc Hb Ho Hn Hd.
  assert (rows (dev_run d (for_ (length old) clear)) = replicate k (row None) ++ drop k start) as E.
  { rewrite (for_rows rows clear (row None)), Hd
      by (done || rewrite Hd, length_app, slot_rows_length, length_drop; lia).
    unfold slot_rows. rewrite (take_ge old), <- app_assoc, drop_app_length', app_assoc, <- replicate_add
      by (rewrite ?length_map; lia). do 2 f_equal. lia. }
  rewrite dev_run_app, (each_rows rows body (fun x => row (Some x))), E
    by (done || rewrite E, length_app, length_replicate, length_drop; lia).
  rewrite take_0, app_nil_l, Nat.add_0_l. unfold slot_rows. rewrite (take_ge new), <- app_assoc by lia. f_equal.
  rewrite drop_app, drop_replicate, length_replicate, drop_drop. do 2 f_equal; lia.
Qed.

(** ** Lemmas: which table an event changes *)

Definition is_write (r : reg) (e : event) : bool :=
  match e with EvWriteReg r' _ => bool_decide (r = r') | _ => false end.

Lemma step_keeps_rt d e : is_write RT_WR_ADDR e = false -> d_rt (dev_step d e) = d_rt d.
Proof. destruct d. by destruct e as [| | | | |[] v| |]. Qed.
Lemma step_keeps_arp d e : is_write ARP_WR_ADDR e = false -> d_arp (dev_step d e) = d_arp d.
Proof. destruct d. by destruct e as [| | | | |[] v| |]. Qed.
Lemma step_keeps_filter d e : is_write FILTER_WR_ADDR e = false -> d_filter (dev_step d e) = d_filter d.
Proof. destruct d. by destruct e as [| | | | |[] v| |]. Qed.

Definition writes (r : reg) (evs : list event) : bool := existsb (is_write r) evs.

Lemma writes_app r a b : writes r (a ++ b) = writes r a || writes r b.
Proof. apply existsb_app. Qed.

Lemma writes_for r k body : (forall i, writes r (body i) = false) -> writes r (for_ k body) = false.
Proof.
  intros H. unfold for_. generalize 0%nat. induction k as [|k IH]; intros i; [done|].
  cbn [seq flat_map]. by rewrite writes_app, H, IH.
Qed.

Lemma writes_each {A} r (body : nat -> A -> list event) i l :
  (forall i x, writes r (body i x) = false) -> writes r (each body i l) = false.
Proof.
  intros H. revert i. induction l as [|x l IH]; intros i; [done|]. cbn [each]. by rewrite writes_app, H, IH.
Qed.

Lemma writes_elem r evs e : writes r evs = false -> e ∈ evs -> is_write r e = false.
Proof.
  intros H He. destruct (is_write r e) eqn:E; [|done].
  assert (writes r evs = true); [|congruence].
  apply existsb_exists. exists e. split; [by apply list_elem_of_In|done].
Qed.

Lemma run_keeps_rt d evs : writes RT_WR_ADDR evs = false -> d_rt (dev_run d evs) = d_rt d.
Proof. intros H. apply (run_keeps_rows d_rt). intros. eapply step_keeps_rt, writes_elem; eauto. Qed.
Lemma run_keeps_arp d evs : writes ARP_WR_ADDR evs = false -> d_arp (dev_run d evs) = d_arp d.
Proof. intros H. apply (run_keeps_rows d_arp). intros. eapply step_keeps_arp, writes_elem; eauto. Qed.
Lemma run_keeps_filter d evs : writes FILTER_WR_ADDR evs = false -> d_filter (dev_run d evs) = d_filter d.
Proof. intros H. apply (run_keeps_rows d_filter). intros. eapply step_keeps_filter, writes_elem; eauto. Qed.

(** ** Lemmas: the rows of the three tables *)

Definition kit_route_row (dp : gmap string Z) (o : option ipv4_entry) : rt_row :=
  match o with
  | Some e => mk_rt_row (htonl (addr (r_dest e))) (htonl (addr (r_mask e))) (htonl (addr (r_gw e)))
                (default 0 (dp !! r_dev e))
  | None => mk_rt_row 0 4294967295 0 0
  end.

Definition mac_hi (o : list Z) : Z := Z.lor (Z.shiftl (default 0 (o !! 0%nat)) 8) (default 0 (o !! 1%nat)).
Definition mac_lo (o : list Z) : Z :=
  Z.lor (Z.lor (Z.lor (Z.shiftl (default 0 (o !! 2%nat)) 24) (Z.shiftl (default 0 (o !! 3%nat)) 16))
    (Z.shiftl (default 0 (o !! 4%nat)) 8)) (default 0 (o !! 5%nat)).

Definition kit_arp_row (o : option arp_entry) : arp_row :=
  match o with
  | Some e => mk_arp_row (mac_hi (a_etha e)) (mac_lo (a_etha e)) (ip_value (a_ip e))
  | None => zero_arp_row
  end.

Lemma clear_route_row_rows d i dp : d_rt (dev_run d (clear_route_row i)) = <[i := kit_route_row dp None]> (d_rt d).
Proof. destruct d as [[]]. cbn. by rewrite Nat2Z.id. Qed.
Lemma route_writes_rows d i e p :
  d_rt (dev_run d (route_writes i e p))
  = <[i := mk_rt_row (htonl (addr (r_dest e))) (htonl (addr (r_mask e))) (htonl (addr (r_gw e))) p]> (d_rt d).
Proof. destruct d as [[]]. cbn. by rewrite Nat2Z.id. Qed.
Lemma clear_arp_row_rows d i : d_arp (dev_run d (clear_arp_row i)) = <[i := kit_arp_row None]> (d_arp d).
Proof. destruct d as [? ? []]. cbn. by rewrite Nat2Z.id. Qed.
Lemma arp_writes_rows d i e : d_arp (dev_run d (arp_writes i e)) = <[i := kit_arp_row (Some e)]> (d_arp d).
Proof. destruct d as [? ? []]. cbn. by rewrite Nat2Z.id. Qed.
Lemma clear_filter_row_rows d i : d_filter (dev_run d (clear_filter_row i)) = <[i := 0]> (d_filter d).
Proof. destruct d. cbn. by rewrite Nat2Z.id. Qed.
Lemma filter_writes_rows d i ip : d_filter (dev_run d (filter_writes i ip)) = <[i := ip_value ip]> (d_filter d).
Proof. destruct d. cbn. by rewrite Nat2Z.id. Qed.

Lemma writes_set_mac r i o : (forall p, r <> MAC_HI p /\ r <> MAC_LO p) -> writes r (nf2_set_mac o i) = false.
Proof.
  intros H. unfold nf2_set_mac. destruct (_ <? _)%nat; [|done]. cbn.
  by rewrite !bool_decide_eq_false_2 by apply H.
Qed.

(** ** Lemmas: the updates *)

Lemma create_arps_each i l : create_arps i l = each arp_writes i l.
Proof. revert i. induction l as [|e l IH]; intros i; [done|]. cbn [create_arps each]. by rewrite IH. Qed.

Lemma create_filters_each i l :
  create_filters i l = each (fun i e => filter_writes i (i_ip e) ++ nf2_set_mac (i_etha e) i) i l.
Proof.
  revert i. induction l as [|e l IH]; intros i; [done|]. cbn [create_filters each]. by rewrite IH, app_assoc.
Qed.

Lemma create_routes_each dp i l :
  Forall (fun e => is_Some (dp !! r_dev e)) l ->
  create_routes i l dp = (each (fun i e => route_writes i e (default 0 (dp !! r_dev e))) i l, dp).
Proof.
  intros H. revert i. induction H as [|e l [p Hp] _ IH]; intros i; [done|].
  cbn [create_routes each]. unfold devtoport_index. by rewrite Hp, IH.
Qed.

Lemma local_entries_bfilter {A} (keep : A -> bool) acc l : local_entries keep acc l = acc ++ bfilter keep l.
Proof.
  revert acc. induction l as [|e l IH]; intros acc; cbn [local_entries bfilter]; [by rewrite app_nil_r|].
  rewrite IH. destruct (keep e); [by rewrite <- app_assoc|done].
Qed.

Lemma vector_eq_map {A B} (eq : A -> A -> bool) (f : A -> B) l k :
  (forall x y, eq x y = true -> f x = f y) -> vector_eq eq l k = true -> map f l = map f k.
Proof.
  intros H. revert k. induction l as [|x l IH]; intros [|y k]; try done. cbn. intros E. bool_to_prop.
  f_equal; auto.
Qed.

Lemma vector_eq_length {A} (eq : A -> A -> bool) l k : vector_eq eq l k = true -> length l = length k.
Proof. revert k. induction l as [|x l IH]; intros [|y k]; try done. cbn. intros E. bool_to_prop. f_equal. auto. Qed.

Lemma ipv4_entry_eq_true a b : ipv4_entry_eq a b = true -> a = b.
Proof.
  destruct a, b. unfold ipv4_entry_eq. cbn. intros. bool_to_prop.
  repeat match goal with H : ip_eq _ _ = true |- _ => apply ip_eq_true in H; subst end.
  match goal with H : String.eqb _ _ = true |- _ => apply String.eqb_eq in H; by subst end.
Qed.

(** Octets that compare equal have equal words in the card. *)
Lemma eth_eq_loop_octets n i a b :
  eth_eq_loop n i a b = true -> forall j, (i <= j < i + n)%nat -> default 0 (a !! j) = default 0 (b !! j).
Proof.
  revert i. induction n as [|n IH]; intros i H j Hj; [lia|]. cbn [eth_eq_loop] in H.
  destruct (default 0 (a !! i) =? default 0 (b !! i)) eqn:E; [|done]. bool_to_prop.
  destruct (decide (j = i)) as [-> |]; [done|]. apply (IH (S i)); [done|lia].
Qed.

Lemma eth_eq_words a b : eth_eq a b = true -> mac_hi a = mac_hi b /\ mac_lo a = mac_lo b.
Proof.
  intros H. pose proof (eth_eq_loop_octets _ _ _ _ H) as E. unfold LEN in E. unfold mac_hi, mac_lo.
  rewrite (E 0%nat), (E 1%nat), (E 2%nat), (E 3%nat), (E 4%nat), (E 5%nat) by lia. done.
Qed.

Lemma arp_entry_eq_row a b :
  arp_entry_eq a b = true -> kit_arp_row (Some a) = kit_arp_row (Some b) /\ a_dev a = a_dev b.
Proof.
  unfold arp_entry_eq. intros. bool_to_prop. cbn [kit_arp_row].
  match goal with H : ip_eq _ _ = true |- _ => apply ip_eq_true in H; rewrite H end.
  match goal with H : eth_eq _ _ = true |- _ => apply eth_eq_words in H as [-> ->] end.
  match goal with H : String.eqb _ _ = true |- _ => by apply String.eqb_eq in H end.
Qed.

Lemma ifentry_eq_value a b :
  ifentry_eq a b = true -> ip_value (i_ip a) = ip_value (i_ip b) /\ i_name a = i_name b.
Proof.
  unfold ifentry_eq. intros. bool_to_prop.
  match goal with H : ip_eq _ _ = true |- _ => apply ip_eq_true in H; rewrite H end.
  match goal with H : String.eqb _ _ = true |- _ => by apply String.eqb_eq in H end.
Qed.

Lemma slot_rows_map {A R} (row : option A -> R) n l k :
  map (fun x => row (Some x)) l = map (fun x => row (Some x)) k -> slot_rows row n l = slot_rows row n k.
Proof.
  intros H. unfold slot_rows.
  assert (length l = length k) as ->.
  { apply (f_equal length) in H. by rewrite !length_map in H. }
  f_equal. rewrite <- !firstn_map. by rewrite H.
Qed.

(** The card holds what the monitor last wrote: the routes in order and cleared
    rows after them; the ARP entries, followed by cleared rows up to row [k]
    and the rows the card started with; the addresses of the interfaces,
    followed by rows that hold 224.0.0.5 or nothing. *)
Definition OSPF_IP : Z := 3758096389.

Definition routes_mirror (dp : gmap string Z) (l : list ipv4_entry) (d : device) : Prop :=
  (length l <= TABLE_DEPTH)%nat /\ d_rt d = slot_rows (kit_route_row dp) TABLE_DEPTH l.

Definition arps_mirror (start : list arp_row) (bound : nat) (l : list arp_entry) (d : device) : Prop :=
  exists k, (length l <= k <= bound)%nat /\ d_arp d = slot_rows kit_arp_row k l ++ drop k start.

Definition filters_mirror (l : list ifentry) (d : device) : Prop :=
  exists rest, d_filter d = map (fun e => ip_value (i_ip e)) l ++ rest
    /\ length (d_filter d) = TABLE_DEPTH /\ (length l < TABLE_DEPTH)%nat
    /\ Forall (fun v => v = 0 \/ v = OSPF_IP) rest /\ (l <> [] -> head rest = Some OSPF_IP).

Record mirror (dp : gmap string Z) (start : list arp_row) (bound : nat) (m : nf21_mon) (d : device) : Prop := {
  mirror_ports : devtoport m = dp;
  mirror_routes : routes_mirror dp (m_rt m) d;
  mirror_arps : arps_mirror start bound (m_at m) d;
  mirror_filters : filters_mirror (m_ifl m) d
}.

Definition dev_local {A} (dp : gmap string Z) (dev : A -> string) (l : list A) : list A :=
  bfilter (fun e => match dp !! dev e with Some _ => true | None => false end) l.

Lemma dev_local_ports {A} dp (dev : A -> string) l : Forall (fun e => is_Some (dp !! dev e)) (dev_local dp dev l).
Proof.
  apply Forall_forall. intros e [_ He]%elem_of_bfilter. destruct (dp !! dev e); [by eexists|done].
Qed.

Lemma dev_local_length {A} dp (dev : A -> string) l : (length (dev_local dp dev l) <= length l)%nat.
Proof. apply bfilter_length_le. Qed.

Lemma rtable_update_mirror dp start bound m d l :
  mirror dp start bound m d -> (length l <= TABLE_DEPTH)%nat ->
  mirror dp start bound (rtable_update m l).1 (dev_run d (rtable_update m l).2)
  /\ m_rt (rtable_update m l).1 = dev_local dp r_dev l
  /\ m_at (rtable_update m l).1 = m_at m /\ m_ifl (rtable_update m l).1 = m_ifl m
  /\ m_fd (rtable_update m l).1 = m_fd m.
Proof.
  intros [<- [Hlr Hr] Ha Hf] Hl. unfold rtable_update. rewrite local_entries_bfilter. cbn [app].
  change (bfilter _ l) with (dev_local (devtoport m) r_dev l). set (new := dev_local _ _ l).
  pose proof (dev_local_length (devtoport m) r_dev l) as Hn. fold new in Hn.
  unfold rtable_ne, rtable_eq. destruct (vector_eq ipv4_entry_eq (m_rt m) new) eqn:E; cbn [negb].
  - cbn. split; [|done]. split; cbn; try done. split; [lia|]. rewrite Hr. apply slot_rows_map.
    eapply (vector_eq_map _ (fun x => kit_route_row (devtoport m) (Some x))); [|done].
    by intros x y ->%ipv4_entry_eq_true.
  - unfold update_routing_table. rewrite create_routes_each by apply dev_local_ports. cbn.
    split; [|done]. set (evs := for_ _ _ ++ _).
    assert (writes ARP_WR_ADDR evs = false /\ writes FILTER_WR_ADDR evs = false) as [Wa Wf].
    { unfold evs. by split; rewrite writes_app, writes_for, writes_each. }
    split; cbn; [done| | |].
    + split; [lia|]. assert (length (d_rt d) = TABLE_DEPTH) as Hd by (by rewrite Hr, slot_rows_length).
      unfold evs. rewrite (rewrite_rows d_rt (kit_route_row (devtoport m)) _ _ (d_rt d) TABLE_DEPTH);
        rewrite ?Hd; try lia.
      * rewrite Nat.max_l, drop_ge, app_nil_r by lia. done.
      * intros. apply clear_route_row_rows.
      * intros. apply route_writes_rows.
      * rewrite drop_ge, app_nil_r by lia. done.
    + unfold arps_mirror. by rewrite run_keeps_arp.
    + unfold filters_mirror. by rewrite run_keeps_filter.
Qed.

Lemma arptable_update_mirror dp start bound m d l :
  mirror dp start bound m d -> length start = TABLE_DEPTH -> (length l <= bound <= TABLE_DEPTH)%nat ->
  mirror dp start bound (arptable_update m l).1 (dev_run d (arptable_update m l).2)
  /\ m_at (arptable_update m l).1 = dev_local dp a_dev l
  /\ m_rt (arptable_update m l).1 = m_rt m /\ m_ifl (arptable_update m l).1 = m_ifl m
  /\ m_fd (arptable_update m l).1 = m_fd m.
Proof.
  intros [<- Hr (k & Hk & Ha) Hf] Hs Hl. unfold arptable_update. rewrite local_entries_bfilter. cbn [app fst snd].
  change (bfilter _ l) with (dev_local (devtoport m) a_dev l). set (new := dev_local _ _ l).
  pose proof (dev_local_length (devtoport m) a_dev l) as Hn. fold new in Hn.
  split; [|done]. unfold arptable_ne, arptable_eq.
  destruct (vector_eq arp_entry_eq (m_at m) new) eqn:E; cbn [negb].
  - split; cbn; try done. exists k. rewrite <- (vector_eq_length _ _ _ E). split; [lia|].
    rewrite Ha. f_equal. apply slot_rows_map.
    eapply (vector_eq_map _ (fun x => kit_arp_row (Some x))); [|done]. intros x y Hxy. by apply arp_entry_eq_row.
  - unfold update_arp_table. rewrite create_arps_each. set (evs := for_ _ _ ++ _).
    assert (writes RT_WR_ADDR evs = false /\ writes FILTER_WR_ADDR evs = false) as [Wr Wf].
    { unfold evs. by split; rewrite writes_app, writes_for, writes_each. }
    split; cbn; [done| | |].
    + unfold routes_mirror. by rewrite run_keeps_rt.
    + exists (k `max` length new)%nat. split; [lia|].
      apply rewrite_rows; try done; try lia; [apply clear_arp_row_rows|apply arp_writes_rows].
    + unfold filters_mirror. by rewrite run_keeps_filter.
Qed.

Definition resolves_literals (gethostbyname : string -> option bytes) : Prop :=
  gethostbyname "224.0.0.5" = Some [224; 0; 0; 5].

Lemma filter_entry_rows d i e :
  d_filter (dev_run d (filter_writes i (i_ip e) ++ nf2_set_mac (i_etha e) i))
  = <[i := ip_value (i_ip e)]> (d_filter d).
Proof. rewrite dev_run_app, run_keeps_filter by (by apply writes_set_mac). apply filter_writes_rows. Qed.

Lemma interface_update_mirror gethostbyname dp start bound m d l :
  resolves_literals gethostbyname ->
  mirror dp start bound m d -> (length l < TABLE_DEPTH)%nat ->
  exists m' evs, interface_update gethostbyname m l = inr (m', evs)
  /\ mirror dp start bound m' (dev_run d evs) /\ m_ifl m' = dev_local dp i_name l
  /\ m_rt m' = m_rt m /\ m_at m' = m_at m /\ m_fd m' = m_fd m.
Proof.
  intros Hg [<- Hr Ha (rest & Hf & Hlen & Hlt & Hrest & Hhd)] Hl.
  unfold interface_update. rewrite local_entries_bfilter. cbn [app fst snd].
  change (bfilter _ l) with (dev_local (devtoport m) i_name l). set (new := dev_local _ _ l).
  pose proof (dev_local_length (devtoport m) i_name l) as Hn. fold new in Hn.
  unfold iflist_eq. destruct (vector_eq ifentry_eq (m_ifl m) new) eqn:E; cbn [negb].
  - eexists _, _. split; [reflexivity|]. split; [|done]. split; cbn; try done.
    exists rest. rewrite <- (vector_eq_length _ _ _ E). split_and!; try done.
    + rewrite Hf. f_equal. eapply vector_eq_map; [|done]. intros x y Hxy. by apply ifentry_eq_value.
    + intros Hne. apply Hhd. intros H0. rewrite H0 in E. by destruct new.
  - unfold update_interface_table, ipaddr_cstr. rewrite Hg. eexists _, _. split; [reflexivity|].
    rewrite create_filters_each. set (evs := for_ _ _ ++ _).
    assert (writes RT_WR_ADDR evs = false /\ writes ARP_WR_ADDR evs = false) as [Wr Wa].
    { unfold evs. split; rewrite !writes_app, writes_for, writes_each; try done;
        intros; rewrite writes_app, writes_set_mac; done. }
    split; [|done]. split; cbn; [done| | |].
    + unfold routes_mirror. by rewrite run_keeps_rt.
    + unfold arps_mirror. by rewrite run_keeps_arp.
    + assert (d_filter (dev_run d evs)
        = map (fun e => ip_value (i_ip e)) new
          ++ OSPF_IP :: drop (S (length new)) (replicate (length (m_ifl m)) 0 ++ rest)) as E'.
      { unfold evs. rewrite !dev_run_app, filter_writes_rows.
        assert (d_filter (dev_run d (for_ (length (m_ifl m)) clear_filter_row))
                = replicate (length (m_ifl m)) 0 ++ rest) as E1.
        { rewrite (for_rows d_filter _ 0) by (apply clear_filter_row_rows || lia).
          rewrite Hf, drop_app_length'; [done|by rewrite length_map]. }
        assert (length (replicate (length (m_ifl m)) 0 ++ rest) = TABLE_DEPTH) as E2.
        { rewrite length_app, length_replicate, <- Hlen, Hf, length_app, length_map. done. }
        rewrite (each_rows d_filter _ (fun e => ip_value (i_ip e))), E1
          by (apply filter_entry_rows || (rewrite E1; lia)).
        rewrite take_0, app_nil_l, Nat.add_0_l.
        destruct (lookup_lt_is_Some_2 (replicate (length (m_ifl m)) 0 ++ rest) (length new) ltac:(lia)) as [x Hx].
        rewrite (drop_S _ x _ Hx), insert_app_r_alt, length_map, Nat.sub_diag by (rewrite length_map; lia).
        done. }
      exists (OSPF_IP :: drop (S (length new)) (replicate (length (m_ifl m)) 0 ++ rest)).
      split_and!; [exact E'| | |constructor; [by right|]|done].
      * rewrite <- Hlen. rewrite E', Hf, !length_app, !length_map. cbn [length].
        rewrite length_drop, length_app, length_replicate.
        rewrite Hf, length_app, length_map in Hlen. lia.
      * lia.
      * apply Forall_drop, Forall_app. split; [|done]. apply Forall_replicate. by left.
Qed.

(** ** Lemmas: the constructor and the rounds *)

Lemma inr_pair {S A B} (a a' : A) (b b' : B) : inr (A := S) (a, b) = inr (a', b') -> a = a' /\ b = b'.
Proof. by intros [=]. Qed.

Lemma new_monitor_mirror bound open_nf2 interface m evs d :
  device_ok d -> new_nf21_mon open_nf2 interface = inr (m, evs) ->
  let start := <[1%nat := zero_arp_row]> (d_arp d) in
  mirror (devtoport_init (card_name interface)) start bound m (dev_run d evs)
  /\ m_rt m = [] /\ m_at m = [] /\ m_ifl m = [] /\ length start = TABLE_DEPTH.
Proof.
  unfold new_nf21_mon. set (this := card_name interface).
  intros (Hr & Ha & Hf) H. destruct (open_nf2 this) as [fd|]; [|done].
  apply inr_pair in H as [<- <-].
  cbv zeta. split; [|by split_and!; rewrite ?length_insert].
  assert (forall n e, d_arp (dev_run e (for_ (S n) (fun _ => clear_arp_row 1)))
                      = <[1%nat := zero_arp_row]> (d_arp e)) as Harp.
  { intros n e. unfold for_. cbn [seq flat_map]. generalize (seq 1 n) as ks. intros ks. revert e.
    induction ks as [|k ks IH]; intros e.
    - cbn [flat_map]. rewrite app_nil_r. apply clear_arp_row_rows.
    - cbn [flat_map]. rewrite dev_run_app, IH, clear_arp_row_rows. apply list_insert_insert_eq. }
  rewrite !dev_run_app. split; cbn [m_rt m_at m_ifl devtoport m_interface]; [done| | |].
  - split; [cbn; lia|].
    rewrite (run_keeps_rt _ clear_dst_filter_rtable), (run_keeps_rt _ clear_hw_arptable) by (by apply writes_for).
    unfold clear_hw_rtable.
    rewrite (for_rows d_rt _ (kit_route_row (devtoport_init this) None));
      [|intros; apply clear_route_row_rows|by rewrite Hr].
    by rewrite drop_ge, app_nil_r by (by rewrite Hr).
  - exists 0%nat. split; [cbn; lia|].
    rewrite (run_keeps_arp _ clear_dst_filter_rtable) by (by apply writes_for).
    change clear_hw_arptable with (for_ (S 31) (fun _ => clear_arp_row 1)).
    rewrite Harp, (run_keeps_arp _ clear_hw_rtable) by (by apply writes_for). done.
  - exists (replicate TABLE_DEPTH 0).
    assert (d_filter (dev_run (dev_run (dev_run d clear_hw_rtable) clear_hw_arptable) clear_dst_filter_rtable)
            = replicate TABLE_DEPTH 0) as ->.
    { assert (length (d_filter (dev_run (dev_run d clear_hw_rtable) clear_hw_arptable)) = TABLE_DEPTH) as L
        by (rewrite !run_keeps_filter by (by apply writes_for); done).
      unfold clear_dst_filter_rtable. rewrite (for_rows d_filter _ 0); [|apply clear_filter_row_rows|by rewrite L].
      by rewrite drop_ge, app_nil_r by (by rewrite L). }
    split_and!; try done; [unfold TABLE_DEPTH; cbn; lia|]. apply Forall_replicate. by left.
Qed.

(** What one round needs: tables that fit those of the card. *)
Definition fits (gethostbyname : string -> option bytes) (bound : nat) (a : answers) : Prop :=
  (forall rt, linux_proc_net_load_rtable (route_file a) = inr rt -> (length rt <= TABLE_DEPTH)%nat)
  /\ (forall arps, linux_proc_net_load_arptable gethostbyname (arp_file a) = inr arps -> (length arps <= bound)%nat)
  /\ (forall ifl, fill_iflist (if_socket a) (if_conf a) = inr ifl -> (length ifl < TABLE_DEPTH)%nat).

(** The daemon's copies, the monitor's copies and the card agree. *)
Record in_step (dp : gmap string Z) (start : list arp_row) (bound : nat) (s : rkd) (d : device) : Prop := {
  step_mirror : mirror dp start bound (eh_mon s) d;
  step_rt : m_rt (eh_mon s) = dev_local dp r_dev (rtcur s);
  step_at : m_at (eh_mon s) = dev_local dp a_dev (arpcur s);
  step_ifl : m_ifl (eh_mon s) = dev_local dp i_name (ifcur s)
}.

Lemma cxx_bind_inr {A B} (m : cxx A) (f : A -> cxx B) b :
  (m ≫= f) = inr b -> exists a, m = inr a /\ f a = inr b.
Proof. destruct m; cbn; [done|eauto]. Qed.

Lemma vector_eq_refl {A} (eq : A -> A -> bool) l : (forall x, eq x x = true) -> vector_eq eq l l = true.
Proof. intros H. induction l as [|x l IH]; [done|]. cbn. by rewrite H, IH. Qed.

Lemma ip_eq_refl a : ip_eq a a = true.
Proof. by apply ip_eq_true. Qed.

Lemma eth_eq_refl a : eth_eq a a = true.
Proof.
  unfold eth_eq. generalize LEN, 0%nat. intros n. induction n as [|n IH]; intros i; [done|].
  cbn [eth_eq_loop]. by rewrite Z.eqb_refl, IH.
Qed.

Lemma arp_entry_eq_refl a : arp_entry_eq a a = true.
Proof. unfold arp_entry_eq. by rewrite ip_eq_refl, eth_eq_refl, String.eqb_refl. Qed.
Lemma ifentry_eq_refl a : ifentry_eq a a = true.
Proof. unfold ifentry_eq. by rewrite ip_eq_refl, eth_eq_refl, String.eqb_refl. Qed.

Section Rounds.
Context (gethostbyname : string -> option bytes) (Hres : resolves_literals gethostbyname).
Context (dp : gmap string Z) (start : list arp_row) (bound : nat).
Context (Hstart : length start = TABLE_DEPTH) (Hbound : (bound <= TABLE_DEPTH)%nat).

Notation in_step := (in_step dp start bound).

Lemma poll_rtable_in_step a s d s' evs :
  in_step s d -> fits gethostbyname bound a -> poll_rtable a s = inr (s', evs) ->
  in_step s' (dev_run d evs) /\ linux_proc_net_load_rtable (route_file a) = inr (rtcur s').
Proof.
  intros [Hm Hr Ha Hi] (Fit & _ & _) H. apply cxx_bind_inr in H as (rt & Hload & H). specialize (Fit rt Hload).
  unfold rtable_ne, rtable_eq in H. destruct (vector_eq _ rt (rtcur s)) eqn:E; cbn [negb] in H.
  - injection H as <- <-. split; [by split|]. rewrite Hload. f_equal.
    rewrite <- (map_id rt), <- (map_id (rtcur s)).
    eapply vector_eq_map; [|done]. intros x y ->%ipv4_entry_eq_true. done.
  - destruct (rtable_update_mirror _ _ _ _ _ rt Hm Fit) as (Hm' & E1 & E2 & E3 & _).
    destruct (rtable_update (eh_mon s) rt) as [m e]. injection H as <- <-. cbn [fst snd] in *.
    split; [|done]. split; [exact Hm'|cbn [eh_mon rtcur arpcur ifcur]; congruence..].
Qed.

Lemma poll_arptable_in_step a s d s' evs :
  in_step s d -> fits gethostbyname bound a -> poll_arptable gethostbyname a s = inr (s', evs) ->
  in_step s' (dev_run d evs) /\ rtcur s' = rtcur s
  /\ exists arps, linux_proc_net_load_arptable gethostbyname (arp_file a) = inr arps
       /\ vector_eq arp_entry_eq arps (arpcur s') = true.
Proof.
  intros [Hm Hr Ha Hi] (_ & Fit & _) H. apply cxx_bind_inr in H as (arps & Hload & H). specialize (Fit arps Hload).
  unfold arptable_ne, arptable_eq in H. destruct (vector_eq _ arps (arpcur s)) eqn:E; cbn [negb] in H.
  - injection H as <- <-. split; [by split|]. split; [done|]. by exists arps.
  - destruct (arptable_update_mirror _ _ _ _ _ arps Hm Hstart ltac:(lia)) as (Hm' & E1 & E2 & E3 & _).
    destruct (arptable_update (eh_mon s) arps) as [m e]. injection H as <- <-. cbn [fst snd] in *.
    split; [|split; [done|]]. { split; [exact Hm'|cbn [eh_mon rtcur arpcur ifcur]; congruence..]. }
    exists arps. split; [done|]. apply vector_eq_refl, arp_entry_eq_refl.
Qed.

Lemma poll_iflist_in_step a s d s' evs :
  in_step s d -> fits gethostbyname bound a -> poll_iflist gethostbyname a s = inr (s', evs) ->
  in_step s' (dev_run d evs) /\ rtcur s' = rtcur s /\ arpcur s' = arpcur s
  /\ exists ifl, fill_iflist (if_socket a) (if_conf a) = inr ifl /\ vector_eq ifentry_eq ifl (ifcur s') = true.
Proof.
  intros [Hm Hr Ha Hi] (_ & _ & Fit) H. apply cxx_bind_inr in H as (ifl & Hload & H). specialize (Fit ifl Hload).
  unfold iflist_ne, iflist_eq in H. destruct (vector_eq _ ifl (ifcur s)) eqn:E; cbn [negb] in H.
  - injection H as <- <-. split; [by split|]. do 2 (split; [done|]). by exists ifl.
  - destruct (interface_update_mirror gethostbyname _ _ _ _ _ ifl Hres Hm Fit)
      as (m' & e & E0 & Hm' & E1 & E2 & E3 & _).
    rewrite E0 in H. injection H as <- <-. cbn [fst snd] in *.
    split; [|do 2 (split; [done|])]. { split; [exact Hm'|cbn [eh_mon rtcur arpcur ifcur]; congruence..]. }
    exists ifl. split; [done|]. apply vector_eq_refl, ifentry_eq_refl.
Qed.

Lemma rkd_round_in_step a s d s' evs :
  in_step s d -> fits gethostbyname bound a -> rkd_round gethostbyname a s = inr (s', evs) ->
  in_step s' (dev_run d evs)
  /\ linux_proc_net_load_rtable (route_file a) = inr (rtcur s')
  /\ (exists arps, linux_proc_net_load_arptable gethostbyname (arp_file a) = inr arps
       /\ vector_eq arp_entry_eq arps (arpcur s') = true)
  /\ (exists ifl, fill_iflist (if_socket a) (if_conf a) = inr ifl /\ vector_eq ifentry_eq ifl (ifcur s') = true).
Proof.
  intros Hs Hfit H. unfold rkd_round in H.
  apply cxx_bind_inr in H as ([s1 e1] & H1 & H). apply cxx_bind_inr in H as ([s2 e2] & H2 & H).
  apply cxx_bind_inr in H as ([s3 e3] & H3 & H). injection H as <- <-.
  destruct (poll_rtable_in_step _ _ _ _ _ Hs Hfit H1) as (I1 & L1).
  destruct (poll_arptable_in_step _ _ _ _ _ I1 Hfit H2) as (I2 & R2 & L2).
  destruct (poll_iflist_in_step _ _ _ _ _ I2 Hfit H3) as (I3 & R3 & A3 & L3).
  rewrite !dev_run_app. split; [done|]. rewrite R3, R2, A3. done.
Qed.

Lemma rkd_rounds_snoc l a s s' evs :
  rkd_rounds gethostbyname (l ++ [a]) s = inr (s', evs) ->
  exists s1 e1 e2, rkd_rounds gethostbyname l s = inr (s1, e1) /\ rkd_round gethostbyname a s1 = inr (s', e2)
    /\ evs = e1 ++ e2.
Proof.
  revert s evs. induction l as [|b l IH]; intros s evs H; cbn [app rkd_rounds] in *.
  - apply cxx_bind_inr in H as ([s1 e1] & H1 & H). injection H as <- <-.
    exists s, [], e1. by rewrite app_nil_r.
  - apply cxx_bind_inr in H as ([s1 e1] & H1 & H). apply cxx_bind_inr in H as ([s2 e2] & H2 & H).
    injection H as <- <-. destruct (IH _ _ H2) as (s3 & e3 & e4 & H3 & H4 & ->).
    exists s3, (e1 ++ e3), e4. rewrite H1. cbn. rewrite H3. cbn. by rewrite app_assoc.
Qed.

Lemma rkd_rounds_in_step l s d s' evs :
  in_step s d -> Forall (fits gethostbyname bound) l -> rkd_rounds gethostbyname l s = inr (s', evs) ->
  in_step s' (dev_run d evs).
Proof.
  revert s d evs. induction l as [|a l IH]; intros s d evs Hs Hl H; cbn [rkd_rounds] in H.
  - by injection H as <- <-.
  - inversion_clear Hl as [|?? Hf Hfs]. apply cxx_bind_inr in H as ([s1 e1] & H1 & H).
    apply cxx_bind_inr in H as ([s2 e2] & H2 & H). injection H as <- <-. rewrite dev_run_app.
    eapply IH; [|done|done]. by eapply rkd_round_in_step.
Qed.
End Rounds.

(** The whole run: when it gets through the round [a], the card is in step with
    the tables that [a] gave. *)
Lemma rkd_main_in_step gethostbyname bound open_nf2 ppid fork opts o l a s evs d :
  resolves_literals gethostbyname -> device_ok d -> (bound <= TABLE_DEPTH)%nat ->
  Forall (fits gethostbyname bound) (l ++ [a]) ->
  read_options (mk_settings false DEFAULT_INTERVAL_MS "") opts = inr o -> s_daemon o = false ->
  rkd_main gethostbyname open_nf2 ppid fork opts (l ++ [a]) = inr (s, evs) ->
  let dp := devtoport_init (card_name (s_interface o)) in
  in_step dp (<[1%nat := zero_arp_row]> (d_arp d)) bound s (dev_run d evs)
  /\ linux_proc_net_load_rtable (route_file a) = inr (rtcur s)
  /\ (exists arps, linux_proc_net_load_arptable gethostbyname (arp_file a) = inr arps
       /\ vector_eq arp_entry_eq arps (arpcur s) = true)
  /\ (exists ifl, fill_iflist (if_socket a) (if_conf a) = inr ifl /\ vector_eq ifentry_eq ifl (ifcur s) = true).
Proof.
  intros Hres Hd Hbound Hfits Ho Hnd H. unfold rkd_main in H. rewrite Ho in H.
  change (inr o ≫= ?f) with (f o) in H. cbv beta in H. rewrite Hnd in H.
  apply cxx_bind_inr in H as ([m e0] & Hm & H). apply cxx_bind_inr in H as (fds & Hfds & H).
  apply cxx_bind_inr in H as ([s' e1] & Hrun & H). apply inr_pair in H as [<- <-].
  apply (f_equal (fun r => match r with inr x => x | inl _ => [] end)) in Hfds. cbn in Hfds. subst fds.
  destruct (String.length (s_interface o) <? 32)%nat; [|done].
  destruct (new_monitor_mirror bound _ _ _ _ d Hd Hm) as (Hmir & Hr & Ha & Hi & Hst).
  unfold performed. rewrite !decide_True by set_solver.
  destruct (rkd_rounds_snoc _ _ _ _ _ _ Hrun) as (s1 & e1' & e2 & H1 & H2 & ->).
  rewrite !dev_run_app. apply Forall_app in Hfits as [Hf1 Hf2]. inversion_clear Hf2.
  eapply rkd_round_in_step; [exact Hres|exact Hst|done| |eassumption|exact H2].
  eapply rkd_rounds_in_step; [exact Hres|exact Hst|done| |exact Hf1|exact H1].
  split; [exact Hmir|cbn [eh_mon rtcur arpcur ifcur]; done..].
Qed.

(** ** Theorems *)

(** A route matches a destination when they agree on the bits of its mask. *)
Definition kit_route_matches (dst : Z) (e : ipv4_entry) : bool :=
  Z.land (ip_value (r_dest e)) (ip_value (r_mask e)) =? Z.land dst (ip_value (r_mask e)).

Lemma lookup_rows dp dst l n d :
  is_u32 dst -> dst <> 0 -> (length l <= n)%nat -> d_rt d = slot_rows (kit_route_row dp) n l ->
  dev_lookup d dst
  = option_map (fun e => (if ip_value (r_gw e) =? 0 then dst else ip_value (r_gw e), default 0 (dp !! r_dev e)))
      (find_first (kit_route_matches dst) l).
Proof.
  intros Hd Hne Hl E. unfold dev_lookup. rewrite E. unfold slot_rows. rewrite take_ge, find_first_app by done.
  assert (find_first (row_matches dst) (replicate (n - length l) (kit_route_row dp None)) = None) as ->.
  { apply find_first_None. intros r [-> _]%elem_of_replicate. unfold row_matches. cbn [kit_route_row row_ip row_mask].
    apply Z.eqb_neq. change 4294967295 with (Z.ones 32). rewrite Z.land_0_l, Z.land_ones, Z.mod_small; done || lia. }
  clear Hl E. induction l as [|e l IH]; [done|]. cbn [map find_first].
  change (row_matches dst (kit_route_row dp (Some e))) with (kit_route_matches dst e).
  destruct (kit_route_matches dst e); [done|]. apply IH.
Qed.

Lemma dev_local_vector_eq {A B} (eq : A -> A -> bool) (dev : A -> string) (f : A -> B) dp l k :
  (forall x y, eq x y = true -> f x = f y /\ dev x = dev y) -> vector_eq eq l k = true ->
  map f (dev_local dp dev l) = map f (dev_local dp dev k).
Proof.
  intros H. revert k. induction l as [|x l IH]; intros [|y k]; try done. cbn [vector_eq]. intros E. bool_to_prop.
  destruct (H x y) as [Hf Hd]; [done|]. unfold dev_local. cbn [bfilter]. rewrite Hd.
  destruct (dp !! dev y); cbn [map]; rewrite ?Hf; [f_equal|]; by apply IH.
Qed.

(** The ARP rows of the card are the entries of Linux with a MAC address on the
    interfaces of the card, then cleared rows as far as earlier entries went,
    then the rows the card had when the daemon started, of which only row 1 was
    cleared: what an earlier run left there stays in use. *)
Theorem rkd_mirrors_arps gethostbyname bound open_nf2 ppid fork opts o l a s evs d :
  resolves_literals gethostbyname -> device_ok d -> (bound <= TABLE_DEPTH)%nat ->
  Forall (fits gethostbyname bound) (l ++ [a]) ->
  read_options (mk_settings false DEFAULT_INTERVAL_MS "") opts = inr o -> s_daemon o = false ->
  rkd_main gethostbyname open_nf2 ppid fork opts (l ++ [a]) = inr (s, evs) ->
  let ports := devtoport_init (card_name (s_interface o)) in
  exists arps k, linux_proc_net_load_arptable gethostbyname (arp_file a) = inr arps
  /\ (length (dev_local ports a_dev arps) <= k <= bound)%nat
  /\ d_arp (dev_run d evs)
     = slot_rows kit_arp_row k (dev_local ports a_dev arps) ++ drop k (<[1%nat := zero_arp_row]> (d_arp d)).
Proof.
  intros Hres Hd Hb Hf Ho Hnd H ports.
  destruct (rkd_main_in_step _ _ _ _ _ _ _ _ _ _ _ d Hres Hd Hb Hf Ho Hnd H)
    as ([[_ _ (k & Hk & Ha) _] _ E _] & _ & (arps & L & Heq) & _).
  rewrite E in Ha, Hk. fold ports in Ha, Hk.
  assert (map (fun e => kit_arp_row (Some e)) (dev_local ports a_dev arps)
          = map (fun e => kit_arp_row (Some e)) (dev_local ports a_dev (arpcur s))) as Em.
  { eapply dev_local_vector_eq; [|done]. intros x y Hxy. by apply arp_entry_eq_row. }
  exists arps, k. split; [done|]. split.
  - apply (f_equal length) in Em. rewrite !length_map in Em. by rewrite Em.
  - rewrite Ha. f_equal. symmetry. by apply slot_rows_map.
Qed.

(** The filters of the card, for the interfaces the program made of the answers. *)
Lemma filters_of_interfaces gethostbyname open_nf2 ppid fork opts o l a s evs d :
  resolves_literals gethostbyname -> device_ok d ->
  Forall (fits gethostbyname TABLE_DEPTH) (l ++ [a]) ->
  read_options (mk_settings false DEFAULT_INTERVAL_MS "") opts = inr o -> s_daemon o = false ->
  rkd_main gethostbyname open_nf2 ppid fork opts (l ++ [a]) = inr (s, evs) ->
  let ports := devtoport_init (card_name (s_interface o)) in
  let own ifl := map (fun e => ip_value (i_ip e)) (dev_local ports i_name ifl) in
  exists ifl, fill_iflist (if_socket a) (if_conf a) = inr ifl
  /\ own ifl `prefix_of` d_filter (dev_run d evs)
  /\ (forall v, v ∈ d_filter (dev_run d evs) -> v = 0 \/ v = OSPF_IP \/ v ∈ own ifl)
  /\ (own ifl <> [] -> OSPF_IP ∈ d_filter (dev_run d evs)).
Proof.
  intros Hres Hd Hf Ho Hnd H ports own.
  destruct (rkd_main_in_step _ _ _ _ _ _ _ _ _ _ _ d Hres Hd (le_n _) Hf Ho Hnd H)
    as ([[_ _ _ (rest & Hfl & _ & _ & Hrest & Hhd)] _ _ E] & _ & _ & (ifl & L & Heq)).
  rewrite E in Hfl, Hhd. fold ports in Hfl, Hhd.
  assert (own ifl = own (ifcur s)) as Em.
  { eapply dev_local_vector_eq; [|done]. intros x y Hxy. by apply ifentry_eq_value. }
  exists ifl. rewrite Em, Hfl. split; [done|]. split; [by eexists|]. split.
  - intros v [Hv|Hv]%elem_of_app; [by do 2 right|]. rewrite Forall_forall in Hrest. destruct (Hrest v Hv); auto.
  - intros Hne. apply elem_of_app. right. destruct rest as [|r rest]; [|].
    + assert (dev_local ports i_name (ifcur s) <> []) as Hn by (intros H0; apply Hne; unfold own; by rewrite H0).
      by specialize (Hhd Hn).
    + assert (dev_local ports i_name (ifcur s) <> []) as Hn by (intros H0; apply Hne; unfold own; by rewrite H0).
      specialize (Hhd Hn). injection Hhd as ->. apply list_elem_of_here.
Qed.

(** The interfaces are those of the answer but the first, with their names and
    addresses. *)
Lemma fill_loop_entries ifrs : forall ifl r, fill_loop ifl ifrs = inr r ->
  map (fun e => (i_name e, ip_value (i_ip e))) r
  = map (fun e => (i_name e, ip_value (i_ip e))) ifl ++ map (fun f => (ifr_name f, ntohl (ifr_sin_addr f))) ifrs.
Proof.
  induction ifrs as [|f ifrs IH]; intros ifl r H; cbn [fill_loop map] in *.
  - injection H as <-. by rewrite app_nil_r.
  - apply cxx_bind_inr in H as (e & He & H). rewrite (IH _ _ H). unfold add_entry.
    rewrite map_app, <- app_assoc. do 2 f_equal. cbn [map app]. f_equal.
    unfold fill_entry in He. apply cxx_bind_inr in He as (etha & _ & He). by injection He as <-.
Qed.

Lemma dev_local_same {A B} dp (n1 : A -> string) (n2 : B -> string) (f : A -> Z) (g : B -> Z) l k :
  map (fun x => (n1 x, f x)) l = map (fun y => (n2 y, g y)) k ->
  map f (dev_local dp n1 l) = map g (dev_local dp n2 k).
Proof.
  revert k. induction l as [|x l IH]; intros [|y k] H; try done. cbn [map] in H. injection H as Hn Hf H.
  unfold dev_local. cbn [bfilter]. rewrite Hn. destruct (dp !! n2 y); cbn [map]; rewrite ?Hf; [f_equal|];
    by apply IH.
Qed.

(** C36: While the daemon runs in the foreground, and Linux has fewer than 32
    interfaces and no table is longer than that of the card, the card takes as
    its own the addresses Linux reports for the interfaces of the card, without
    the first interface of its list, and 224.0.0.5 as long as there are any:
    every address has a row, in order, and a row holds an address, 224.0.0.5 or
    nothing. *)
Theorem rkd_mirrors_filters gethostbyname open_nf2 ppid fork opts o l a ifrs s evs d :
  resolves_literals gethostbyname -> device_ok d ->
  Forall (fits gethostbyname TABLE_DEPTH) (l ++ [a]) -> if_conf a = Some ifrs ->
  read_options (mk_settings false DEFAULT_INTERVAL_MS "") opts = inr o -> s_daemon o = false ->
  rkd_main gethostbyname open_nf2 ppid fork opts (l ++ [a]) = inr (s, evs) ->
  let ports := devtoport_init (card_name (s_interface o)) in
  let own := map (fun f => ntohl (ifr_sin_addr f)) (dev_local ports ifr_name (drop 1 ifrs)) in
  own `prefix_of` d_filter (dev_run d evs)
  /\ (forall v, v ∈ d_filter (dev_run d evs) -> v = 0 \/ v = OSPF_IP \/ v ∈ own)
  /\ (own <> [] -> OSPF_IP ∈ d_filter (dev_run d evs)).
Proof.
  intros Hres Hd Hf Hconf Ho Hnd H ports own.
  destruct (filters_of_interfaces _ _ _ _ _ _ _ _ _ _ _ Hres Hd Hf Ho Hnd H) as (ifl & L & Hown).
  fold ports in Hown. unfold fill_iflist in L. rewrite Hconf in L. destruct (if_socket a <? 0); [done|].
  apply fill_loop_entries in L. cbn [iflist_clear map app] in L.
  by rewrite (dev_local_same ports i_name ifr_name (fun e => ip_value (i_ip e)) _ _ _ L) in Hown.
Qed.

(** Started with -d, the daemon closes the descriptor of the card with all the
    others before its first round: whatever the tables of Linux are, the card
    keeps the cleared routes and has none for any packet. *)
Theorem daemonize_closes_card gethostbyname open_nf2 ppid fork opts o l s evs d dst :
  (forall n fd, open_nf2 n = Some fd -> 2 < fd) -> device_ok d -> is_u32 dst -> dst <> 0 ->
  read_options (mk_settings false DEFAULT_INTERVAL_MS "") opts = inr o -> s_daemon o = true -> ppid <> 1 ->
  rkd_main gethostbyname open_nf2 ppid fork opts l = inr (s, evs) ->
  d_rt (dev_run d evs) = replicate TABLE_DEPTH (mk_rt_row 0 4294967295 0 0) /\ dev_lookup (dev_run d evs) dst = None.
Proof.
  intros Hfd Hd Hu Hne Ho Hdm Hpp H. unfold rkd_main in H. rewrite Ho in H.
  change (inr o ≫= ?f) with (f o) in H. cbv beta in H. rewrite Hdm in H.
  apply cxx_bind_inr in H as ([m e0] & Hm & H). apply cxx_bind_inr in H as (fds & Hfds & H).
  apply cxx_bind_inr in H as ([s' e1] & Hrun & H). apply inr_pair in H as [<- <-].
  destruct (String.length (s_interface o) <? 32)%nat; [|done].
  assert (2 < m_fd m) as Hfd2.
  { unfold new_nf21_mon in Hm. destruct (open_nf2 _) as [fd|] eqn:E; [|done].
    apply inr_pair in Hm as [<- _]. by apply Hfd in E. }
  destruct (new_monitor_mirror TABLE_DEPTH _ _ _ _ d Hd Hm) as ([_ [_ Hr] _ _] & E1 & _). rewrite E1 in Hr.
  unfold daemonize in Hfds. rewrite (proj2 (Z.eqb_neq _ _) Hpp) in Hfds.
  destruct (negb (fork =? 0)); [done|].
  apply (f_equal (fun r => match r with inr x => x | inl _ => [] end)) in Hfds. cbn in Hfds. subst fds.
  unfold performed. rewrite decide_True, decide_False by (rewrite !elem_of_cons, elem_of_nil; lia).
  rewrite app_nil_r. split; [done|].
  rewrite (lookup_rows (devtoport_init (card_name (s_interface o))) dst [] TABLE_DEPTH);
    [done|done|done|unfold TABLE_DEPTH; cbn; lia|exact Hr].
Qed.

(** ** Lemmas: reading a line of /proc/net/route *)

Definition tab_char : ascii := chr 9.
Definition hex8 (v : Z) : list ascii :=
  map (fun k => hex_char (v / 16 ^ k mod 16)) [7; 6; 5; 4; 3; 2; 1; 0].

Lemma hex_char_digit v : 0 <= v < 16 -> hex_digit (hex_char v) = Some v /\ is_space (hex_char v) = false.
Proof.
  intros Hv. assert (forallb (fun v => bool_decide (hex_digit (hex_char v) = Some v) && negb (is_space (hex_char v)))
    (map Z.of_nat (seq 0 16)) = true) as H by (vm_compute; reflexivity).
  rewrite forallb_forall in H. specialize (H v). apply andb_true_iff in H as [H1 H2].
  - split; [by apply bool_decide_eq_true in H1|by apply negb_true_iff in H2].
  - apply in_map_iff. exists (Z.to_nat v). split; [lia|]. apply in_seq. lia.
Qed.

Lemma span_all {A} (f : ascii -> bool) (g : A -> ascii) l c rest :
  (forall x, x ∈ l -> f (g x) = true) -> f c = false -> span f (map g l ++ c :: rest) = (map g l, c :: rest).
Proof.
  intros H Hc. induction l as [|x l IH]; cbn [map app span]; [by rewrite Hc|].
  rewrite H, IH by set_solver. done.
Qed.

(** One of sixteen values. *)
Lemma digit_cases (P : Z -> Prop) :
  P 0 -> P 1 -> P 2 -> P 3 -> P 4 -> P 5 -> P 6 -> P 7 -> P 8 -> P 9 -> P 10 -> P 11 -> P 12 -> P 13 -> P 14 -> P 15 ->
  forall v, 0 <= v < 16 -> P v.
Proof.
  intros. assert (v = 0 \/ v = 1 \/ v = 2 \/ v = 3 \/ v = 4 \/ v = 5 \/ v = 6 \/ v = 7 \/ v = 8 \/ v = 9 \/ v = 10
    \/ v = 11 \/ v = 12 \/ v = 13 \/ v = 14 \/ v = 15) as E by lia.
  repeat destruct E as [-> |E]; try done. by subst.
Qed.

Lemma scan_sign_hex v l : 0 <= v < 16 -> scan_sign (hex_char v :: l) = (false, hex_char v :: l).
Proof. revert v. by apply digit_cases. Qed.

Lemma scan_0x_hex v w l :
  0 <= v < 16 -> 0 <= w < 16 -> scan_0x (hex_char v :: hex_char w :: l) = hex_char v :: hex_char w :: l.
Proof. intros Hv Hw. revert v Hv. apply digit_cases; try reflexivity. revert w Hw. by apply digit_cases. Qed.

Lemma digit_range v k : 0 <= v / 16 ^ k mod 16 < 16.
Proof. apply Z.mod_pos_bound. lia. Qed.

Lemma hexadecimal_hex8 v : is_u32 v -> hexadecimal (hex8 v) = v.
Proof.
  unfold is_u32. intros Hv. unfold hexadecimal, hex8. cbn [map foldl].
  rewrite !(proj1 (hex_char_digit _ (digit_range _ _))). cbn [default from_option id].
  assert (forall j k, 0 <= j -> k = j + 1 -> v / 16 ^ j = 16 * (v / 16 ^ k) + v / 16 ^ j mod 16) as E.
  { intros j k Hj ->. rewrite Z.pow_add_r, <- Z.div_div by lia. apply Z.div_mod. lia. }
  assert (v / 16 ^ 8 = 0) as E8 by (apply Z.div_small; lia).
  assert (v / 16 ^ 0 = v) as E0 by (by rewrite Z.pow_0_r, Z.div_1_r).
  pose proof (E 0 1). pose proof (E 1 2). pose proof (E 2 3). pose proof (E 3 4). pose proof (E 4 5).
  pose proof (E 5 6). pose proof (E 6 7). pose proof (E 7 8). lia.
Qed.

Lemma span_app (f : ascii -> bool) w c rest :
  forallb f w = true -> f c = false -> span f (w ++ c :: rest) = (w, c :: rest).
Proof.
  intros Hw Hc. induction w as [|x w IH]; cbn [app span]; [by rewrite Hc|].
  cbn [forallb] in Hw. bool_to_prop. by rewrite H, IH.
Qed.

Lemma hex8_digits v : forallb is_hex (hex8 v) = true.
Proof.
  unfold hex8. cbn [map forallb]. unfold is_hex. by rewrite !(proj1 (hex_char_digit _ (digit_range _ _))).
Qed.

Lemma skip_tab l : skip_space (tab_char :: l) = skip_space l.
Proof. unfold skip_space. cbn [span]. change (is_space tab_char) with true. by destruct (span is_space l). Qed.

Lemma skip_none c l : is_space c = false -> skip_space (c :: l) = c :: l.
Proof. intros H. unfold skip_space. cbn [span]. by rewrite H. Qed.

Lemma scan_x_hex8 v c rest :
  is_u32 v -> is_hex c = false -> scan_x (tab_char :: hex8 v ++ c :: rest) = Some (v, c :: rest).
Proof.
  intros Hv Hc. unfold scan_x. rewrite skip_tab.
  assert (exists a b w, hex8 v = hex_char a :: hex_char b :: w /\ 0 <= a < 16 /\ 0 <= b < 16) as (a & b & w & E & Ha & Hb).
  { eexists _, _, _. split; [reflexivity|]. split; apply digit_range. }
  pose proof (hex8_digits v) as Hd. pose proof (hexadecimal_hex8 v Hv) as Hx. rewrite E in *. cbn [app].
  rewrite skip_none by apply (hex_char_digit a Ha). rewrite scan_sign_hex, scan_0x_hex by done.
  change (hex_char a :: hex_char b :: w ++ c :: rest) with ((hex_char a :: hex_char b :: w) ++ c :: rest).
  rewrite span_app by done. by rewrite Hx.
Qed.

(** A field of decimal digits. *)
Definition is_number (ds : list ascii) : Prop := ds <> [] /\ forallb is_digit ds = true.

Lemma digit_not_sign c : is_digit c = true ->
  is_space c = false /\ forall l, match c :: l with
     | "-"%char :: l' => (true, l') | "+"%char :: l' => (false, l') | _ => (false, c :: l) end = (false, c :: l).
Proof. destruct c as [[] [] [] [] [] [] [] []]; intros H; try done. Qed.

Lemma scan_decimal_number ds c rest :
  is_number ds -> is_digit c = false -> scan_decimal (tab_char :: ds ++ c :: rest) = Some (decimal ds, c :: rest).
Proof.
  intros [Hne Hd] Hc. destruct ds as [|x ds]; [done|]. unfold scan_decimal. rewrite skip_tab. cbn [app].
  pose proof Hd as Hx. cbn [forallb] in Hx. apply andb_true_iff in Hx as [Hx _].
  destruct (digit_not_sign x Hx) as [Hs Hn]. rewrite skip_none, Hn by done.
  change (x :: ds ++ c :: rest) with ((x :: ds) ++ c :: rest). by rewrite span_app.
Qed.

(** A word of at least one character and no white space. *)
Definition is_field (w : string) : Prop := w <> "" /\ forallb (fun c => negb (is_space c)) (chars w) = true.

Lemma scan_s_field w fmt rest :
  is_field w -> scan_fields (Cs :: fmt) (chars w ++ tab_char :: rest) = AStr w :: scan_fields fmt (tab_char :: rest).
Proof.
  intros [Hne Hw]. destruct w as [|x w]; [done|]. cbn [scan_fields]. cbn [chars app].
  pose proof Hw as Hx. cbn [chars forallb] in Hx. apply andb_true_iff in Hx as [Hx _]. bool_to_prop.
  rewrite skip_none by done. change (x :: chars w ++ tab_char :: rest) with (chars (String x w) ++ tab_char :: rest).
  rewrite span_app by done. destruct (chars (String x w)) eqn:E; [done|]. rewrite <- E. by rewrite implode_chars.
Qed.

(** A line of /proc/net/route: "%s\t%08X\t%08X\t%04X\t%d\t%u\t%d\t%08X\t%d\t%u\t%u\n".
    [nums] are the texts of the flags, the counts and the metric, then of the
    last three fields. *)
Definition proc_route_line (e : ipv4_entry) (nums : list (list ascii)) : string :=
  let n k := default [] (nums !! k) in
  implode (chars (r_dev e) ++ tab_char :: hex8 (addr (r_dest e)) ++ tab_char :: hex8 (addr (r_gw e))
    ++ tab_char :: n 0%nat ++ tab_char :: n 1%nat ++ tab_char :: n 2%nat ++ tab_char :: n 3%nat
    ++ tab_char :: hex8 (addr (r_mask e)) ++ tab_char :: n 4%nat ++ tab_char :: n 5%nat ++ tab_char :: n 6%nat ++ [chr 10]).

Definition route_entry_ok (e : ipv4_entry) : Prop :=
  is_field (r_dev e) /\ (String.length (r_dev e) < 16)%nat
  /\ ip_wf (r_dest e) /\ ip_wf (r_gw e) /\ ip_wf (r_mask e).

Lemma scan_hex_field fmt v rest :
  is_u32 v -> scan_fields (Cx :: fmt) (tab_char :: hex8 v ++ tab_char :: rest) = ANum v :: scan_fields fmt (tab_char :: rest).
Proof.
  intros Hv. cbn [scan_fields]. rewrite scan_x_hex8 by done. do 2 f_equal.
  unfold to_unsigned, is_u32 in *. destruct (Z.leb_spec (2 ^ 64) (Z.abs v)); [lia|]. by apply u32_id.
Qed.

Lemma scan_num_field fmt ds c rest :
  is_number ds -> is_digit c = false ->
  scan_fields (Cd :: fmt) (tab_char :: ds ++ c :: rest) = ANum (to_int (decimal ds)) :: scan_fields fmt (c :: rest).
Proof. intros Hd Hc. cbn [scan_fields]. by rewrite (scan_decimal_number ds c rest Hd Hc). Qed.

Lemma scan_route_line e nums v :
  route_entry_ok e -> (forall k, (k < 7)%nat -> is_number (default [] (nums !! k))) ->
  scan_route (proc_route_line e nums) v
  = inr (mk_route_vars (Some (r_dev e)) (Some (addr (r_dest e))) (Some (addr (r_gw e))) (Some (addr (r_mask e)))).
Proof.
  intros (Hw & Hlen & Hd & Hg & Hm) Hn. unfold scan_route, proc_route_line. rewrite chars_implode. unfold route_format.
  rewrite scan_s_field, !scan_hex_field by done.
  rewrite !scan_num_field, scan_hex_field, !scan_num_field by (done || (apply Hn; lia)).
  unfold into_chars, into_word. cbn [lookup list_lookup]. rewrite (proj2 (Nat.ltb_lt _ _) Hlen). done.
Qed.

Lemma load_routes_lines l : forall v rt,
  Forall (fun p => route_entry_ok p.1 /\ forall k, (k < 7)%nat -> is_number (default [] (p.2 !! k))) l ->
  load_routes v rt (map (fun p => proc_route_line p.1 p.2) l) = inr (rt ++ map fst l).
Proof.
  induction l as [|[e nums] l IH]; intros v rt Hl; cbn [map load_routes]; [by rewrite app_nil_r|].
  inversion_clear Hl as [|?? [He Hn] Hl']. cbn [fst snd] in *. rewrite scan_route_line by done.
  cbn [mbind cxx_bind get_set v_dest v_gw v_mask v_dev mret cxx_ret]. rewrite IH by done. f_equal.
  unfold rtable_add. rewrite <- app_assoc. by destruct e as [[] [] []].
Qed.

(** The routing table of Linux is read as it was printed: each line gives its
    route, in order. *)
Theorem load_rtable_reads_lines header l :
  Forall (fun p => route_entry_ok p.1 /\ forall k, (k < 7)%nat -> is_number (default [] (p.2 !! k))) l ->
  linux_proc_net_load_rtable (Some (header :: map (fun p => proc_route_line p.1 p.2) l)) = inr (map fst l).
Proof. intros Hl. unfold linux_proc_net_load_rtable. cbn [drop]. by apply load_routes_lines. Qed.

(** The ports of the card's interfaces in its registers. *)
Definition default_ports : gmap string Z :=
  list_to_map [("nf2c0", 1); ("nf2c1", 4); ("nf2c2", 16); ("nf2c3", 64)].

(** C35: While the daemon runs in the foreground, and no table of Linux is longer than
    that of the card, the routes of the card are those Linux prints in
    /proc/net/route, with no letters in its flags, for the interfaces of the card, in Linux's order, then cleared
    rows; so the card sends a packet for an address other than 0.0.0.0 where the
    first matching route of Linux says. The interfaces of the default card are
    nf2c0 to nf2c3, on ports 1, 4, 16 and 64. *)
Theorem rkd_mirrors_routes gethostbyname open_nf2 ppid fork opts o l a header routes s evs d :
  resolves_literals gethostbyname -> device_ok d ->
  Forall (fits gethostbyname TABLE_DEPTH) (l ++ [a]) ->
  Forall (fun p => route_entry_ok p.1 /\ forall k, (k < 7)%nat -> is_number (default [] (p.2 !! k))) routes ->
  route_file a = Some (header :: map (fun p => proc_route_line p.1 p.2) routes) ->
  read_options (mk_settings false DEFAULT_INTERVAL_MS "") opts = inr o -> s_daemon o = false ->
  rkd_main gethostbyname open_nf2 ppid fork opts (l ++ [a]) = inr (s, evs) ->
  let ports := devtoport_init (card_name (s_interface o)) in
  let rt := map fst routes in
  (s_interface o = "" -> ports = default_ports)
  /\ d_rt (dev_run d evs) = slot_rows (kit_route_row ports) TABLE_DEPTH (dev_local ports r_dev rt)
  /\ forall dst, is_u32 dst -> dst <> 0 ->
       dev_lookup (dev_run d evs) dst
       = option_map (fun e => (if ip_value (r_gw e) =? 0 then dst else ip_value (r_gw e),
                               default 0 (ports !! r_dev e)))
           (find_first (kit_route_matches dst) (dev_local ports r_dev rt)).
Proof.
  intros Hres Hd Hf Hok Hfile Ho Hnd H ports rt.
  destruct (rkd_main_in_step _ _ _ _ _ _ _ _ _ _ _ d Hres Hd (le_n _) Hf Ho Hnd H) as ([[_ [Hl Hr] _ _] E _ _] & L & _).
  rewrite Hfile, load_rtable_reads_lines in L by done. injection L as Ert. fold rt in Ert. rewrite <- Ert in E.
  rewrite E in Hr, Hl. split; [|split; [done|]].
  - intros Hi. unfold ports. rewrite Hi. by vm_compute.
  - intros dst Hu Hne. by apply (lookup_rows _ _ _ TABLE_DEPTH).
Qed.
