(* ===== verification/KitWitnesses.v ===== *)
(** A concrete router kit: a resolver that knows dotted quads, a card at
    descriptor 3, and one round of the tables of Linux, on which the hypotheses
    of the theorems of RkAddr.v and RouterKit.v hold. *)

From S2P Require Import Prelude Words Bytes State CStrings Netfpga RkAddr RouterKit.
From Stdlib Require Import Ascii.
Local Open Scope Z_scope.

Definition resolver (name : string) : option bytes :=
  match inet_pton name with Some a => Some (word_bytes a) | None => None end.
Definition card_fd (_ : string) : option Z := Some 3.

Definition net (a b c d : Z) : ipaddr := mk_ipaddr (a + 2 ^ 8 * b + 2 ^ 16 * c + 2 ^ 24 * d).
Definition kit_mac : list Z := [0; 78; 70; 50; 67; 1].

Definition some_route : ipv4_entry := mk_ipv4_entry (net 10 1 0 0) (net 10 0 0 2) (net 255 255 0 0) "nf2c1".
Definition other_route : ipv4_entry := mk_ipv4_entry (net 0 0 0 0) (net 192 168 0 1) (net 0 0 0 0) "eth0".
Definition some_nums : list (list ascii) := map chars ["0003"; "0"; "0"; "0"; "0"; "0"; "0"].

Definition some_lines : list string := map (fun e => proc_route_line e some_nums) [some_route; other_route].
Definition arp_header : string := "IP address       HW type     Flags       HW address            Mask     Device".
Definition arp_text : string := "10.0.0.2         0x1         0x2         00:4e:46:32:43:01     *        nf2c1".

Definition one_round : answers :=
  mk_answers (Some ("Iface Destination" :: some_lines)) (Some [arp_header; arp_text]) 4
    (Some [mk_ifreq "lo" (addr (net 127 0 0 1)) None;
           mk_ifreq "nf2c1" (addr (net 10 0 0 1)) (Some (kit_mac ++ replicate 8 0))]).

Definition kit_run (opts : list (ascii * string)) : cxx (rkd * list event) :=
  rkd_main resolver card_fd 500 0 opts [one_round].
Definition run_state (opts : list (ascii * string)) : rkd :=
  match kit_run opts with
  | inr (s, _) => s
  | inl _ => mk_rkd [] [] [] (mk_nf21_mon "" 0 ∅ [] [] [])
  end.
Definition run_writes (opts : list (ascii * string)) : list event :=
  match kit_run opts with inr (_, evs) => evs | inl _ => [] end.

Lemma one_round_fits : Forall (fits resolver 8) ([] ++ [one_round]).
Proof.
  constructor; [|constructor]. split; [|split]; intros ? H; vm_compute in H; injection H as <-; unfold TABLE_DEPTH; cbn; lia.
Defined.

Lemma one_round_fits_card : Forall (fits resolver TABLE_DEPTH) ([] ++ [one_round]).
Proof.
  constructor; [|constructor]. split; [|split]; intros ? H; vm_compute in H; injection H as <-; unfold TABLE_DEPTH; cbn; lia.
Defined.

Example some_arp_read :
  linux_proc_net_load_arptable resolver (Some [arp_header; arp_text])
  = inr [mk_arp_entry (net 10 0 0 2) kit_mac "nf2c1"].
Proof. vm_compute. reflexivity. Qed.

Lemma some_route_ok : route_entry_ok some_route.
Proof. repeat split; try done; cbn; lia. Defined.

(** ** RkAddr.v *)

Lemma ipaddr_is_a_number_witness :
  ip_wf (net 10 0 0 255) /\ ip_value (ip_add (net 10 0 0 255) 1) = ip_value (net 10 0 1 0).
Proof.
  assert (ip_wf (net 10 0 0 255)) as H by (unfold ip_wf, is_u32, net; cbn; lia).
  split; [done|]. destruct (ipaddr_is_a_number (net 10 0 0 255) (net 10 0 0 255) 1 H H ltac:(lia)) as (E & _).
  rewrite E. vm_compute. reflexivity.
Defined.

Lemma ipaddr_number_comparisons_disagree_witness :
  is_u32 167772161 /\ ip_eq_uint32 (ipaddr_uint32 167772161) 167772161 = false.
Proof.
  assert (is_u32 167772161) as H by (unfold is_u32; lia). split; [done|].
  destruct (ipaddr_number_comparisons_disagree 167772161 H) as (_ & _ & E & _).
  rewrite E. vm_compute. reflexivity.
Defined.

Lemma ethernetaddr_round_trip_witness :
  six_octets kit_mac /\ eth_cstr (eth_c_string kit_mac) = kit_mac.
Proof.
  assert (six_octets kit_mac) as H by (split; [done|]; repeat constructor; unfold is_u8; lia).
  split; [done|]. destruct (ethernetaddr_round_trip kit_mac [0; 0] H) as [E _]; [cbn; lia| |exact E].
  repeat constructor; unfold is_u8; lia.
Defined.

Lemma ethernetaddr_order_reversed_witness :
  eth_lt (replicate 6 1) (replicate 6 0) = true.
Proof.
  destruct (ethernetaddr_order_reversed (replicate 6 1) (replicate 6 0)) as [E _].
  - split; [done|]. repeat constructor; unfold is_u8; lia.
  - split; [done|]. repeat constructor; unfold is_u8; lia.
  - rewrite E. vm_compute. reflexivity.
Defined.

(** ** RouterKit.v *)

Lemma load_rtable_reads_lines_witness :
  linux_proc_net_load_rtable (Some ["Iface"; proc_route_line some_route some_nums]) = inr [some_route].
Proof.
  apply (load_rtable_reads_lines "Iface" [(some_route, some_nums)]). constructor; [|constructor].
  split; [apply some_route_ok|]. intros k Hk. do 7 (destruct k as [|k]; [by split|]). lia.
Defined.

Lemma some_routes_ok :
  Forall (fun p => route_entry_ok p.1 /\ forall k, (k < 7)%nat -> is_number (default [] (p.2 !! k)))
    [(some_route, some_nums); (other_route, some_nums)].
Proof.
  repeat constructor; try done; try (cbn; lia);
    (do 7 (destruct k as [|k]; [done|]); lia).
Defined.

Lemma rkd_mirrors_routes_witness :
  dev_lookup (dev_run device_reset (run_writes [])) (ip_value (net 10 1 2 3)) = Some (ip_value (net 10 0 0 2), 4).
Proof.
  destruct (rkd_mirrors_routes resolver card_fd 500 0 [] (mk_settings false DEFAULT_INTERVAL_MS "") [] one_round
    "Iface Destination" [(some_route, some_nums); (other_route, some_nums)]
    (run_state []) (run_writes []) device_reset) as (_ & _ & E).
  - reflexivity.
  - apply device_reset_ok.
  - apply one_round_fits_card.
  - apply some_routes_ok.
  - reflexivity.
  - reflexivity.
  - reflexivity.
  - vm_compute. reflexivity.
  - rewrite E by (unfold is_u32; vm_compute; done || (split; done)). vm_compute. reflexivity.
Defined.

Lemma rkd_mirrors_arps_witness :
  exists k, (k <= 8)%nat /\ d_arp (dev_run device_reset (run_writes []))
    = slot_rows kit_arp_row k [mk_arp_entry (net 10 0 0 2) kit_mac "nf2c1"]
      ++ drop k (<[1%nat := zero_arp_row]> (d_arp device_reset)).
Proof.
  destruct (rkd_mirrors_arps resolver 8 card_fd 500 0 [] (mk_settings false DEFAULT_INTERVAL_MS "") [] one_round
    (run_state []) (run_writes []) device_reset) as (arps & k & L & Hk & E).
  - reflexivity.
  - apply device_reset_ok.
  - unfold TABLE_DEPTH. lia.
  - apply one_round_fits.
  - reflexivity.
  - reflexivity.
  - vm_compute. reflexivity.
  - exists k. split; [lia|]. rewrite E. vm_compute in L. injection L as <-. reflexivity.
Defined.

Lemma rkd_mirrors_filters_witness :
  [ip_value (net 10 0 0 1)] `prefix_of` d_filter (dev_run device_reset (run_writes [])) /\
  OSPF_IP ∈ d_filter (dev_run device_reset (run_writes [])).
Proof.
  destruct (rkd_mirrors_filters resolver card_fd 500 0 [] (mk_settings false DEFAULT_INTERVAL_MS "") [] one_round
    (default [] (if_conf one_round)) (run_state []) (run_writes []) device_reset) as (E1 & _ & E2).
  - reflexivity.
  - apply device_reset_ok.
  - apply one_round_fits_card.
  - reflexivity.
  - reflexivity.
  - reflexivity.
  - vm_compute. reflexivity.
  - split; [exact E1|]. apply E2. vm_compute. done.
Defined.

Lemma daemonize_closes_card_witness :
  dev_lookup (dev_run device_reset (run_writes [("d"%char, "")])) (ip_value (net 10 1 2 3)) = None.
Proof.
  apply (daemonize_closes_card resolver card_fd 500 0 [("d"%char, "")] (mk_settings true DEFAULT_INTERVAL_MS "")
    [one_round] (run_state [("d"%char, "")])); try done.
  all: intros; unfold card_fd in *; simplify_eq; done.
Defined.
