(* ===== verification/HostRegs.v ===== *)
(** The register library of the host tools (lib/C/common/nf2util.h): a tool
    opens a [struct nf2device] and reads and writes registers of the card
    through five functions. Two libraries implement them, libnf2 on top of the
    driver (Nf2util.v) and libreg_proxy over a socket (RegProxy.v); the class
    [RegLib] is what a tool links against, and [RegLaws] what it relies on. *)

From S2P Require Import Prelude Words Bytes CStrings.
Local Open Scope Z_scope.

(** ** Computations of a tool *)

(** How a run ends early: [exit], a failed assertion, an access outside a
    buffer, a null pointer, a variable that was never assigned and decides what
    happens next, an invalid access in the kernel, and a loop whose fuel ran
    out. *)
Inductive halt := HExit (code : Z) | HAssert | HOverrun | HNull | HUnset | HOops | HFuel.

(** A computation on a world of type [W]: everything outside the tool. *)
Definition host (W A : Type) : Type := W -> (halt + A) * W.

#[export] Instance host_ret W : MRet (host W) := fun A a w => (inr a, w).
#[export] Instance host_bind W : MBind (host W) := fun A B f m w =>
  match m w with
  | (inr a, w') => f a w'
  | (inl h, w') => (inl h, w')
  end.

Definition halted {W A} (h : halt) : host W A := fun w => (inl h, w).
Definition ask {W A} (f : W -> A) : host W A := fun w => (inr (f w), w).
Definition change {W} (f : W -> W) : host W unit := fun w => (inr tt, f w).

(** The string at the start of a buffer. *)
Definition cstr {W} (b : bytes) : host W string :=
  match cstring b with Some s => mret s | None => halted HOverrun end.

Lemma host_bind_done {W A B} (m : host W A) (f : A -> host W B) w a w' :
  m w = (inr a, w') -> (m ≫= f) w = f a w'.
Proof. intros E. unfold mbind, host_bind. by rewrite E. Qed.

Lemma host_bind_halt {W A B} (m : host W A) (f : A -> host W B) w h w' :
  m w = (inl h, w') -> (m ≫= f) w = (inl h, w').
Proof. intros E. unfold mbind, host_bind. by rewrite E. Qed.

Lemma host_bind_inv {W A B} (m : host W A) (f : A -> host W B) w b w' :
  (m ≫= f) w = (inr b, w') -> exists a w1, m w = (inr a, w1) /\ f a w1 = (inr b, w').
Proof. unfold mbind, host_bind. destruct (m w) as [[h|a] w1]; [done|eauto]. Qed.

(** A run that returns: its result and the world it leaves satisfy [Q]. *)
Definition returns {W A} (m : host W A) (Q : A -> W -> Prop) (w : W) : Prop :=
  match m w with (inr a, w') => Q a w' | (inl _, _) => False end.

Lemma returns_seq {W A B} (m : host W A) (f : A -> host W B) Q w :
  returns m (fun a => returns (f a) Q) w -> returns (m ≫= f) Q w.
Proof. unfold returns, mbind, host_bind. by destruct (m w) as [[h|a] w1]. Qed.

Lemma returns_mono {W A} (m : host W A) (Q R : A -> W -> Prop) w :
  returns m Q w -> (forall a w', Q a w' -> R a w') -> returns m R w.
Proof. unfold returns. destruct (m w) as [[h|a] w1]; eauto. Qed.

Lemma returns_done {W A} (m : host W A) (Q : A -> W -> Prop) w a w' :
  m w = (inr a, w') -> Q a w' -> returns m Q w.
Proof. unfold returns. by intros ->. Qed.

Lemma returns_inv {W A} (m : host W A) (Q : A -> W -> Prop) w :
  returns m Q w -> exists a w', m w = (inr a, w') /\ Q a w'.
Proof. unfold returns. destruct (m w) as [[h|a] w1]; [done|eauto]. Qed.

(** Steps over the first computation of a sequence. *)
Ltac hstep := erewrite host_bind_done by (reflexivity || eassumption || eauto).

(** ** The device of a tool *)

Record nf2device := mk_nf2device {
  device_name : string;
  dev_fd : Z;
  net_iface : Z;
  server_ip_addr : string;
  server_port_num : Z
}.

#[export] Instance nf2device_eq_dec : EqDecision nf2device.
Proof. solve_decision. Defined.

Definition set_fd (v : Z) (d : nf2device) : nf2device :=
  mk_nf2device (device_name d) v (net_iface d) (server_ip_addr d) (server_port_num d).
Definition set_net_iface (v : Z) (d : nf2device) : nf2device :=
  mk_nf2device (device_name d) (dev_fd d) v (server_ip_addr d) (server_port_num d).

(** ** The interface

    [readReg nf2 reg cur] returns the result of the C function and what [*val]
    holds after it, [cur] being what it held before; the functions that change
    the structure return it too. *)
Class RegLib (W : Type) := {
  readReg : nf2device -> Z -> Z -> host W (Z * Z);
  writeReg : nf2device -> Z -> Z -> host W Z;
  check_iface : nf2device -> host W (Z * nf2device);
  openDescriptor : nf2device -> host W (Z * nf2device);
  closeDescriptor : nf2device -> host W Z
}.

(** What a variable of the tool that was never assigned holds: some word. *)
Class Stack (W : Type) := junk : W -> Z.

(** The card behind the library, in states of type [C]: a read may change it (a
    counter is cleared), and only the mapped addresses are registers. *)
Class RegCard (C : Type) := {
  reg_read : Z -> C -> Z * C;
  reg_write : Z -> Z -> C -> C;
  mapped : Z -> Prop
}.

(** What the library promises to a tool whose device is [ready], the card being
    part of the world: a read or a write of a mapped register succeeds and does
    to the card what the register does, and the device stays ready. *)
Class RegLaws {W C : Type} `{RegLib W} `{RegCard C} (card : W -> C)
    (ready : nf2device -> W -> Prop) := {
  readReg_law nf2 reg cur w : ready nf2 w -> mapped reg ->
    returns (readReg nf2 reg cur) (fun r w' =>
      r = (0, (reg_read reg (card w)).1) /\ card w' = (reg_read reg (card w)).2 /\ ready nf2 w') w;
  writeReg_law nf2 reg val w : ready nf2 w -> mapped reg -> is_u32 val ->
    returns (writeReg nf2 reg val) (fun r w' =>
      r = 0 /\ card w' = reg_write reg val (card w) /\ ready nf2 w') w
}.
