(* ===== verification/Nf2util.v ===== *)
(** libnf2 (lib/C/common/nf2util.c): the register library on top of the
    driver. A device is either a network interface, whose registers are read
    by an [ioctl] on a socket, or a file of /dev. The system calls are the
    class [Kernel]; [DriverKernel] answers them with the driver of
    CardDriver.v. *)

From S2P Require Import Prelude Words Card CardDriver CardProbe CardQueue CStrings HostRegs.
Local Open Scope Z_scope.

(** The system calls of the library. [ioctl fd name cmd reg]: [name] is the
    [ifr_name] of a request made through a [struct ifreq], [None] when the
    argument is the [struct nf2reg] itself; the result comes with what the
    kernel left in the structure. *)
Class Kernel (W : Type) := {
  ioctl : Z -> option string -> ioctl_cmd -> nf2reg -> host W (Z * nf2reg);
  path_exists : string -> W -> bool;            (* stat(...) == 0 *)
  socket_dgram : host W Z;                      (* socket(AF_INET, SOCK_DGRAM, 0) *)
  geteuid : W -> Z;
  bind_to_device : Z -> string -> host W Z;     (* setsockopt(SO_BINDTODEVICE) *)
  fopen_fd : string -> host W (option Z);       (* fopen(..., "w+"): its descriptor *)
  close : Z -> host W unit
}.

Definition IFNAMSIZ : nat := 16.
Definition PATHLEN : nat := 80.

Definition ifrn_name (nf2 : nf2device) : string := strncpy (device_name nf2) IFNAMSIZ.

Module Nf2util.
Section Lib.
Context {W : Type} `{Kernel W} `{!Stack W}.

(** ** Registers *)

Definition readRegNet (nf2 : nf2device) (reg cur : Z) : host W (Z * Z) :=
  v ← ask junk;
  r ← ioctl (dev_fd nf2) (Some (ifrn_name nf2)) SIOCREGREAD (mk_nf2reg reg v);
  if r.1 =? 0 then mret (0, val r.2) else mret (-1, cur).

Definition readRegFile (nf2 : nf2device) (reg cur : Z) : host W (Z * Z) :=
  v ← ask junk;
  r ← ioctl (dev_fd nf2) None SIOCREGREAD (mk_nf2reg reg v);
  if r.1 =? 0 then mret (0, val r.2) else mret (-1, cur).

Definition readReg (nf2 : nf2device) (reg cur : Z) : host W (Z * Z) :=
  if negb (net_iface nf2 =? 0) then readRegNet nf2 reg cur else readRegFile nf2 reg cur.

Definition writeRegNet (nf2 : nf2device) (reg val : Z) : host W Z :=
  r ← ioctl (dev_fd nf2) (Some (ifrn_name nf2)) SIOCREGWRITE (mk_nf2reg reg val);
  if r.1 =? 0 then mret 0 else mret (-1).

Definition writeRegFile (nf2 : nf2device) (reg val : Z) : host W Z :=
  r ← ioctl (dev_fd nf2) None SIOCREGWRITE (mk_nf2reg reg val);
  if r.1 =? 0 then mret 0 else mret (-1).

Definition writeReg (nf2 : nf2device) (reg val : Z) : host W Z :=
  if negb (net_iface nf2 =? 0) then writeRegNet nf2 reg val else writeRegFile nf2 reg val.

(** ** Finding and opening the device *)

(** [strcpy(filename, dir); strcat(filename, name)] on [PATHLEN] bytes. *)
Definition filename (dir name : string) : host W string :=
  if (String.length dir + String.length name <? PATHLEN)%nat then mret (dir ++ name)%string
  else halted HOverrun.

Definition check_iface (nf2 : nf2device) : host W (Z * nf2device) :=
  if (IFNAMSIZ <? String.length (device_name nf2))%nat then mret (-1, nf2)
  else
    f ← filename "/sys/class/net/" (device_name nf2);
    found ← ask (path_exists f);
    if found : bool then mret (0, set_net_iface 1 nf2)
    else
      f ← filename "/dev/" (device_name nf2);
      found ← ask (path_exists f);
      if found : bool then mret (0, set_net_iface 0 nf2) else mret (-1, nf2).

Definition openDescriptor (nf2 : nf2device) : host W (Z * nf2device) :=
  if negb (net_iface nf2 =? 0) then
    s ← socket_dgram;
    let nf2 := set_fd s nf2 in
    if s =? -1 then mret (-1, nf2)
    else
      uid ← ask geteuid;
      if uid =? 0 then
        r ← bind_to_device s (ifrn_name nf2);
        if r <? 0 then mret (-1, nf2) else mret (0, nf2)
      else mret (0, nf2)
  else
    f ← filename "/dev/" (device_name nf2);
    file ← fopen_fd f;
    match file with
    | None => halted HNull     (* fileno(NULL) *)
    | Some s => if s =? -1 then mret (-1, set_fd s nf2) else mret (0, set_fd s nf2)
    end.

Definition closeDescriptor (nf2 : nf2device) : host W Z :=
  if negb (net_iface nf2 =? 0) then close (dev_fd nf2);; mret 0
  else close (dev_fd nf2);; mret 0.

End Lib.
End Nf2util.

#[export] Instance nf2util_lib {W} `{Kernel W} `{!Stack W} : RegLib W := {|
  readReg := Nf2util.readReg;
  writeReg := Nf2util.writeReg;
  check_iface := Nf2util.check_iface;
  openDescriptor := Nf2util.openDescriptor;
  closeDescriptor := Nf2util.closeDescriptor
|}.

(** ** Finding the device *)

Section Finding.
Context {W : Type} `{Kernel W} `{!Stack W}.

(** A device is found when its name fits and names a network interface or a
    file of /dev, the former first; the buffer for its path is never overrun. *)
Theorem check_iface_correct (nf2 : nf2device) (w : W) :
  let name := device_name nf2 in
  let net := path_exists ("/sys/class/net/" ++ name) w in
  let file := path_exists ("/dev/" ++ name) w in
  check_iface nf2 w =
    (inr (if (String.length name <=? 16)%nat && (net || file)
          then (0, set_net_iface (if net then 1 else 0) nf2) else (-1, nf2)), w).
Proof.
  intros name net file. change (check_iface nf2) with (Nf2util.check_iface nf2).
  unfold Nf2util.check_iface.
  fold name. destruct (Nat.leb_spec (String.length name) 16) as [Hl|Hl].
  - assert ((IFNAMSIZ <? String.length name)%nat = false) as -> by (apply Nat.ltb_ge; exact Hl).
    assert (forall d, (String.length d <= 15)%nat ->
      Nf2util.filename d name w = (inr (d ++ name)%string, w)) as Hf.
    { intros d Hd. unfold Nf2util.filename, PATHLEN.
      assert ((String.length d + String.length name <? 80)%nat = true) as ->; [|done].
      apply Nat.ltb_lt. lia. }
    rewrite (host_bind_done _ _ _ _ _ (Hf "/sys/class/net/" ltac:(simpl; lia))).
    erewrite host_bind_done by reflexivity. fold net. cbn [andb].
    destruct net; cbn [orb]; [done|].
    rewrite (host_bind_done _ _ _ _ _ (Hf "/dev/" ltac:(simpl; lia))).
    erewrite host_bind_done by reflexivity. fold file. by destruct file.
  - by assert ((IFNAMSIZ <? String.length name)%nat = true) as -> by (apply Nat.ltb_lt; exact Hl).
Qed.
End Finding.

(** ** libnf2 on the driver *)

Section OnDriver.
(** The interfaces of the card, the size of its memory, and the system calls
    that do not reach the driver's network devices. *)
Variables (port_of : string -> option nat) (size : Z).
Context (others : Kernel kworld).

(** [ioctl] on a socket goes to the driver of the named interface, which
    returns a negative error number; the C library turns it into -1. *)
Definition driver_ioctl (fd : Z) (name : option string) (cmd : ioctl_cmd) (rq : nf2reg)
    : host kworld (Z * nf2reg) :=
  match name with
  | None => @ioctl _ others fd name cmd rq
  | Some n =>
      match port_of n with
      | None => mret (-1, rq)
      | Some i => fun w =>
          match nf2c_ioctl i cmd rq 0 w with
          | Some ((r, v), w') =>
              (inr (if r =? 0 then 0 else -1, mk_nf2reg (reg rq) (default (val rq) v)), w')
          | None => (inl HOops, w)
          end
      end
  end.

#[local] Instance driver_kernel : Kernel kworld := {|
  ioctl := driver_ioctl;
  path_exists := @path_exists _ others;
  socket_dgram := @socket_dgram _ others;
  geteuid := @geteuid _ others;
  bind_to_device := @bind_to_device _ others;
  fopen_fd := @fopen_fd _ others;
  close := @close _ others
|}.

Context `{!Stack kworld}.

(** The card behind the driver: every question to the environment is a tick. *)
#[local] Instance driver_card : RegCard kworld := {|
  reg_read a w := (ke_reg (kw_env w) (kw_tick w + 2) a,
                   mk_kworld (kw_card w) (kw_trace w) (kw_tick w + 4) (kw_env w));
  reg_write a v w := mk_kworld (kw_card w) (kw_trace w ++ [KWrite a v]) (kw_tick w + 2) (kw_env w);
  mapped a := a < size
|}.

(** An open network device of a card whose user memory can be copied. *)
Definition on_card (nf2 : nf2device) (w : kworld) : Prop :=
  net_iface nf2 <> 0 /\ is_Some (port_of (ifrn_name nf2)) /\
  ke_resource_len (kw_env w) = size /\ forall n, ke_copy_fails (kw_env w) n = false.

(** The register calls of the driver on an address of the card. *)
Lemma nf2c_ioctl_read i rq w :
  ke_resource_len (kw_env w) = size -> (forall n, ke_copy_fails (kw_env w) n = false) ->
  nf2c_ioctl i SIOCREGREAD rq 0 w =
    Some ((0, Some (if reg rq <? size then ke_reg (kw_env w) (kw_tick w + 2) (reg rq) else val rq)),
          mk_kworld (kw_card w) (kw_trace w)
            (kw_tick w + (if reg rq <? size then 4 else 3)) (kw_env w)).
Proof.
  intros Hs Hc. unfold nf2c_ioctl, nf2k_reg_read.
  erewrite kbind_done by reflexivity. rewrite Hc. cbv iota.
  rewrite Z.ltb_antisym.
  destruct (size <=? reg rq) eqn:E; cbn [negb].
  - erewrite kbind_done; [|erewrite kbind_done by reflexivity; cbn [kw_env]; rewrite Hs, E; reflexivity].
    erewrite kbind_done by reflexivity. cbn [kw_env]. rewrite Hc.
    replace (kw_tick w + 3)%nat with (S (S (S (kw_tick w)))) by lia. reflexivity.
  - erewrite kbind_done; [|erewrite kbind_done by reflexivity; cbn [kw_env]; rewrite Hs, E; reflexivity].
    erewrite kbind_done by reflexivity. cbn [kw_env kw_tick]. rewrite Hc.
    replace (kw_tick w + 4)%nat with (S (S (S (S (kw_tick w))))) by lia.
    replace (kw_tick w + 2)%nat with (S (S (kw_tick w))) by lia. reflexivity.
Qed.

Lemma nf2c_ioctl_write i rq w :
  ke_resource_len (kw_env w) = size -> (forall n, ke_copy_fails (kw_env w) n = false) ->
  nf2c_ioctl i SIOCREGWRITE rq 0 w =
    Some ((0, None),
          mk_kworld (kw_card w)
            (kw_trace w ++ if reg rq <? size then [KWrite (reg rq) (val rq)] else [])
            (kw_tick w + 2) (kw_env w)).
Proof.
  intros Hs Hc. unfold nf2c_ioctl, nf2k_reg_write.
  erewrite kbind_done by reflexivity. rewrite Hc. cbv iota. rewrite Z.ltb_antisym.
  replace (kw_tick w + 2)%nat with (S (S (kw_tick w))) by lia.
  destruct (size <=? reg rq) eqn:E; cbn [negb].
  - erewrite kbind_done; [|erewrite kbind_done by reflexivity; cbn [kw_env]; rewrite Hs, E; reflexivity].
    by rewrite app_nil_r.
  - erewrite kbind_done; [|erewrite kbind_done by reflexivity; cbn [kw_env]; rewrite Hs, E; reflexivity].
    reflexivity.
Qed.

(** A read through a socket, for any address: past the end of the card's
    memory the driver leaves the structure alone and reports success. *)
Lemma readReg_on_driver nf2 reg cur w : on_card nf2 w ->
  Nf2util.readReg nf2 reg cur w =
    (inr (0, if reg <? size then ke_reg (kw_env w) (kw_tick w + 2) reg else junk w),
     mk_kworld (kw_card w) (kw_trace w) (kw_tick w + (if reg <? size then 4 else 3)) (kw_env w)).
Proof.
  intros (Hn & [i Hi] & Hs & Hc). unfold Nf2util.readReg, Nf2util.readRegNet.
  apply Z.eqb_neq in Hn as ->. cbn [negb].
  erewrite host_bind_done by reflexivity.
  erewrite host_bind_done;
    [|cbn [ioctl driver_kernel]; unfold driver_ioctl; rewrite Hi, nf2c_ioctl_read by done; reflexivity].
  cbn. by destruct (reg <? size).
Qed.

Lemma writeReg_on_driver nf2 reg v w : on_card nf2 w ->
  Nf2util.writeReg nf2 reg v w =
    (inr 0, mk_kworld (kw_card w) (kw_trace w ++ if reg <? size then [KWrite reg v] else [])
              (kw_tick w + 2) (kw_env w)).
Proof.
  intros (Hn & [i Hi] & Hs & Hc). unfold Nf2util.writeReg, Nf2util.writeRegNet.
  apply Z.eqb_neq in Hn as ->. cbn [negb].
  erewrite host_bind_done;
    [|cbn [ioctl driver_kernel]; unfold driver_ioctl; rewrite Hi, nf2c_ioctl_write by done; reflexivity].
  reflexivity.
Qed.

(** libnf2 on the driver is the register library of the driver's card. *)
#[local] Instance nf2util_laws : RegLaws id on_card.
Proof.
  split.
  - intros nf2 reg cur w Hw Hm. simpl in Hm. apply Z.ltb_lt in Hm.
    eapply returns_done; [by apply readReg_on_driver|]. by rewrite Hm.
  - intros nf2 reg v w Hw Hm _. simpl in Hm. apply Z.ltb_lt in Hm.
    eapply returns_done; [by apply writeReg_on_driver|]. by rewrite Hm.
Qed.

(** A register past the end of the card's memory is read and written with
    success: the read returns what its stack happened to hold, and the write
    reaches nothing. *)
Theorem register_out_of_range nf2 reg cur v w : on_card nf2 w -> size <= reg ->
  exists w1 w2, readReg nf2 reg cur w = (inr (0, junk w), w1) /\ kw_trace w1 = kw_trace w /\
    writeReg nf2 reg v w = (inr 0, w2) /\ kw_trace w2 = kw_trace w.
Proof.
  intros H Hr. apply Z.ltb_ge in Hr.
  change (readReg nf2 reg cur w) with (Nf2util.readReg nf2 reg cur w).
  change (writeReg nf2 reg v w) with (Nf2util.writeReg nf2 reg v w).
  rewrite readReg_on_driver, writeReg_on_driver, Hr, app_nil_r by done. by do 2 eexists.
Qed.

End OnDriver.
