(* ===== verification/DevInfo.v ===== *)
(** The device information of the host tools (lib/C/common/
    nf2util_proxy_common.c): what the library reads from the device block of
    the card, keeps in its globals, and prints; and the check that the right
    bitfile is loaded, in the right version. The file is part of both register
    libraries: everything here is over the class [RegLib]. *)

From S2P Require Import Prelude Words Bytes CStrings Sprint HostRegs.
From Stdlib Require Import Ascii.
From stdpp Require Import pretty.
Local Open Scope Z_scope.

(** ** Registers and sizes: reg_defines.h, nf2.h, nf2util.h *)

Definition CPCI_ID_REG : Z := 0x0000000.
Definition CPCI_REPROG_STATUS_REG : Z := 0x0000104.
Definition DEV_ID_MD5_0_REG : Z := 0x0400000.
Definition DEV_ID_DEVICE_ID_REG : Z := 0x0400010.
Definition DEV_ID_VERSION_REG : Z := 0x0400014.
Definition DEV_ID_CPCI_ID_REG : Z := 0x0400018.
Definition DEV_ID_PROJ_DIR_0_REG : Z := 0x040001c.
Definition DEV_ID_PROJ_NAME_0_REG : Z := 0x040005c.
Definition DEV_ID_PROJ_DESC_0_REG : Z := 0x040009c.
Definition NF2_DEVICE_ID : Z := 0x0400000.
Definition NF2_REVISION : Z := 0x0400004.
Definition NF2_DEVICE_STR : Z := 0x0400008.

Definition DEV_ID_MD5_VALUE_V1 : list Z := [0x4071736d; 0x8a603d2b; 0x4d55f629; 0x89a73c95].
Definition DEV_ID_MD5_VALUE_V2 : list Z := [0x5e461ffe; 0x439725c9; 0x279a22a1; 0x855f6c53].

Definition DEV_ID_PROJ_DIR_BYTE_LEN : nat := 64.
Definition DEV_ID_PROJ_NAME_BYTE_LEN : nat := 64.
Definition DEV_ID_PROJ_DESC_BYTE_LEN : nat := 100.
Definition DEV_ID_PROJ_NAME_BYTE_LEN_V1 : nat := 100.
Definition DEVICE_STR_LEN : nat := 100.
Definition DEVICE_INFO_STR_LEN : nat := 1024.
Definition MAX_STR_LEN : nat := 1024.
Definition MAX_VER_LEN : nat := 32.
Definition MD5_LEN : nat := 4.

Definition PROJ_UNKNOWN : string := "Unknown".
Definition VERSION_ANY : Z := -1.

(** -1 as an [unsigned]. *)
Definition none32 : Z := 2 ^ 32 - 1.

(** ** The globals of the library *)

Record dev_info := mk_dev_info {
  cpci_version : Z;
  cpci_revision : Z;
  nf2_dev_id_module_version : Z;
  nf2device_id : Z;
  nf2_version : Z;
  nf2_cpci_version : Z;
  nf2_cpci_revision : Z;
  have_version_info : bool;
  virtex_programmed : bool;
  nf2_proj_name_v1 : bytes;
  nf2_proj_dir : bytes;
  nf2_proj_name : bytes;
  nf2_proj_desc : bytes;
  nf2device_info : string;
  nf2_version_err : string;
  prev_dev : nf2device;
  nf2_device_id : Z;
  nf2_revision : Z;
  nf2_device_str : bytes
}.

Definition set_cpci_version (v : Z) (g : dev_info) : dev_info :=
  mk_dev_info v (cpci_revision g) (nf2_dev_id_module_version g) (nf2device_id g) (nf2_version g)
    (nf2_cpci_version g) (nf2_cpci_revision g) (have_version_info g) (virtex_programmed g)
    (nf2_proj_name_v1 g) (nf2_proj_dir g) (nf2_proj_name g) (nf2_proj_desc g) (nf2device_info g)
    (nf2_version_err g) (prev_dev g) (nf2_device_id g) (nf2_revision g) (nf2_device_str g).
Definition set_cpci_revision (v : Z) (g : dev_info) : dev_info :=
  mk_dev_info (cpci_version g) v (nf2_dev_id_module_version g) (nf2device_id g) (nf2_version g)
    (nf2_cpci_version g) (nf2_cpci_revision g) (have_version_info g) (virtex_programmed g)
    (nf2_proj_name_v1 g) (nf2_proj_dir g) (nf2_proj_name g) (nf2_proj_desc g) (nf2device_info g)
    (nf2_version_err g) (prev_dev g) (nf2_device_id g) (nf2_revision g) (nf2_device_str g).
Definition set_nf2_dev_id_module_version (v : Z) (g : dev_info) : dev_info :=
  mk_dev_info (cpci_version g) (cpci_revision g) v (nf2device_id g) (nf2_version g)
    (nf2_cpci_version g) (nf2_cpci_revision g) (have_version_info g) (virtex_programmed g)
    (nf2_proj_name_v1 g) (nf2_proj_dir g) (nf2_proj_name g) (nf2_proj_desc g) (nf2device_info g)
    (nf2_version_err g) (prev_dev g) (nf2_device_id g) (nf2_revision g) (nf2_device_str g).
Definition set_nf2device_id (v : Z) (g : dev_info) : dev_info :=
  mk_dev_info (cpci_version g) (cpci_revision g) (nf2_dev_id_module_version g) v (nf2_version g)
    (nf2_cpci_version g) (nf2_cpci_revision g) (have_version_info g) (virtex_programmed g)
    (nf2_proj_name_v1 g) (nf2_proj_dir g) (nf2_proj_name g) (nf2_proj_desc g) (nf2device_info g)
    (nf2_version_err g) (prev_dev g) (nf2_device_id g) (nf2_revision g) (nf2_device_str g).
Definition set_nf2_version (v : Z) (g : dev_info) : dev_info :=
  mk_dev_info (cpci_version g) (cpci_revision g) (nf2_dev_id_module_version g) (nf2device_id g)
    v (nf2_cpci_version g) (nf2_cpci_revision g) (have_version_info g) (virtex_programmed g)
    (nf2_proj_name_v1 g) (nf2_proj_dir g) (nf2_proj_name g) (nf2_proj_desc g) (nf2device_info g)
    (nf2_version_err g) (prev_dev g) (nf2_device_id g) (nf2_revision g) (nf2_device_str g).
Definition set_nf2_cpci_version (v : Z) (g : dev_info) : dev_info :=
  mk_dev_info (cpci_version g) (cpci_revision g) (nf2_dev_id_module_version g) (nf2device_id g)
    (nf2_version g) v (nf2_cpci_revision g) (have_version_info g) (virtex_programmed g)
    (nf2_proj_name_v1 g) (nf2_proj_dir g) (nf2_proj_name g) (nf2_proj_desc g) (nf2device_info g)
    (nf2_version_err g) (prev_dev g) (nf2_device_id g) (nf2_revision g) (nf2_device_str g).
Definition set_nf2_cpci_revision (v : Z) (g : dev_info) : dev_info :=
  mk_dev_info (cpci_version g) (cpci_revision g) (nf2_dev_id_module_version g) (nf2device_id g)
    (nf2_version g) (nf2_cpci_version g) v (have_version_info g) (virtex_programmed g)
    (nf2_proj_name_v1 g) (nf2_proj_dir g) (nf2_proj_name g) (nf2_proj_desc g) (nf2device_info g)
    (nf2_version_err g) (prev_dev g) (nf2_device_id g) (nf2_revision g) (nf2_device_str g).
Definition set_have_version_info (v : bool) (g : dev_info) : dev_info :=
  mk_dev_info (cpci_version g) (cpci_revision g) (nf2_dev_id_module_version g) (nf2device_id g)
    (nf2_version g) (nf2_cpci_version g) (nf2_cpci_revision g) v (virtex_programmed g)
    (nf2_proj_name_v1 g) (nf2_proj_dir g) (nf2_proj_name g) (nf2_proj_desc g) (nf2device_info g)
    (nf2_version_err g) (prev_dev g) (nf2_device_id g) (nf2_revision g) (nf2_device_str g).
Definition set_virtex_programmed (v : bool) (g : dev_info) : dev_info :=
  mk_dev_info (cpci_version g) (cpci_revision g) (nf2_dev_id_module_version g) (nf2device_id g)
    (nf2_version g) (nf2_cpci_version g) (nf2_cpci_revision g) (have_version_info g) v
    (nf2_proj_name_v1 g) (nf2_proj_dir g) (nf2_proj_name g) (nf2_proj_desc g) (nf2device_info g)
    (nf2_version_err g) (prev_dev g) (nf2_device_id g) (nf2_revision g) (nf2_device_str g).
Definition set_nf2_proj_name_v1 (v : bytes) (g : dev_info) : dev_info :=
  mk_dev_info (cpci_version g) (cpci_revision g) (nf2_dev_id_module_version g) (nf2device_id g)
    (nf2_version g) (nf2_cpci_version g) (nf2_cpci_revision g) (have_version_info g)
    (virtex_programmed g) v (nf2_proj_dir g) (nf2_proj_name g) (nf2_proj_desc g) (nf2device_info
    g) (nf2_version_err g) (prev_dev g) (nf2_device_id g) (nf2_revision g) (nf2_device_str g).
Definition set_nf2_proj_dir (v : bytes) (g : dev_info) : dev_info :=
  mk_dev_info (cpci_version g) (cpci_revision g) (nf2_dev_id_module_version g) (nf2device_id g)
    (nf2_version g) (nf2_cpci_version g) (nf2_cpci_revision g) (have_version_info g)
    (virtex_programmed g) (nf2_proj_name_v1 g) v (nf2_proj_name g) (nf2_proj_desc g)
    (nf2device_info g) (nf2_version_err g) (prev_dev g) (nf2_device_id g) (nf2_revision g)
    (nf2_device_str g).
Definition set_nf2_proj_name (v : bytes) (g : dev_info) : dev_info :=
  mk_dev_info (cpci_version g) (cpci_revision g) (nf2_dev_id_module_version g) (nf2device_id g)
    (nf2_version g) (nf2_cpci_version g) (nf2_cpci_revision g) (have_version_info g)
    (virtex_programmed g) (nf2_proj_name_v1 g) (nf2_proj_dir g) v (nf2_proj_desc g)
    (nf2device_info g) (nf2_version_err g) (prev_dev g) (nf2_device_id g) (nf2_revision g)
    (nf2_device_str g).
Definition set_nf2_proj_desc (v : bytes) (g : dev_info) : dev_info :=
  mk_dev_info (cpci_version g) (cpci_revision g) (nf2_dev_id_module_version g) (nf2device_id g)
    (nf2_version g) (nf2_cpci_version g) (nf2_cpci_revision g) (have_version_info g)
    (virtex_programmed g) (nf2_proj_name_v1 g) (nf2_proj_dir g) (nf2_proj_name g) v
    (nf2device_info g) (nf2_version_err g) (prev_dev g) (nf2_device_id g) (nf2_revision g)
    (nf2_device_str g).
Definition set_nf2device_info (v : string) (g : dev_info) : dev_info :=
  mk_dev_info (cpci_version g) (cpci_revision g) (nf2_dev_id_module_version g) (nf2device_id g)
    (nf2_version g) (nf2_cpci_version g) (nf2_cpci_revision g) (have_version_info g)
    (virtex_programmed g) (nf2_proj_name_v1 g) (nf2_proj_dir g) (nf2_proj_name g) (nf2_proj_desc
    g) v (nf2_version_err g) (prev_dev g) (nf2_device_id g) (nf2_revision g) (nf2_device_str g).
Definition set_nf2_version_err (v : string) (g : dev_info) : dev_info :=
  mk_dev_info (cpci_version g) (cpci_revision g) (nf2_dev_id_module_version g) (nf2device_id g)
    (nf2_version g) (nf2_cpci_version g) (nf2_cpci_revision g) (have_version_info g)
    (virtex_programmed g) (nf2_proj_name_v1 g) (nf2_proj_dir g) (nf2_proj_name g) (nf2_proj_desc
    g) (nf2device_info g) v (prev_dev g) (nf2_device_id g) (nf2_revision g) (nf2_device_str g).
Definition set_prev_dev (v : nf2device) (g : dev_info) : dev_info :=
  mk_dev_info (cpci_version g) (cpci_revision g) (nf2_dev_id_module_version g) (nf2device_id g)
    (nf2_version g) (nf2_cpci_version g) (nf2_cpci_revision g) (have_version_info g)
    (virtex_programmed g) (nf2_proj_name_v1 g) (nf2_proj_dir g) (nf2_proj_name g) (nf2_proj_desc
    g) (nf2device_info g) (nf2_version_err g) v (nf2_device_id g) (nf2_revision g)
    (nf2_device_str g).
Definition set_nf2_device_id (v : Z) (g : dev_info) : dev_info :=
  mk_dev_info (cpci_version g) (cpci_revision g) (nf2_dev_id_module_version g) (nf2device_id g)
    (nf2_version g) (nf2_cpci_version g) (nf2_cpci_revision g) (have_version_info g)
    (virtex_programmed g) (nf2_proj_name_v1 g) (nf2_proj_dir g) (nf2_proj_name g) (nf2_proj_desc
    g) (nf2device_info g) (nf2_version_err g) (prev_dev g) v (nf2_revision g) (nf2_device_str g).
Definition set_nf2_revision (v : Z) (g : dev_info) : dev_info :=
  mk_dev_info (cpci_version g) (cpci_revision g) (nf2_dev_id_module_version g) (nf2device_id g)
    (nf2_version g) (nf2_cpci_version g) (nf2_cpci_revision g) (have_version_info g)
    (virtex_programmed g) (nf2_proj_name_v1 g) (nf2_proj_dir g) (nf2_proj_name g) (nf2_proj_desc
    g) (nf2device_info g) (nf2_version_err g) (prev_dev g) (nf2_device_id g) v (nf2_device_str
    g).
Definition set_nf2_device_str (v : bytes) (g : dev_info) : dev_info :=
  mk_dev_info (cpci_version g) (cpci_revision g) (nf2_dev_id_module_version g) (nf2device_id g)
    (nf2_version g) (nf2_cpci_version g) (nf2_cpci_revision g) (have_version_info g)
    (virtex_programmed g) (nf2_proj_name_v1 g) (nf2_proj_dir g) (nf2_proj_name g) (nf2_proj_desc
    g) (nf2device_info g) (nf2_version_err g) (prev_dev g) (nf2_device_id g) (nf2_revision g) v.

(** Their initial values; [prev_dev] is zeroed, its name a null pointer. *)
Definition init_info : dev_info :=
  mk_dev_info none32 none32 none32 none32 none32 none32 none32 false false
    (calloc DEV_ID_PROJ_NAME_BYTE_LEN_V1) (calloc DEV_ID_PROJ_DIR_BYTE_LEN)
    (calloc DEV_ID_PROJ_NAME_BYTE_LEN) (calloc DEV_ID_PROJ_DESC_BYTE_LEN) "" ""
    (mk_nf2device "" 0 0 "" 0) none32 none32 (calloc DEVICE_STR_LEN).

(** A function of the library runs on its globals and on the world. *)
Notation lib W A := (host (dev_info * W) A).

Definition world {W A} (m : host W A) : lib W A := fun s =>
  let '(r, w) := m s.2 in (r, (s.1, w)).
Definition glob {W A} (f : dev_info -> A) : lib W A := ask (fun s => f s.1).
Definition setg {W} (f : dev_info -> dev_info) : lib W unit := change (fun s => (f s.1, s.2)).

(** [sprintf] into a buffer of [size] bytes. *)
Definition sprintf {W} (size : nat) (s : string) : host W string :=
  if (String.length s <? size)%nat then mret s else halted HOverrun.

Section Lib.
Context {W : Type} `{RegLib W} `{!Stack W}.

(** ** Reading the card *)

(** The loop of [readStr] and of [read_info], [n] words from word [i] on: a
    register is read into the buffer and its bytes are swapped there. *)
Fixpoint read_words (n i : nat) (nf2 : nf2device) (regStart : Z) (dst : bytes) : host W bytes :=
  match n with
  | O => mret dst
  | S n' =>
      match get32 dst (4 * i) with
      | None => halted HOverrun
      | Some cur =>
          r ← readReg nf2 (regStart + Z.of_nat i * 4) cur;
          match put32 dst (4 * i) (ntohl r.2) with
          | None => halted HOverrun
          | Some dst => read_words n' (S i) nf2 regStart dst
          end
      end
  end.

Definition store {A} (o : option A) : host W A :=
  match o with Some a => mret a | None => halted HOverrun end.

Definition readStr (nf2 : nf2device) (regStart : Z) (len : nat) (dst : bytes) : host W bytes :=
  dst ← read_words (len / 4) 0 nf2 regStart dst;
  store (put8 dst (len / 4 * 4 - 1) 0).

Definition isVirtexProgrammed (nf2 : nf2device) : host W bool :=
  v ← ask junk;
  r ← readReg nf2 CPCI_REPROG_STATUS_REG v;
  mret (negb (Z.land r.2 0x100 =? 0)).

(** The first version of the reader, which only looks at the old block. *)
Definition read_info (nf2 : nf2device) : lib W unit :=
  g ← glob id;
  a ← world (readReg nf2 NF2_DEVICE_ID (nf2_device_id g));
  setg (set_nf2_device_id a.2);;
  b ← world (readReg nf2 NF2_REVISION (nf2_revision g));
  setg (set_nf2_revision b.2);;
  s ← world (read_words (DEVICE_STR_LEN / 4 - 2) 0 nf2 NF2_DEVICE_STR (nf2_device_str g));
  s ← world (store (put8 s (DEVICE_STR_LEN - 1) 0));
  setg (set_nf2_device_str s).

(** [nf2_read_info], "Clear the Virtex-related variables" *)
Definition clear_virtex (g : dev_info) : dev_info :=
  set_nf2_proj_desc (<[0%nat := 0]> (nf2_proj_desc g))
  (set_nf2_proj_name (<[0%nat := 0]> (nf2_proj_name g))
  (set_nf2_proj_dir (<[0%nat := 0]> (nf2_proj_dir g))
  (set_nf2_proj_name_v1 (<[0%nat := 0]> (nf2_proj_name_v1 g))
  (set_nf2_cpci_revision none32 (set_nf2_cpci_version none32 (set_nf2_version none32
  (set_nf2device_id none32 (set_nf2_dev_id_module_version none32 g)))))))).

(** The loop over the words of the checksum; a word that cannot be read keeps
    what the stack holds. *)
Fixpoint read_md5 (n i : nat) (nf2 : nf2device) : host W (list Z) :=
  match n with
  | O => mret []
  | S n' =>
      v ← ask junk;
      r ← readReg nf2 (DEV_ID_MD5_0_REG + Z.of_nat i * 4) v;
      md5 ← read_md5 n' (S i) nf2;
      mret (r.2 :: md5)
  end.

(** The parts of [nf2_read_info]: the identification of a good block, and the
    strings of its first and second version. *)
Definition read_ids (nf2 : nf2device) : lib W unit :=
  g ← glob id;
  a ← world (readReg nf2 DEV_ID_DEVICE_ID_REG (nf2device_id g));
  setg (set_nf2device_id a.2);;
  b ← world (readReg nf2 DEV_ID_VERSION_REG (nf2_version g));
  setg (set_nf2_version b.2);;
  v ← world (ask junk);
  c ← world (readReg nf2 DEV_ID_CPCI_ID_REG v);
  setg (fun g => set_nf2_cpci_revision (Z.shiftr c.2 24)
         (set_nf2_cpci_version (Z.land c.2 0xffffff) g)).

Definition read_strings_v1 (nf2 : nf2device) : lib W unit :=
  setg (set_nf2_dev_id_module_version 1);;
  g ← glob id;
  s ← world (readStr nf2 DEV_ID_PROJ_DIR_0_REG DEV_ID_PROJ_NAME_BYTE_LEN_V1 (nf2_proj_name_v1 g));
  setg (set_nf2_proj_name_v1 s).

Definition read_strings_v2 (nf2 : nf2device) : lib W unit :=
  setg (set_nf2_dev_id_module_version 2);;
  g ← glob id;
  s ← world (readStr nf2 DEV_ID_PROJ_DIR_0_REG DEV_ID_PROJ_DIR_BYTE_LEN (nf2_proj_dir g));
  setg (set_nf2_proj_dir s);;
  s ← world (readStr nf2 DEV_ID_PROJ_NAME_0_REG DEV_ID_PROJ_NAME_BYTE_LEN (nf2_proj_name g));
  setg (set_nf2_proj_name s);;
  s ← world (readStr nf2 DEV_ID_PROJ_DESC_0_REG DEV_ID_PROJ_DESC_BYTE_LEN (nf2_proj_desc g));
  setg (set_nf2_proj_desc s).

Definition nf2_read_info (nf2 : nf2device) : lib W unit :=
  setg (set_prev_dev nf2);;
  v ← world (ask junk);
  cpci_id ← world (readReg nf2 CPCI_ID_REG v);
  setg (fun g => set_have_version_info true
         (set_cpci_revision (Z.shiftr cpci_id.2 24)
         (set_cpci_version (Z.land cpci_id.2 0xffffff) g)));;
  p ← world (isVirtexProgrammed nf2);
  setg (set_virtex_programmed p);;
  setg clear_virtex;;
  md5 ← world (read_md5 MD5_LEN 0 nf2);
  let md5_good_v1 := bool_decide (md5 = DEV_ID_MD5_VALUE_V1) in
  let md5_good_v2 := bool_decide (md5 = DEV_ID_MD5_VALUE_V2) in
  (if md5_good_v1 || md5_good_v2 then read_ids nf2 else mret tt);;
  (if md5_good_v1 then read_strings_v1 nf2 else mret tt);;
  (if md5_good_v2 then read_strings_v2 nf2 else mret tt).

(** ** What has been read *)

Definition prepDeviceInfo (nf2 : nf2device) : lib W unit :=
  g ← glob id;
  if negb (have_version_info g) || negb (dev_fd (prev_dev g) =? dev_fd nf2)
  then nf2_read_info nf2 else mret tt.

(** The getters: the information is read if need be, then returned. *)
Definition prepared {A} (nf2 : nf2device) (f : dev_info -> A) : lib W A :=
  prepDeviceInfo nf2;; glob f.

Definition getCPCIVersion (nf2 : nf2device) : lib W Z := prepared nf2 cpci_version.
Definition getCPCIRevision (nf2 : nf2device) : lib W Z := prepared nf2 cpci_revision.
Definition getDeviceID (nf2 : nf2device) : lib W Z := prepared nf2 nf2device_id.
Definition getDeviceCPCIVersion (nf2 : nf2device) : lib W Z := prepared nf2 nf2_cpci_version.
Definition getDeviceCPCIRevision (nf2 : nf2device) : lib W Z := prepared nf2 nf2_cpci_revision.
Definition getDeviceIDModuleVersion (nf2 : nf2device) : lib W Z :=
  prepared nf2 nf2_dev_id_module_version.

Definition getDeviceMajor (nf2 : nf2device) : lib W Z :=
  prepared nf2 (fun g => if 1 <? nf2_dev_id_module_version g
                         then Z.land (Z.shiftr (nf2_version g) 16) 0xff else nf2_version g).
Definition getDeviceMinor (nf2 : nf2device) : lib W Z :=
  prepared nf2 (fun g => if 1 <? nf2_dev_id_module_version g
                         then Z.land (Z.shiftr (nf2_version g) 8) 0xff else 0).
Definition getDeviceRevision (nf2 : nf2device) : lib W Z :=
  prepared nf2 (fun g => if 1 <? nf2_dev_id_module_version g
                         then Z.land (Z.shiftr (nf2_version g) 0) 0xff else 0).

Definition getProjDir (nf2 : nf2device) : lib W string :=
  prepDeviceInfo nf2;;
  g ← glob id;
  if nf2_dev_id_module_version g =? 2 then cstr (nf2_proj_dir g) else mret PROJ_UNKNOWN.

Definition getProjName (nf2 : nf2device) : lib W string :=
  prepDeviceInfo nf2;;
  g ← glob id;
  if nf2_dev_id_module_version g =? 2 then cstr (nf2_proj_name g)
  else if nf2_dev_id_module_version g =? 1 then cstr (nf2_proj_name_v1 g)
  else mret PROJ_UNKNOWN.

Definition getProjDesc (nf2 : nf2device) : lib W string :=
  prepDeviceInfo nf2;;
  g ← glob id;
  if nf2_dev_id_module_version g =? 2 then cstr (nf2_proj_desc g) else mret PROJ_UNKNOWN.

(** ** The information as text *)

Definition cpci_text (version revision : Z) : string :=
  "CPCI Information" +:+ nl +:+ "----------------" +:+ nl +:+
  "Version: " +:+ fmt_d version +:+ " (rev " +:+ fmt_d revision +:+ ")" +:+ nl.

Definition device_heading : string :=
  "Device (Virtex) Information" +:+ nl +:+ "---------------------------" +:+ nl.

Definition built_text (version revision : Z) : string :=
  "Built against CPCI version: " +:+ fmt_d version +:+ " (rev " +:+ fmt_d revision +:+ ")" +:+ nl.

Definition device_text_v2 (nf2 : nf2device) : lib W string :=
  dir ← getProjDir nf2; name ← getProjName nf2; desc ← getProjDesc nf2; id ← getDeviceID nf2;
  major ← getDeviceMajor nf2; minor ← getDeviceMinor nf2; rev ← getDeviceRevision nf2;
  cv ← getDeviceCPCIVersion nf2; cr ← getDeviceCPCIRevision nf2;
  mret (device_heading +:+ "Project directory: " +:+ dir +:+ nl +:+
        "Project name: " +:+ name +:+ nl +:+ "Project description: " +:+ desc +:+ nl +:+ nl +:+
        "Device ID: " +:+ fmt_d id +:+ nl +:+
        "Version: " +:+ fmt_d major +:+ "." +:+ fmt_d minor +:+ "." +:+ fmt_d rev +:+ nl +:+
        built_text cv cr).

Definition device_text_v1 (nf2 : nf2device) : lib W string :=
  name ← getProjName nf2; id ← getDeviceID nf2; major ← getDeviceMajor nf2;
  cv ← getDeviceCPCIVersion nf2; cr ← getDeviceCPCIRevision nf2;
  mret (device_heading +:+ "Project name: " +:+ name +:+ nl +:+ nl +:+
        "Device ID: " +:+ fmt_d id +:+ nl +:+ "Version: " +:+ fmt_d major +:+ nl +:+
        built_text cv cr).

Definition getDeviceInfoStr (nf2 : nf2device) : lib W string :=
  prepDeviceInfo nf2;;
  version ← getCPCIVersion nf2; revision ← getCPCIRevision nf2;
  let cpciVersionStr := snprintf MAX_STR_LEN (cpci_text version revision) in
  g ← glob id;
  text ← (if virtex_programmed g then
            m ← getDeviceIDModuleVersion nf2;
            if negb (m =? none32) then
              if m =? 2 then device_text_v2 nf2
              else if m =? 1 then device_text_v1 nf2
              else mret ("Uknown Device ID Module verions: " +:+ fmt_d m +:+ nl)
            else mret (device_heading +:+ "Device info not found" +:+ nl)
          else mret (device_heading +:+ "Device not programmed" +:+ nl));
  let deviceVersionStr := snprintf MAX_STR_LEN text in
  let info := snprintf DEVICE_INFO_STR_LEN (cpciVersionStr +:+ nl +:+ deviceVersionStr +:+ nl) in
  setg (set_nf2device_info info);;
  mret info.

(** ** The check of the bitfile *)

(** [sprintf(nf2_version_err, ...)] *)
Definition version_err (s : string) : lib W unit :=
  s ← sprintf DEVICE_INFO_STR_LEN s; setg (set_nf2_version_err s).

Record version := mk_version { v_major : Z; v_minor : Z; v_rev : Z }.

#[export] Instance version_eq_dec : EqDecision version.
Proof. solve_decision. Defined.

Definition or_any (d v : Z) : Z := if negb (v =? VERSION_ANY) then v else d.

(** The computation of [minVer] and [maxVer], [d] standing for a wildcard. *)
Definition pack_version (d : Z) (v : version) : Z :=
  int32 (int32 (int32 (int32 (or_any d (v_major v)) * 2 ^ 8 + or_any d (v_minor v)) * 2 ^ 8)
         + or_any d (v_rev v)).

Definition version_str (v : version) : string :=
  if negb (v_rev v =? VERSION_ANY) then
    fmt_d (u32 (v_major v)) +:+ "." +:+ fmt_d (u32 (v_minor v)) +:+ "." +:+ fmt_d (u32 (v_rev v))
  else if negb (v_minor v =? VERSION_ANY) then
    fmt_d (u32 (v_major v)) +:+ "." +:+ fmt_d (u32 (v_minor v)) +:+ ".x"
  else if negb (v_major v =? VERSION_ANY) then fmt_d (u32 (v_major v)) +:+ ".x.x"
  else "x.x.x".

Definition has_part (v : version) : bool :=
  negb (v_major v =? VERSION_ANY) || negb (v_minor v =? VERSION_ANY)
  || negb (v_rev v =? VERSION_ANY).

(** The error of a version out of bounds. *)
Definition out_of_bounds (nf2 : nf2device) (projDir virtexProjName : string) (min max : version)
    : lib W unit :=
  let minMaxEqual := (v_major min =? v_major max) && (v_minor min =? v_minor max)
                     && (v_rev min =? v_rev max) in
  minStr ← sprintf MAX_VER_LEN (version_str min);
  maxStr ← sprintf MAX_VER_LEN (version_str max);
  a ← getDeviceMajor nf2; b ← getDeviceMinor nf2; c ← getDeviceRevision nf2;
  virtexVerStr ← sprintf MAX_VER_LEN (fmt_d a +:+ "." +:+ fmt_d b +:+ "." +:+ fmt_d c);
  version_err ("Error: Incorrect version for bitfile: '" +:+ projDir +:+ "' (" +:+ virtexProjName
    +:+ ").  Expecting: " +:+
    (if minMaxEqual then minStr
     else if has_part min && has_part max then minStr +:+ " -- " +:+ maxStr
     else if has_part min then "> " +:+ minStr
     else "< " +:+ maxStr)
    +:+ "   Active: " +:+ virtexVerStr).

Definition checkVirtexBitfile (nf2 : nf2device) (projDir : string) (min max : version) : lib W Z :=
  prepDeviceInfo nf2;;
  g ← glob id;
  if negb (virtex_programmed g) then version_err "Error: Virtex is not programmed";; mret 0
  else
    let minVer := pack_version 0 min in
    let maxVer := pack_version 255 max in
    a ← getDeviceMajor nf2; b ← getDeviceMinor nf2; c ← getDeviceRevision nf2;
    let virtexVer := int32 (Z.lor (Z.lor (Z.shiftl a 16) (Z.shiftl b 8)) c) in
    g ← glob id;
    names ← (if 2 <=? nf2_dev_id_module_version g then
               d ← getProjDir nf2; n ← getProjName nf2; mret (d, n)
             else n ← getProjName nf2; mret (n, PROJ_UNKNOWN));
    let '(virtexProjDir, virtexProjName) := (names : string * string) in
    if negb (strcmp_eq virtexProjDir projDir) then
      version_err ("Error: Incorrect bitfile loaded. Found '" +:+ virtexProjDir +:+ "' (" +:+
        virtexProjName +:+ "), expecting: '" +:+ projDir +:+ "'");;
      mret 0
    else if (virtexVer <? minVer) || (maxVer <? virtexVer) then
      out_of_bounds nf2 projDir virtexProjName min max;; mret 0
    else version_err "GOOD";; mret 1.

Definition getVirtexBitfileErr : lib W string := glob nf2_version_err.

End Lib.

(** ** Lemmas: words in a buffer *)

(** The bytes a register leaves in a string buffer, high byte first. *)
Definition be_word (v : Z) : bytes := word_bytes (ntohl v).

Definition reg_bytes (regs : Z -> Z) (start : Z) (i n : nat) : bytes :=
  concat ((fun j => be_word (regs (start + Z.of_nat j * 4))) <$> seq i n).

Lemma length_be_word v : length (be_word v) = 4%nat.
Proof. done. Qed.

Lemma length_reg_bytes regs start i n : length (reg_bytes regs start i n) = (4 * n)%nat.
Proof.
  revert i. induction n as [|n IH]; intros i; [done|].
  unfold reg_bytes in *. cbn [seq fmap list_fmap concat]. rewrite length_app, IH. simpl length. lia.
Qed.

(** ** Lemmas: lengths of formatted text *)

(** A part of a version, or a wildcard. *)
Lemma fmt_d_part x : x = -1 \/ 0 <= x < 10 ^ 5 -> (String.length (fmt_d (u32 x)) <= 5)%nat.
Proof.
  intros [->|Hx]; [vm_compute; lia|]. unfold fmt_d. rewrite u32_id by (unfold is_u32; lia).
  assert (x <? 2 ^ 31 = true) as -> by (apply Z.ltb_lt; lia). apply pretty_length; [lia|exact Hx].
Qed.

Lemma sprintf_fits {W} n t (w : W) : (String.length t < n)%nat -> sprintf n t w = (inr t, w).
Proof. intros Ht. unfold sprintf. by apply Nat.ltb_lt in Ht as ->. Qed.

Lemma version_err_fits {W} t g (w : W) : (String.length t < 1024)%nat ->
  version_err t (g, w) = (inr tt, (set_nf2_version_err t g, w)).
Proof.
  intros Ht. unfold version_err. by erewrite host_bind_done by (by apply sprintf_fits).
Qed.

(** ** Lemmas: reading a card *)

Lemma world_returns {W A} (m : host W A) Q (g : dev_info) w :
  returns m (fun a w' => Q a (g, w')) w -> returns (world m) Q (g, w).
Proof. unfold returns, world. simpl. by destruct (m w) as [[h|a] w1]. Qed.

Lemma glob_eq {W A} (f : dev_info -> A) g (w : W) : glob f (g, w) = (inr (f g), (g, w)).
Proof. done. Qed.

Lemma setg_eq {W} f g (w : W) : setg f (g, w) = (inr tt, (f g, w)).
Proof. done. Qed.

(** The registers the library reads. *)
Definition device_reg (a : Z) : Prop :=
  a = CPCI_ID_REG \/ a = CPCI_REPROG_STATUS_REG \/ 0x400000 <= a < 0x400100.

Section Quiet.
Context {W C : Type} `{RegLib W} `{!Stack W} `{RegCard C} {card : W -> C}.
Context {ready : nf2device -> W -> Prop} `{!RegLaws card ready}.

(** A card whose information registers hold [regs], whatever is read. *)
Variables (nf2 : nf2device) (regs : Z -> Z) (quiet : C -> Prop).
Hypothesis quiet_read : forall a c, quiet c -> device_reg a ->
  mapped a /\ (reg_read a c).1 = regs a /\ quiet (reg_read a c).2.
Hypothesis regs_u32 : forall a, is_u32 (regs a).

(** The device is open, on such a card. *)
Definition on_quiet (w : W) : Prop := ready nf2 w /\ quiet (card w).

Lemma read_quiet a cur w Q : on_quiet w -> device_reg a ->
  (forall w', on_quiet w' -> Q (0, regs a) w') -> returns (readReg nf2 a cur) Q w.
Proof.
  intros [Hw Hc] Ha HQ. destruct (quiet_read a _ Hc Ha) as (Hm & Hv & Hp).
  eapply returns_mono; [by apply readReg_law|]. intros r w' (-> & Ec & Hr). rewrite Hv.
  apply HQ. split; [done|]. by rewrite Ec.
Qed.

Lemma read_words_quiet n i start pre dst w Q : on_quiet w ->
  length pre = (4 * i)%nat -> (4 * n <= length dst)%nat ->
  (forall j, (j < i + n)%nat -> device_reg (start + Z.of_nat j * 4)) ->
  (forall w', on_quiet w' -> Q (pre ++ reg_bytes regs start i n ++ drop (4 * n) dst) w') ->
  returns (read_words n i nf2 start (pre ++ dst)) Q w.
Proof.
  revert i pre dst w. induction n as [|n IH]; intros i pre dst w Hw Hpre Hd Hr HQ.
  - by apply HQ.
  - destruct dst as [|a [|b [|c [|d dst]]]]; try (simpl in Hd; lia).
    cbn [read_words]. rewrite <-Hpre, get32_app.
    apply returns_seq, (read_quiet _ _ _ _ Hw); [apply Hr; lia|]. intros w1 Hw1. cbn [snd].
    rewrite put32_app, app_assoc.
    apply IH; [done|rewrite length_app, Hpre; simpl; lia|simpl in Hd; lia|intros j Hj; apply Hr; lia|].
    intros w2 Hw2. specialize (HQ w2 Hw2).
    replace (drop (4 * S n) (a :: b :: c :: d :: dst)) with (drop (4 * n) dst) in HQ
      by (replace (4 * S n)%nat with (S (S (S (S (4 * n))))) by lia; done).
    unfold reg_bytes in *. cbn [seq fmap list_fmap concat] in HQ. by rewrite <-!app_assoc in *.
Qed.

(** The string of [4 * n] bytes of registers: [readStr] ends it with its last
    byte. *)
Definition reg_text (start : Z) (n : nat) : bytes :=
  take (4 * n - 1) (reg_bytes regs start 0 n) ++ [0].

Definition reg_string (start : Z) (n : nat) : string := default ""%string (cstring (reg_text start n)).

Lemma readStr_quiet len start dst w Q n : on_quiet w -> len = (4 * S n)%nat -> length dst = len ->
  (forall j, (j < S n)%nat -> device_reg (start + Z.of_nat j * 4)) ->
  (forall w', on_quiet w' -> Q (reg_text start (S n)) w') ->
  returns (readStr nf2 start len dst) Q w.
Proof.
  intros Hw -> Hd Hr HQ. unfold readStr.
  assert (4 * S n / 4 = S n)%nat as -> by (rewrite Nat.mul_comm; apply Nat.div_mul; lia).
  apply returns_seq, (read_words_quiet (S n) 0 start [] dst); [done|done|lia|intros; apply Hr; lia|].
  intros w1 Hw1. rewrite drop_ge, app_nil_r by lia. cbn [app].
  set (b := reg_bytes regs start 0 (S n)).
  assert (length b = 4 * S n)%nat as Hb by apply length_reg_bytes.
  assert (b = take (4 * S n - 1) b ++ [default 0 (b !! (4 * S n - 1)%nat)]) as Eb.
  { rewrite <-(take_drop (4 * S n - 1) b) at 1. f_equal.
    destruct (lookup_lt_is_Some_2 b (4 * S n - 1) ltac:(lia)) as [x Hx]. rewrite Hx.
    apply list_eq. intros k. rewrite lookup_drop. destruct k as [|k].
    - by rewrite Nat.add_0_r, Hx.
    - rewrite lookup_ge_None_2 by lia. done. }
  replace (S n * 4 - 1)%nat with (length (take (4 * S n - 1) b)) by (rewrite length_take; lia).
  assert (put8 b (length (take (4 * S n - 1) b)) 0 = Some (reg_text start (S n))) as ->
    by (rewrite Eb at 1; apply put8_app).
  eapply returns_done; [done|]. by apply HQ.
Qed.

Lemma read_md5_quiet n i w Q : on_quiet w -> (i + n <= 4)%nat ->
  (forall w', on_quiet w' -> Q ((fun j => regs (DEV_ID_MD5_0_REG + Z.of_nat j * 4)) <$> seq i n) w') ->
  returns (read_md5 n i nf2) Q w.
Proof.
  revert i w Q. induction n as [|n IH]; intros i w Q Hw Hi HQ; [by apply HQ|].
  cbn [read_md5]. apply returns_seq. eapply returns_done; [reflexivity|].
  apply returns_seq, (read_quiet _ _ _ _ Hw).
  { right. right. unfold DEV_ID_MD5_0_REG. lia. }
  intros w1 Hw1. apply returns_seq, (IH (S i)); [done|lia|]. intros w2 Hw2. by apply HQ.
Qed.

(** ** The information of the card *)

Definition programmed : bool := negb (Z.land (regs CPCI_REPROG_STATUS_REG) 0x100 =? 0).

(** The version of the device block, by its checksum. *)
Definition block_version : Z :=
  let md5 := (fun j => regs (DEV_ID_MD5_0_REG + Z.of_nat j * 4)) <$> seq 0 4 in
  if bool_decide (md5 = DEV_ID_MD5_VALUE_V1) then 1
  else if bool_decide (md5 = DEV_ID_MD5_VALUE_V2) then 2 else none32.

Definition known (x : Z) : Z := if block_version =? none32 then none32 else x.

(** What the globals say after a card with these registers was read. *)
Record read_from (g : dev_info) : Prop := {
  rf_have : have_version_info g = true;
  rf_dev : prev_dev g = nf2;
  rf_cpci : cpci_version g = regs CPCI_ID_REG mod 2 ^ 24 /\ cpci_revision g = regs CPCI_ID_REG / 2 ^ 24;
  rf_programmed : virtex_programmed g = programmed;
  rf_module : nf2_dev_id_module_version g = block_version;
  rf_id : nf2device_id g = known (regs DEV_ID_DEVICE_ID_REG);
  rf_version : nf2_version g = known (regs DEV_ID_VERSION_REG);
  rf_built : nf2_cpci_version g = known (regs DEV_ID_CPCI_ID_REG mod 2 ^ 24) /\
             nf2_cpci_revision g = known (regs DEV_ID_CPCI_ID_REG / 2 ^ 24);
  rf_v1 : block_version = 1 -> nf2_proj_name_v1 g = reg_text DEV_ID_PROJ_DIR_0_REG 25;
  rf_v2 : block_version = 2 -> nf2_proj_dir g = reg_text DEV_ID_PROJ_DIR_0_REG 16 /\
          nf2_proj_name g = reg_text DEV_ID_PROJ_NAME_0_REG 16 /\
          nf2_proj_desc g = reg_text DEV_ID_PROJ_DESC_0_REG 25
}.

(** The buffers of the globals have their sizes. *)
Record sized (g : dev_info) : Prop := {
  sz_v1 : length (nf2_proj_name_v1 g) = DEV_ID_PROJ_NAME_BYTE_LEN_V1;
  sz_dir : length (nf2_proj_dir g) = DEV_ID_PROJ_DIR_BYTE_LEN;
  sz_name : length (nf2_proj_name g) = DEV_ID_PROJ_NAME_BYTE_LEN;
  sz_desc : length (nf2_proj_desc g) = DEV_ID_PROJ_DESC_BYTE_LEN
}.

Lemma land_low x : Z.land x 0xffffff = x mod 2 ^ 24.
Proof. change 0xffffff with (Z.ones 24). by rewrite Z.land_ones. Qed.

(** The steps over the globals. *)
Ltac gstep :=
  apply returns_seq; eapply returns_done; [(apply setg_eq || apply glob_eq || reflexivity)|].

Lemma read_ids_quiet g w Q : on_quiet w ->
  (forall w', on_quiet w' -> Q tt (set_nf2_cpci_revision (regs DEV_ID_CPCI_ID_REG / 2 ^ 24)
    (set_nf2_cpci_version (regs DEV_ID_CPCI_ID_REG mod 2 ^ 24)
    (set_nf2_version (regs DEV_ID_VERSION_REG)
    (set_nf2device_id (regs DEV_ID_DEVICE_ID_REG) g))), w')) ->
  returns (read_ids nf2) Q (g, w).
Proof.
  intros Hw HQ. unfold read_ids. gstep.
  apply returns_seq, world_returns, (read_quiet _ _ _ _ Hw);
    [right; right; unfold DEV_ID_DEVICE_ID_REG; lia|]. intros w1 Hw1. gstep.
  apply returns_seq, world_returns, (read_quiet _ _ _ _ Hw1);
    [right; right; unfold DEV_ID_VERSION_REG; lia|]. intros w2 Hw2. gstep. gstep.
  apply returns_seq, world_returns, (read_quiet _ _ _ _ Hw2);
    [right; right; unfold DEV_ID_CPCI_ID_REG; lia|]. intros w3 Hw3.
  eapply returns_done; [apply setg_eq|]. cbn [snd]. rewrite land_low, Z.shiftr_div_pow2 by lia.
  by apply HQ.
Qed.

Lemma read_strings_v1_quiet g w Q : on_quiet w -> sized g ->
  (forall w', on_quiet w' -> Q tt (set_nf2_proj_name_v1 (reg_text DEV_ID_PROJ_DIR_0_REG 25)
    (set_nf2_dev_id_module_version 1 g), w')) ->
  returns (read_strings_v1 nf2) Q (g, w).
Proof.
  intros Hw S HQ. unfold read_strings_v1. gstep. gstep.
  apply returns_seq, world_returns, (readStr_quiet _ _ _ _ _ 24 Hw); [done|apply S| |].
  { intros j Hj. right. right. unfold DEV_ID_PROJ_DIR_0_REG. lia. }
  intros w1 Hw1. eapply returns_done; [apply setg_eq|]. by apply HQ.
Qed.

Lemma read_strings_v2_quiet g w Q : on_quiet w -> sized g ->
  (forall w', on_quiet w' -> Q tt (set_nf2_proj_desc (reg_text DEV_ID_PROJ_DESC_0_REG 25)
    (set_nf2_proj_name (reg_text DEV_ID_PROJ_NAME_0_REG 16)
    (set_nf2_proj_dir (reg_text DEV_ID_PROJ_DIR_0_REG 16)
    (set_nf2_dev_id_module_version 2 g))), w')) ->
  returns (read_strings_v2 nf2) Q (g, w).
Proof.
  intros Hw S HQ. unfold read_strings_v2. gstep. gstep.
  apply returns_seq, world_returns, (readStr_quiet _ _ _ _ _ 15 Hw); [done|apply S| |].
  { intros j Hj. right. right. unfold DEV_ID_PROJ_DIR_0_REG. lia. }
  intros w1 Hw1. gstep.
  apply returns_seq, world_returns, (readStr_quiet _ _ _ _ _ 15 Hw1); [done|apply S| |].
  { intros j Hj. right. right. unfold DEV_ID_PROJ_NAME_0_REG. lia. }
  intros w2 Hw2. gstep.
  apply returns_seq, world_returns, (readStr_quiet _ _ _ _ _ 24 Hw2); [done|apply S| |].
  { intros j Hj. right. right. unfold DEV_ID_PROJ_DESC_0_REG. lia. }
  intros w3 Hw3. eapply returns_done; [apply setg_eq|]. by apply HQ.
Qed.

Ltac read_fields := first [reflexivity | (intros; discriminate) | (intros; split_and!; reflexivity)].

Lemma clear_virtex_sized g : sized g -> sized (clear_virtex g).
Proof. intros [? ? ? ?]. split; cbn; by rewrite length_insert. Qed.

Lemma sized_ids a b c d g : sized g ->
  sized (set_nf2_cpci_revision a (set_nf2_cpci_version b (set_nf2_version c (set_nf2device_id d g)))).
Proof. by intros []. Qed.

Lemma sized_cpci a b c d e g : sized g ->
  sized (set_virtex_programmed a (set_have_version_info b (set_cpci_revision c
    (set_cpci_version d (set_prev_dev e g))))).
Proof. by intros []. Qed.

Lemma nf2_read_info_quiet g w : on_quiet w -> sized g ->
  returns (nf2_read_info nf2) (fun _ s => read_from s.1 /\ on_quiet s.2) (g, w).
Proof.
  intros Hw S. unfold nf2_read_info. gstep. gstep.
  apply returns_seq, world_returns, (read_quiet _ _ _ _ Hw); [by left|]. intros w1 Hw1. gstep.
  apply returns_seq, world_returns. unfold isVirtexProgrammed. gstep.
  apply returns_seq, (read_quiet _ _ _ _ Hw1); [by right; left|]. intros w2 Hw2.
  eapply returns_done; [reflexivity|]. fold programmed. gstep. gstep.
  apply returns_seq, world_returns, read_md5_quiet; [done|unfold MD5_LEN; lia|]. intros w3 Hw3.
  unfold MD5_LEN. cbn [snd]. rewrite land_low, Z.shiftr_div_pow2 by lia.
  set (g3 := clear_virtex _).
  assert (sized g3) as S3 by (by apply clear_virtex_sized, sized_cpci).
  set (md5 := (fun j => regs _) <$> seq 0 4).
  assert (block_version = if bool_decide (md5 = DEV_ID_MD5_VALUE_V1) then 1
    else if bool_decide (md5 = DEV_ID_MD5_VALUE_V2) then 2 else none32) as Eb by done.
  clearbody md5. case_bool_decide as E1; [|case_bool_decide as E2].
  - rewrite bool_decide_false by (subst md5; done). cbn [orb].
    apply returns_seq, read_ids_quiet; [done|]. intros w4 Hw4.
    apply returns_seq, read_strings_v1_quiet; [done|by apply sized_ids|]. intros w5 Hw5.
    eapply returns_done; [done|]. split; [|done].
    split; unfold known; rewrite ?Eb; read_fields.
  - cbn [orb]. apply returns_seq, read_ids_quiet; [done|]. intros w4 Hw4. gstep.
    apply read_strings_v2_quiet; [done|by apply sized_ids|]. intros w5 Hw5. split; [|done].
    split; unfold known; rewrite ?Eb; read_fields.
  - cbn [orb]. gstep. gstep. eapply returns_done; [reflexivity|]. split; [|done].
    split; unfold known; rewrite ?Eb; read_fields.
Qed.

(** *** The checked bitfile *)

(** The name and the version the library takes from the card. A block it does
    not know has the version of the cleared globals, all ones. *)
Definition found_project : string :=
  if block_version =? 2 then reg_string DEV_ID_PROJ_DIR_0_REG 16
  else if block_version =? 1 then reg_string DEV_ID_PROJ_DIR_0_REG 25
  else PROJ_UNKNOWN.

Definition found_version : version :=
  let v := regs DEV_ID_VERSION_REG in
  if block_version =? 2 then mk_version (v / 2 ^ 16 mod 2 ^ 8) (v / 2 ^ 8 mod 2 ^ 8) (v mod 2 ^ 8)
  else if block_version =? 1 then mk_version v 0 0
  else mk_version 255 255 255.

(** Versions in the order of their parts. *)
Definition version_leb (a b : version) : bool :=
  (v_major a <? v_major b) || (v_major a =? v_major b) &&
  ((v_minor a <? v_minor b) || (v_minor a =? v_minor b) && (v_rev a <=? v_rev b)).

(** A bound with its wildcards replaced. *)
Definition bound (d : Z) (v : version) : version :=
  mk_version (or_any d (v_major v)) (or_any d (v_minor v)) (or_any d (v_rev v)).

Definition accepted (projDir : string) (min max : version) : bool :=
  programmed && strcmp_eq found_project projDir &&
  version_leb (bound 0 min) found_version && version_leb found_version (bound 255 max).

(** The bounds a caller gives: bytes and wildcards. *)
Definition part_ok (x : Z) : Prop := x = VERSION_ANY \/ 0 <= x <= 255.
Definition bounds_ok (v : version) : Prop :=
  part_ok (v_major v) /\ part_ok (v_minor v) /\ part_ok (v_rev v).

Lemma or_any_byte d x : 0 <= d <= 255 -> part_ok x -> 0 <= or_any d x <= 255.
Proof.
  unfold or_any, part_ok. intros Hd Hx. destruct (Z.eqb_spec x VERSION_ANY) as [|E]; simpl; [done|].
  destruct Hx; [done|lia].
Qed.

Definition packed (v : version) : Z := v_major v * 2 ^ 16 + v_minor v * 2 ^ 8 + v_rev v.

Lemma pack_version_bound d v : 0 <= d <= 255 -> bounds_ok v -> pack_version d v = packed (bound d v).
Proof.
  intros Hd (Ha & Hb & Hc). unfold pack_version, packed, bound. cbn [v_major v_minor v_rev].
  pose proof (or_any_byte d _ Hd Ha). pose proof (or_any_byte d _ Hd Hb).
  pose proof (or_any_byte d _ Hd Hc).
  rewrite (int32_id (or_any d (v_major v))), (int32_id (_ * _ + or_any d (v_minor v))) by lia.
  rewrite (int32_id (_ * 2 ^ 8)) by lia. rewrite int32_id by lia. lia.
Qed.

Lemma packed_leb a b :
  0 <= v_minor a <= 255 -> 0 <= v_rev a <= 255 -> 0 <= v_minor b <= 255 -> 0 <= v_rev b <= 255 ->
  (packed b <? packed a) = negb (version_leb a b).
Proof.
  intros. unfold packed, version_leb. apply eq_true_iff_eq.
  rewrite Z.ltb_lt, negb_true_iff, orb_false_iff, andb_false_iff, orb_false_iff, andb_false_iff.
  rewrite !Z.ltb_ge, !Z.eqb_neq, Z.leb_gt. lia.
Qed.

Lemma lor_low a b n : 0 <= n -> 0 <= b < 2 ^ n -> Z.lor (a * 2 ^ n) b = a * 2 ^ n + b.
Proof.
  intros Hn Hb. assert (Z.land (a * 2 ^ n) b = 0) as E.
  { apply Z.bits_inj'. intros m Hm. rewrite Z.land_spec, Z.bits_0.
    destruct (Z.ltb_spec m n) as [Hl|Hl].
    - by rewrite Z.mul_pow2_bits_low.
    - rewrite <-(Z.mod_small b (2 ^ n)), Z.mod_pow2_bits_high by lia. apply andb_false_r. }
  rewrite <-Z.lxor_lor by done. symmetry. by apply Z.add_nocarry_lxor.
Qed.

Lemma lor_version a b c : 0 <= b < 2 ^ 8 -> 0 <= c < 2 ^ 8 ->
  Z.lor (Z.lor (Z.shiftl a 16) (Z.shiftl b 8)) c = a * 2 ^ 16 + b * 2 ^ 8 + c.
Proof.
  intros Hb Hc. rewrite !Z.shiftl_mul_pow2 by lia.
  rewrite (lor_low a (b * 2 ^ 8) 16) by lia.
  replace (a * 2 ^ 16 + b * 2 ^ 8) with ((a * 2 ^ 8 + b) * 2 ^ 8) by lia.
  apply lor_low; lia.
Qed.

Lemma land_ff x : Z.land x 0xff = x mod 2 ^ 8.
Proof. change 0xff with (Z.ones 8). by rewrite Z.land_ones. Qed.

(** The getters on globals that were read from the card. *)
Lemma prepDeviceInfo_read g w : read_from g -> prepDeviceInfo nf2 (g, w) = (inr tt, (g, w)).
Proof.
  intros R. unfold prepDeviceInfo. erewrite host_bind_done by apply glob_eq.
  cbn [id]. by rewrite (rf_have _ R), (rf_dev _ R), Z.eqb_refl.
Qed.

Lemma prepared_read {A} (f : dev_info -> A) g w : read_from g ->
  prepared nf2 f (g, w) = (inr (f g), (g, w)).
Proof. intros R. unfold prepared. by erewrite host_bind_done by by apply prepDeviceInfo_read. Qed.

Lemma block_version_cases : block_version = 1 \/ block_version = 2 \/ block_version = none32.
Proof. unfold block_version. repeat case_bool_decide; auto. Qed.

Lemma getVersion_read g w : read_from g ->
  getDeviceMajor nf2 (g, w) = (inr (v_major found_version), (g, w)) /\
  getDeviceMinor nf2 (g, w) = (inr (v_minor found_version), (g, w)) /\
  getDeviceRevision nf2 (g, w) = (inr (v_rev found_version), (g, w)).
Proof.
  intros R. unfold getDeviceMajor, getDeviceMinor, getDeviceRevision.
  rewrite !prepared_read by done. rewrite (rf_module _ R), (rf_version _ R).
  unfold known, found_version. rewrite Z.shiftr_0_r, !land_ff, !Z.shiftr_div_pow2 by lia.
  by destruct block_version_cases as [-> | [-> | ->]].
Qed.

Lemma reg_string_read start n : cstring (reg_text start n) = Some (reg_string start n).
Proof.
  unfold reg_string, reg_text.
  by destruct (cstring_ends (take (4 * n - 1) (reg_bytes regs start 0 n)) []) as (t & -> & _).
Qed.

Lemma reg_string_length start n : (String.length (reg_string start n) <= 4 * n)%nat.
Proof.
  unfold reg_string, reg_text.
  destruct (cstring_ends (take (4 * n - 1) (reg_bytes regs start 0 n)) []) as (t & -> & _ & Hl).
  simpl. rewrite length_take in Hl. lia.
Qed.

Lemma getProjName_read g w : read_from g ->
  exists t, getProjName nf2 (g, w) = (inr t, (g, w)) /\ (String.length t <= 100)%nat /\
    (block_version <> 2 -> t = found_project).
Proof.
  intros R. unfold getProjName, found_project.
  erewrite host_bind_done by (by apply prepDeviceInfo_read).
  erewrite host_bind_done by apply glob_eq. cbn [id]. rewrite (rf_module _ R).
  destruct block_version_cases as [E | [E | E]]; rewrite E.
  - change (1 =? 2) with false. change (1 =? 1) with true. cbv iota.
    unfold cstr. rewrite (rf_v1 _ R E), reg_string_read. eexists. split; [done|].
    split; [apply (reg_string_length _ 25)|done].
  - change (2 =? 2) with true. cbv iota. destruct (rf_v2 _ R E) as (_ & -> & _).
    unfold cstr. rewrite reg_string_read. eexists. split; [done|].
    split; [etrans; [apply (reg_string_length _ 16)|lia]|]. by intros [].
  - eexists. split; [done|]. split; [simpl; lia|done].
Qed.

Lemma found_project_length : (String.length found_project <= 100)%nat.
Proof.
  unfold found_project. destruct (block_version =? 2); [etrans; [apply reg_string_length|lia]|].
  destruct (block_version =? 1); [apply reg_string_length|simpl; lia].
Qed.

(** The names [checkVirtexBitfile] compares and prints. *)
Lemma names_read g w : read_from g ->
  exists t, (if 2 <=? nf2_dev_id_module_version g then
               d ← getProjDir nf2; n ← getProjName nf2; mret (d, n)
             else n ← getProjName nf2; mret (n, PROJ_UNKNOWN)) (g, w)
            = (inr (found_project, t), (g, w)) /\ (String.length t <= 100)%nat.
Proof.
  intros R. destruct (getProjName_read g w R) as (n & En & Ln & Hn). rewrite (rf_module _ R).
  destruct block_version_cases as [E | [E | E]]; rewrite E in *.
  - change (2 <=? 1) with false. cbv iota. exists PROJ_UNKNOWN.
    rewrite (host_bind_done _ _ _ _ _ En). rewrite Hn by done. split; [done|simpl; lia].
  - change (2 <=? 2) with true. cbv iota. exists n. unfold getProjDir.
    erewrite host_bind_done.
    2: { erewrite host_bind_done by (by apply prepDeviceInfo_read).
         erewrite host_bind_done by apply glob_eq. cbn [id]. rewrite (rf_module _ R), E.
         change (2 =? 2) with true. cbv iota. destruct (rf_v2 _ R E) as (-> & _ & _).
         unfold cstr. rewrite reg_string_read. reflexivity. }
    rewrite (host_bind_done _ _ _ _ _ En). unfold found_project. by rewrite E.
  - change (2 <=? none32) with true. cbv iota. exists n. unfold getProjDir.
    erewrite host_bind_done.
    2: { erewrite host_bind_done by (by apply prepDeviceInfo_read).
         erewrite host_bind_done by apply glob_eq. cbn [id]. rewrite (rf_module _ R), E.
         change (none32 =? 2) with false. reflexivity. }
    rewrite (host_bind_done _ _ _ _ _ En). unfold found_project. by rewrite E.
Qed.

(** The known versions fit the comparison. *)
Hypothesis version_fits : block_version = 1 -> regs DEV_ID_VERSION_REG < 2 ^ 15.

Lemma found_version_parts :
  0 <= v_major found_version < 2 ^ 15 /\ 0 <= v_minor found_version <= 255 /\
  0 <= v_rev found_version <= 255.
Proof.
  unfold found_version. pose proof (regs_u32 DEV_ID_VERSION_REG) as Hu. unfold is_u32 in Hu.
  destruct block_version_cases as [E | [E | E]]; rewrite E.
  - change (1 =? 2) with false. change (1 =? 1) with true. cbn. specialize (version_fits E). lia.
  - change (2 =? 2) with true. cbn [v_major v_minor v_rev].
    pose proof (fun x => Z.mod_pos_bound x (2 ^ 8) eq_refl) as Hm.
    split_and!; try apply Hm; try (apply Z.lt_succ_r; apply Hm). etrans; [apply Hm|done].
  - change (none32 =? 2) with false. change (none32 =? 1) with false. cbn. lia.
Qed.

Lemma version_str_length v : bounds_ok v -> (String.length (version_str v) <= 17)%nat.
Proof.
  intros (Ha & Hb & Hc).
  assert (forall x, part_ok x -> (String.length (fmt_d (u32 x)) <= 5)%nat) as Hl
    by (intros x Hx; apply fmt_d_part; unfold part_ok, VERSION_ANY in Hx; lia).
  apply Hl in Ha, Hb, Hc. unfold version_str.
  repeat case_match; rewrite ?string_length_app; cbn [String.length]; lia.
Qed.

Lemma out_of_bounds_read projDir t min max g w : read_from g -> bounds_ok min -> bounds_ok max ->
  (String.length projDir <= 700)%nat -> (String.length t <= 100)%nat ->
  exists e, out_of_bounds nf2 projDir t min max (g, w) = (inr tt, (set_nf2_version_err e g, w)) /\
    e <> "GOOD"%string.
Proof.
  intros R Hmin Hmax Hp Ht. unfold out_of_bounds.
  pose proof (version_str_length _ Hmin) as L1. pose proof (version_str_length _ Hmax) as L2.
  destruct found_version_parts as (Ha & Hb & Hc).
  destruct (getVersion_read g w R) as (Ea & Eb & Ec).
  rewrite (host_bind_done _ _ _ _ _ (sprintf_fits MAX_VER_LEN _ _ ltac:(apply (Nat.le_lt_trans _ _ _ L1); unfold MAX_VER_LEN; lia))).
  rewrite (host_bind_done _ _ _ _ _ (sprintf_fits MAX_VER_LEN _ _ ltac:(apply (Nat.le_lt_trans _ _ _ L2); unfold MAX_VER_LEN; lia))).
  rewrite (host_bind_done _ _ _ _ _ Ea), (host_bind_done _ _ _ _ _ Eb), (host_bind_done _ _ _ _ _ Ec).
  assert (forall x, 0 <= x < 2 ^ 15 -> (String.length (fmt_d x) <= 5)%nat) as Hl.
  { intros x Hx. rewrite <-(u32_id x) by (unfold is_u32; lia). apply fmt_d_part. lia. }
  assert (String.length (fmt_d (v_major found_version) +:+ "." +:+ fmt_d (v_minor found_version) +:+ "."
            +:+ fmt_d (v_rev found_version)) <= 17)%nat as L3.
  { rewrite !string_length_app. pose proof (Hl _ Ha). pose proof (Hl (v_minor found_version) ltac:(lia)).
    pose proof (Hl (v_rev found_version) ltac:(lia)). cbn [String.length]. lia. }
  rewrite (host_bind_done _ _ _ _ _ (sprintf_fits MAX_VER_LEN _ _ ltac:(apply (Nat.le_lt_trans _ _ _ L3); unfold MAX_VER_LEN; lia))).
  eexists. rewrite version_err_fits; [split; [done|]|].
  - intros E. by apply (f_equal (String.get 0)) in E.
  - clear Ea Eb Ec. rewrite !string_length_app in *.
    repeat case_match; rewrite ?string_length_app; cbn [String.length] in *; lia.
Qed.

Lemma checkVirtexBitfile_read projDir min max g w : read_from g -> bounds_ok min -> bounds_ok max ->
  (String.length projDir <= 700)%nat ->
  exists e, checkVirtexBitfile nf2 projDir min max (g, w)
      = (inr (if accepted projDir min max then 1 else 0), (set_nf2_version_err e g, w)) /\
    (e = "GOOD"%string <-> accepted projDir min max = true).
Proof.
  intros R Hmin Hmax Hp. unfold checkVirtexBitfile, accepted.
  rewrite (host_bind_done _ _ _ _ _ (prepDeviceInfo_read g w R)).
  erewrite host_bind_done by apply glob_eq. cbn [id]. rewrite (rf_programmed _ R).
  destruct programmed; cbn [negb andb].
  2: { erewrite host_bind_done by (apply version_err_fits; simpl; lia). by eexists. }
  destruct (getVersion_read g w R) as (Ea & Eb & Ec).
  rewrite (host_bind_done _ _ _ _ _ Ea), (host_bind_done _ _ _ _ _ Eb), (host_bind_done _ _ _ _ _ Ec).
  erewrite host_bind_done by apply glob_eq. cbn [id].
  destruct (names_read g w R) as (t & En & Lt). rewrite (host_bind_done _ _ _ _ _ En).
  destruct (strcmp_eq found_project projDir); cbn [negb andb].
  2: { erewrite host_bind_done.
       2: { apply version_err_fits. pose proof found_project_length.
            rewrite !string_length_app. cbn [String.length]. lia. }
       eexists. split; [done|]. split; [|done]. intros E. by apply (f_equal (String.get 0)) in E. }
  destruct found_version_parts as (Ha & Hb & Hc).
  rewrite lor_version by (clear - Hb Hc; lia). fold (packed found_version).
  rewrite int32_id by (unfold packed; lia).
  rewrite !pack_version_bound by (done || lia).
  destruct Hmin as (? & ? & ?), Hmax as (? & ? & ?).
  rewrite !packed_leb by (done || (apply or_any_byte; done || lia)).
  destruct (version_leb (bound 0 min) found_version); cbn [negb orb andb];
    [destruct (version_leb found_version (bound 255 max)); cbn [negb]|].
  - erewrite host_bind_done by (apply version_err_fits; simpl; lia). by eexists.
  - destruct (out_of_bounds_read projDir t min max g w) as (e & Ee & Hne); [done..|].
    rewrite (host_bind_done _ _ _ _ _ Ee). eexists. split; [done|]. by split.
  - destruct (out_of_bounds_read projDir t min max g w) as (e & Ee & Hne); [done..|].
    rewrite (host_bind_done _ _ _ _ _ Ee). eexists. split; [done|]. by split.
Qed.

Lemma read_from_err e g : read_from g -> read_from (set_nf2_version_err e g).
Proof. by intros []. Qed.


(** What was read once through a descriptor is never read again: whatever the
    card holds by then, the check is about the card that was read. *)
Theorem checkVirtexBitfile_is_stale projDir min max g w0 :
  on_quiet w0 -> sized g -> have_version_info g = false -> bounds_ok min -> bounds_ok max ->
  (String.length projDir <= 700)%nat ->
  exists g1 w1, prepDeviceInfo nf2 (g, w0) = (inr tt, (g1, w1)) /\
    forall w, (checkVirtexBitfile nf2 projDir min max (g1, w)).1
              = inr (if accepted projDir min max then 1 else 0).
Proof.
  intros Hw S Hh Hmin Hmax Hp.
  destruct (returns_inv _ _ _ (nf2_read_info_quiet g w0 Hw S)) as ([] & [g1 w1] & E & R & H1).
  exists g1, w1. split.
  - unfold prepDeviceInfo. erewrite host_bind_done by apply glob_eq. cbn [id]. by rewrite Hh.
  - intros w. by destruct (checkVirtexBitfile_read projDir min max g1 w R Hmin Hmax Hp) as (e & -> & _).
Qed.

(** ** The text *)

Lemma fmt_d_length x : is_u32 x -> (String.length (fmt_d x) <= 11)%nat.
Proof.
  unfold is_u32, fmt_d. intros Hx. destruct (Z.ltb_spec x (2 ^ 31)) as [Hl|Hl].
  - etrans; [apply (pretty_length 10); lia|lia].
  - destruct (Z.eq_dec (x - 2 ^ 32) 0) as [->|Hn]; [simpl; lia|].
    destruct (x - 2 ^ 32) as [|q|q] eqn:E; [done|lia|].
    change (pretty (Z.neg q)) with ("-" +:+ pretty (Z.pos q)).
    rewrite string_length_app. pose proof (pretty_length 10 (Z.pos q)). simpl in *. lia.
Qed.

Lemma getProjDesc_read g w : read_from g -> block_version = 2 ->
  getProjDir nf2 (g, w) = (inr (reg_string DEV_ID_PROJ_DIR_0_REG 16), (g, w)) /\
  getProjName nf2 (g, w) = (inr (reg_string DEV_ID_PROJ_NAME_0_REG 16), (g, w)) /\
  getProjDesc nf2 (g, w) = (inr (reg_string DEV_ID_PROJ_DESC_0_REG 25), (g, w)).
Proof.
  intros R E. destruct (rf_v2 _ R E) as (E1 & E2 & E3).
  unfold getProjDir, getProjName, getProjDesc.
  rewrite !(host_bind_done _ _ _ _ _ (prepDeviceInfo_read g w R)).
  rewrite !(host_bind_done _ _ _ _ _ (glob_eq id g w)). cbn [id]. rewrite (rf_module _ R), E.
  change (2 =? 2) with true. cbv iota. unfold cstr. by rewrite E1, E2, E3, !reg_string_read.
Qed.

Lemma halves_u32 a : is_u32 (regs a mod 2 ^ 24) /\ is_u32 (regs a / 2 ^ 24).
Proof.
  pose proof (regs_u32 a) as Hu. unfold is_u32 in *. Z.div_mod_to_equations. lia.
Qed.

(** The part about the Virtex. *)
Definition device_text : string :=
  if programmed then
    device_heading +:+
    (if block_version =? none32 then "Device info not found" +:+ nl
     else
       (if block_version =? 2 then
          "Project directory: " +:+ reg_string DEV_ID_PROJ_DIR_0_REG 16 +:+ nl +:+
          "Project name: " +:+ reg_string DEV_ID_PROJ_NAME_0_REG 16 +:+ nl +:+
          "Project description: " +:+ reg_string DEV_ID_PROJ_DESC_0_REG 25 +:+ nl +:+ nl +:+
          "Device ID: " +:+ fmt_d (regs DEV_ID_DEVICE_ID_REG) +:+ nl +:+
          "Version: " +:+ fmt_d (v_major found_version) +:+ "." +:+
          fmt_d (v_minor found_version) +:+ "." +:+ fmt_d (v_rev found_version) +:+ nl
        else
          "Project name: " +:+ reg_string DEV_ID_PROJ_DIR_0_REG 25 +:+ nl +:+ nl +:+
          "Device ID: " +:+ fmt_d (regs DEV_ID_DEVICE_ID_REG) +:+ nl +:+
          "Version: " +:+ fmt_d (v_major found_version) +:+ nl) +:+
       built_text (regs DEV_ID_CPCI_ID_REG mod 2 ^ 24) (regs DEV_ID_CPCI_ID_REG / 2 ^ 24))
  else device_heading +:+ "Device not programmed" +:+ nl.

Lemma device_text_read g w : read_from g ->
  (if programmed then
     m ← getDeviceIDModuleVersion nf2;
     if negb (m =? none32) then
       if m =? 2 then device_text_v2 nf2
       else if m =? 1 then device_text_v1 nf2
       else mret ("Uknown Device ID Module verions: " +:+ fmt_d m +:+ nl)
     else mret (device_heading +:+ "Device info not found" +:+ nl)
   else mret (device_heading +:+ "Device not programmed" +:+ nl)) (g, w)
  = (inr device_text, (g, w)) /\ (String.length device_text <= 700)%nat.
Proof.
  intros R. pose proof (fun A f => @prepared_read A f g w R) as Pr.
  destruct (getVersion_read g w R) as (Ea & Eb & Ec), found_version_parts as (Va & Vb & Vc).
  destruct (halves_u32 DEV_ID_CPCI_ID_REG) as [Ha Hb].
  apply fmt_d_length in Ha, Hb. pose proof (fmt_d_length _ (regs_u32 DEV_ID_DEVICE_ID_REG)) as Hi.
  assert (forall x, 0 <= x < 2 ^ 15 -> (String.length (fmt_d x) <= 11)%nat) as Hl
    by (intros x Hx; apply fmt_d_length; unfold is_u32; lia).
  apply Hl in Va. pose proof (Hl (v_minor found_version) ltac:(lia)).
  pose proof (Hl (v_rev found_version) ltac:(lia)).
  unfold device_text, device_text_v2, device_text_v1, getDeviceIDModuleVersion, getDeviceID,
    getDeviceCPCIVersion, getDeviceCPCIRevision.
  destruct programmed; [|split; [done|unfold device_heading; vm_compute; lia]].
  rewrite !(host_bind_done _ _ _ _ _ (Pr _ _)), (rf_module _ R).
  destruct block_version_cases as [E | [E | E]]; rewrite E.
  - change (1 =? none32) with false. change (1 =? 2) with false. change (1 =? 1) with true.
    cbn [negb]. cbv iota. destruct (getProjName_read g w R) as (n & En & Ln & Hn).
    rewrite Hn in En by (rewrite E; done). unfold found_project in En. rewrite E in En.
    rewrite (host_bind_done _ _ _ _ _ En), !(host_bind_done _ _ _ _ _ (Pr _ _)),
      (host_bind_done _ _ _ _ _ Ea), !(host_bind_done _ _ _ _ _ (Pr _ _)).
    rewrite (rf_id _ R), (proj1 (rf_built _ R)), (proj2 (rf_built _ R)). unfold known. rewrite E.
    change (1 =? none32) with false. cbv iota. split; [by rewrite !str_app_assoc|].
    pose proof (reg_string_length DEV_ID_PROJ_DIR_0_REG 25).
    unfold device_heading, built_text, nl. rewrite !string_length_app. cbn [String.length]. lia.
  - change (2 =? none32) with false. change (2 =? 2) with true. cbn [negb]. cbv iota.
    destruct (getProjDesc_read g w R E) as (E1 & E2 & E3).
    rewrite (host_bind_done _ _ _ _ _ E1), (host_bind_done _ _ _ _ _ E2),
      (host_bind_done _ _ _ _ _ E3), !(host_bind_done _ _ _ _ _ (Pr _ _)),
      (host_bind_done _ _ _ _ _ Ea), (host_bind_done _ _ _ _ _ Eb), (host_bind_done _ _ _ _ _ Ec),
      !(host_bind_done _ _ _ _ _ (Pr _ _)).
    rewrite (rf_id _ R), (proj1 (rf_built _ R)), (proj2 (rf_built _ R)). unfold known. rewrite E.
    change (2 =? none32) with false. cbv iota. split; [by rewrite !str_app_assoc|].
    pose proof (reg_string_length DEV_ID_PROJ_DIR_0_REG 16).
    pose proof (reg_string_length DEV_ID_PROJ_NAME_0_REG 16).
    pose proof (reg_string_length DEV_ID_PROJ_DESC_0_REG 25).
    unfold device_heading, built_text, nl. rewrite !string_length_app. cbn [String.length]. lia.
  - change (none32 =? none32) with true. cbn [negb]. cbv iota.
    split; [done|unfold device_heading; vm_compute; lia].
Qed.

(** The description the library prints, in full. *)
Definition info_text : string :=
  cpci_text (regs CPCI_ID_REG mod 2 ^ 24) (regs CPCI_ID_REG / 2 ^ 24) +:+ nl +:+ device_text +:+ nl.

(** The description is never cut off, and is kept in the globals. *)
Theorem getDeviceInfoStr_correct g w : on_quiet w -> sized g -> have_version_info g = false ->
  returns (getDeviceInfoStr nf2)
    (fun t s => t = info_text /\ nf2device_info s.1 = info_text /\ on_quiet s.2) (g, w).
Proof.
  intros Hw S Hh.
  destruct (returns_inv _ _ _ (nf2_read_info_quiet g w Hw S)) as ([] & [g1 w1] & E & R & H1).
  cbn [fst snd] in R, H1.
  assert (prepDeviceInfo nf2 (g, w) = (inr tt, (g1, w1))) as Ep.
  { unfold prepDeviceInfo. erewrite host_bind_done by apply glob_eq. cbn [id]. by rewrite Hh. }
  pose proof (fun A f => @prepared_read A f g1 w1 R) as Pr.
  destruct (getVersion_read g1 w1 R) as (Ea & Eb & Ec).
  unfold returns, getDeviceInfoStr, getCPCIVersion, getCPCIRevision.
  rewrite (host_bind_done _ _ _ _ _ Ep), !(host_bind_done _ _ _ _ _ (Pr _ _)).
  rewrite (host_bind_done _ _ _ _ _ (glob_eq id g1 w1)). cbn [id].
  rewrite (proj1 (rf_cpci _ R)), (proj2 (rf_cpci _ R)), (rf_programmed _ R).
  destruct (device_text_read g1 w1 R) as (Et & Lt).
  rewrite (host_bind_done _ _ _ _ _ Et). rewrite (snprintf_fits _ device_text) by (unfold MAX_STR_LEN; lia).
  assert (String.length (cpci_text (regs CPCI_ID_REG mod 2 ^ 24) (regs CPCI_ID_REG / 2 ^ 24)) <= 100)%nat as Lc.
  { destruct (halves_u32 CPCI_ID_REG) as [Ha Hb]. apply fmt_d_length in Ha, Hb.
    unfold cpci_text, nl. rewrite !string_length_app. cbn [String.length]. lia. }
  rewrite (snprintf_fits _ (cpci_text _ _)) by (unfold MAX_STR_LEN; lia).
  rewrite snprintf_fits.
  2: { rewrite !string_length_app. unfold DEVICE_INFO_STR_LEN, nl. cbn [String.length]. lia. }
  by rewrite (host_bind_done _ _ _ _ _ (setg_eq _ g1 w1)).
Qed.

End Quiet.
