(* ===== verification/CNumbers.v ===== *)
(** Numbers in strings: [strtol] of the C library in the bases the host tools
    ask for, and the conversions of [scanf] that are defined by it. *)

From S2P Require Import Prelude Words CStrings.
From Stdlib Require Import Ascii.
Local Open Scope Z_scope.

(** The value of a digit, below 36. *)
Definition digit_value (c : ascii) : option Z :=
  if is_digit c then Some (code c - 48)
  else if (65 <=? code c) && (code c <=? 90) then Some (code c - 55)
  else if (97 <=? code c) && (code c <=? 122) then Some (code c - 87)
  else None.

Definition is_digit_of (base : Z) (c : ascii) : bool :=
  match digit_value c with Some d => d <? base | None => false end.

Definition number_of (base : Z) (l : list ascii) : Z :=
  foldl (fun acc c => base * acc + default 0 (digit_value c)) 0 l.

(** The base of a number whose base is left open, and its digits: "0x" before
    a hexadecimal digit counts for bases 0 and 16, and a leading 0 for base 0. *)
Definition split_base (base : Z) (l : list ascii) : Z * list ascii :=
  match l with
  | "0"%char :: x :: d :: l' =>
      if ((base =? 0) || (base =? 16)) && (Ascii.eqb x "x"%char || Ascii.eqb x "X"%char)
         && is_digit_of 16 d
      then (16, d :: l')
      else (if base =? 0 then 8 else base, l)
  | "0"%char :: _ => (if base =? 0 then 8 else base, l)
  | _ => (if base =? 0 then 10 else base, l)
  end.

Definition LONG_MAX : Z := 2 ^ 63 - 1.
Definition LONG_MIN : Z := - 2 ^ 63.

(** The number at the start of a string, however large, and what follows it;
    [None] when there is no digit. *)
Definition scan_number (base : Z) (l : list ascii) : option (Z * list ascii) :=
  let l := skip_space l in
  let '(neg, l) := match l with
                   | "-"%char :: l' => (true, l')
                   | "+"%char :: l' => (false, l')
                   | _ => (false, l)
                   end in
  let '(base, l) := split_base base l in
  match span (is_digit_of base) l with
  | ([], _) => None
  | (ds, rest) =>
      let n := number_of base ds in
      Some (if neg : bool then - n else n, rest)
  end.

Definition saturate (n : Z) : Z := Z.max LONG_MIN (Z.min LONG_MAX n).

Definition strtol (s : string) (base : Z) : Z :=
  match scan_number base (chars s) with Some (n, _) => saturate n | None => 0 end.

(** Whether [strtol] sets [errno] to [ERANGE]. *)
Definition strtol_overflows (s : string) (base : Z) : bool :=
  match scan_number base (chars s) with Some (n, _) => negb (saturate n =? n) | None => false end.

(** [atoi] *)
Definition atoi (s : string) : Z := u32 (strtol s 10 + 2 ^ 31) - 2 ^ 31.

(** [%x] and [%u] of [sscanf] at the start of a string, and the format "0x%x". *)
Definition scan_hex_num (l : list ascii) : option Z := (fun r => to_unsigned r.1) <$> scan_number 16 l.
Definition scan_unsigned_num (l : list ascii) : option Z := (fun r => to_unsigned r.1) <$> scan_number 10 l.
Definition scan_0x (s : string) : option Z :=
  match chars s with "0"%char :: "x"%char :: l => scan_hex_num l | _ => None end.

Example strtol_hex : strtol " 0x1F," 0 = 31.
Proof. reflexivity. Qed.
Example strtol_octal : strtol "-017" 0 = -15.
Proof. reflexivity. Qed.
Example strtol_base_16 : strtol "1fffff" 16 = 0x1fffff.
Proof. reflexivity. Qed.

(** ** Lemmas *)

Lemma span_stop f l rest :
  forallb f l = true -> match rest with [] => True | c :: _ => f c = false end ->
  span f (l ++ rest) = (l, rest).
Proof.
  intros Hl Hr. induction l as [|c l IH]; simpl in *.
  - destruct rest as [|c rest]; [done|]. simpl. by rewrite Hr.
  - apply andb_true_iff in Hl as [-> Hl]. by rewrite IH.
Qed.

Lemma is_digit_of_10 c : is_digit_of 10 c = is_digit c.
Proof.
  unfold is_digit_of, digit_value. destruct (is_digit c) eqn:E.
  - unfold is_digit in E. bool_to_prop. apply Z.ltb_lt. lia.
  - destruct ((65 <=? code c) && (code c <=? 90)) eqn:E1.
    + bool_to_prop. apply Z.ltb_ge. lia.
    + destruct ((97 <=? code c) && (code c <=? 122)) eqn:E2; [|done].
      bool_to_prop. apply Z.ltb_ge. lia.
Qed.

(** ** Hexadecimal digits *)

Definition hex2 (x : Z) : list ascii := [hex_char (x / 16); hex_char (x mod 16)].

(** What a digit is to the scanner. *)
Definition hex_char_ok (d : Z) : bool :=
  let c := hex_char d in
  negb (is_space c) && negb (Ascii.eqb c "-") && negb (Ascii.eqb c "+") && negb (Ascii.eqb c "x") &&
  negb (Ascii.eqb c "X") && is_digit_of 16 c && bool_decide (digit_value c = Some d).

Lemma hex_chars_ok d : 0 <= d < 16 -> hex_char_ok d = true.
Proof.
  intros Hd. assert (forallb (fun n => hex_char_ok (Z.of_nat n)) (seq 0 16) = true) as H by by vm_compute.
  rewrite forallb_forall in H. specialize (H (Z.to_nat d)). rewrite Z2Nat.id in H by lia.
  apply H, in_seq. lia.
Qed.

(** A number that starts with a digit, and not with "0x". *)
Lemma scan_number_digit c l : is_space c = false -> Ascii.eqb c "-" = false -> Ascii.eqb c "+" = false ->
  (match l with x :: _ => Ascii.eqb x "x" = false /\ Ascii.eqb x "X" = false | [] => True end) ->
  scan_number 16 (c :: l) = match span (is_digit_of 16) (c :: l) with
                            | ([], _) => None
                            | (ds, rest) => Some (number_of 16 ds, rest)
                            end.
Proof.
  intros Hs Hm Hp Hx. unfold scan_number, skip_space. cbn [span]. rewrite Hs. cbn [snd].
  assert (forall A (a b d : A), match c with "-"%char => a | "+"%char => b | _ => d end = d) as Hsign
    by (intros; destruct c as [[] [] [] [] [] [] [] []]; done).
  assert (split_base 16 (c :: l) = (16, c :: l)) as Hb.
  { destruct l as [|x [|d l]]; [by destruct c as [[] [] [] [] [] [] [] []]..|]. destruct Hx as [E1 E2].
    unfold split_base. rewrite E1, E2, andb_false_r. by destruct c as [[] [] [] [] [] [] [] []]. }
  rewrite Hsign, Hb. cbn [span]. by destruct (is_digit_of 16 c), (span (is_digit_of 16) l).
Qed.

(** A number in hexadecimal digits is scanned whole. *)
Lemma scan_hex_digits ds : ds <> [] -> Forall (fun d => 0 <= d < 16) ds ->
  scan_number 16 (map hex_char ds) = Some (foldl (fun n d => 16 * n + d) 0 ds, []).
Proof.
  intros Hn Hd.
  assert (forallb (is_digit_of 16) (map hex_char ds) = true) as Hall.
  { clear Hn. induction Hd as [|d ds Hd _ IH]; [done|]. cbn [map forallb]. rewrite IH, andb_true_r.
    pose proof (hex_chars_ok d Hd) as H. unfold hex_char_ok in H. bool_to_prop. done. }
  assert (forall acc, foldl (fun acc c => 16 * acc + default 0 (digit_value c)) acc (map hex_char ds)
          = foldl (fun n d => 16 * n + d) acc ds) as Hv.
  { clear Hn Hall. induction Hd as [|d ds Hd _ IH]; intros acc; [done|]. cbn [map foldl].
    pose proof (hex_chars_ok d Hd) as H. unfold hex_char_ok in H.
    apply andb_true_iff in H as [_ H]. apply bool_decide_eq_true in H. rewrite H. apply IH. }
  pose proof (span_stop _ _ [] Hall I) as Hspan. rewrite app_nil_r in Hspan.
  destruct ds as [|d ds]; [done|]. inversion Hd as [|? ? Hd0 Hds]; subst.
  pose proof (hex_chars_ok d Hd0) as H. unfold hex_char_ok in H. cbv zeta in H.
  repeat (apply andb_true_iff in H as [H ?]). bool_to_prop.
  cbn [map] in *. rewrite scan_number_digit; [|done|done|done|].
  - rewrite Hspan. unfold number_of. do 2 f_equal. apply (Hv 0).
  - destruct Hds as [|d1 ds Hd1 _]; [done|]. cbn [map]. pose proof (hex_chars_ok d1 Hd1) as Hx.
    unfold hex_char_ok in Hx. bool_to_prop. done.
Qed.

(** The last [k] hexadecimal digits of a number. *)
Fixpoint hex_digits (k : nat) (n : Z) : list Z :=
  match k with O => [] | S k => hex_digits k (n / 16) ++ [n mod 16] end.

Lemma hex_digits_range k n : Forall (fun d => 0 <= d < 16) (hex_digits k n).
Proof.
  revert n. induction k as [|k IH]; intros n; [constructor|]. cbn [hex_digits].
  apply Forall_app. split; [done|]. apply Forall_singleton, Z.mod_pos_bound. lia.
Qed.

Lemma hex_digits_length k n : length (hex_digits k n) = k.
Proof. revert n. induction k as [|k IH]; intros n; [done|]. cbn [hex_digits]. rewrite length_app, IH. simpl. lia. Qed.

Lemma hex_digits_value k n : 0 <= n < 16 ^ Z.of_nat k -> foldl (fun v d => 16 * v + d) 0 (hex_digits k n) = n.
Proof.
  revert n. induction k as [|k IH]; intros n Hn; [cbn in *; lia|]. cbn [hex_digits].
  rewrite foldl_app, IH; cbn [foldl]; [Z.div_mod_to_equations; lia|].
  rewrite Nat2Z.inj_succ, Z.pow_succ_r in Hn by lia.
  split; [apply Z.div_pos; lia|]. apply Z.div_lt_upper_bound; lia.
Qed.

(** A number written in hexadecimal, as it is scanned. *)
Lemma scan_hex_text k n : (0 < k)%nat -> 0 <= n < 16 ^ Z.of_nat k -> n < 2 ^ 32 ->
  scan_hex_num (map hex_char (hex_digits k n)) = Some n.
Proof.
  intros Hk Hn Hm. unfold scan_hex_num. rewrite scan_hex_digits, hex_digits_value; [|done| |apply hex_digits_range].
  - cbn. unfold to_unsigned. assert ((2 ^ 64 <=? Z.abs n) = false) as -> by (apply Z.leb_gt; lia).
    by rewrite u32_id by (unfold is_u32; lia).
  - intros E. pose proof (hex_digits_length k n) as H. rewrite E in H. simpl in H. lia.
Qed.
