(* ===== verification/RegProxy.v ===== *)
(** The register proxy (lib/C/reg_lib): a server on the host of the card and a
    client library that has the functions of libnf2, but sends each call to the
    server over a socket. A request is the memory of a [struct reg_request];
    the server executes it on its own register library and sends it back. *)

From S2P Require Import Prelude Words Bytes CStrings CNumbers HostRegs.
From Stdlib Require Import Ascii.
From stdpp Require Import pretty.
Local Open Scope Z_scope.

(** ** Requests: reg_proxy.h *)

Definition READ_REQ : Z := 1.
Definition WRITE_REQ : Z := 0.
Definition CHECK_REQ : Z := 2.
Definition OPEN_REQ : Z := 3.
Definition CLOSE_REQ : Z := 4.

(** [struct reg_request], the bytes of its padding included. *)
Record reg_request := mk_reg_request {
  rq_type : Z;
  rq_device_num : Z;
  rq_address : Z;
  rq_data : Z;
  rq_error : Z;
  rq_pad2 : bytes;      (* after device_num, two bytes *)
  rq_pad3 : bytes       (* after error, three bytes *)
}.

Definition set_rq_data (v : Z) (r : reg_request) : reg_request :=
  mk_reg_request (rq_type r) (rq_device_num r) (rq_address r) v (rq_error r) (rq_pad2 r) (rq_pad3 r).
Definition set_rq_error (v : Z) (r : reg_request) : reg_request :=
  mk_reg_request (rq_type r) (rq_device_num r) (rq_address r) (rq_data r) v (rq_pad2 r) (rq_pad3 r).

Definition REQUEST_SIZE : nat := 16.

(** A signed byte. *)
Definition int8 (x : Z) : Z := u8 (x + 2 ^ 7) - 2 ^ 7.

(** The structure in the memory of the host: four-byte members aligned. *)
Definition request_bytes (r : reg_request) : bytes :=
  [u8 (rq_type r); u8 (rq_device_num r)] ++ rq_pad2 r ++ word_bytes (rq_address r) ++
  word_bytes (rq_data r) ++ [u8 (rq_error r)] ++ rq_pad3 r.

Definition request_of (b : bytes) : option reg_request :=
  type ← get8 b 0; dev ← get8 b 1; pad2 ← get_range b 2 2;
  address ← get32 b 4; data ← get32 b 8; error ← get8 b 12; pad3 ← get_range b 13 3;
  Some (mk_reg_request type dev address data (int8 error) pad2 pad3).

(** ** Sockets: the system calls of reg_proxy.c and reg_proxy_client.c *)

(** What [read] returns: bytes, the end of the stream, or an error, with the
    interruption told apart; and [write]: how many bytes went. *)
Inductive read_result := RBytes (b : bytes) | REof | RIntr | RError.
Inductive write_result := Wrote (n : nat) | WIntr | WError.

Class Sockets (W : Type) := {
  sock_stream : host W Z;                      (* socket(PF_INET, SOCK_STREAM, 0) *)
  sock_connect : Z -> Z -> Z -> host W Z;      (* connect: descriptor, address, port *)
  sock_close : Z -> host W unit;
  sock_read : Z -> nat -> host W read_result;
  sock_write : Z -> bytes -> host W write_result;
  inet_aton : string -> option Z;
  errno : W -> Z
}.

Definition EINVAL : Z := 22.
Definition ERANGE : Z := 34.

(** [(size_t) x], for the comparisons with a [sizeof]. *)
Definition size_t (x : Z) : Z := u64 x.

Section Io.
Context {W : Type} `{Sockets W}.

(** The loops of [readn] and [writen], [fuel] system calls at most. *)
Fixpoint readn_loop (fuel : nat) (sockfd : Z) (got : bytes) (nleft : nat) : host W (Z * bytes) :=
  match nleft with
  | O => mret (Z.of_nat (length got), got)
  | S _ =>
      match fuel with
      | O => halted HFuel
      | S fuel =>
          r ← sock_read sockfd nleft;
          match r with
          | RBytes b => readn_loop fuel sockfd (got ++ b) (nleft - length b)
          | REof => mret (Z.of_nat (length got), got)
          | RIntr => readn_loop fuel sockfd got nleft
          | RError => mret (-1, got)
          end
      end
  end.

(** Returns the count and the bytes written to the buffer. *)
Definition readn (fuel : nat) (sockfd : Z) (len : nat) : host W (Z * bytes) :=
  if sockfd <? 0 then halted HAssert else readn_loop fuel sockfd [] len.

Fixpoint writen_loop (fuel : nat) (sockfd : Z) (len : nat) (left : bytes) : host W Z :=
  match left with
  | [] => mret (Z.of_nat len)
  | _ :: _ =>
      match fuel with
      | O => halted HFuel
      | S fuel =>
          r ← sock_write sockfd left;
          match r with
          | Wrote O => mret (-1)
          | Wrote n => writen_loop fuel sockfd len (drop n left)
          | WIntr => writen_loop fuel sockfd len left
          | WError => mret (-1)
          end
      end
  end.

Definition writen (fuel : nat) (sockfd : Z) (b : bytes) : host W Z :=
  if sockfd <? 0 then halted HAssert else writen_loop fuel sockfd (length b) b.
End Io.

(** ** The client: reg_proxy_client.c *)

Module Client.
Section Client.
Context {W : Type} `{Sockets W} `{!Stack W}.
(** The system calls one transfer may take. *)
Variable fuel : nat.

Definition connectRegServer (nf2 : nf2device) : host W Z :=
  s ← sock_stream;
  if s <? 0 then mret (-1)
  else
    r ← sock_connect s (default 0 (inet_aton (server_ip_addr nf2))) (u16 (server_port_num nf2));
    if negb (r =? 0) then sock_close s;; mret (-1) else mret s.

(** What is left in a [struct reg_request] the response overwrote. *)
Definition overwrite (req : reg_request) (b : bytes) : reg_request :=
  default req (request_of (b ++ drop (length b) (request_bytes req))).

(** Returns 0 or -1 and the structure after the call. *)
Definition sendRequest (socket_to_server : Z) (reg_request : reg_request) : host W (Z * RegProxy.reg_request) :=
  n ← writen fuel socket_to_server (request_bytes reg_request);
  if size_t n <? Z.of_nat REQUEST_SIZE then mret (-1, reg_request)
  else
    r ← readn fuel socket_to_server REQUEST_SIZE;
    let reg_request := overwrite reg_request r.2 in
    if size_t r.1 <? Z.of_nat REQUEST_SIZE then mret (-1, reg_request) else mret (0, reg_request).

Definition disconnectRegServer (socket_to_server : Z) : host W unit := sock_close socket_to_server.

(** A request on the stack: its padding is what was there. *)
Definition new_request (type device_num address data : Z) : host W reg_request :=
  a ← ask junk;
  mret (mk_reg_request type (u8 device_num) address data 0 [u8 a; u8 (a / 2 ^ 8)]
          [u8 a; u8 (a / 2 ^ 8); u8 (a / 2 ^ 16)]).

Definition readReg (nf2 : nf2device) (reg cur : Z) : host W (Z * Z) :=
  req ← new_request READ_REQ (dev_fd nf2) reg 0xBADDD065;
  r ← sendRequest (net_iface nf2) req;
  if r.1 <? 0 then mret (-1, cur) else mret (rq_error r.2, rq_data r.2).

Definition writeReg (nf2 : nf2device) (reg val : Z) : host W Z :=
  req ← new_request WRITE_REQ (dev_fd nf2) reg val;
  r ← sendRequest (net_iface nf2) req;
  if r.1 <? 0 then mret (-1) else mret (rq_error r.2).

Definition check_iface (nf2 : nf2device) : host W (Z * nf2device) :=
  if (7 <? Nat.min 10 (String.length (device_name nf2)))%nat then mret (-1, nf2)
  else if (String.length (device_name nf2) <? 4)%nat then halted HOverrun
  else
    let num := strtol (implode (drop 4 (chars (device_name nf2)))) 10 in
    e ← ask errno;
    if e =? EINVAL then mret (-1, nf2)
    else
      req ← new_request CHECK_REQ num 0 0;
      s ← connectRegServer nf2;
      r ← sendRequest s req;
      if r.1 <? 0 then disconnectRegServer s;; mret (-1, nf2)
      else if (rq_error r.2 <? 0) || negb (rq_data r.2 =? 1) then
        disconnectRegServer s;; mret (-1, nf2)
      else disconnectRegServer s;; mret (0, set_fd (rq_device_num r.2) nf2).

Definition openDescriptor (nf2 : nf2device) : host W (Z * nf2device) :=
  req ← new_request OPEN_REQ (dev_fd nf2) 0 0;
  s ← connectRegServer nf2;
  r ← sendRequest s req;
  if r.1 <? 0 then disconnectRegServer s;; mret (-1, nf2)
  else if rq_error r.2 =? 0 then
    mret (rq_error r.2, set_net_iface s (set_fd (rq_device_num r.2) nf2))
  else mret (rq_error r.2, nf2).

Definition closeDescriptor (nf2 : nf2device) : host W Z :=
  req ← new_request CLOSE_REQ (dev_fd nf2) 0 0;
  r ← sendRequest (net_iface nf2) req;
  if r.1 <? 0 then mret (-1)
  else disconnectRegServer (net_iface nf2);; mret (rq_error r.2).

End Client.
End Client.

(** libreg_proxy as the register library of a tool. *)
Definition client_lib {W} `{Sockets W} `{!Stack W} (fuel : nat) : RegLib W := {|
  readReg := Client.readReg fuel;
  writeReg := Client.writeReg fuel;
  check_iface := Client.check_iface fuel;
  openDescriptor := Client.openDescriptor fuel;
  closeDescriptor := Client.closeDescriptor fuel
|}.

(** ** The server: reg_proxy_server.c *)

Section Server.
Context {W : Type} `{RegLib W}.

Definition NF2C : string := "nf2c".

(** [execute] is the dispatch of [parse_request]: what becomes of a request
    other than [CLOSE_REQ] on a card the server has. *)
Definition execute (nf2devices : list nf2device) (num_netfpgas : Z) (req : reg_request)
    : host W reg_request :=
  if rq_device_num req <? num_netfpgas then
    match nf2devices !! Z.to_nat (rq_device_num req) with
    | None => halted HOverrun
    | Some dev =>
        if rq_type req =? READ_REQ then
          r ← readReg dev (rq_address req) (rq_data req);
          mret (set_rq_data r.2 req)
        else if rq_type req =? WRITE_REQ then
          _ ← writeReg dev (rq_address req) (rq_data req);
          mret req
        else if rq_type req =? CHECK_REQ then mret (set_rq_data 1 req)
        else if rq_type req =? OPEN_REQ then mret (set_rq_data 1 req)
        else if rq_type req =? CLOSE_REQ then mret req
        else mret (set_rq_error (-1) req)
    end
  else if rq_type req =? CHECK_REQ then mret (set_rq_data 0 req)
  else mret (set_rq_error (-1) req).

(** The request after which the server hangs up. *)
Definition closes (num_netfpgas : Z) (req : reg_request) : bool :=
  (rq_device_num req <? num_netfpgas) && (rq_type req =? CLOSE_REQ).

Context `{Sockets W}.
Variable fuel : nat.

(** The loop over the requests of a client, [rounds] of them at most. *)
Fixpoint parse_request (rounds : nat) (socket_to_client : Z) (nf2devices : list nf2device)
    (num_netfpgas : Z) : host W Z :=
  match rounds with
  | O => halted HFuel
  | S rounds =>
      r ← readn fuel socket_to_client REQUEST_SIZE;
      if r.1 =? Z.of_nat REQUEST_SIZE then
        match request_of r.2 with
        | None => halted HOverrun
        | Some req =>
            req' ← execute nf2devices num_netfpgas req;
            n ← writen fuel socket_to_client (request_bytes req');
            if size_t n <? Z.of_nat REQUEST_SIZE then mret (-1)
            else if closes num_netfpgas req then mret 0
            else parse_request rounds socket_to_client nf2devices num_netfpgas
        end
      else if r.1 =? 0 then mret 0 else mret (-1)
  end.

(** *** Opening the cards *)

Fixpoint close_interfaces (nf2devices : list nf2device) : host W unit :=
  match nf2devices with
  | [] => mret tt
  | d :: ds => _ ← closeDescriptor d; close_interfaces ds
  end.

(** [sprintf(device_name, "%s%d", NF2C, i*4)], on 7 bytes. *)
Definition interface_name (i : nat) : host W string :=
  let name := (NF2C +:+ pretty (Z.of_nat (i * 4))) in
  if (String.length name <? 7)%nat then mret name else halted HOverrun.

(** A structure of fresh memory: its other members are whatever is there. *)
Variable fresh : nat -> nf2device.

Definition set_name (n : string) (d : nf2device) : nf2device :=
  mk_nf2device n (dev_fd d) (net_iface d) (server_ip_addr d) (server_port_num d).

(** The loop, [n] cards from card [i] on, those before it open. *)
Fixpoint open_loop (n i : nat) (opened : list nf2device) : host W (list nf2device) :=
  match n with
  | O => mret opened
  | S n =>
      name ← interface_name i;
      c ← check_iface (set_name name (fresh i));
      if negb (c.1 =? 0) then close_interfaces opened;; halted (HExit 1)
      else
        o ← openDescriptor c.2;
        if negb (o.1 =? 0) then close_interfaces opened;; halted (HExit 1)
        else open_loop n (S i) (opened ++ [o.2])
  end.

Definition open_interfaces (num_netfpgas : nat) : host W (list nf2device) :=
  open_loop num_netfpgas 0 [].

End Server.

(** *** Its arguments: the part of [main] before the socket is set up *)

Record server_config := mk_server_config {
  sc_num : nat;          (* cards *)
  sc_addr : Z;           (* local_addr.sin_addr *)
  sc_port : Z            (* local_addr.sin_port, in host order *)
}.

(** [main] on the arguments after the program name: [None] is its usage text
    and exit. [port_num] has 16 bits, and the address is parsed into a structure
    that is cleared afterwards. *)
Definition parse_arguments {W} `{Sockets W} (argv : list string) : host W server_config :=
  match argv with
  | num :: addr :: port :: _ =>
      match inet_aton addr with
      | None => halted (HExit 1)
      | Some a =>
          let port_num := u16 (strtol port 0) in
          e ← ask errno;
          let e := if strtol_overflows port 0 then ERANGE else e in
          if (e =? EINVAL) || (e =? ERANGE) || (port_num <? 1024) || (65535 <? port_num) then halted (HExit 1)
          else
            let num_netfpgas := u32 (strtol num 0 + 2 ^ 31) - 2 ^ 31 in
            if (num_netfpgas <? 0) || (10 <? num_netfpgas) then halted (HExit 1)
            else
              let sin_addr := a in
              let sin_addr := 0 in       (* memset(&local_addr, 0, sizeof(SA)) *)
              mret (mk_server_config (Z.to_nat num_netfpgas) sin_addr port_num)
      end
  | _ => halted (HExit 0)
  end.
