(* ===== verification/ProxyTheorems.v ===== *)
(** The register proxy is transparent: a client of the server has the register
    library of the server's card, however the sockets cut up the requests, and
    the server answers the requests of a client in order; but the errors of the
    card and of the sockets are lost, and the cards are numbered differently on the two sides. *)

From S2P Require Import Prelude Words Bytes CStrings CNumbers HostRegs RegProxy.
From Stdlib Require Import Ascii.
From stdpp Require Import pretty.
Local Open Scope Z_scope.

(** ** Requests *)

Record request_ok (r : reg_request) : Prop := {
  ro_type : is_u8 (rq_type r);
  ro_dev : is_u8 (rq_device_num r);
  ro_address : is_u32 (rq_address r);
  ro_data : is_u32 (rq_data r);
  ro_error : - 2 ^ 7 <= rq_error r < 2 ^ 7;
  ro_pad2 : exists a b, rq_pad2 r = [a; b] /\ is_u8 a /\ is_u8 b;
  ro_pad3 : exists a b c, rq_pad3 r = [a; b; c] /\ is_u8 a /\ is_u8 b /\ is_u8 c
}.

Lemma int8_u8 x : - 2 ^ 7 <= x < 2 ^ 7 -> int8 (u8 x) = x.
Proof. unfold int8, u8. intros Hx. rewrite Zplus_mod_idemp_l, Z.mod_small by lia. lia. Qed.

(** A request survives the socket: the bytes of its memory are read back as it
    was, and there are as many as both sides expect. *)
Theorem request_round_trip r : request_ok r ->
  length (request_bytes r) = REQUEST_SIZE /\ request_of (request_bytes r) = Some r.
Proof.
  intros [Ht Hd Ha Hv He (p & q & Hp & Hp1 & Hp2) (x & y & z & Hx & Hx1 & Hx2 & Hx3)].
  destruct r as [t d a v e p2 p3]. simpl in *. subst p2 p3. unfold request_bytes. simpl.
  split; [done|]. unfold request_of, get8, get32, get_range. simpl.
  by rewrite !u8_id, int8_u8, !word_bytes_get32 by done.
Qed.

(** ** A connection

    What one end of a connection has received and not read, what it has sent,
    whether the other end has closed it, and how the next transfers go: [None]
    is an interruption, [Some k] moves at most [k + 1] bytes. *)
Record conn := mk_conn { c_in : bytes; c_out : bytes; c_hung : bool; c_sched : list (option nat) }.

Definition set_in (v : bytes) (c : conn) : conn := mk_conn v (c_out c) (c_hung c) (c_sched c).
Definition set_out (v : bytes) (c : conn) : conn := mk_conn (c_in c) v (c_hung c) (c_sched c).
Definition set_sched (v : list (option nat)) (c : conn) : conn :=
  mk_conn (c_in c) (c_out c) (c_hung c) v.

Section Conn.
Context {St : Type}.

(** The next entry of the schedule; after its end transfers are whole. *)
Definition turn : host (St * conn) (option (option nat)) := fun '(s, c) =>
  match c_sched c with
  | [] => (inr None, (s, c))
  | x :: xs => (inr (Some x), (s, set_sched xs c))
  end.

Definition conn_read (n : nat) : host (St * conn) read_result :=
  t ← turn;
  match t with
  | Some None => mret RIntr
  | _ =>
      c ← ask snd;
      match c_in c with
      | [] => if c_hung c then mret REof else halted HFuel   (* blocked *)
      | _ :: _ =>
          let k := match t with Some (Some k) => Nat.min (k + 1) n | _ => n end in
          change (fun s => (s.1, set_in (drop k (c_in c)) s.2));;
          mret (RBytes (take k (c_in c)))
      end
  end.

(** What becomes of bytes that were sent. *)
Variable deliver : bytes -> St * conn -> St * conn.

Definition conn_write (b : bytes) : host (St * conn) write_result :=
  t ← turn;
  match t with
  | Some None => mret WIntr
  | _ =>
      let k := match t with Some (Some k) => Nat.min (k + 1) (length b) | _ => length b end in
      change (deliver (take k b));; mret (Wrote k)
  end.
(** A socket that works this way. *)
Context `{Sockets (St * conn)}.
Hypothesis sock_read_conn : forall fd n, sock_read fd n = conn_read n.
Hypothesis sock_write_conn : forall fd b, sock_write fd b = conn_write b.

Lemma turn_cases s c :
  (c_sched c = [] /\ turn (s, c) = (inr None, (s, c))) \/
  (exists x, c_sched c = x :: c_sched (set_sched (tail (c_sched c)) c) /\
     turn (s, c) = (inr (Some x), (s, set_sched (tail (c_sched c)) c))).
Proof. unfold turn. destruct (c_sched c) as [|x xs]; [by left|]. right. by exists x. Qed.

(** One call of [read] with bytes to read: an interruption, or some of them. *)
Lemma conn_read_step n s c : (0 < n)%nat -> c_in c <> [] ->
  (exists sch, (length sch < length (c_sched c))%nat /\
     conn_read n (s, c) = (inr RIntr, (s, set_sched sch c))) \/
  (exists sch k, (length sch <= length (c_sched c))%nat /\ (0 < k <= n)%nat /\
     conn_read n (s, c) = (inr (RBytes (take k (c_in c))),
                           (s, set_sched sch (set_in (drop k (c_in c)) c)))).
Proof.
  intros Hn Hi. destruct c as [i o h sch]. simpl in *. destruct i as [|x i]; [done|].
  destruct sch as [|[k|] sch].
  - right. exists [], n. split_and!; [done|lia|lia|done].
  - right. exists sch, (Nat.min (k + 1) n). split_and!; [simpl; lia|lia|lia|done].
  - left. exists sch. split; [simpl; lia|done].
Qed.

Lemma conn_read_end n s c : c_in c = [] -> c_hung c = true ->
  exists sch r, (length sch <= length (c_sched c))%nat /\
    conn_read n (s, c) = (inr r, (s, set_sched sch c)) /\
    (r = REof \/ r = RIntr /\ (length sch < length (c_sched c))%nat).
Proof.
  intros Hi Hh. destruct c as [i o h sch]. simpl in *. subst i h.
  destruct sch as [|[k|] sch]; eexists _, _.
  - split; [|split; [reflexivity|by left]]. done.
  - split; [|split; [reflexivity|by left]]. simpl. lia.
  - split; [|split; [reflexivity|right; split; [done|simpl; lia]]]. simpl. lia.
Qed.

(** [readn] reads what was asked for, or what there is before the end. *)
Lemma readn_loop_conn fuel fd got n s c :
  (n <= length (c_in c))%nat \/ c_hung c = true -> (length (c_sched c) + n < fuel)%nat ->
  exists sch, (length sch <= length (c_sched c))%nat /\
    readn_loop fuel fd got n (s, c)
    = (inr (Z.of_nat (length (got ++ take n (c_in c))), got ++ take n (c_in c)),
       (s, set_sched sch (set_in (drop n (c_in c)) c))).
Proof.
  revert got n c. induction fuel as [|fuel IH]; intros got n c Hn Hf; [lia|].
  destruct n as [|n].
  { exists (c_sched c). rewrite app_nil_r. split; [done|]. by destruct c. }
  cbn [readn_loop]. destruct (decide (c_in c = [])) as [Ei|Ei].
  - destruct Hn as [Hn|Hh]; [rewrite Ei in Hn; simpl in Hn; lia|].
    destruct (conn_read_end (S n) s c Ei Hh) as (sch & r & Hl & Er & Hr).
    rewrite (host_bind_done _ _ _ _ _ (eq_trans (f_equal (fun m => m (s, c)) (sock_read_conn fd (S n))) Er)).
    destruct Hr as [-> | [-> Hlt]].
    + exists sch. split; [done|]. rewrite Ei, app_nil_r. by destruct c; simpl in *; subst.
    + destruct (IH got (S n) (set_sched sch c)) as (sch' & Hl' & E'); [by right|simpl; lia|].
      exists sch'. split; [simpl in *; lia|]. rewrite E'. by destruct c.
  - destruct (conn_read_step (S n) s c ltac:(lia) Ei) as [(sch & Hl & Er) | (sch & k & Hl & Hk & Er)];
      rewrite (host_bind_done _ _ _ _ _ (eq_trans (f_equal (fun m => m (s, c)) (sock_read_conn fd (S n))) Er)).
    + destruct (IH got (S n) (set_sched sch c)) as (sch' & Hl' & E'); [done|simpl; lia|].
      exists sch'. split; [simpl in *; lia|]. rewrite E'. by destruct c.
    + set (c' := set_sched sch (set_in (drop k (c_in c)) c)).
      assert (0 < length (c_in c))%nat as Hp by (destruct (c_in c); [done|simpl; lia]).
      destruct (IH (got ++ take k (c_in c)) (S n - length (take k (c_in c)))%nat c') as (sch' & Hl' & E').
      { destruct Hn as [Hn|Hn]; [left|by right]. simpl. rewrite length_take, length_drop. lia. }
      { simpl. rewrite length_take. lia. }
      exists sch'. split; [simpl in *; lia|]. rewrite E'. simpl.
      assert (take k (c_in c) ++ take (S n - length (take k (c_in c))) (drop k (c_in c))
              = take (S n) (c_in c)) as Eq.
      { rewrite length_take. destruct (Nat.le_ge_cases k (length (c_in c))).
        - rewrite Nat.min_l by done. rewrite take_take_drop. f_equal. lia.
        - rewrite (drop_ge (c_in c)), take_nil, app_nil_r, !take_ge by lia. done. }
      rewrite <-app_assoc, Eq. f_equal. f_equal. destruct c as [i o h sc]. simpl in *.
      unfold set_sched, set_in. simpl. f_equal. rewrite drop_drop, length_take.
      destruct (Nat.le_ge_cases k (length i)).
      * f_equal. lia.
      * rewrite !drop_ge by lia. done.
Qed.

Lemma readn_conn fuel fd n s c :
  0 <= fd -> (n <= length (c_in c))%nat \/ c_hung c = true -> (length (c_sched c) + n < fuel)%nat ->
  exists sch, (length sch <= length (c_sched c))%nat /\
    readn fuel fd n (s, c)
    = (inr (Z.of_nat (length (take n (c_in c))), take n (c_in c)),
       (s, set_sched sch (set_in (drop n (c_in c)) c))).
Proof.
  intros Hfd Hn Hf. unfold readn. assert (fd <? 0 = false) as -> by (apply Z.ltb_ge; lia).
  by apply (readn_loop_conn fuel fd [] n s c).
Qed.

Lemma conn_write_step b s c : (0 < length b)%nat ->
  (exists sch, (length sch < length (c_sched c))%nat /\
     conn_write b (s, c) = (inr WIntr, (s, set_sched sch c))) \/
  (exists sch k, (length sch <= length (c_sched c))%nat /\ (0 < k <= length b)%nat /\
     conn_write b (s, c) = (inr (Wrote k), deliver (take k b) (s, set_sched sch c))).
Proof.
  intros Hb. destruct c as [i o h sch]. destruct sch as [|[k|] sch].
  - right. exists [], (length b). split_and!; [done|lia|lia|done].
  - right. exists sch, (Nat.min (k + 1) (length b)). split_and!; [simpl; lia|lia|lia|done].
  - left. exists sch. split; [simpl; lia|done].
Qed.

(** [writen] delivers everything, in pieces: [P left w] says that [left] is
    still to be delivered. *)
Lemma writen_loop_conn (P : bytes -> St * conn -> Prop) fuel fd len left s c :
  (forall left s c sch, P left (s, c) -> P left (s, set_sched sch c)) ->
  (forall left k w, P left w -> (0 < k <= length left)%nat ->
     P (drop k left) (deliver (take k left) w)) ->
  (forall b w, c_sched (deliver b w).2 = c_sched w.2) ->
  P left (s, c) -> (length (c_sched c) + length left < fuel)%nat ->
  exists w', writen_loop fuel fd len left (s, c) = (inr (Z.of_nat len), w') /\
    P [] w' /\ (length (c_sched w'.2) <= length (c_sched c))%nat.
Proof.
  intros Hs Hd Hc. revert left s c. induction fuel as [|fuel IH]; intros left s c HP Hf; [lia|].
  destruct left as [|x left].
  { eexists. split; [done|]. by split. }
  cbn [writen_loop]. set (b := x :: left) in *.
  assert (0 < length b)%nat as Hb by (unfold b; simpl; lia).
  assert (forall k sch, (length sch <= length (c_sched c))%nat -> (0 < k <= length b)%nat ->
    exists w', writen_loop fuel fd len (drop k b) (deliver (take k b) (s, set_sched sch c))
               = (inr (Z.of_nat len), w') /\
      P [] w' /\ (length (c_sched w'.2) <= length (c_sched c))%nat) as Hgo.
  { intros k sch Hl Hk. pose proof (Hd _ k _ (Hs _ _ _ sch HP) Hk) as HP'.
    pose proof (Hc (take k b) (s, set_sched sch c)) as Hsch.
    destruct (deliver (take k b) (s, set_sched sch c)) as [s1 c1]. simpl in Hsch.
    destruct (IH (drop k b) s1 c1 HP') as (w' & E & HP2 & Hl2).
    { rewrite length_drop, Hsch. lia. }
    exists w'. rewrite Hsch in Hl2. split_and!; [done|done|lia]. }
  destruct (conn_write_step b s c Hb) as [(sch & Hl & Ew) | (sch & k & Hl & Hk & Ew)];
    rewrite (host_bind_done _ _ _ _ _ (eq_trans (f_equal (fun m => m (s, c)) (sock_write_conn fd b)) Ew)).
  - destruct (IH b s (set_sched sch c)) as (w' & E & HP2 & Hl2); [by apply Hs|cbn [c_sched set_sched]; lia|].
    exists w'. split_and!; [exact E|done|cbn [c_sched set_sched] in *; lia].
  - destruct (Hgo k sch Hl Hk) as (w' & E & HP2 & Hl2). exists w'. split; [|done].
    rewrite <-E. destruct k; [lia|done].
Qed.

Lemma writen_conn (P : bytes -> St * conn -> Prop) fuel fd b s c :
  (forall left s c sch, P left (s, c) -> P left (s, set_sched sch c)) ->
  (forall left k w, P left w -> (0 < k <= length left)%nat ->
     P (drop k left) (deliver (take k left) w)) ->
  (forall b w, c_sched (deliver b w).2 = c_sched w.2) ->
  0 <= fd -> P b (s, c) -> (length (c_sched c) + length b < fuel)%nat ->
  exists w', writen fuel fd b (s, c) = (inr (Z.of_nat (length b)), w') /\
    P [] w' /\ (length (c_sched w'.2) <= length (c_sched c))%nat.
Proof.
  intros Hs Hd Hc Hfd HP Hf. unfold writen. assert (fd <? 0 = false) as -> by (apply Z.ltb_ge; lia).
  by apply (writen_loop_conn P).
Qed.

End Conn.

(** ** Client and server *)

Section Transparent.
(** The server: its world, its register library, its cards. *)
Context {Ws C : Type} `{RegLib Ws} `{RegCard C} {card : Ws -> C}.
Context {ready : nf2device -> Ws -> Prop} `{!RegLaws card ready}.
Variables (devs : list nf2device) (num : Z).

(** Words are 32 bits wide. *)
Hypothesis mapped_u32 : forall a, mapped a -> is_u32 a.
Hypothesis reads_u32 : forall a d s, ready d s -> mapped a -> is_u32 (reg_read a (card s)).1.

(** The client's world: the server's and the connection. Bytes that arrive at
    the server wait until they make a request, which it executes and answers. *)
Definition arrive (b : bytes) (w : Ws * conn) : Ws * conn :=
  let '(s, c) := w in
  let up := c_out c ++ b in
  if c_hung c then (s, c)
  else if (length up <? REQUEST_SIZE)%nat then (s, set_out up c)
  else
    match request_of (take REQUEST_SIZE up) with
    | None => (s, c)
    | Some req =>
        match execute devs num req s with
        | (inr req', s') =>
            (s', mk_conn (c_in c ++ request_bytes req') (drop REQUEST_SIZE up)
                   (closes num req) (c_sched c))
        | (inl _, s') => (s', mk_conn (c_in c) (drop REQUEST_SIZE up) true (c_sched c))
        end
    end.

Variables (addresses : string -> option Z) (errno_of : Ws * conn -> Z).

#[local] Instance proxy_sockets : Sockets (Ws * conn) := {|
  sock_stream := mret 3;
  sock_connect _ _ _ := change (fun w => (w.1, mk_conn [] [] false (c_sched w.2)));; mret 0;
  sock_close _ := change (fun w => (w.1, mk_conn [] [] true (c_sched w.2)));
  sock_read _ := conn_read;
  sock_write _ := conn_write arrive;
  inet_aton := addresses;
  errno := errno_of
|}.

Context `{!Stack (Ws * conn)}.
Variable fuel : nat.

(** A connection between two requests. *)
Definition idle (c : conn) : Prop :=
  c_in c = [] /\ c_out c = [] /\ c_hung c = false /\ (length (c_sched c) + REQUEST_SIZE < fuel)%nat.

Lemma arrive_sched b w : c_sched (arrive b w).2 = c_sched w.2.
Proof.
  destruct w as [s c]. unfold arrive. destruct (c_hung c); [done|].
  destruct (length (c_out c ++ b) <? REQUEST_SIZE)%nat; [done|].
  destruct (request_of _); [|done]. by destruct (execute devs num r s) as [[h|x] s'].
Qed.

(** One exchange: the server executes the request and the client gets what
    became of it, whatever the pieces. *)
Lemma sendRequest_proxy fd req s c req' s' :
  0 <= fd -> request_ok req -> request_ok req' -> idle c ->
  execute devs num req s = (inr req', s') ->
  exists c', Client.sendRequest fuel fd req (s, c) = (inr (0, req'), (s', c')) /\
    c_in c' = [] /\ c_out c' = [] /\ c_hung c' = closes num req /\
    (length (c_sched c') <= length (c_sched c))%nat.
Proof.
  intros Hfd Ok Ok' (Hi & Ho & Hh & Hf) Ex.
  destruct (request_round_trip req Ok) as [L1 D1]. destruct (request_round_trip req' Ok') as [L2 D2].
  set (P := fun left (w : Ws * conn) =>
    (left <> [] /\ c_out w.2 ++ left = request_bytes req /\ w.1 = s /\ c_in w.2 = [] /\ c_hung w.2 = false)
    \/ (left = [] /\ w.1 = s' /\ c_in w.2 = request_bytes req' /\ c_out w.2 = [] /\
        c_hung w.2 = closes num req)).
  destruct (@writen_conn Ws arrive proxy_sockets (fun _ _ => eq_refl) P fuel fd (request_bytes req) s c)
    as ([s1 c1] & Ew & HP & Hl).
  - intros left s0 c0 sch HP. exact HP.
  - intros left k [s0 c0] [(Hn & Hup & Hs & Hin & Hhu)|(-> & _)] Hk; [|simpl in Hk; lia].
    simpl in Hup, Hs, Hin, Hhu. subst s0. unfold P, arrive. rewrite Hhu.
    assert (c_out c0 ++ take k left ++ drop k left = request_bytes req) as Hup'
      by (by rewrite take_drop).
    assert (length (c_out c0) + length left = REQUEST_SIZE)%nat as Hlen
      by (by rewrite <-L1, <-Hup, length_app).
    destruct (decide (k = length left)) as [->|Hne].
    + right. rewrite take_ge, Hup by lia. rewrite L1, Nat.ltb_irrefl.
      rewrite (take_ge (request_bytes req)), D1, Ex by lia. cbn [fst snd c_in c_out c_hung].
      rewrite Hin, !drop_ge by lia. done.
    + left. assert (length (c_out c0 ++ take k left) <? REQUEST_SIZE = true)%nat as ->
        by (apply Nat.ltb_lt; rewrite length_app, length_take; lia).
      split; [intros E; apply (f_equal length) in E; rewrite length_drop in E; simpl in E; lia|].
      cbn [fst snd c_out c_in c_hung set_out]. by rewrite <-app_assoc.
  - apply arrive_sched.
  - done.
  - left. cbn [fst snd]. rewrite Ho. split_and!; [|done..]. intros E. by rewrite E in L1.
  - rewrite L1. unfold REQUEST_SIZE in *. lia.
  - destruct HP as [[Hn _]|(_ & Hs1 & Hin & Hout & Hhu)]; [done|]. simpl in Hs1, Hin, Hout, Hhu, Hl.
    subst s1. unfold Client.sendRequest. rewrite (host_bind_done _ _ _ _ _ Ew), L1.
    change (size_t (Z.of_nat REQUEST_SIZE) <? Z.of_nat REQUEST_SIZE) with false. cbv iota.
    destruct (@readn_conn Ws proxy_sockets (fun _ _ => eq_refl) fuel fd REQUEST_SIZE s' c1) as (sch & Hsch & Er).
    + done.
    + left. by rewrite Hin, L2.
    + unfold REQUEST_SIZE in *. lia.
    + rewrite (host_bind_done _ _ _ _ _ Er). cbn [fst snd].
      rewrite Hin, (take_ge (request_bytes req')) by lia. rewrite L2.
      change (size_t (Z.of_nat REQUEST_SIZE) <? Z.of_nat REQUEST_SIZE) with false. cbv iota.
      assert (Client.overwrite req (request_bytes req') = req') as ->.
      { unfold Client.overwrite. rewrite drop_ge, app_nil_r, D2 by lia. done. }
      eexists. split; [reflexivity|]. cbn [c_in c_out c_hung c_sched set_in set_sched]. rewrite drop_ge by lia.
      split_and!; [done|done|done|lia].
Qed.

(** The client's device: an open connection, and a card the server can use. *)
Definition on_server (nf2 : nf2device) (w : Ws * conn) : Prop :=
  0 <= net_iface nf2 /\ 0 <= dev_fd nf2 < num /\ is_u8 (dev_fd nf2) /\ idle w.2 /\
  exists d, devs !! Z.to_nat (dev_fd nf2) = Some d /\ ready d w.1.

Lemma new_request_ok type fd addr data (w : Ws * conn) :
  is_u8 type -> is_u8 fd -> is_u32 addr -> is_u32 data ->
  exists p2 p3, Client.new_request type fd addr data w
      = (inr (mk_reg_request type fd addr data 0 p2 p3), w) /\
    forall d, is_u32 d -> request_ok (mk_reg_request type fd addr d 0 p2 p3).
Proof.
  intros Ht Hf Ha Hd. unfold Client.new_request.
  rewrite (host_bind_done _ _ _ _ _ (eq_refl : ask junk w = (inr (junk w), w))).
  rewrite (u8_id fd) by done. eexists _, _. split; [reflexivity|]. intros d Hd'.
  split; simpl; try done; eauto 10 using u8_range.
Qed.

(** The server's part of a read and of a write. *)
Lemma execute_read d fd addr data p2 p3 s r s' :
  0 <= fd < num -> devs !! Z.to_nat fd = Some d -> readReg d addr data s = (inr r, s') ->
  execute devs num (mk_reg_request READ_REQ fd addr data 0 p2 p3) s
  = (inr (mk_reg_request READ_REQ fd addr r.2 0 p2 p3), s').
Proof.
  intros Hf Hd Er. unfold execute. cbn [rq_device_num].
  assert (fd <? num = true) as -> by (apply Z.ltb_lt; lia). rewrite Hd.
  cbn [rq_type rq_address rq_data Z.eqb READ_REQ WRITE_REQ Pos.eqb]. cbv iota.
  by rewrite (host_bind_done _ _ _ _ _ Er).
Qed.

Lemma execute_write d fd addr data p2 p3 s r s' :
  0 <= fd < num -> devs !! Z.to_nat fd = Some d -> writeReg d addr data s = (inr r, s') ->
  execute devs num (mk_reg_request WRITE_REQ fd addr data 0 p2 p3) s
  = (inr (mk_reg_request WRITE_REQ fd addr data 0 p2 p3), s').
Proof.
  intros Hf Hd Er. unfold execute. cbn [rq_device_num].
  assert (fd <? num = true) as -> by (apply Z.ltb_lt; lia). rewrite Hd.
  cbn [rq_type rq_address rq_data Z.eqb READ_REQ WRITE_REQ Pos.eqb]. cbv iota.
  by rewrite (host_bind_done _ _ _ _ _ Er).
Qed.

Lemma closes_register type fd addr data p2 p3 :
  type = READ_REQ \/ type = WRITE_REQ ->
  closes num (mk_reg_request type fd addr data 0 p2 p3) = false.
Proof. intros [-> | ->]; apply andb_false_r. Qed.

Lemma idle_after (c c' : conn) : idle c ->
  c_in c' = [] -> c_out c' = [] -> c_hung c' = false ->
  (length (c_sched c') <= length (c_sched c))%nat -> idle c'.
Proof. intros (_ & _ & _ & Hf) ? ? ? ?. split_and!; [done..|lia]. Qed.

(** A register call of the client, given what the server's library does. *)
Lemma client_read d nf2 reg cur s c r s' :
  0 <= net_iface nf2 -> 0 <= dev_fd nf2 < num -> is_u8 (dev_fd nf2) -> idle c -> is_u32 reg ->
  devs !! Z.to_nat (dev_fd nf2) = Some d ->
  readReg d reg 0xBADDD065 s = (inr r, s') -> is_u32 r.2 ->
  exists c', Client.readReg fuel nf2 reg cur (s, c) = (inr (0, r.2), (s', c')) /\ idle c'.
Proof.
  intros Hn Hf Hu Hc Hr Hd Er Hv. unfold Client.readReg.
  destruct (new_request_ok READ_REQ (dev_fd nf2) reg 0xBADDD065 (s, c)) as (p2 & p3 & En & Ok);
    [done|done|done|done|].
  rewrite (host_bind_done _ _ _ _ _ En).
  destruct (sendRequest_proxy (net_iface nf2) _ s c _ s' Hn
    (Ok 0xBADDD065 ltac:(done)) (Ok _ Hv) Hc
    (execute_read d _ _ _ p2 p3 s r s' Hf Hd Er)) as (c' & Es & Hi & Ho & Hh & Hl).
  rewrite (host_bind_done _ _ _ _ _ Es). eexists. split; [reflexivity|].
  rewrite closes_register in Hh by auto. by eapply idle_after.
Qed.

Lemma client_write d nf2 reg val s c r s' :
  0 <= net_iface nf2 -> 0 <= dev_fd nf2 < num -> is_u8 (dev_fd nf2) -> idle c -> is_u32 reg ->
  devs !! Z.to_nat (dev_fd nf2) = Some d -> is_u32 val ->
  writeReg d reg val s = (inr r, s') ->
  exists c', Client.writeReg fuel nf2 reg val (s, c) = (inr 0, (s', c')) /\ idle c'.
Proof.
  intros Hn Hf Hu Hc Hr Hd Hv Er. unfold Client.writeReg.
  destruct (new_request_ok WRITE_REQ (dev_fd nf2) reg val (s, c)) as (p2 & p3 & En & Ok);
    [done|done|done|done|].
  rewrite (host_bind_done _ _ _ _ _ En).
  destruct (sendRequest_proxy (net_iface nf2) _ s c _ s' Hn (Ok _ Hv) (Ok _ Hv) Hc
    (execute_write d _ _ _ p2 p3 s r s' Hf Hd Er)) as (c' & Es & Hi & Ho & Hh & Hl).
  rewrite (host_bind_done _ _ _ _ _ Es). eexists. split; [reflexivity|].
  rewrite closes_register in Hh by auto. by eapply idle_after.
Qed.

(** The client library is a register library of the server's card. *)
#[local] Instance proxy_lib : RegLib (Ws * conn) := client_lib fuel.

Lemma proxy_laws : RegLaws (fun w => card w.1) on_server.
Proof.
  split.
  - intros nf2 reg cur [s c] (Hn & Hf & Hu & Hc & d & Hd & Hr) Hm. simpl in Hd, Hr, Hc.
    destruct (returns_inv _ _ _ (readReg_law d reg 0xBADDD065 s Hr Hm)) as (r & s' & Er & -> & Ec & Hr').
    destruct (client_read d nf2 reg cur s c _ s' Hn Hf Hu Hc (mapped_u32 _ Hm) Hd Er) as (c' & Ec' & Hc').
    { cbn [snd]. by eapply reads_u32. }
    eapply returns_done; [exact Ec'|]. split_and!; [done|done|].
    exact (conj Hn (conj Hf (conj Hu (conj Hc' (ex_intro _ d (conj Hd Hr')))))).
  - intros nf2 reg val [s c] (Hn & Hf & Hu & Hc & d & Hd & Hr) Hm Hv. simpl in Hd, Hr, Hc.
    destruct (returns_inv _ _ _ (writeReg_law d reg val s Hr Hm Hv)) as (r & s' & Er & -> & Ec & Hr').
    destruct (client_write d nf2 reg val s c _ s' Hn Hf Hu Hc (mapped_u32 _ Hm) Hd Hv Er) as (c' & Ec' & Hc').
    eapply returns_done; [exact Ec'|]. split_and!; [done|done|].
    exact (conj Hn (conj Hf (conj Hu (conj Hc' (ex_intro _ d (conj Hd Hr')))))).
Qed.

(** C30: A call through the proxy does to the card of the server exactly what the
    same call does there, whatever the pieces and interruptions of the transfers. *)
Theorem proxy_transparent nf2 reg cur val s c :
  on_server nf2 (s, c) -> mapped reg -> is_u32 val ->
  returns (readReg nf2 reg cur) (fun r w =>
    r = (0, (reg_read reg (card s)).1) /\ card w.1 = (reg_read reg (card s)).2 /\ on_server nf2 w) (s, c) /\
  returns (writeReg nf2 reg val) (fun r w =>
    r = 0 /\ card w.1 = reg_write reg val (card s) /\ on_server nf2 w) (s, c).
Proof.
  intros Hs Hm Hv. split; [by apply (readReg_law (RegLaws := proxy_laws))|].
  by apply (writeReg_law (RegLaws := proxy_laws)).
Qed.

(** What the server's library answers is not passed on: a read or a write that
    fails there succeeds at the client, a read with the word the client had put
    into the request. *)
Theorem proxy_hides_errors d nf2 reg cur val s c er ew s1 s2 :
  0 <= net_iface nf2 -> 0 <= dev_fd nf2 < num -> is_u8 (dev_fd nf2) -> idle c -> is_u32 reg ->
  devs !! Z.to_nat (dev_fd nf2) = Some d -> is_u32 val ->
  readReg d reg 0xBADDD065 s = (inr (er, 0xBADDD065), s1) -> writeReg d reg val s = (inr ew, s2) ->
  (exists c', readReg nf2 reg cur (s, c) = (inr (0, 0xBADDD065), (s1, c'))) /\
  (exists c', writeReg nf2 reg val (s, c) = (inr 0, (s2, c'))).
Proof.
  intros Hn Hf Hu Hc Hr Hd Hv Er Ew. split.
  - destruct (client_read d nf2 reg cur s c _ s1 Hn Hf Hu Hc Hr Hd Er) as (c' & E & _); [done|].
    by exists c'.
  - destruct (client_write d nf2 reg val s c _ s2 Hn Hf Hu Hc Hr Hd Hv Ew) as (c' & E & _). by exists c'.
Qed.

(** *** Which card a client opens *)

(** [check_iface] of the client on "nf2c" and a digit. *)
Lemma check_iface_proxy i nf2 s c : (i < 10)%nat -> Z.of_nat i < num ->
  (i < length devs)%nat ->
  device_name nf2 = "nf2c" +:+ pretty (Z.of_nat i) -> errno_of (s, c) <> EINVAL ->
  (length (c_sched c) + REQUEST_SIZE < fuel)%nat ->
  exists c', check_iface nf2 (s, c) = (inr (0, set_fd (Z.of_nat i) nf2), (s, c')).
Proof.
  intros Hi Hn Hl Hname He Hf.
  assert ((7 <? Nat.min 10 (String.length (device_name nf2)))%nat = false /\
          (String.length (device_name nf2) <? 4)%nat = false /\
          strtol (implode (drop 4 (chars (device_name nf2)))) 10 = Z.of_nat i) as (E1 & E2 & E3).
  { rewrite Hname. do 10 (destruct i as [|i]; [by vm_compute|]). lia. }
  assert (is_u8 (Z.of_nat i)) as Hu by (unfold is_u8; lia).
  destruct (lookup_lt_is_Some_2 devs i Hl) as [d Hd].
  change (check_iface nf2) with (Client.check_iface fuel nf2). unfold Client.check_iface.
  rewrite E1, E2, E3.
  erewrite host_bind_done by reflexivity. cbn [errno proxy_sockets].
  apply Z.eqb_neq in He. rewrite He.
  destruct (new_request_ok CHECK_REQ (Z.of_nat i) 0 0 (s, c)) as (p2 & p3 & En & Ok); [done..|].
  rewrite (host_bind_done _ _ _ _ _ En).
  set (c1 := mk_conn [] [] false (c_sched c)).
  assert (Client.connectRegServer nf2 (s, c) = (inr 3, (s, c1))) as Ec by done.
  rewrite (host_bind_done _ _ _ _ _ Ec).
  assert (execute devs num (mk_reg_request CHECK_REQ (Z.of_nat i) 0 0 0 p2 p3) s
          = (inr (mk_reg_request CHECK_REQ (Z.of_nat i) 0 1 0 p2 p3), s)) as Ex.
  { unfold execute. cbn [rq_device_num]. apply Z.ltb_lt in Hn. by rewrite Hn, Nat2Z.id, Hd. }
  destruct (sendRequest_proxy 3 _ s c1 _ s ltac:(lia) (Ok 0 ltac:(done)) (Ok 1 ltac:(done))
    (conj eq_refl (conj eq_refl (conj eq_refl Hf))) Ex) as (c2 & Es & _).
  rewrite (host_bind_done _ _ _ _ _ Es). by eexists.
Qed.

End Transparent.

Section Opening.
Context {W : Type} `{RegLib W}.
Hypothesis check_keeps_name : forall d w r w',
  check_iface d w = (inr r, w') -> device_name r.2 = device_name d.
Hypothesis open_keeps_name : forall d w r w',
  openDescriptor d w = (inr r, w') -> device_name r.2 = device_name d.
Variable fresh : nat -> nf2device.

(** The cards of the server have every fourth number, one per interface. *)
Lemma open_loop_names n i opened w devs w' :
  open_loop fresh n i opened w = (inr devs, w') ->
  length opened = i ->
  (forall j d, opened !! j = Some d -> device_name d = NF2C +:+ pretty (Z.of_nat (j * 4))) ->
  length devs = (i + n)%nat /\
  forall j d, devs !! j = Some d -> device_name d = NF2C +:+ pretty (Z.of_nat (j * 4)).
Proof.
  revert i opened w. induction n as [|n IH]; intros i opened w E Hl Hn.
  - injection E as <- _. by rewrite Nat.add_0_r.
  - cbn [open_loop] in E.
    apply host_bind_inv in E as (name & w1 & En & E).
    assert (name = NF2C +:+ pretty (Z.of_nat (i * 4))) as ->.
    { unfold interface_name in En. by destruct (_ <? 7)%nat; [injection En as <- _|]. }
    apply host_bind_inv in E as ([rc d1] & w2 & Ec & E). cbn [fst snd] in E.
    destruct (negb (rc =? 0)).
    { by apply host_bind_inv in E as (? & ? & _ & E). }
    apply host_bind_inv in E as ([ro d2] & w3 & Eo & E). cbn [fst snd] in E.
    destruct (negb (ro =? 0)).
    { by apply host_bind_inv in E as (? & ? & _ & E). }
    replace (i + S n)%nat with (S i + n)%nat by lia. apply (IH _ _ _ E).
    + rewrite length_app. simpl. lia.
    + intros j d Hj. apply lookup_app_Some in Hj as [Hj|[Hj1 Hj2]]; [by apply Hn|].
      rewrite Hl in *. destruct (j - i)%nat as [|k] eqn:Ek; [|done]. injection Hj2 as <-.
      replace j with i by lia. apply open_keeps_name in Eo. apply check_keeps_name in Ec.
      simpl in Eo, Ec. by rewrite Eo, Ec.
Qed.

Lemma open_interfaces_names n w devs w' : open_interfaces fresh n w = (inr devs, w') ->
  length devs = n /\
  forall j d, devs !! j = Some d -> device_name d = NF2C +:+ pretty (Z.of_nat (j * 4)).
Proof. intros E. by apply (open_loop_names n 0 [] w devs w'). Qed.

(** The name of an interface fits its seven bytes for the ten cards the server
    allows. *)
Lemma interface_name_fits i (w : W) : (i < 10)%nat ->
  interface_name i w = (inr (NF2C +:+ pretty (Z.of_nat (i * 4))), w).
Proof. intros Hi. do 10 (destruct i as [|i]; [done|]). lia. Qed.

(** A client that opens the interface "nf2c<i>" of the server gets the registers
    of the card of "nf2c<4i>": the client sends the number in the name, and the
    server counts cards. *)
Theorem proxy_renumbers_cards n s0 devs s1 i nf2 s c addresses errno_of fuel
    `{!Stack (W * conn)} :
  open_interfaces fresh n s0 = (inr devs, s1) -> (n <= 10)%nat -> (i < n)%nat ->
  device_name nf2 = "nf2c" +:+ pretty (Z.of_nat i) ->
  errno_of (s, c) <> EINVAL -> (length (c_sched c) + REQUEST_SIZE < fuel)%nat ->
  (exists c', @check_iface _ (proxy_lib devs (Z.of_nat n) addresses errno_of fuel) nf2 (s, c)
     = (inr (0, set_fd (Z.of_nat i) nf2), (s, c'))) /\
  exists d, devs !! i = Some d /\ device_name d = "nf2c" +:+ pretty (Z.of_nat (i * 4)).
Proof.
  intros Eo Hn Hi Hname He Hf. destruct (open_interfaces_names n s0 devs s1 Eo) as [Hl Hd].
  split; [apply check_iface_proxy; done || lia|].
  destruct (lookup_lt_is_Some_2 devs i ltac:(lia)) as [d E]. exists d. split; [done|]. by apply Hd.
Qed.
End Opening.

(** ** A session of the server *)

Section Session.
Context {Ws : Type} `{RegLib Ws}.
Variables (devs : list nf2device) (num : Z).

(** The server's register library, its world next to the connection. *)
Definition beside {A} (m : host Ws A) : host (Ws * conn) A := fun w =>
  let '(r, s) := m w.1 in (r, (s, w.2)).

#[local] Instance beside_lib : RegLib (Ws * conn) := {|
  readReg d a v := beside (readReg d a v);
  writeReg d a v := beside (writeReg d a v);
  check_iface d := beside (check_iface d);
  openDescriptor d := beside (openDescriptor d);
  closeDescriptor d := beside (closeDescriptor d)
|}.

Definition sent (b : bytes) (w : Ws * conn) : Ws * conn := (w.1, set_out (c_out w.2 ++ b) w.2).

Variables (addresses : string -> option Z) (errno_of : Ws * conn -> Z).

#[local] Instance server_sockets : Sockets (Ws * conn) := {|
  sock_stream := mret 3;
  sock_connect _ _ _ := mret 0;
  sock_close _ := mret tt;
  sock_read _ := conn_read;
  sock_write _ := conn_write sent;
  inet_aton := addresses;
  errno := errno_of
|}.

(** The request that ends a session: a card of the server is closed. *)
Definition hangs_up (q : reg_request) : Prop := rq_device_num q < num /\ rq_type q = CLOSE_REQ.

Lemma closes_hangs_up q : closes num q = true <-> hangs_up q.
Proof. unfold closes, hangs_up. rewrite andb_true_iff, Z.ltb_lt, Z.eqb_eq. done. Qed.

Lemma not_closes q : ~ hangs_up q -> closes num q = false.
Proof. rewrite <-closes_hangs_up. by destruct (closes num q). Qed.

(** What the server owes a request: a read is answered with the value the library
    reads, a write is done and sent back, a card is there or not, and what is none
    of these, or is for a card that is not there, is an error. *)
Inductive answers : reg_request -> Ws -> reg_request -> Ws -> Prop :=
  | ans_read q d e v s s' : rq_type q = READ_REQ -> rq_device_num q < num ->
      devs !! Z.to_nat (rq_device_num q) = Some d ->
      readReg d (rq_address q) (rq_data q) s = (inr (e, v), s') -> answers q s (set_rq_data v q) s'
  | ans_write q d e s s' : rq_type q = WRITE_REQ -> rq_device_num q < num ->
      devs !! Z.to_nat (rq_device_num q) = Some d ->
      writeReg d (rq_address q) (rq_data q) s = (inr e, s') -> answers q s q s'
  | ans_known q s : rq_type q = CHECK_REQ \/ rq_type q = OPEN_REQ -> rq_device_num q < num ->
      is_Some (devs !! Z.to_nat (rq_device_num q)) -> answers q s (set_rq_data 1 q) s
  | ans_close q s : rq_type q = CLOSE_REQ -> rq_device_num q < num ->
      is_Some (devs !! Z.to_nat (rq_device_num q)) -> answers q s q s
  | ans_absent q s : rq_type q = CHECK_REQ -> num <= rq_device_num q -> answers q s (set_rq_data 0 q) s
  | ans_error q s : rq_type q <> CHECK_REQ ->
      (num <= rq_device_num q \/ CLOSE_REQ < rq_type q /\ is_Some (devs !! Z.to_nat (rq_device_num q))) ->
      answers q s (set_rq_error (-1) q) s.

Lemma execute_answers q s q' s' : answers q s q' s' -> execute devs num q s = (inr q', s').
Proof.
  unfold execute. destruct 1 as [q d e v s s' Ht Hn Hd E|q d e s s' Ht Hn Hd E|q s Ht Hn [d Hd]
    |q s Ht Hn [d Hd]|q s Ht Hn|q s Ht [Hn|[Hc [d Hd]]]].
  - apply Z.ltb_lt in Hn as ->. rewrite Hd, Ht. cbn. by rewrite (host_bind_done _ _ _ _ _ E).
  - apply Z.ltb_lt in Hn as ->. rewrite Hd, Ht. cbn. by rewrite (host_bind_done _ _ _ _ _ E).
  - apply Z.ltb_lt in Hn as ->. rewrite Hd. by destruct Ht as [-> | ->].
  - apply Z.ltb_lt in Hn as ->. by rewrite Hd, Ht.
  - apply Z.ltb_ge in Hn as ->. by rewrite Ht.
  - apply Z.ltb_ge in Hn as ->. by apply Z.eqb_neq in Ht as ->.
  - apply Z.eqb_neq in Ht as Ht'. unfold CLOSE_REQ, READ_REQ, WRITE_REQ, OPEN_REQ in *.
    destruct (rq_device_num q <? num); [rewrite Hd|by rewrite Ht'].
    rewrite !(proj2 (Z.eqb_neq _ _)) by lia. done.
Qed.

(** What a list of requests comes to: each is answered in turn, until one that
    closes the connection. *)
Inductive serves : list reg_request -> Ws -> list reg_request -> Ws -> bool -> Prop :=
  | serves_nil s : serves [] s [] s false
  | serves_close q qs s q' s' : request_ok q -> request_ok q' ->
      answers q s q' s' -> hangs_up q -> serves (q :: qs) s [q'] s' true
  | serves_next q qs s q' s1 out s' b : request_ok q -> request_ok q' ->
      answers q s q' s1 -> ~ hangs_up q ->
      serves qs s1 out s' b -> serves (q :: qs) s (q' :: out) s' b.

Lemma execute_beside q s c :
  execute devs num q (s, c) = let '(r, s') := execute devs num q s in (r, (s', c)).
Proof.
  unfold execute. destruct (rq_device_num q <? num).
  - destruct (devs !! Z.to_nat (rq_device_num q)) as [d|]; [|done].
    destruct (rq_type q =? READ_REQ).
    { unfold mbind, host_bind. cbn [readReg beside_lib]. unfold beside. cbn [fst snd].
      by destruct (readReg d (rq_address q) (rq_data q) s) as [[h|r] s']. }
    destruct (rq_type q =? WRITE_REQ).
    { unfold mbind, host_bind. cbn [writeReg beside_lib]. unfold beside. cbn [fst snd].
      by destruct (writeReg d (rq_address q) (rq_data q) s) as [[h|r] s']. }
    destruct (rq_type q =? CHECK_REQ); [done|]. destruct (rq_type q =? OPEN_REQ); [done|].
    by destruct (rq_type q =? CLOSE_REQ).
  - by destruct (rq_type q =? CHECK_REQ).
Qed.

(** Writing an answer adds it to what was sent. *)
Lemma writen_answer fuel fd b s c : 0 <= fd -> (length (c_sched c) + length b < fuel)%nat ->
  exists sch, writen fuel fd b (s, c)
      = (inr (Z.of_nat (length b)), (s, set_sched sch (set_out (c_out c ++ b) c))) /\
    (length sch <= length (c_sched c))%nat.
Proof.
  intros Hfd Hf.
  destruct (@writen_conn Ws sent server_sockets (fun _ _ => eq_refl)
    (fun todo w => w.1 = s /\ c_out w.2 ++ todo = c_out c ++ b /\ c_in w.2 = c_in c /\ c_hung w.2 = c_hung c)
    fuel fd b s c) as ([s1 c1] & E & (Hs & Ho & Hi & Hh) & Hl).
  - done.
  - intros todo k [s0 c0] (? & Ho & ? & ?) Hk. simpl in *. split_and!; [done| |done..].
    by rewrite <-app_assoc, take_drop.
  - done.
  - done.
  - done.
  - done.
  - simpl in *. subst s1. exists (c_sched c1). rewrite app_nil_r in Ho. split; [|done]. rewrite E.
    destruct c as [i o h sc], c1 as [i1 o1 h1 sc1]. simpl in *. by subst.
Qed.

(** One round of the loop: a request is read, executed and answered. *)
Lemma parse_round q q' s s1 rest c fuel rounds fd :
  request_ok q -> request_ok q' -> execute devs num q s = (inr q', s1) ->
  c_in c = request_bytes q ++ rest -> c_hung c = true -> 0 <= fd ->
  (length (c_sched c) + REQUEST_SIZE < fuel)%nat ->
  exists c2, parse_request fuel (S rounds) fd devs num (s, c)
      = (if closes num q then (inr 0, (s1, c2)) else parse_request fuel rounds fd devs num (s1, c2)) /\
    c_in c2 = rest /\ c_out c2 = c_out c ++ request_bytes q' /\ c_hung c2 = true /\
    (length (c_sched c2) <= length (c_sched c))%nat.
Proof.
  intros Ok Ok' Ex Hi Hh Hfd Hf.
  destruct (request_round_trip q Ok) as [L D]. destruct (request_round_trip q' Ok') as [L' _].
  destruct (@readn_conn Ws server_sockets (fun _ _ => eq_refl) fuel fd REQUEST_SIZE s c)
    as (sch & Hsch & Er); [done|by right|unfold REQUEST_SIZE in *; lia|].
  cbn [parse_request]. rewrite (host_bind_done _ _ _ _ _ Er). cbn [fst snd].
  rewrite Hi, take_app_length', L, Z.eqb_refl, D by done.
  erewrite host_bind_done by (rewrite execute_beside, Ex; reflexivity).
  set (c1 := set_sched sch (set_in _ c)).
  destruct (writen_answer fuel fd (request_bytes q') s1 c1) as (sch' & Ew & Hl');
    [done|unfold c1; cbn [c_sched set_sched]; rewrite L'; lia|].
  rewrite (host_bind_done _ _ _ _ _ Ew), L'.
  change (size_t (Z.of_nat REQUEST_SIZE) <? Z.of_nat REQUEST_SIZE) with false. cbv iota.
  eexists. split; [by destruct (closes num q)|]. unfold c1 in *. cbn [c_in c_out c_hung c_sched set_sched set_in set_out] in *.
  split_and!; [by rewrite drop_app_length'|done|done|lia].
Qed.

(** C29: The server returns, having answered the requests of a client in order, each
    once and with what the library did, however the stream is cut up and
    interrupted; it stops at the request that closes the connection, or at the
    end of the stream, where anything less than a request is an error. *)
Theorem parse_request_serves reqs rest out s s' b c fuel rounds fd :
  serves reqs s out s' b ->
  c_in c = concat (request_bytes <$> reqs) ++ rest -> (length rest < REQUEST_SIZE)%nat ->
  c_hung c = true -> 0 <= fd -> (length (c_sched c) + REQUEST_SIZE < fuel)%nat ->
  (length reqs < rounds)%nat ->
  returns (parse_request fuel rounds fd devs num) (fun r w =>
    r = (if b || bool_decide (rest = []) then 0 else -1) /\ w.1 = s' /\
    c_out w.2 = c_out c ++ concat (request_bytes <$> out)) (s, c).
Proof.
  intros Hsv. revert c rounds. induction Hsv as [s|q qs s q' s' Ok Ok' Ex%execute_answers Hc|q qs s q' s1 out s' b Ok Ok' Ex%execute_answers Hc Hsv IH];
    intros c rounds Hi Hr Hh Hfd Hf Hro; (destruct rounds as [|rounds]; [simpl in Hro; lia|]);
    cbn [fmap list_fmap concat] in Hi.
  - destruct (@readn_conn Ws server_sockets (fun _ _ => eq_refl) fuel fd REQUEST_SIZE s c)
      as (sch & Hsch & Er); [done|by right|unfold REQUEST_SIZE in *; lia|].
    unfold returns. cbn [parse_request]. rewrite (host_bind_done _ _ _ _ _ Er). cbn [fst snd].
    rewrite Hi, take_ge by (simpl; lia). cbn [app orb].
    assert (Z.of_nat (length rest) =? Z.of_nat REQUEST_SIZE = false) as -> by (apply Z.eqb_neq; lia).
    destruct rest as [|x rest]; simpl; rewrite app_nil_r; done.
  - rewrite <-app_assoc in Hi.
    destruct (parse_round q q' s s' _ c fuel rounds fd Ok Ok' Ex Hi Hh Hfd Hf) as (c2 & E & _ & Ho & _).
    apply closes_hangs_up in Hc. eapply returns_done; [by rewrite E, Hc|]. simpl. by rewrite app_nil_r.
  - rewrite <-app_assoc in Hi.
    destruct (parse_round q q' s s1 _ c fuel rounds fd Ok Ok' Ex Hi Hh Hfd Hf) as (c2 & E & Hi2 & Ho & Hh2 & Hl).
    apply not_closes in Hc. unfold returns. rewrite E, Hc. eapply returns_mono; [apply (IH c2 rounds Hi2); try done|].
    + lia.
    + simpl in Hro. lia.
    + intros r w' (-> & Hw & Ho'). split_and!; [done|done|].
      rewrite Ho', Ho. simpl. by rewrite <-app_assoc.
Qed.
End Session.

(** ** The errors of the sockets *)

(** A count of -1 is compared with a [size_t]: when the connection is gone and
    both system calls fail, a read of the client still succeeds, with the word
    of the request, and a write is reported as done. *)
Theorem lost_connection_is_success {W} `{Sockets W} `{!Stack W} fuel nf2 reg cur val w :
  (0 < fuel)%nat -> 0 <= net_iface nf2 -> is_u8 (dev_fd nf2) -> is_u32 reg -> is_u32 val ->
  (forall b, sock_write (net_iface nf2) b w = (inr WError, w)) ->
  (forall n, sock_read (net_iface nf2) n w = (inr RError, w)) ->
  Client.readReg fuel nf2 reg cur w = (inr (0, 0xBADDD065), w) /\
  Client.writeReg fuel nf2 reg val w = (inr 0, w).
Proof.
  intros Hfu Hn Hu Hr Hv Hw Hrd. destruct fuel as [|fuel]; [lia|].
  assert (forall req, request_ok req ->
    Client.sendRequest (S fuel) (net_iface nf2) req w = (inr (0, req), w)) as Hs.
  { intros req Ok. destruct (request_round_trip req Ok) as [L D].
    unfold Client.sendRequest, writen, readn.
    assert (net_iface nf2 <? 0 = false) as -> by (apply Z.ltb_ge; lia).
    assert (writen_loop (S fuel) (net_iface nf2) (length (request_bytes req)) (request_bytes req) w
            = (inr (-1), w)) as Ew.
    { destruct (request_bytes req) as [|x b] eqn:E; [done|]. cbn [writen_loop].
      by rewrite (host_bind_done _ _ _ _ _ (Hw _)). }
    rewrite (host_bind_done _ _ _ _ _ Ew).
    change (size_t (-1) <? Z.of_nat REQUEST_SIZE) with false. cbv iota.
    assert (readn_loop (S fuel) (net_iface nf2) [] REQUEST_SIZE w = (inr (-1, []), w)) as Er.
    { cbn [readn_loop REQUEST_SIZE]. by rewrite (host_bind_done _ _ _ _ _ (Hrd _)). }
    rewrite (host_bind_done _ _ _ _ _ Er). cbn [fst snd].
    change (size_t (-1) <? Z.of_nat REQUEST_SIZE) with false. cbv iota.
    unfold Client.overwrite. rewrite drop_0. cbn [app]. by rewrite D. }
  assert (forall type data, is_u8 type -> is_u32 data ->
    exists req, Client.new_request type (dev_fd nf2) reg data w = (inr req, w) /\ request_ok req /\
      rq_error req = 0 /\ rq_data req = data) as Hq.
  { intros type data Ht Hd. eexists. split; [reflexivity|]. split; [|done].
    split; simpl; try done; [by rewrite u8_id|..]; eauto 10 using u8_range. }
  destruct (Hq READ_REQ 0xBADDD065) as (q & Eq & Ok & He & Hda); [done|done|].
  destruct (Hq WRITE_REQ val) as (q' & Eq' & Ok' & He' & Hda'); [done|done|].
  unfold Client.readReg, Client.writeReg.
  rewrite (host_bind_done _ _ _ _ _ Eq), (host_bind_done _ _ _ _ _ (Hs q Ok)).
  rewrite (host_bind_done _ _ _ _ _ Eq'), (host_bind_done _ _ _ _ _ (Hs q' Ok')).
  cbn [fst snd]. by rewrite He, He', Hda.
Qed.

(** ** The arguments of the server *)

(** The server listens on every address of the host, whatever address it was
    given, and a port beyond 65535 is taken modulo 2^16. *)
Theorem parse_arguments_correct {W} `{Sockets W} num addr port more (w : W) cfg :
  parse_arguments (num :: addr :: port :: more) w = (inr cfg, w) ->
  sc_addr cfg = 0 /\ sc_port cfg = strtol port 0 mod 2 ^ 16 /\ 1024 <= sc_port cfg <= 65535 /\
  (sc_num cfg <= 10)%nat /\ is_Some (inet_aton addr).
Proof.
  cbn [parse_arguments]. destruct (inet_aton addr) as [a|]; [|done].
  erewrite host_bind_done by reflexivity.
  destruct (_ || _ || _ || (65535 <? _)) eqn:Eg; [done|].
  destruct ((_ <? 0) || (10 <? _)) eqn:En; [done|].
  intros [= <-]. cbn [sc_addr sc_port sc_num]. bool_to_prop.
  split_and!; [done|done|lia|lia|lia|by eexists].
Qed.
