(* ===== verification/Download.v ===== *)
(** The bitfile downloader (lib/C/download/nf_download.c): it strips the header
    of a Xilinx bitfile, writes the image to the card word by word, into the
    programming FIFO of the Virtex or into the memory the CPCI is reprogrammed
    from, waits for the card, resets it, and compares the versions. *)

From S2P Require Import Prelude Words Bytes CStrings CNumbers HostRegs DevInfo.
From Stdlib Require Import Ascii.
Local Open Scope Z_scope.

(** ** nf_download.h *)

Definition READ_BUFFER_SIZE : nat := 4096.
Definition CPCI_PROGRAMMING_DATA : Z := 0x100.
Definition CPCI_PROGRAMMING_STATUS : Z := 0x104.
Definition CPCI_PROGRAMMING_CONTROL : Z := 0x108.
Definition CPCI_ERROR : Z := 0x010.
Definition CPCI_ID : Z := 0x000.
Definition CPCI_CTRL : Z := 0x008.
Definition START_PROGRAMMING : Z := 0x00000001.
Definition DISABLE_RESET : Z := 0x00000100.
Definition VIRTEX_PROGRAM_CTRL_ADDR : Z := 0x0440000.
Definition VIRTEX_PROGRAM_RAM_BASE_ADDR : Z := 0x0480000.
Definition CPCI_BIN_SIZE : Z := 166980.
Definition VIRTEX_BIN_SIZE_V2_0 : Z := 1448740.
Definition VIRTEX_BIN_SIZE_V2_1 : Z := 2377668.

(** reg_defines.h *)
Definition MDIO_CONTROL_REGS : list Z := [0x0440000; 0x0440080; 0x0440100; 0x0440180].
Definition MDIO_INTERRUPT_MASK_REGS : list Z := [0x044006c; 0x04400ec; 0x044016c; 0x04401ec].

(** The card while the program sleeps, for some microseconds. *)
Class Clock (W : Type) := pass : Z -> W -> W.

(** ** The settings: [processArgs] *)

Record settings := mk_settings {
  verbose : bool;
  cpci_reprog : bool;
  ignore_dev_info : bool;
  log_file_name : string;
  intr_enable : bool;
  nf2 : nf2device;
  bin_file_name : string
}.

Definition default_settings : settings :=
  mk_settings false false false "stdout" true (mk_nf2device "nf2c0" 0 0 "" 0) "".

(** [strncpy(nf2.server_ip_addr, optarg, strlen(optarg))]: the array has 32
    bytes, and keeps what it held past the copy. *)
Definition MAX_IPADDR_LEN : nat := 32.

Definition overwrite_addr (old new : string) : string :=
  new +:+ implode (drop (String.length new) (chars old)).

Definition set_nf2 (d : nf2device) (s : settings) : settings :=
  mk_settings (verbose s) (cpci_reprog s) (ignore_dev_info s) (log_file_name s) (intr_enable s) d
    (bin_file_name s).

(** The cases of the switch over the options [getopt] finds. *)
Definition option_step {W} (c : ascii) (optarg : string) (s : settings) : host W settings :=
  let d := nf2 s in
  match c with
  | "v"%char => mret (mk_settings true (cpci_reprog s) (ignore_dev_info s) (log_file_name s)
                        (intr_enable s) d (bin_file_name s))
  | "c"%char => mret (mk_settings (verbose s) true (ignore_dev_info s) (log_file_name s)
                        (intr_enable s) d (bin_file_name s))
  | "n"%char => mret (mk_settings (verbose s) (cpci_reprog s) true (log_file_name s)
                        (intr_enable s) d (bin_file_name s))
  | "l"%char => mret (mk_settings (verbose s) (cpci_reprog s) (ignore_dev_info s) optarg
                        (intr_enable s) d (bin_file_name s))
  | "r"%char => mret (mk_settings (verbose s) (cpci_reprog s) (ignore_dev_info s) (log_file_name s)
                        false d (bin_file_name s))
  | "i"%char => mret (set_nf2 (mk_nf2device optarg (dev_fd d) (net_iface d) (server_ip_addr d)
                        (server_port_num d)) s)
  | "p"%char => mret (set_nf2 (mk_nf2device (device_name d) (dev_fd d) (net_iface d)
                        (server_ip_addr d) (int32 (strtol optarg 0))) s)
  | "a"%char =>
      if (MAX_IPADDR_LEN <? String.length optarg)%nat then halted HOverrun
      else mret (set_nf2 (mk_nf2device (device_name d) (dev_fd d) (net_iface d)
                   (overwrite_addr (server_ip_addr d) optarg) (server_port_num d)) s)
  | _ => halted (HExit 1)
  end.

Fixpoint read_options {W} (opts : list (ascii * string)) (s : settings) : host W settings :=
  match opts with
  | [] => mret s
  | (c, optarg) :: opts => s ← option_step c optarg s; read_options opts s
  end.

(** The options and the arguments after them, as [getopt] leaves them. *)
Definition processArgs {W} (opts : list (ascii * string)) (args : list string) : host W settings :=
  s ← read_options opts default_settings;
  match args with
  | [] => halted (HExit 1)
  | file :: _ =>
      if negb (strstr file ".bin") && negb (strstr file ".bit") then halted (HExit 1)
      else mret (mk_settings (verbose s) (cpci_reprog s) (ignore_dev_info s) (log_file_name s)
                   (intr_enable s) (nf2 s) file)
  end.

(** ** Files *)

(** [fread(mem, 1, n, file)]: the count, the memory and what is left. *)
Definition fread {W} (mem : bytes) (n : nat) (file : bytes) : host W (nat * bytes * bytes) :=
  let k := Nat.min n (length file) in
  if (length mem <? k)%nat then halted HOverrun
  else mret (k, take k file ++ drop k mem, drop k file).

Definition at_ {W} (mem : bytes) (i : nat) : host W Z :=
  match mem !! i with Some b => mret b | None => halted HOverrun end.

(** A length of two bytes, high byte first, at an index of the buffer. *)
Definition read_len {W} (mem : bytes) (i : nat) : host W nat :=
  hi ← at_ mem i; lo ← at_ mem (i + 1);
  mret (Z.to_nat (Z.lor (Z.shiftl hi 8) lo)).

(** One of the fields of the header: a string of [header_len] bytes and the
    [more] bytes after it; the buffer is then printed as a string. *)
Definition header_field {W} (mem : bytes) (header_len more : nat) (file : bytes)
    : host W (bytes * bytes) :=
  '(_, mem, file) ← fread mem (header_len + more) file;
  _ ← cstr mem;
  mret (mem, file).

(** [code_header] is what [malloc] returned; the result is the file from the
    position it is left at. *)
Definition StripHeader {W} (code_header : bytes) (code_file : bytes) : host W bytes :=
  '(code_header_size, code_header, file) ← fread code_header 2 code_file;
  a ← at_ code_header 0; b ← at_ code_header 1;
  if negb (code_header_size =? 0)%nat && (negb (a =? 0xff) || negb (b =? 0xff)) then
    header_len ← read_len code_header 0;
    '(_, code_header, file) ← fread code_header (header_len + 2 + 1 + 2) file;
    header_len ← read_len code_header (header_len + 2 + 1);
    '(code_header, file) ← header_field code_header header_len (1 + 2) file;
    header_len ← read_len code_header (header_len + 1);
    '(code_header, file) ← header_field code_header header_len (1 + 2) file;
    header_len ← read_len code_header (header_len + 1);
    '(code_header, file) ← header_field code_header header_len (1 + 2) file;
    header_len ← read_len code_header (header_len + 1);
    '(code_header, file) ← header_field code_header header_len (1 + 4) file;
    mret file
  else mret code_file.     (* rewind *)

(** ** The words of a block *)

(** The first four bytes of the data make a word, low byte first for the Virtex
    and high byte first for the CPCI; the last word may have fewer. *)
Definition virtex_word (data : bytes) : Z :=
  match data with
  | [] => 0
  | [a] => a
  | [a; b] => Z.lor a (Z.shiftl b 8)
  | [a; b; c] => Z.lor (Z.lor a (Z.shiftl b 8)) (Z.shiftl c 16)
  | a :: b :: c :: d :: _ => Z.lor (Z.lor (Z.lor a (Z.shiftl b 8)) (Z.shiftl c 16)) (Z.shiftl d 24)
  end.

Definition cpci_word (data : bytes) : Z :=
  match data with
  | [] => 0
  | [a] => Z.shiftl a 24
  | [a; b] => Z.lor (Z.shiftl a 24) (Z.shiftl b 16)
  | [a; b; c] => Z.lor (Z.lor (Z.shiftl a 24) (Z.shiftl b 16)) (Z.shiftl c 8)
  | a :: b :: c :: d :: _ => Z.lor (Z.lor (Z.lor (Z.shiftl a 24) (Z.shiftl b 16)) (Z.shiftl c 8)) d
  end.

Section Download.
Context {W : Type} `{RegLib W} `{!Stack W} `{!Clock W}.
Variable dev : nf2device.
(** The polls of a FIFO that does not empty. *)
Variable fuel : nat.

(** ** Registers *)

Definition NF2_RD32 (addr : Z) : host W Z :=
  v ← ask junk;
  r ← readReg dev addr v;
  if negb (r.1 =? 0) then halted (HExit 1) else mret r.2.

Definition NF2_WR32 (addr data : Z) : host W unit :=
  r ← writeReg dev addr data;
  if negb (r =? 0) then halted (HExit 1) else mret tt.

Definition usleep (us : Z) : host W unit := change (pass us).
Definition sleep (s : Z) : host W unit := change (pass (s * 1000000)).

(** [FatalError] *)
Definition FatalError {A} : host W A := halted (HExit 1).

(** ** Writing the image *)

(** "Every 8 words we need to check the FIFO" *)
Fixpoint wait_fifo (n : nat) : host W unit :=
  match n with
  | O => halted HFuel
  | S n =>
      result ← NF2_RD32 CPCI_PROGRAMMING_STATUS;
      if negb (Z.land result 0x10002 =? 2) && negb (Z.land result 0x100 =? 0x100) then
        if negb (Z.land result 0x10000 =? 0) then halted (HExit 1)
        else
          usleep 100;;
          _ ← NF2_RD32 CPCI_PROGRAMMING_STATUS;
          wait_fifo n
      else mret tt
  end.

(** The body of the loop over the words of a block. *)
Definition send_word (data_word : Z) (count : nat) : host W nat :=
  NF2_WR32 CPCI_PROGRAMMING_DATA data_word;;
  if (S count =? 8)%nat then wait_fifo fuel;; mret 0%nat else mret (S count).

Fixpoint virtex_loop (code_data : bytes) (count : nat) : host W unit :=
  match code_data with
  | [] => mret tt
  | _ :: rest =>
      count ← send_word (virtex_word code_data) count;
      match rest with
      | _ :: _ :: _ :: rest => virtex_loop rest count
      | _ => mret tt
      end
  end.

Definition DownloadVirtexCodeBlock (code_data : bytes) : host W unit := virtex_loop code_data 0.

(** Returns [prog_addr] after the block. *)
Fixpoint DownloadCPCICodeBlock (code_data : bytes) (prog_addr : Z) : host W Z :=
  match code_data with
  | [] => mret prog_addr
  | _ :: rest =>
      NF2_WR32 prog_addr (cpci_word code_data);;
      match rest with
      | _ :: _ :: _ :: rest => DownloadCPCICodeBlock rest (u32 (prog_addr + 4))
      | _ => mret (u32 (prog_addr + 4))
      end
  end.

(** The loop over the blocks of the file; [n] blocks are enough. Returns
    [bytes_sent] and [prog_addr]. *)
Fixpoint send_blocks (n : nat) (cpci_reprog : bool) (file : bytes) (bytes_sent prog_addr : Z)
    : host W (Z * Z) :=
  match file, n with
  | [], _ => mret (bytes_sent, prog_addr)
  | _, O => halted HFuel
  | _, S n =>
      let code_data := take READ_BUFFER_SIZE file in
      prog_addr ← (if cpci_reprog then DownloadCPCICodeBlock code_data prog_addr
                   else DownloadVirtexCodeBlock code_data;; mret prog_addr);
      send_blocks n cpci_reprog (drop READ_BUFFER_SIZE file)
        (int32 (bytes_sent + Z.of_nat (length code_data))) prog_addr
  end.

(** *** [DownloadCode] *)

(** The loop that waits for INIT to clear. *)
Fixpoint wait_init (retries : nat) : host W unit :=
  a ← NF2_RD32 CPCI_PROGRAMMING_STATUS;
  if Z.land a 0x10002 =? 0 then mret tt
  else
    b ← NF2_RD32 CPCI_PROGRAMMING_STATUS;
    if Z.land b 0x10000 =? 0 then mret tt
    else
      usleep 10000;;
      match retries with
      | O | S O => _ ← NF2_RD32 CPCI_PROGRAMMING_STATUS; halted (HExit 1)
      | S retries => wait_init retries
      end.

(** Resetting the download interface. *)
Definition reset_interface : host W unit :=
  NF2_WR32 CPCI_PROGRAMMING_CONTROL 1;;
  NF2_WR32 CPCI_ERROR 0;;
  usleep 100;;
  result ← NF2_RD32 CPCI_PROGRAMMING_STATUS;
  if negb (Z.land result 0x102 =? 0x2) then FatalError
  else
    _ ← NF2_RD32 CPCI_ERROR;
    usleep 10000;;
    wait_init 3.

Definition bytes_expected (cpci_reprog : bool) (version : Z) : Z :=
  if cpci_reprog then CPCI_BIN_SIZE
  else if version =? 1 then VIRTEX_BIN_SIZE_V2_0
  else if (version =? 2) || (version =? 3) || (version =? 4) then VIRTEX_BIN_SIZE_V2_1
  else -1.

(** The loop that waits for DONE, [retries] rounds left. *)
Fixpoint wait_done (retries : nat) : host W unit :=
  match retries with
  | O => mret tt
  | S retries =>
      sleep 1;;
      result ← NF2_RD32 CPCI_PROGRAMMING_STATUS;
      if Z.land result 0x100 =? 0x100 then mret tt
      else if Z.land result 0x10000 =? 0x10000 then FatalError
      else if (retries =? 0)%nat then FatalError
      else wait_done retries
  end.

(** Returns the two counts of the last line of the log. *)
Definition DownloadCode (cpci_reprog : bool) (prog_addr : Z) (code_file : bytes) : host W (Z * Z) :=
  version ← NF2_RD32 CPCI_ID;
  let version := Z.land version 0xffffff in
  (if negb cpci_reprog then reset_interface else mret tt);;
  r ← send_blocks (length code_file) cpci_reprog code_file 0 prog_addr;
  let counts := (r.1, bytes_expected cpci_reprog version) in
  (if cpci_reprog then
     NF2_WR32 VIRTEX_PROGRAM_CTRL_ADDR (Z.lor DISABLE_RESET START_PROGRAMMING)
   else wait_done 3);;
  mret counts.

Definition ResetDevice : host W unit :=
  val ← NF2_RD32 CPCI_CTRL;
  NF2_WR32 CPCI_CTRL (Z.lor val 0x100);;
  sleep 2.

(** [BeginCodeDownload] on the file that was opened, [None] if it was not. *)
Definition BeginCodeDownload (cpci_reprog : bool) (mem : bytes) (codefile : option bytes)
    : host W (Z * Z) :=
  match codefile with
  | None => FatalError
  | Some f => f ← StripHeader mem f; DownloadCode cpci_reprog VIRTEX_PROGRAM_RAM_BASE_ADDR f
  end.

Fixpoint write_all (regs : list Z) (v : Z) : host W unit :=
  match regs with [] => mret tt | r :: regs => NF2_WR32 r v;; write_all regs v end.

End Download.

(** ** The comparison of the versions *)

Definition VerifyDevInfo {W} `{RegLib W} `{!Stack W} (s : settings) : lib W unit :=
  if negb (ignore_dev_info s) && negb (cpci_reprog s) then
    nf2_read_info (nf2 s);;
    _ ← getDeviceInfoStr (nf2 s);
    id ← getDeviceID (nf2 s);
    if id =? none32 then mret tt
    else
      a ← getCPCIVersion (nf2 s); b ← getDeviceCPCIVersion (nf2 s);
      if negb (a =? b) then halted (HExit 1) else mret tt
  else mret tt.

(** ** [main]

    [files] are the files that can be read, [writable] the log files that can be
    opened, [mem] the memory of the header. *)
Definition main {W} `{RegLib W} `{!Stack W} `{!Clock W} (fuel : nat)
    (files : string -> option bytes) (writable : string -> bool) (mem : bytes)
    (opts : list (ascii * string)) (args : list string) : lib W Z :=
  s ← processArgs opts args;
  c ← world (check_iface (nf2 s));
  if negb (c.1 =? 0) then halted (HExit 1)
  else
    o ← world (openDescriptor c.2);
    if negb (o.1 =? 0) then halted (HExit 1)
    else
      let s := set_nf2 o.2 s in
      if negb (strncmp_eq (log_file_name s) "stdout" 6) && negb (writable (log_file_name s))
      then halted (HExit 1)
      else
        _ ← world (BeginCodeDownload (nf2 s) fuel (cpci_reprog s) mem (files (bin_file_name s)));
        (if negb (cpci_reprog s) then world (ResetDevice (nf2 s)) else mret tt);;
        world (write_all (nf2 s) MDIO_CONTROL_REGS 0x8000);;
        world (usleep 100);;
        (if intr_enable s then world (write_all (nf2 s) MDIO_INTERRUPT_MASK_REGS 0xfffd)
         else mret tt);;
        VerifyDevInfo s;;
        _ ← world (closeDescriptor (nf2 s));
        mret 0.
