(* ===== verification/DownloadTheorems.v ===== *)
(** What the downloader does: the header of a bitfile is skipped exactly, but a
    field longer than the buffer overruns it; the words the card gets are the
    bytes of the image, and the program ends once the card says it is done. *)

From S2P Require Import Prelude Words Bytes CStrings CNumbers HostRegs DevInfo Download.
From Stdlib Require Import Ascii.
Local Open Scope Z_scope.

(** ** The header of a bitfile *)

Definition be16 (n : nat) : bytes := [Z.of_nat n / 2 ^ 8; Z.of_nat n mod 2 ^ 8].

(** A counted field and the key of the next one. *)
Definition field (key : Z) (f : bytes) : bytes := be16 (length f) ++ f ++ [key].

(** The header Xilinx tools write: a field of magic bytes, its version, the key
    "a", the four strings with the keys between them, and the key "e" with the
    length of the image. *)
Definition bit_header (magic : bytes) (version : bytes) (a b c d e : Z)
    (ncd part date time : bytes) (image_len : bytes) : bytes :=
  be16 (length magic) ++ magic ++ version ++ [a] ++ field b ncd ++ field c part ++ field d date ++
  field e time ++ image_len.

Lemma fread_prefix {W} mem a rest n (w : W) : length a = n -> (n <= length mem)%nat ->
  fread mem n (a ++ rest) w = (inr (n, a ++ drop n mem, rest), w).
Proof.
  intros Ha Hn. unfold fread. rewrite length_app, Ha, Nat.min_l by lia.
  assert ((length mem <? n)%nat = false) as -> by (apply Nat.ltb_ge; lia).
  by rewrite take_app_length', drop_app_length'.
Qed.

Lemma at_app {W} a x rest (w : W) : at_ (a ++ x :: rest) (length a) w = (inr x, w).
Proof.
  unfold at_. rewrite lookup_app_r, Nat.sub_diag by lia. done.
Qed.

Lemma read_len_app {W} a n rest i (w : W) : length a = i -> Z.of_nat n < 2 ^ 16 ->
  read_len (a ++ be16 n ++ rest) i w = (inr n, w).
Proof.
  intros <- Hn. unfold read_len. cbn [be16 app].
  rewrite (host_bind_done _ _ _ _ _ (at_app a _ _ w)).
  assert (a ++ Z.of_nat n / 2 ^ 8 :: Z.of_nat n mod 2 ^ 8 :: rest
          = (a ++ [Z.of_nat n / 2 ^ 8]) ++ Z.of_nat n mod 2 ^ 8 :: rest) as -> by by rewrite <-app_assoc.
  replace (length a + 1)%nat with (length (a ++ [Z.of_nat n / 2 ^ 8])) by (rewrite length_app; simpl; lia).
  rewrite (host_bind_done _ _ _ _ _ (at_app _ _ _ w)).
  rewrite Z.shiftl_mul_pow2, lor_low by (lia || (apply Z.mod_pos_bound; lia)).
  unfold mret, host_ret. f_equal. f_equal. rewrite (Z.mul_comm (_ / _)), <-Z.div_mod by lia. lia.
Qed.

(** A buffer with a null byte in it prints as a string. *)
Lemma cstr_terminated {W} a rest (w : W) : 0 ∈ a -> exists t, cstr (a ++ rest) w = (inr t, w).
Proof.
  intros Hz. unfold cstr. enough (is_Some (cstring (a ++ rest))) as [t ->] by by eexists.
  induction a as [|x a IH]; [by apply elem_of_nil in Hz|]. simpl.
  destruct (Z.eqb_spec x 0) as [|Hx]; [by eexists|].
  rewrite elem_of_cons in Hz; destruct Hz as [Hz|Hz]; [congruence|]. destruct (IH Hz) as [t ->]. by eexists.
Qed.

(** A string of the header: it is read with what follows it. *)
Lemma header_field_done {W} mem f tail more rest (w : W) :
  length tail = more -> (length f + more <= length mem)%nat -> 0 ∈ f ->
  header_field mem (length f) more (f ++ tail ++ rest) w
  = (inr (f ++ tail ++ drop (length f + more) mem, rest), w).
Proof.
  intros Ht Hl Hz. unfold header_field. rewrite (app_assoc f tail rest).
  rewrite (host_bind_done _ _ _ _ _
    (fread_prefix mem (f ++ tail) rest (length f + more) w ltac:(rewrite length_app; lia) Hl)).
  rewrite <-app_assoc. destruct (cstr_terminated f (tail ++ drop (length f + more) mem) w Hz) as [t Et].
  by rewrite (host_bind_done _ _ _ _ _ Et).
Qed.

Lemma drop_mem_length n (mem : bytes) a : length a = n -> (n <= length mem)%nat ->
  length (a ++ drop n mem) = length mem.
Proof. intros Ha Hn. rewrite length_app, length_drop. lia. Qed.

(** A string of the header, whose end fits the buffer. *)
Definition string_ok (f : bytes) : Prop := (length f + 5 <= READ_BUFFER_SIZE)%nat /\ 0 ∈ f.

(** A string between two others: the length of the next one is read after it. *)
Lemma string_field {W} mem f key n rest (w : W) : length mem = 4096%nat -> string_ok f ->
  Z.of_nat n < 2 ^ 16 ->
  exists mem', header_field mem (length f) (1 + 2) (f ++ [key] ++ be16 n ++ rest) w = (inr (mem', rest), w) /\
    length mem' = 4096%nat /\ read_len mem' (length f + 1) w = (inr n, w).
Proof.
  intros Hm [Hl Hz] Hn. unfold READ_BUFFER_SIZE in Hl.
  change (f ++ [key] ++ be16 n ++ rest) with (f ++ ([key] ++ be16 n) ++ rest).
  rewrite header_field_done by (done || lia). eexists. split; [done|]. split.
  - rewrite !length_app, length_drop, Hm. simpl. lia.
  - rewrite <-app_assoc, (app_assoc f). apply read_len_app; [by rewrite length_app|done].
Qed.

(** The header is skipped, whatever the memory for it holds: the image that
    follows is downloaded from its first byte. *)
Theorem StripHeader_correct {W} mem magic version a b c d e ncd part date time image_len image (w : W) :
  length mem = READ_BUFFER_SIZE -> (length magic + 5 <= READ_BUFFER_SIZE)%nat ->
  length version = 2%nat -> length image_len = 4%nat ->
  string_ok ncd -> string_ok part -> string_ok date -> string_ok time ->
  StripHeader mem (bit_header magic version a b c d e ncd part date time image_len ++ image) w
  = (inr image, w).
Proof.
  intros Hm Hmagic Hv Hlen [L1 Z1] [L2 Z2] [L3 Z3] [L4 Z4]. unfold READ_BUFFER_SIZE in *.
  unfold bit_header, field. rewrite <-!app_assoc. unfold StripHeader.
  rewrite (host_bind_done _ _ _ _ _ (fread_prefix mem (be16 (length magic)) _ 2 w eq_refl ltac:(lia))).
  set (m1 := be16 (length magic) ++ drop 2 mem).
  assert (length m1 = 4096)%nat as Hm1 by (unfold m1; rewrite length_app, length_drop, Hm; done).
  assert (negb (2 =? 0)%nat && (negb (Z.of_nat (length magic) / 2 ^ 8 =? 0xff)
    || negb (Z.of_nat (length magic) mod 2 ^ 8 =? 0xff)) = true) as Hff.
  { cbn [Nat.eqb negb andb]. assert (Z.of_nat (length magic) / 2 ^ 8 < 0xff) as Hd
      by (apply Z.div_lt_upper_bound; lia).
    apply orb_true_iff. left. apply negb_true_iff, Z.eqb_neq. lia. }
  rewrite (host_bind_done _ _ _ _ _ (eq_refl : at_ m1 0 w = (inr (Z.of_nat (length magic) / 2 ^ 8), w))).
  rewrite (host_bind_done _ _ _ _ _ (eq_refl : at_ m1 1 w = (inr (Z.of_nat (length magic) mod 2 ^ 8), w))).
  rewrite Hff. unfold m1.
  rewrite (host_bind_done _ _ _ _ _ (read_len_app [] (length magic) (drop 2 mem) 0 w eq_refl ltac:(lia))).
  fold m1.
  set (tl := ncd ++ _). set (hd := magic ++ version ++ [a] ++ be16 (length ncd)).
  replace (magic ++ version ++ [a] ++ be16 (length ncd) ++ tl) with (hd ++ tl)
    by (unfold hd; by rewrite <-!app_assoc).
  assert (length hd = length magic + 2 + 1 + 2)%nat as Hhd
    by (unfold hd; rewrite !length_app, Hv; simpl; lia).
  assert (length magic + 2 + 1 + 2 <= length m1)%nat as Hle by lia.
  rewrite (host_bind_done _ _ _ _ _ (fread_prefix m1 hd tl _ w Hhd Hle)).
  set (m2 := hd ++ drop (length magic + 2 + 1 + 2) m1).
  assert (length m2 = 4096)%nat as Hm2 by (unfold m2; by rewrite drop_mem_length).
  assert (read_len m2 (length magic + 2 + 1) w = (inr (length ncd), w)) as E2.
  { unfold m2, hd. rewrite <-!app_assoc, (app_assoc version), (app_assoc magic).
    apply read_len_app; [rewrite !length_app, Hv; simpl; lia|lia]. }
  rewrite (host_bind_done _ _ _ _ _ E2). unfold tl.
  set (r4 := [e] ++ image_len ++ image). set (r3 := time ++ r4).
  set (r2 := date ++ [d] ++ be16 (length time) ++ r3). set (r1 := part ++ [c] ++ be16 (length date) ++ r2).
  destruct (string_field m2 ncd b (length part) r1 w Hm2 (conj L1 Z1) ltac:(lia)) as (m3 & E3 & Hm3 & E3').
  rewrite (host_bind_done _ _ _ _ _ E3), (host_bind_done _ _ _ _ _ E3').
  destruct (string_field m3 part c (length date) r2 w Hm3 (conj L2 Z2) ltac:(lia)) as (m4 & E4 & Hm4 & E4').
  rewrite (host_bind_done _ _ _ _ _ E4), (host_bind_done _ _ _ _ _ E4').
  destruct (string_field m4 date d (length time) r3 w Hm4 (conj L3 Z3) ltac:(lia)) as (m5 & E5 & Hm5 & E5').
  rewrite (host_bind_done _ _ _ _ _ E5), (host_bind_done _ _ _ _ _ E5').
  assert (length ([e] ++ image_len) = 1 + 4)%nat as He by (rewrite length_app, Hlen; done).
  assert (length time + (1 + 4) <= length m5)%nat as Hle5 by lia.
  unfold r3, r4. rewrite (app_assoc [e] image_len).
  by rewrite (host_bind_done _ _ _ _ _ (header_field_done m5 time ([e] ++ image_len) _ image w He Hle5 Z4)).
Qed.

(** A file whose first field is longer than the buffer overruns it: the length
    is taken from the file and never compared with the buffer. *)
Theorem StripHeader_overrun {W} mem n rest (w : W) :
  length mem = READ_BUFFER_SIZE -> (READ_BUFFER_SIZE < n + 5)%nat -> Z.of_nat n < 2 ^ 16 - 1 ->
  (n + 5 <= length rest)%nat ->
  StripHeader mem (be16 n ++ rest) w = (inl HOverrun, w).
Proof.
  unfold READ_BUFFER_SIZE. intros Hm Hn Hn2 Hr. unfold StripHeader.
  rewrite (host_bind_done _ _ _ _ _ (fread_prefix mem (be16 n) rest 2 w eq_refl ltac:(lia))).
  set (m1 := be16 n ++ drop 2 mem).
  assert (length m1 = 4096)%nat as Hm1 by (unfold m1; rewrite length_app, length_drop, Hm; done).
  rewrite (host_bind_done _ _ _ _ _ (eq_refl : at_ m1 0 w = (inr (Z.of_nat n / 2 ^ 8), w))).
  rewrite (host_bind_done _ _ _ _ _ (eq_refl : at_ m1 1 w = (inr (Z.of_nat n mod 2 ^ 8), w))).
  assert (negb (2 =? 0)%nat && (negb (Z.of_nat n / 2 ^ 8 =? 0xff)
    || negb (Z.of_nat n mod 2 ^ 8 =? 0xff)) = true) as ->.
  { cbn [Nat.eqb negb andb]. rewrite <-negb_andb. apply negb_true_iff, andb_false_iff.
    rewrite !Z.eqb_neq. destruct (Z.eq_dec (Z.of_nat n / 2 ^ 8) 0xff) as [E|]; [right|by left].
    intros E'. pose proof (Z.div_mod (Z.of_nat n) (2 ^ 8)). lia. }
  unfold m1.
  rewrite (host_bind_done _ _ _ _ _ (read_len_app [] n (drop 2 mem) 0 w eq_refl ltac:(lia))). fold m1.
  erewrite host_bind_halt; [done|]. unfold fread. rewrite Hm1, Nat.min_l by lia.
  by assert ((4096 <? n + 2 + 1 + 2)%nat = true) as -> by (apply Nat.ltb_lt; lia).
Qed.

(** ** The words of an image *)

(** The words a block is cut into, each made by [word] of the bytes from it on. *)
Fixpoint words_of (word : bytes -> Z) (d : bytes) : list Z :=
  match d with
  | [] => []
  | _ :: rest => word d :: match rest with _ :: _ :: _ :: rest => words_of word rest | _ => [] end
  end.

(** Induction on a list by four elements. *)
Lemma fours_ind (Q : bytes -> Prop) :
  Q [] -> (forall a, Q [a]) -> (forall a b, Q [a; b]) -> (forall a b c, Q [a; b; c]) ->
  (forall a b c d l, Q l -> Q (a :: b :: c :: d :: l)) -> forall l, Q l.
Proof.
  intros H0 H1 H2 H3 H4 l. remember (length l) as n eqn:En. revert l En.
  induction n as [n IH] using lt_wf_ind. intros l En.
  destruct l as [|a [|b [|c [|d l]]]]; auto. apply H4, (IH (length l)); [simpl in En; lia|done].
Qed.

(** The words depend on four bytes each. *)
Lemma words_of_app word a b : (forall x y z t l, word (x :: y :: z :: t :: l) = word [x; y; z; t]) ->
  (length a mod 4 = 0)%nat -> words_of word (a ++ b) = words_of word a ++ words_of word b.
Proof.
  intros Hw. induction a as [|x|x y|x y z|x y z t a IH] using fours_ind; intros Ha; try done.
  cbn [app words_of]. rewrite (Hw x y z t (a ++ b)), (Hw x y z t a), IH; [done|].
  cbn [length] in Ha. replace (S (S (S (S (length a))))) with (length a + 1 * 4)%nat in Ha by lia.
  by rewrite Nat.Div0.mod_add in Ha.
Qed.

Lemma lor4 a b c d : is_u8 a -> is_u8 b -> is_u8 c -> is_u8 d ->
  Z.lor (Z.lor (Z.lor a (Z.shiftl b 8)) (Z.shiftl c 16)) (Z.shiftl d 24)
  = a + 2 ^ 8 * b + 2 ^ 16 * c + 2 ^ 24 * d.
Proof.
  unfold is_u8. intros Ha Hb Hc Hd. rewrite !Z.shiftl_mul_pow2 by lia.
  rewrite (Z.lor_comm a), (lor_low b a 8), (Z.lor_comm _ (c * _)), (lor_low c _ 16),
    (Z.lor_comm _ (d * _)), (lor_low d _ 24) by lia. lia.
Qed.

Lemma virtex_word_le a b c d l : is_u8 a -> is_u8 b -> is_u8 c -> is_u8 d ->
  virtex_word (a :: b :: c :: d :: l) = a + 2 ^ 8 * b + 2 ^ 16 * c + 2 ^ 24 * d.
Proof. intros. by apply lor4. Qed.

(** A last word of fewer bytes is the word of those bytes and zeros. *)
Lemma virtex_word_pad l : (length l <= 3)%nat ->
  virtex_word l = virtex_word (l ++ replicate (4 - length l) 0).
Proof.
  destruct l as [|a [|b [|c [|d l]]]]; simpl; intros; try lia;
    rewrite ?Z.shiftl_0_l, ?Z.lor_0_r; done.
Qed.

Lemma cpci_word_pad l : (length l <= 3)%nat ->
  cpci_word l = cpci_word (l ++ replicate (4 - length l) 0).
Proof.
  destruct l as [|a [|b [|c [|d l]]]]; simpl; intros; try lia;
    rewrite ?Z.shiftl_0_l, ?Z.lor_0_r; done.
Qed.

Lemma cpci_word_be a b c d l : is_u8 a -> is_u8 b -> is_u8 c -> is_u8 d ->
  cpci_word (a :: b :: c :: d :: l) = d + 2 ^ 8 * c + 2 ^ 16 * b + 2 ^ 24 * a.
Proof.
  intros. cbn [cpci_word].
  assert (forall x y z t, Z.lor (Z.lor (Z.lor x y) z) t = Z.lor (Z.lor (Z.lor t z) y) x) as ->.
  { intros. rewrite (Z.lor_comm _ t), (Z.lor_comm _ z), (Z.lor_comm x y), !Z.lor_assoc. done. }
  by apply lor4.
Qed.

(** The zeros that fill the last word. *)
Definition padding (n : nat) : bytes := replicate ((4 - n mod 4) mod 4) 0.

Lemma padding_add4 n : padding (S (S (S (S n)))) = padding n.
Proof.
  unfold padding. replace (S (S (S (S n)))) with (n + 1 * 4)%nat by lia.
  by rewrite Nat.Div0.mod_add.
Qed.

Lemma word_bytes_split a b c d : is_u8 a -> is_u8 b -> is_u8 c -> is_u8 d ->
  word_bytes (a + 2 ^ 8 * b + 2 ^ 16 * c + 2 ^ 24 * d) = [a; b; c; d].
Proof.
  unfold is_u8, word_bytes, u8. intros. repeat f_equal; Z.div_mod_to_equations; lia.
Qed.

Lemma is_u8_0 : is_u8 0.
Proof. done. Qed.
#[local] Hint Resolve is_u8_0 : core.

(** The image can be read back from words that render as their four bytes. *)
Lemma words_bytes (word : bytes -> Z) (render : Z -> bytes) d :
  (forall a b c d l, is_u8 a -> is_u8 b -> is_u8 c -> is_u8 d ->
     render (word (a :: b :: c :: d :: l)) = [a; b; c; d] /\ is_u32 (word (a :: b :: c :: d :: l))) ->
  (forall l, (length l <= 3)%nat -> word l = word (l ++ replicate (4 - length l) 0)) ->
  is_bytes d ->
  concat (render <$> words_of word d) = d ++ padding (length d) /\ Forall is_u32 (words_of word d).
Proof.
  intros Hw Hp. unfold is_bytes.
  induction d as [|a|a b|a b c|a b c d l IH] using fours_ind; intros Hd;
    rewrite ?Forall_cons in Hd; destruct_and?.
  - done.
  - destruct (Hw a 0 0 0 []) as [E1 E2]; [done..|]. cbn [words_of fmap list_fmap concat].
    rewrite (Hp [a]) by (simpl; lia). cbn [length Nat.sub replicate app]. rewrite E1. auto.
  - destruct (Hw a b 0 0 []) as [E1 E2]; [done..|]. cbn [words_of fmap list_fmap concat].
    rewrite (Hp [a; b]) by (simpl; lia). cbn [length Nat.sub replicate app]. rewrite E1. auto.
  - destruct (Hw a b c 0 []) as [E1 E2]; [done..|]. cbn [words_of fmap list_fmap concat].
    rewrite (Hp [a; b; c]) by (simpl; lia). cbn [length Nat.sub replicate app]. rewrite E1. auto.
  - destruct IH as [IH1 IH2]; [done|]. destruct (Hw a b c d l) as [E1 E2]; [done..|].
    cbn [words_of fmap list_fmap concat length app]. rewrite E1, padding_add4.
    split; [|by constructor]. simpl in *. by rewrite IH1.
Qed.

(** Low byte first for the Virtex, high byte first for the CPCI. *)
Lemma virtex_words_bytes d : is_bytes d ->
  concat (word_bytes <$> words_of virtex_word d) = d ++ padding (length d) /\
  Forall is_u32 (words_of virtex_word d).
Proof.
  apply words_bytes; [|apply virtex_word_pad]. intros a b c e l Ha Hb Hc He.
  rewrite virtex_word_le by done. split; [by apply word_bytes_split|].
  unfold is_u8, is_u32 in *. lia.
Qed.

Lemma cpci_words_bytes d : is_bytes d ->
  concat (be_word <$> words_of cpci_word d) = d ++ padding (length d) /\
  Forall is_u32 (words_of cpci_word d).
Proof.
  apply words_bytes; [|apply cpci_word_pad]. intros a b c e l Ha Hb Hc He.
  rewrite cpci_word_be by done. unfold be_word, ntohl. rewrite bswap32_bytes by done.
  split; [by apply word_bytes_split|]. unfold is_u8, is_u32 in *. lia.
Qed.

(** ** Programming the card *)

Section Programming.
Context {W C : Type} `{RegLib W} `{!Stack W} `{!Clock W} `{RegCard C} {card : W -> C}.
Context {ready : nf2device -> W -> Prop} `{!RegLaws card ready}.
(** What time does to the card. *)
Variable tick : Z -> C -> C.
Hypothesis pass_law : forall d us w, ready d w ->
  card (pass us w) = tick us (card w) /\ ready d (pass us w).
Variables (dev : nf2device) (fuel : nat).

Lemma NF2_RD32_ready a w Q : ready dev w -> mapped a ->
  (forall w', ready dev w' -> card w' = (reg_read a (card w)).2 -> Q (reg_read a (card w)).1 w') ->
  returns (NF2_RD32 dev a) Q w.
Proof.
  intros Hw Hm HQ. unfold NF2_RD32. apply returns_seq. eapply returns_done; [reflexivity|].
  apply returns_seq. eapply returns_mono; [by apply readReg_law|]. intros r w' (-> & Ec & Hr).
  by apply HQ.
Qed.

Lemma NF2_WR32_ready a v w Q : ready dev w -> mapped a -> is_u32 v ->
  (forall w', ready dev w' -> card w' = reg_write a v (card w) -> Q tt w') ->
  returns (NF2_WR32 dev a v) Q w.
Proof.
  intros Hw Hm Hv HQ. unfold NF2_WR32. apply returns_seq.
  eapply returns_mono; [by apply writeReg_law|]. intros r w' (-> & Ec & Hr). by apply HQ.
Qed.

Lemma usleep_ready us w Q : ready dev w ->
  (forall w', ready dev w' -> card w' = tick us (card w) -> Q tt w') -> returns (usleep us) Q w.
Proof. intros Hw HQ. destruct (pass_law dev us w Hw). by apply HQ. Qed.

(** *** The CPCI *)

(** The words of an image at consecutive addresses. *)
Fixpoint write_words (addr : Z) (ws : list Z) (c : C) : C :=
  match ws with [] => c | v :: ws => write_words (addr + 4) ws (reg_write addr v c) end.

Lemma write_words_app a b addr c :
  write_words addr (a ++ b) c = write_words (addr + 4 * Z.of_nat (length a)) b (write_words addr a c).
Proof.
  revert addr c. induction a as [|v a IH]; intros addr c.
  - simpl. f_equal. lia.
  - cbn [app write_words length]. rewrite IH. f_equal. lia.
Qed.

Definition words_mapped (addr : Z) (n : nat) : Prop :=
  0 <= addr /\ addr + 4 * Z.of_nat n < 2 ^ 32 /\
  forall i, (i < n)%nat -> mapped (addr + 4 * Z.of_nat i).

Lemma words_mapped_next addr n : words_mapped addr (S n) ->
  mapped addr /\ u32 (addr + 4) = addr + 4 /\ words_mapped (addr + 4) n.
Proof.
  unfold words_mapped. intros (H1 & H2 & H3). split_and!.
  - specialize (H3 0%nat ltac:(lia)). by rewrite Z.add_0_r in H3.
  - apply u32_id. unfold is_u32. lia.
  - lia.
  - lia.
  - intros i Hi. specialize (H3 (S i) ltac:(lia)). by replace (addr + 4 + 4 * Z.of_nat i) with (addr + 4 * Z.of_nat (S i)) by lia.
Qed.

Lemma DownloadCPCICodeBlock_ready data addr w Q : ready dev w -> is_bytes data ->
  words_mapped addr (length (words_of cpci_word data)) ->
  (forall w', ready dev w' -> card w' = write_words addr (words_of cpci_word data) (card w) ->
     Q (addr + 4 * Z.of_nat (length (words_of cpci_word data))) w') ->
  returns (DownloadCPCICodeBlock dev data addr) Q w.
Proof.
  intros Hw Hd. destruct (cpci_words_bytes data Hd) as [_ Hu]. clear Hd.
  revert addr w Hw Hu. induction data as [|a|a b|a b c|a b c d l IH] using fours_ind;
    intros addr w Hw Hu Hm HQ; cbn [DownloadCPCICodeBlock words_of] in *.
  - replace addr with (addr + 4 * Z.of_nat (length (@nil Z))) at 1 by (simpl; lia). by apply HQ.
  - apply words_mapped_next in Hm as (Hm & -> & _). apply Forall_inv in Hu.
    apply returns_seq, NF2_WR32_ready; [done..|]. intros w' Hw' Ec. by apply HQ.
  - apply words_mapped_next in Hm as (Hm & -> & _). apply Forall_inv in Hu.
    apply returns_seq, NF2_WR32_ready; [done..|]. intros w' Hw' Ec. by apply HQ.
  - apply words_mapped_next in Hm as (Hm & -> & _). apply Forall_inv in Hu.
    apply returns_seq, NF2_WR32_ready; [done..|]. intros w' Hw' Ec. by apply HQ.
  - apply words_mapped_next in Hm as (Hm & -> & Hm'). rewrite Forall_cons in Hu. destruct Hu as [Hu Hu'].
    apply returns_seq, NF2_WR32_ready; [done..|]. intros w1 Hw1 Ec1.
    apply IH; [done..|]. intros w2 Hw2 Ec2.
    replace (addr + 4 + 4 * Z.of_nat (length (words_of cpci_word l)))
      with (addr + 4 * Z.of_nat (length (cpci_word (a :: b :: c :: d :: l) :: words_of cpci_word l)))
      by (simpl length; lia).
    apply HQ; [done|]. cbn [write_words]. by rewrite Ec2, Ec1.
Qed.

(** The blocks of a file make the words of the file. *)
Lemma words_of_blocks word f : (forall x y z t l, word (x :: y :: z :: t :: l) = word [x; y; z; t]) ->
  words_of word f = words_of word (take READ_BUFFER_SIZE f) ++ words_of word (drop READ_BUFFER_SIZE f).
Proof.
  intros Hw. destruct (Nat.le_ge_cases READ_BUFFER_SIZE (length f)) as [Hl|Hl].
  - rewrite <-(take_drop READ_BUFFER_SIZE f) at 1. apply words_of_app; [done|].
    rewrite length_take, Nat.min_l by done. by vm_compute.
  - by rewrite take_ge, drop_ge, app_nil_r.
Qed.

Lemma send_blocks_cpci n f sent addr w Q : ready dev w -> is_bytes f -> (length f <= n)%nat ->
  0 <= sent -> sent + Z.of_nat (length f) < 2 ^ 31 ->
  words_mapped addr (length (words_of cpci_word f)) ->
  (forall w' r, ready dev w' -> card w' = write_words addr (words_of cpci_word f) (card w) ->
     r.1 = sent + Z.of_nat (length f) -> Q r w') ->
  returns (send_blocks dev fuel n true f sent addr) Q w.
Proof.
  revert f sent addr w. induction n as [|n IH]; intros f sent addr w Hw Hf Hn Hs1 Hs2 Hm HQ.
  - destruct f; [|simpl in Hn; lia]. apply HQ; [done..|simpl; lia].
  - destruct f as [|x f']; [apply HQ; [done..|simpl; lia]|]. set (f := x :: f') in *.
    assert (0 < length f)%nat as Hpos by (unfold f; simpl; lia).
    change (returns (prog_addr ← DownloadCPCICodeBlock dev (take READ_BUFFER_SIZE f) addr;
      send_blocks dev fuel n true (drop READ_BUFFER_SIZE f)
        (int32 (sent + Z.of_nat (length (take READ_BUFFER_SIZE f)))) prog_addr) Q w).
    rewrite (words_of_blocks cpci_word f) in Hm, HQ by done.
    rewrite length_app in Hm.
    apply returns_seq, DownloadCPCICodeBlock_ready; [done|by apply Forall_take| |].
    { destruct Hm as (H1' & H2' & H3'). split_and!; [done|lia|]. intros i Hi. apply H3'. lia. }
    intros w1 Hw1 Ec1. 
    set (k := length (words_of cpci_word (take READ_BUFFER_SIZE f))) in *.
    rewrite length_take. rewrite int32_id by (split; lia).
    apply IH; [done|by apply Forall_drop|rewrite length_drop; unfold READ_BUFFER_SIZE; lia|lia
              |rewrite length_drop; lia| |].
    + destruct Hm as (Ha & Hb & Hc). split_and!; [lia|lia|]. intros i Hi.
      replace (addr + 4 * Z.of_nat k + 4 * Z.of_nat i) with (addr + 4 * Z.of_nat (k + i)) by lia.
      apply Hc. lia.
    + intros w2 r Hw2 Ec2 Hr. apply HQ; [done| |rewrite Hr, length_drop; lia].
      rewrite write_words_app. by rewrite Ec2, Ec1.
Qed.

(** Reprogramming the CPCI: the image is stored in the memory of the Virtex in
    consecutive words, from which every byte can be read back, and then the
    reprogramming is started. *)
Theorem DownloadCode_cpci f w :
  ready dev w -> is_bytes f -> Z.of_nat (length f) < 2 ^ 31 -> mapped CPCI_ID ->
  words_mapped VIRTEX_PROGRAM_RAM_BASE_ADDR (length (words_of cpci_word f)) ->
  mapped VIRTEX_PROGRAM_CTRL_ADDR ->
  returns (DownloadCode dev fuel true VIRTEX_PROGRAM_RAM_BASE_ADDR f) (fun r w' =>
    r = (Z.of_nat (length f), CPCI_BIN_SIZE) /\
    card w' = reg_write VIRTEX_PROGRAM_CTRL_ADDR 0x101
      (write_words VIRTEX_PROGRAM_RAM_BASE_ADDR (words_of cpci_word f) (reg_read CPCI_ID (card w)).2)) w /\
  concat (be_word <$> words_of cpci_word f) = f ++ padding (length f).
Proof.
  intros Hw Hf Hl Hid Hm Hc. split; [|by apply cpci_words_bytes].
  unfold DownloadCode. apply returns_seq, NF2_RD32_ready; [done..|]. intros w1 Hw1 Ec1.
  cbn [negb]. apply returns_seq. eapply returns_done; [reflexivity|].
  apply returns_seq, send_blocks_cpci; [done..|lia|lia|done|]. intros w2 r Hw2 Ec2 Hr.
  apply returns_seq, NF2_WR32_ready; [done|done|done|]. intros w3 Hw3 Ec3.
  eapply returns_done; [reflexivity|]. cbn [bytes_expected]. rewrite Hr, Ec3, Ec2, Ec1. done.
Qed.

(** *** The Virtex

    A card that can be programmed: [L ws] are its states after it has received
    the words [ws] since the last reset. The FIFO empties, INIT stays low, DONE
    is low at first and high a second after the last word of [image]. *)
Record programmable (image : list Z) (L : list Z -> C -> Prop) : Prop := {
  pg_mapped : mapped CPCI_ID /\ mapped CPCI_ERROR /\ mapped CPCI_PROGRAMMING_DATA /\
    mapped CPCI_PROGRAMMING_STATUS /\ mapped CPCI_PROGRAMMING_CONTROL;
  pg_control c : L [] (reg_write CPCI_PROGRAMMING_CONTROL 1 c);
  pg_error ws c : L ws c -> L ws (reg_write CPCI_ERROR 0 c) /\ L ws (reg_read CPCI_ERROR c).2;
  pg_status ws c : L ws c -> Z.land (reg_read CPCI_PROGRAMMING_STATUS c).1 0x10002 = 2 /\
    L ws (reg_read CPCI_PROGRAMMING_STATUS c).2;
  pg_empty c : L [] c -> Z.land (reg_read CPCI_PROGRAMMING_STATUS c).1 0x100 = 0;
  pg_data ws v c : L ws c -> L (ws ++ [v]) (reg_write CPCI_PROGRAMMING_DATA v c);
  pg_tick us ws c : L ws c -> L ws (tick us c);
  pg_done c : L image c -> Z.land (reg_read CPCI_PROGRAMMING_STATUS (tick 1000000 c)).1 0x100 = 0x100
}.

Section Virtex.
Variables (image : list Z) (L : list Z -> C -> Prop).
Hypothesis pg : programmable image L.
Hypothesis fuel_pos : (0 < fuel)%nat.

(** The device is open, and the card has received [ws]. *)
Definition loading (ws : list Z) (w : W) : Prop := ready dev w /\ L ws (card w).

Lemma read_status ws w Q : loading ws w ->
  (forall v w', loading ws w' -> Z.land v 0x10002 = 2 ->
     (ws = [] -> Z.land v 0x100 = 0) -> Q v w') ->
  returns (NF2_RD32 dev CPCI_PROGRAMMING_STATUS) Q w.
Proof.
  intros [Hw HL] HQ. apply NF2_RD32_ready; [done|apply pg|]. intros w' Hw' Ec.
  destruct (pg_status _ _ pg _ _ HL) as [Hs HL']. apply HQ; [|done|].
  - split; [done|]. by rewrite Ec.
  - intros ->. by apply (pg_empty _ _ pg).
Qed.

Lemma usleep_loading us ws w Q : loading ws w -> (forall w', loading ws w' -> Q tt w') ->
  returns (usleep us) Q w.
Proof.
  intros [Hw HL] HQ. apply usleep_ready; [done|]. intros w' Hw' Ec. apply HQ. split; [done|].
  rewrite Ec. by apply pg.
Qed.

Lemma send_word_loading v count ws w Q : loading ws w -> is_u32 v ->
  (forall n w', loading (ws ++ [v]) w' -> Q n w') -> returns (send_word dev fuel v count) Q w.
Proof.
  intros [Hw HL] Hv HQ. unfold send_word.
  apply returns_seq, NF2_WR32_ready; [done|apply pg|done|]. intros w1 Hw1 Ec1.
  assert (loading (ws ++ [v]) w1) as Hl1 by (split; [done|]; rewrite Ec1; by apply pg).
  destruct (S count =? 8)%nat; [|by apply HQ].
  destruct fuel as [|k]; [lia|]. apply returns_seq. cbn [wait_fifo].
  apply returns_seq, (read_status (ws ++ [v])); [done|]. intros x w2 Hl2 Hx _. rewrite Hx.
  eapply returns_done; [reflexivity|]. by apply HQ.
Qed.

Lemma virtex_loop_loading data count ws w Q : loading ws w -> is_bytes data ->
  (forall w', loading (ws ++ words_of virtex_word data) w' -> Q tt w') ->
  returns (virtex_loop dev fuel data count) Q w.
Proof.
  intros Hw Hd. destruct (virtex_words_bytes data Hd) as [_ Hu]. clear Hd.
  revert count ws w Hw Hu. induction data as [|a|a b|a b c|a b c d l IH] using fours_ind;
    intros count ws w Hw Hu HQ; cbn [virtex_loop words_of] in *.
  - apply HQ. by rewrite app_nil_r.
  - apply returns_seq, (send_word_loading _ _ ws); [done|by apply Forall_inv in Hu|].
    intros n w' Hl. by apply HQ.
  - apply returns_seq, (send_word_loading _ _ ws); [done|by apply Forall_inv in Hu|].
    intros n w' Hl. by apply HQ.
  - apply returns_seq, (send_word_loading _ _ ws); [done|by apply Forall_inv in Hu|].
    intros n w' Hl. by apply HQ.
  - rewrite Forall_cons in Hu. destruct Hu as [Hu Hu'].
    apply returns_seq, (send_word_loading _ _ ws); [done..|]. intros n w1 Hl1.
    apply (IH n _ _ Hl1 Hu'). intros w2 Hl2. apply HQ. by rewrite <-app_assoc in Hl2.
Qed.

Lemma send_blocks_virtex n f sent addr ws w Q : loading ws w -> is_bytes f -> (length f <= n)%nat ->
  0 <= sent -> sent + Z.of_nat (length f) < 2 ^ 31 ->
  (forall w', loading (ws ++ words_of virtex_word f) w' -> Q (sent + Z.of_nat (length f), addr) w') ->
  returns (send_blocks dev fuel n false f sent addr) Q w.
Proof.
  revert f sent ws w. induction n as [|n IH]; intros f sent ws w Hw Hf Hn Hs1 Hs2 HQ.
  - destruct f; [|simpl in Hn; lia]. simpl in HQ. rewrite app_nil_r, Z.add_0_r in HQ. by apply HQ.
  - destruct f as [|x f']; [simpl in HQ; rewrite app_nil_r, Z.add_0_r in HQ; by apply HQ|].
    set (f := x :: f') in *.
    assert (0 < length f)%nat as Hpos by (unfold f; simpl; lia).
    change (returns (prog_addr ← (DownloadVirtexCodeBlock dev fuel (take READ_BUFFER_SIZE f);; mret addr);
      send_blocks dev fuel n false (drop READ_BUFFER_SIZE f)
        (int32 (sent + Z.of_nat (length (take READ_BUFFER_SIZE f)))) prog_addr) Q w).
    rewrite (words_of_blocks virtex_word f) in HQ by done.
    apply returns_seq, returns_seq, (virtex_loop_loading _ _ ws); [done|by apply Forall_take|].
    intros w1 Hl1. eapply returns_done; [reflexivity|].
    rewrite length_take. rewrite int32_id by (split; lia).
    apply (IH _ _ _ _ Hl1); [by apply Forall_drop|rewrite length_drop; unfold READ_BUFFER_SIZE; lia|lia
              |rewrite length_drop; lia|].
    intros w2 Hl2. rewrite length_drop.
    replace (sent + Z.of_nat (Nat.min READ_BUFFER_SIZE (length f)) + Z.of_nat (length f - READ_BUFFER_SIZE))
      with (sent + Z.of_nat (length f)) by lia.
    apply HQ. by rewrite app_assoc.
Qed.

Lemma reset_interface_loading w Q : ready dev w -> (forall w', loading [] w' -> Q tt w') ->
  returns (reset_interface dev) Q w.
Proof.
  intros Hw HQ. unfold reset_interface.
  apply returns_seq, NF2_WR32_ready; [done|apply pg|done|]. intros w1 Hw1 Ec1.
  apply returns_seq, NF2_WR32_ready; [done|apply pg|done|]. intros w2 Hw2 Ec2.
  assert (loading [] w2) as Hl2.
  { split; [done|]. rewrite Ec2, Ec1. apply pg, pg. }
  apply returns_seq, (usleep_loading _ []); [done|]. intros w3 Hl3.
  apply returns_seq, (read_status []); [done|]. intros v w4 [Hw4 HL4] Hv Hv0.
  assert (Z.land v 0x102 = 0x2) as ->.
  { change 0x102 with (Z.lor (Z.land 0x10002 2) 0x100). rewrite Z.land_lor_distr_r, Z.land_assoc, Hv.
    by rewrite Hv0. }
  cbn [Z.eqb Pos.eqb negb].
  apply returns_seq, NF2_RD32_ready; [done|apply pg|]. intros w5 Hw5 Ec5.
  assert (loading [] w5) as Hl5 by (split; [done|]; rewrite Ec5; by apply pg).
  apply returns_seq, (usleep_loading _ []); [done|]. intros w6 Hl6. cbn [wait_init].
  apply returns_seq, (read_status []); [done|]. intros a w7 Hl7 Ha _. rewrite Ha. cbn [Z.eqb].
  apply returns_seq, (read_status []); [done|]. intros b w8 Hl8 Hb _.
  assert (Z.land b 0x10000 = 0) as ->.
  { change 0x10000 with (Z.land 0x10002 0x10000). by rewrite Z.land_assoc, Hb. }
  eapply returns_done; [reflexivity|]. by apply HQ.
Qed.
End Virtex.

(** C32: Programming the Virtex of a working card: the program ends with success, the
    card has received exactly the words of the image since the reset, and every
    byte of the image can be read back from them. *)
Theorem DownloadCode_virtex f L w :
  ready dev w -> is_bytes f -> Z.of_nat (length f) < 2 ^ 31 -> (0 < fuel)%nat ->
  programmable (words_of virtex_word f) L ->
  returns (DownloadCode dev fuel false VIRTEX_PROGRAM_RAM_BASE_ADDR f) (fun r w' =>
    r.1 = Z.of_nat (length f) /\ ready dev w' /\
    exists c, L (words_of virtex_word f) c /\
      card w' = (reg_read CPCI_PROGRAMMING_STATUS (tick 1000000 c)).2) w /\
  concat (word_bytes <$> words_of virtex_word f) = f ++ padding (length f).
Proof.
  intros Hw Hf Hl Hfu pg. split; [|by apply virtex_words_bytes].
  unfold DownloadCode. apply returns_seq, NF2_RD32_ready; [done|apply pg|]. intros w1 Hw1 _.
  cbn [negb]. apply returns_seq, (reset_interface_loading _ _ pg); [done|]. intros w2 Hl2.
  apply returns_seq, (send_blocks_virtex _ _ pg Hfu _ _ _ _ []); [done..|lia|lia|].
  intros w3 [Hw3 HL3]. cbn [app] in HL3. apply returns_seq. cbn [wait_done].
  apply returns_seq, usleep_ready; [done|]. intros w4 Hw4 Ec4.
  change (1 * 1000000) with 1000000 in Ec4.
  apply returns_seq, NF2_RD32_ready; [done|apply pg|]. intros w5 Hw5 Ec5.
  rewrite Ec4, (pg_done _ _ pg _ HL3), Z.eqb_refl.
  eapply returns_done; [reflexivity|]. eapply returns_done; [reflexivity|].
  split; [done|]. split; [done|]. exists (card w3). split; [done|]. by rewrite Ec5, Ec4.
Qed.
End Programming.
