(* ===== verification/RefCli.v ===== *)
(** The command line of the reference router (projects/reference_router/sw/
    cli.c, with the parsers of lib/C/common/util.c): it sets and lists the rows
    of the card's routing and ARP tables, the addresses of its ports and the
    limits of its queues, through the register library. The addresses of the
    registers come from a generated header and are parameters. *)

From S2P Require Import Prelude Words Bytes State CStrings CNumbers Sprint HostRegs DevInfo.
From Stdlib Require Import Ascii.
From stdpp Require Import pretty.
Local Open Scope Z_scope.

(** ** util.c *)

(** The tokens [strtok] finds with one delimiter: the pieces between runs of it. *)
Fixpoint tokens (delim : ascii) (cur : list ascii) (l : list ascii) : list (list ascii) :=
  let piece := match cur with [] => [] | _ => [cur] end in
  match l with
  | [] => piece
  | c :: l' => if Ascii.eqb c delim then piece ++ tokens delim [] l' else tokens delim (cur ++ [c]) l'
  end.

(** The loop of the two parsers: token after token into [ret], from [index] on. *)
Fixpoint store_tokens {W} (conv : list ascii -> option Z) (ret : bytes) (index : nat)
    (toks : list (list ascii)) : host W bytes :=
  match toks with
  | [] => mret ret
  | t :: toks =>
      match conv t with
      | None => halted HUnset
      | Some v =>
          if (index <? length ret)%nat
          then store_tokens conv (<[index := u8 v]> ret) (S index) toks
          else halted HOverrun
      end
  end.

(** [mem] is what [malloc] returned. *)
Definition parseip {W} (mem : bytes) (str : string) : host W bytes :=
  store_tokens (fun t => Some (atoi (implode t))) mem 0 (tokens "." [] (chars str)).

(** [%x] of a token. *)
Definition scan_x (l : list ascii) : option (Z * list ascii) :=
  match scan_number 16 l with Some (n, rest) => Some (u32 n, rest) | None => None end.

Definition parsemac {W} (mem : bytes) (str : string) : host W bytes :=
  store_tokens (fun t => fst <$> scan_x t) mem 0 (tokens ":" [] (chars str)).

(** The checksum of an IP header in a buffer of words, from byte 14 on. *)
Fixpoint cksm_loop (n : nat) (ind : Z) (buf : list Z) (sum : Z) : option Z :=
  match n with
  | O => Some sum
  | S n =>
      val ← buf !! Z.to_nat (ind / 4);
      let val := if ind mod 4 =? 0 then Z.shiftr val 16 else val in
      cksm_loop n (ind + 2) buf (u32 (sum + Z.land val 0xffff))
  end.

(** The second loop, as often as a 32-bit sum can need it. *)
Definition fold_sum (sum : Z) : Z := Z.land sum 0xffff + Z.shiftr sum 16.

Definition cksm (buf : list Z) : option Z :=
  w ← buf !! 4%nat;
  let max := 14 + Z.shiftr w 16 in
  sum ← cksm_loop (Z.to_nat ((max - 14 + 1) / 2)) 14 buf 0;
  Some (u16 (Z.lnot (fold_sum (fold_sum sum)))).

(** ** Standard input *)

(** A command reads the characters of the standard input. *)
Notation cmd W A := (host (list ascii * W) A).

Definition device_do {W A} (m : host W A) : cmd W A := fun s =>
  let '(r, w) := m s.2 in (r, (s.1, w)).
Definition stdin {W} : cmd W (list ascii) := ask fst.
Definition set_stdin {W} (l : list ascii) : cmd W unit := change (fun s => (l, s.2)).

(** [%s] into an array of [size] characters; [None] at the end of the input. *)
Definition scan_word {W} (size : nat) : cmd W (option string) :=
  l ← stdin;
  let '(w, rest) := span (fun c => negb (is_space c)) (skip_space l) in
  set_stdin rest;;
  match w with
  | [] => mret None
  | _ => if (length w <? size)%nat then mret (Some (implode w)) else halted HOverrun
  end.

(** A sign is taken even when no number follows it. *)
Definition drop_sign (l : list ascii) : list ascii :=
  match l with c :: l' => if Ascii.eqb c "-" || Ascii.eqb c "+" then l' else l | [] => [] end.

(** A number conversion: [None] when there is no number. *)
Definition scan_num {W} (base : Z) : cmd W (option Z) :=
  l ← stdin;
  match scan_number base l with
  | Some (n, rest) => set_stdin rest;; mret (Some (int32 (saturate n)))
  | None => set_stdin (drop_sign (skip_space l));; mret None
  end.

(** A variable that [scanf] was to assign, at its first use. *)
Definition assigned {W A} (o : option A) : cmd W A :=
  match o with Some a => mret a | None => halted HUnset end.

(** A conversion that is only tried when those before it succeeded. *)
Definition after {W A B} (before : option A) (m : cmd W (option B)) : cmd W (option B) :=
  match before with Some _ => m | None => mret None end.

(** ** The commands by name *)

Definition commands : list (string * Z) :=
  [("listip", 0); ("listarp", 1); ("setip", 2); ("setarp", 3); ("loadip", 4); ("loadarp", 5);
   ("clearip", 6); ("cleararp", 7); ("setq", 10); ("setpkts", 11); ("listmac", 12); ("setmac", 13);
   ("loadmac", 14); ("help", 8); ("quit", 9)]%string.

Definition parse (word : string) : Z :=
  match find_first (fun c => strcmp_eq word c.1) commands with Some c => c.2 | None => -1 end.

(** ** The registers *)

Section Cli.
Context {W : Type} `{RegLib W} `{!Stack W}.
Variable nf2 : nf2device.
(** The addresses of reg_defines_reference_router.h. *)
Variable address : State.reg -> Z.
Variables (OQ_CTRL OQ_ADDR_LO OQ_ADDR_HI OQ_MAX_PKTS : Z -> Z).
Variables (OQ_INITIALIZE_OQ_BIT_NUM OQ_ENABLE_SEND_BIT_NUM : Z).
(** The memory of the next allocation. *)
Variable malloc : nat -> W -> bytes.

(** A byte of a parsed address, as an [int]. *)
Definition byte_of (b : bytes) (i : nat) : Z := default 0 (b !! i).

Definition ip_word (b : bytes) : Z :=
  u32 (Z.lor (Z.lor (Z.lor (Z.shiftl (byte_of b 0) 24) (Z.shiftl (byte_of b 1) 16))
              (Z.shiftl (byte_of b 2) 8)) (byte_of b 3)).
Definition mac_hi (b : bytes) : Z := Z.lor (Z.shiftl (byte_of b 0) 8) (byte_of b 1).
Definition mac_lo (b : bytes) : Z :=
  u32 (Z.lor (Z.lor (Z.lor (Z.shiftl (byte_of b 2) 24) (Z.shiftl (byte_of b 3) 16))
              (Z.shiftl (byte_of b 4) 8)) (byte_of b 5)).

(** The results of the register calls are not looked at. *)
Definition wr (r : Z) (v : Z) : host W unit := _ ← writeReg nf2 r (u32 v); mret tt.
Definition rd (r : Z) : host W Z := v ← ask junk; x ← readReg nf2 r v; mret x.2.

(** [MAC_HI_REGS[port]]: four entries. *)
Definition addmac (port : Z) (mac : bytes) : host W unit :=
  let port := port - 1 in
  if (0 <=? port) && (port <=? 3) then
    wr (address (MAC_HI port)) (mac_hi mac);; wr (address (MAC_LO port)) (mac_lo mac)
  else halted HOverrun.

Definition addarp (entry : Z) (ip mac : bytes) : host W unit :=
  wr (address ARP_ENTRY_NEXT_HOP_IP) (ip_word ip);;
  wr (address ARP_ENTRY_MAC_HI) (mac_hi mac);;
  wr (address ARP_ENTRY_MAC_LO) (mac_lo mac);;
  wr (address ARP_WR_ADDR) entry.

Definition addip (entry : Z) (subnet mask nexthop : bytes) (port : Z) : host W unit :=
  wr (address RT_ENTRY_IP) (ip_word subnet);;
  wr (address RT_ENTRY_MASK) (ip_word mask);;
  wr (address RT_ENTRY_NEXT_HOP_IP) (ip_word nexthop);;
  wr (address RT_ENTRY_OUTPUT_PORT) port;;
  wr (address RT_WR_ADDR) entry.

(** ** The commands *)

Definition ip_of (s : string) : cmd W bytes :=
  mem ← device_do (ask (malloc 4)); device_do (parseip mem s).
Definition mac_of (s : string) : cmd W bytes :=
  mem ← device_do (ask (malloc 6)); device_do (parsemac mem s).

Definition setip : cmd W unit :=
  entry ← scan_num 0;
  subnet ← after entry (scan_word 15);
  mask ← after subnet (scan_word 15);
  nexthop ← after mask (scan_word 15);
  port ← after nexthop (scan_num 16);
  entry ← assigned entry;
  if (entry <? 0) || (15 <? entry) then mret tt
  else
    port ← assigned port;
    if (port <? 1) || (255 <? port) then mret tt
    else
      subnet ← assigned subnet; sn ← ip_of subnet;
      mask ← assigned mask; m ← ip_of mask;
      nexthop ← assigned nexthop; nh ← ip_of nexthop;
      device_do (addip entry sn m nh port).

Definition setarp : cmd W unit :=
  entry ← scan_num 0;
  nexthop ← after entry (scan_word 15);
  mac ← after nexthop (scan_word 30);
  entry ← assigned entry;
  if (entry <? 0) || (15 <? entry) then mret tt
  else
    nexthop ← assigned nexthop; nh ← ip_of nexthop;
    mac ← assigned mac; m ← mac_of mac;
    device_do (addarp entry nh m).

Definition setmac : cmd W unit :=
  port ← scan_num 0;
  mac ← after port (scan_word 30);
  port ← assigned port;
  if (port <? 1) || (4 <? port) then mret tt
  else mac ← assigned mac; m ← mac_of mac; device_do (addmac port m).

(** *** Listing: the rows read, and the lines printed *)

Record ip_listing := mk_ip_listing { li_subnet : Z; li_mask : Z; li_nh : Z; li_port : Z }.

Definition read_ip_row (i : Z) : host W ip_listing :=
  wr (address RT_RD_ADDR) i;;
  subnet ← rd (address RT_ENTRY_IP); mask ← rd (address RT_ENTRY_MASK);
  nh ← rd (address RT_ENTRY_NEXT_HOP_IP); valport ← rd (address RT_ENTRY_OUTPUT_PORT);
  mret (mk_ip_listing subnet mask nh (Z.land valport 0xff)).

Definition ip_valid (r : ip_listing) : bool :=
  negb (li_subnet r =? 0) || negb (li_mask r =? 0xffffffff) || negb (li_port r =? 0).

Definition dotted (ip : Z) : string :=
  pretty (Z.shiftr ip 24) +:+ "." +:+ pretty (Z.land (Z.shiftr ip 16) 0xff) +:+ "." +:+
  pretty (Z.land (Z.shiftr ip 8) 0xff) +:+ "." +:+ pretty (Z.land ip 0xff).

Fixpoint read_rows {A} (row : Z -> host W A) (n i : nat) : host W (list A) :=
  match n with
  | O => mret []
  | S n => r ← row (Z.of_nat i); rs ← read_rows row n (S i); mret (r :: rs)
  end.

(** The sixteen rows, [None] where "--Invalid--" is printed. *)
Definition listip : cmd W (list (option ip_listing)) :=
  rows ← device_do (read_rows read_ip_row 16 0);
  mret ((fun r => if ip_valid r then Some r else None) <$> rows).

Record arp_listing := mk_arp_listing { la_ip : Z; la_hi : Z; la_lo : Z }.

Definition read_arp_row (i : Z) : host W arp_listing :=
  wr (address ARP_RD_ADDR) i;;
  ip ← rd (address ARP_ENTRY_NEXT_HOP_IP); machi ← rd (address ARP_ENTRY_MAC_HI);
  maclo ← rd (address ARP_ENTRY_MAC_LO);
  mret (mk_arp_listing ip machi maclo).

Definition listarp : cmd W (list (option arp_listing)) :=
  rows ← device_do (read_rows read_arp_row 16 0);
  mret ((fun r => if negb (la_ip r =? 0) then Some r else None) <$> rows).

(** [ip] is never assigned and decides what is printed. *)
Definition read_mac_row (i : Z) : host W (option (Z * Z)) :=
  ip ← ask junk;
  machi ← rd (address (MAC_HI i)); maclo ← rd (address (MAC_LO i));
  mret (if negb (ip =? 0) then Some (machi, maclo) else None).

Definition listmac : cmd W (list (option (Z * Z))) := device_do (read_rows read_mac_row 4 0).

(** *** Loading from a file

    [fscanf] on a file is a conversion on its characters; it returns [EOF] when
    nothing but blanks is left. *)
Definition on_file {A} (content : list ascii) (m : cmd W A) : cmd W A := fun s =>
  let '(r, (_, w)) := m (content, s.2) in (r, (s.1, w)).

Definition at_end (l : list ascii) : bool := match skip_space l with [] => true | _ => false end.

(** The loops: the variables keep their values from line to line. *)
Fixpoint load_loop {V} (line : V -> cmd W V) (fuel : nat) (v : V) : cmd W unit :=
  l ← stdin;
  if at_end l then mret tt
  else match fuel with O => halted HFuel | S fuel => v ← line v; load_loop line fuel v end.

Definition keep {A} (new old : option A) : option A := match new with Some _ => new | None => old end.

(** What [strtok] leaves of the string it cuts up: it ends after the first
    token. *)
Definition cut_by (delim : ascii) (s : string) : string :=
  let '(ds, rest) := span (Ascii.eqb delim) (chars s) in
  implode (ds ++ (span (fun c => negb (Ascii.eqb delim c)) rest).1).

Record ip_line := mk_ip_line {
  il_entry : option Z; il_subnet : option string; il_mask : option string;
  il_nexthop : option string; il_port : option Z
}.

Definition loadip_line (v : ip_line) : cmd W ip_line :=
  entry ← scan_num 0;
  subnet ← after entry (scan_word 20);
  mask ← after subnet (scan_word 20);
  nexthop ← after mask (scan_word 20);
  port ← after nexthop (scan_num 16);
  let entry := keep entry (il_entry v) in
  let port := keep port (il_port v) in
  subnet ← assigned (keep subnet (il_subnet v)); sn ← ip_of subnet;
  mask ← assigned (keep mask (il_mask v)); m ← ip_of mask;
  nexthop ← assigned (keep nexthop (il_nexthop v)); nh ← ip_of nexthop;
  e ← assigned entry; p ← assigned port;
  device_do (addip e sn m nh p);;
  mret (mk_ip_line entry (Some (cut_by "." subnet)) (Some (cut_by "." mask))
          (Some (cut_by "." nexthop)) port).

Record arp_line := mk_arp_line { al_entry : option Z; al_ip : option string; al_mac : option string }.

Definition loadarp_line (v : arp_line) : cmd W arp_line :=
  entry ← scan_num 0;
  ip ← after entry (scan_word 20);
  mac ← after ip (scan_word 20);
  let entry := keep entry (al_entry v) in
  ip ← assigned (keep ip (al_ip v)); i ← ip_of ip;
  mac ← assigned (keep mac (al_mac v)); m ← mac_of mac;
  e ← assigned entry;
  device_do (addarp e i m);;
  mret (mk_arp_line entry (Some (cut_by "." ip)) (Some (cut_by ":" mac))).

Record mac_line := mk_mac_line { ml_port : option Z; ml_mac : option string }.

Definition loadmac_line (v : mac_line) : cmd W mac_line :=
  port ← scan_num 0;
  mac ← after port (scan_word 20);
  let port := keep port (ml_port v) in
  mac ← assigned (keep mac (ml_mac v)); m ← mac_of mac;
  p ← assigned port;
  device_do (addmac p m);;
  mret (mk_mac_line port (Some (cut_by ":" mac))).

Section Files.
(** The files that can be opened, and the lines that are read at most. *)
Variables (files : string -> option (list ascii)) (lines : nat).

(** Only [loadip] looks at the result of [fopen]. *)
Definition loadip : cmd W unit :=
  fn ← scan_word 30; fn ← assigned fn;
  match files fn with
  | None => mret tt
  | Some f => on_file f (load_loop loadip_line lines (mk_ip_line None None None None None))
  end.

Definition loadarp : cmd W unit :=
  fn ← scan_word 30; fn ← assigned fn;
  match files fn with
  | None => halted HNull
  | Some f => on_file f (load_loop loadarp_line lines (mk_arp_line None None None))
  end.

Definition loadmac : cmd W unit :=
  fn ← scan_word 30; fn ← assigned fn;
  match files fn with
  | None => halted HNull
  | Some f => on_file f (load_loop loadmac_line lines (mk_mac_line None None))
  end.
End Files.

(** *** Clearing *)

Definition clearip : cmd W unit :=
  entry ← scan_num 0;
  device_do (wr (address RT_ENTRY_IP) 0;; wr (address RT_ENTRY_MASK) 0xffffffff;;
             wr (address RT_ENTRY_NEXT_HOP_IP) 0;; wr (address RT_ENTRY_OUTPUT_PORT) 0);;
  entry ← assigned entry;
  device_do (wr (address RT_WR_ADDR) entry).

Definition cleararp : cmd W unit :=
  entry ← scan_num 0;
  device_do (wr (address ARP_ENTRY_NEXT_HOP_IP) 0;; wr (address ARP_ENTRY_MAC_HI) 0;;
             wr (address ARP_ENTRY_MAC_LO) 0);;
  entry ← assigned entry;
  device_do (wr (address ARP_WR_ADDR) entry).

(** *** Queues *)

Definition bit (n : Z) : Z := Z.shiftl 1 n.

(** The body of each case of the switches. *)
Definition stop_queue (q : Z) : host W unit :=
  wr (OQ_CTRL q) (Z.lor (bit OQ_INITIALIZE_OQ_BIT_NUM) (bit OQ_ENABLE_SEND_BIT_NUM)).
Definition start_queue (q : Z) : host W unit := wr (OQ_CTRL q) (bit OQ_ENABLE_SEND_BIT_NUM).

(** [queue], [min] and [max] are unsigned. *)
Definition setq : cmd W unit :=
  queue ← scan_num 10;
  mins ← after queue (scan_word 30);
  maxs ← after mins (scan_word 30);
  queue ← assigned queue;
  let queue := u32 queue in
  if 7 <? queue then mret tt
  else
    mins ← assigned mins;
    let min := u32 (strtol mins 16) in
    if 0x1fffff <? min then mret tt
    else
      maxs ← assigned maxs;
      let max := u32 (strtol maxs 16) in
      if 0x1fffff <? max then mret tt
      else
        device_do (stop_queue queue;;
                   wr (OQ_ADDR_LO queue) (Z.shiftr min 2);;
                   wr (OQ_ADDR_HI queue) (Z.shiftr max 2);;
                   start_queue queue).

Definition setpkts : cmd W unit :=
  queue ← scan_num 10;
  max ← after queue (scan_num 10);
  queue ← assigned queue;
  let queue := u32 queue in
  if 7 <? queue then mret tt
  else
    max ← assigned max;
    device_do (stop_queue queue;; wr (OQ_MAX_PKTS queue) (u32 max);; start_queue queue).

(** ** The prompt

    [rounds] commands at most. What the listing commands print is left out here;
    [help] only prints. A word is read into ten characters. *)
Definition ignore {A} (m : cmd W A) : cmd W unit := _ ← m; mret tt.

Fixpoint prompt (files : string -> option (list ascii)) (lines rounds : nat) : cmd W unit :=
  match rounds with
  | O => halted HFuel
  | S rounds =>
      c ← scan_word 10; c ← assigned c;
      let res := parse c in
      if res =? 9 then mret tt
      else
        (if res =? 0 then ignore listip
         else if res =? 1 then ignore listarp
         else if res =? 2 then setip
         else if res =? 3 then setarp
         else if res =? 4 then loadip files lines
         else if res =? 5 then loadarp files lines
         else if res =? 6 then clearip
         else if res =? 7 then cleararp
         else if res =? 10 then setq
         else if res =? 11 then setpkts
         else if res =? 12 then ignore listmac
         else if res =? 13 then setmac
         else if res =? 14 then loadmac files lines
         else mret tt);;
        prompt files lines rounds
  end.

End Cli.

(** ** [main] *)

Definition DEFAULT_IFACE : string := "nf2c0".

(** The options [getopt] finds: only "-i" does not end the program. *)
Fixpoint processArgs {W} (opts : list (ascii * string)) (nf2 : nf2device) : host W nf2device :=
  match opts with
  | [] => mret nf2
  | ("i"%char, optarg) :: opts =>
      processArgs opts (mk_nf2device optarg (dev_fd nf2) (net_iface nf2) (server_ip_addr nf2)
                          (server_port_num nf2))
  | _ => halted (HExit 1)
  end.

Definition main {W} `{RegLib W} `{!Stack W} (address : State.reg -> Z)
    (OQ_CTRL OQ_ADDR_LO OQ_ADDR_HI OQ_MAX_PKTS : Z -> Z)
    (OQ_INITIALIZE_OQ_BIT_NUM OQ_ENABLE_SEND_BIT_NUM : Z) (malloc : nat -> W -> bytes)
    (files : string -> option (list ascii)) (lines rounds : nat) (opts : list (ascii * string))
    : cmd W Z :=
  nf2 ← device_do (processArgs opts (mk_nf2device DEFAULT_IFACE 0 0 "" 0));
  c ← device_do (check_iface nf2);
  if negb (c.1 =? 0) then halted (HExit 1)
  else
    o ← device_do (openDescriptor c.2);
    if negb (o.1 =? 0) then halted (HExit 1)
    else
      prompt o.2 address OQ_CTRL OQ_ADDR_LO OQ_ADDR_HI OQ_MAX_PKTS OQ_INITIALIZE_OQ_BIT_NUM
        OQ_ENABLE_SEND_BIT_NUM malloc files lines rounds;;
      _ ← device_do (closeDescriptor o.2);
      mret 0.
