(* ===== verification/RefCliTheorems.v ===== *)
(** What the commands of the reference router do to the tables of its card: a
    row that is set is the row that is listed, other rows stay; the buffers the
    words are read into are too short for the longest addresses; and a file
    with a malformed line is never read to its end. *)

From S2P Require Import Prelude Words Bytes State CStrings CNumbers Sprint Netfpga HostRegs DevInfo RefCli.
From Stdlib Require Import Ascii.
From stdpp Require Import pretty.
Local Open Scope Z_scope.

(** ** Addresses as text *)

Lemma tokens_digits delim cur l rest : forallb (fun c => negb (Ascii.eqb c delim)) l = true ->
  tokens delim cur (l ++ rest) = tokens delim (cur ++ l) rest.
Proof.
  revert cur. induction l as [|c l IH]; intros cur Hl; [by rewrite app_nil_r|].
  simpl in Hl. apply andb_true_iff in Hl as [Hc Hl]. apply negb_true_iff in Hc.
  cbn [app tokens]. rewrite Hc, IH by done. by rewrite <-app_assoc.
Qed.

(** The decimal digits of a byte, as the parsers see them. *)
Definition byte_text_ok (z : Z) : bool :=
  let l := chars (pretty z) in
  (atoi (implode l) =? z) && forallb is_digit l && negb (bool_decide (l = [])).

Lemma byte_texts : forallb (fun n => byte_text_ok (Z.of_nat n)) (seq 0 256) = true.
Proof. by vm_compute. Qed.

Lemma byte_text z : is_u8 z ->
  atoi (implode (chars (pretty z))) = z /\ forallb is_digit (chars (pretty z)) = true /\
  chars (pretty z) <> [].
Proof.
  intros Hz. pose proof byte_texts as Hs. rewrite forallb_forall in Hs.
  specialize (Hs (Z.to_nat z)). rewrite Z2Nat.id in Hs by (unfold is_u8 in Hz; lia).
  assert (byte_text_ok z = true) as Hb.
  { apply Hs, in_seq. unfold is_u8 in Hz. lia. }
  unfold byte_text_ok in Hb. bool_to_prop. by apply bool_decide_eq_false in H0.
Qed.

(** The four bytes of an address and its text. *)
Definition quad (a b c d : Z) : string :=
  pretty a +:+ "." +:+ pretty b +:+ "." +:+ pretty c +:+ "." +:+ pretty d.

Lemma not_dot l : forallb is_digit l = true -> forallb (fun c => negb (Ascii.eqb c ".")) l = true.
Proof.
  intros Hl. apply forallb_forall. intros c Hc. rewrite forallb_forall in Hl. specialize (Hl c Hc).
  destruct (Ascii.eqb_spec c ".") as [->|]; done.
Qed.

Lemma tokens_quad a b c d : is_u8 a -> is_u8 b -> is_u8 c -> is_u8 d ->
  tokens "." [] (chars (quad a b c d))
  = [chars (pretty a); chars (pretty b); chars (pretty c); chars (pretty d)].
Proof.
  intros Ha Hb Hc Hd.
  destruct (byte_text _ Ha) as (_ & Da & Na), (byte_text _ Hb) as (_ & Db & Nb),
    (byte_text _ Hc) as (_ & Dc & Nc), (byte_text _ Hd) as (_ & Dd & Nd).
  apply not_dot in Da, Db, Dc, Dd.
  unfold quad. rewrite !chars_app.
  assert (forall cur rest, cur <> [] ->
    tokens "." cur (chars "." ++ rest) = cur :: tokens "." [] rest) as Hdot.
  { intros [|x cur] rest Hn; [done|]. done. }
  rewrite (tokens_digits _ [] (chars (pretty a))), Hdot by done. cbn [app].
  rewrite (tokens_digits _ [] (chars (pretty b))), Hdot by done. cbn [app].
  rewrite (tokens_digits _ [] (chars (pretty c))), Hdot by done. cbn [app].
  rewrite <-(app_nil_r (chars (pretty d))) at 1. rewrite tokens_digits by done. cbn [app tokens].
  by destruct (chars (pretty d)).
Qed.

(** An address that was printed is read back. *)
Lemma parseip_quad {W} mem a b c d (w : W) : length mem = 4%nat ->
  is_u8 a -> is_u8 b -> is_u8 c -> is_u8 d ->
  parseip mem (quad a b c d) w = (inr [a; b; c; d], w).
Proof.
  intros Hm Ha Hb Hc Hd. unfold parseip. rewrite tokens_quad by done.
  destruct mem as [|m0 [|m1 [|m2 [|m3 [|]]]]]; try done. cbn [store_tokens length Nat.ltb Nat.leb].
  rewrite (proj1 (byte_text a Ha)), (proj1 (byte_text b Hb)), (proj1 (byte_text c Hc)),
    (proj1 (byte_text d Hd)). cbn [insert list_insert]. by rewrite !u8_id.
Qed.

Lemma quad_chars a b c d : is_u8 a -> is_u8 b -> is_u8 c -> is_u8 d ->
  forallb (fun x => negb (is_space x)) (chars (quad a b c d)) = true /\ quad a b c d <> ""%string.
Proof.
  intros Ha Hb Hc Hd.
  assert (forall z, is_u8 z -> forallb (fun x => negb (is_space x)) (chars (pretty z)) = true) as Hz.
  { intros z Hz. destruct (byte_text z Hz) as (_ & Dz & _). apply forallb_forall. intros x Hx.
    rewrite forallb_forall in Dz. specialize (Dz x Hx). unfold is_digit in Dz. unfold is_space.
    apply negb_true_iff, orb_false_iff. bool_to_prop. split; [apply Z.eqb_neq; lia|].
    apply andb_false_iff. right. apply Z.leb_gt. lia. }
  split.
  - unfold quad. by rewrite !chars_app, !forallb_app, !Hz.
  - intros E. apply (f_equal chars) in E. unfold quad in E. rewrite chars_app in E.
    destruct (byte_text a Ha) as (_ & _ & Na). by destruct (chars (pretty a)).
Qed.

(** ** Reading words and numbers *)

Definition blank : list ascii := [" "%char].

Lemma skip_blank t c rest : forallb (fun x => negb (is_space x)) (chars t) = true -> t <> ""%string ->
  skip_space (blank ++ chars t ++ c :: rest) = chars t ++ c :: rest.
Proof.
  intros Ht Hne. unfold skip_space. cbn [blank app span]. change (is_space " ") with true. cbv iota.
  destruct (chars t) as [|x l] eqn:E; [by destruct t|].
  cbn [app span]. simpl in Ht. apply andb_true_iff in Ht as [Hx _]. apply negb_true_iff in Hx.
  by rewrite Hx.
Qed.

Lemma scan_word_fits {W} size t c rest (w : W) :
  forallb (fun x => negb (is_space x)) (chars t) = true -> t <> ""%string -> is_space c = true ->
  (String.length t < size)%nat ->
  scan_word size (blank ++ chars t ++ c :: rest, w) = (inr (Some t), (c :: rest, w)).
Proof.
  intros Ht Hne Hc Hl. unfold scan_word. erewrite host_bind_done by reflexivity. cbn [fst].
  rewrite skip_blank, span_stop by (done || by rewrite Hc).
  erewrite host_bind_done by reflexivity.
  rewrite <-(length_chars t) in Hl. apply Nat.ltb_lt in Hl. rewrite Hl, implode_chars.
  by destruct (chars t) as [|x l] eqn:E; [destruct t|].
Qed.

(** A word as long as its array is one byte too long. *)
Lemma scan_word_overruns {W} size t c rest (w : W) :
  forallb (fun x => negb (is_space x)) (chars t) = true -> t <> ""%string -> is_space c = true ->
  (size <= String.length t)%nat ->
  exists s, scan_word size (blank ++ chars t ++ c :: rest, w) = (inl HOverrun, s).
Proof.
  intros Ht Hne Hc Hl. unfold scan_word. erewrite host_bind_done by reflexivity. cbn [fst].
  rewrite skip_blank, span_stop by (done || by rewrite Hc).
  erewrite host_bind_done by reflexivity.
  assert ((length (chars t) <? size)%nat = false) as -> by (apply Nat.ltb_ge; by rewrite length_chars).
  destruct (chars t) as [|x l] eqn:E; [by destruct t|]. by eexists.
Qed.

Lemma scan_num_done {W} base l n rest (w : W) : scan_number base l = Some (n, rest) ->
  - 2 ^ 31 <= n < 2 ^ 31 -> scan_num base (l, w) = (inr (Some n), (rest, w)).
Proof.
  intros E Hn. unfold scan_num. erewrite host_bind_done by reflexivity. cbn [fst]. rewrite E.
  erewrite host_bind_done by reflexivity.
  assert (saturate n = n) as -> by (unfold saturate, LONG_MIN, LONG_MAX; lia).
  by rewrite int32_id.
Qed.

Lemma scan_entry entry rest : 0 <= entry <= 15 ->
  scan_number 0 (chars (pretty entry) ++ blank ++ rest) = Some (entry, blank ++ rest).
Proof.
  intros He. rewrite <-(Z2Nat.id entry) by lia. remember (Z.to_nat entry) as n eqn:En.
  assert (n <= 15)%nat as Hn by lia. clear He En.
  do 16 (destruct n as [|n]; [by destruct rest|]). lia.
Qed.

(** A port in hexadecimal, at the end of a line. *)
Definition eol : ascii := ascii_of_nat 10.

Lemma scan_port port rest : 0 <= port <= 255 ->
  scan_number 16 (blank ++ chars (fmt_02X port) ++ eol :: rest) = Some (port, eol :: rest).
Proof.
  intros Hp.
  assert (forall hi lo, (hi < 16)%nat -> (lo < 16)%nat ->
    scan_number 16 (blank ++ [hex_char (Z.of_nat hi); hex_char (Z.of_nat lo)] ++ eol :: rest)
    = Some (16 * Z.of_nat hi + Z.of_nat lo, eol :: rest)) as Hd.
  { intros hi lo Hhi Hlo.
    do 16 (destruct hi as [|hi]; [do 16 (destruct lo as [|lo]; [reflexivity|]); lia|]). lia. }
  unfold fmt_02X. rewrite chars_implode.
  specialize (Hd (Z.to_nat (port / 16)) (Z.to_nat (port mod 16))).
  assert (0 <= port / 16 < 16 /\ 0 <= port mod 16 < 16 /\ port = 16 * (port / 16) + port mod 16)
    as (H1 & H2 & H3) by (Z.div_mod_to_equations; lia).
  rewrite !Z2Nat.id in Hd by lia. rewrite Hd by lia. by rewrite <-H3.
Qed.

(** ** The card: the tables of Netfpga.v behind the registers *)

Definition dev_read (d : device) (r : reg) : Z :=
  match r with
  | RT_ENTRY_IP => row_ip (d_rt_entry d)
  | RT_ENTRY_MASK => row_mask (d_rt_entry d)
  | RT_ENTRY_NEXT_HOP_IP => row_next_hop (d_rt_entry d)
  | RT_ENTRY_OUTPUT_PORT => row_port (d_rt_entry d)
  | ARP_ENTRY_MAC_HI => arow_mac_hi (d_arp_entry d)
  | ARP_ENTRY_MAC_LO => arow_mac_lo (d_arp_entry d)
  | ARP_ENTRY_NEXT_HOP_IP => arow_next_hop (d_arp_entry d)
  | FILTER_ENTRY_IP => d_filter_entry d
  | _ => 0
  end.

Section Tables.
(** The generated header gives the registers of the tables different
    addresses. *)
Definition table_reg (r : reg) : bool :=
  match r with
  | RT_ENTRY_IP | RT_ENTRY_MASK | RT_ENTRY_NEXT_HOP_IP | RT_ENTRY_OUTPUT_PORT | RT_WR_ADDR | RT_RD_ADDR
  | ARP_ENTRY_MAC_HI | ARP_ENTRY_MAC_LO | ARP_ENTRY_NEXT_HOP_IP | ARP_WR_ADDR | ARP_RD_ADDR => true
  | _ => false
  end.

Variables (address : reg -> Z) (reg_of : Z -> option reg).
Hypothesis reg_of_address : forall r, table_reg r = true -> reg_of (address r) = Some r.

#[local] Instance table_card : RegCard device := {|
  reg_read a d := (match reg_of a with Some r => dev_read d r | None => 0 end, d);
  reg_write a v d := match reg_of a with Some r => dev_write d r v | None => d end;
  mapped a := is_Some (reg_of a)
|}.

Context {W : Type} `{RegLib W} `{!Stack W} {card : W -> device} {ready : nf2device -> W -> Prop}.
Context `{!RegLaws card ready}.
Variable nf2 : nf2device.

Lemma wr_ready r v w Q : table_reg r = true -> ready nf2 w ->
  (forall w', ready nf2 w' -> card w' = dev_write (card w) r (u32 v) -> Q tt w') ->
  returns (wr nf2 (address r) v) Q w.
Proof.
  intros Ht Hw HQ. apply reg_of_address in Ht. unfold wr. apply returns_seq. eapply returns_mono.
  - apply (writeReg_law (RegLaws := RegLaws0)); [done|by exists r|apply u32_range].
  - intros x w' (_ & Ec & Hr). apply HQ; [done|]. rewrite Ec. simpl. by rewrite Ht.
Qed.

Lemma rd_ready r w Q : table_reg r = true -> ready nf2 w ->
  (forall w', ready nf2 w' -> card w' = card w -> Q (dev_read (card w) r) w') ->
  returns (rd nf2 (address r)) Q w.
Proof.
  intros Ht Hw HQ. apply reg_of_address in Ht. unfold rd. apply returns_seq. eapply returns_done; [reflexivity|].
  apply returns_seq. eapply returns_mono.
  - apply (readReg_law (RegLaws := RegLaws0)); [done|by exists r].
  - intros x w' (-> & Ec & Hr). simpl in *. rewrite Ht in *. by apply HQ.
Qed.

(** The row [addip] stores. *)
Definition row_of (subnet mask nexthop : bytes) (port : Z) : rt_row :=
  mk_rt_row (ip_word subnet) (ip_word mask) (ip_word nexthop) port.

Lemma u32_ip_word b : u32 (ip_word b) = ip_word b.
Proof. apply u32_id, u32_range. Qed.

Lemma addip_ready entry sn m nh port w Q : ready nf2 w ->
  (forall w', ready nf2 w' ->
     d_rt (card w') = <[Z.to_nat (u32 entry) := row_of sn m nh (u32 port)]> (d_rt (card w)) ->
     d_arp (card w') = d_arp (card w) -> d_filter (card w') = d_filter (card w) -> Q tt w') ->
  returns (addip nf2 address entry sn m nh port) Q w.
Proof.
  intros Hw HQ. unfold addip.
  apply returns_seq, wr_ready; [done..|]. intros w1 Hw1 E1.
  apply returns_seq, wr_ready; [done..|]. intros w2 Hw2 E2.
  apply returns_seq, wr_ready; [done..|]. intros w3 Hw3 E3.
  apply returns_seq, wr_ready; [done..|]. intros w4 Hw4 E4.
  apply wr_ready; [done..|]. intros w5 Hw5 E5.
  destruct (card w) as [re rt ae at_ fe ft] eqn:Ew.
  rewrite E4, E3, E2, E1, !u32_ip_word in E5.
  simpl in E5. apply HQ; [done|..]; by rewrite E5.
Qed.

(** A row is listed as it is stored; a row of "--Invalid--" is one [clearip]
    leaves. *)
Lemma read_ip_row_ready i w Q : ready nf2 w -> (i < length (d_rt (card w)))%nat ->
  Z.of_nat i < 2 ^ 32 ->
  (forall w' r, ready nf2 w' -> d_rt (card w) !! i = Some r -> d_rt (card w') = d_rt (card w) ->
     Q (mk_ip_listing (row_ip r) (row_mask r) (row_next_hop r) (Z.land (row_port r) 0xff)) w') ->
  returns (read_ip_row nf2 address (Z.of_nat i)) Q w.
Proof.
  intros Hw Hi Hi' HQ. unfold read_ip_row.
  destruct (lookup_lt_is_Some_2 _ _ Hi) as [r Hr].
  apply returns_seq, wr_ready; [done..|]. intros w1 Hw1 E1.
  rewrite u32_id in E1 by (unfold is_u32; lia).
  assert (d_rt_entry (card w1) = r /\ d_rt (card w1) = d_rt (card w)) as [Ee Et].
  { rewrite E1. destruct (card w) as [re rt ae at_ fe ft]. simpl in *. by rewrite Nat2Z.id, Hr. }
  apply returns_seq, rd_ready; [done..|]. intros w2 Hw2 E2.
  apply returns_seq, rd_ready; [done..|]. intros w3 Hw3 E3.
  apply returns_seq, rd_ready; [done..|]. intros w4 Hw4 E4.
  apply returns_seq, rd_ready; [done..|]. intros w5 Hw5 E5.
  eapply returns_done; [reflexivity|]. rewrite E4, E3, E2. simpl. rewrite Ee.
  apply HQ; [done|done|]. by rewrite E5, E4, E3, E2.
Qed.

(** ** Setting a route *)

Variable malloc : nat -> W -> bytes.
Hypothesis malloc_length : forall n w, length (malloc n w) = n.

Lemma device_do_returns {A} (m : host W A) Q l w :
  returns m (fun a w' => Q a (l, w')) w -> returns (device_do m) Q (l, w).
Proof. unfold returns, device_do. simpl. by destruct (m w) as [[h|a] w1]. Qed.

Lemma device_do_run {A} (m : host W A) r l w w' : m w = (r, w') -> device_do m (l, w) = (r, (l, w')).
Proof. unfold device_do. simpl. by intros ->. Qed.

(** Four bytes and the address they make. *)
Definition is_quad (q : Z * Z * Z * Z) : Prop :=
  let '(a, b, c, d) := q in is_u8 a /\ is_u8 b /\ is_u8 c /\ is_u8 d.
Definition quad_str (q : Z * Z * Z * Z) : string := let '(a, b, c, d) := q in quad a b c d.
Definition quad_bytes (q : Z * Z * Z * Z) : bytes := let '(a, b, c, d) := q in [a; b; c; d].

Lemma ip_of_quad q l w : is_quad q ->
  ip_of malloc (quad_str q) (l, w) = (inr (quad_bytes q), (l, w)).
Proof.
  destruct q as [[[a b] c] d]. intros (Ha & Hb & Hc & Hd). unfold ip_of.
  rewrite (host_bind_done _ _ (l, w) (malloc 4 w) (l, w)) by done.
  by apply device_do_run, parseip_quad.
Qed.

Lemma scan_quad size q rest (w : W) : is_quad q -> (String.length (quad_str q) < size)%nat ->
  scan_word size (blank ++ chars (quad_str q) ++ blank ++ rest, w)
  = (inr (Some (quad_str q)), (blank ++ rest, w)).
Proof.
  destruct q as [[[a b] c] d]. intros (Ha & Hb & Hc & Hd) Hl.
  destruct (quad_chars a b c d Ha Hb Hc Hd). by apply scan_word_fits.
Qed.

(** A line for [setip], and what comes after it. *)
Definition ip_input (entry : Z) (sn m nh : Z * Z * Z * Z) (port : Z) (rest : list ascii) : list ascii :=
  chars (pretty entry) ++ blank ++ chars (quad_str sn) ++ blank ++ chars (quad_str m) ++
  blank ++ chars (quad_str nh) ++ blank ++ chars (fmt_02X port) ++ eol :: rest.

(** The number a dotted quad stands for. *)
Definition ip_number (q : Z * Z * Z * Z) : Z :=
  let '(a, b, c, d) := q in a * 2 ^ 24 + b * 2 ^ 16 + c * 2 ^ 8 + d.

Lemma ip_word_number q : is_quad q -> ip_word (quad_bytes q) = ip_number q.
Proof.
  destruct q as [[[a b] c] d]. unfold is_quad, is_u8. intros (Ha & Hb & Hc & Hd).
  unfold ip_word, byte_of, quad_bytes, ip_number. cbn [lookup list_lookup default from_option id].
  rewrite !Z.shiftl_mul_pow2 by lia. rewrite <- !Z.lor_assoc.
  assert (0 <= c * 2 ^ 8 + d < 2 ^ 16) as Hcd by lia.
  assert (0 <= b * 2 ^ 16 + (c * 2 ^ 8 + d) < 2 ^ 24) as Hbcd by lia.
  rewrite (lor_low c d 8), (lor_low b _ 16), (lor_low a _ 24) by lia. rewrite u32_id by (unfold is_u32; lia). lia.
Qed.

(** C33: A route typed at the prompt is stored in the row it names and nowhere else,
    as the numbers of its subnet, its mask and its next hop and its port, and
    reading the row gives these back. It is typed as the number of the row, three
    dotted quads of at most 14 characters (longer ones overrun their arrays) and
    the port in hexadecimal; the mask is typed as a quad, where the listing shows
    a number. *)
Theorem setip_correct entry sn m nh port rest w :
  ready nf2 w -> 0 <= entry <= 15 -> 1 <= port <= 255 ->
  is_quad sn -> is_quad m -> is_quad nh ->
  (String.length (quad_str sn) < 15)%nat -> (String.length (quad_str m) < 15)%nat ->
  (String.length (quad_str nh) < 15)%nat -> (16 <= length (d_rt (card w)))%nat ->
  returns (setip nf2 address malloc;; device_do (read_ip_row nf2 address entry)) (fun r s =>
    s.1 = eol :: rest /\ r = mk_ip_listing (ip_number sn) (ip_number m) (ip_number nh) port /\
    d_rt (card s.2) =
      <[Z.to_nat entry := mk_rt_row (ip_number sn) (ip_number m) (ip_number nh) port]> (d_rt (card w)))
    (ip_input entry sn m nh port rest, w).
Proof.
  intros Hw He Hp Hsn Hm Hnh Lsn Lm Lnh Hrows.
  set (row := mk_rt_row (ip_number sn) (ip_number m) (ip_number nh) port).
  assert (row_of (quad_bytes sn) (quad_bytes m) (quad_bytes nh) port = row) as Erow
    by (unfold row_of; by rewrite !ip_word_number).
  unfold returns, ip_input, setip.
  apply returns_seq. unfold returns.
  rewrite (host_bind_done _ _ _ _ _ (scan_num_done 0 _ entry _ w (scan_entry entry _ He) ltac:(lia))).
  change (after (Some entry) (scan_word 15)) with (@scan_word W 15).
  rewrite (host_bind_done _ _ _ _ _ (scan_quad 15 sn _ w Hsn Lsn)).
  change (after (Some (quad_str sn)) (scan_word 15)) with (@scan_word W 15).
  rewrite (host_bind_done _ _ _ _ _ (scan_quad 15 m _ w Hm Lm)).
  change (after (Some (quad_str m)) (scan_word 15)) with (@scan_word W 15).
  rewrite (host_bind_done _ _ _ _ _ (scan_quad 15 nh _ w Hnh Lnh)).
  change (after (Some (quad_str nh)) (scan_num 16)) with (@scan_num W 16).
  rewrite (host_bind_done _ _ _ _ _ (scan_num_done 16 _ port _ w (scan_port port rest ltac:(lia)) ltac:(lia))).
  erewrite host_bind_done by reflexivity.
  assert ((entry <? 0) || (15 <? entry) = false) as -> by (apply orb_false_iff; rewrite !Z.ltb_ge; lia).
  erewrite host_bind_done by reflexivity.
  assert ((port <? 1) || (255 <? port) = false) as -> by (apply orb_false_iff; rewrite !Z.ltb_ge; lia).
  erewrite host_bind_done by reflexivity. rewrite (host_bind_done _ _ _ _ _ (ip_of_quad sn _ w Hsn)).
  erewrite host_bind_done by reflexivity. rewrite (host_bind_done _ _ _ _ _ (ip_of_quad m _ w Hm)).
  erewrite host_bind_done by reflexivity. rewrite (host_bind_done _ _ _ _ _ (ip_of_quad nh _ w Hnh)).
  apply device_do_returns, addip_ready; [done|].
  intros w1 Hw1 Ert _ _. rewrite !u32_id, Erow in Ert by (unfold is_u32; lia).
  apply device_do_returns. rewrite <-(Z2Nat.id entry) by lia.
  apply read_ip_row_ready; [done|rewrite Ert, length_insert; lia|lia|].
  intros w2 r Hw2 Hr Ert2. rewrite Ert, list_lookup_insert_eq in Hr by lia. injection Hr as <-.
  split; [done|]. split; [|cbn [snd]; by rewrite Ert2, Ert, Nat2Z.id].
  simpl. f_equal. change 0xff with (Z.ones 8). rewrite Z.land_ones by lia. apply Z.mod_small. lia.
Qed.

(** An address whose four numbers have three digits each is as long as its
    array: the null byte is written past it. *)
Theorem setip_overruns entry sn rest (w : W) :
  0 <= entry <= 15 -> is_quad sn -> String.length (quad_str sn) = 15%nat ->
  exists s, setip nf2 address malloc
    (chars (pretty entry) ++ blank ++ chars (quad_str sn) ++ blank ++ rest, w) = (inl HOverrun, s).
Proof.
  intros He Hsn Hl. destruct sn as [[[a b] c] d]. destruct Hsn as (Ha & Hb & Hc & Hd).
  destruct (quad_chars a b c d Ha Hb Hc Hd) as [Hch Hne].
  destruct (scan_word_overruns 15 (quad a b c d) " " rest w Hch Hne eq_refl) as [s Es].
  { simpl in Hl. lia. }
  exists s. unfold setip.
  rewrite (host_bind_done _ _ _ _ _ (scan_num_done 0 _ entry _ w (scan_entry entry _ He) ltac:(lia))).
  by rewrite (host_bind_halt _ _ _ _ _ Es).
Qed.

(** ** A malformed line *)

Lemma store_tokens_returns conv toks b i w :
  (i + length toks <= length b)%nat ->
  exists b', store_tokens (W := W) (fun t => Some (conv t)) b i toks w = (inr b', w).
Proof.
  revert b i. induction toks as [|t toks IH]; intros b i Hl; [by eexists|]. simpl in *.
  assert ((i <? length b)%nat = true) as -> by (apply Nat.ltb_lt; lia).
  apply IH. rewrite length_insert. lia.
Qed.

(** At most four numbers, so that they fit. *)
Definition short_ip (s : string) : Prop := (length (tokens "." [] (chars s)) <= 4)%nat.

Lemma ip_of_short s l w : short_ip s -> exists b, ip_of malloc s (l, w) = (inr b, (l, w)).
Proof.
  intros Hs. unfold ip_of. rewrite (host_bind_done _ _ (l, w) (malloc 4 w) (l, w)) by done.
  destruct (store_tokens_returns (fun t => atoi (implode t)) (tokens "." [] (chars s)) (malloc 4 w) 0 w)
    as [b Eb]; [rewrite malloc_length; unfold short_ip in Hs; lia|].
  exists b. by apply device_do_run.
Qed.

Lemma tokens_skip delim ds rest : forallb (Ascii.eqb delim) ds = true ->
  tokens delim [] (ds ++ rest) = tokens delim [] rest.
Proof.
  induction ds as [|c ds IH]; intros Hd; [done|]. simpl in Hd. apply andb_true_iff in Hd as [Hc Hd].
  apply Ascii.eqb_eq in Hc as <-. cbn [app tokens]. rewrite Ascii.eqb_refl. by apply IH.
Qed.

Lemma span_prefix p l : forallb p (span p l).1 = true.
Proof.
  induction l as [|c l IH]; [done|]. simpl. destruct (p c) eqn:Ec; [|done].
  destruct (span p l) as [a b]. simpl in *. by rewrite Ec, IH.
Qed.

(** What the parser leaves of a string is one number at most. *)
Lemma short_cut s : short_ip (cut_by "." s).
Proof.
  unfold short_ip, cut_by. pose proof (span_prefix (Ascii.eqb ".") (chars s)) as Hd.
  destruct (span (Ascii.eqb ".") (chars s)) as [ds rest]. simpl in Hd.
  rewrite chars_implode, tokens_skip by done.
  pose proof (span_prefix (fun c => negb (Ascii.eqb "." c)) rest) as Hr.
  destruct (span _ rest) as [a b]. simpl in *.
  rewrite <-(app_nil_r a), tokens_digits.
  - simpl. destruct a; simpl; lia.
  - rewrite forallb_forall in Hr |- *. intros c Hc. specialize (Hr c Hc). cbv beta in Hr.
    by rewrite Ascii.eqb_sym.
Qed.

(** The next characters are not a number, nor a sign. *)
Definition malformed (l : list ascii) : Prop :=
  at_end l = false /\ scan_number 0 l = None /\ drop_sign (skip_space l) = skip_space l.

Lemma span_twice p l : (span p (span p l).2).2 = (span p l).2.
Proof.
  induction l as [|c l IH]; [done|]. simpl. destruct (p c) eqn:Ec.
  - by destruct (span p l).
  - simpl. by rewrite Ec.
Qed.

Lemma malformed_skip l : malformed l -> malformed (skip_space l).
Proof.
  assert (skip_space (skip_space l) = skip_space l) as E by apply span_twice.
  intros (He & Hn & Hs). unfold malformed, at_end. rewrite E. split_and!; [done| |done].
  unfold scan_number in *. by rewrite E.
Qed.

Definition loaded (v : ip_line) : Prop := match v with
  | mk_ip_line (Some _) (Some s) (Some m) (Some n) (Some _) => short_ip s /\ short_ip m /\ short_ip n
  | _ => False
  end.

Lemma loadip_line_malformed v l w : malformed l -> loaded v -> ready nf2 w ->
  returns (loadip_line nf2 address malloc v) (fun v' s =>
    s.1 = skip_space l /\ loaded v' /\ ready nf2 s.2) (l, w).
Proof.
  intros (Hend & Hnum & Hs) Hv Hw. destruct v as [[e|] [sn|] [m|] [nh|] [p|]]; try done.
  destruct Hv as (Hsn & Hm & Hnh). unfold returns, loadip_line.
  rewrite (host_bind_done _ _ (l, w) None (skip_space l, w)) by
    (unfold scan_num; erewrite host_bind_done by reflexivity; cbn [fst]; by rewrite Hnum, Hs).
  do 4 erewrite host_bind_done by reflexivity. cbn [after keep il_entry il_port il_subnet il_mask il_nexthop].
  destruct (ip_of_short sn (skip_space l) w Hsn) as [bs Es], (ip_of_short m (skip_space l) w Hm) as [bm Em],
    (ip_of_short nh (skip_space l) w Hnh) as [bn En].
  erewrite host_bind_done by reflexivity. rewrite (host_bind_done _ _ _ _ _ Es).
  erewrite host_bind_done by reflexivity. rewrite (host_bind_done _ _ _ _ _ Em).
  erewrite host_bind_done by reflexivity. rewrite (host_bind_done _ _ _ _ _ En).
  do 2 erewrite host_bind_done by reflexivity.
  apply returns_seq, device_do_returns, addip_ready; [done|]. intros w' Hw' _ _ _.
  split; [done|]. split; [|done]. simpl. split_and!; apply short_cut.
Qed.

(** Once a line was loaded, a malformed line is never read past: the loop writes
    rows for ever, however many rounds it is given. *)
Theorem load_loop_malformed fuel v l w : malformed l -> loaded v -> ready nf2 w ->
  exists s, load_loop (loadip_line nf2 address malloc) fuel v (l, w) = (inl HFuel, s).
Proof.
  revert v l w. induction fuel as [|fuel IH]; intros v l w Hl Hv Hw.
  - exists (l, w). simpl. erewrite host_bind_done by reflexivity. cbn [fst]. by rewrite (proj1 Hl).
  - simpl. erewrite host_bind_done by reflexivity. cbn [fst]. rewrite (proj1 Hl).
    destruct (returns_inv _ _ _ (loadip_line_malformed v l w Hl Hv Hw)) as (v' & [l' w'] & E & E' & Hv' & Hw').
    simpl in E'. subst l'. rewrite (host_bind_done _ _ _ _ _ E). apply IH; [|done|done].
    by apply malformed_skip.
Qed.
End Tables.
