(* ===== verification/HostWitnesses.v ===== *)
(** Concrete cards and a library that reaches them directly, on which the
    hypotheses of the theorems about the host tools hold. *)

From S2P Require Import Prelude Words Bytes State CStrings CNumbers Sprint Netfpga HostRegs Nf2util.
From S2P Require Import DevInfo RegProxy ProxyTheorems Download DownloadTheorems.
From S2P Require Import RefCli RefCliTheorems.
From Stdlib Require Import Ascii.
Local Open Scope Z_scope.

(** ** A card within reach *)

Section Direct.
Context {C : Type} `{RegCard C}.

(** Every call reaches the card, and every device is found and opened. *)
Definition direct_lib : RegLib C := {|
  readReg _ a _ := fun c => let '(v, c') := reg_read a c in (inr (0, v), c');
  writeReg _ a v := fun c => (inr 0, reg_write a v c);
  check_iface d := mret (0, d);
  openDescriptor d := mret (0, d);
  closeDescriptor _ := mret 0
|}.

Definition always (_ : nf2device) (_ : C) : Prop := True.

#[local] Existing Instance direct_lib.
Lemma direct_laws : RegLaws id always.
Proof.
  split.
  - intros nf2 a cur c _ _. unfold returns. simpl. by destruct (reg_read a c).
  - by intros.
Qed.
End Direct.

Definition some_device : nf2device := mk_nf2device "nf2c0" 0 1 "" 0.

(** ** A card that only holds its device block *)

Definition info_regs (a : Z) : Z :=
  if a =? CPCI_ID_REG then 0x01000004
  else if a =? CPCI_REPROG_STATUS_REG then 0x100
  else if a =? DEV_ID_MD5_0_REG then 0x5e461ffe
  else if a =? DEV_ID_MD5_0_REG + 4 then 0x439725c9
  else if a =? DEV_ID_MD5_0_REG + 8 then 0x279a22a1
  else if a =? DEV_ID_MD5_0_REG + 12 then 0x855f6c53
  else if a =? DEV_ID_VERSION_REG then 0x010100
  else if a =? DEV_ID_PROJ_DIR_0_REG then 0x6e696300     (* "nic" *)
  else 0.

#[local] Instance info_card : RegCard unit := {|
  reg_read a c := (info_regs a, c); reg_write _ _ c := c; mapped _ := True
|}.
#[local] Instance no_junk {W} : Stack W := fun _ => 0.

Definition fresh_info : dev_info :=
  mk_dev_info 0 0 0 0 0 0 0 false false (replicate 100 0) (replicate 64 0) (replicate 64 0)
    (replicate 100 0) "" "" some_device 0 0 (replicate 100 0).

Lemma info_regs_u32 a : is_u32 (info_regs a).
Proof. unfold info_regs. repeat case_match; done. Qed.

Lemma bench_1_0 : bounds_ok (mk_version 1 0 VERSION_ANY) /\ bounds_ok (mk_version 1 VERSION_ANY VERSION_ANY).
Proof. unfold bounds_ok, part_ok, VERSION_ANY. simpl. lia. Qed.


(** ** The proxy: a server of one card with one register *)

#[local] Instance one_register : RegCard Z := {|
  reg_read _ v := (u32 v, v); reg_write _ v _ := v; mapped a := is_u32 a
|}.
#[local] Instance register_lib : RegLib Z := direct_lib.

Definition no_address (_ : string) : option Z := None.
Definition no_error {W} (_ : W) : Z := 0.

(** A connection that is interrupted and moves a few bytes at a time at first. *)
Definition choppy : conn := mk_conn [] [] false [Some 2%nat; None; Some 0%nat; Some 6%nat; None].
Definition remote : nf2device := mk_nf2device "nf2c0" 0 3 "10.0.0.1" 8888.

Lemma remote_ready : on_server (ready := always) [some_device] 1 60 remote (7, choppy).
Proof.
  split; [done|]. split; [done|]. split; [done|]. split.
  - split_and!; [done..|]. simpl. unfold REQUEST_SIZE. lia.
  - by exists some_device.
Qed.

Lemma proxy_transparent_witness :
  let lib := proxy_lib [some_device] 1 no_address no_error 60 in
  returns (@readReg _ lib remote 0x10 5) (fun r w => r = (0, 7) /\ w.1 = 7) (7, choppy) /\
  returns (@writeReg _ lib remote 0x10 9) (fun r w => r = 0 /\ w.1 = 9) (7, choppy).
Proof.
  assert (is_u32 0x10 /\ is_u32 9) as [H16 H9] by done.
  destruct (@proxy_transparent Z Z register_lib one_register id always direct_laws [some_device] 1
    (fun _ H => H) (fun _ _ _ _ _ => u32_range _) no_address no_error _ 60 remote 0x10 5 9 7 choppy
    remote_ready H16 H9) as [Hr Hw].
  split.
  - eapply returns_mono; [exact Hr|]. intros r w (-> & E & _). by split.
  - eapply returns_mono; [exact Hw|]. intros r w (-> & E & _). by split.
Defined.

Definition read_request (pad : Z) : reg_request :=
  mk_reg_request READ_REQ 0 0x10 0xBADDD065 0 [pad; pad] [pad; pad; pad].
Definition read_answer (pad v : Z) : reg_request := set_rq_data v (read_request pad).
Definition close_request : reg_request := mk_reg_request CLOSE_REQ 0 0 0 0 [1; 2] [3; 4; 5].

Lemma read_request_ok pad v : is_u8 pad -> is_u32 v -> request_ok (read_answer pad v).
Proof.
  intros Hp Hv. split; simpl; try done; [by exists pad, pad|by exists pad, pad, pad].
Qed.

Lemma close_request_ok : request_ok close_request.
Proof. split; simpl; try done; [by exists 1, 2|by exists 3, 4, 5]. Qed.

(** A read, a request that closes, and three bytes nobody looks at. *)
Lemma parse_request_serves_witness :
  let c := mk_conn (concat (request_bytes <$> [read_answer 9 1; close_request]) ++ [1; 2; 3]) [] true
             [Some 4%nat; None] in
  returns (@parse_request _ (beside_lib (Ws := Z)) (server_sockets no_address no_error) 60 3 5
             [some_device] 1) (fun r w => r = 0 /\ w.1 = 7 /\
    c_out w.2 = concat (request_bytes <$> [read_answer 9 7; close_request])) (7, c).
Proof.
  intros c. apply (@parse_request_serves Z register_lib [some_device] 1 no_address no_error
    [read_answer 9 1; close_request] [1; 2; 3] [read_answer 9 7; close_request] 7 7 true c 60 3 5).
  - eapply serves_next; [by apply read_request_ok|by apply (read_request_ok 9 7)| |by intros [_ ?]|].
    { eapply (ans_read _ _ (read_answer 9 1) some_device 0 7); reflexivity. }
    eapply serves_close; [apply close_request_ok|apply close_request_ok| |by split].
    apply ans_close; [reflexivity|reflexivity|by eexists].
  - reflexivity.
  - simpl. unfold REQUEST_SIZE. lia.
  - reflexivity.
  - lia.
  - simpl. unfold REQUEST_SIZE. lia.
  - simpl. lia.
Defined.

Definition unnamed (_ : nat) : nf2device := mk_nf2device "" 0 0 "" 0.
Definition second_card : nf2device := mk_nf2device "nf2c1" 0 0 "10.0.0.1" 8888.

Lemma proxy_renumbers_cards_witness :
  exists devs s1, open_interfaces unnamed 2 7 = (inr devs, s1) /\
    (exists c', @check_iface _ (proxy_lib devs 2 no_address no_error 60) second_card (7, choppy)
       = (inr (0, set_fd 1 second_card), (7, c'))) /\
    exists d, devs !! 1%nat = Some d /\ device_name d = "nf2c4"%string.
Proof.
  eexists _, _. split; [reflexivity|].
  refine (@proxy_renumbers_cards Z register_lib _ _ unnamed 2 7 _ 7 1 second_card 7 choppy no_address
    no_error 60 _ eq_refl _ _ eq_refl _ _).
  - by intros d w r w' [= <- <-].
  - by intros d w r w' [= <- <-].
  - lia.
  - lia.
  - done.
  - simpl. unfold REQUEST_SIZE. lia.
Defined.

(** ** The downloader *)

Definition some_header (image : bytes) : bytes :=
  bit_header [15; 240; 15; 240; 0] [0; 1] 97 98 99 100 101 [110; 105; 99; 46; 110; 99; 100; 0]
    [50; 118; 112; 0] [50; 48; 49; 49; 0] [49; 50; 58; 48; 0] [0; 0; 0; 5] ++ image.

Lemma StripHeader_correct_witness :
  @StripHeader unit (replicate 4096 7) (some_header [1; 2; 3; 4; 5]) () = (inr [1; 2; 3; 4; 5], ()).
Proof.
  apply StripHeader_correct; unfold string_ok, READ_BUFFER_SIZE; try done; try (simpl; lia);
    (split; [unfold READ_BUFFER_SIZE; simpl; lia|apply (bool_decide_unpack _); by vm_compute]).
Defined.

(** A card that is programmed a second after the last word of an image: the
    words it has received, and the time since the last. *)
Definition some_image : bytes := [1; 2; 3; 4; 5].
Definition loader : Type := list Z * Z.

Definition loader_status (c : loader) : Z :=
  if bool_decide (c.1 = words_of virtex_word some_image) && (1000000 <=? c.2) then 0x102 else 2.

#[local] Instance loader_card : RegCard loader := {|
  reg_read a c := (if a =? CPCI_PROGRAMMING_STATUS then loader_status c else 0, c);
  reg_write a v c :=
    if a =? CPCI_PROGRAMMING_CONTROL then ([], 0)
    else if a =? CPCI_PROGRAMMING_DATA then (c.1 ++ [v], 0) else c;
  mapped _ := True
|}.
#[local] Instance loader_lib : RegLib loader := direct_lib.
#[local] Instance loader_clock : Clock loader := fun us c => (c.1, c.2 + Z.max 0 us).

Definition loader_tick (us : Z) (c : loader) : loader := (c.1, c.2 + Z.max 0 us).
(** The words received, at some time. *)
Definition received (ws : list Z) (c : loader) : Prop := c.1 = ws /\ 0 <= c.2.

Lemma loader_programmable : programmable loader_tick
  (words_of virtex_word some_image) received.
Proof.
  split.
  - done.
  - done.
  - by intros ws c H.
  - intros ws c H. split; [|done]. simpl. unfold loader_status. by case_match.
  - intros c [H _]. simpl. unfold loader_status. rewrite H. done.
  - intros ws v c [<- H]. by split.
  - intros us ws c [<- H]. split; [done|]. simpl. lia.
  - intros c [H Ht]. change (Z.land (loader_status (loader_tick 1000000 c)) 0x100 = 0x100).
    unfold loader_status, loader_tick. cbn [fst snd]. rewrite H, bool_decide_true by done.
    assert (1000000 <=? c.2 + Z.max 0 1000000 = true) as -> by (apply Z.leb_le; lia). done.
Qed.

Lemma loader_pass (d : nf2device) us (w : loader) : always d w ->
  id (pass us w) = loader_tick us (id w) /\ always d (pass us w).
Proof. done. Qed.

Lemma DownloadCode_virtex_witness :
  returns (DownloadCode some_device 1 false VIRTEX_PROGRAM_RAM_BASE_ADDR some_image)
    (fun r w => r.1 = 5 /\ w.1 = [0x04030201; 5]) ([9], 0) /\
  concat (word_bytes <$> [0x04030201; 5]) = some_image ++ [0; 0; 0].
Proof.
  destruct (@DownloadCode_virtex loader loader loader_lib _ loader_clock loader_card id always direct_laws
    loader_tick loader_pass some_device 1 some_image received ([9], 0)) as [Hr Hb].
  - exact I.
  - by apply (bool_decide_unpack _).
  - by vm_compute.
  - lia.
  - exact loader_programmable.
  - split; [|by vm_compute]. eapply returns_mono; [exact Hr|].
    intros r w (Hr1 & _ & c & [Hc _] & E). split; [exact Hr1|]. unfold id in E. subst w. exact Hc.
Defined.

(** ** The command line of the reference router *)

Definition table_address (r : reg) : Z :=
  match r with
  | RT_ENTRY_IP => 1 | RT_ENTRY_MASK => 2 | RT_ENTRY_NEXT_HOP_IP => 3 | RT_ENTRY_OUTPUT_PORT => 4
  | RT_WR_ADDR => 5 | RT_RD_ADDR => 6 | ARP_ENTRY_MAC_HI => 7 | ARP_ENTRY_MAC_LO => 8
  | ARP_ENTRY_NEXT_HOP_IP => 9 | ARP_WR_ADDR => 10 | ARP_RD_ADDR => 11 | _ => 0
  end.

Definition table_of (a : Z) : option reg :=
  ([RT_ENTRY_IP; RT_ENTRY_MASK; RT_ENTRY_NEXT_HOP_IP; RT_ENTRY_OUTPUT_PORT; RT_WR_ADDR; RT_RD_ADDR;
    ARP_ENTRY_MAC_HI; ARP_ENTRY_MAC_LO; ARP_ENTRY_NEXT_HOP_IP; ARP_WR_ADDR; ARP_RD_ADDR])
  !! Z.to_nat (a - 1).

Lemma table_of_address r : table_reg r = true -> table_of (table_address r) = Some r.
Proof. by destruct r. Qed.

Definition empty_tables : device :=
  mk_device zero_rt_row (replicate 16 zero_rt_row) zero_arp_row (replicate 16 zero_arp_row) 0 [].
Definition allocated (n : nat) (_ : device) : bytes := replicate n 0.

Lemma setip_correct_witness :
  let lib := @direct_lib device (table_card table_of) in
  returns (@setip _ lib some_device table_address allocated;;
           device_do (@read_ip_row _ lib _ some_device table_address 3))
    (fun r s => r = mk_ip_listing 0x0a010000 0xffff0000 0x0a000002 4 /\ s.1 = [eol])
    (chars "3 10.1.0.0 255.255.0.0 10.0.0.2 04" ++ [eol], empty_tables).
Proof.
  intros lib.
  assert (chars "3 10.1.0.0 255.255.0.0 10.0.0.2 04" ++ [eol]
    = ip_input 3 (10, 1, 0, 0) (255, 255, 0, 0) (10, 0, 0, 2) 4 []) as -> by (by vm_compute).
  pose proof (@setip_correct table_address table_of table_of_address device lib no_junk id always
    (@direct_laws device (table_card table_of)) some_device allocated
    (fun n _ => length_replicate n 0) 3 (10, 1, 0, 0) (255, 255, 0, 0) (10, 0, 0, 2) 4 [] empty_tables) as Hs.
  eapply returns_mono; [apply Hs; clear Hs|].
  1-10: try exact I; try lia; try (unfold is_quad, is_u8; lia); vm_compute; lia.
  intros r s (Hs' & -> & _). by split.
Defined.

(** A route with no number before it, after a line that was read. *)
Lemma load_loop_malformed_witness :
  let lib := @direct_lib device (table_card table_of) in
  exists s, load_loop (@loadip_line _ lib some_device table_address allocated) 100
    (mk_ip_line (Some 3) (Some "10.1.0.0"%string) (Some "255.255.0.0"%string) (Some "10.0.0.2"%string)
       (Some 4)) (eol :: chars "default 10.0.0.2" ++ [eol], empty_tables) = (inl HFuel, s).
Proof.
  intros lib. apply (@load_loop_malformed table_address table_of table_of_address device lib id always
      (@direct_laws device (table_card table_of)) some_device allocated (fun n _ => length_replicate n 0)).
  - by split_and!.
  - unfold loaded, short_ip. vm_compute. lia.
  - exact I.
Defined.
