(* ===== verification/Vns.v ===== *)
(** The client of the virtual network server: the messages of vnscommand.h, the
    session of sr_vns.c, and the packet dump of sr_dumper.c. A router that runs
    on a virtual host gets its interfaces and its packets over a socket; what it
    calls in the router is the class [Subsystem]. *)

From S2P Require Import Prelude Words Bytes State CStrings Iface Main HostRegs RegProxy.
From Stdlib Require Import Ascii.
Local Open Scope Z_scope.

(** ** Messages: vnscommand.h *)

Definition VNSOPEN : Z := 1.
Definition VNSCLOSE : Z := 2.
Definition VNSPACKET : Z := 4.
Definition VNSBANNER : Z := 8.
Definition VNSHWINFO : Z := 16.

Definition IDSIZE : nat := 32.

(** The words at the start of every message, and its size. *)
Definition SIZEOF_c_base : nat := 8.

Record c_open := mk_c_open {
  op_mLen : Z;
  op_mType : Z;
  op_topoID : Z;
  op_pad : Z;
  op_mVirtualHostID : bytes;
  op_mUID : bytes;
  op_mPass : bytes
}.

Definition c_open_bytes (c : c_open) : bytes :=
  word_bytes (op_mLen c) ++ word_bytes (op_mType c) ++ half_bytes (op_topoID c) ++
  half_bytes (op_pad c) ++ op_mVirtualHostID c ++ op_mUID c ++ op_mPass c.
Definition SIZEOF_c_open : nat := 108.

Record c_packet_header := mk_c_packet_header {
  ph_mLen : Z;
  ph_mType : Z;
  ph_mInterfaceName : bytes
}.

Definition c_packet_header_bytes (h : c_packet_header) : bytes :=
  word_bytes (ph_mLen h) ++ word_bytes (ph_mType h) ++ ph_mInterfaceName h.
Definition SIZEOF_c_packet_header : nat := 24.

Definition HWINTERFACE : Z := 1.
Definition HWSPEED : Z := 2.
Definition HWSUBNET : Z := 4.
Definition HWINUSE : Z := 8.
Definition HWFIXEDIP : Z := 16.
Definition HWETHER : Z := 32.
Definition HWETHIP : Z := 64.
Definition HWMASK : Z := 128.

Record c_hw_entry := mk_c_hw_entry { hw_mKey : Z; hw_value : bytes }.
Definition SIZEOF_c_hw_entry : nat := 36.

(** The entry at an index of the array [mHWInfo] of a message. *)
Definition hw_entry_at (buf : bytes) (i : nat) : option c_hw_entry :=
  let o := (SIZEOF_c_base + SIZEOF_c_hw_entry * i)%nat in
  key ← get32 buf o; value ← get_range buf (o + 4) 32;
  Some (mk_c_hw_entry key value).

(** ** The instance: sr_base_internal.h *)

Record sr_instance := mk_sr_instance {
  sockfd : Z;
  user : string;
  vhost : string;
  lhost : string;
  sr_rtable : string;
  topo_id : Z;
  sr_addr : Z * Z;                     (* sin_addr, sin_port *)
  logfile : option Z;
  hw_init : bool;
  sr_interface : string;
  interface_subsystem : option Z       (* the state of the router, when it is set *)
}.

Definition set_sockfd (v : Z) (s : sr_instance) : sr_instance :=
  mk_sr_instance v (user s) (vhost s) (lhost s) (sr_rtable s) (topo_id s) (sr_addr s) (logfile s)
    (hw_init s) (sr_interface s) (interface_subsystem s).
Definition set_sr_addr (v : Z * Z) (s : sr_instance) : sr_instance :=
  mk_sr_instance (sockfd s) (user s) (vhost s) (lhost s) (sr_rtable s) (topo_id s) v (logfile s)
    (hw_init s) (sr_interface s) (interface_subsystem s).
Definition set_logfile (v : option Z) (s : sr_instance) : sr_instance :=
  mk_sr_instance (sockfd s) (user s) (vhost s) (lhost s) (sr_rtable s) (topo_id s) (sr_addr s) v
    (hw_init s) (sr_interface s) (interface_subsystem s).
Definition set_hw_init (v : bool) (s : sr_instance) : sr_instance :=
  mk_sr_instance (sockfd s) (user s) (vhost s) (lhost s) (sr_rtable s) (topo_id s) (sr_addr s)
    (logfile s) v (sr_interface s) (interface_subsystem s).

(** What the runtime calls in the router, sr_integration.c: the worlds of type
    [W] hold the router. *)
Class Subsystem (W : Type) := {
  integ_init : string -> host W Z;              (* the name of the card's interface *)
  integ_add_interface : sr_vns_if -> host W unit;
  integ_hw_setup : host W unit;
  integ_input : bytes -> Z -> string -> host W unit;
  integ_destroy : host W unit
}.

(** [sr_integ_close] prints a line. *)
Definition sr_integ_close {W} : host W unit := mret tt.

(** ** The packet dump: sr_dumper.h, sr_dumper.c *)

Definition PCAP_VERSION_MAJOR : Z := 2.
Definition PCAP_VERSION_MINOR : Z := 4.
Definition TCPDUMP_MAGIC : Z := 0xa1b2c3d4.
Definition LINKTYPE_ETHERNET : Z := 1.
Definition SR_PACKET_DUMP_SIZE : Z := 1514.

(** The streams and the clock of the C library; [fopen] is for writing. *)
Class Streams (W : Type) := {
  fopen_w : string -> host W (option Z);
  fwrite : Z -> bytes -> host W unit;
  fclose : Z -> host W unit;
  gettimeofday : host W (Z * Z);
  stdout : Z
}.

(** The header of a dump file is a structure of pcap.h: what its memory holds
    when its members are assigned. *)
Record pcap_file_header := mk_pcap_file_header {
  magic : Z; version_major : Z; version_minor : Z; thiszone : Z; snaplen : Z; sigfigs : Z;
  linktype : Z
}.
Class Pcap := pcap_file_header_bytes : pcap_file_header -> bytes.

Record pcap_pkthdr := mk_pcap_pkthdr { ts : Z * Z; caplen : Z; plen : Z }.

(** [struct pcap_sf_pkthdr], as it is written to the file. *)
Record pcap_sf_pkthdr := mk_pcap_sf_pkthdr {
  sf_tv_sec : Z; sf_tv_usec : Z; sf_caplen : Z; sf_len : Z
}.

Definition pcap_sf_pkthdr_bytes (h : pcap_sf_pkthdr) : bytes :=
  word_bytes (sf_tv_sec h) ++ word_bytes (sf_tv_usec h) ++ word_bytes (sf_caplen h) ++
  word_bytes (sf_len h).

Section Dumper.
Context {W : Type} `{Streams W} `{Pcap}.

Definition sf_write_header (fp : Z) (linktype thiszone snaplen : Z) : host W unit :=
  fwrite fp (pcap_file_header_bytes
    (mk_pcap_file_header TCPDUMP_MAGIC PCAP_VERSION_MAJOR PCAP_VERSION_MINOR thiszone snaplen 0 linktype)).

Definition sr_dump_open (fname : string) (thiszone snaplen : Z) : host W (option Z) :=
  if strcmp_eq fname "-" then
    sf_write_header stdout LINKTYPE_ETHERNET thiszone snaplen;; mret (Some stdout)
  else
    fp ← fopen_w fname;
    match fp with
    | None => mret None
    | Some fp => sf_write_header fp LINKTYPE_ETHERNET thiszone snaplen;; mret (Some fp)
    end.

(** The bytes of the packet that are captured must be in the buffer. *)
Definition sr_dump (fp : Z) (h : pcap_pkthdr) (sp : bytes) : host W unit :=
  fwrite fp (pcap_sf_pkthdr_bytes (mk_pcap_sf_pkthdr (ts h).1 (ts h).2 (caplen h) (plen h)));;
  if Z.of_nat (length sp) <? caplen h then halted HOverrun
  else fwrite fp (take (Z.to_nat (caplen h)) sp).

Definition sr_dump_close (fp : Z) : host W unit := fclose fp.

Definition sr_log_packet (sr : sr_instance) (buf : bytes) (len : Z) : host W unit :=
  match logfile sr with
  | None => mret tt
  | Some fp =>
      let size := Z.min SR_PACKET_DUMP_SIZE len in
      now ← gettimeofday;
      sr_dump fp (mk_pcap_pkthdr now (u32 size)
                    (u32 (if size <? SR_PACKET_DUMP_SIZE then size else SR_PACKET_DUMP_SIZE))) buf
  end.
End Dumper.

(** ** The session: sr_vns.c *)

(** The name service and the test for a connection. *)
Class Netdb (W : Type) := {
  getpeername : Z -> W -> bool;                (* the socket is connected *)
  gethostbyname : string -> W -> option Z      (* h_addr, in network byte order *)
}.

Section Vns.
Context {W : Type} `{Streams W} `{Pcap} `{Sockets W} `{Netdb W} `{Subsystem W} `{!Stack W}.
(** The system calls the reading of one message may take. *)
Variable fuel : nat.

Definition sr_vns_init_log (sr : sr_instance) (file : option string) : host W sr_instance :=
  match file with
  | None => mret sr
  | Some file =>
      fp ← sr_dump_open file 0 SR_PACKET_DUMP_SIZE;
      match fp with
      | None => halted (HExit 1)
      | Some fp => mret (set_logfile (Some fp) sr)
      end
  end.

Definition sr_close_instance (sr : sr_instance) : host W sr_instance :=
  sock_close (sockfd sr);;
  (match logfile sr with Some fp => sr_dump_close fp | None => mret tt end);;
  mret (set_hw_init false sr).

Definition sr_vns_connected_to_server (sr : sr_instance) : host W Z :=
  c ← ask (getpeername (sockfd sr));
  mret (if c : bool then -1 else 0).

(** The message that opens the session. *)
Definition open_command (sr : sr_instance) : c_open :=
  mk_c_open (htonl (Z.of_nat SIZEOF_c_open)) (htonl VNSOPEN) (htons (topo_id sr)) 0
    (strncpy_bytes (vhost sr) IDSIZE) (strncpy_bytes (user sr) IDSIZE) (replicate IDSIZE 0).

Definition sr_vns_connect_to_server (sr : sr_instance) (port : Z) (server : string)
    : host W (Z * sr_instance) :=
  c ← sr_vns_connected_to_server sr;
  if negb (c =? 0) then mret (-1, sr)
  else
    let sr := set_sr_addr (0, htons port) sr in
    hp ← ask (gethostbyname server);
    match hp with
    | None => mret (-1, sr)
    | Some h_addr =>
        let sr := set_sr_addr (h_addr, htons port) sr in
        s ← sock_stream;
        let sr := set_sockfd s sr in
        if s <? 0 then mret (-1, sr)
        else
          r ← sock_connect s h_addr (ntohs (htons port));
          if r <? 0 then sock_close s;; mret (-1, sr)
          else
            n ← sock_write s (c_open_bytes (open_command sr));
            match n with
            | Wrote n => mret (if (n =? SIZEOF_c_open)%nat then 0 else -1, sr)
            | _ => mret (-1, sr)
            end
    end.

(** *** Hardware information *)

(** A field of an entry's value, as a word. *)
Definition value_word (e : c_hw_entry) : Z := default 0 (get32 (hw_value e) 0).

(** [strncpy(vns_if.name, value, SR_NAMELEN)]: a value without a null byte
    leaves the array unterminated. *)
Definition value_name (e : c_hw_entry) : string + string :=
  match cstring (hw_value e) with
  | Some s => inl s
  | None => inr (implode (map chr (hw_value e)))
  end.

(** The structure on the stack, with whether its name is terminated. *)
Record hw_scan := mk_hw_scan { hs_if : sr_vns_if; hs_terminated : bool }.

Definition set_vif_name (v : string) (i : sr_vns_if) : sr_vns_if :=
  mk_sr_vns_if v (vif_addr i) (vif_ip i) (vif_mask i) (vif_speed i).

(** [if (vns_if.name[0])]: the interface is given to the router, which reads
    its name as a string. *)
Definition flush_interface (v : hw_scan) : host W hw_scan :=
  if strcmp_eq (vif_name (hs_if v)) "" then mret v
  else if negb (hs_terminated v) then halted HOverrun
  else
    integ_add_interface (hs_if v);;
    mret (mk_hw_scan (set_vif_name "" (hs_if v)) true).

Definition hw_entry_step (v : hw_scan) (e : c_hw_entry) : host W hw_scan :=
  let i := hs_if v in
  let key := ntohl (hw_mKey e) in
  if key =? HWINTERFACE then
    v ← flush_interface v;
    match value_name e with
    | inl s => mret (mk_hw_scan (set_vif_name s (hs_if v)) true)
    | inr s => mret (mk_hw_scan (set_vif_name s (hs_if v)) false)
    end
  else if key =? HWSPEED then
    mret (mk_hw_scan (mk_sr_vns_if (vif_name i) (vif_addr i) (vif_ip i) (vif_mask i)
                        (ntohl (value_word e))) (hs_terminated v))
  else if key =? HWMASK then
    mret (mk_hw_scan (mk_sr_vns_if (vif_name i) (vif_addr i) (vif_ip i) (value_word e)
                        (vif_speed i)) (hs_terminated v))
  else if key =? HWETHIP then
    mret (mk_hw_scan (mk_sr_vns_if (vif_name i) (vif_addr i) (value_word e) (vif_mask i)
                        (vif_speed i)) (hs_terminated v))
  else if key =? HWETHER then
    mret (mk_hw_scan (mk_sr_vns_if (vif_name i) (take 6 (hw_value e)) (vif_ip i) (vif_mask i)
                        (vif_speed i)) (hs_terminated v))
  else mret v.

(** The loop over the entries, from index [i] on. *)
Fixpoint hw_entries (hwinfo : bytes) (i n : nat) (v : hw_scan) : host W hw_scan :=
  match n with
  | O => mret v
  | S n =>
      match hw_entry_at hwinfo i with
      | None => halted HOverrun
      | Some e => v ← hw_entry_step v e; hw_entries hwinfo (S i) n v
      end
  end.

(** [hwinfo] is the message, whose length is its first word. *)
Definition sr_handle_hwinfo (sr : sr_instance) (hwinfo : bytes) : host W (Z * sr_instance) :=
  match get32 hwinfo 0 with
  | None => halted HOverrun
  | Some mLen =>
      let num_entries := (u64 (ntohl mLen - Z.of_nat SIZEOF_c_base)) / Z.of_nat SIZEOF_c_hw_entry in
      j ← ask junk;
      v ← hw_entries hwinfo 0 (Z.to_nat (int32 num_entries))
            (mk_hw_scan (mk_sr_vns_if "" (word_bytes j ++ half_bytes j) j j j) true);
      flush_interface v;;
      integ_hw_setup;;
      mret (int32 num_entries, set_hw_init true sr)
  end.

(** *** Reading a message *)

(** The loops around [recv] and [read]: a call that is interrupted or that
    returns nothing is made again; [None] when it fails. *)
Fixpoint recv_loop (n : nat) (fd : Z) (got : bytes) (left : nat) : host W (option bytes) :=
  match left with
  | O => mret (Some got)
  | S _ =>
      match n with
      | O => halted HFuel
      | S n =>
          r ← sock_read fd left;
          match r with
          | RBytes b => recv_loop n fd (got ++ b) (left - length b)
          | REof => recv_loop n fd got left
          | RIntr => recv_loop n fd got left
          | RError => mret None
          end
      end
  end.

(** The string at an offset of the buffer. *)
Definition cstr_at (buf : bytes) (o : nat) : host W string := cstr (drop o buf).

(** What is done with a message that was read, its type already in the order of
    the host; the result is that of [sr_vns_read_from_server]. *)
Definition dispatch (sr : sr_instance) (buf : bytes) (len command : Z) : host W (Z * sr_instance) :=
  if command =? VNSPACKET then
    let body := drop SIZEOF_c_packet_header buf in
    let n := u64 (len - Z.of_nat SIZEOF_c_packet_header) in
    sr_log_packet sr body (int32 n);;
    name ← cstr_at buf SIZEOF_c_base;
    integ_input body (u32 n) name;;
    mret (1, sr)
  else if command =? VNSCLOSE then
    _ ← cstr_at buf SIZEOF_c_base;
    sr ← sr_close_instance sr;
    sr_integ_close;;
    mret (0, sr)
  else if command =? VNSHWINFO then
    r ← sr_handle_hwinfo sr buf;
    mret (1, r.2)
  else mret (1, sr).

Definition MAX_COMMAND : Z := 10000.

Definition sr_vns_read_from_server (sr : sr_instance) : host W (Z * sr_instance) :=
  first ← recv_loop fuel (sockfd sr) [] 4;
  match first with
  | None => mret (-1, sr)
  | Some word =>
      let len := int32 (ntohl (default 0 (get32 word 0))) in
      if (MAX_COMMAND <? len) || (len <? 0) then
        sock_close (sockfd sr);; mret (-1, sr)
      else if len <? 4 then halted HOverrun
      else
        rest ← recv_loop fuel (sockfd sr) [] (Z.to_nat (len - 4));
        match rest with
        | None => sock_close (sockfd sr);; mret (-1, sr)
        | Some rest =>
            let buf := word_bytes (htonl (u32 len)) ++ rest in
            match get32 buf 4 with
            | None => halted HOverrun
            | Some mType =>
                match put32 buf 4 (ntohl mType) with
                | None => halted HOverrun
                | Some buf => dispatch sr buf len (int32 (ntohl mType))
                end
            end
        end
  end.

(** The main loop of the low-level thread, [rounds] messages at most: the value
    that ends it, and the instance. *)
Fixpoint server_loop (rounds : nat) (sr : sr_instance) : host W (Z * sr_instance) :=
  match rounds with
  | O => halted HFuel
  | S rounds =>
      r ← sr_vns_read_from_server sr;
      if r.1 =? 1 then server_loop rounds r.2 else mret r
  end.

(** *** Sending a packet *)

Definition sr_vns_send_packet (sr : sr_instance) (buf : bytes) (len : Z) (iface : string)
    : host W Z :=
  let total_len := u32 (len + Z.of_nat SIZEOF_c_packet_header) in
  if len <? 14 then mret (-1)
  else if (Z.of_nat (length buf) <? len) || (total_len <? Z.of_nat SIZEOF_c_packet_header)
  then halted HOverrun
  else
    let sr_pkt := c_packet_header_bytes (mk_c_packet_header (htonl total_len) (htonl VNSPACKET)
                                           (strncpy_bytes iface 16)) ++ take (Z.to_nat len) buf in
    sr_log_packet sr buf (int32 len);;
    n ← sock_write (sockfd sr) sr_pkt;
    match n with
    | Wrote n => mret (if Z.of_nat n <? int32 total_len then -1 else 0)
    | _ => mret (if -1 <? int32 total_len then -1 else 0)
    end.

End Vns.
