(* ===== verification/VnsTheorems.v ===== *)
(** The session with the virtual network server: messages are taken off the
    socket one at a time whatever its pieces, each means to the router what the
    sender put in it, and a router that was given its interfaces and packets this
    way is in a reachable state. A connection that is closed without a message
    is read from for ever. *)

From S2P Require Import Prelude Words Bytes State CStrings Netfpga Main Invariant Preservation Reachable.
From S2P Require Import HostRegs RegProxy ProxyTheorems Vns.
From Stdlib Require Import Ascii.
Local Open Scope Z_scope.

(** ** Messages *)

(** What a message says. *)
Inductive vns_msg :=
  | MPacket (iface : string) (packet : bytes)
  | MHwInfo (ifs : list sr_vns_if)
  | MClose (reason : string)
  | MOther (type : Z) (body : bytes).

(** An entry of the hardware information, its value padded with zeros. *)
Definition entry_bytes (e : c_hw_entry) : bytes := word_bytes (hw_mKey e) ++ hw_value e.
Definition word_entry (key v : Z) : c_hw_entry :=
  mk_c_hw_entry (htonl key) (word_bytes v ++ replicate 28 0).
Definition if_entries (i : sr_vns_if) : list c_hw_entry :=
  [mk_c_hw_entry (htonl HWINTERFACE) (strncpy_bytes (vif_name i) 32);
   word_entry HWSPEED (htonl (vif_speed i)); word_entry HWMASK (vif_mask i);
   word_entry HWETHIP (vif_ip i);
   mk_c_hw_entry (htonl HWETHER) (vif_addr i ++ replicate 26 0)].

Definition msg_type (m : vns_msg) : Z :=
  match m with
  | MPacket _ _ => VNSPACKET | MHwInfo _ => VNSHWINFO | MClose _ => VNSCLOSE | MOther t _ => t
  end.

Definition msg_body (m : vns_msg) : bytes :=
  match m with
  | MPacket iface packet => strncpy_bytes iface 16 ++ packet
  | MHwInfo ifs => mjoin (map entry_bytes (ifs ≫= if_entries))
  | MClose reason => string_bytes reason ++ [0]
  | MOther _ body => body
  end.

Definition msg_len (m : vns_msg) : Z := 8 + Z.of_nat (length (msg_body m)).
Definition encode (m : vns_msg) : bytes :=
  word_bytes (htonl (msg_len m)) ++ word_bytes (htonl (msg_type m)) ++ msg_body m.

Definition vns_if_ok (i : sr_vns_if) : Prop :=
  no_null (vif_name i) /\ (0 < String.length (vif_name i) < 32)%nat /\
  length (vif_addr i) = 6%nat /\ is_u32 (vif_ip i) /\ is_u32 (vif_mask i) /\ is_u32 (vif_speed i).

Definition msg_ok (m : vns_msg) : Prop :=
  msg_len m <= MAX_COMMAND /\
  match m with
  | MPacket iface _ => no_null iface /\ (String.length iface < 16)%nat
  | MHwInfo ifs => Forall vns_if_ok ifs
  | MClose reason => no_null reason
  | MOther t _ => is_u32 t /\ int32 t ∉ [VNSPACKET; VNSCLOSE; VNSHWINFO]
  end.

Lemma ntohl_htonl x : is_u32 x -> ntohl (htonl x) = x.
Proof. apply bswap32_involutive. Qed.

Lemma encode_length m : Z.of_nat (length (encode m)) = msg_len m.
Proof. unfold encode, msg_len. rewrite !length_app. simpl. lia. Qed.

(** ** Meaning

    What a message makes the router do. *)
Section Meaning.
Context {W : Type} `{Streams W} `{Pcap} `{Sockets W} `{Subsystem W}.

Fixpoint add_interfaces (ifs : list sr_vns_if) : host W unit :=
  match ifs with
  | [] => mret tt
  | i :: ifs => integ_add_interface i;; add_interfaces ifs
  end.

Definition handle (sr : sr_instance) (m : vns_msg) : host W (Z * sr_instance) :=
  match m with
  | MPacket iface packet =>
      sr_log_packet sr packet (Z.of_nat (length packet));;
      integ_input packet (Z.of_nat (length packet)) iface;;
      mret (1, sr)
  | MHwInfo ifs =>
      add_interfaces ifs;; integ_hw_setup;; mret (1, set_hw_init true sr)
  | MClose _ => sr ← sr_close_instance sr; mret (0, sr)
  | MOther _ _ => mret (1, sr)
  end.
End Meaning.

(** Computations that do the same. *)
Definition same {W A} (m n : host W A) : Prop := forall w, m w = n w.

Lemma same_bind {W A B} (m n : host W A) (f g : A -> host W B) :
  same m n -> (forall a, same (f a) (g a)) -> same (m ≫= f) (n ≫= g).
Proof. intros Hm Hf w. unfold mbind, host_bind. rewrite Hm. destruct (n w) as [[h|a] w']; [done|apply Hf]. Qed.

Lemma same_assoc {W A B C} (m : host W A) (f : A -> host W B) (g : B -> host W C) :
  same ((m ≫= f) ≫= g) (m ≫= fun a => f a ≫= g).
Proof. intros w. unfold mbind, host_bind. by destruct (m w) as [[h|a] w']. Qed.

Lemma same_refl {W A} (m : host W A) : same m m.
Proof. by intros w. Qed.

Lemma same_trans {W A} (m n p : host W A) : same m n -> same n p -> same m p.
Proof. intros E F w. by rewrite E. Qed.

#[export] Instance same_equivalence {W A} : Equivalence (@same W A).
Proof. split; [intros m; apply same_refl|by intros m n E w|intros m n p; apply same_trans]. Qed.

(** ** Hardware information *)

Section HwInfo.
Context {W : Type} `{Subsystem W}.

Fixpoint steps (v : hw_scan) (es : list c_hw_entry) : host W hw_scan :=
  match es with
  | [] => mret v
  | e :: es => v ← hw_entry_step v e; steps v es
  end.

Lemma mjoin_length (es : list c_hw_entry) : Forall (fun e => length (hw_value e) = 32%nat) es ->
  length (mjoin (map entry_bytes es)) = (36 * length es)%nat.
Proof.
  induction 1 as [|e es He _ IH]; [done|]. simpl. rewrite !length_app, IH, He. simpl. lia.
Qed.

Definition entry_ok (e : c_hw_entry) : Prop := is_u32 (hw_mKey e) /\ length (hw_value e) = 32%nat.

Lemma hw_entry_at_app hd done e es : length hd = 8%nat -> Forall entry_ok done -> entry_ok e ->
  hw_entry_at (hd ++ mjoin (map entry_bytes (done ++ e :: es))) (length done) = Some e.
Proof.
  intros Hh Hd [Hk Hv]. rewrite map_app, join_app. cbn [map mjoin list_join].
  unfold hw_entry_at, SIZEOF_c_base, SIZEOF_c_hw_entry.
  set (pre := hd ++ mjoin (map entry_bytes done)).
  assert (length pre = 8 + 36 * length done)%nat as Hl.
  { unfold pre. rewrite length_app, mjoin_length, Hh; [done|]. eapply Forall_impl; [done|]. by intros x []. }
  set (post := mjoin (map entry_bytes es)).
  replace (hd ++ mjoin (map entry_bytes done) ++ entry_bytes e ++ post)
    with (pre ++ word_bytes (hw_mKey e) ++ hw_value e ++ post)
    by (unfold pre, entry_bytes; by rewrite <-!app_assoc).
  rewrite <-Hl, get32_at_word by done. cbn [mbind option_bind].
  assert (length pre + 4 = length (pre ++ word_bytes (hw_mKey e)))%nat as -> by (rewrite length_app; done).
  rewrite app_assoc, <-Hv, get_range_at. by destruct e.
Qed.

(** The loop over the message is the loop over its entries. *)
Lemma hw_entries_steps hd done es v : length hd = 8%nat -> Forall entry_ok (done ++ es) ->
  same (hw_entries (hd ++ mjoin (map entry_bytes (done ++ es))) (length done) (length es) v) (steps v es).
Proof.
  intros Hh. revert done v. induction es as [|e es IH]; intros done v Hok; [reflexivity|]. cbn [length hw_entries steps].
  assert (Forall entry_ok done /\ entry_ok e) as [Hd He]
    by (rewrite Forall_app, Forall_cons in Hok; tauto).
  rewrite hw_entry_at_app by done. apply same_bind; [reflexivity|]. intros v'.
  specialize (IH (done ++ [e]) v'). rewrite length_app, Nat.add_1_r, <-app_assoc in IH. by apply IH.
Qed.

Lemma value_word_entry key v : is_u32 v -> value_word (word_entry key v) = v.
Proof.
  intros Hv. unfold value_word, word_entry. cbn [hw_value].
  change (default 0 (get32 ([] ++ word_bytes v ++ replicate 28 0) (length (@nil Z))) = v).
  by rewrite get32_at_word.
Qed.

(** The interface a scan holds is complete when it has a name. *)
Lemma steps_interface v i es : vns_if_ok i ->
  same (steps v (if_entries i ++ es)) (v ← flush_interface v; steps (mk_hw_scan i true) es).
Proof.
  intros (Hn & Hl & Ha & Hi & Hm & Hs). unfold if_entries. cbn [app steps].
  unfold hw_entry_step at 1. cbn [hw_mKey]. change (ntohl (htonl HWINTERFACE) =? HWINTERFACE) with true.
  cbv iota. etransitivity; [apply same_assoc|]. apply same_bind; [reflexivity|]. intros v'.
  unfold value_name. cbn [hw_value].
  pose proof (strncpy_bytes_cstring (vif_name i) 32 [] Hn ltac:(lia)) as E. rewrite app_nil_r in E. rewrite E.
  intros w. erewrite host_bind_done by reflexivity.
  assert (value_word (word_entry HWSPEED (htonl (vif_speed i))) = htonl (vif_speed i)) as E1
    by apply value_word_entry, bswap32_range.
  assert (value_word (word_entry HWMASK (vif_mask i)) = vif_mask i) as E2 by by apply value_word_entry.
  assert (value_word (word_entry HWETHIP (vif_ip i)) = vif_ip i) as E3 by by apply value_word_entry.
  erewrite host_bind_done by (unfold hw_entry_step; rewrite E1; reflexivity).
  erewrite host_bind_done by (unfold hw_entry_step; rewrite E2; reflexivity).
  erewrite host_bind_done by (unfold hw_entry_step; rewrite E3; reflexivity).
  erewrite host_bind_done by reflexivity. cbn [hs_if hs_terminated hw_value vif_name vif_addr vif_ip vif_mask vif_speed set_vif_name].
  rewrite take_app_length' by done. unfold ntohl, htonl. rewrite (bswap32_involutive _ Hs). by destruct i.
Qed.

Lemma flush_named i w : (0 < String.length (vif_name i))%nat ->
  flush_interface (mk_hw_scan i true) w
  = (integ_add_interface i;; mret (mk_hw_scan (set_vif_name "" i) true)) w.
Proof. intros Hl. unfold flush_interface, strcmp_eq. cbn [hs_if hs_terminated]. destruct (vif_name i); [simpl in Hl; lia|done]. Qed.

(** From a named interface on: every interface is added, in order, the last one
    after the loop. *)
Lemma steps_all {A} i ifs (k : host W A) : vns_if_ok i -> Forall vns_if_ok ifs ->
  same (v ← steps (mk_hw_scan i true) (ifs ≫= if_entries); flush_interface v;; k)
       (add_interfaces (i :: ifs);; k).
Proof.
  intros Hi Hifs. revert i Hi. induction Hifs as [|j ifs Hj Hifs IH]; intros i Hi w.
  - cbn [mbind list_bind steps]. erewrite host_bind_done by reflexivity.
    unfold mbind at 1, host_bind at 1. rewrite flush_named by apply Hi.
    cbn [add_interfaces]. unfold mbind, host_bind, mret, host_ret.
    by destruct (integ_add_interface i w) as [[h|[]] w'].
  - change ((j :: ifs) ≫= if_entries) with (if_entries j ++ (ifs ≫= if_entries)).
    rewrite (same_bind _ _ _ _ (steps_interface _ j _ Hj) (fun _ => same_refl _) w).
    rewrite same_assoc. specialize (IH j Hj). unfold same, mbind, host_bind, mret, host_ret in *.
    rewrite flush_named by apply Hi. cbn [add_interfaces]. unfold mbind, host_bind, mret, host_ret.
    destruct (integ_add_interface i w) as [[h|[]] w']; [done|]. exact (IH w').
Qed.
End HwInfo.

Lemma if_entries_ok i : vns_if_ok i -> Forall entry_ok (if_entries i).
Proof.
  intros (_ & _ & Ha & _). repeat constructor; try apply bswap32_range; cbn [word_entry hw_value].
  - apply strncpy_bytes_length.
  - by rewrite length_app, Ha.
Qed.

Lemma all_entries_ok ifs : Forall vns_if_ok ifs -> Forall entry_ok (ifs ≫= if_entries).
Proof.
  induction 1 as [|i ifs Hi _ IH]; [constructor|].
  change ((i :: ifs) ≫= if_entries) with (if_entries i ++ (ifs ≫= if_entries)).
  apply Forall_app. split; [by apply if_entries_ok|done].
Qed.

(** ** One message *)

Section Message.
Context {W : Type} `{Streams W} `{Pcap} `{Sockets W} `{Subsystem W} `{!Stack W}.

(** The buffer after the message was read: its type is in the order of the host. *)
Definition received (m : vns_msg) : bytes :=
  word_bytes (htonl (msg_len m)) ++ word_bytes (msg_type m) ++ msg_body m.

Lemma msg_len_range m : msg_ok m -> 8 <= msg_len m <= MAX_COMMAND.
Proof. intros [Hl _]. unfold msg_len in *. lia. Qed.

(** The hardware information: exactly the interfaces that were sent, in order,
    then the set-up. *)
Lemma sr_handle_hwinfo_spec sr ifs : msg_ok (MHwInfo ifs) ->
  same (r ← sr_handle_hwinfo sr (received (MHwInfo ifs)); mret (1, r.2)) (handle sr (MHwInfo ifs)).
Proof.
  intros Hm. pose proof (msg_len_range _ Hm) as Hl. destruct Hm as [_ Hifs].
  set (es := ifs ≫= if_entries). assert (Forall entry_ok es) as Hes by by apply all_entries_ok.
  assert (msg_len (MHwInfo ifs) = 8 + 36 * Z.of_nat (length es)) as Hlen.
  { unfold msg_len. cbn [msg_body]. fold es. rewrite mjoin_length; [lia|].
    eapply Forall_impl; [exact Hes|]. by intros e []. }
  unfold MAX_COMMAND in Hl. unfold sr_handle_hwinfo, received.
  change (get32 (?a ++ ?b) 0) with (get32 ([] ++ a ++ b) (length (@nil Z))).
  rewrite get32_at_word by apply bswap32_range. unfold ntohl, htonl.
  rewrite bswap32_involutive by (unfold is_u32; lia). rewrite Hlen.
  assert (u64 (8 + 36 * Z.of_nat (length es) - Z.of_nat SIZEOF_c_base) / Z.of_nat SIZEOF_c_hw_entry
          = Z.of_nat (length es)) as ->.
  { unfold SIZEOF_c_base, SIZEOF_c_hw_entry, u64. rewrite Z.mod_small by lia.
    replace (8 + 36 * Z.of_nat (length es) - Z.of_nat 8) with (Z.of_nat (length es) * Z.of_nat 36) by lia.
    apply Z.div_mul. lia. }
  rewrite int32_id, Nat2Z.id by lia. cbn [msg_body msg_type]. fold es. intros w.
  set (hd := word_bytes (bswap32 (8 + 36 * Z.of_nat (length es))) ++ word_bytes VNSHWINFO).
  rewrite app_assoc. fold hd. rewrite same_assoc. erewrite host_bind_done by reflexivity.
  set (v := mk_hw_scan _ true).
  pose proof (hw_entries_steps hd [] es v eq_refl Hes) as Hsteps. cbn [app length] in Hsteps.
  rewrite same_assoc. rewrite (same_bind _ _ _ _ Hsteps (fun _ => same_refl _) w).
  transitivity ((v ← steps v es; flush_interface v;; (integ_hw_setup;; mret (1, set_hw_init true sr))) w).
  { apply same_bind; [reflexivity|]. intros v' w'. rewrite same_assoc.
    apply same_bind; [reflexivity|]. intros v'' w''. rewrite same_assoc. reflexivity. }
  destruct Hifs as [|i ifs Hi Hifs]; [reflexivity|].
  unfold es. change ((i :: ifs) ≫= if_entries) with (if_entries i ++ (ifs ≫= if_entries)).
  rewrite (same_bind _ _ _ _ (steps_interface _ i _ Hi) (fun _ => same_refl _) w).
  rewrite same_assoc. erewrite host_bind_done by reflexivity.
  by apply (steps_all i ifs).
Qed.

(** A message that was read means what its sender put in it. *)
Lemma dispatch_message sr m : msg_ok m ->
  same (dispatch sr (received m) (msg_len m) (int32 (msg_type m))) (handle sr m).
Proof.
  intros Hm. pose proof (msg_len_range _ Hm) as Hl. unfold MAX_COMMAND in Hl.
  destruct m as [iface packet|ifs|reason|t body]; unfold dispatch, cstr_at, cstr.
  - destruct Hm as (_ & Hn & Hi). cbn [msg_type].
    change (int32 VNSPACKET =? VNSPACKET) with true. cbv iota.
    assert (msg_len (MPacket iface packet) = 24 + Z.of_nat (length packet)) as Hlen.
    { unfold msg_len. cbn [msg_body]. rewrite length_app, strncpy_bytes_length. lia. }
    assert (u64 (msg_len (MPacket iface packet) - Z.of_nat SIZEOF_c_packet_header)
            = Z.of_nat (length packet)) as ->.
    { rewrite Hlen. unfold SIZEOF_c_packet_header, u64. rewrite Z.mod_small by lia. lia. }
    rewrite int32_id, u32_id by (unfold is_u32; lia).
    assert (drop SIZEOF_c_packet_header (received (MPacket iface packet)) = packet) as ->.
    { unfold received. cbn [msg_body]. rewrite !app_assoc, <-!app_assoc.
      rewrite (app_assoc (word_bytes _)), (app_assoc (_ ++ _)). apply drop_app_length'.
      rewrite !length_app, strncpy_bytes_length. done. }
    assert (drop SIZEOF_c_base (received (MPacket iface packet)) = strncpy_bytes iface 16 ++ packet) as ->.
    { unfold received. cbn [msg_body]. rewrite app_assoc. by apply drop_app_length'. }
    rewrite strncpy_bytes_cstring by done. reflexivity.
  - cbn [msg_type]. change (int32 VNSHWINFO =? VNSPACKET) with false.
    change (int32 VNSHWINFO =? VNSCLOSE) with false. change (int32 VNSHWINFO =? VNSHWINFO) with true.
    cbv iota. by apply sr_handle_hwinfo_spec.
  - destruct Hm as (_ & Hn). cbn [msg_type]. change (int32 VNSCLOSE =? VNSPACKET) with false.
    change (int32 VNSCLOSE =? VNSCLOSE) with true. cbv iota.
    assert (drop SIZEOF_c_base (received (MClose reason)) = string_bytes reason ++ [0]) as ->.
    { unfold received. cbn [msg_body]. rewrite app_assoc. by apply drop_app_length'. }
    rewrite cstring_bytes by done. reflexivity.
  - destruct Hm as (_ & Ht & Hn). cbn [msg_type].
    assert (forall k, k ∈ [VNSPACKET; VNSCLOSE; VNSHWINFO] -> int32 t =? k = false) as Hk.
    { intros k Hin. apply Z.eqb_neq. by intros <-. }
    rewrite !Hk by set_solver. reflexivity.
Qed.
End Message.

(** ** The connection *)

Lemma take_more {A} k n (l : list A) : (k <= n)%nat -> (n <= length l)%nat ->
  take k l ++ take (n - length (take k l)) (drop k l) = take n l /\
  drop (n - length (take k l)) (drop k l) = drop n l.
Proof.
  intros Hk Hn. rewrite length_take, Nat.min_l by lia. rewrite take_take_drop, drop_drop.
  split; f_equal; lia.
Qed.

Section Session.
Context {St : Type} `{Sockets (St * conn)}.
Hypothesis sock_read_conn : forall fd n, sock_read fd n = conn_read n.

(** The loops take [left] bytes off the connection, whatever its pieces. *)
Lemma recv_loop_conn n fd got left s c :
  (left <= length (c_in c))%nat -> (length (c_sched c) + left < n)%nat ->
  exists sch, (length sch <= length (c_sched c))%nat /\
    recv_loop n fd got left (s, c)
    = (inr (Some (got ++ take left (c_in c))), (s, set_sched sch (set_in (drop left (c_in c)) c))).
Proof.
  revert got left c. induction n as [|n IH]; intros got left c Hl Hf; [lia|].
  destruct left as [|left].
  { exists (c_sched c). rewrite app_nil_r. split; [done|]. by destruct c. }
  cbn [recv_loop]. assert (c_in c <> []) as Ei by (intros E; rewrite E in Hl; simpl in Hl; lia).
  destruct (conn_read_step (S left) s c ltac:(lia) Ei) as [(sch & Hs & Er) | (sch & k & Hs & Hk & Er)];
    rewrite (host_bind_done _ _ _ _ _ (eq_trans (f_equal (fun m => m (s, c)) (sock_read_conn fd _)) Er)).
  - destruct (IH got (S left) (set_sched sch c)) as (sch' & Hl' & E'); [done|simpl; lia|].
    exists sch'. split; [simpl in *; lia|]. rewrite E'. by destruct c.
  - set (c' := set_sched sch (set_in (drop k (c_in c)) c)).
    destruct (take_more k (S left) (c_in c)) as [Et Ed]; [lia|done|].
    destruct (IH (got ++ take k (c_in c)) (S left - length (take k (c_in c)))%nat c') as (sch' & Hl' & E').
    { unfold c'. cbn [c_in set_sched set_in]. rewrite length_take, length_drop. lia. }
    { unfold c'. cbn [c_sched set_sched set_in]. rewrite length_take. lia. }
    exists sch'. split; [unfold c' in *; cbn [c_sched set_sched set_in] in *; lia|]. rewrite E'.
    unfold c'. cbn [c_in set_sched set_in]. rewrite Ed, <-app_assoc, Et. by destruct c.
Qed.

(** Without a bound on the calls the connection answers: the loop ends with its
    bytes or not at all. *)
Lemma recv_loop_ends n fd got left s c : c_hung c = true ->
  (exists w, recv_loop n fd got left (s, c) = (inl HFuel, w)) \/
  ((left <= length (c_in c))%nat /\ exists sch,
    recv_loop n fd got left (s, c)
    = (inr (Some (got ++ take left (c_in c))), (s, set_sched sch (set_in (drop left (c_in c)) c)))).
Proof.
  intros Hh. revert got left c Hh. induction n as [|n IH]; intros got left c Hh.
  { destruct left as [|left]; [right|left; by eexists]. split; [lia|]. exists (c_sched c).
    rewrite app_nil_r. by destruct c. }
  destruct left as [|left].
  { right. split; [lia|]. exists (c_sched c). rewrite app_nil_r. by destruct c. }
  cbn [recv_loop]. destruct (decide (c_in c = [])) as [Ei|Ei].
  - destruct (conn_read_end (S left) s c Ei Hh) as (sch & r & _ & Er & Hr).
    rewrite (host_bind_done _ _ _ _ _ (eq_trans (f_equal (fun m => m (s, c)) (sock_read_conn fd _)) Er)).
    assert (exists w, recv_loop n fd got (S left) (s, set_sched sch c) = (inl HFuel, w)) as [w E].
    { destruct (IH got (S left) (set_sched sch c) Hh) as [?|[Hl _]]; [done|].
      cbn [c_in set_sched] in Hl. rewrite Ei in Hl. simpl in Hl. lia. }
    left. exists w. by destruct Hr as [-> | [-> _]].
  - destruct (conn_read_step (S left) s c ltac:(lia) Ei) as [(sch & Hs & Er) | (sch & k & Hs & Hk & Er)];
      rewrite (host_bind_done _ _ _ _ _ (eq_trans (f_equal (fun m => m (s, c)) (sock_read_conn fd _)) Er)).
    + destruct (IH got (S left) (set_sched sch c) Hh) as [?|[Hl [sch' E']]]; [by left|right].
      split; [done|]. exists sch'. rewrite E'. by destruct c.
    + set (c' := set_sched sch (set_in (drop k (c_in c)) c)).
      destruct (IH (got ++ take k (c_in c)) (S left - length (take k (c_in c)))%nat c' Hh)
        as [?|[Hl [sch' E']]]; [by left|right].
      unfold c' in Hl. cbn [c_in set_sched set_in] in Hl. rewrite length_take, length_drop in Hl.
      assert (0 < length (c_in c))%nat by (destruct (c_in c); [done|simpl; lia]).
      assert (S left <= length (c_in c))%nat as Hle by lia. split; [done|].
      destruct (take_more k (S left) (c_in c)) as [Et Ed]; [lia|done|].
      exists sch'. rewrite E'. unfold c'. cbn [c_in set_sched set_in].
      rewrite Ed, <-app_assoc, Et. by destruct c.
Qed.

Context `{Streams (St * conn)} `{Pcap} `{Subsystem (St * conn)} `{!Stack (St * conn)}.
Variable fuel : nat.

Lemma encode_parts m : encode m = word_bytes (htonl (msg_len m)) ++ drop 4 (encode m).
Proof. done. Qed.

(** The parts of reading a message once its bytes are there. *)
Lemma read_from_parts sr s c m c' w rest : msg_ok m ->
  recv_loop fuel (sockfd sr) [] 4 (s, c) = (inr (Some (word_bytes (htonl (msg_len m)))), (s, c')) ->
  recv_loop fuel (sockfd sr) [] (Z.to_nat (msg_len m - 4)) (s, c') = (rest, w) ->
  sr_vns_read_from_server fuel sr (s, c)
  = match rest with
    | inl h => (inl h, w)
    | inr None => (sock_close (sockfd sr);; mret (-1, sr)) w
    | inr (Some rest) =>
        match get32 (word_bytes (htonl (msg_len m)) ++ rest) 4 with
        | None => (inl HOverrun, w)
        | Some mType =>
            match put32 (word_bytes (htonl (msg_len m)) ++ rest) 4 (ntohl mType) with
            | None => (inl HOverrun, w)
            | Some buf => dispatch sr buf (msg_len m) (int32 (ntohl mType)) w
            end
        end
    end.
Proof.
  intros Hm E1 E2. pose proof (msg_len_range _ Hm) as Hl. unfold MAX_COMMAND in Hl.
  unfold sr_vns_read_from_server. rewrite (host_bind_done _ _ _ _ _ E1).
  change (get32 (word_bytes ?a) 0) with (get32 ([] ++ word_bytes a ++ []) (length (@nil Z))).
  rewrite get32_at_word by apply bswap32_range. change (default 0 (Some ?x)) with x.
  unfold ntohl, htonl. rewrite !bswap32_involutive, int32_id, u32_id by (unfold is_u32; lia).
  unfold MAX_COMMAND.
  assert (10000 <? msg_len m = false) as -> by (apply Z.ltb_ge; lia).
  assert (msg_len m <? 0 = false) as -> by (apply Z.ltb_ge; lia).
  assert (msg_len m <? 4 = false) as -> by (apply Z.ltb_ge; lia). cbn [orb].
  destruct rest as [h|[rest|]].
  - by rewrite (host_bind_halt _ _ _ _ _ E2).
  - rewrite (host_bind_done _ _ _ _ _ E2). destruct (get32 _ 4) as [x|]; [|done]. by destruct (put32 _ 4 _).
  - by rewrite (host_bind_done _ _ _ _ _ E2).
Qed.

(** One message is taken off the connection and its meaning is carried out. *)
Lemma read_one_message sr m rest s c :
  msg_ok m -> c_in c = encode m ++ rest -> (length (c_sched c) + length (encode m) < fuel)%nat ->
  exists sch, (length sch <= length (c_sched c))%nat /\
    sr_vns_read_from_server fuel sr (s, c) = handle sr m (s, set_sched sch (set_in rest c)).
Proof.
  intros Hm Hin Hf. pose proof (msg_len_range _ Hm) as Hl. pose proof (encode_length m) as Hlen.
  assert (length (c_in c) = length (encode m) + length rest)%nat as Hin' by (by rewrite Hin, length_app).
  destruct (recv_loop_conn fuel (sockfd sr) [] 4 s c) as (s1 & L1 & E1); [lia|lia|].
  set (c1 := set_sched s1 _) in E1.
  assert (take 4 (c_in c) = word_bytes (htonl (msg_len m))) as T1 by by rewrite Hin, encode_parts.
  assert (c_in c1 = drop 4 (encode m) ++ rest) as I1.
  { unfold c1. cbn [c_in set_sched set_in]. by rewrite Hin. }
  rewrite T1 in E1.
  assert (length (drop 4 (encode m)) = Z.to_nat (msg_len m - 4)) as D1 by (rewrite length_drop; lia).
  destruct (recv_loop_conn fuel (sockfd sr) [] (Z.to_nat (msg_len m - 4)) s c1) as (s2 & L2 & E2).
  { rewrite I1, length_app. lia. }
  { unfold c1. cbn [c_sched set_sched]. lia. }
  exists s2. split; [unfold c1 in L2; cbn [c_sched set_sched] in L2; lia|].
  rewrite I1, <-D1, take_app_length, drop_app_length, D1 in E2. cbn [app] in E1, E2.
  rewrite (read_from_parts _ _ _ _ _ _ _ Hm E1 E2), <-encode_parts.
  assert (is_u32 (msg_type m)) as Ht.
  { destruct m; try (unfold is_u32; cbn; unfold VNSPACKET, VNSCLOSE, VNSHWINFO; lia). by destruct Hm as (_ & ? & _). }
  unfold encode. change 4%nat with (length (word_bytes (htonl (msg_len m)))) at 1 2.
  rewrite get32_at_word by apply bswap32_range. rewrite put32_word_at. rewrite !ntohl_htonl by done.
  rewrite <-(dispatch_message sr m Hm). unfold received, c1. by destruct c.
Qed.

(** A connection that was closed before the end of a message is read from for
    ever: the call does not return, however many system calls it may make. *)
Lemma closed_spins sr m k s c :
  msg_ok m -> c_hung c = true -> c_in c = take k (encode m) -> (k < length (encode m))%nat ->
  exists w, sr_vns_read_from_server fuel sr (s, c) = (inl HFuel, w).
Proof.
  intros Hm Hh Hin Hk. pose proof (msg_len_range _ Hm) as Hl. pose proof (encode_length m) as Hlen.
  assert (length (c_in c) = k) as Hc by (rewrite Hin, length_take; lia).
  destruct (recv_loop_ends fuel (sockfd sr) [] 4 s c Hh) as [[w E]|[H4 [s1 E1]]].
  { exists w. unfold sr_vns_read_from_server. by rewrite (host_bind_halt _ _ _ _ _ E). }
  set (c1 := set_sched s1 _) in E1. assert (c_hung c1 = true) as Hh1 by done.
  assert (take 4 (c_in c) = word_bytes (htonl (msg_len m))) as T1.
  { rewrite Hin, take_take, Nat.min_l by lia. by rewrite encode_parts. }
  rewrite T1 in E1. cbn [app] in E1.
  destruct (recv_loop_ends fuel (sockfd sr) [] (Z.to_nat (msg_len m - 4)) s c1 Hh1) as [[w E]|[Hlong _]].
  - exists w. by rewrite (read_from_parts _ _ _ _ _ _ _ Hm E1 E).
  - unfold c1 in Hlong. cbn [c_in set_sched set_in] in Hlong. rewrite length_drop in Hlong. lia.
Qed.
End Session.

(** ** Sessions

    The two ends of the connection hold states of type [St]; what the router and
    the dump do concerns the state only. *)

Section Ends.
Context {St : Type} `{Subsystem St} `{Streams St} `{Pcap}.

Definition lifted {A} (m : host St A) : host (St * conn) A := fun w =>
  let '(r, s') := m w.1 in (r, (s', w.2)).

#[export] Instance lifted_subsystem : Subsystem (St * conn) := {|
  integ_init n := lifted (integ_init n);
  integ_add_interface i := lifted (integ_add_interface i);
  integ_hw_setup := lifted integ_hw_setup;
  integ_input p n i := lifted (integ_input p n i);
  integ_destroy := lifted integ_destroy
|}.
#[export] Instance lifted_streams : Streams (St * conn) := {|
  fopen_w n := lifted (fopen_w n);
  fwrite f b := lifted (fwrite f b);
  fclose f := lifted (fclose f);
  gettimeofday := lifted gettimeofday;
  stdout := stdout
|}.

(** Bytes that are sent go out. *)
Definition to_out (b : bytes) (w : St * conn) : St * conn := (w.1, set_out (c_out w.2 ++ b) w.2).

Variables (addresses : string -> option Z) (errno_of : St * conn -> Z).

#[export] Instance vns_sockets : Sockets (St * conn) := {|
  sock_stream := mret 3;
  sock_connect _ _ _ := change (fun w => (w.1, mk_conn [] [] false (c_sched w.2)));; mret 0;
  sock_close _ := change (fun w => (w.1, mk_conn [] [] true (c_sched w.2)));
  sock_read _ := conn_read;
  sock_write _ := conn_write to_out;
  inet_aton := addresses;
  errno := errno_of
|}.
Context `{!Stack (St * conn)}.
Variable fuel : nat.

(** What a message does to the state, and the instance after it. *)
Definition meaning (sr : sr_instance) (m : vns_msg) : host St sr_instance :=
  match m with
  | MPacket iface packet =>
      sr_log_packet sr packet (Z.of_nat (length packet));;
      integ_input packet (Z.of_nat (length packet)) iface;;
      mret sr
  | MHwInfo ifs => add_interfaces ifs;; integ_hw_setup;; mret (set_hw_init true sr)
  | MClose _ =>
      (match logfile sr with Some fp => sr_dump_close fp | None => mret tt end);;
      mret (set_hw_init false sr)
  | MOther _ _ => mret sr
  end.

Fixpoint session (sr : sr_instance) (ms : list vns_msg) : host St sr_instance :=
  match ms with
  | [] => mret sr
  | m :: ms => sr ← meaning sr m; session sr ms
  end.

Definition is_close (m : vns_msg) : bool := match m with MClose _ => true | _ => false end.

Definition result_map {A B} (f : A -> B) (r : halt + A) : halt + B :=
  match r with inl h => inl h | inr a => inr (f a) end.

(** A lifted sequence. *)
Lemma lifted_bind {A B} (m : host St A) (f : A -> host St B) :
  same (lifted (m ≫= f)) (lifted m ≫= fun a => lifted (f a)).
Proof. intros [s c]. unfold lifted, mbind, host_bind. simpl. by destruct (m s) as [[h|a] s']. Qed.

Lemma lifted_if {A} (b : bool) (m n : host St A) :
  lifted (if b then m else n) = (if b then lifted m else lifted n).
Proof. by destruct b. Qed.

Lemma log_lifted sr p n : same (sr_log_packet sr p n) (lifted (sr_log_packet sr p n)).
Proof.
  unfold sr_log_packet, sr_dump. destruct (logfile sr) as [fp|]; [|by intros []].
  rewrite lifted_bind. apply same_bind; [reflexivity|]. intros now. rewrite lifted_bind.
  apply same_bind; [reflexivity|]. intros []. rewrite lifted_if. destruct (_ <? _); by intros [].
Qed.

Lemma add_lifted ifs : same (add_interfaces ifs) (lifted (add_interfaces ifs)).
Proof.
  induction ifs as [|i ifs IH]; [by intros []|]. cbn [add_interfaces]. rewrite lifted_bind.
  apply same_bind; [reflexivity|]. by intros [].
Qed.

(** The call's result: 1 to go on, 0 at the end of the session. *)
Lemma handle_meaning sr m s c :
  exists c', handle sr m (s, c)
    = (result_map (fun sr => (if is_close m then 0 else 1, sr)) (meaning sr m s).1, ((meaning sr m s).2, c')) /\
  (is_close m = false -> c' = c).
Proof.
  enough (forall n : host St sr_instance,
    same (handle sr m) ((if is_close m then change (fun w => (w.1, mk_conn [] [] true (c_sched w.2))) else mret tt);;
                        r ← lifted n; mret (if is_close m then 0 else 1, r)) -> same n (meaning sr m) ->
    exists c', handle sr m (s, c)
    = (result_map (fun sr => (if is_close m then 0 else 1, sr)) (meaning sr m s).1, ((meaning sr m s).2, c')) /\
    (is_close m = false -> c' = c)) as Hgo.
  { apply (Hgo (meaning sr m)); [|reflexivity]. destruct m as [iface p|ifs|reason|t b]; intros w;
      cbn [handle is_close meaning].
    - erewrite (host_bind_done (mret tt)) by reflexivity.
      rewrite (same_bind _ _ _ _ (lifted_bind _ _) (fun _ => same_refl _) w), same_assoc.
      apply (same_bind _ _ _ _ (log_lifted sr p _)). intros [] w1.
      rewrite (same_bind _ _ _ _ (lifted_bind _ _) (fun _ => same_refl _) w1), same_assoc.
      apply same_bind; [reflexivity|]. by intros [] [].
    - erewrite (host_bind_done (mret tt)) by reflexivity.
      rewrite (same_bind _ _ _ _ (lifted_bind _ _) (fun _ => same_refl _) w), same_assoc.
      apply (same_bind _ _ _ _ (add_lifted ifs)). intros [] w1.
      rewrite (same_bind _ _ _ _ (lifted_bind _ _) (fun _ => same_refl _) w1), same_assoc.
      apply same_bind; [reflexivity|]. by intros [] [].
    - unfold sr_close_instance. rewrite same_assoc. apply same_bind; [reflexivity|]. intros [] w1.
      rewrite same_assoc. rewrite (same_bind _ _ _ _ (lifted_bind _ _) (fun _ => same_refl _) w1), same_assoc.
      apply same_bind; [destruct (logfile sr); by intros []|]. by intros [] [].
    - by destruct w. }
  intros n Hh Hn. rewrite Hh, <-Hn. unfold mbind, host_bind, lifted, change, mret, host_ret.
  destruct (is_close m); cbn [fst snd]; destruct (n s) as [[h|r] s']; eexists; (split; [reflexivity|done]).
Qed.

(** C16: A session with the server: the messages of the stream are handled in
    their order, each one exactly once, whatever the pieces the socket delivers
    and the calls that are interrupted; the loop ends at the message that closes
    the session and leaves what follows it unread. *)
Theorem session_in_order ms reason rest sr s c :
  Forall (fun m => msg_ok m /\ is_close m = false) ms -> msg_ok (MClose reason) ->
  c_in c = mjoin (map encode ms) ++ encode (MClose reason) ++ rest ->
  Z.of_nat (length (c_sched c)) + MAX_COMMAND < Z.of_nat fuel ->
  exists c', server_loop fuel (S (length ms)) sr (s, c)
    = let '(r, s') := session sr (ms ++ [MClose reason]) s in (result_map (pair 0) r, (s', c')).
Proof.
  intros Hms Hr. revert sr s c. induction Hms as [|m ms [Hm Hnc] _ IH]; intros sr s c Hin Hf;
    cbn [length server_loop app session].
  - cbn [map mjoin list_join app] in Hin. pose proof (encode_length (MClose reason)) as Hl.
    pose proof (msg_len_range _ Hr) as Hl'.
    destruct (@read_one_message St vns_sockets (fun _ _ => eq_refl) _ _ _ fuel sr _ rest s c Hr Hin) as (sch & _ & E); [lia|].
    destruct (handle_meaning sr (MClose reason) s (set_sched sch (set_in rest c))) as (c' & E' & _).
    rewrite E' in E. cbn [is_close] in E. unfold mbind, host_bind. rewrite E.
    destruct (meaning sr (MClose reason) s) as [[h|sr'] s']; by exists c'.
  - cbn [map mjoin list_join] in Hin. rewrite <-app_assoc in Hin.
    pose proof (encode_length m) as Hl. pose proof (msg_len_range _ Hm) as Hl'.
    destruct (@read_one_message St vns_sockets (fun _ _ => eq_refl) _ _ _ fuel sr _ _ s c Hm Hin) as (sch & Hsch & E); [lia|].
    set (c1 := set_sched sch _) in E.
    destruct (handle_meaning sr m s c1) as (c' & E' & Ec). rewrite (Ec Hnc) in E'.
    rewrite E', Hnc in E. unfold mbind, host_bind. rewrite E.
    destruct (meaning sr m s) as [[h|sr'] s']; [by eexists|]. cbn [fst snd result_map].
    apply (IH sr' s' c1); [done|]. unfold c1. cbn [c_sched set_sched]. lia.
Qed.

(** ** Sending *)

(** What [sr_vns_send_packet] leaves on the connection: the whole message, or
    when it fails a part of it. *)
Lemma send_packet_out sr iface p s c :
  msg_ok (MPacket iface p) -> (14 <= length p)%nat -> logfile sr = None ->
  exists r c', sr_vns_send_packet sr p (Z.of_nat (length p)) iface (s, c) = (inr r, (s, c')) /\
    (r = 0 /\ c_out c' = c_out c ++ encode (MPacket iface p) \/
     r = -1 /\ exists k, (k < length (encode (MPacket iface p)))%nat /\
       c_out c' = c_out c ++ take k (encode (MPacket iface p))).
Proof.
  intros Hm Hp Hlog. pose proof (msg_len_range _ Hm) as Hl. unfold MAX_COMMAND in Hl.
  pose proof (encode_length (MPacket iface p)) as He.
  assert (msg_len (MPacket iface p) = Z.of_nat (length p) + 24) as Hlen.
  { unfold msg_len. cbn [msg_body]. rewrite length_app, strncpy_bytes_length. lia. }
  unfold sr_vns_send_packet, SIZEOF_c_packet_header. change (Z.of_nat 24) with 24.
  rewrite <-Hlen, u32_id by (unfold is_u32; lia).
  assert (Z.of_nat (length p) <? 14 = false) as -> by (apply Z.ltb_ge; lia).
  rewrite Z.ltb_irrefl. assert (msg_len (MPacket iface p) <? 24 = false) as -> by (apply Z.ltb_ge; lia).
  cbn [orb]. unfold sr_log_packet. rewrite Hlog. erewrite host_bind_done by reflexivity.
  rewrite Nat2Z.id, take_ge by lia.
  assert (c_packet_header_bytes (mk_c_packet_header (htonl (msg_len (MPacket iface p))) (htonl VNSPACKET)
            (strncpy_bytes iface 16)) ++ p = encode (MPacket iface p)) as ->.
  { unfold c_packet_header_bytes, encode. cbn [ph_mLen ph_mType ph_mInterfaceName msg_type msg_body].
    by rewrite <-!app_assoc. }
  set (m := encode (MPacket iface p)) in *. rewrite int32_id by lia.
  destruct (conn_write_step to_out m s c ltac:(lia)) as [(sch & _ & E)|(sch & k & _ & Hk & E)];
    rewrite (host_bind_done _ _ _ _ _ E).
  - exists (-1), (set_sched sch c). assert (-1 <? msg_len (MPacket iface p) = true) as ->
      by (apply Z.ltb_lt; lia). split; [done|]. right. split; [done|]. exists 0%nat. split; [lia|].
    by rewrite app_nil_r.
  - destruct (decide (k = length m)) as [->|Hne].
    + eexists 0, _. rewrite He, Z.ltb_irrefl. split; [reflexivity|]. left. split; [done|].
      unfold to_out. cbn [fst snd c_out set_out set_sched]. by rewrite take_ge by lia.
    + eexists (-1), _. assert (Z.of_nat k <? msg_len (MPacket iface p) = true) as ->
        by (apply Z.ltb_lt; lia). split; [reflexivity|]. right. split; [done|]. exists k. split; [lia|done].
Qed.
(** C26: A packet that is sent out of an interface reaches the other end: when
    [sr_vns_send_packet] returns 0, the peer that reads the connection hands its
    router the same packet, with its length, as received on that interface. *)
Theorem packet_round_trip sr sr2 iface p s c s' c' s2 c2 rest :
  msg_ok (MPacket iface p) -> (14 <= length p)%nat -> logfile sr = None -> c_out c = [] ->
  sr_vns_send_packet sr p (Z.of_nat (length p)) iface (s, c) = (inr 0, (s', c')) ->
  c_in c2 = c_out c' ++ rest ->
  Z.of_nat (length (c_sched c2)) + MAX_COMMAND < Z.of_nat fuel ->
  exists sch, sr_vns_read_from_server fuel sr2 (s2, c2)
    = (sr_log_packet sr2 p (Z.of_nat (length p));; integ_input p (Z.of_nat (length p)) iface;; mret (1, sr2))
        (s2, set_sched sch (set_in rest c2)).
Proof.
  intros Hm Hp Hlog Ho Es Hin Hf.
  destruct (send_packet_out sr iface p s c Hm Hp Hlog) as (r & c1 & E & Hr).
  rewrite E in Es. injection Es as -> <- <-. destruct Hr as [[_ Hout]|[? _]]; [|done].
  rewrite Ho in Hout. cbn [app] in Hout. rewrite Hout in Hin.
  pose proof (encode_length (MPacket iface p)) as Hl. pose proof (msg_len_range _ Hm) as Hl'.
  destruct (@read_one_message St vns_sockets (fun _ _ => eq_refl) _ _ _ fuel sr2 _ rest s2 c2 Hm Hin)
    as (sch & _ & E2); [lia|]. by exists sch.
Qed.
End Ends.

(** ** The dump of the packets *)

Section Dump.
Context {W : Type} `{Streams W}.
(** The contents of the files, which [fwrite] extends. *)
Variable file : Z -> W -> bytes.
Hypothesis fwrite_law : forall fp b w, exists w', fwrite fp b w = (inr tt, w') /\ file fp w' = file fp w ++ b.
Hypothesis time_law : forall w, exists sec usec w', gettimeofday w = (inr (sec, usec), w') /\
  is_u32 sec /\ is_u32 usec /\ forall fp, file fp w' = file fp w.

Fixpoint log_all (sr : sr_instance) (ps : list bytes) : host W unit :=
  match ps with
  | [] => mret tt
  | p :: ps => sr_log_packet sr p (Z.of_nat (length p));; log_all sr ps
  end.

(** The records of a dump: the length each states, and its bytes. *)
Fixpoint read_dump (n : nat) (b : bytes) : option (list (Z * bytes)) :=
  match n with
  | O => Some []
  | S n =>
      cap ← get32 b 8; len ← get32 b 12; data ← get_range b 16 (Z.to_nat cap);
      rest ← read_dump n (drop (16 + Z.to_nat cap) b);
      Some ((len, data) :: rest)
  end.

Lemma read_dump_record n sec usec len data rest :
  is_u32 len -> Z.of_nat (length data) < 2 ^ 32 ->
  read_dump (S n) (pcap_sf_pkthdr_bytes (mk_pcap_sf_pkthdr sec usec (Z.of_nat (length data)) len) ++ data ++ rest)
  = rs ← read_dump n rest; Some ((len, data) :: rs).
Proof.
  intros Hl Hd. unfold pcap_sf_pkthdr_bytes. cbn [sf_tv_sec sf_tv_usec sf_caplen sf_len].
  rewrite <-!app_assoc. set (h := word_bytes sec ++ word_bytes usec).
  rewrite (app_assoc (word_bytes sec)). fold h. cbn [read_dump].
  assert (is_u32 (Z.of_nat (length data))) as Hc by (unfold is_u32; lia).
  pose proof (get32_at_word h _ (word_bytes len ++ data ++ rest) Hc) as E1. change (length h) with 8%nat in E1.
  rewrite E1. set (h2 := h ++ word_bytes (Z.of_nat (length data))). rewrite app_assoc. fold h2.
  pose proof (get32_at_word h2 _ (data ++ rest) Hl) as E2. change (length h2) with 12%nat in E2.
  cbn [mbind option_bind]. rewrite E2. set (h3 := h2 ++ word_bytes len). rewrite app_assoc. fold h3.
  pose proof (get_range_at h3 data rest) as E3. change (length h3) with 16%nat in E3.
  rewrite Nat2Z.id. cbn [mbind option_bind]. rewrite E3. cbn [mbind option_bind].
  rewrite (app_assoc h3). by rewrite drop_app_length' by by rewrite length_app.
Qed.

(** Packets that were logged are in the dump, cut to the size of a record, and so
    are the lengths it states: those of longer packets are lost. *)
Theorem log_read_back sr fp ps w : logfile sr = Some fp -> Forall (fun p => Z.of_nat (length p) < 2 ^ 31) ps ->
  exists w' out, log_all sr ps w = (inr tt, w') /\ file fp w' = file fp w ++ out /\
    forall rest, read_dump (length ps) (out ++ rest)
      = Some (map (fun p => (Z.min SR_PACKET_DUMP_SIZE (Z.of_nat (length p)),
                             take (Z.to_nat SR_PACKET_DUMP_SIZE) p)) ps).
Proof.
  intros Hlog Hps. revert w. induction Hps as [|p ps Hp _ IH]; intros w.
  { exists w, []. rewrite app_nil_r. done. }
  cbn [log_all length map]. set (data := take (Z.to_nat SR_PACKET_DUMP_SIZE) p).
  assert (Z.min SR_PACKET_DUMP_SIZE (Z.of_nat (length p)) = Z.of_nat (length data)) as Hd.
  { unfold data. rewrite length_take. unfold SR_PACKET_DUMP_SIZE. lia. }
  assert (Z.of_nat (length data) <= SR_PACKET_DUMP_SIZE) as Hmax by lia. unfold SR_PACKET_DUMP_SIZE in Hmax.
  destruct (time_law w) as (sec & usec & w1 & E1 & _ & _ & F1).
  set (hdr := pcap_sf_pkthdr_bytes (mk_pcap_sf_pkthdr sec usec (Z.of_nat (length data)) (Z.of_nat (length data)))).
  destruct (fwrite_law fp hdr w1) as (w2 & E2 & F2).
  destruct (fwrite_law fp data w2) as (w3 & E3 & F3).
  destruct (IH w3) as (w' & out & E & F & R).
  assert (sr_log_packet sr p (Z.of_nat (length p)) w = (inr tt, w3)) as El.
  { unfold sr_log_packet. rewrite Hlog, Hd. rewrite (host_bind_done _ _ _ _ _ E1). unfold sr_dump. cbn [ts caplen plen fst snd].
    assert ((if Z.of_nat (length data) <? SR_PACKET_DUMP_SIZE then Z.of_nat (length data) else SR_PACKET_DUMP_SIZE)
            = Z.of_nat (length data)) as ->.
    { unfold SR_PACKET_DUMP_SIZE. destruct (Z.ltb_spec (Z.of_nat (length data)) 1514); lia. }
    rewrite u32_id by (unfold is_u32; lia). fold hdr. rewrite (host_bind_done _ _ _ _ _ E2).
    assert (Z.of_nat (length p) <? Z.of_nat (length data) = false) as -> by (apply Z.ltb_ge; lia).
    rewrite Nat2Z.id. assert (take (length data) p = data) as ->; [|done].
    unfold data. rewrite length_take. destruct (Nat.le_ge_cases (Z.to_nat SR_PACKET_DUMP_SIZE) (length p)).
    - by rewrite Nat.min_l.
    - by rewrite Nat.min_r, !take_ge. }
  exists w', ((hdr ++ data) ++ out). rewrite (host_bind_done _ _ _ _ _ El). split_and!; [done| |].
  - rewrite F, F3, F2, F1. by rewrite <-!app_assoc.
  - intros rest. rewrite <-!app_assoc. unfold hdr.
    rewrite read_dump_record by (unfold is_u32; lia). by rewrite R, Hd.
Qed.
End Dump.

(** ** The router on a virtual host *)

Definition halt_of (c : crash) : halt :=
  match c with
  | NullDeref => HNull | AssertFailed => HAssert | OutOfBounds | UseAfterFree => HOverrun
  | OutOfFuel => HFuel
  end.

(** A function of the router, as the runtime calls it. *)
Definition of_router {A} (m : M A) : host world A := fun w =>
  match m w with Done a w' => (inr a, w') | Crashed c w' => (inl (halt_of c), w') end.

Section Router.
Context `{Strcmp} `{Streams world} `{Pcap}.
(** The fuel of the router's loops, and the lines of its routing table file. *)
Variables (ipfuel : nat) (lines : list string).

#[export] Instance router_subsystem : Subsystem world := {|
  integ_init _ := of_router (init false);; mret 1;
  integ_add_interface i := of_router (sr_integ_add_interface i);
  integ_hw_setup := of_router (sr_integ_hw_setup lines);
  integ_input p n i := of_router (sr_integ_input ipfuel p (Z.to_nat n) i);
  integ_destroy := mret tt
|}.

Lemma of_router_done {A} (m : M A) w a w' : of_router m w = (inr a, w') -> m w = Done a w'.
Proof. unfold of_router. destruct (m w); [|done]. by intros [= -> ->]. Qed.

(** The interfaces are added by the effects the boot sequence has. *)
Lemma add_interfaces_foreach ifs w w' :
  add_interfaces ifs w = (inr tt, w') -> foreach sr_integ_add_interface ifs w = Done tt w'.
Proof.
  revert w. induction ifs as [|i ifs IH]; intros w E; [by injection E as ->|].
  cbn [add_interfaces] in E. apply host_bind_inv in E as ([] & w1 & E1 & E2).
  apply of_router_done in E1. cbn [foreach]. unfold mbind, M_bind. rewrite E1. by apply IH.
Qed.

Lemma packets_reachable sr packets reason w sr' w' :
  logfile sr = None -> Forall (fun p => is_bytes p.2) packets -> reachable w ->
  session sr (map (fun p => MPacket p.1 p.2) packets ++ [MClose reason]) w = (inr sr', w') -> reachable w'.
Proof.
  intros Hlog. revert w. induction packets as [|[iface p] packets IH]; intros w Hp Hr; cbn [map app session]; intros E;
    apply host_bind_inv in E as (sr1 & w1 & E1 & E2); cbn [meaning] in E1.
  - apply host_bind_inv in E1 as ([] & w2 & E3 & E4). rewrite Hlog in E3.
    by injection E3 as <-; injection E4 as <- <-; injection E2 as <- <-.
  - apply Forall_cons in Hp as [Hb Hp].
    apply host_bind_inv in E1 as ([] & w2 & E3 & E4). unfold sr_log_packet in E3. rewrite Hlog in E3.
    injection E3 as <-. apply host_bind_inv in E4 as ([] & w3 & E4 & E5). injection E5 as <- <-.
    apply of_router_done in E4. eapply (IH w3); [done| |exact E2].
    by eapply (reach_step (Packet ipfuel p (Z.to_nat (Z.of_nat (length p))) iface)).
Qed.

Variables (addresses : string -> option Z) (errno_of : world * conn -> Z).
#[local] Existing Instance vns_sockets.
Context `{!Stack (world * conn)}.

(** C5: The router on a virtual host: after a session in which the server lists its
    interfaces and then sends packets, cut up in any way, the router is in a
    reachable state, so everything that holds of those holds of it. *)
Theorem session_reachable fuel ifs packets reason rest sr c w0 w sr' w' c' :
  env_ok (w_env w0) -> init false w0 = Done tt w -> logfile sr = None ->
  Forall vif_ok ifs -> Forall (fun p => is_bytes p.2) packets ->
  msg_ok (MHwInfo ifs) -> Forall (fun p => msg_ok (MPacket p.1 p.2)) packets -> msg_ok (MClose reason) ->
  c_in c = encode (MHwInfo ifs) ++ mjoin (map (fun p => encode (MPacket p.1 p.2)) packets) ++
           encode (MClose reason) ++ rest ->
  Z.of_nat (length (c_sched c)) + MAX_COMMAND < Z.of_nat fuel ->
  server_loop (H1 := vns_sockets addresses errno_of) fuel (S (S (length packets))) sr (w, c)
    = (inr (0, sr'), (w', c')) -> reachable w'.
Proof.
  intros He Hi Hlog Hv Hb Hm Hp Hr Hin Hf E.
  set (ms := MHwInfo ifs :: map (fun p => MPacket p.1 p.2) packets).
  destruct (session_in_order addresses errno_of fuel ms reason rest sr w c) as (c1 & E1).
  - constructor; [done|]. apply Forall_map. eapply Forall_impl; [exact Hp|]. done.
  - done.
  - rewrite Hin. unfold ms. cbn [map mjoin list_join]. by rewrite map_map, <-app_assoc.
  - done.
  - unfold ms in E1. cbn [length] in E1. rewrite length_map, E in E1. fold ms in E1.
    destruct (session sr (ms ++ [MClose reason]) w) as [[h|sr1] w1] eqn:Es; [done|].
    injection E1 as <- <- <-. unfold ms in Es. cbn [app session] in Es.
    apply host_bind_inv in Es as (sr2 & w2 & E2 & E3). cbn [meaning] in E2.
    apply host_bind_inv in E2 as ([] & w3 & E4 & E5). apply host_bind_inv in E5 as ([] & w4 & E5 & E6).
    injection E6 as <- <-. apply add_interfaces_foreach in E4. apply of_router_done in E5.
    eapply (packets_reachable (set_hw_init true sr)); [by destruct sr|exact Hb| |exact E3].
    eapply (reach_boot false ifs lines w0); [done|done|]. unfold boot, mbind, M_bind.
    by rewrite Hi, E4, E5.
Qed.
End Router.
