(* ===== verification/Startup.v ===== *)
(** The start of the router and its low level: the options and the start-up of
    sr_base.c, the interface file of sr_cpu_extension_nf2.c, and the raw sockets
    of the card in or_netfpga.c and or_main.c. The constant [_CPUMODE_] of the
    build, which chooses between the card and the virtual network server, is an
    argument. *)

From S2P Require Import Prelude Words Bytes State CStrings CNumbers Iface Main HostRegs RegProxy Vns.
From Stdlib Require Import Ascii.
From stdpp Require Import pretty.
Local Open Scope Z_scope.

Definition nul_char : ascii := ascii_of_nat 0.
Definition newline : ascii := ascii_of_nat 10.

(** The system: files and the names of the user and of the host; the start of
    the transport stack, and of the thread of the low level. *)
Class System (W : Type) := {
  read_file : string -> W -> option (list ascii);
  getpwuid : W -> option string;
  gethostname : W -> option string;
  transport_startup : host W unit;
  sys_thread_new : host W unit
}.

(** Raw packet sockets: [select] answers with the sockets that are ready. *)
Class RawSockets (W : Type) := {
  raw_socket : host W Z;
  raw_ifindex : Z -> string -> host W (option Z);      (* SIOCGIFINDEX *)
  raw_bind : Z -> Z -> host W bool;
  raw_select_read : list Z -> host W (option (list Z));
  raw_select_write : Z -> host W (option bool);
  raw_read : Z -> nat -> host W (option bytes);
  raw_write : Z -> bytes -> host W (option nat)
}.

(** ** The interface file: sr_cpu_extension_nf2.c *)

(** [fgets(line, n, fp)] on what is left of a file, and what is left after it. *)
Fixpoint fgets_loop (n : nat) (file : list ascii) : list ascii * list ascii :=
  match n, file with
  | S n, c :: file' =>
      if Ascii.eqb c newline then ([c], file')
      else let '(line, rest) := fgets_loop n file' in (c :: line, rest)
  | _, _ => ([], file)
  end.
Definition fgets (n : nat) (file : list ascii) : option (list ascii * list ascii) :=
  match file with [] => None | _ => Some (fgets_loop (n - 1) file) end.

(** The string at the start of a line. *)
Definition before_nul (l : list ascii) : list ascii := (span (fun c => negb (Ascii.eqb c nul_char)) l).1.

(** The first characters of a line that are no space, [n] at most. *)
Fixpoint take_field (n : nat) (line : list ascii) : list ascii * list ascii :=
  match n, line with
  | S n, c :: line' =>
      if is_space c then ([], line)
      else let '(field, rest) := take_field n line' in (c :: field, rest)
  | _, _ => ([], line)
  end.

Definition asci_to_nboip (ip : string) : Z := default 0 (inet_pton ip).

Section Hardware.
Context {W : Type} `{Subsystem W} `{System W} `{!Stack W}.
(** What the array [buf] holds before it is written. *)
Variable stack_buf : W -> list ascii.

(** The rest of the line, [None] without a field, and the array. *)
Definition copy_next_field (line buf : list ascii) : host W (option (list ascii) * list ascii) :=
  match skip_space line with
  | [] => mret (None, buf)
  | line =>
      let '(field, rest) := take_field SR_NAMELEN line in
      if (SR_NAMELEN <=? length field)%nat then halted HOverrun
      else mret (Some rest, field ++ nul_char :: drop (S (length field)) buf)
  end.

Definition buf_string (buf : list ascii) : host W string := cstr (map code buf).

(** To the character after the next colon, or after the end of the string. *)
Fixpoint past_colon (buf : list ascii) : host W (list ascii) :=
  match buf with
  | [] => halted HOverrun
  | c :: buf => if Ascii.eqb c nul_char || Ascii.eqb c ":" then mret buf else past_colon buf
  end.

(** The bytes from the [i]-th on; [tmpint] keeps its value where nothing is
    read. *)
Fixpoint ether_loop (n i : nat) (buf : list ascii) (tmpint : Z) : host W bytes :=
  match n with
  | O => mret []
  | S n =>
      buf ← (match i with O => mret buf | S _ => past_colon buf end);
      s ← buf_string buf;
      let tmpint := match scan_number 16 (chars s) with Some (v, _) => u32 v | None => tmpint end in
      mac ← ether_loop n (S i) buf tmpint;
      mret (Z.land tmpint 0xff :: mac)
  end.

Definition asci_to_ether (addr : list ascii) : host W bytes :=
  tmpint ← ask junk;
  ether_loop 6 0 addr tmpint.

(** A line: an interface and the array after it, or [None] for bad formatting. *)
Definition hw_line (line buf : list ascii) : host W (option (sr_vns_if * list ascii)) :=
  '(p, buf) ← copy_next_field line buf;
  match p with
  | None => mret None
  | Some p =>
      name ← buf_string buf;
      '(p, buf) ← copy_next_field p buf;
      match p with
      | None => mret None
      | Some p =>
          ip ← buf_string buf;
          '(p, buf) ← copy_next_field p buf;
          match p with
          | None => mret None
          | Some p =>
              mask ← buf_string buf;
              '(p, buf) ← copy_next_field p buf;
              match p with
              | None => mret None
              | Some _ =>
                  addr ← asci_to_ether buf;
                  mret (Some (mk_sr_vns_if (strncpy name SR_NAMELEN) addr (asci_to_nboip ip)
                                (asci_to_nboip mask) 0, buf))
              end
          end
      end
  end.

(** The loop over the lines, [fuel] of them at most. *)
Fixpoint hw_lines (fuel : nat) (file buf : list ascii) : host W Z :=
  match fuel with
  | O => halted HFuel
  | S fuel =>
      match fgets 1024 file with
      | None => mret 0
      | Some (line, file) =>
          if match line with c :: _ => Ascii.eqb c "#" | [] => false end then hw_lines fuel file buf
          else
            r ← hw_line (before_nul line) buf;
            match r with
            | None => mret 1
            | Some (vns_if, buf) => integ_add_interface vns_if;; hw_lines fuel file buf
            end
      end
  end.

(** As many rounds as the file has characters, and the one that finds its end. *)
Definition sr_cpu_init_hardware (hwfile : string) : host W Z :=
  fp ← ask (read_file hwfile);
  match fp with
  | None => mret (-1)
  | Some file => buf ← ask stack_buf; hw_lines (S (length file)) file buf
  end.
End Hardware.

(** ** The raw sockets of the card: or_main.c, or_netfpga.c *)

Definition internal_names : list string := ["eth0"; "eth1"; "eth2"; "eth3"].
Definition READ_BUF_SIZE : nat := 16384.

Section Raw.
Context {W : Type} `{Streams W} `{Subsystem W} `{RawSockets W}.

(** The loop of [init_rawsockets] over the four interfaces from [i] on. *)
Fixpoint open_rawsockets (n : nat) (base i : Z) : host W (list Z) :=
  match n with
  | O => mret []
  | S n =>
      s ← raw_socket;
      ifindex ← raw_ifindex s (strncpy ("nf2c" +:+ pretty (int32 (base + i))) 16);
      match ifindex with
      | None => halted (HExit 1)
      | Some ifindex =>
          ok ← raw_bind s ifindex;
          if ok : bool then rest ← open_rawsockets n base (i + 1); mret (s :: rest)
          else halted (HExit 1)
      end
  end.

Definition init_rawsockets (sr : sr_instance) : host W (list Z) :=
  open_rawsockets 4 (atoi (implode (drop 4 (chars (sr_interface sr))))) 0.

(** The packets of the sockets that are ready, in the order of the interfaces;
    the result is the buffer. A failed read is not told apart from a packet:
    its length is -1 and the buffer what it was. *)
Fixpoint input_sockets (sr : sr_instance) (ready : list Z) (ifs : list (Z * string)) (readBuf : bytes)
    : host W bytes :=
  match ifs with
  | [] => mret readBuf
  | (s, name) :: ifs =>
      if bool_decide (s ∈ ready) then
        r ← raw_read s READ_BUF_SIZE;
        let '(read_bytes, readBuf) :=
          match r with
          | Some b => (Z.of_nat (length b), b ++ drop (length b) readBuf)
          | None => (-1, readBuf)
          end in
        sr_log_packet sr readBuf read_bytes;;
        integ_input readBuf (u32 read_bytes) name;;
        input_sockets sr ready ifs readBuf
      else input_sockets sr ready ifs readBuf
  end.

(** The endless loop, [rounds] calls of [select] at most. *)
Fixpoint netfpga_input (rounds : nat) (sr : sr_instance) (raw_sockets : list Z) (readBuf : bytes)
    : host W unit :=
  match rounds with
  | O => halted HFuel
  | S rounds =>
      r ← raw_select_read raw_sockets;
      match r with
      | None => halted (HExit 1)
      | Some ready =>
          readBuf ← input_sockets sr ready (combine raw_sockets internal_names) readBuf;
          netfpga_input rounds sr raw_sockets readBuf
      end
  end.

(** The index of an interface, 4 when it is none of the card. *)
Fixpoint name_index (iface : string) (names : list string) : nat :=
  match names with
  | [] => 0
  | n :: names => if strcmp_eq iface n then 0 else S (name_index iface names)
  end.

(** [left] is what is left of the packet. *)
Fixpoint output_loop (fuel : nat) (raw_sockets : list Z) (i : nat) (left : bytes) : host W Z :=
  match left with
  | [] => mret 0
  | _ =>
      match fuel with
      | O => halted HFuel
      | S fuel =>
          match raw_sockets !! i with
          | None => halted HOverrun
          | Some s =>
              r ← raw_select_write s;
              match r with
              | None => halted (HExit 1)
              | Some false => output_loop fuel raw_sockets i left
              | Some true =>
                  w ← raw_write s left;
                  match w with
                  | None => halted (HExit 1)
                  | Some w => output_loop fuel raw_sockets i (drop w left)
                  end
              end
          end
      end
  end.

Definition netfpga_output (fuel : nat) (sr : sr_instance) (raw_sockets : list Z) (packet : bytes)
    (len : nat) (iface : string) : host W Z :=
  sr_log_packet sr packet (Z.of_nat len);;
  if (length packet <? len)%nat then halted HOverrun
  else output_loop fuel raw_sockets (name_index iface internal_names) (take len packet).
End Raw.

(** ** Start-up: sr_base.c *)

Definition CPU_HW_FILENAME : string := "cpuhw".

(** The variables of [sr_init_low_level_subystem]. *)
Record base_options := mk_base_options {
  o_host : string;
  o_rtable : string;
  o_server : string;
  o_cpuhw : string;
  o_port : Z;
  o_topo : Z;
  o_client : option string;
  o_logfile : option string;
  o_interface : string
}.

Definition default_options : base_options :=
  mk_base_options "vrhost" "rtable" "171.67.71.18" CPU_HW_FILENAME 12345 0 None None "nf2c0".

Definition base_option {W} (c : ascii) (optarg : string) (o : base_options) : host W base_options :=
  match c with
  | "h"%char => halted (HExit 0)
  | "p"%char => mret (mk_base_options (o_host o) (o_rtable o) (o_server o) (o_cpuhw o)
                        (u16 (atoi optarg)) (o_topo o) (o_client o) (o_logfile o) (o_interface o))
  | "t"%char => mret (mk_base_options (o_host o) (o_rtable o) (o_server o) (o_cpuhw o) (o_port o)
                        (u16 (atoi optarg)) (o_client o) (o_logfile o) (o_interface o))
  | "v"%char => mret (mk_base_options optarg (o_rtable o) (o_server o) (o_cpuhw o) (o_port o)
                        (o_topo o) (o_client o) (o_logfile o) (o_interface o))
  | "r"%char => mret (mk_base_options (o_host o) optarg (o_server o) (o_cpuhw o) (o_port o)
                        (o_topo o) (o_client o) (o_logfile o) (o_interface o))
  | "c"%char => mret (mk_base_options (o_host o) (o_rtable o) (o_server o) (o_cpuhw o) (o_port o)
                        (o_topo o) (Some optarg) (o_logfile o) (o_interface o))
  | "s"%char => mret (mk_base_options (o_host o) (o_rtable o) optarg (o_cpuhw o) (o_port o)
                        (o_topo o) (o_client o) (o_logfile o) (o_interface o))
  | "l"%char => mret (mk_base_options (o_host o) (o_rtable o) (o_server o) (o_cpuhw o) (o_port o)
                        (o_topo o) (o_client o) (Some optarg) (o_interface o))
  | "m"%char => mret (mk_base_options (o_host o) (o_rtable o) (o_server o) optarg (o_port o)
                        (o_topo o) (o_client o) (o_logfile o) (o_interface o))
  | "i"%char =>
      if strncmp_eq optarg "nf2c" 4 then
        mret (mk_base_options (o_host o) (o_rtable o) (o_server o) (o_cpuhw o) (o_port o)
                (o_topo o) (o_client o) (o_logfile o) optarg)
      else halted (HExit 1)
  | _ => mret o
  end.

Fixpoint base_options_of {W} (opts : list (ascii * string)) (o : base_options) : host W base_options :=
  match opts with
  | [] => mret o
  | (c, optarg) :: opts => o ← base_option c optarg o; base_options_of opts o
  end.

Section Base.
Context {W : Type} `{Streams W} `{Pcap} `{Sockets W} `{Netdb W} `{Subsystem W} `{System W}.
Context `{RawSockets W} `{!Stack W}.
(** The build; the system calls for a message and the rounds of the loops; what
    the array of [sr_cpu_init_hardware] holds before it is written. *)
Variables (cpumode : bool) (fuel rounds : nat) (stack_buf : W -> list ascii).

Definition sr_set_subsystem (core : Z) (s : sr_instance) : sr_instance :=
  mk_sr_instance (sockfd s) (user s) (vhost s) (lhost s) (sr_rtable s) (topo_id s) (sr_addr s)
    (logfile s) (hw_init s) (sr_interface s) (Some core).

Definition sr_init_instance (s : sr_instance) : host W sr_instance :=
  let s := mk_sr_instance (-1) "" "" (lhost s) (sr_rtable s) 0 (sr_addr s) None false
             (sr_interface s) None in
  core ← integ_init (sr_interface s);
  mret (sr_set_subsystem core s).

(** The names of an instance. *)
Definition set_names (user vhost lhost sr_rtable : string) (topo_id : Z) (s : sr_instance) : sr_instance :=
  mk_sr_instance (sockfd s) user vhost lhost sr_rtable topo_id (sr_addr s) (logfile s) (hw_init s)
    (sr_interface s) (interface_subsystem s).

Definition set_interface (interface : string) (s : sr_instance) : sr_instance :=
  mk_sr_instance (sockfd s) (user s) (vhost s) (lhost s) (sr_rtable s) (topo_id s) (sr_addr s)
    (logfile s) (hw_init s) (strncpy interface 31) (interface_subsystem s).

(** The name of the user. *)
Definition sr_set_user (s : sr_instance) : host W sr_instance :=
  pw ← ask getpwuid;
  let name := match pw with Some pw_name => pw_name | None => "something_silly"%string end in
  mret (set_names (strncpy name SR_NAMELEN) (vhost s) (lhost s) (sr_rtable s) (topo_id s) s).

(** Messages are read until the hardware is there: [None] when a read fails. *)
Fixpoint wait_hardware (rounds : nat) (s : sr_instance) : host W (option sr_instance) :=
  if hw_init s then mret (Some s)
  else
    match rounds with
    | O => halted HFuel
    | S rounds =>
        r ← sr_vns_read_from_server fuel s;
        if r.1 =? -1 then integ_destroy;; mret None else wait_hardware rounds r.2
    end.

(** What the call returns, and the instance; [existing] is the one of an earlier
    call, [raw] the memory of the new one. *)
Definition sr_init_low_level_subystem (existing : option sr_instance) (raw : sr_instance)
    (opts : list (ascii * string)) : host W (option Z * sr_instance) :=
  match existing with
  | Some s => mret (None, s)
  | None =>
      o ← base_options_of opts default_options;
      s ← sr_init_instance (set_interface (o_interface o) raw);
      let rtable := strncpy (o_rtable o) SR_NAMELEN in
      s ← (if cpumode then
             let s := set_names (user s) "cpu" (lhost s) rtable 0 s in
             r ← sr_cpu_init_hardware stack_buf (o_cpuhw o);
             if negb (r =? 0) then halted (HExit 1) else integ_hw_setup;; mret s
           else mret (set_names (user s) (strncpy (o_host o) SR_NAMELEN) (lhost s) rtable (o_topo o) s));
      s ← (match o_client o with
           | None => sr_set_user s
           | Some client =>
               mret (set_names (strncpy client SR_NAMELEN) (vhost s) (lhost s) (sr_rtable s) (topo_id s) s)
           end);
      h ← ask gethostname;
      match h with
      | None => mret (None, s)
      | Some h =>
          let s := set_names (user s) (vhost s) (strncpy h SR_NAMELEN) (sr_rtable s) (topo_id s) s in
          s ← sr_vns_init_log s (o_logfile o);
          transport_startup;;
          if cpumode then sys_thread_new;; mret (interface_subsystem s, s)
          else
            r ← sr_vns_connect_to_server s (o_port o) (o_server o);
            if r.1 =? -1 then mret (None, r.2)
            else
              ready ← wait_hardware rounds r.2;
              match ready with
              | None => mret (None, r.2)
              | Some s => sys_thread_new;; mret (interface_subsystem s, s)
              end
      end
  end.

(** [sr_cpu_input] does not return: neither does [netfpga_input]. *)
Definition sr_cpu_input (sr : sr_instance) (raw_sockets : list Z) (readBuf : bytes) : host W Z :=
  netfpga_input rounds sr raw_sockets readBuf;; mret 1.

(** [while (sr_cpu_input(sr) == 1)], and the loop of the virtual network. *)
Fixpoint cpu_loop (n : nat) (sr : sr_instance) (raw_sockets : list Z) (readBuf : bytes) : host W Z :=
  match n with
  | O => halted HFuel
  | S n =>
      r ← sr_cpu_input sr raw_sockets readBuf;
      if r =? 1 then cpu_loop n sr raw_sockets readBuf else mret r
  end.

Definition sr_low_level_network_subsystem (sr : sr_instance) (raw_sockets : list Z) (readBuf : bytes)
    : host W unit :=
  (if cpumode then _ ← cpu_loop rounds sr raw_sockets readBuf; mret tt
   else _ ← server_loop fuel rounds sr; mret tt);;
  integ_destroy.
End Base.

(** [sr_integ_low_level_output]: out of the card, or to the server. *)
Definition sr_integ_low_level_output {W} `{Streams W} `{Sockets W} `{RawSockets W}
    (cpumode : bool) (fuel : nat) (sr : sr_instance) (raw_sockets : list Z) (buf : bytes) (len : nat)
    (iface : string) : host W Z :=
  if cpumode then netfpga_output fuel sr raw_sockets buf len iface
  else sr_vns_send_packet sr buf (Z.of_nat len) iface.
