(* ===== verification/StartupTheorems.v ===== *)
(** The start of the router: the interface file is read as it was written, one
    interface a line; a field that fills its array, a line without a field and a
    failed read of the card show the limits of the code. *)

From S2P Require Import Prelude Words Bytes State CStrings CNumbers Iface Sprint SprintTheorems Main.
From S2P Require Import HostRegs RegProxy ProxyTheorems Vns VnsTheorems Startup.
From Stdlib Require Import Ascii.
From stdpp Require Import pretty.
Local Open Scope Z_scope.

(** ** Fields *)

Lemma take_field_word n s sp rest : forallb no_space s = true -> is_space sp = true -> (length s < n)%nat ->
  take_field n (s ++ sp :: rest) = (s, sp :: rest).
Proof.
  revert n. induction s as [|c s IH]; intros [|n] Hs Hsp Hl; simpl in Hl; try lia.
  - simpl. by rewrite Hsp.
  - cbn [forallb] in Hs. apply andb_true_iff in Hs as [Hc Hs]. unfold no_space in Hc.
    apply negb_true_iff in Hc. cbn [app take_field]. rewrite Hc. by rewrite IH by (done || lia).
Qed.

Lemma skip_one_space sp c s : is_space sp = true -> no_space c = true ->
  skip_space (sp :: c :: s) = c :: s.
Proof.
  intros Hsp Hc. unfold no_space in Hc. apply negb_true_iff in Hc.
  unfold skip_space. cbn [span]. rewrite Hsp, Hc. done.
Qed.

Lemma skip_no_space c s : no_space c = true -> skip_space (c :: s) = c :: s.
Proof. intros Hc. unfold no_space in Hc. apply negb_true_iff in Hc. unfold skip_space. cbn [span]. by rewrite Hc. Qed.

Section Fields.
Context {W : Type}.

(** What a field leaves in the array. *)
Definition filled (s buf : list ascii) : list ascii := s ++ nul_char :: drop (S (length s)) buf.

Lemma copy_word c s sp rest buf (gap : bool) :
  forallb no_space (c :: s) = true -> is_space sp = true -> (length (c :: s) < SR_NAMELEN)%nat ->
  copy_next_field (W := W) ((if gap then [" "%char] else []) ++ (c :: s) ++ sp :: rest) buf
  = mret (Some (sp :: rest), filled (c :: s) buf).
Proof.
  intros Hs Hsp Hl. pose proof Hs as Hs'. cbn [forallb] in Hs'. apply andb_true_iff in Hs' as [Hc _].
  unfold copy_next_field.
  assert (skip_space ((if gap then [" "%char] else []) ++ (c :: s) ++ sp :: rest) = (c :: s) ++ sp :: rest) as ->.
  { destruct gap; cbn [app]; [by rewrite skip_one_space|by rewrite skip_no_space]. }
  cbn [app]. change (c :: s ++ sp :: rest) with ((c :: s) ++ sp :: rest).
  rewrite take_field_word by done.
  assert (SR_NAMELEN <=? length (c :: s) = false)%nat as -> by (by apply Nat.leb_gt). done.
Qed.

(** A field of the size of the array overruns it by its null character. *)
Lemma copy_long_field s rest buf : length s = SR_NAMELEN -> forallb no_space s = true ->
  copy_next_field (W := W) (s ++ rest) buf = halted HOverrun.
Proof.
  intros Hl Hs. destruct s as [|c s]; [done|]. pose proof Hs as Hs'. cbn [forallb] in Hs'.
  apply andb_true_iff in Hs' as [Hc _]. unfold copy_next_field. cbn [app]. rewrite skip_no_space by done.
  change (c :: s ++ rest) with ((c :: s) ++ rest).
  assert (forall n t, length t = n -> forallb no_space t = true -> take_field n (t ++ rest) = (t, rest)) as Ht.
  { induction n as [|n IH]; intros [|x t] Ht Hn; try done. cbn [forallb] in Hn. apply andb_true_iff in Hn as [Hx Hn].
    unfold no_space in Hx. apply negb_true_iff in Hx. cbn [app take_field]. rewrite Hx. injection Ht as Ht. by rewrite IH. }
  rewrite Ht by done. by rewrite Hl.
Qed.

Lemma buf_string_filled s buf : no_null s -> buf_string (W := W) (filled (chars s) buf) = mret s.
Proof.
  intros Hs. unfold buf_string, filled, cstr. rewrite map_app. cbn [map].
  change (map code (chars s)) with (string_bytes s). change (code nul_char) with 0.
  by rewrite cstring_bytes.
Qed.

(** ** Hardware addresses *)

Fixpoint ether_text (addr : bytes) : list ascii :=
  match addr with
  | [] => []
  | [a] => hex2 a
  | a :: addr => hex2 a ++ ":"%char :: ether_text addr
  end.

(** What is known of the two digits of a byte, by cases. *)
Definition hex2_ok (x : Z) : bool :=
  forallb (fun c => negb (Ascii.eqb c nul_char) && negb (Ascii.eqb c ":") && no_space c && negb (Ascii.eqb c newline)) (hex2 x) &&
  bool_decide (scan_number 16 (hex2 x) = Some (x, [])).

Lemma all_hex2_ok : forallb (fun n => hex2_ok (Z.of_nat n)) (seq 0 256) = true.
Proof. vm_compute. reflexivity. Qed.

Lemma hex2_facts x : is_u8 x -> hex2_ok x = true.
Proof.
  intros Hx. pose proof all_hex2_ok as H. rewrite forallb_forall in H. specialize (H (Z.to_nat x)).
  rewrite Z2Nat.id in H by (unfold is_u8 in Hx; lia). apply H, in_seq. unfold is_u8 in Hx.
  change (2 ^ 8) with 256 in Hx. lia.
Qed.

Lemma scan_hex2_colon x rest : is_u8 x ->
  scan_number 16 (hex2 x ++ ":"%char :: rest) = Some (x, ":"%char :: rest).
Proof.
  intros Hx.
  assert (forall hi lo, (hi < 16)%nat -> (lo < 16)%nat ->
    scan_number 16 ([hex_char (Z.of_nat hi); hex_char (Z.of_nat lo)] ++ ":"%char :: rest)
    = Some (16 * Z.of_nat hi + Z.of_nat lo, ":"%char :: rest)) as Hd.
  { intros hi lo Hhi Hlo.
    do 16 (destruct hi as [|hi]; [do 16 (destruct lo as [|lo]; [reflexivity|]); lia|]). lia. }
  unfold hex2. specialize (Hd (Z.to_nat (x / 16)) (Z.to_nat (x mod 16))). unfold is_u8 in Hx.
  assert (0 <= x / 16 < 16 /\ 0 <= x mod 16 < 16 /\ x = 16 * (x / 16) + x mod 16)
    as (H1 & H2 & H3) by (Z.div_mod_to_equations; lia).
  rewrite !Z2Nat.id in Hd by lia. rewrite Hd by lia. by rewrite <-H3.
Qed.

(** The characters of an address are neither spaces nor null. *)
Definition ether_char (c : ascii) : bool := negb (Ascii.eqb c nul_char) && no_space c && negb (Ascii.eqb c newline).

Lemma hex2_chars x : is_u8 x ->
  forallb ether_char (hex2 x) = true /\ scan_number 16 (hex2 x) = Some (x, []).
Proof.
  intros Hx. pose proof (hex2_facts x Hx) as H. unfold hex2_ok in H.
  apply andb_true_iff in H as [Hc Hs]. apply bool_decide_eq_true in Hs. split; [|done].
  unfold hex2 in *. cbn [forallb] in *. unfold ether_char.
  repeat match goal with H : _ && _ = true |- _ => apply andb_true_iff in H as [? ?] end.
  by repeat (apply andb_true_iff; split).
Qed.

Lemma past_hex2 x rest : is_u8 x -> past_colon (W := W) (hex2 x ++ ":"%char :: rest) = mret rest.
Proof.
  intros Hx. pose proof (hex2_facts x Hx) as H. unfold hex2_ok in H.
  apply andb_true_iff in H as [Hc _]. unfold hex2 in *. cbn [forallb] in Hc. cbn [app past_colon].
  repeat match goal with H : _ && _ = true |- _ => apply andb_true_iff in H as [? ?] end.
  repeat match goal with H : negb _ = true |- _ => apply negb_true_iff in H; try rewrite H end. done.
Qed.

Lemma ether_text_cons a b l : ether_text (a :: b :: l) = hex2 a ++ ":"%char :: ether_text (b :: l).
Proof. done. Qed.

Lemma ether_text_chars l : Forall is_u8 l -> forallb ether_char (ether_text l) = true.
Proof.
  induction 1 as [|a l Ha Hl IH]; [done|]. destruct (hex2_chars a Ha) as (Hc & _).
  destruct l as [|b l]; [done|]. rewrite ether_text_cons, forallb_app, Hc. cbn [forallb]. by rewrite IH.
Qed.

Lemma ether_no_null l : Forall is_u8 l -> no_null (implode (ether_text l)).
Proof.
  intros Hl. apply ether_text_chars in Hl. unfold no_null. rewrite chars_implode.
  apply Forall_forall. intros c Hc. apply list_elem_of_In in Hc. rewrite forallb_forall in Hl.
  specialize (Hl c Hc). unfold ether_char in Hl. intros ->. discriminate Hl.
Qed.

Lemma scan_ether a l : Forall is_u8 (a :: l) -> exists rest, scan_number 16 (ether_text (a :: l)) = Some (a, rest).
Proof.
  intros [Ha Hl]%Forall_cons. destruct l as [|b l].
  - exists []. by apply (hex2_chars a).
  - eexists. rewrite ether_text_cons. by apply scan_hex2_colon.
Qed.

Lemma byte_of_word a : is_u8 a -> Z.land (u32 a) 0xff = a.
Proof.
  intros Ha. unfold is_u8 in Ha. rewrite u32_id by (unfold is_u32; lia).
  change 0xff with (Z.ones 8). rewrite Z.land_ones by lia. by apply Z.mod_small.
Qed.

Lemma buf_string_text l t : Forall is_u8 l ->
  buf_string (W := W) (ether_text l ++ nul_char :: t) = mret (implode (ether_text l)).
Proof.
  intros Hl. unfold buf_string, cstr. rewrite map_app. cbn [map]. change (code nul_char) with 0.
  rewrite <-(chars_implode (ether_text l)) at 1.
  change (map code (chars ?s)) with (string_bytes s). by rewrite cstring_bytes by by apply ether_no_null.
Qed.

Lemma ether_loop_text l a i t tmp w : Forall is_u8 (a :: l) ->
  ether_loop (W := W) (length l) (S i) (ether_text (a :: l) ++ nul_char :: t) tmp w = (inr l, w).
Proof.
  revert a i tmp. induction l as [|b l IH]; intros a i tmp Hl; [done|]. cbn [length ether_loop].
  pose proof Hl as [Ha Hbl]%Forall_cons. 
  rewrite ether_text_cons, <-app_assoc. cbn [app]. rewrite past_hex2 by done. erewrite host_bind_done by reflexivity.
  rewrite buf_string_text by done. erewrite host_bind_done by reflexivity. rewrite chars_implode.
  destruct (scan_ether b l Hbl) as [rest ->]. cbv zeta.
  rewrite (host_bind_done _ _ _ _ _ (IH b (S i) (u32 b) Hbl)).
  apply Forall_cons in Hbl as [Hb _]. by rewrite byte_of_word.
Qed.

Lemma asci_to_ether_text `{!Stack W} a l t w : Forall is_u8 (a :: l) -> length (a :: l) = 6%nat ->
  asci_to_ether (W := W) (ether_text (a :: l) ++ nul_char :: t) w = (inr (a :: l), w).
Proof.
  intros Hl H6. unfold asci_to_ether. erewrite host_bind_done by reflexivity. rewrite <-H6.
  cbn [length ether_loop]. erewrite host_bind_done by reflexivity.
  rewrite buf_string_text by done. erewrite host_bind_done by reflexivity. rewrite chars_implode.
  destruct (scan_ether a l Hl) as [rest ->]. cbv zeta.
  rewrite (host_bind_done _ _ _ _ _ (ether_loop_text l a 0 t _ w Hl)).
  apply Forall_cons in Hl as [Ha _]. by rewrite byte_of_word.
Qed.
End Fields.

(** ** The interface file *)

Definition hw_text (i : sr_vns_if) : list ascii :=
  chars (vif_name i) ++ " "%char :: chars (inet_ntop (vif_ip i)) ++ " "%char ::
  chars (inet_ntop (vif_mask i)) ++ " "%char :: ether_text (vif_addr i).

(** A line of the file: a comment or an interface. *)
Inductive hw_item := Comment (s : list ascii) | Interface (i : sr_vns_if).

Definition item_text (it : hw_item) : list ascii :=
  (match it with Comment s => "#"%char :: s | Interface i => hw_text i end) ++ [newline].

Definition interfaces (its : list hw_item) : list sr_vns_if :=
  its ≫= fun it => match it with Comment _ => [] | Interface i => [i] end.

Definition no_newline (l : list ascii) : bool := forallb (fun c => negb (Ascii.eqb c newline)) l.

Record hw_if_ok (i : sr_vns_if) : Prop := {
  hi_name : is_word (vif_name i);
  hi_null : no_null (vif_name i);
  hi_length : (String.length (vif_name i) < SR_NAMELEN)%nat;
  hi_comment : head (chars (vif_name i)) <> Some "#"%char;
  hi_ip : is_u32 (vif_ip i);
  hi_mask : is_u32 (vif_mask i);
  hi_addr : Forall is_u8 (vif_addr i);
  hi_six : length (vif_addr i) = 6%nat;
  hi_speed : vif_speed i = 0
}.

Definition item_ok (it : hw_item) : Prop :=
  match it with
  | Comment s => no_newline s = true /\ (length s < 1022)%nat
  | Interface i => hw_if_ok i
  end.

Lemma ether_text_length l : (length (ether_text l) <= 3 * length l)%nat.
Proof.
  induction l as [|a l IH]; [done|]. destruct l as [|b l]; [simpl; lia|].
  rewrite ether_text_cons, length_app. cbn [length hex2] in *. lia.
Qed.

Lemma ntop_no_null ip : is_u32 ip -> no_null (inet_ntop ip).
Proof.
  intros H. destruct (ip_octets ip H) as (Ha & Hb & Hc & Hd & _).
  assert (forall z, is_u8 z -> Forall (fun c => c <> chr 0) (chars (pretty z))) as Hp.
  { intros z Hz. destruct (octet_pretty z Hz) as (_ & D & _). apply Forall_forall. intros c Hc'.
    apply list_elem_of_In in Hc'. rewrite forallb_forall in D. specialize (D c Hc'). intros ->. discriminate D. }
  unfold no_null, inet_ntop. rewrite !chars_app, !Forall_app. change (chars ".") with ["."%char].
  repeat split; try (by apply Hp); by apply Forall_singleton.
Qed.

(** A word is free of the characters that end a line or a string. *)
Lemma word_no_newline l : forallb no_space l = true -> no_newline l = true.
Proof.
  unfold no_newline. rewrite !forallb_forall. intros H c Hc. specialize (H c Hc).
  destruct (Ascii.eqb_spec c newline) as [->|]; [discriminate H|done].
Qed.

Lemma ether_chars_no_space l : forallb ether_char l = true -> forallb no_space l = true.
Proof.
  rewrite !forallb_forall. intros H c Hc. specialize (H c Hc). unfold ether_char in H.
  apply andb_true_iff in H as [H _]. by apply andb_true_iff in H as [_ H].
Qed.

Section File.
Context {W : Type} `{Subsystem W} `{System W} `{!Stack W}.
Variable stack_buf : W -> list ascii.

Lemma copy_string s sp rest buf (gap : bool) (w : W) :
  is_word s -> no_null s -> is_space sp = true -> (String.length s < SR_NAMELEN)%nat ->
  copy_next_field ((if gap then [" "%char] else []) ++ chars s ++ sp :: rest) buf w
    = (inr (Some (sp :: rest), filled (chars s) buf), w) /\
  buf_string (filled (chars s) buf) w = (inr s, w).
Proof.
  intros [Hn Hw] Hnull Hsp Hl. split.
  - rewrite <-length_chars in Hl. destruct s as [|c s]; [done|]. cbn [chars] in *.
    by rewrite (copy_word c (chars s) sp rest buf gap).
  - by rewrite buf_string_filled.
Qed.

(** A line is the interface it was written from. *)
Lemma hw_line_text i buf w : hw_if_ok i ->
  exists buf', hw_line (hw_text i ++ [newline]) buf w = (inr (Some (i, buf')), w).
Proof.
  intros []. unfold hw_text. rewrite <-app_assoc. cbn [app]. rewrite <-app_assoc. cbn [app]. rewrite <-app_assoc. cbn [app].
  pose proof (inet_ntop_length _ hi_ip0). pose proof (inet_ntop_length _ hi_mask0).
  unfold hw_line.
  match goal with |- context [copy_next_field (chars _ ++ _ :: ?r)] =>
    destruct (copy_string (vif_name i) " " r buf false w) as [E1 E1']; [done..|] end.
  cbn [app] in E1. rewrite (host_bind_done _ _ _ _ _ E1), (host_bind_done _ _ _ _ _ E1').
  set (buf1 := filled _ buf).
  match goal with |- context [copy_next_field (" "%char :: chars _ ++ _ :: ?r)] =>
    destruct (copy_string (inet_ntop (vif_ip i)) " " r buf1 true w) as [E2 E2'];
    [by apply inet_ntop_word|by apply ntop_no_null|done|unfold SR_NAMELEN; lia|] end.
  cbn [app] in E2. rewrite (host_bind_done _ _ _ _ _ E2), (host_bind_done _ _ _ _ _ E2').
  set (buf2 := filled _ buf1).
  match goal with |- context [copy_next_field (" "%char :: chars _ ++ _ :: ?r)] =>
    destruct (copy_string (inet_ntop (vif_mask i)) " " r buf2 true w) as [E3 E3'];
    [by apply inet_ntop_word|by apply ntop_no_null|done|unfold SR_NAMELEN; lia|] end.
  cbn [app] in E3. rewrite (host_bind_done _ _ _ _ _ E3), (host_bind_done _ _ _ _ _ E3').
  set (buf3 := filled _ buf2).
  pose proof (ether_text_length (vif_addr i)) as Hel.
  destruct (vif_addr i) as [|a l] eqn:Ea; [done|].
  assert (exists c t, ether_text (a :: l) = c :: t) as (c & t & Et)
    by (destruct l; by eexists _, _).
  pose proof (copy_word (W := W) c t newline [] buf3 true) as E4. rewrite <-Et in E4. cbn [app] in E4.
  rewrite E4; [|by apply ether_chars_no_space, ether_text_chars|done|unfold SR_NAMELEN; lia].
  erewrite host_bind_done by reflexivity. unfold filled at 1.
  rewrite (host_bind_done _ _ _ _ _ (asci_to_ether_text a l _ w hi_addr0 hi_six0)).
  unfold asci_to_nboip. rewrite !inet_pton_ntop by done. eexists.
  assert (strncpy (vif_name i) SR_NAMELEN = vif_name i) as -> by (apply str_take_all; lia).
  rewrite <-hi_speed0, <-Ea. by destruct i.
Qed.

Lemma fgets_line n s rest : no_newline s = true -> (length s + 1 < n)%nat ->
  fgets n ((s ++ [newline]) ++ rest) = Some (s ++ [newline], rest).
Proof.
  intros Hs Hn. unfold fgets.
  assert (fgets_loop (n - 1) ((s ++ [newline]) ++ rest) = (s ++ [newline], rest)) as ->; [|by destruct s].
  assert (length s < n - 1)%nat as Hl by lia. clear Hn. revert Hl. generalize (n - 1)%nat as k.
  induction s as [|c s IH]; intros [|k] Hl; simpl in Hl; try lia; cbn [app fgets_loop].
  - done.
  - cbn [no_newline forallb] in Hs. apply andb_true_iff in Hs as [Hc Hs]. apply negb_true_iff in Hc.
    rewrite Hc. by rewrite IH by (done || lia).
Qed.

Lemma before_nul_all l : Forall (fun c => c <> chr 0) l -> before_nul l = l.
Proof.
  unfold before_nul. induction 1 as [|c l Hc _ IH]; [done|]. cbn [span].
  destruct (Ascii.eqb_spec c nul_char) as [->|]; [by destruct Hc|]. cbn [negb].
  destruct (span _ l) as [x y]. simpl in *. by subst.
Qed.

Lemma hw_text_line i : hw_if_ok i ->
  no_newline (hw_text i) = true /\ (length (hw_text i) < 1022)%nat /\
  Forall (fun c => c <> chr 0) (hw_text i ++ [newline]) /\
  head (hw_text i) <> Some "#"%char /\ hw_text i <> [].
Proof.
  intros []. pose proof (inet_ntop_length _ hi_ip0). pose proof (inet_ntop_length _ hi_mask0).
  pose proof (ether_text_length (vif_addr i)) as Hel. unfold SR_NAMELEN in *.
  assert (is_word (inet_ntop (vif_ip i)) /\ is_word (inet_ntop (vif_mask i))) as [[_ Hi] [_ Hk]]
    by (split; by apply inet_ntop_word).
  destruct hi_name0 as [Hne Hw]. unfold hw_text. split_and!.
  - unfold no_newline. rewrite forallb_app. cbn [forallb]. rewrite forallb_app. cbn [forallb].
    rewrite forallb_app. cbn [forallb]. rewrite !andb_true_iff.
    split_and!; try done; try by apply word_no_newline.
    by apply word_no_newline, ether_chars_no_space, ether_text_chars.
  - rewrite length_app. cbn [length]. rewrite length_app. cbn [length]. rewrite length_app. cbn [length].
    rewrite !length_chars. lia.
  - rewrite !Forall_app, Forall_cons, !Forall_app, Forall_cons, !Forall_app, Forall_cons.
    pose proof (ntop_no_null _ hi_ip0). pose proof (ntop_no_null _ hi_mask0).
    pose proof (ether_no_null _ hi_addr0) as He. unfold no_null in He. rewrite chars_implode in He.
    split_and!; try done. by apply Forall_singleton.
  - by destruct (vif_name i).
  - by destruct (vif_name i).
Qed.

(** The loop over the lines. *)
Lemma hw_lines_text its fuel buf w : Forall item_ok its -> (length its < fuel)%nat ->
  hw_lines fuel (mjoin (map item_text its)) buf w = (add_interfaces (interfaces its);; mret 0) w.
Proof.
  intros Hits. revert fuel buf w. induction Hits as [|it its Hit Hits IH]; intros [|fuel] buf w Hf;
    simpl in Hf; try lia; [reflexivity|]. cbn [map mjoin list_join hw_lines].
  destruct it as [s|i]; unfold item_text at 1.
  - destruct Hit as [Hs Hl]. rewrite fgets_line; [|by cbn|cbn [length]; lia].
    cbn [app]. change (Ascii.eqb "#" "#") with true. cbv iota. rewrite IH by lia. done.
  - destruct (hw_text_line i Hit) as (Hs & Hl & Hnull & Hh & Hne). rewrite fgets_line; [|done|lia].
    assert (match hw_text i ++ [newline] with c :: _ => Ascii.eqb c "#" | [] => false end = false) as ->.
    { destruct (hw_text i) as [|c t]; [done|]. cbn [app]. apply Ascii.eqb_neq. intros ->. by apply Hh. }
    rewrite before_nul_all by done. destruct (hw_line_text i buf w Hit) as [buf' E].
    rewrite (host_bind_done _ _ _ _ _ E).
    change (interfaces (Interface i :: its)) with (i :: interfaces its). cbn [add_interfaces].
    rewrite same_assoc. apply same_bind; [reflexivity|]. intros [] w'. apply IH. lia.
Qed.

Lemma items_length its : (length its <= length (mjoin (map item_text its)))%nat.
Proof.
  induction its as [|it its IH]; [done|].
  assert (1 <= length (item_text it))%nat by (unfold item_text; rewrite length_app; simpl; lia).
  change (mjoin (map item_text (it :: its))) with (item_text it ++ mjoin (map item_text its)).
  rewrite length_app. cbn [length]. lia.
Qed.

(** C27: The file of the interfaces is read as it was written: the router gets
    exactly the interfaces of its lines, in their order, and comments are
    skipped. *)
Theorem sr_cpu_init_hardware_correct hwfile its w :
  Forall item_ok its -> read_file hwfile w = Some (mjoin (map item_text its)) ->
  sr_cpu_init_hardware stack_buf hwfile w = (add_interfaces (interfaces its);; mret 0) w.
Proof.
  intros Hits Hf. unfold sr_cpu_init_hardware. erewrite host_bind_done by reflexivity. rewrite Hf.
  erewrite host_bind_done by reflexivity. apply hw_lines_text; [done|].
  pose proof (items_length its). lia.
Qed.
End File.

(** ** The raw sockets *)

Section Raw.
Context {W : Type} `{Streams W} `{Subsystem W} `{RawSockets W}.

(** A read that fails is handed to the router as a packet of 2^32 - 1 bytes, in
    the buffer the packet before it left. *)
Lemma failed_read_is_input sr s name ifs ready readBuf w w1 :
  logfile sr = None -> s ∈ ready -> raw_read s READ_BUF_SIZE w = (inr None, w1) ->
  input_sockets sr ready ((s, name) :: ifs) readBuf w
  = (integ_input readBuf (2 ^ 32 - 1) name;; input_sockets sr ready ifs readBuf) w1.
Proof.
  intros Hl Hs E. cbn [input_sockets]. rewrite bool_decide_eq_true_2 by done.
  rewrite (host_bind_done _ _ _ _ _ E). unfold sr_log_packet. rewrite Hl. done.
Qed.

(** A packet for an interface that is none of the card reads a socket past the
    end of their array. *)
Lemma unknown_interface_overruns fuel sr raw_sockets packet len iface w :
  logfile sr = None -> length raw_sockets = 4%nat -> iface ∉ internal_names ->
  (0 < len <= length packet)%nat ->
  netfpga_output (S fuel) sr raw_sockets packet len iface w = (inl HOverrun, w).
Proof.
  intros Hl Hr Hi Hn. unfold netfpga_output, sr_log_packet. rewrite Hl. erewrite host_bind_done by reflexivity.
  assert (length packet <? len = false)%nat as -> by (apply Nat.ltb_ge; lia).
  assert (name_index iface internal_names = 4%nat) as ->.
  { assert (forall n, n ∈ internal_names -> strcmp_eq iface n = false) as Hne
      by (intros n Hin; apply String.eqb_neq; by intros ->).
    unfold internal_names in *. cbn [name_index]. rewrite !Hne by set_solver. done. }
  destruct packet as [|x packet]; [simpl in Hn; lia|]. destruct len as [|len]; [lia|]. cbn [take output_loop].
  rewrite lookup_ge_None_2 by lia. done.
Qed.

(** The bytes a socket has sent; a packet whose writes take some of its bytes is
    sent whole, in order. *)
Variable sent : Z -> W -> bytes.
Hypothesis select_law : forall s w, exists w', raw_select_write s w = (inr (Some true), w') /\ sent s w' = sent s w.
Hypothesis write_law : forall s b w, b <> [] -> exists k w', (0 < k <= length b)%nat /\
  raw_write s b w = (inr (Some k), w') /\ sent s w' = sent s w ++ take k b.

Lemma output_loop_sends fuel raw_sockets i s left w :
  raw_sockets !! i = Some s -> (length left < fuel)%nat ->
  exists w', output_loop fuel raw_sockets i left w = (inr 0, w') /\ sent s w' = sent s w ++ left.
Proof.
  intros Hs. revert left w. induction fuel as [|fuel IH]; intros left w Hf; [lia|].
  destruct left as [|x left]; [exists w; by rewrite app_nil_r|]. cbn [output_loop]. set (l := x :: left) in *.
  rewrite Hs. destruct (select_law s w) as (w1 & E1 & S1). rewrite (host_bind_done _ _ _ _ _ E1).
  destruct (write_law s l w1) as (k & w2 & Hk & E2 & S2); [done|]. rewrite (host_bind_done _ _ _ _ _ E2).
  destruct (IH (drop k l) w2) as (w3 & E3 & S3); [rewrite length_drop; lia|].
  exists w3. split; [done|]. by rewrite S3, S2, S1, <-app_assoc, take_drop.
Qed.

(** A packet goes out of the card whole, on the socket of its interface. *)
Lemma netfpga_output_sends fuel sr raw_sockets packet iface s w :
  logfile sr = None -> raw_sockets !! name_index iface internal_names = Some s ->
  (length packet < fuel)%nat ->
  exists w', netfpga_output fuel sr raw_sockets packet (length packet) iface w = (inr 0, w') /\
    sent s w' = sent s w ++ packet.
Proof.
  intros Hl Hs Hf. unfold netfpga_output, sr_log_packet. rewrite Hl. erewrite host_bind_done by reflexivity.
  rewrite Nat.ltb_irrefl, take_ge by lia. by apply output_loop_sends.
Qed.
End Raw.
