(* ===== verification/VnsWitnesses.v ===== *)
(** A session, a router on a virtual host and an interface file, on which the
    hypotheses of the theorems about the runtime hold. *)

From S2P Require Import Prelude Words Bytes State CStrings Netfpga Main Invariant Preservation Reachable.
From S2P Require Import Witnesses CliWitnesses HostRegs RegProxy ProxyTheorems Vns VnsTheorems.
From S2P Require Import Startup StartupTheorems.
From Stdlib Require Import Ascii.
Local Open Scope Z_scope.

(** ** What the runtime asks of a router, written down *)

Inductive call :=
  | CAdd (i : sr_vns_if) | CSetup | CInput (packet : bytes) (len : Z) (iface : string).

#[local] Instance recorder : Subsystem (list call) := {|
  integ_init _ := mret 1;
  integ_add_interface i := change (fun l => l ++ [CAdd i]);
  integ_hw_setup := change (fun l => l ++ [CSetup]);
  integ_input p n i := change (fun l => l ++ [CInput p n i]);
  integ_destroy := mret tt
|}.
Definition no_streams {W} : Streams W := {|
  fopen_w _ := mret None; fwrite _ _ := mret tt; fclose _ := mret tt; gettimeofday := mret (0, 0); stdout := 1
|}.
#[local] Instance recorder_streams : Streams (list call) := no_streams.
#[local] Instance router_streams : Streams world := no_streams.
#[local] Instance no_garbage {W} : Stack W := fun _ => 0.

Definition fresh_instance : sr_instance := mk_sr_instance 3 "user" "vrhost" "host" "rtable" 0 (0, 0) None false "nf2c0" (Some 1).
Definition no_address (_ : string) : option Z := None.
Definition no_errno {W} (_ : W) : Z := 0.

(** A connection that delivers a byte, is interrupted, then delivers three and
    the rest. *)
Definition pieces : list (option nat) := [Some 0%nat; None; Some 2%nat].

Definition eth0_vif : sr_vns_if := mk_sr_vns_if "eth0" [2; 0; 0; 0; 0; 1] (ip4 10 0 0 1) (ip4 255 255 255 0) 10.
Definition some_frame : bytes := replicate 14 7.

Ltac not_null := unfold no_null; repeat (apply Forall_cons; split; [discriminate|]); apply Forall_nil_2.

Lemma eth0_ok : vns_if_ok eth0_vif.
Proof. split; [not_null|]. split_and!; (evaluate || reflexivity). Defined.
Lemma hwinfo_ok : msg_ok (MHwInfo [eth0_vif]).
Proof. split; [evaluate|]. apply Forall_singleton, eth0_ok. Defined.
Lemma frame_ok : msg_ok (MPacket "eth0" some_frame).
Proof. split; [evaluate|]. split; [not_null|evaluate]. Defined.
Lemma close_ok : msg_ok (MClose "bye").
Proof. split; [evaluate|not_null]. Defined.

(** Calls enough for any message. *)
Definition many : nat := Z.to_nat 20000.

Definition session_bytes : bytes :=
  mjoin (map encode [MHwInfo [eth0_vif]; MPacket "eth0" some_frame]) ++ encode (MClose "bye") ++ [1; 2].

Lemma session_in_order_witness :
  exists c', server_loop (H1 := vns_sockets no_address no_errno) many 3 fresh_instance
               ([], mk_conn session_bytes [] false pieces)
    = (inr (0, fresh_instance), ([CAdd eth0_vif; CSetup; CInput some_frame 14 "eth0"], c')).
Proof.
  destruct (session_in_order no_address no_errno many [MHwInfo [eth0_vif]; MPacket "eth0" some_frame] "bye"
    [1; 2] fresh_instance [] (mk_conn session_bytes [] false pieces)) as (c' & E).
  - apply Forall_cons. split; [split; [apply hwinfo_ok|reflexivity]|].
    apply Forall_singleton. split; [apply frame_ok|reflexivity].
  - apply close_ok.
  - reflexivity.
  - vm_compute. reflexivity.
  - exists c'.
    assert (session fresh_instance ([MHwInfo [eth0_vif]; MPacket "eth0" some_frame] ++ [MClose "bye"]) []
            = (inr fresh_instance, [CAdd eth0_vif; CSetup; CInput some_frame 14 "eth0"])) as Es
      by (vm_compute; reflexivity).
    rewrite Es in E. exact E.
Defined.

(** ** A packet from one end to the other *)

Lemma packet_round_trip_witness :
  exists c', sr_vns_send_packet (H1 := vns_sockets no_address no_errno) fresh_instance some_frame 14 "eth0"
               ([], mk_conn [] [] false []) = (inr 0, ([], c')) /\
  exists sch, sr_vns_read_from_server (H1 := vns_sockets no_address no_errno) many fresh_instance
                ([], mk_conn (c_out c' ++ [9]) [] false pieces)
    = (inr (1, fresh_instance), ([CInput some_frame 14 "eth0"], set_sched sch (mk_conn [9] [] false pieces))).
Proof.
  exists (set_out (encode (MPacket "eth0" some_frame)) (mk_conn [] [] false [])). split; [vm_compute; reflexivity|].
  destruct (packet_round_trip no_address no_errno many fresh_instance fresh_instance "eth0" some_frame
    [] (mk_conn [] [] false []) [] (set_out (encode (MPacket "eth0" some_frame)) (mk_conn [] [] false []))
    [] (mk_conn (encode (MPacket "eth0" some_frame) ++ [9]) [] false pieces) [9]) as (sch & E).
  - apply frame_ok.
  - evaluate.
  - reflexivity.
  - reflexivity.
  - vm_compute. reflexivity.
  - reflexivity.
  - vm_compute. reflexivity.
  - exists sch. exact E.
Defined.

(** ** A router on a virtual host *)

Definition just_initialised : world := let _ := strcmp_sign in world_after (init false) powered_on.

(** An ARP request that is received on eth0. *)
Definition a_request : bytes :=
  replicate 6 255 ++ [2; 0; 0; 0; 0; 9] ++ [8; 6; 0; 1; 8; 0; 6; 4; 0; 1] ++
  [2; 0; 0; 0; 0; 9; 10; 0; 0; 9] ++ [0; 0; 0; 0; 0; 0; 10; 0; 0; 1].

Definition router_session : bytes :=
  encode (MHwInfo [eth0_vif]) ++ mjoin (map (fun p => encode (MPacket p.1 p.2)) [("eth0"%string, a_request)]) ++
  encode (MClose "bye") ++ [].

(** The router after the session, and the rest of the run. *)
Definition router_run : (halt + (Z * sr_instance)) * (world * conn) :=
  let _ := strcmp_sign in let _ := router_subsystem 8 route_file in
  server_loop (H1 := vns_sockets no_address no_errno) many 3 fresh_instance
    (just_initialised, mk_conn router_session [] false pieces).

Lemma pair_parts {A B C} (p : A * (B * C)) : p = (p.1, (p.2.1, p.2.2)).
Proof. by destruct p as [a [b c]]. Qed.

Lemma router_run_done : exists sr', router_run.1 = inr (0, sr').
Proof. eexists. vm_compute. reflexivity. Defined.

Lemma session_reachable_witness : let _ := strcmp_sign in reachable router_run.2.1.
Proof.
  cbv zeta. destruct router_run_done as [sr' E].
  apply (@session_reachable strcmp_sign router_streams 8 route_file no_address no_errno no_garbage many [eth0_vif]
    [("eth0"%string, a_request)] "bye" [] fresh_instance (mk_conn router_session [] false pieces)
    powered_on just_initialised sr' router_run.2.1 router_run.2.2).
  - intros k. split; evaluate.
  - vm_compute. reflexivity.
  - reflexivity.
  - repeat (constructor || split); evaluate.
  - apply Forall_singleton. evaluate.
  - apply hwinfo_ok.
  - apply Forall_singleton. split; [evaluate|]. split; [not_null|evaluate].
  - apply close_ok.
  - reflexivity.
  - vm_compute. reflexivity.
  - cbn [length]. rewrite <-E.
    unfold router_run. cbv zeta. apply pair_parts.
Defined.

(** ** An interface file *)

#[local] Instance one_file : System (list call) := {|
  read_file _ _ := Some (mjoin (map item_text [Comment (chars " name ip mask hwaddr"); Interface
    (mk_sr_vns_if "eth0" [2; 0; 0; 0; 0; 1] (ip4 10 0 0 1) (ip4 255 255 255 0) 0)]));
  getpwuid _ := None; gethostname _ := None; transport_startup := mret tt; sys_thread_new := mret tt
|}.

Lemma sr_cpu_init_hardware_correct_witness :
  sr_cpu_init_hardware (fun _ => []) "cpuhw" []
  = (inr 0, [CAdd (mk_sr_vns_if "eth0" [2; 0; 0; 0; 0; 1] (ip4 10 0 0 1) (ip4 255 255 255 0) 0)]).
Proof.
  rewrite (sr_cpu_init_hardware_correct (fun _ => []) "cpuhw" [Comment (chars " name ip mask hwaddr"); Interface
    (mk_sr_vns_if "eth0" [2; 0; 0; 0; 0; 1] (ip4 10 0 0 1) (ip4 255 255 255 0) 0)] []).
  - reflexivity.
  - apply Forall_cons. split; [split; [reflexivity|evaluate]|]. apply Forall_singleton.
    split; [split; [discriminate|reflexivity]|not_null|evaluate|discriminate|evaluate|evaluate| |reflexivity|reflexivity].
    apply is_bytes_check. vm_compute. reflexivity.
  - reflexivity.
Defined.
