(* ===== verification/NatCtl.v ===== *)
(** The control of the address translation (or_nat.c, from line 498 on): the
    commands that show and change its table, and the rounds of the thread that
    keeps it. The program does not register the commands and does not start the
    thread; they are modelled as written. The writes to the card are commented
    out in the source. *)

From S2P Require Import Prelude Words Bytes State CStrings Sorting Headers Checksum Netfpga Iface Nat.
From S2P Require Import Sprint Cli.
From Stdlib Require Import Ascii.
From stdpp Require Import pretty.
Local Open Scope Z_scope.

(** ** Showing the table: or_output.c *)

Definition NAT_COL : string :=
  "EXT IP          Port   INT IP          Port   Hits   LHits  HPS     LHits TDelta HW  S" +:+ nl.
Definition NAT_ENTRY_TO_STR_LEN : nat := 88.

(** A line, the text of the moving average being an argument. *)
Definition nat_line (avg : string) (ne : nat_entry) : M string :=
  now ← time;
  mret (snprintf NAT_ENTRY_TO_STR_LEN
    (pad_right 15 (inet_ntop (np_ip (nat_ext ne))) +:+ " " +:+
     pad_right 6 (fmt_u (ntohs (np_port (nat_ext ne)))) +:+ " " +:+
     pad_right 15 (inet_ntop (np_ip (nat_int ne))) +:+ " " +:+
     pad_right 6 (fmt_u (ntohs (np_port (nat_int ne)))) +:+ " " +:+
     pad_right 6 (fmt_u (nat_hits ne)) +:+ " " +:+ pad_right 6 (fmt_u (nat_last_hits ne)) +:+ " " +:+
     pad_right 7 avg +:+ " " +:+ pad_right 12 (fmt_u (u32 (now - nat_last_hits_time ne))) +:+ " " +:+
     pad_right 3 (fmt_u (nat_hw_row ne)) +:+ " " +:+ yes_no (nat_is_static ne =? 1) +:+ nl)).

(** [avg_text i] is the text of the average of the [i]-th entry. *)
Definition sprint_nat_table (avg_text : nat -> string) : M string :=
  rs ← get_rs;
  let cap := (String.length NAT_COL + length (nat_table rs) * NAT_ENTRY_TO_STR_LEN)%nat in
  buf ← COPY_STRING cap "" NAT_COL;
  copy_lines (fun p => nat_line (avg_text p.1) p.2) cap buf
    (combine (seq 0 (length (nat_table rs))) (nat_table rs)).

Definition cli_show_nat_table (avg_text : nat -> string) (req : cli_request) : M unit :=
  lock_nat_table;;
  info ← sprint_nat_table avg_text;
  send_text req info;;
  unlock_nat_table.

Definition cli_nat_help (req : cli_request) : M unit :=
  say_lines req ["Usage  "; tab +:+ "show nat table"; tab +:+ "nat set"; tab +:+ "nat reset";
    tab +:+ "nat test"; tab +:+ "nat add [ip_ext] [port_ext] [ip_int] [port_int]";
    tab +:+ "nat del [ip_ext] [port_ext]"].

(** ** Changing the table *)

(** [nat set]: the interface is any whose name starts with that of a port. *)
Definition cli_nat_set (req : cli_request) : M unit :=
  match sscanf (req_command req) "nat set %as" with
  | [AStr iface] =>
      if strncmp_eq iface ETH0 4 || strncmp_eq iface ETH1 4 || strncmp_eq iface ETH2 4 ||
         strncmp_eq iface ETH3 4 then
        lock_if_list_wr;;
        rs ← get_rs;
        _ ← deref (get_iface rs iface);
        modify_iface iface (set_if_is_wan 1);;
        unlock_if_list;;
        send_text req (snprintf 80 ("Succefully set " +:+ iface +:+ " as the wan interface" +:+ nl))
      else if strncmp_eq iface "off" 3 then
        lock_if_list_wr;;
        modify_rs (fun rs => set_if_list (map (set_if_is_wan 0) (if_list rs)) rs);;
        unlock_if_list;;
        say req "Successfully disabled NAT"
      else say req "Invalid arguments"
  | _ => bad_arguments req
  end.

Definition cli_nat_reset (req : cli_request) : M unit :=
  lock_nat_table;;
  modify_rs (set_nat_table []);;
  unlock_nat_table;;
  say req "NAT table deleted".

(** The entry with an external address and port. *)
Definition same_external (ip port : Z) (ne : nat_entry) : bool :=
  (np_ip (nat_ext ne) =? ip) && (np_port (nat_ext ne) =? port).

(** The first entry that satisfies [f] gets the data [e], or [e] is appended. *)
Fixpoint replace_or_append (f : nat_entry -> bool) (e : nat_entry) (l : list nat_entry) : list nat_entry :=
  match l with
  | [] => [e]
  | x :: l' => if f x then e :: l' else x :: replace_or_append f e l'
  end.

(** The first entry that satisfies [f] is removed. *)
Fixpoint remove_first (f : nat_entry -> bool) (l : list nat_entry) : list nat_entry :=
  match l with
  | [] => []
  | x :: l' => if f x then l' else x :: remove_first f l'
  end.

Definition static_nat_entry (ip_ext port_ext ip_int port_int now : Z) : nat_entry :=
  mk_nat_entry (compute_nat_checksums (mk_nat_ip_port_pair ip_ext (htons (u16 port_ext)) 0 0 0))
    (compute_nat_checksums (mk_nat_ip_port_pair ip_int (htons (u16 port_int)) 0 0 0)) 0 now 0 255 1.

Definition cli_nat_add (req : cli_request) : M unit :=
  match sscanf (req_command req) "nat add %as %d %as %d" with
  | [AStr ip_ext; ANum port_ext; AStr ip_int; ANum port_int] =>
      match inet_pton ip_ext with
      | None => say req "Failure reading ip ext argument"
      | Some ext =>
      match inet_pton ip_int with
      | None => say req "Failure reading ip int argument"
      | Some int =>
          now ← time;
          let ne := static_nat_entry ext port_ext int port_int now in
          lock_nat_table;;
          modify_rs (fun rs => set_nat_table
            (replace_or_append (same_external ext (htons (u16 port_ext))) ne (nat_table rs)) rs);;
          unlock_nat_table;;
          signal C_nat_table;;
          say req "Succesfully added the nat table entry"
      end end
  | _ => bad_arguments req
  end.

Definition cli_nat_del (req : cli_request) : M unit :=
  match sscanf (req_command req) "nat del %as %d" with
  | [AStr ip_ext; ANum port_ext] =>
      match inet_pton ip_ext with
      | None => say req "Failure reading ip ext argument"
      | Some ip =>
          let port := htons (u16 port_ext) in
          lock_nat_table;;
          rs ← get_rs;
          let result := existsb (same_external ip port) (nat_table rs) in
          modify_rs (fun rs => set_nat_table (remove_first (same_external ip port) (nat_table rs)) rs);;
          unlock_nat_table;;
          signal C_nat_table;;
          say req (if result then "Succesfully deleted nat table entry" else "No nat table entry found")
      end
  | _ => bad_arguments req
  end.

(** ** The maintenance thread

    The averages are of type [D], with the arithmetic of [double]; an entry of
    the table goes with its average. *)

Section Maintenance.
Context {D : Type}.
Variables (of_int : Z -> D) (ddiv dmul dadd : D -> D -> D) (dlt : D -> D -> bool) (c075 c025 : D).

Definition set_hw_row (v : Z) (ne : nat_entry) : nat_entry :=
  mk_nat_entry (nat_ext ne) (nat_int ne) (nat_last_hits ne) (nat_last_hits_time ne) (nat_hits ne) v
    (nat_is_static ne).

Definition set_last_hits (now : Z) (ne : nat_entry) : nat_entry :=
  mk_nat_entry (nat_ext ne) (nat_int ne) (nat_hits ne) now (nat_hits ne) (nat_hw_row ne) (nat_is_static ne).

(** The moving average and the time of the last hit. *)
Definition update_hits (now : Z) (e : nat_entry * D) : nat_entry * D :=
  let '(ne, avg) := e in
  let cur_avg := ddiv (of_int (u32 (nat_hits ne - nat_last_hits ne))) (of_int (now - nat_last_hits_time ne)) in
  (if nat_last_hits ne =? nat_hits ne then ne else set_last_hits now ne,
   dadd (dmul c075 cur_avg) (dmul c025 avg)).

(** No hit for a long time. *)
Definition expired (now timeout : Z) (ne : nat_entry) : bool :=
  (nat_is_static ne =? 0) && (timeout <? now - nat_last_hits_time ne).

(** The loop over the table. An entry that expires is removed, which frees it,
    and its row is reset after that. *)
Fixpoint age_entries (now timeout : Z) (l : list (nat_entry * D)) : res (list (nat_entry * D)) :=
  match l with
  | [] => mret []
  | e :: l' =>
      let e := update_hits now e in
      if expired now timeout e.1 then inl UseAfterFree
      else
        r ← age_entries now timeout l';
        mret ((set_hw_row 255 e.1, e.2) :: r)
  end.

(** The rows of the card, when there is one: the first sixteen entries. *)
Definition NAT_ROWS : nat := 16.

Fixpoint number_rows (i : nat) (l : list (nat_entry * D)) : list (nat_entry * D) :=
  match l with
  | [] => []
  | e :: l' => ((if (i <? NAT_ROWS)%nat then set_hw_row (Z.of_nat i) e.1 else e.1), e.2) :: number_rows (S i) l'
  end.

Definition lower_average (a b : nat_entry * D) : bool := dlt a.2 b.2.

(** One round: the table with its averages, before and after. *)
Definition nat_maintenance_round (now timeout : Z) (netfpga : bool) (l : list (nat_entry * D))
    : res (list (nat_entry * D)) :=
  l ← age_entries now timeout l;
  l ← res_of OutOfFuel (bubble_sort lower_average l);
  mret (if netfpga then number_rows 0 l else l).

(** ** Correctness *)

(** A comparison of numbers that is never true both ways. *)
Hypothesis dlt_asym : forall a b, dlt a b = true -> dlt b a = false.

Definition aged (now : Z) (e : nat_entry * D) : nat_entry * D :=
  (set_hw_row 255 (update_hits now e).1, (update_hits now e).2).

Lemma age_entries_spec now timeout l :
  age_entries now timeout l
  = if existsb (fun e => expired now timeout (update_hits now e).1) l then inl UseAfterFree
    else inr (map (aged now) l).
Proof.
  induction l as [|e l IH]; [done|]. cbn [age_entries existsb map].
  destruct (expired now timeout (update_hits now e).1); [done|]. cbn [orb]. rewrite IH.
  by destruct (existsb _ l).
Qed.

Lemma number_rows_spec i l : 
  map snd (number_rows i l) = map snd l /\ length (number_rows i l) = length l /\
  forall k e, number_rows i l !! k = Some e -> exists e0, l !! k = Some e0 /\
    e.1 = if (i + k <? NAT_ROWS)%nat then set_hw_row (Z.of_nat (i + k)) e0.1 else e0.1.
Proof.
  revert i. induction l as [|e l IH]; intros i; [by split_and!|]. destruct (IH (S i)) as (H1 & H2 & H3).
  cbn [number_rows map length]. rewrite H1, H2. split_and!; [done..|]. intros [|k] e' Hk.
  - injection Hk as <-. rewrite Nat.add_0_r. by exists e.
  - destruct (H3 k e' Hk) as (e0 & E & ->). exists e0. by rewrite <-Nat.add_succ_comm.
Qed.

(** A round of the thread: when an entry expires it writes to memory it has freed;
    otherwise it ends with the same entries, the busiest first, each with its
    moving average, and numbered from row 0 on when there is a card. *)
Theorem nat_maintenance_correct now timeout netfpga l :
  (existsb (fun e => expired now timeout (update_hits now e).1) l = true /\
   nat_maintenance_round now timeout netfpga l = inl UseAfterFree) \/
  (existsb (fun e => expired now timeout (update_hits now e).1) l = false /\
   exists sorted r, nat_maintenance_round now timeout netfpga l = inr r /\
     sorted ≡ₚ map (aged now) l /\ adjacent_ok lower_average sorted /\
     map snd r = map snd sorted /\
     forall k e, r !! k = Some e -> exists e0, sorted !! k = Some e0 /\
       e.1 = if netfpga && (k <? NAT_ROWS)%nat then set_hw_row (Z.of_nat k) e0.1 else e0.1).
Proof using dlt_asym.
  unfold nat_maintenance_round. rewrite age_entries_spec.
  destruct (existsb _ l) eqn:E; [by left|right]. split; [done|]. cbn [mbind res_bind].
  destruct (bubble_sort_spec lower_average (fun a b => dlt_asym _ _) (map (aged now) l)) as (sorted & Es & Hp & Ha).
  exists sorted. rewrite Es. cbn [res_of]. destruct netfpga; eexists; (split; [reflexivity|]).
  - destruct (number_rows_spec 0 sorted) as (H1 & _ & H3). split_and!; [done..|]. exact H3.
  - split_and!; [done..|]. intros k e Hk. by exists e.
Qed.
End Maintenance.

(** *** The commands *)

Lemma replace_or_append_found f e l : f e = true -> find_first f (replace_or_append f e l) = Some e.
Proof.
  intros Hf. induction l as [|x l IH]; simpl; [by rewrite Hf|].
  destruct (f x) eqn:E; simpl; [by rewrite Hf|]. by rewrite E.
Qed.

(** One entry for an external address and port. *)
Definition external_key (ne : nat_entry) : Z * Z := (np_ip (nat_ext ne), np_port (nat_ext ne)).

Lemma same_external_key ip port ne : same_external ip port ne = true <-> external_key ne = (ip, port).
Proof.
  unfold same_external, external_key. rewrite andb_true_iff, !Z.eqb_eq. split; [by intros [-> ->]|by intros [= -> ->]].
Qed.

Lemma replace_keys ip port e l x : external_key e = (ip, port) ->
  x ∈ map external_key (replace_or_append (same_external ip port) e l) ->
  x = (ip, port) \/ x ∈ map external_key l.
Proof.
  intros Hk. induction l as [|y l IH]; cbn [replace_or_append map].
  - intros H. apply list_elem_of_singleton in H. left. congruence.
  - destruct (same_external ip port y); cbn [map]; rewrite !elem_of_cons; [|tauto].
    intros [->|H]; [by left|tauto].
Qed.

Lemma replace_or_append_keys ip port e l : external_key e = (ip, port) ->
  NoDup (map external_key l) -> NoDup (map external_key (replace_or_append (same_external ip port) e l)).
Proof.
  intros Hk. induction l as [|y l IH]; cbn [replace_or_append map]; intros Hn; [apply NoDup_singleton|].
  apply NoDup_cons in Hn as [Hy Hn]. destruct (same_external ip port y) eqn:E; cbn [map].
  - apply same_external_key in E. rewrite Hk, <-E. by apply NoDup_cons.
  - apply NoDup_cons. split; [|by apply IH]. intros Hx.
    destruct (replace_keys ip port e l _ Hk Hx) as [H|H]; [|done]. apply same_external_key in H. congruence.
Qed.

(** A command that removes what another added. *)
Lemma remove_replaced f e l : f e = true -> existsb f l = false -> remove_first f (replace_or_append f e l) = l.
Proof.
  intros Hf. induction l as [|x l IH]; simpl; [by rewrite Hf|]. intros H. apply orb_false_iff in H as [Hx Hl].
  rewrite Hx. simpl. by rewrite Hx, IH.
Qed.

Lemma cli_nat_add_runs req ip_ext port_ext ip_int port_int ext int w :
  sscanf (req_command req) "nat add %as %d %as %d" = [AStr ip_ext; ANum port_ext; AStr ip_int; ANum port_int] ->
  inet_pton ip_ext = Some ext -> inet_pton ip_int = Some int ->
  exists w', cli_nat_add req w = Done tt w' /\
    w_rs w' = set_nat_table (replace_or_append (same_external ext (htons (u16 port_ext)))
      (static_nat_entry ext port_ext int port_int (env_time (w_env w) (w_tick w))) (State.nat_table (w_rs w))) (w_rs w).
Proof.
  intros Hs He Hi. unfold cli_nat_add. rewrite Hs, He, Hi.
  remember (static_nat_entry ext port_ext int port_int) as entry eqn:Ee. clear Ee.
  eexists. split; [repeat (erewrite bind_done by reflexivity); reflexivity|]. done.
Qed.

Lemma cli_nat_del_runs req ip_ext port_ext ext w :
  sscanf (req_command req) "nat del %as %d" = [AStr ip_ext; ANum port_ext] -> inet_pton ip_ext = Some ext ->
  exists w', cli_nat_del req w = Done tt w' /\
    w_rs w' = set_nat_table (remove_first (same_external ext (htons (u16 port_ext))) (State.nat_table (w_rs w))) (w_rs w).
Proof.
  intros Hs He. unfold cli_nat_del. rewrite Hs, He.
  eexists. split; [repeat (erewrite bind_done by reflexivity); reflexivity|]. done.
Qed.

(** A command that adds an entry: the table then translates that address and
    port to the given ones, and has one entry for each external pair when it had. *)
Theorem cli_nat_add_correct req ip_ext port_ext ip_int port_int ext int w :
  sscanf (req_command req) "nat add %as %d %as %d" = [AStr ip_ext; ANum port_ext; AStr ip_int; ANum port_int] ->
  inet_pton ip_ext = Some ext -> inet_pton ip_int = Some int ->
  let ne := static_nat_entry ext port_ext int port_int (env_time (w_env w) (w_tick w)) in
  exists w', cli_nat_add req w = Done tt w' /\
    w_rs w' = set_nat_table (nat_table (w_rs w')) (w_rs w) /\
    find_first (same_external ext (htons (u16 port_ext))) (nat_table (w_rs w')) = Some ne /\
    (forall f, (forall x, external_key x = (ext, htons (u16 port_ext)) -> f x = false) ->
       bfilter f (nat_table (w_rs w')) = bfilter f (nat_table (w_rs w))) /\
    (NoDup (map external_key (nat_table (w_rs w))) -> NoDup (map external_key (nat_table (w_rs w')))).
Proof.
  intros Hs He Hi ne. destruct (cli_nat_add_runs req _ _ _ _ ext int w Hs He Hi) as (w' & E & Er).
  fold ne in Er. exists w'. split; [done|].
  assert (same_external ext (htons (u16 port_ext)) ne = true) as Hk by by apply same_external_key.
  clearbody ne. rewrite Er. clear Er E He Hi Hs. destruct (w_rs w). cbn [State.nat_table set_nat_table]. split_and!; [done| | |].
  - by apply replace_or_append_found.
  - intros f Hf. apply same_external_key in Hk.
    match goal with |- bfilter f (replace_or_append ?g ?e ?l) = _ => induction l as [|x l IH] end;
      cbn [replace_or_append bfilter]; [by rewrite (Hf _ Hk)|].
    destruct (same_external _ _ x) eqn:Ex; cbn [bfilter].
    + apply same_external_key in Ex. by rewrite (Hf _ Hk), (Hf _ Ex).
    + by rewrite IH.
  - apply replace_or_append_keys. by apply same_external_key.
Qed.

(** An entry that was added for a new pair is removed by the command that deletes
    it, and the table is what it was. *)
Theorem cli_nat_add_del req req' ip_ext port_ext ip_int port_int ext int w :
  sscanf (req_command req) "nat add %as %d %as %d" = [AStr ip_ext; ANum port_ext; AStr ip_int; ANum port_int] ->
  sscanf (req_command req') "nat del %as %d" = [AStr ip_ext; ANum port_ext] ->
  inet_pton ip_ext = Some ext -> inet_pton ip_int = Some int ->
  existsb (same_external ext (htons (u16 port_ext))) (nat_table (w_rs w)) = false ->
  exists w', (cli_nat_add req;; cli_nat_del req') w = Done tt w' /\ w_rs w' = w_rs w.
Proof.
  intros Hs Hd He Hi Hn. destruct (cli_nat_add_runs req _ _ _ _ ext int w Hs He Hi) as (w1 & E1 & R1).
  destruct (cli_nat_del_runs req' _ _ ext w1 Hd He) as (w2 & E2 & R2).
  exists w2. split; [by rewrite (bind_done _ _ _ _ _ E1)|]. rewrite R2, R1.
  assert (same_external ext (htons (u16 port_ext))
            (static_nat_entry ext port_ext int port_int (env_time (w_env w) (w_tick w))) = true) as Hk
    by by apply same_external_key.
  generalize dependent (static_nat_entry ext port_ext int port_int (env_time (w_env w) (w_tick w))). intros e _ Hk.
  destruct (w_rs w). cbn [State.nat_table set_nat_table] in *. by rewrite remove_replaced.
Qed.

(** A name that only starts with the name of a port ends the program. *)
Lemma cli_nat_set_crashes req name w :
  sscanf (req_command req) "nat set %as" = [AStr name] -> strncmp_eq name ETH0 4 = true ->
  get_iface (w_rs w) name = None -> exists w', cli_nat_set req w = Crashed NullDeref w'.
Proof.
  intros Hs Hn Hg. unfold cli_nat_set. rewrite Hs, Hn. cbn [orb]. eexists.
  unfold lock_if_list_wr, acquire, emit, get_rs, mbind, M_bind, deref, lift. cbn. by rewrite Hg.
Qed.
