(* ===== verification/Events.v ===== *)
(** The event capture of the buffer sizing router: the program that shows the
    events of a card (projects/router_buffer_sizing/sw/rcv_evts.c, evts.h), and
    the recorder in the card that writes them (evt_rcrdr.v). An event is shown
    with the time at which it happened, although its word holds only the low
    bits of it. *)

From S2P Require Import Prelude Words Bytes CStrings CNumbers HostRegs.
From Stdlib Require Import Ascii.
Local Open Scope Z_scope.

(** ** The words of an event: evts.h *)

Definition CAP_ETHERTYPE : Z := 0x9999.

Definition TS_EVENT : Z := 0x00000000.
Definition ST_EVENT : Z := 0x40000000.
Definition RM_EVENT : Z := 0x80000000.
Definition DR_EVENT : Z := 0xc0000000.

Definition EVENT_TYPE_MASK : Z := 0xc0000000.
Definition OQ_MASK : Z := 0x38000000.
Definition LENGTH_MASK : Z := 0x07f80000.
Definition TIME_MASK : Z := 0x0007ffff.

Definition OQ_SHIFT : Z := 27.
Definition LEN_SHIFT : Z := 19.

(** ** What the program keeps and shows *)

Inductive event_kind := Store | Remove | Drop.

(** The lines that are printed. *)
Inductive line :=
  | LOther (ethertype : Z)                 (* a packet that is not one of events *)
  | LRaw (i : Z) (b : bytes)               (* bytes of the packet *)
  | LHeader (words : list Z) (len : Z)     (* the fields before the events *)
  | LPayload (word type : Z)
  | LTimestamp (msb lsb : Z)
  | LEvent (k : event_kind) (oq evt_len msb lsb : Z)
  | LTotals (store drop remove : list Z).

Record monitor := mk_monitor {
  store_events : list Z;
  drop_events : list Z;
  remove_events : list Z;
  lines : list line
}.

Definition no_events : monitor := mk_monitor (replicate 8 0) (replicate 8 0) (replicate 8 0) [].

Definition add_line (l : line) (m : monitor) : monitor :=
  mk_monitor (store_events m) (drop_events m) (remove_events m) (lines m ++ [l]).

(** [events[oq] += 1], on an [int]. *)
Definition bump (oq : Z) (events : list Z) : list Z :=
  alter (fun n => int32 (n + 1)) (Z.to_nat oq) events.

Definition count (k : event_kind) (oq : Z) (m : monitor) : monitor :=
  match k with
  | Store => mk_monitor (bump oq (store_events m)) (drop_events m) (remove_events m) (lines m)
  | Remove => mk_monitor (store_events m) (drop_events m) (bump oq (remove_events m)) (lines m)
  | Drop => mk_monitor (store_events m) (bump oq (drop_events m)) (remove_events m) (lines m)
  end.

(** ** A packet of events *)

Section Receive.
Variables (verbose very_verbose : bool) (cap_ethertype : Z).

Definition say (b : bool) (l : line) : host monitor unit :=
  if b then change (add_line l) else mret tt.

(** [ntohl] of the word at an offset of the packet. *)
Definition load (packet : bytes) (o : nat) : host monitor Z :=
  match get32 packet o with Some w => mret (ntohl w) | None => halted HOverrun end.

Fixpoint load_words (packet : bytes) (o n : nat) : host monitor (list Z) :=
  match n with
  | O => mret []
  | S n => w ← load packet o; ws ← load_words packet (o + 4) n; mret (w :: ws)
  end.

(** [time_MSB] and [time_LSB] are first assigned by a timestamp. *)
Definition known (t : option Z) : host monitor Z :=
  match t with Some t => mret t | None => halted HUnset end.

Definition short_event (k : event_kind) (word : Z) (time_MSB time_LSB : option Z) : host monitor unit :=
  let oq := Z.shiftr (Z.land word OQ_MASK) OQ_SHIFT in
  let evt_len := Z.shiftr (Z.land word LENGTH_MASK) LEN_SHIFT in
  let time_diff := Z.land word TIME_MASK in
  (if verbose then
     msb ← known time_MSB; lsb ← known time_LSB;
     say true (LEvent k oq evt_len (u32 msb) (u32 (time_diff + lsb)))
   else mret tt);;
  change (count k oq).

(** The loop over the words after the header: [i] counts them, [o] is where
    [payload] points. *)
Fixpoint event_loop (fuel : nat) (packet : bytes) (len i : Z) (o : nat)
    (time_MSB time_LSB : option Z) : host monitor unit :=
  if len <=? i then mret tt
  else
    match fuel with
    | O => halted HFuel
    | S fuel =>
        word ← load packet o;
        let type := Z.land word EVENT_TYPE_MASK in
        say very_verbose (LPayload word type);;
        if type =? TS_EVENT then
          lsb ← load packet (o + 4);
          let msb := Z.land word (u32 (Z.lnot EVENT_TYPE_MASK)) in
          say verbose (LTimestamp msb lsb);;
          event_loop fuel packet len (i + 2) (o + 8) (Some msb)
            (Some (Z.land lsb (u32 (Z.lnot TIME_MASK))))
        else if type =? ST_EVENT then
          short_event Store word time_MSB time_LSB;;
          event_loop fuel packet len (i + 1) (o + 4) time_MSB time_LSB
        else if type =? RM_EVENT then
          short_event Remove word time_MSB time_LSB;;
          event_loop fuel packet len (i + 1) (o + 4) time_MSB time_LSB
        else if type =? DR_EVENT then
          short_event Drop word time_MSB time_LSB;;
          event_loop fuel packet len (i + 1) (o + 4) time_MSB time_LSB
        else event_loop fuel packet len (i + 1) o time_MSB time_LSB
    end.

Fixpoint raw_loop (fuel : nat) (packet : bytes) (len i : Z) (o : nat) : host monitor unit :=
  if len <=? i then mret tt
  else
    match fuel with
    | O => halted HFuel
    | S fuel =>
        match get_range packet o 4 with
        | None => halted HOverrun
        | Some b => change (add_line (LRaw i b));; raw_loop fuel packet len (i + 4) (o + 4)
        end
    end.

(** The words of the Ethernet, IP and UDP headers, of the header of the events
    and of the sizes of the queues. *)
Definition HEADER_WORDS : nat := 28.

(** The callback, for a packet of [len_off_wire] bytes of which [packet] was
    captured. *)
Definition ReceiveSinglePacket (len_off_wire : Z) (packet : bytes) : host monitor unit :=
  match get16 packet 12 with
  | None => halted HOverrun
  | Some ethertype =>
      let ethertype := ntohs ethertype in
      if negb (ethertype =? cap_ethertype) then say very_verbose (LOther ethertype)
      else
        (if very_verbose then raw_loop (S (length packet)) packet len_off_wire 0 0 else mret tt);;
        words ← load_words packet 0 HEADER_WORDS;
        say true (LHeader words len_off_wire);;
        let len := u32 (len_off_wire - 14 * 8) / 4 in
        event_loop (S (length packet)) packet len 0 (4 * HEADER_WORDS) None None;;
        m ← ask id;
        say true (LTotals (store_events m) (drop_events m) (remove_events m))
  end.

(** [pcap_loop] and [pcap_dispatch] hand the callback packets with their lengths. *)
Fixpoint deliver (packets : list (Z * bytes)) : host monitor unit :=
  match packets with
  | [] => mret tt
  | (len, p) :: packets => ReceiveSinglePacket len p;; deliver packets
  end.

(** The loop of a capture: each call of [pcap_dispatch] delivers the packets that
    are waiting and answers with their number; after the last there is an error. *)
Fixpoint ReceivePackets (waiting : list (list (Z * bytes))) : host monitor unit :=
  match waiting with
  | [] => mret tt
  | packets :: waiting =>
      deliver packets;;
      if (length packets =? 1)%nat then ReceivePackets waiting else mret tt
  end.

(** A file that cannot be opened: the error is written through a pointer that was
    never assigned. *)
Definition processOfflinePkts (teth_file : option (list (Z * bytes))) : host monitor unit :=
  match teth_file with
  | None => halted HUnset
  | Some packets => deliver packets
  end.
End Receive.

(** ** The options

    The running time is a [double] whose low half the conversion writes; the
    ethertype has two bytes, and the conversion writes four. *)

Record options := mk_options {
  opt_verbose : bool;
  opt_very_verbose : bool;
  opt_iface : string;
  opt_ethertype : Z;
  opt_offline : bool
}.

Definition default_options : options := mk_options false false "nf2c0" CAP_ETHERTYPE false.

Definition option_step {W} (c : ascii) (optarg : string) (s : options) : host W options :=
  match c with
  | "v"%char => mret (mk_options true (opt_very_verbose s) (opt_iface s) (opt_ethertype s) (opt_offline s))
  | "V"%char => mret (mk_options (opt_verbose s) true (opt_iface s) (opt_ethertype s) (opt_offline s))
  | "i"%char => mret (mk_options (opt_verbose s) (opt_very_verbose s) optarg (opt_ethertype s) (opt_offline s))
  | "e"%char =>
      match scan_0x optarg with Some _ => halted HOverrun | None => halted (HExit 1) end
  | "r"%char =>
      match scan_unsigned_num (chars optarg) with Some _ => mret s | None => halted (HExit 1) end
  | "o"%char => mret (mk_options (opt_verbose s) (opt_very_verbose s) (opt_iface s) (opt_ethertype s) true)
  | _ => halted (HExit 1)
  end.

Fixpoint processArgs {W} (opts : list (ascii * string)) (s : options) : host W options :=
  match opts with
  | [] => mret s
  | (c, optarg) :: opts => s ← option_step c optarg s; processArgs opts s
  end.

(** [main], without the card: what was captured, or the file of packets. *)
Definition main (opts : list (ascii * string)) (captured : list (list (Z * bytes)))
    (teth_file : option (list (Z * bytes))) : host monitor Z :=
  s ← processArgs opts default_options;
  (if negb (opt_offline s)
   then ReceivePackets (opt_verbose s) (opt_very_verbose s) (opt_ethertype s) captured
   else processOfflinePkts (opt_verbose s) (opt_very_verbose s) (opt_ethertype s) teth_file);;
  mret 0.

(** ** The recorder of the card: evt_rcrdr.v

    A signal has a kind, the number of a queue and a value; in one clock cycle
    there is at most one of each kind. A full FIFO, which drops events, is left
    out. *)

Inductive item := IStamp (t : Z) | IEvent (k : event_kind) (q value t : Z).

Record cycle := mk_cycle {
  new_evt_pkt : bool;
  sig_store : option (Z * Z);
  sig_remove : option (Z * Z);
  sig_drop : option (Z * Z)
}.

Definition TIME_DIFF_SIZE : Z := 19.
Definition TIMESTAMP_SIZE : Z := 62.

Section Recorder.
Variables (monitor_mask signal_id_mask tmr_resolution : Z).

Definition timestamp_out (counter : Z) : Z := (counter / 2 ^ tmr_resolution) mod 2 ^ TIMESTAMP_SIZE.

Definition signal_items (k : event_kind) (bit t : Z) (sig : option (Z * Z)) : list item :=
  match sig with
  | Some (q, value) =>
      if Z.testbit monitor_mask bit && Z.testbit signal_id_mask q then [IEvent k q value t] else []
  | None => []
  end.

(** [prev_bit] is the bit of the timestamp above those an event holds, in the
    cycle before. *)
Definition stamps (prev_bit : bool) (t : Z) (c : cycle) : bool :=
  new_evt_pkt c || xorb prev_bit (Z.testbit t TIME_DIFF_SIZE).

Fixpoint record_cycles (prev_bit : bool) (counter : Z) (cs : list cycle) : list item :=
  match cs with
  | [] => []
  | c :: cs =>
      let t := timestamp_out counter in
      (if stamps prev_bit t c then [IStamp t] else []) ++
      signal_items Store 0 t (sig_store c) ++ signal_items Remove 1 t (sig_remove c) ++
      signal_items Drop 2 t (sig_drop c) ++ record_cycles (Z.testbit t TIME_DIFF_SIZE) (counter + 1) cs
  end.
End Recorder.

Definition type_bits (k : event_kind) : Z := match k with Store => 1 | Remove => 2 | Drop => 3 end.

(** The words in the packet, and their bytes. *)
Definition item_words (it : item) : list Z :=
  match it with
  | IStamp t => [t / 2 ^ 32; t mod 2 ^ 32]
  | IEvent k q value t => [((type_bits k * 2 ^ 3 + q) * 2 ^ 8 + value) * 2 ^ 19 + t mod 2 ^ 19]
  end.
Definition words_of (its : list item) : list Z := its ≫= item_words.
Definition big_endian (ws : list Z) : bytes := ws ≫= fun w => word_bytes (htonl w).

(** ** What is shown *)

(** An item as it is shown: an event with the whole time at which it happened. *)
Definition show_item (verbose : bool) (m : monitor) (it : item) : monitor :=
  let shown l := if verbose then add_line l m else m in
  match it with
  | IStamp t => shown (LTimestamp (t / 2 ^ 32) (t mod 2 ^ 32))
  | IEvent k q value t => count k q (shown (LEvent k q value (t / 2 ^ 32) (t mod 2 ^ 32)))
  end.

(** The events follow a timestamp of their window of 2^19 ticks. *)
Fixpoint in_windows (last : option Z) (its : list item) : Prop :=
  match its with
  | [] => True
  | IStamp t :: its => 0 <= t < 2 ^ 62 /\ in_windows (Some t) its
  | IEvent k q value t :: its =>
      0 <= q < 8 /\ is_u8 value /\ 0 <= t < 2 ^ 62 /\
      (exists t0, last = Some t0 /\ t0 / 2 ^ 19 = t / 2 ^ 19) /\ in_windows last its
  end.

(** *** Fields of a word *)

Lemma land_field x a n : 0 <= a -> 0 <= n ->
  Z.land x (Z.shiftl (Z.ones n) a) = (x / 2 ^ a) mod 2 ^ n * 2 ^ a.
Proof.
  intros Ha Hn. rewrite <-Z.land_ones, <-Z.shiftr_div_pow2, <-Z.shiftl_mul_pow2 by done.
  apply Z.bits_inj'. intros i Hi. rewrite Z.land_spec.
  destruct (Z.lt_ge_cases i a) as [Hl|Hl].
  - rewrite !Z.shiftl_spec_low by done. by rewrite andb_false_r.
  - rewrite !Z.shiftl_spec, Z.land_spec, Z.shiftr_spec by lia. by rewrite Z.sub_add.
Qed.

Lemma fields_of_event k q value r : 0 <= q < 8 -> is_u8 value -> 0 <= r < 2 ^ 19 ->
  let w := ((type_bits k * 2 ^ 3 + q) * 2 ^ 8 + value) * 2 ^ 19 + r in
  is_u32 w /\ Z.land w EVENT_TYPE_MASK = type_bits k * 2 ^ 30 /\
  Z.shiftr (Z.land w OQ_MASK) OQ_SHIFT = q /\ Z.shiftr (Z.land w LENGTH_MASK) LEN_SHIFT = value /\
  Z.land w TIME_MASK = r.
Proof.
  intros Hq Hv Hr w.
  assert (1 <= type_bits k <= 3) as Hk by (destruct k; simpl; lia).
  set (ty := type_bits k) in *. clearbody ty. unfold is_u8, is_u32 in *.
  assert (w / 2 ^ 19 = (ty * 8 + q) * 256 + value) as E19 by (symmetry; apply (Z.div_unique _ _ _ r); unfold w; lia).
  assert (w / 2 ^ 27 = ty * 8 + q) as E27
    by (symmetry; apply (Z.div_unique _ _ _ (value * 2 ^ 19 + r)); unfold w; lia).
  assert (w / 2 ^ 30 = ty) as E30
    by (symmetry; apply (Z.div_unique _ _ _ ((q * 2 ^ 8 + value) * 2 ^ 19 + r)); unfold w; lia).
  change EVENT_TYPE_MASK with (Z.shiftl (Z.ones 2) 30). change OQ_MASK with (Z.shiftl (Z.ones 3) 27).
  change LENGTH_MASK with (Z.shiftl (Z.ones 8) 19). change TIME_MASK with (Z.ones 19).
  rewrite !land_field, Z.land_ones by lia. unfold OQ_SHIFT, LEN_SHIFT.
  rewrite !Z.shiftr_div_pow2, !Z.div_mul, E19, E27, E30 by lia. split_and!.
  - unfold w. lia.
  - unfold w. lia.
  - rewrite Z.mod_small; lia.
  - symmetry. apply (Z.mod_unique _ _ ty); lia.
  - symmetry. apply (Z.mod_unique _ _ (ty * 8 + q)); lia.
  - symmetry. apply (Z.mod_unique _ _ ((ty * 8 + q) * 256 + value)); unfold w; lia.
Qed.

Lemma fields_of_stamp t : 0 <= t < 2 ^ 62 ->
  is_u32 (t / 2 ^ 32) /\ is_u32 (t mod 2 ^ 32) /\
  Z.land (t / 2 ^ 32) EVENT_TYPE_MASK = TS_EVENT /\
  Z.land (t / 2 ^ 32) (u32 (Z.lnot EVENT_TYPE_MASK)) = t / 2 ^ 32 /\
  Z.land (t mod 2 ^ 32) (u32 (Z.lnot TIME_MASK)) = t mod 2 ^ 32 / 2 ^ 19 * 2 ^ 19.
Proof.
  intros Ht. pose proof (Z.mod_pos_bound t (2 ^ 32) ltac:(lia)) as Hm.
  assert (0 <= t / 2 ^ 32 < 2 ^ 30) as Hd by (Z.div_mod_to_equations; lia).
  change EVENT_TYPE_MASK with (Z.shiftl (Z.ones 2) 30).
  change (u32 (Z.lnot (Z.shiftl (Z.ones 2) 30))) with (Z.ones 30).
  change (u32 (Z.lnot TIME_MASK)) with (Z.shiftl (Z.ones 13) 19).
  rewrite !land_field, Z.land_ones by lia. unfold is_u32, TS_EVENT. split_and!; try lia.
  - rewrite (Z.div_small (t / 2 ^ 32)) by lia. done.
  - by rewrite Z.mod_small.
  - rewrite (Z.mod_small (t mod 2 ^ 32 / 2 ^ 19)); [done|].
    split; [apply Z.div_pos; lia|]. apply Z.div_lt_upper_bound; lia.
Qed.

(** The time of an event, from its timestamp and its own low bits. *)
Lemma time_of_event t0 t : 0 <= t < 2 ^ 62 -> t0 / 2 ^ 19 = t / 2 ^ 19 ->
  u32 (t0 / 2 ^ 32) = t / 2 ^ 32 /\ u32 (t mod 2 ^ 19 + t0 mod 2 ^ 32 / 2 ^ 19 * 2 ^ 19) = t mod 2 ^ 32.
Proof.
  intros Ht E.
  assert (forall x, x / 2 ^ 32 = x / 2 ^ 19 / 2 ^ 13) as Hhi by (intros x; by rewrite Z.div_div by lia).
  assert (forall x, x mod 2 ^ 32 / 2 ^ 19 = (x / 2 ^ 19) mod 2 ^ 13) as Hlo.
  { intros x. change (2 ^ 32) with (2 ^ 19 * 2 ^ 13). rewrite Z.rem_mul_r by lia.
    rewrite (Z.mul_comm (2 ^ 19)), Z.div_add by lia. rewrite (Z.div_small (x mod 2 ^ 19)); [lia|].
    apply Z.mod_pos_bound. lia. }
  rewrite Hhi, Hlo, E, <-Hhi, <-Hlo. pose proof (Z.mod_pos_bound t (2 ^ 32) ltac:(lia)).
  assert (t mod 2 ^ 32 = t mod 2 ^ 19 + t mod 2 ^ 32 / 2 ^ 19 * 2 ^ 19) as <-.
  { rewrite (Z.div_mod (t mod 2 ^ 32) (2 ^ 19)) at 1 by lia.
    rewrite (Z.mod_mod_divide t) by by exists (2 ^ 13). lia. }
  rewrite !u32_id; unfold is_u32; [done|lia|]. split; [apply Z.div_pos; lia|].
  apply Z.div_lt_upper_bound; lia.
Qed.

(** *** The words of a packet *)

Lemma load_at pre w ws rest m : is_u32 w ->
  load (pre ++ big_endian (w :: ws) ++ rest) (length pre) m = (inr w, m).
Proof.
  intros Hw. unfold load, big_endian. cbn [mbind list_bind]. rewrite <-app_assoc.
  rewrite get32_at_word by apply bswap32_range. unfold ntohl, htonl. by rewrite bswap32_involutive.
Qed.

Lemma load_next pre w w' ws rest m : is_u32 w' ->
  load (pre ++ big_endian (w :: w' :: ws) ++ rest) (length pre + 4) m = (inr w', m).
Proof.
  intros Hw. change (big_endian (w :: w' :: ws)) with (word_bytes (htonl w) ++ big_endian (w' :: ws)).
  rewrite <-app_assoc, (app_assoc pre).
  replace (length pre + 4)%nat with (length (pre ++ word_bytes (htonl w))) by by rewrite length_app.
  by apply load_at.
Qed.

Lemma big_endian_app a b : big_endian (a ++ b) = big_endian a ++ big_endian b.
Proof. apply bind_app. Qed.

Lemma big_endian_length ws : length (big_endian ws) = (4 * length ws)%nat.
Proof. unfold big_endian. induction ws as [|w ws IH]; [done|]. cbn [mbind list_bind]. rewrite length_app, IH. simpl. lia. Qed.

Lemma type_cases k : (type_bits k * 2 ^ 30 =? TS_EVENT) = false /\
  (type_bits k * 2 ^ 30 =? ST_EVENT) = (type_bits k =? 1) /\
  (type_bits k * 2 ^ 30 =? RM_EVENT) = (type_bits k =? 2) /\
  (type_bits k * 2 ^ 30 =? DR_EVENT) = (type_bits k =? 3).
Proof. by destruct k. Qed.

Lemma low_bits t : 0 <= t mod 2 ^ 19 < 2 ^ 19.
Proof. apply Z.mod_pos_bound. lia. Qed.

(** The times of the last timestamp, as the loop keeps them. *)
Definition kept_msb (last : option Z) : option Z := (fun t => t / 2 ^ 32) <$> last.
Definition kept_lsb (last : option Z) : option Z := (fun t => t mod 2 ^ 32 / 2 ^ 19 * 2 ^ 19) <$> last.

Section Shown.
Variable verbose : bool.

Lemma short_event_shown k q value t t0 m :
  0 <= q < 8 -> is_u8 value -> 0 <= t < 2 ^ 62 -> t0 / 2 ^ 19 = t / 2 ^ 19 ->
  short_event verbose k (((type_bits k * 2 ^ 3 + q) * 2 ^ 8 + value) * 2 ^ 19 + t mod 2 ^ 19)
    (kept_msb (Some t0)) (kept_lsb (Some t0)) m = (inr tt, show_item verbose m (IEvent k q value t)).
Proof.
  intros Hq Hv Ht Hw. destruct (time_of_event t0 t Ht Hw) as [Hh Hl].
  destruct (fields_of_event k q value (t mod 2 ^ 19) Hq Hv (low_bits t)) as (_ & _ & Eq & Ev & Et).
  unfold short_event. cbv zeta in *. rewrite Eq, Ev, Et. destruct verbose; [|done].
  unfold show_item. rewrite <-Hh, <-Hl. done.
Qed.

Lemma event_loop_shown its pre rest last m fuel len i :
  in_windows last its -> len - i = Z.of_nat (length (words_of its)) -> (length (words_of its) <= fuel)%nat ->
  event_loop verbose false fuel (pre ++ big_endian (words_of its) ++ rest) len i (length pre)
    (kept_msb last) (kept_lsb last) m
  = (inr tt, foldl (show_item verbose) m its).
Proof.
  revert pre last m fuel i. induction its as [|it its IH]; intros pre last m fuel i Hw Hl Hf.
  { cbn in Hl. destruct fuel; cbn [event_loop]; (replace (len <=? i) with true by (symmetry; apply Z.leb_le; lia)); done. }
  change (words_of (it :: its)) with (item_words it ++ words_of its) in *. rewrite length_app in Hl, Hf.
  destruct fuel as [|fuel]; [destruct it; simpl in Hf; lia|].
  cbn [event_loop foldl]. replace (len <=? i) with false by (symmetry; apply Z.leb_gt; destruct it; simpl in Hl; lia).
  rewrite big_endian_app, <-app_assoc, (app_assoc pre).
  destruct it as [t|k q value t]; cbn [in_windows item_words] in *.
  - destruct Hw as [Ht Hw]. destruct (fields_of_stamp t Ht) as (W1 & W2 & E1 & E2 & E3).
    rewrite <-app_assoc. rewrite (host_bind_done _ _ _ _ _ (load_at _ _ _ _ m W1)). rewrite E1. cbn [Z.eqb TS_EVENT].
    hstep. rewrite (host_bind_done _ _ _ _ _ (load_next _ _ _ _ _ m W2)). rewrite E2, E3.
    assert (say verbose (LTimestamp (t / 2 ^ 32) (t mod 2 ^ 32)) m = (inr tt, show_item verbose m (IStamp t))) as Es
      by by destruct verbose.
    rewrite (host_bind_done _ _ _ _ _ Es), app_assoc.
    replace (length pre + 8)%nat with (length (pre ++ big_endian [t / 2 ^ 32; t mod 2 ^ 32]))
      by by rewrite length_app.
    apply (IH _ (Some t)); [done| |]; cbn [length] in *; lia.
  - destruct Hw as (Hq & Hv & Ht & (t0 & -> & Hwin) & Hw).
    destruct (fields_of_event k q value (t mod 2 ^ 19) Hq Hv (low_bits t)) as (W & E & _).
    cbv zeta in *. rewrite <-app_assoc, (host_bind_done _ _ _ _ _ (load_at _ _ _ _ m W)), E.
    destruct (type_cases k) as (-> & -> & -> & ->). erewrite host_bind_done by reflexivity.
    pose proof (short_event_shown k q value t t0 m Hq Hv Ht Hwin) as Es. rewrite app_assoc.
    set (w := _ + t mod 2 ^ 19) in *. set (b := big_endian [w]).
    replace (length pre + 4)%nat with (length (pre ++ b)) by (subst b; by rewrite length_app).
    assert (event_loop verbose false fuel ((pre ++ b) ++ big_endian (words_of its) ++ rest) len (i + 1)
              (length (pre ++ b)) (kept_msb (Some t0)) (kept_lsb (Some t0)) (show_item verbose m (IEvent k q value t))
            = (inr tt, foldl (show_item verbose) (show_item verbose m (IEvent k q value t)) its)) as Er
      by (apply IH; [done|cbn [length] in *; lia..]).
    destruct k; cbn [type_bits Z.eqb Pos.eqb] in *; by rewrite (host_bind_done _ _ _ _ _ Es).
Qed.
End Shown.

(** *** The recorder stamps every window *)

Section Windows.
Variables (monitor_mask signal_id_mask tmr_resolution : Z).
Hypothesis resolution_nonneg : 0 <= tmr_resolution.

Definition signal_ok (sig : option (Z * Z)) : Prop :=
  match sig with Some (q, value) => 0 <= q < 8 /\ is_u8 value | None => True end.
Definition cycle_ok (c : cycle) : Prop :=
  signal_ok (sig_store c) /\ signal_ok (sig_remove c) /\ signal_ok (sig_drop c).

Lemma timestamp_range counter : 0 <= timestamp_out tmr_resolution counter < 2 ^ 62.
Proof. apply Z.mod_pos_bound. unfold TIMESTAMP_SIZE. lia. Qed.

(** Between two cycles the timestamp grows by at most one, so that a window that
    is left shows in one bit. *)
Lemma next_window counter : 0 <= counter -> counter + 1 < 2 ^ 62 ->
  let t := timestamp_out tmr_resolution counter in
  let t' := timestamp_out tmr_resolution (counter + 1) in
  Z.testbit t 19 = Z.testbit t' 19 -> t / 2 ^ 19 = t' / 2 ^ 19.
Proof using resolution_nonneg.
  intros Hc Hn. unfold timestamp_out, TIMESTAMP_SIZE.
  assert (0 < 2 ^ tmr_resolution) as Hp by (apply Z.pow_pos_nonneg; lia).
  set (p := 2 ^ tmr_resolution) in *. clearbody p.
  assert (forall x, 0 <= x < 2 ^ 62 -> 0 <= x / p < 2 ^ 62) as Hb.
  { intros x Hx. split; [apply Z.div_pos; lia|]. apply Z.div_lt_upper_bound; [lia|]. nia. }
  rewrite !Z.mod_small by (apply Hb; lia). cbv zeta.
  assert ((counter + 1) / p = counter / p \/ (counter + 1) / p = counter / p + 1) as [->| ->]; [|done|].
  { pose proof (Z.div_le_mono counter (counter + 1) p Hp ltac:(lia)).
    assert ((counter + 1) / p <= counter / p + 1); [|lia].
    replace (counter / p + 1) with ((counter + 1 * p) / p) by (rewrite Z.div_add; lia).
    apply Z.div_le_mono; lia. }
  set (t := counter / p). rewrite !Z.testbit_odd, !Z.shiftr_div_pow2 by lia. intros Ho.
  assert ((t + 1) / 2 ^ 19 = t / 2 ^ 19 \/ (t + 1) / 2 ^ 19 = t / 2 ^ 19 + 1) as [E|E] by Zdivmod; [done|].
  rewrite E, Z.odd_add in Ho. by destruct (Z.odd (t / 2 ^ 19)).
Qed.

Lemma signals_in_windows k bit t t0 sig its :
  signal_ok sig -> 0 <= t < 2 ^ 62 -> t0 / 2 ^ 19 = t / 2 ^ 19 -> in_windows (Some t0) its ->
  in_windows (Some t0) (signal_items monitor_mask signal_id_mask k bit t sig ++ its).
Proof.
  intros Hs Ht Hw Hi. destruct sig as [[q value]|]; [|done]. cbn [signal_items].
  destruct (_ && _); [|done]. cbn [app in_windows]. destruct Hs. split_and!; try (done || lia). by exists t0.
Qed.

Lemma recorder_in_windows cs prev counter last :
  0 <= counter -> counter + Z.of_nat (length cs) < 2 ^ 62 -> Forall cycle_ok cs ->
  (match cs with
   | c :: _ => let t := timestamp_out tmr_resolution counter in
       stamps prev t c = true \/ exists t0, last = Some t0 /\ t0 / 2 ^ 19 = t / 2 ^ 19
   | [] => True
   end) ->
  in_windows last (record_cycles monitor_mask signal_id_mask tmr_resolution prev counter cs).
Proof using resolution_nonneg.
  intros Hc Hn Hok. revert prev counter last Hc Hn.
  induction Hok as [|c cs (S1 & S2 & S3) _ IH]; intros prev counter last Hc Hn Hfirst; [done|].
  cbn [record_cycles length] in *. pose proof (timestamp_range counter) as Ht.
  set (t := timestamp_out tmr_resolution counter) in *.
  assert (forall t0, t0 / 2 ^ 19 = t / 2 ^ 19 -> in_windows (Some t0)
    (signal_items monitor_mask signal_id_mask Store 0 t (sig_store c) ++
     signal_items monitor_mask signal_id_mask Remove 1 t (sig_remove c) ++
     signal_items monitor_mask signal_id_mask Drop 2 t (sig_drop c) ++
     record_cycles monitor_mask signal_id_mask tmr_resolution (Z.testbit t TIME_DIFF_SIZE) (counter + 1) cs)) as Hrest.
  { intros t0 Hw. do 3 (apply signals_in_windows; [done..|]). apply IH; [lia..|].
    destruct cs as [|c' cs]; [done|]. cbv zeta. unfold stamps.
    destruct (new_evt_pkt c'); [by left|]. cbn [orb].
    destruct (xorb _ _) eqn:Ex; [by left|right]. apply xorb_eq in Ex. exists t0. split; [done|].
    rewrite Hw. apply next_window; [done| |done]. cbn [length] in Hn. lia. }
  destruct (stamps prev t c) eqn:Es.
  - split; [done|]. by apply Hrest.
  - destruct Hfirst as [Hf|(t0 & -> & Hw)]; [done|]. by apply Hrest.
Qed.
End Windows.

(** *** What a packet is shown as *)

Lemma load_words_total packet o n m : (o + 4 * n <= length packet)%nat ->
  exists ws, load_words packet o n m = (inr ws, m).
Proof.
  revert o. induction n as [|n IH]; intros o Hl; [by exists []|]. cbn [load_words].
  destruct (get32_total packet o) as [w Hw]; [lia|].
  assert (load packet o m = (inr (ntohl w), m)) as E by (unfold load; by rewrite Hw).
  destruct (IH (o + 4)%nat) as [ws Ews]; [lia|]. exists (ntohl w :: ws).
  rewrite (host_bind_done _ _ _ _ _ E). by rewrite (host_bind_done _ _ _ _ _ Ews).
Qed.

Lemma packet_shown verbose cap_ethertype hdr its rest len m :
  length hdr = 112%nat -> ntohs <$> get16 hdr 12 = Some cap_ethertype -> in_windows None its ->
  len = Z.of_nat (length hdr + length (big_endian (words_of its))) -> len < 2 ^ 32 ->
  exists words, let m' := foldl (show_item verbose) (add_line (LHeader words len) m) its in
    ReceiveSinglePacket verbose false cap_ethertype len (hdr ++ big_endian (words_of its) ++ rest) m
    = (inr tt, add_line (LTotals (store_events m') (drop_events m') (remove_events m')) m').
Proof.
  intros Hh He Hw -> Hl. set (packet := hdr ++ _).
  assert (length packet = 112 + 4 * length (words_of its) + length rest)%nat as Hp
    by (unfold packet; rewrite !length_app, big_endian_length, Hh; lia).
  destruct (load_words_total packet 0 HEADER_WORDS m) as [words Ew]; [unfold HEADER_WORDS; lia|].
  exists words. cbv zeta. unfold ReceiveSinglePacket.
  assert (get16 packet 12 = get16 hdr 12) as ->.
  { apply get16_ext. intros k Hk. unfold packet. by rewrite lookup_app_l by lia. }
  destruct (get16 hdr 12) as [e|]; [|done]. injection He as He. rewrite He, Z.eqb_refl. cbn [negb].
  erewrite host_bind_done by reflexivity. rewrite (host_bind_done _ _ _ _ _ Ew).
  erewrite host_bind_done by reflexivity. rewrite Hh, big_endian_length in *.
  set (m1 := add_line _ m). set (n := length (words_of its)) in *.
  assert (u32 (Z.of_nat (112 + 4 * n) - 14 * 8) / 4 = Z.of_nat n) as ->.
  { rewrite u32_id by (unfold is_u32; lia). symmetry. apply (Z.div_unique _ _ _ 0); lia. }
  assert (event_loop verbose false (S (length packet)) packet (Z.of_nat n) 0 (4 * HEADER_WORDS) None None m1
          = (inr tt, foldl (show_item verbose) m1 its)) as E.
  { change (4 * HEADER_WORDS)%nat with 112%nat. rewrite <-Hh. unfold packet.
    apply (event_loop_shown verbose its hdr rest None); [done|fold n; lia|].
    fold packet. rewrite Hp. fold n. lia. }
  by rewrite (host_bind_done _ _ _ _ _ E).
Qed.

(** The counters by the kind of event. *)
Definition events_of (k : event_kind) (m : monitor) : list Z :=
  match k with Store => store_events m | Remove => remove_events m | Drop => drop_events m end.

Definition is_event (k : event_kind) (q : Z) (it : item) : bool :=
  match it, k with
  | IEvent Store q' _ _, Store | IEvent Remove q' _ _, Remove | IEvent Drop q' _ _, Drop => q' =? q
  | _, _ => false
  end.

Lemma show_item_counts verbose it k q n m : 0 <= q ->
  (forall k' q' v t, it = IEvent k' q' v t -> 0 <= q') ->
  events_of k m !! Z.to_nat q = Some n -> 0 <= n -> n + (if is_event k q it then 1 else 0) < 2 ^ 31 ->
  events_of k (show_item verbose m it) !! Z.to_nat q = Some (n + (if is_event k q it then 1 else 0)).
Proof.
  intros Hq Hit E Hn.
  assert (forall l : list Z, l !! Z.to_nat q = Some n -> forall q', 0 <= q' ->
    n + (if q' =? q then 1 else 0) < 2 ^ 31 ->
    bump q' l !! Z.to_nat q = Some (n + if q' =? q then 1 else 0)) as Hb.
  { intros l El q' Hq'. unfold bump. destruct (Z.eqb_spec q' q) as [->|Hne]; intros Hm.
    - rewrite list_lookup_alter, El, decide_True by done. cbn. by rewrite int32_id by lia.
    - rewrite list_lookup_alter_ne by lia. by rewrite Z.add_0_r. }
  destruct it as [t|k' q' v t]; cbn [is_event show_item].
  - rewrite Z.add_0_r. by destruct k, verbose.
  - specialize (Hit _ _ _ _ eq_refl). destruct k, k', verbose; cbn [events_of show_item count add_line
      store_events remove_events drop_events] in *; rewrite ?Z.add_0_r; auto.
Qed.

Definition occurrences (k : event_kind) (q : Z) (its : list item) : Z :=
  Z.of_nat (length (bfilter (is_event k q) its)).

Lemma show_items_count verbose its k q n last m : 0 <= q -> in_windows last its ->
  events_of k m !! Z.to_nat q = Some n -> 0 <= n -> n + occurrences k q its < 2 ^ 31 ->
  events_of k (foldl (show_item verbose) m its) !! Z.to_nat q = Some (n + occurrences k q its).
Proof.
  unfold occurrences. intros Hq. revert n last m.
  induction its as [|it its IH]; intros n last m Hw E Hn Hm; [by rewrite Z.add_0_r|].
  cbn [foldl bfilter] in *.
  assert (exists last', in_windows last' its) as [last' Hw'] by (destruct it; cbn in Hw; naive_solver).
  assert (forall k' q' v t, it = IEvent k' q' v t -> 0 <= q') as Hit by (intros * ->; cbn in Hw; lia).
  pose proof (show_item_counts verbose it k q n m Hq Hit E Hn) as Hs.
  destruct (is_event k q it); cbn [length] in *.
  - rewrite (IH (n + 1) last'); [f_equal; lia|done|apply Hs; lia|lia..].
  - rewrite Z.add_0_r in Hs. apply (IH n last'); (done || apply Hs; lia).
Qed.

(** C34: a packet that holds what the card recorded in consecutive cycles, the
    first of which it stamped, is shown event by event, each with the queue, the
    value and the whole time at which it happened, and is counted. *)
Theorem events_read_back monitor_mask signal_id_mask tmr_resolution prev counter c cs
    verbose cap_ethertype hdr rest len m :
  0 <= tmr_resolution -> 0 <= counter -> counter + Z.of_nat (length (c :: cs)) < 2 ^ 62 ->
  Forall cycle_ok (c :: cs) -> stamps prev (timestamp_out tmr_resolution counter) c = true ->
  length hdr = 112%nat -> ntohs <$> get16 hdr 12 = Some cap_ethertype ->
  let its := record_cycles monitor_mask signal_id_mask tmr_resolution prev counter (c :: cs) in
  len = Z.of_nat (length hdr + length (big_endian (words_of its))) -> len < 2 ^ 32 ->
  exists words, let m' := foldl (show_item verbose) (add_line (LHeader words len) m) its in
    ReceiveSinglePacket verbose false cap_ethertype len (hdr ++ big_endian (words_of its) ++ rest) m
    = (inr tt, add_line (LTotals (store_events m') (drop_events m') (remove_events m')) m') /\
    forall k q n, 0 <= q -> events_of k m !! Z.to_nat q = Some n -> 0 <= n ->
      n + occurrences k q its < 2 ^ 31 ->
      events_of k m' !! Z.to_nat q = Some (n + occurrences k q its).
Proof.
  intros Hr Hc Hn Hok Hs Hh He its Hl Hlen.
  assert (in_windows None its) as Hw by (apply recorder_in_windows; try done; by left).
  destruct (packet_shown verbose cap_ethertype hdr its rest len m Hh He Hw Hl Hlen) as [words E].
  exists words. cbv zeta. split; [exact E|]. intros k q n Hq Hk H0 Hm.
  apply (show_items_count verbose its k q n None); try done.
Qed.

(** *** Limits *)

(** A program that waits for one packet after another ends when two have come at
    once: those after them are never shown. *)
Lemma capture_ends verbose very_verbose cap_ethertype p q ps waiting :
  ReceivePackets verbose very_verbose cap_ethertype ((p :: q :: ps) :: waiting)
  = (deliver verbose very_verbose cap_ethertype (p :: q :: ps);; mret tt).
Proof. done. Qed.

(** A packet of the ethertype that is shorter than the header is read past its end,
    whatever its length: the number of its words wraps. *)
Lemma short_packet_overruns verbose cap_ethertype len packet m :
  ntohs <$> get16 packet 12 = Some cap_ethertype -> (length packet < 112)%nat ->
  ReceiveSinglePacket verbose false cap_ethertype len packet m = (inl HOverrun, m).
Proof.
  intros He Hl. unfold ReceiveSinglePacket. destruct (get16 packet 12) as [e|]; [|done].
  injection He as ->. rewrite Z.eqb_refl. cbn [negb]. erewrite host_bind_done by reflexivity.
  assert (forall n o, (length packet < o + 4 * n)%nat -> (0 < n)%nat ->
    load_words packet o n m = (inl HOverrun, m)) as Hw.
  { induction n as [|n IH]; intros o Ho Hn; [lia|]. cbn [load_words].
    destruct (get32 packet o) as [w|] eqn:E.
    - assert (load packet o m = (inr (ntohl w), m)) as El by (unfold load; by rewrite E).
      rewrite (host_bind_done _ _ _ _ _ El). apply host_bind_halt.
      destruct n as [|n]; [|apply IH; lia]. exfalso.
      assert (packet !! (o + 3)%nat = None) as E3 by (apply lookup_ge_None_2; lia). unfold get32 in E.
      rewrite E3 in E. by destruct (packet !! o), (packet !! (o + 1)%nat), (packet !! (o + 2)%nat).
    - apply host_bind_halt. unfold load. by rewrite E. }
  apply host_bind_halt, Hw; unfold HEADER_WORDS; lia.
Qed.
