(* ===== verification/SendPkts.v ===== *)
(** The packet sender and receiver (lib/C/tools/send_pkts): a numbered sequence
    of frames is sent on one interface and checked on another. The receiver
    counts what is lost on the way, and waits for the frame with the last number.
    libnet and the random numbers are classes; [pcap] hands the receiver what is
    captured. *)

From S2P Require Import Prelude Words Bytes CStrings CNumbers HostRegs.
From Stdlib Require Import Ascii.
Local Open Scope Z_scope.

(** ** Options *)

Record options := mk_options {
  iface : string;
  num_pkts : Z;
  am_sender : bool;
  delay : Z;
  port : Z;
  pkt_length : Z;          (* 0 is random *)
  check_pkt : bool;
  dest : Z;
  src : Z
}.

Definition default_options : options := mk_options "nf2c0" 1 false 0 0x1234 0 false 0x03 0x00.

(** The cases of the switch over the options [getopt] finds; -f, which it knows, is
    none of them. *)
Definition option_step {W} (c : ascii) (optarg : string) (s : options) : host W options :=
  match c with
  | "v"%char => mret s
  | "i"%char => mret (mk_options optarg (num_pkts s) (am_sender s) (delay s) (port s) (pkt_length s)
                        (check_pkt s) (dest s) (src s))
  | "s"%char => mret (mk_options (iface s) (atoi optarg) true (delay s) (port s) (pkt_length s)
                        (check_pkt s) (dest s) (src s))
  | "d"%char => mret (mk_options (iface s) (num_pkts s) (am_sender s) (atoi optarg) (port s)
                        (pkt_length s) (check_pkt s) (dest s) (src s))
  | "p"%char => mret (mk_options (iface s) (num_pkts s) (am_sender s) (delay s)
                        (Z.land (atoi optarg) 0xffff) (pkt_length s) (check_pkt s) (dest s) (src s))
  | "c"%char => mret (mk_options (iface s) (num_pkts s) (am_sender s) (delay s) (port s)
                        (pkt_length s) true (dest s) (src s))
  | "l"%char =>
      let l := u32 (atoi optarg) in
      if (l <? 60) || (1514 <? l) then halted (HExit 1)
      else mret (mk_options (iface s) (num_pkts s) (am_sender s) (delay s) (port s) l
                   (check_pkt s) (dest s) (src s))
  | "S"%char =>
      let v := u32 (atoi optarg) in
      if 255 <? v then halted (HExit 1)
      else mret (mk_options (iface s) (num_pkts s) (am_sender s) (delay s) (port s) (pkt_length s)
                   (check_pkt s) (dest s) v)
  | "D"%char =>
      let v := u32 (atoi optarg) in
      if 255 <? v then halted (HExit 1)
      else mret (mk_options (iface s) (num_pkts s) (am_sender s) (delay s) (port s) (pkt_length s)
                   (check_pkt s) v (src s))
  | _ => halted (HExit 1)
  end.

Fixpoint processArgs {W} (opts : list (ascii * string)) (s : options) : host W options :=
  match opts with
  | [] => mret s
  | (c, optarg) :: opts => s ← option_step c optarg s; processArgs opts s
  end.

(** The bytes of a packet that are captured: a frame whose content is not checked
    is cut after its numbers. *)
Definition SNAPLEN : Z := 30.
Definition snaplen (s : options) : Z :=
  if check_pkt s then (if pkt_length s =? 0 then 1514 else pkt_length s) else SNAPLEN.

(** ** Sending *)

(** libnet, the random numbers and the sleep between packets. *)
Class Libnet (W : Type) := {
  libnet_clear_packet : host W unit;
  libnet_build_ethernet : bytes -> bytes -> Z -> bytes -> host W Z;
  libnet_write : host W Z;
  srand48_time : host W unit;
  lrand48 : host W Z;
  millisec_sleep : Z -> host W unit
}.

Section Sender.
Context {W : Type} `{Libnet W}.

Definition buffer_op {A} (r : option A) : host W A :=
  match r with Some a => mret a | None => halted HOverrun end.

(** [payloadLen] bytes of the payload are sent. *)
Definition SendEthernetPacket (DA SA : bytes) (EtherType : Z) (payload : bytes) (payloadLen : nat)
    : host W Z :=
  libnet_clear_packet;;
  sent ← buffer_op (get_range payload 0 payloadLen);
  _ ← libnet_build_ethernet DA SA EtherType sent;
  libnet_write.

(** [data[i] = (len + i) % 256] for [i] from 12 on, [n] times. *)
Fixpoint fill_content (n : nat) (i : nat) (len : Z) (data : bytes) : host W bytes :=
  match n with
  | O => mret data
  | S n => data ← buffer_op (put8 data i ((len + Z.of_nat i) mod 256)); fill_content n (S i) len data
  end.

Definition address (last : Z) : bytes := [0; 0xd1; 0xd2; 0xd3; 0xd4; u8 last].

Fixpoint send_loop (n : nat) (s : options) (pkt : Z) (data : bytes) : host W unit :=
  match n with
  | O => mret tt
  | S n =>
      data ← buffer_op (put32 data 4 (htonl (u32 (pkt + 1))));
      r ← (if pkt_length s =? 0 then lrand48 else mret 0);
      let len := if pkt_length s =? 0 then r mod (1514 - 60) + 60 else pkt_length s in
      data ← buffer_op (put32 data 8 (htonl len));
      data ← (if check_pkt s then fill_content (Z.to_nat (len - 14) - 12) 12 len data else mret data);
      _ ← SendEthernetPacket (address (dest s)) (address (src s)) (port s) data (Z.to_nat (len - 14));
      millisec_sleep (delay s);;
      send_loop n s (pkt + 1) data
  end.

Definition SendPackets (s : options) : host W unit :=
  data ← buffer_op (put32 (replicate 1500 0) 0 (htonl (u32 (num_pkts s))));
  srand48_time;;
  send_loop (Z.to_nat (num_pkts s)) s 0 data.
End Sender.

(** ** Receiving *)

Inductive line :=
  | LLen (off_wire in_pkt : Z)                 (* lengths differ *)
  | LByte (i expected saw : Z)                 (* a byte differs *)
  | LProgress (total seq dropped : Z).

Record receiver := mk_receiver {
  exp_total_pkts : Z;
  pkts_rcvd : Z;
  e_count : gmap Z Z;
  rcv_finished : bool;
  lines : list line
}.

Definition new_receiver : receiver := mk_receiver 0 0 ∅ false [].

Definition say (l : line) (r : receiver) : receiver :=
  mk_receiver (exp_total_pkts r) (pkts_rcvd r) (e_count r) (rcv_finished r) (lines r ++ [l]).

Section Receiver.
(** The size of a [long], which is what is copied into variables of four bytes. *)
Variable sizeof_long : nat.
Variables (port : Z) (check_pkt : bool).

Definition LIBNET_ETH_H : nat := 14.

Definition load {A} (r : option A) : host receiver A :=
  match r with Some a => mret a | None => halted HOverrun end.

(** [memcpy(&v, p + o, sizeof(long))] into a variable of [size] bytes, then
    [ntohl(v)]. *)
Definition copy_long (size : nat) (p : bytes) (o : nat) : host receiver Z :=
  bs ← load (get_range p o sizeof_long);
  if (size <? sizeof_long)%nat then halted HOverrun
  else v ← load (get32 bs 0); mret (ntohl v).

Fixpoint check_content (fuel : nat) (payload : bytes) (i stop len : Z) : host receiver unit :=
  if stop <=? i then mret tt
  else
    match fuel with
    | O => halted HFuel
    | S fuel =>
        b ← load (payload !! Z.to_nat i);
        let exp_byte := (u32 (len + i)) mod 256 in
        (if b =? exp_byte then mret tt else change (say (LByte (i + 14) exp_byte b)));;
        check_content fuel payload (i + 1) stop len
    end.

(** The callback. *)
Definition ReceiveSinglePacket (len_off_wire : Z) (packet : bytes) : host receiver unit :=
  e ← load (get16 packet 12);
  let ethertype := ntohs e in
  change (fun r => mk_receiver (exp_total_pkts r) (pkts_rcvd r)
    (<[ethertype := int32 (default 0 (e_count r !! ethertype) + 1)]> (e_count r)) (rcv_finished r) (lines r));;
  if negb (ethertype =? port) then mret tt
  else
    let payload := drop LIBNET_ETH_H packet in
    total ← copy_long 4 payload 0;
    let exp_total := int32 total in
    change (fun r => mk_receiver exp_total (pkts_rcvd r) (e_count r) (rcv_finished r) (lines r));;
    seq ← copy_long sizeof_long payload 4;
    let seq_num := if (sizeof_long =? 4)%nat then int32 seq else seq in
    len ← copy_long 4 payload 8;
    (if len_off_wire =? len then mret tt else change (say (LLen len_off_wire len)));;
    (if check_pkt
     then check_content (S (length packet)) payload 12 (u32 (len_off_wire - 14)) len
     else mret tt);;
    change (fun r => mk_receiver (exp_total_pkts r) (int32 (pkts_rcvd r + 1)) (e_count r)
      (rcv_finished r) (lines r));;
    r ← ask id;
    change (say (LProgress exp_total seq_num (seq_num - pkts_rcvd r)));;
    if seq_num =? exp_total
    then change (fun r => mk_receiver (exp_total_pkts r) (pkts_rcvd r) (e_count r) true (lines r))
    else mret tt.

(** Packets with their lengths, as [pcap_dispatch] hands them out one by one. The
    result is what is left when the receiver has finished; [None]: it is still
    waiting after the last. *)
Fixpoint receive_loop (arriving : list (Z * bytes)) : host receiver (option (list (Z * bytes))) :=
  r ← ask id;
  if rcv_finished r then mret (Some arriving)
  else
    match arriving with
    | [] => mret None
    | (len, p) :: arriving => ReceiveSinglePacket len p;; receive_loop arriving
    end.

Definition ReceivePackets (arriving : list (Z * bytes)) : host receiver (option (list (Z * bytes))) :=
  change (fun r => mk_receiver (exp_total_pkts r) (pkts_rcvd r) ∅ false (lines r));;
  receive_loop arriving.
End Receiver.

(** ** The frames of a transfer *)

(** libnet writes the frame of the addresses, the type and the payload. *)
Class LibnetLaws {W : Type} `{Libnet W} (wire : W -> list bytes) := {
  write_law DA SA type payload w : length DA = 6%nat -> length SA = 6%nat ->
    returns (libnet_clear_packet;; _ ← libnet_build_ethernet DA SA type payload; libnet_write)
      (fun _ w' => wire w' = wire w ++ [DA ++ SA ++ half_bytes (htons type) ++ payload]) w;
  seed_law w : returns srand48_time (fun _ w' => wire w' = wire w) w;
  lrand48_law w : returns lrand48 (fun r w' => 0 <= r /\ wire w' = wire w) w;
  sleep_law ms w : returns (millisec_sleep ms) (fun _ w' => wire w' = wire w) w
}.

(** The byte at an index of the payload, and the three numbers at its start. *)
Definition content (len : Z) (i : nat) : Z := (len + Z.of_nat i) mod 256.
Definition numbers (total seq len : Z) : bytes :=
  word_bytes (htonl total) ++ word_bytes (htonl seq) ++ word_bytes (htonl len).

Section Transfer.
Variables (port total max_len : Z) (check_pkt : bool).

(** A frame with a number. *)
Definition is_frame (seq : Z) (f : bytes) : Prop := exists mac len body,
  f = mac ++ half_bytes (htons port) ++ numbers total seq len ++ body /\
  length mac = 12%nat /\ len = Z.of_nat (length f) /\ 60 <= len <= max_len /\
  (check_pkt = true -> body = map (content len) (List.seq 12 (length body))).

Fixpoint numbered (seq : Z) (fs : list bytes) : Prop :=
  match fs with [] => True | f :: fs => is_frame seq f /\ numbered (seq + 1) fs end.
End Transfer.

(** The longest frame of a transfer. *)
Definition max_len (s : options) : Z := if pkt_length s =? 0 then 1514 else pkt_length s.
Definition fixed_or_random (s : options) : Prop := pkt_length s = 0 \/ 60 <= pkt_length s <= 1514.

Lemma max_len_range s : fixed_or_random s -> 60 <= max_len s <= 1514.
Proof. unfold fixed_or_random, max_len. destruct (Z.eqb_spec (pkt_length s) 0); lia. Qed.

(** *** The sender *)

Lemma length_numbers total seq len : length (numbers total seq len) = 12%nat.
Proof. done. Qed.

Section Sent.
Context {W : Type} `{LibnetLaws W wire}.

Lemma fill_content_spec n pre rest len (w : W) : (n <= length rest)%nat ->
  fill_content n (length pre) len (pre ++ rest) w
  = (inr (pre ++ map (content len) (seq (length pre) n) ++ drop n rest), w).
Proof.
  revert pre rest. induction n as [|n IH]; intros pre rest Hn; [done|].
  destruct rest as [|x rest]; [simpl in Hn; lia|]. cbn [fill_content seq map drop].
  rewrite put8_app. erewrite host_bind_done by reflexivity.
  set (b := u8 _). replace (pre ++ b :: rest) with ((pre ++ [b]) ++ rest) by by rewrite <-app_assoc.
  replace (S (length pre)) with (length (pre ++ [b])) by (rewrite length_app; simpl; lia).
  rewrite IH by (simpl in Hn; lia). rewrite <-app_assoc. cbn [app].
  assert (b = content len (length pre)) as -> by (apply u8_id; unfold is_u8; apply Z.mod_pos_bound; lia).
  by rewrite length_app, Nat.add_1_r.
Qed.

Lemma frame_of_data (s : options) seq_num len data w :
  fixed_or_random s -> 60 <= len <= max_len s -> length data = 1500%nat ->
  (exists body, data = numbers (u32 (num_pkts s)) seq_num len ++ body /\
     (check_pkt s = true -> take (Z.to_nat len - 26) body = map (content len) (seq 12 (Z.to_nat len - 26)))) ->
  returns (SendEthernetPacket (address (dest s)) (address (src s)) (port s) data (Z.to_nat (len - 14)))
    (fun _ w' => exists f, wire w' = wire w ++ [f] /\ is_frame (port s) (u32 (num_pkts s)) (max_len s) (check_pkt s) seq_num f) w.
Proof.
  intros Hs Hl Hd (body & -> & Hb). unfold SendEthernetPacket.
  rewrite length_app, length_numbers in Hd. pose proof (max_len_range s Hs) as Hmax.
  assert (get_range (numbers (u32 (num_pkts s)) seq_num len ++ body) 0 (Z.to_nat (len - 14))
          = Some (numbers (u32 (num_pkts s)) seq_num len ++ take (Z.to_nat len - 26) body)) as E.
  { unfold get_range. rewrite length_app, length_numbers. destruct (Nat.leb_spec (0 + Z.to_nat (len - 14)) (12 + length body)); [|lia].
    rewrite drop_0, take_app_ge by (rewrite length_numbers; lia). rewrite length_numbers. do 3 f_equal. lia. }
  rewrite E. pose proof (write_law (wire := wire) (address (dest s)) (address (src s)) (port s)
    (numbers (u32 (num_pkts s)) seq_num len ++ take (Z.to_nat len - 26) body) w eq_refl eq_refl) as Hw.
  unfold returns, mbind, host_bind, buffer_op in *. cbn [mret host_ret] in *.
  destruct (libnet_clear_packet w) as [[h|[]] w1]; [done|].
  destruct (libnet_build_ethernet _ _ _ _ w1) as [[h|r] w2]; [done|].
  destruct (libnet_write w2) as [[h|r'] w3]; [done|]. eexists. split; [exact Hw|].
  exists (address (dest s) ++ address (src s)), len, (take (Z.to_nat len - 26) body).
  split_and!; [by rewrite <-app_assoc|done| |lia|lia|].
  - rewrite !length_app, length_numbers, length_take. simpl. lia.
  - intros Hc. rewrite (Hb Hc), length_map, length_seq. done.
Qed.

(** The numbers are written over those of the packet before. *)
Lemma write_numbers total a b v v' body :
  put32 (word_bytes total ++ word_bytes a ++ word_bytes b ++ body) 4 v
    = Some (word_bytes total ++ word_bytes v ++ word_bytes b ++ body) /\
  put32 (word_bytes total ++ word_bytes v ++ word_bytes b ++ body) 8 v'
    = Some (word_bytes total ++ word_bytes v ++ word_bytes v' ++ body).
Proof.
  split.
  - apply (put32_word_at (word_bytes total)).
  - rewrite (app_assoc (word_bytes total)), (put32_word_at (word_bytes total ++ word_bytes v)).
    by rewrite <-app_assoc.
Qed.

Lemma send_loop_frames (s : options) n pkt a b body w : fixed_or_random s ->
  length body = 1488%nat -> 0 <= pkt -> pkt + Z.of_nat n < 2 ^ 32 ->
  returns (send_loop n s pkt (word_bytes (htonl (u32 (num_pkts s))) ++ word_bytes a ++ word_bytes b ++ body))
    (fun _ w' => exists fs, wire w' = wire w ++ fs /\ length fs = n /\
       numbered (port s) (u32 (num_pkts s)) (max_len s) (check_pkt s) (pkt + 1) fs) w.
Proof.
  intros Hs. revert pkt a b body w. induction n as [|n IH]; intros pkt a b body w Hb Hp Hn.
  { exists []. by rewrite app_nil_r. }
  cbn [send_loop]. set (total := htonl _). destruct (write_numbers total a b (htonl (u32 (pkt + 1))) 0 body) as [-> _].
  apply returns_seq. cbn [buffer_op]. apply (returns_done _ _ _ _ _ eq_refl). apply returns_seq.
  apply returns_mono with (Q := fun r w' => (pkt_length s = 0 -> 0 <= r) /\ wire w' = wire w).
  { destruct (Z.eqb_spec (pkt_length s) 0) as [Hz|Hz]; [|by apply (returns_done _ _ _ _ _ eq_refl)].
    eapply returns_mono; [apply lrand48_law|]. cbn. tauto. }
  intros r w1 [Hr W1]. set (len := if _ =? 0 then _ else _).
  pose proof (max_len_range s Hs) as Hmax.
  assert (60 <= len <= max_len s) as Hl.
  { unfold len, max_len, fixed_or_random in *. destruct (Z.eqb_spec (pkt_length s) 0) as [Hz|Hz]; [|lia].
    pose proof (Z.mod_pos_bound r (1514 - 60)). lia. }
  clearbody len.
  destruct (write_numbers total 0 b (htonl (u32 (pkt + 1))) (htonl len) body) as [_ ->].
  apply returns_seq, (returns_done _ _ _ _ _ eq_refl), returns_seq.
  rewrite (u32_id (pkt + 1)) by (unfold is_u32; lia).
  change (word_bytes total ++ word_bytes (htonl (pkt + 1)) ++ word_bytes (htonl len) ++ body)
    with (numbers (u32 (num_pkts s)) (pkt + 1) len ++ body).
  eapply returns_mono with (Q := fun data w' => wire w' = wire w /\ exists body',
    data = numbers (u32 (num_pkts s)) (pkt + 1) len ++ body' /\ length body' = 1488%nat /\
    (check_pkt s = true -> take (Z.to_nat len - 26) body' = map (content len) (seq 12 (Z.to_nat len - 26)))).
  { destruct (check_pkt s); [|apply (returns_done _ _ _ _ _ eq_refl); split; [done|by exists body]].
    pose proof (fill_content_spec (Z.to_nat (len - 14) - 12) (numbers (u32 (num_pkts s)) (pkt + 1) len) body len w1
      ltac:(lia)) as E.
    rewrite length_numbers in E. replace (Z.to_nat (len - 14) - 12)%nat with (Z.to_nat len - 26)%nat in E |- * by lia.
    apply (returns_done _ _ _ _ _ E). split; [done|]. eexists. split; [reflexivity|].
    rewrite length_app, length_map, length_seq, length_drop. split; [lia|]. intros _.
    rewrite take_app_le by (rewrite length_map, length_seq; lia). apply take_ge. rewrite length_map, length_seq. lia. }
  intros data w2 (W2 & body' & -> & Hb' & Hc). apply returns_seq.
  eapply returns_mono.
  { apply (frame_of_data s (pkt + 1) len); [done|done|by rewrite length_app, Hb'|by exists body']. }
  intros r' w3 (f & W3 & Hf). apply returns_seq. eapply returns_mono; [apply sleep_law|]. intros [] w4 W4.
  unfold numbers. rewrite <-!app_assoc. eapply returns_mono; [apply IH; lia|].
  intros [] w5 (fs & W5 & Hfs & Hnum). exists (f :: fs). cbn [length numbered]. split_and!; [|lia|done|done].
  rewrite W5, W4, W3, W2, <-app_assoc. done.
Qed.

(** The frames of a transfer are numbered from 1 to their total. *)
Lemma SendPackets_frames (s : options) w : fixed_or_random s -> 0 <= num_pkts s < 2 ^ 31 ->
  returns (SendPackets s)
    (fun _ w' => exists fs, wire w' = wire w ++ fs /\ Z.of_nat (length fs) = num_pkts s /\
       numbered (port s) (num_pkts s) (max_len s) (check_pkt s) 1 fs) w.
Proof.
  intros Hs Hn. unfold SendPackets. apply returns_seq.
  assert (put32 (replicate 1500 0) 0 (htonl (u32 (num_pkts s)))
          = Some (word_bytes (htonl (u32 (num_pkts s))) ++ word_bytes 0 ++ word_bytes 0 ++ replicate 1488 0)) as ->
    by apply (put32_app [] 0 0 0 0 (replicate 1496 0)).
  apply (returns_done _ _ _ _ _ eq_refl), returns_seq. eapply returns_mono; [apply seed_law|]. intros [] w1 W1.
  eapply returns_mono; [apply send_loop_frames; [done|apply length_replicate|lia|lia]|].
  rewrite u32_id by (unfold is_u32; lia).
  intros [] w2 (fs & W2 & Hfs & Hnum). exists fs. rewrite W2, W1. split_and!; [done|lia|done].
Qed.
End Sent.

(** *** The receiver *)

(** What is captured of a packet, with its length. *)
Definition capture (snap : Z) (f : bytes) : Z * bytes := (Z.of_nat (length f), take (Z.to_nat snap) f).

Lemma copy_long_at size pre v rest r : (4 <= size)%nat -> is_u32 v ->
  copy_long 4 size (pre ++ word_bytes (htonl v) ++ rest) (length pre) r = (inr v, r).
Proof.
  intros Hs Hv. unfold copy_long.
  assert (get_range (pre ++ word_bytes (htonl v) ++ rest) (length pre) 4 = Some (word_bytes (htonl v))) as ->
    by apply (get_range_at pre (word_bytes (htonl v)) rest).
  erewrite host_bind_done by reflexivity.
  assert ((size <? 4)%nat = false) as -> by (apply Nat.ltb_ge; lia).
  pose proof (get32_at_word [] (htonl v) [] (bswap32_range v)) as E. rewrite app_nil_r in E.
  cbn [app length] in E. rewrite E. erewrite host_bind_done by reflexivity.
  unfold ntohl, htonl. by rewrite bswap32_involutive.
Qed.

Lemma check_content_ok n pre len fuel stop r : is_u32 len -> len + Z.of_nat (length pre + n) < 2 ^ 32 ->
  stop = Z.of_nat (length pre + n) -> (n <= fuel)%nat ->
  check_content fuel (pre ++ map (content len) (seq (length pre) n)) (Z.of_nat (length pre)) stop len r
  = (inr tt, r).
Proof.
  intros Hl Hm -> Hf. revert pre fuel Hf Hm. induction n as [|n IH]; intros pre fuel Hf Hm.
  { destruct fuel; cbn [check_content]; rewrite Nat.add_0_r; by rewrite Z.leb_refl. }
  destruct fuel as [|fuel]; [lia|]. cbn [check_content].
  assert ((Z.of_nat (length pre + S n) <=? Z.of_nat (length pre)) = false) as -> by (apply Z.leb_gt; lia).
  cbn [seq map]. rewrite Nat2Z.id, lookup_app_r, Nat.sub_diag by lia. cbn [lookup list_lookup load].
  erewrite host_bind_done by reflexivity. unfold is_u32 in *.
  rewrite u32_id by (unfold is_u32; lia). change ((len + _) mod 256) with (content len (length pre)). rewrite Z.eqb_refl. erewrite host_bind_done by reflexivity.
  replace (Z.of_nat (length pre) + 1) with (Z.of_nat (length (pre ++ [content len (length pre)])))
    by (rewrite length_app; simpl; lia).
  replace (length pre + S n)%nat with (length (pre ++ [content len (length pre)]) + n)%nat
    by (rewrite length_app; simpl; lia).
  rewrite cons_middle, app_assoc.
  replace (S (length pre)) with (length (pre ++ [content len (length pre)])) by (rewrite length_app; simpl; lia).
  apply IH; [lia|]. rewrite length_app. simpl. lia.
Qed.

Lemma copy_numbers total seq_num len body : is_u32 total -> is_u32 seq_num -> is_u32 len ->
  let p := numbers total seq_num len ++ body in
  (forall r, copy_long 4 4 p 0 r = (inr total, r)) /\ (forall r, copy_long 4 4 p 4 r = (inr seq_num, r)) /\
  (forall r, copy_long 4 4 p 8 r = (inr len, r)).
Proof.
  intros H1 H2 H3 p. unfold p, numbers. rewrite <-!app_assoc. split_and!; intros r.
  - by apply (copy_long_at 4 []).
  - by apply (copy_long_at 4 (word_bytes (htonl total))).
  - rewrite (app_assoc (word_bytes (htonl total))).
    by apply (copy_long_at 4 (word_bytes (htonl total) ++ word_bytes (htonl seq_num))).
Qed.

(** Where a [long] has eight bytes, the total is copied past its variable. *)
Lemma long_overruns port check_pkt len_off_wire packet r : (26 <= length packet)%nat ->
  ntohs <$> get16 packet 12 = Some port ->
  (ReceiveSinglePacket 8 port check_pkt len_off_wire packet r).1 = inl HOverrun.
Proof.
  intros Hl He. unfold ReceiveSinglePacket. destruct (get16 packet 12) as [e|]; [|done]. injection He as He.
  erewrite host_bind_done by reflexivity. erewrite host_bind_done by reflexivity. rewrite He, Z.eqb_refl. cbn [negb].
  set (r1 := mk_receiver _ _ _ _ _). clearbody r1.
  assert (copy_long 8 4 (drop LIBNET_ETH_H packet) 0 r1 = (inl HOverrun, r1)) as E.
  { unfold copy_long, get_range. rewrite length_drop. unfold LIBNET_ETH_H.
    destruct (Nat.leb_spec (0 + 8) (length packet - 14)); [done|lia]. }
  by rewrite (host_bind_halt _ _ _ _ _ E).
Qed.

Section Received.
Variables (port total max_len snap : Z) (check_pkt : bool).
Hypothesis port_u16 : is_u16 port.
Hypothesis total_int : 0 <= total < 2 ^ 31.
(** A frame whose content is checked is captured whole. *)
Hypothesis snap_enough : 26 <= snap.
Hypothesis snap_whole : check_pkt = true -> max_len <= snap.
Hypothesis max_len_bound : max_len <= 1514.

(** A frame is counted, its number is shown, and the last one ends the transfer. *)
Definition after_frame (seq : Z) (r : receiver) : receiver :=
  mk_receiver total (pkts_rcvd r + 1) (<[port := int32 (default 0 (e_count r !! port) + 1)]> (e_count r))
    (rcv_finished r || (seq =? total)) (lines r ++ [LProgress total seq (seq - (pkts_rcvd r + 1))]).

Lemma receive_frame seq_num f r : is_frame port total max_len check_pkt seq_num f -> 0 <= seq_num <= total ->
  0 <= pkts_rcvd r < total ->
  uncurry (ReceiveSinglePacket 4 port check_pkt) (capture snap f) r = (inr tt, after_frame seq_num r).
Proof using port_u16 total_int snap_enough snap_whole max_len_bound.
  intros (mac & len & body & -> & Hmac & Hlen & Hl & Hc) Hseq Hr.
  assert (len = 26 + Z.of_nat (length body)) as Hbody by (rewrite Hlen, !length_app, length_numbers, Hmac; simpl; lia).
  unfold capture, uncurry. rewrite <-Hlen.
  set (body' := take (Z.to_nat snap - 26) body).
  assert (take (Z.to_nat snap) (mac ++ half_bytes (htons port) ++ numbers total seq_num len ++ body)
          = (mac ++ half_bytes (htons port)) ++ numbers total seq_num len ++ body') as ->.
  { rewrite (app_assoc mac), (app_assoc _ (numbers _ _ _)), take_app_ge
      by (rewrite !length_app, length_numbers, Hmac; simpl; lia).
    rewrite !length_app, length_numbers, Hmac, <-app_assoc. do 2 f_equal. }
  unfold ReceiveSinglePacket.
  assert (get16 ((mac ++ half_bytes (htons port)) ++ numbers total seq_num len ++ body') 12 = Some (htons port)) as ->.
  { unfold get16. rewrite <-app_assoc, !(lookup_app_r mac), Hmac by (rewrite Hmac; lia). cbn.
    pose proof (bswap16_range port). f_equal. unfold htons. Zdivmod. }
  erewrite host_bind_done by reflexivity. unfold ntohs, htons. rewrite bswap16_involutive by done.
  erewrite host_bind_done by reflexivity. rewrite Z.eqb_refl. cbn [negb].
  rewrite drop_app_length' by by rewrite length_app, Hmac.
  set (p := numbers total seq_num len ++ body').
  destruct (copy_numbers total seq_num len body') as (E0 & E4 & E8); try (unfold is_u32; lia).
  fold p in E0, E4, E8. rewrite (host_bind_done _ _ _ _ _ (E0 _)), int32_id by lia.
  erewrite host_bind_done by reflexivity. rewrite (host_bind_done _ _ _ _ _ (E4 _)). cbn [Nat.eqb].
  rewrite int32_id by lia. rewrite (host_bind_done _ _ _ _ _ (E8 _)), Z.eqb_refl.
  erewrite host_bind_done by reflexivity.
  set (r1 := mk_receiver _ _ _ _ _).
  assert ((if check_pkt then check_content (S (length ((mac ++ half_bytes (htons port)) ++ p))) p 12 (u32 (len - 14)) len
           else mret tt) r1 = (inr tt, r1)) as E.
  { destruct check_pkt; [|done]. specialize (Hc eq_refl). specialize (snap_whole eq_refl).
    assert (body' = map (content len) (seq 12 (length body))) as Eb by (unfold body'; rewrite take_ge by lia; done).
    unfold p. rewrite Eb, u32_id by (unfold is_u32; lia).
    apply (check_content_ok (length body) (numbers total seq_num len)); rewrite ?length_numbers; unfold is_u32; try lia.
    rewrite !length_app, length_map, length_seq. lia. }
  rewrite (host_bind_done _ _ _ _ _ E). subst r1. cbn [pkts_rcvd exp_total_pkts e_count rcv_finished lines].
  erewrite host_bind_done by reflexivity. cbn [pkts_rcvd exp_total_pkts e_count rcv_finished lines].
  rewrite int32_id by lia. erewrite host_bind_done by reflexivity. erewrite host_bind_done by reflexivity.
  unfold after_frame, say. destruct (seq_num =? total).
  - by rewrite orb_true_r.
  - by rewrite orb_false_r.
Qed.

(** A packet of another type is only counted. *)
Definition other_type (g : bytes) : Prop := exists e, get16 g 12 = Some e /\ ntohs e <> port.

Lemma receive_other size g r : other_type g ->
  exists counts, uncurry (ReceiveSinglePacket size port check_pkt) (capture snap g) r
  = (inr tt, mk_receiver (exp_total_pkts r) (pkts_rcvd r) counts (rcv_finished r) (lines r)).
Proof using snap_enough.
  intros (e & E & Hne). unfold capture, uncurry, ReceiveSinglePacket.
  assert (get16 (take (Z.to_nat snap) g) 12 = Some e) as ->.
  { rewrite <-E. apply get16_ext. intros k Hk. rewrite lookup_take_lt by lia. done. }
  erewrite host_bind_done by reflexivity. erewrite host_bind_done by reflexivity.
  apply Z.eqb_neq in Hne as ->. eexists. reflexivity.
Qed.

(** Frames arrive in order; some are lost, and other packets come between them.
    [got] are the numbers of those that arrive. *)
Inductive arrives : Z -> list bytes -> list Z -> list bytes -> Prop :=
  | arrives_nil k : arrives k [] [] []
  | arrives_lost k f fs got stream : arrives (k + 1) fs got stream -> arrives k (f :: fs) got stream
  | arrives_got k f fs got stream :
      arrives (k + 1) fs got stream -> arrives k (f :: fs) (k :: got) (f :: stream)
  | arrives_other k fs got g stream :
      other_type g -> arrives k fs got stream -> arrives k fs got (g :: stream).

Definition progress (before : Z) (got : list Z) : list line :=
  imap (fun i q => LProgress total q (q - (before + Z.of_nat i + 1))) got.

Lemma progress_cons before q got :
  progress before (q :: got) = LProgress total q (q - (before + 1)) :: progress (before + 1) got.
Proof.
  unfold progress. cbn [imap]. f_equal; [do 2 f_equal; lia|]. apply imap_ext. intros i x _. simpl. f_equal. lia.
Qed.

Lemma got_at_least k fs got stream q : arrives k fs got stream -> q ∈ got -> k <= q.
Proof.
  intros H. induction H as [| |k f fs got stream H IH|]; intros Hq.
  - by apply not_elem_of_nil in Hq.
  - specialize (IHarrives Hq). lia.
  - apply elem_of_cons in Hq as [->|Hq]; [lia|]. specialize (IH Hq). lia.
  - by apply IHarrives.
Qed.

Lemma no_frames_left k got stream : arrives k [] got stream -> got = [].
Proof. intros H. remember [] as fs eqn:E. induction H; try done. by apply IHarrives. Qed.

Lemma receive_loop_finished l r : rcv_finished r = true ->
  receive_loop 4 port check_pkt l r = (inr (Some l), r).
Proof. intros E. destruct l; cbn [receive_loop]; erewrite host_bind_done by reflexivity; unfold id; by rewrite E. Qed.

(** Where a [long] has eight bytes, the first frame that arrives ends the program. *)
Lemma receive_loop_overruns k fs got stream r : arrives k fs got stream ->
  numbered port total max_len check_pkt k fs -> got <> [] -> rcv_finished r = false ->
  (receive_loop 8 port check_pkt (map (capture snap) stream) r).1 = inl HOverrun.
Proof using port_u16 total_int snap_enough.
  intros Ha. revert r. induction Ha as [k|k f fs got stream Ha IH|k f fs got stream Ha IH|k fs got g stream Hg Ha IH];
    intros r Hnum Hgot Hfin; cbn [map receive_loop] in *.
  - done.
  - by apply IH; [apply Hnum|..].
  - erewrite host_bind_done by reflexivity. unfold id. rewrite Hfin.
    destruct Hnum as [(mac & len & body & -> & Hmac & _) _]. unfold capture.
    set (f := mac ++ _). set (p := take (Z.to_nat snap) f).
    assert (get16 f 12 = Some (htons port)) as Hf.
    { unfold get16, f. rewrite !(lookup_app_r mac), Hmac by (rewrite Hmac; lia). cbn.
      pose proof (bswap16_range port). f_equal. unfold htons. Zdivmod. }
    assert ((ReceiveSinglePacket 8 port check_pkt (Z.of_nat (length f)) p r).1 = inl HOverrun) as E.
    { apply long_overruns.
      - unfold p, f. rewrite length_take, !length_app, length_numbers, Hmac. simpl. lia.
      - replace (get16 p 12) with (get16 f 12).
        + rewrite Hf. cbn. f_equal. by apply bswap16_involutive.
        + symmetry. apply get16_ext. intros j Hj. unfold p. by rewrite lookup_take_lt by lia. }
    destruct (ReceiveSinglePacket _ _ _ _ _ _) as [res r1] eqn:Er. cbn in E. subst res.
    by rewrite (host_bind_halt _ _ _ _ _ Er).
  - erewrite host_bind_done by reflexivity. unfold id. rewrite Hfin.
    destruct (receive_other 8 g r Hg) as [counts E]. unfold uncurry in E. destruct (capture snap g) as [len p].
    rewrite (host_bind_done _ _ _ _ _ E). by apply IH.
Qed.

Lemma receive_loop_spec k fs got stream r : arrives k fs got stream ->
  numbered port total max_len check_pkt k fs -> k + Z.of_nat (length fs) = total + 1 -> 1 <= k ->
  0 <= pkts_rcvd r < k -> rcv_finished r = false ->
  exists res r', receive_loop 4 port check_pkt (map (capture snap) stream) r = (inr res, r') /\
    pkts_rcvd r' = pkts_rcvd r + Z.of_nat (length got) /\
    lines r' = lines r ++ progress (pkts_rcvd r) got /\ (is_Some res <-> total ∈ got).
Proof using port_u16 total_int snap_enough snap_whole max_len_bound.
  intros Ha. revert r. induction Ha as [k|k f fs got stream Ha IH|k f fs got stream Ha IH|k fs got g stream Hg Ha IH];
    intros r Hnum Htot Hk Hr Hfin; cbn [length map receive_loop] in *.
  - exists None, r. erewrite host_bind_done by reflexivity. unfold id. rewrite Hfin. split_and!; try done.
    + lia.
    + by rewrite app_nil_r.
    + by split; [intros [? [=]]|intros ?%not_elem_of_nil].
  - destruct Hnum as [_ Hnum]. apply IH; (done || lia).
  - destruct Hnum as [Hf Hnum]. erewrite host_bind_done by reflexivity. unfold id. rewrite Hfin.
    pose proof (receive_frame k f r Hf ltac:(lia) ltac:(lia)) as E. unfold uncurry in E.
    destruct (capture snap f) as [len p]. rewrite (host_bind_done _ _ _ _ _ E), progress_cons.
    destruct (Z.eqb_spec k total) as [->|Hne].
    + assert (fs = []) as -> by (destruct fs; [done|]; cbn [length] in Htot; lia).
      rewrite (no_frames_left _ _ _ Ha). eexists _, _. split; [|split_and!].
      * apply receive_loop_finished. cbn [after_frame rcv_finished]. by rewrite Z.eqb_refl, orb_true_r.
      * done.
      * done.
      * split; [intros _; by left|by eexists].
    + destruct (IH (after_frame k r)) as (res & r' & E1 & E2 & E3 & E4); cbn [after_frame pkts_rcvd rcv_finished]; try (done || lia).
      { apply Z.eqb_neq in Hne as ->. by rewrite Hfin. }
      exists res, r'. split_and!; [done| | |].
      * rewrite E2. cbn [after_frame pkts_rcvd]. lia.
      * rewrite E3. cbn [after_frame pkts_rcvd lines]. by rewrite <-app_assoc.
      * rewrite E4, elem_of_cons. split; [by right|]. intros [->|H]; [done|done].
  - erewrite host_bind_done by reflexivity. unfold id. rewrite Hfin.
    destruct (receive_other 4 g r Hg) as [counts E]. unfold uncurry in E. destruct (capture snap g) as [len p].
    rewrite (host_bind_done _ _ _ _ _ E).
    exact (IH (mk_receiver (exp_total_pkts r) _ counts _ _) Hnum Htot Hk Hr Hfin).
Qed.
End Received.

(** C37: Where a [long] has four bytes, the receiver of a transfer whose frames arrive
    in order counts those that arrive, shows for each its number and how many are
    missing, and never a difference of content or length; it finishes exactly when
    the last frame arrives, whatever is lost before it and whatever other packets
    come between. Where a [long] has eight bytes, the first frame that arrives is
    copied past the receiver's variables. *)
Theorem transfer_correct {W} `{LibnetLaws W wire} (s : options) w :
  fixed_or_random s -> 0 <= num_pkts s < 2 ^ 31 -> is_u16 (port s) ->
  returns (SendPackets s) (fun _ w' => exists fs,
    wire w' = wire w ++ fs /\ Z.of_nat (length fs) = num_pkts s /\
    forall got stream, arrives (port s) 1 fs got stream ->
      let received := map (capture (snaplen s)) stream in
      (exists res r',
        ReceivePackets 4 (port s) (check_pkt s) received new_receiver = (inr res, r') /\
        pkts_rcvd r' = Z.of_nat (length got) /\ lines r' = progress (num_pkts s) 0 got /\
        (is_Some res <-> num_pkts s ∈ got)) /\
      (got <> [] ->
        (ReceivePackets 8 (port s) (check_pkt s) received new_receiver).1 = inl HOverrun)) w.
Proof.
  intros Hs Hn Hp. pose proof (max_len_range s Hs) as Hmax.
  eapply returns_mono; [by apply SendPackets_frames|]. intros [] w' (fs & Hw & Hl & Hnum).
  exists fs. split_and!; [done..|]. intros got stream Ha. unfold ReceivePackets. cbv zeta.
  assert (26 <= snaplen s) as Hsnap
    by (unfold snaplen, max_len, SNAPLEN in *; destruct (check_pkt s); lia).
  split.
  2: { intros Hgot. erewrite host_bind_done by reflexivity.
       by apply (receive_loop_overruns (port s) (num_pkts s) (max_len s) (snaplen s) (check_pkt s) Hp Hn Hsnap 1 fs got). }
  erewrite host_bind_done by reflexivity.
  set (r0 := mk_receiver _ _ _ _ _).
  destruct (receive_loop_spec (port s) (num_pkts s) (max_len s) (snaplen s) (check_pkt s) Hp Hn) with
    (k := 1) (fs := fs) (got := got) (stream := stream) (r := r0) as (res & r' & E1 & E2 & E3 & E4);
    try (done || lia); cbn [r0 pkts_rcvd]; try lia.
  - unfold snaplen, max_len. intros ->. lia.
  - by exists res, r'.
Qed.

