(* ===== verification/RegTools.v ===== *)
(** Small tools on the register library: reading and writing registers by address
    (lib/C/reg_access), showing the device information (lib/C/tools/nf_info), and
    the control of the event capture (router_buffer_sizing/sw/monitor_ctrl.c). *)

From S2P Require Import Prelude Words Bytes CStrings CNumbers HostRegs DevInfo Download.
From Stdlib Require Import Ascii.
Local Open Scope Z_scope.

(** ** Options that all the tools have

    [getopt] answers "?" for an option it does not know, and leaves [optarg] a
    null pointer. *)

Definition with_device_name (n : string) (d : nf2device) : nf2device :=
  mk_nf2device n (dev_fd d) (net_iface d) (server_ip_addr d) (server_port_num d).
Definition with_server_port (p : Z) (d : nf2device) : nf2device :=
  mk_nf2device (device_name d) (dev_fd d) (net_iface d) (server_ip_addr d) p.
Definition with_server_addr (a : string) (d : nf2device) : nf2device :=
  mk_nf2device (device_name d) (dev_fd d) (net_iface d) (overwrite_addr (server_ip_addr d) a)
    (server_port_num d).

Definition default_device : nf2device := mk_nf2device "nf2c0" 0 0 "" 0.

(** The options of regread and regwrite. In regread the case of "?" goes on in
    that of -p. *)
Definition reg_option {W} (reading : bool) (c : ascii) (optarg : string) (d : nf2device)
    : host W nf2device :=
  match c with
  | "i"%char => mret (with_device_name optarg d)
  | "p"%char => mret (with_server_port (int32 (strtol optarg 0)) d)
  | "a"%char =>
      if (MAX_IPADDR_LEN <? String.length optarg)%nat then halted HOverrun
      else mret (with_server_addr optarg d)
  | "?"%char => if reading then halted HNull else halted (HExit 1)
  | _ => halted (HExit 1)
  end.

Fixpoint reg_options {W} (reading : bool) (opts : list (ascii * string)) (d : nf2device)
    : host W nf2device :=
  match opts with
  | [] => mret d
  | (c, optarg) :: opts => d ← reg_option reading c optarg d; reg_options reading opts d
  end.

(** A number of the command line: hexadecimal after "0x" or "0X"; a variable keeps
    its value when there is no number. *)
Definition arg_number (s : string) : option Z :=
  match chars s with
  | "0"%char :: "x"%char :: l | "0"%char :: "X"%char :: l => scan_hex_num l
  | l => scan_unsigned_num l
  end.
Definition scan_into {W} (s : string) (v : option Z) : host W Z :=
  match arg_number s, v with
  | Some n, _ | None, Some n => mret n
  | None, None => halted HUnset
  end.

Section Tools.
Context {W : Type} `{RegLib W} `{!Stack W}.

(** The device is opened the same way by every tool. *)
Definition open_device (d : nf2device) : host W nf2device :=
  c ← check_iface d;
  if negb (c.1 =? 0) then halted (HExit 1)
  else o ← openDescriptor c.2; if negb (o.1 =? 0) then halted (HExit 1) else mret o.2.

(** *** regread.c

    The lines that are printed, an address and a value each. *)

Fixpoint read_args (nf2 : nf2device) (args : list string) (addr : option Z) (value : Z)
    : host W (list (Z * Z)) :=
  match args with
  | [] => mret []
  | arg :: args =>
      addr ← scan_into arg addr;
      r ← readReg nf2 addr value;
      rest ← read_args nf2 args (Some addr) r.2;
      mret ((addr, r.2) :: rest)
  end.

Definition readRegisters (nf2 : nf2device) (args : list string) : host W (list (Z * Z)) :=
  if (length args =? 0)%nat then halted (HExit 1)
  else v ← ask junk; read_args nf2 args None v.

Definition regread_main (opts : list (ascii * string)) (args : list string) : host W (list (Z * Z)) :=
  d ← reg_options true opts default_device;
  (if (length args =? 0)%nat then halted (HExit 1) else mret tt);;
  nf2 ← open_device d;
  printed ← readRegisters nf2 args;
  _ ← closeDescriptor nf2;
  mret printed.

(** *** regwrite.c *)

Fixpoint write_args (nf2 : nf2device) (args : list string) (addr value : option Z)
    : host W (list (Z * Z)) :=
  match args with
  | a :: v :: args =>
      addr ← scan_into a addr;
      value ← scan_into v value;
      _ ← writeReg nf2 addr value;
      rest ← write_args nf2 args (Some addr) (Some value);
      mret ((addr, value) :: rest)
  | _ => mret []
  end.

Definition writeRegisters (nf2 : nf2device) (args : list string) : host W (list (Z * Z)) :=
  if (length args =? 0)%nat then halted (HExit 1)
  else if Nat.odd (length args) then halted (HExit 1)
  else write_args nf2 args None None.

Definition regwrite_main (opts : list (ascii * string)) (args : list string) : host W (list (Z * Z)) :=
  d ← reg_options false opts default_device;
  nf2 ← open_device d;
  printed ← writeRegisters nf2 args;
  _ ← closeDescriptor nf2;
  mret printed.

(** *** nf_info *)

(** [printf] of a string that is not a format: a conversion takes an argument
    that was never passed. *)
Fixpoint printf_alone (l : list ascii) : host (dev_info * W) (list ascii) :=
  match l with
  | "%"%char :: "%"%char :: l => rest ← printf_alone l; mret ("%"%char :: rest)
  | "%"%char :: _ => halted HOverrun
  | c :: l => rest ← printf_alone l; mret (c :: rest)
  | [] => mret []
  end.

Definition display_info (nf2 : nf2device) : host (dev_info * W) (list ascii) :=
  s ← getDeviceInfoStr nf2; printf_alone (chars s).

Fixpoint info_options {V} (opts : list (ascii * string)) (d : nf2device) : host V nf2device :=
  match opts with
  | [] => mret d
  | ("v"%char, _) :: opts => info_options opts d
  | ("i"%char, optarg) :: opts => info_options opts (with_device_name optarg d)
  | _ => halted (HExit 1)
  end.

Definition nf_info_main (opts : list (ascii * string)) : host (dev_info * W) (list ascii) :=
  d ← info_options opts default_device;
  nf2 ← world (open_device d);
  nf2_read_info nf2;;
  printed ← display_info nf2;
  _ ← world (closeDescriptor nf2);
  mret printed.
End Tools.

(** ** The control of the event capture: monitor_ctrl.c, evts.h *)

Definition EVT_CAP_ENABLE_CAPTURE_REG : Z := 0x2000300.
Definition EVT_CAP_SEND_PKT_REG : Z := 0x2000304.
Definition EVT_CAP_DST_MAC_HI_REG : Z := 0x2000308.
Definition EVT_CAP_DST_MAC_LO_REG : Z := 0x200030c.
Definition EVT_CAP_SRC_MAC_HI_REG : Z := 0x2000310.
Definition EVT_CAP_SRC_MAC_LO_REG : Z := 0x2000314.
Definition EVT_CAP_ETHERTYPE_REG : Z := 0x2000318.
Definition EVT_CAP_IP_DST_REG : Z := 0x200031c.
Definition EVT_CAP_IP_SRC_REG : Z := 0x2000320.
Definition EVT_CAP_UDP_SRC_PORT_REG : Z := 0x2000330.
Definition EVT_CAP_UDP_DST_PORT_REG : Z := 0x2000334.
Definition EVT_CAP_OUTPUT_PORTS_REG : Z := 0x2000338.
Definition EVT_CAP_RESET_TIMERS_REG : Z := 0x200033c.
Definition EVT_CAP_MONITOR_MASK_REG : Z := 0x2000324.
Definition EVT_CAP_TIMER_RESOLUTION_REG : Z := 0x2000340.
Definition EVT_CAP_NUM_EVT_PKTS_SENT_REG : Z := 0x2000344.
Definition EVT_CAP_NUM_EVTS_SENT_REG : Z := 0x2000348.
Definition EVT_CAP_NUM_EVTS_DROPPED_REG : Z := 0x200032c.
Definition EVT_CAP_SIGNAL_ID_MASK_REG : Z := 0x2000328.

(** The variables an option changes. *)
Record ctrl := mk_ctrl {
  c_nf2 : nf2device;
  dst_mac_lo32 : Z;
  dst_mac_hi16 : Z;
  src_mac_lo32 : Z;
  src_mac_hi16 : Z;
  load_default : bool;
  print_stat : bool
}.

Definition init_ctrl (d : nf2device) : ctrl :=
  mk_ctrl d 0xccddeeff 0xaabb 0x33445566 0x1122 false false.

(** The last eight of the twelve digits of an address, and the first four. *)
Definition getMACLow32 {W} (s : string) : host W Z :=
  if negb (String.length s =? 12)%nat then halted (HExit 1)
  else match scan_hex_num (drop 4 (chars s)) with Some n => mret n | None => halted (HExit 1) end.

Definition getMACHigh16 {W} `{!Stack W} (s : string) : host W Z :=
  if negb (String.length s =? 12)%nat then halted (HExit 1)
  else num ← ask junk; mret (default num (scan_hex_num (take 4 (chars s)))).

Definition scan_0x_or_exit {W} (s : string) : host W Z :=
  match scan_0x s with Some n => mret n | None => halted (HExit 1) end.

Section Monitor.
Context {W : Type} `{RegLib W} `{!Stack W}.

Definition write (nf2 : nf2device) (r : Z * Z) : host W unit := _ ← writeReg nf2 r.1 r.2; mret tt.
Fixpoint writes (nf2 : nf2device) (rs : list (Z * Z)) : host W unit :=
  match rs with [] => mret tt | r :: rs => write nf2 r;; writes nf2 rs end.

(** The cases of the switch over the options. *)
Definition ctrl_option (c : ascii) (optarg : string) (s : ctrl) : host W ctrl :=
  let nf2 := c_nf2 s in
  match c with
  | "p"%char => mret (mk_ctrl nf2 (dst_mac_lo32 s) (dst_mac_hi16 s) (src_mac_lo32 s) (src_mac_hi16 s)
                        (load_default s) true)
  | "e"%char =>
      temp ← scan_0x_or_exit optarg;
      write nf2 (EVT_CAP_ETHERTYPE_REG, Z.land temp 0xffff);; mret s
  | "n"%char => write nf2 (EVT_CAP_SEND_PKT_REG, 1);; write nf2 (EVT_CAP_SEND_PKT_REG, 0);; mret s
  | "b"%char => write nf2 (EVT_CAP_ENABLE_CAPTURE_REG, 1);; mret s
  | "B"%char => write nf2 (EVT_CAP_ENABLE_CAPTURE_REG, 0);; mret s
  | "d"%char => mret (mk_ctrl nf2 (dst_mac_lo32 s) (dst_mac_hi16 s) (src_mac_lo32 s) (src_mac_hi16 s)
                        true (print_stat s))
  | "s"%char =>
      temp ← scan_0x_or_exit optarg; write nf2 (EVT_CAP_OUTPUT_PORTS_REG, temp);; mret s
  | "c"%char =>
      temp ← scan_0x_or_exit optarg; write nf2 (EVT_CAP_SIGNAL_ID_MASK_REG, temp);; mret s
  | "r"%char =>
      write nf2 (EVT_CAP_RESET_TIMERS_REG, 1);; write nf2 (EVT_CAP_RESET_TIMERS_REG, 0);; mret s
  | "D"%char =>
      lo ← getMACLow32 optarg;
      hi ← getMACHigh16 optarg;
      write nf2 (EVT_CAP_DST_MAC_HI_REG, hi);; write nf2 (EVT_CAP_DST_MAC_LO_REG, lo);;
      mret (mk_ctrl nf2 lo hi (src_mac_lo32 s) (src_mac_hi16 s) (load_default s) (print_stat s))
  | "S"%char =>
      lo ← getMACLow32 optarg;
      hi ← getMACHigh16 optarg;
      write nf2 (EVT_CAP_SRC_MAC_HI_REG, hi);; write nf2 (EVT_CAP_SRC_MAC_LO_REG, lo);;
      mret (mk_ctrl nf2 (dst_mac_lo32 s) (dst_mac_hi16 s) lo hi (load_default s) (print_stat s))
  | "v"%char => mret s
  | "i"%char =>
      _ ← closeDescriptor nf2;
      nf2 ← open_device (with_device_name optarg nf2);
      mret (mk_ctrl nf2 (dst_mac_lo32 s) (dst_mac_hi16 s) (src_mac_lo32 s) (src_mac_hi16 s)
              (load_default s) (print_stat s))
  | _ => halted (HExit 1)
  end.

Fixpoint ctrl_options (opts : list (ascii * string)) (s : ctrl) : host W ctrl :=
  match opts with
  | [] => mret s
  | (c, optarg) :: opts => s ← ctrl_option c optarg s; ctrl_options opts s
  end.

(** The registers -d writes, with the addresses of earlier options. *)
Definition default_values (s : ctrl) : list (Z * Z) :=
  [(EVT_CAP_DST_MAC_HI_REG, dst_mac_hi16 s); (EVT_CAP_DST_MAC_LO_REG, dst_mac_lo32 s);
   (EVT_CAP_SRC_MAC_HI_REG, src_mac_hi16 s); (EVT_CAP_SRC_MAC_LO_REG, src_mac_lo32 s);
   (EVT_CAP_ETHERTYPE_REG, 0x9999); (EVT_CAP_IP_DST_REG, 0x004488cc);
   (EVT_CAP_IP_SRC_REG, 0x2266aaee); (EVT_CAP_UDP_SRC_PORT_REG, 9955);
   (EVT_CAP_UDP_DST_PORT_REG, 9988); (EVT_CAP_OUTPUT_PORTS_REG, 0x40);
   (EVT_CAP_MONITOR_MASK_REG, 0xf); (EVT_CAP_TIMER_RESOLUTION_REG, 0);
   (EVT_CAP_SIGNAL_ID_MASK_REG, 0xffbf); (EVT_CAP_ENABLE_CAPTURE_REG, 1)].

(** The registers -p shows. *)
Definition status_registers : list Z :=
  [EVT_CAP_ENABLE_CAPTURE_REG; EVT_CAP_SEND_PKT_REG; EVT_CAP_DST_MAC_HI_REG; EVT_CAP_DST_MAC_LO_REG;
   EVT_CAP_SRC_MAC_HI_REG; EVT_CAP_SRC_MAC_LO_REG; EVT_CAP_ETHERTYPE_REG; EVT_CAP_IP_DST_REG;
   EVT_CAP_IP_SRC_REG; EVT_CAP_UDP_SRC_PORT_REG; EVT_CAP_UDP_DST_PORT_REG; EVT_CAP_OUTPUT_PORTS_REG;
   EVT_CAP_RESET_TIMERS_REG; EVT_CAP_MONITOR_MASK_REG; EVT_CAP_TIMER_RESOLUTION_REG;
   EVT_CAP_SIGNAL_ID_MASK_REG; EVT_CAP_NUM_EVT_PKTS_SENT_REG; EVT_CAP_NUM_EVTS_SENT_REG;
   EVT_CAP_NUM_EVTS_DROPPED_REG].

Fixpoint show_registers (nf2 : nf2device) (regs : list Z) (val : Z) : host W (list (Z * Z)) :=
  match regs with
  | [] => mret []
  | a :: regs => r ← readReg nf2 a val; rest ← show_registers nf2 regs r.2; mret ((a, r.2) :: rest)
  end.

Definition monitor_main (opts : list (ascii * string)) : host W (list (Z * Z)) :=
  val ← ask junk;
  nf2 ← open_device default_device;
  s ← ctrl_options opts (init_ctrl nf2);
  (if load_default s then writes (c_nf2 s) (default_values s) else mret tt);;
  if print_stat s then show_registers (c_nf2 s) status_registers val else mret [].
End Monitor.

(** ** What the tools do to the card *)

(** A number typed in hexadecimal. *)
Definition hex_arg (n : Z) : string := implode ("0" :: "x" :: map hex_char (hex_digits 8 n))%char.

Lemma arg_number_hex n : is_u32 n -> arg_number (hex_arg n) = Some n.
Proof.
  intros Hn. unfold arg_number, hex_arg. rewrite chars_implode.
  apply scan_hex_text; unfold is_u32 in *; [lia|lia|lia].
Qed.

Section Card.
Context {W C : Type} `{RegLib W} `{!Stack W} `{RegCard C} {card : W -> C}.
Context {ready : nf2device -> W -> Prop} `{!RegLaws card ready}.

(** Registers read and written one after another. *)
Fixpoint card_reads (addrs : list Z) (c : C) : list (Z * Z) * C :=
  match addrs with
  | [] => ([], c)
  | a :: addrs =>
      let '(v, c) := reg_read a c in
      let '(rest, c) := card_reads addrs c in ((a, v) :: rest, c)
  end.
Definition card_writes (rs : list (Z * Z)) (c : C) : C := foldl (fun c r => reg_write r.1 r.2 c) c rs.

Lemma reads_correct nf2 addrs v w : Forall mapped addrs -> ready nf2 w ->
  returns (show_registers nf2 addrs v) (fun printed w' =>
    printed = (card_reads addrs (card w)).1 /\ card w' = (card_reads addrs (card w)).2 /\ ready nf2 w') w.
Proof.
  intros Hm. revert v w. induction Hm as [|a addrs Ha _ IH]; intros v w Hr; [by apply (returns_done _ _ _ _ _ eq_refl)|].
  cbn [show_registers card_reads]. apply returns_seq.
  eapply returns_mono; [by apply (readReg_law (RegLaws := RegLaws0))|]. intros r w1 (-> & Hc & Hr1). cbn [snd].
  apply returns_seq. eapply returns_mono; [by apply IH|]. intros rest w2 (-> & Hc2 & Hr2).
  apply (returns_done _ _ _ _ _ eq_refl). rewrite Hc2, Hc. destruct (reg_read a (card w)) as [x c]. cbn [fst snd].
  by destruct (card_reads addrs c).
Qed.

Lemma read_args_shows nf2 addrs addr v w : Forall is_u32 addrs ->
  read_args nf2 (map hex_arg addrs) addr v w = show_registers nf2 addrs v w.
Proof.
  intros Ha. revert addr v w. induction Ha as [|a addrs Ha _ IH]; intros addr v w; [done|].
  cbn [map read_args show_registers]. unfold scan_into. rewrite arg_number_hex by done.
  erewrite host_bind_done by reflexivity. unfold mbind, host_bind.
  destruct (readReg nf2 a v w) as [[h|r] w1]; [done|]. rewrite IH. done.
Qed.

Lemma writes_correct nf2 rs w : Forall (fun r => mapped r.1 /\ is_u32 r.2) rs -> ready nf2 w ->
  returns (writes nf2 rs) (fun _ w' => card w' = card_writes rs (card w) /\ ready nf2 w') w.
Proof.
  intros Hm. revert w. induction Hm as [|[a v] rs [Ha Hv] _ IH]; intros w Hr; [by apply (returns_done _ _ _ _ _ eq_refl)|].
  cbn [writes]. apply returns_seq. unfold write. apply returns_seq.
  eapply returns_mono; [by apply (writeReg_law (RegLaws := RegLaws0))|]. intros r w1 (_ & Hc & Hr1).
  apply (returns_done _ _ _ _ _ eq_refl). eapply returns_mono; [by apply IH|]. intros [] w2 (Hc2 & Hr2).
  split; [|done]. by rewrite Hc2, Hc.
Qed.

Lemma write_args_writes nf2 rs addr value w : Forall (fun r => is_u32 r.1 /\ is_u32 r.2) rs ->
  write_args nf2 (rs ≫= fun r => [hex_arg r.1; hex_arg r.2]) addr value w = (writes nf2 rs;; mret rs) w.
Proof.
  intros Ha. revert addr value w. induction Ha as [|[a v] rs [Ha Hv] _ IH]; intros addr value w; [done|].
  cbn [mbind list_bind app write_args writes fst snd]. unfold scan_into. rewrite !arg_number_hex by done.
  erewrite host_bind_done by reflexivity. erewrite host_bind_done by reflexivity.
  unfold write, mbind, host_bind. cbn [fst snd].
  destruct (writeReg nf2 a v w) as [[h|r] w1]; [done|]. cbn [mret host_ret]. rewrite IH.
  unfold mbind, host_bind. by destruct (writes nf2 rs w1) as [[h|[]] w2].
Qed.

(** A text without a percent sign is printed as it is. *)
Lemma printf_alone_plain l (w : dev_info * W) : "%"%char ∉ l -> printf_alone l w = (inr l, w).
Proof.
  induction l as [|c l IH]; intros Hn; [done|]. apply not_elem_of_cons in Hn as [Hc Hn].
  assert (printf_alone (c :: l) = (rest ← printf_alone l; mret (c :: rest) : host (dev_info * W) (list ascii))) as ->
    by (destruct c as [[] [] [] [] [] [] [] []]; done).
  by rewrite (host_bind_done _ _ _ _ _ (IH Hn)).
Qed.

(** The registers that are read are printed with what the card answers, in the
    order they were asked for. *)
Theorem readRegisters_correct nf2 addrs w : addrs <> [] -> Forall (fun a => is_u32 a /\ mapped a) addrs ->
  ready nf2 w ->
  returns (readRegisters nf2 (map hex_arg addrs)) (fun printed w' =>
    printed = (card_reads addrs (card w)).1 /\ card w' = (card_reads addrs (card w)).2 /\ ready nf2 w') w.
Proof.
  intros Hn Ha Hr. unfold readRegisters. rewrite length_map. destruct addrs as [|a addrs]; [done|].
  cbn [length Nat.eqb]. apply returns_seq, (returns_done _ _ _ _ _ eq_refl). unfold returns.
  rewrite read_args_shows by (eapply Forall_impl; [exact Ha|by intros ? []]).
  apply reads_correct; [|done]. eapply Forall_impl; [exact Ha|by intros ? []].
Qed.

(** The values that are written are those on the command line, in their order. *)
Theorem writeRegisters_correct nf2 rs w : rs <> [] ->
  Forall (fun r => is_u32 r.1 /\ is_u32 r.2 /\ mapped r.1) rs -> ready nf2 w ->
  returns (writeRegisters nf2 (rs ≫= fun r => [hex_arg r.1; hex_arg r.2])) (fun printed w' =>
    printed = rs /\ card w' = card_writes rs (card w) /\ ready nf2 w') w.
Proof.
  intros Hn Ha Hr. unfold writeRegisters.
  assert (length (rs ≫= fun r => [hex_arg r.1; hex_arg r.2]) = (2 * length rs)%nat) as ->.
  { clear. induction rs as [|r rs IH]; [done|]. cbn [mbind list_bind]. rewrite length_app, IH. simpl. lia. }
  destruct (Nat.eqb_spec (2 * length rs) 0) as [E|_]; [destruct rs; [done|simpl in E; lia]|].
  rewrite Nat.odd_mul. cbn [Nat.odd Nat.even negb andb]. unfold returns.
  rewrite write_args_writes by (eapply Forall_impl; [exact Ha|intros ? (? & ? & ?); done]).
  change (returns (writes nf2 rs;; mret rs) (fun printed w' =>
    printed = rs /\ card w' = card_writes rs (card w) /\ ready nf2 w') w).
  apply returns_seq. eapply returns_mono; [apply writes_correct; [|done]|].
  - eapply Forall_impl; [exact Ha|intros ? (? & ? & ?); done].
  - intros [] w' [Hc Hr']. by apply (returns_done _ _ _ _ _ eq_refl).
Qed.
End Card.

(** *** The configuration of the event capture *)

(** A hardware address as an argument: its first two bytes and its last four. *)
Definition mac_arg (hi lo : Z) : string :=
  implode (map hex_char (hex_digits 4 hi) ++ map hex_char (hex_digits 8 lo)).

Lemma string_length_chars s : String.length s = length (chars s).
Proof. induction s as [|c s IH]; [done|]. cbn [String.length chars length]. by rewrite IH. Qed.

Lemma mac_parsed {W} `{!Stack W} hi lo (w : W) : is_u16 hi -> is_u32 lo ->
  getMACLow32 (mac_arg hi lo) w = (inr lo, w) /\ getMACHigh16 (mac_arg hi lo) w = (inr hi, w).
Proof.
  intros Hh Hl. unfold getMACLow32, getMACHigh16.
  assert (length (map hex_char (hex_digits 4 hi)) = 4%nat) as Hlen by by rewrite length_map, hex_digits_length.
  rewrite string_length_chars. unfold mac_arg. rewrite !chars_implode.
  rewrite length_app, Hlen, length_map, hex_digits_length. cbn [Nat.add Nat.eqb negb].
  rewrite drop_app_length', take_app_length' by by rewrite Hlen.
  rewrite !scan_hex_text by (unfold is_u16, is_u32 in *; lia). split; [done|].
  by erewrite host_bind_done by reflexivity.
Qed.

Section Capture.
Context {W C : Type} `{RegLib W} `{!Stack W} `{RegCard C} {card : W -> C}.
Context {ready : nf2device -> W -> Prop} `{!RegLaws card ready}.
(** The registers of the capture that are set hold what was last written to them. *)
Definition is_set (a : Z) : Prop := a ∈ map fst (default_values (init_ctrl default_device)).
Hypothesis evt_mapped : forall a, is_set a -> mapped a.
Hypothesis evt_holds : forall a v b c, is_set a -> is_set b ->
  (reg_read b (reg_write a v c)).1 = if b =? a then v else (reg_read b c).1.

Lemma default_values_set s : Forall (fun r => is_set r.1) (default_values s).
Proof. apply Forall_forall. intros r Hr. unfold is_set. apply (list_elem_of_fmap_2 fst) in Hr. exact Hr. Qed.

Lemma writes_hold rs c a v : Forall (fun r => is_set r.1) rs -> NoDup (map fst rs) -> (a, v) ∈ rs ->
  (reg_read a (card_writes rs c)).1 = v.
Proof using evt_holds.
  assert (is_set a -> forall rs c, Forall (fun r => is_set r.1) rs -> a ∉ map fst rs ->
    (reg_read a (card_writes rs c)).1 = (reg_read a c).1) as Hother.
  { clear - evt_holds. intros Ha rs c Hs. revert c.
    induction Hs as [|[b x] rs Hb _ IH]; intros c Hn; [done|]. cbn [map fst] in *.
    apply not_elem_of_cons in Hn as [Hne Hn]. unfold card_writes in *. cbn [foldl fst snd].
    rewrite IH, evt_holds by done. by apply Z.eqb_neq in Hne as ->. }
  intros Hs. revert c. induction Hs as [|[b x] rs Hb Hs IH]; intros c Hd Hin; [by apply elem_of_nil in Hin|].
  cbn [map fst] in *. apply NoDup_cons in Hd as [Hn Hd]. unfold card_writes in *. cbn [foldl fst snd].
  apply elem_of_cons in Hin as [[= -> ->]|Hin]; [|by apply IH].
  rewrite Hother, evt_holds, Z.eqb_refl by done. done.
Qed.

(** After -D, -S and -d the capture has the given addresses, and the defaults
    in all its other registers. *)
Theorem capture_configured nf2 dhi dlo shi slo w :
  is_u16 dhi -> is_u32 dlo -> is_u16 shi -> is_u32 slo -> ready nf2 w ->
  returns (s ← ctrl_options [("D", mac_arg dhi dlo); ("S", mac_arg shi slo); ("d", ""%string)]%char (init_ctrl nf2);
           (if load_default s then writes (c_nf2 s) (default_values s) else mret tt))
    (fun _ w' => ready nf2 w' /\
       forall a v, (a, v) ∈ default_values (mk_ctrl nf2 dlo dhi slo shi true false) ->
         (reg_read a (card w')).1 = v) w.
Proof using evt_mapped evt_holds RegLaws0.
  intros Hdh Hdl Hsh Hsl Hr. set (s := mk_ctrl nf2 dlo dhi slo shi true false).
  pose proof (default_values_set s) as Hm. cbn [ctrl_options].
  assert (forall a v w, In a (map fst (default_values s)) -> is_u32 v -> ready nf2 w ->
    returns (write nf2 (a, v)) (fun _ w' => ready nf2 w') w) as Hw.
  { intros a v w0 Ha Hv Hr0. unfold write. apply returns_seq. cbn [fst snd].
    eapply returns_mono; [apply (writeReg_law (RegLaws := RegLaws0)); [done| |done]|].
    - apply evt_mapped. by apply list_elem_of_In.
    - intros r w1 (_ & _ & H1). by apply (returns_done _ _ _ _ _ eq_refl). }
  assert (forall x, is_u16 x -> is_u32 x) as H16 by (unfold is_u16, is_u32; lia).
  apply returns_seq, returns_seq. cbn [ctrl_option].
  apply returns_seq, (returns_done _ _ _ _ _ (proj1 (mac_parsed dhi dlo w Hdh Hdl))).
  apply returns_seq, (returns_done _ _ _ _ _ (proj2 (mac_parsed dhi dlo w Hdh Hdl))).
  apply returns_seq. eapply returns_mono; [apply Hw; [by left|auto|done]|]. intros [] w1 R1.
  apply returns_seq. eapply returns_mono; [apply Hw; [right; by left|auto|done]|]. intros [] w2 R2.
  apply (returns_done _ _ _ _ _ eq_refl), returns_seq. cbn [ctrl_option].
  apply returns_seq, (returns_done _ _ _ _ _ (proj1 (mac_parsed shi slo w2 Hsh Hsl))).
  apply returns_seq, (returns_done _ _ _ _ _ (proj2 (mac_parsed shi slo w2 Hsh Hsl))).
  apply returns_seq. eapply returns_mono; [apply Hw; [do 2 right; by left|auto|done]|]. intros [] w3 R3.
  apply returns_seq. eapply returns_mono; [apply Hw; [do 3 right; by left|auto|done]|]. intros [] w4 R4.
  apply (returns_done _ _ _ _ _ eq_refl), returns_seq, (returns_done _ _ _ _ _ eq_refl).
  apply (returns_done _ _ _ _ _ eq_refl). fold s. cbn [load_default c_nf2 dst_mac_lo32 dst_mac_hi16 src_mac_lo32 src_mac_hi16 print_stat init_ctrl].
  fold s. eapply returns_mono; [apply writes_correct; [|done]|].
  - apply Forall_and. split; [eapply Forall_impl; [exact Hm|intros r; apply evt_mapped]|]. unfold s, default_values. cbn.
    repeat (apply Forall_cons_2; [cbn [snd]; unfold is_u16, is_u32 in *; lia|]). apply Forall_nil_2.
  - intros [] w5 [Hc R5]. split; [done|]. intros a v Hin. rewrite Hc. apply writes_hold; [done| |done].
    apply (bool_decide_unpack (NoDup (map fst (default_values s)))). by vm_compute.
Qed.
End Capture.
