(* ===== verification/ToolWitnesses.v ===== *)
(** A packet of events, a wire and a card of registers, on which the hypotheses of
    the theorems about the tools hold. *)

From S2P Require Import Prelude Words Bytes CStrings CNumbers HostRegs Events SendPkts.
From Stdlib Require Import Ascii.
Local Open Scope Z_scope.

(** ** Two cycles of a capture *)

Definition two_cycles : list cycle :=
  [mk_cycle true (Some (2, 24)) None None; mk_cycle false None (Some (2, 24)) (Some (5, 190))].
Definition event_header : bytes := replicate 12 0 ++ [0x99; 0x99] ++ replicate 98 0.
Definition two_cycles_items : list item := record_cycles 7 255 0 false 524287 two_cycles.
Definition two_cycles_packet : bytes := event_header ++ big_endian (words_of two_cycles_items) ++ [].

Example two_cycles_recorded : two_cycles_items =
  [IStamp 524287; IEvent Store 2 24 524287; IStamp 524288; IEvent Remove 2 24 524288; IEvent Drop 5 190 524288].
Proof. reflexivity. Qed.

Lemma events_read_back_witness :
  exists words, let m' := foldl (show_item true) (add_line (LHeader words 140) no_events) two_cycles_items in
    Events.ReceiveSinglePacket true false CAP_ETHERTYPE 140 two_cycles_packet no_events
    = (inr tt, add_line (LTotals (store_events m') (drop_events m') (remove_events m')) m') /\
    forall k q n, 0 <= q -> events_of k no_events !! Z.to_nat q = Some n -> 0 <= n ->
      n + occurrences k q two_cycles_items < 2 ^ 31 ->
      events_of k m' !! Z.to_nat q = Some (n + occurrences k q two_cycles_items).
Proof.
  apply (events_read_back 7 255 0 false 524287 (mk_cycle true (Some (2, 24)) None None)
    [mk_cycle false None (Some (2, 24)) (Some (5, 190))] true CAP_ETHERTYPE event_header [] 140 no_events);
    try (reflexivity || (vm_compute; by split) || lia).
  repeat (apply Forall_cons_2; [vm_compute; intuition congruence|]). apply Forall_nil_2.
Defined.

(** ** A wire *)

(** The frames on the wire, the frame that is being built, and a seed. *)
Record net := mk_net { on_wire : list bytes; pending : bytes; seed : Z }.

#[local] Instance net_link : Libnet net := {|
  libnet_clear_packet := change (fun w => mk_net (on_wire w) [] (seed w));
  libnet_build_ethernet DA SA type payload := fun w =>
    (inr 0, mk_net (on_wire w) (DA ++ SA ++ half_bytes (htons type) ++ payload) (seed w));
  libnet_write := fun w =>
    (inr (Z.of_nat (length (pending w))), mk_net (on_wire w ++ [pending w]) [] (seed w));
  srand48_time := mret tt;
  lrand48 := fun w => (inr (Z.abs (seed w)), mk_net (on_wire w) (pending w) (seed w + 1));
  millisec_sleep _ := mret tt
|}.

#[local] Instance net_laws : LibnetLaws on_wire.
Proof. split; intros; by cbn; try (split; [lia|done]). Qed.

Definition three_packets : options := mk_options "nf2c0" 3 true 0 0x1234 64 true 3 0.
Definition quiet_net : net := mk_net [] [] 0.

Lemma transfer_correct_witness :
  returns (SendPackets three_packets) (fun _ w' => exists fs,
    on_wire w' = on_wire quiet_net ++ fs /\ Z.of_nat (length fs) = num_pkts three_packets /\
    forall got stream, arrives (port three_packets) 1 fs got stream ->
      let received := map (capture (snaplen three_packets)) stream in
      (exists res r',
        ReceivePackets 4 (port three_packets) (check_pkt three_packets) received new_receiver = (inr res, r') /\
        pkts_rcvd r' = Z.of_nat (length got) /\ lines r' = progress (num_pkts three_packets) 0 got /\
        (is_Some res <-> num_pkts three_packets ∈ got)) /\
      (got <> [] ->
        (ReceivePackets 8 (port three_packets) (check_pkt three_packets) received new_receiver).1
        = inl HOverrun)) quiet_net.
Proof.
  apply (transfer_correct (wire := on_wire) three_packets quiet_net).
  - right. vm_compute. by split.
  - vm_compute. by split.
  - vm_compute. by split.
Defined.
