(* ===== verification/UserCard.v ===== *)
(** The character device of a user card (lib/C/kernel/nf2_user.c). The Makefile does
    not build this file, and the probe of the driver no longer calls it; it is
    modelled as written, in the style of the network devices (Card.v); UserTheorems.v
    shows why it could not have worked. *)

From S2P Require Import Prelude Words Bytes Card CardDriver CardProbe.
Local Open Scope Z_scope.

Definition ERESTARTSYS : Z := 512.
Definition EAGAIN : Z := 11.

(** ** State: nf2kernel.h

    The pool of received packets is a heap of cells; [u_rx_buf_rd_pos] is a cell
    and an offset into its data, [None] before it is first assigned. *)

Record user_packet := mk_upacket { up_next : nat; up_len : Z; up_data : bytes }.
Record user_txbuff := mk_utx { ut_buff : bytes; ut_len : Z }.

Record user_card := mk_user {
  u_is_ctrl : bool;
  u_open_count : Z;
  u_rx_wr_pos : Z;
  u_rx_rd_pos : Z;
  u_rx_buf_rd_pos : option (nat * Z);
  u_cells : gmap nat user_packet;
  u_ppool : option nat;
  u_rd_pool : option nat;
  u_wr_pool : option nat;
  u_txbuff : list user_txbuff;
  u_wr_txbuff : Z;
  u_rd_txbuff : Z;
  u_free_txbuffs : Z;
  u_dma_tx_addr : Z;
  u_dma_rx_addr : Z;
  u_dma_tx_in_progress : Z;
  u_dma_rx_in_progress : Z
}.

Definition set_u_open_count (v : Z) (c : user_card) : user_card :=
  mk_user (u_is_ctrl c) v (u_rx_wr_pos c) (u_rx_rd_pos c) (u_rx_buf_rd_pos c) (u_cells c) (u_ppool
    c) (u_rd_pool c) (u_wr_pool c) (u_txbuff c) (u_wr_txbuff c) (u_rd_txbuff c) (u_free_txbuffs c)
    (u_dma_tx_addr c) (u_dma_rx_addr c) (u_dma_tx_in_progress c) (u_dma_rx_in_progress c).
Definition set_u_rx_wr_pos (v : Z) (c : user_card) : user_card :=
  mk_user (u_is_ctrl c) (u_open_count c) v (u_rx_rd_pos c) (u_rx_buf_rd_pos c) (u_cells c) (u_ppool
    c) (u_rd_pool c) (u_wr_pool c) (u_txbuff c) (u_wr_txbuff c) (u_rd_txbuff c) (u_free_txbuffs c)
    (u_dma_tx_addr c) (u_dma_rx_addr c) (u_dma_tx_in_progress c) (u_dma_rx_in_progress c).
Definition set_u_rx_rd_pos (v : Z) (c : user_card) : user_card :=
  mk_user (u_is_ctrl c) (u_open_count c) (u_rx_wr_pos c) v (u_rx_buf_rd_pos c) (u_cells c) (u_ppool
    c) (u_rd_pool c) (u_wr_pool c) (u_txbuff c) (u_wr_txbuff c) (u_rd_txbuff c) (u_free_txbuffs c)
    (u_dma_tx_addr c) (u_dma_rx_addr c) (u_dma_tx_in_progress c) (u_dma_rx_in_progress c).
Definition set_u_rx_buf_rd_pos (v : option (nat * Z)) (c : user_card) : user_card :=
  mk_user (u_is_ctrl c) (u_open_count c) (u_rx_wr_pos c) (u_rx_rd_pos c) v (u_cells c) (u_ppool c)
    (u_rd_pool c) (u_wr_pool c) (u_txbuff c) (u_wr_txbuff c) (u_rd_txbuff c) (u_free_txbuffs c)
    (u_dma_tx_addr c) (u_dma_rx_addr c) (u_dma_tx_in_progress c) (u_dma_rx_in_progress c).
Definition set_u_cells (v : gmap nat user_packet) (c : user_card) : user_card :=
  mk_user (u_is_ctrl c) (u_open_count c) (u_rx_wr_pos c) (u_rx_rd_pos c) (u_rx_buf_rd_pos c) v
    (u_ppool c) (u_rd_pool c) (u_wr_pool c) (u_txbuff c) (u_wr_txbuff c) (u_rd_txbuff c)
    (u_free_txbuffs c) (u_dma_tx_addr c) (u_dma_rx_addr c) (u_dma_tx_in_progress c)
    (u_dma_rx_in_progress c).
Definition set_u_ppool (v : option nat) (c : user_card) : user_card :=
  mk_user (u_is_ctrl c) (u_open_count c) (u_rx_wr_pos c) (u_rx_rd_pos c) (u_rx_buf_rd_pos c)
    (u_cells c) v (u_rd_pool c) (u_wr_pool c) (u_txbuff c) (u_wr_txbuff c) (u_rd_txbuff c)
    (u_free_txbuffs c) (u_dma_tx_addr c) (u_dma_rx_addr c) (u_dma_tx_in_progress c)
    (u_dma_rx_in_progress c).
Definition set_u_rd_pool (v : option nat) (c : user_card) : user_card :=
  mk_user (u_is_ctrl c) (u_open_count c) (u_rx_wr_pos c) (u_rx_rd_pos c) (u_rx_buf_rd_pos c)
    (u_cells c) (u_ppool c) v (u_wr_pool c) (u_txbuff c) (u_wr_txbuff c) (u_rd_txbuff c)
    (u_free_txbuffs c) (u_dma_tx_addr c) (u_dma_rx_addr c) (u_dma_tx_in_progress c)
    (u_dma_rx_in_progress c).
Definition set_u_wr_pool (v : option nat) (c : user_card) : user_card :=
  mk_user (u_is_ctrl c) (u_open_count c) (u_rx_wr_pos c) (u_rx_rd_pos c) (u_rx_buf_rd_pos c)
    (u_cells c) (u_ppool c) (u_rd_pool c) v (u_txbuff c) (u_wr_txbuff c) (u_rd_txbuff c)
    (u_free_txbuffs c) (u_dma_tx_addr c) (u_dma_rx_addr c) (u_dma_tx_in_progress c)
    (u_dma_rx_in_progress c).
Definition set_u_txbuff (v : list user_txbuff) (c : user_card) : user_card :=
  mk_user (u_is_ctrl c) (u_open_count c) (u_rx_wr_pos c) (u_rx_rd_pos c) (u_rx_buf_rd_pos c)
    (u_cells c) (u_ppool c) (u_rd_pool c) (u_wr_pool c) v (u_wr_txbuff c) (u_rd_txbuff c)
    (u_free_txbuffs c) (u_dma_tx_addr c) (u_dma_rx_addr c) (u_dma_tx_in_progress c)
    (u_dma_rx_in_progress c).
Definition set_u_wr_txbuff (v : Z) (c : user_card) : user_card :=
  mk_user (u_is_ctrl c) (u_open_count c) (u_rx_wr_pos c) (u_rx_rd_pos c) (u_rx_buf_rd_pos c)
    (u_cells c) (u_ppool c) (u_rd_pool c) (u_wr_pool c) (u_txbuff c) v (u_rd_txbuff c)
    (u_free_txbuffs c) (u_dma_tx_addr c) (u_dma_rx_addr c) (u_dma_tx_in_progress c)
    (u_dma_rx_in_progress c).
Definition set_u_rd_txbuff (v : Z) (c : user_card) : user_card :=
  mk_user (u_is_ctrl c) (u_open_count c) (u_rx_wr_pos c) (u_rx_rd_pos c) (u_rx_buf_rd_pos c)
    (u_cells c) (u_ppool c) (u_rd_pool c) (u_wr_pool c) (u_txbuff c) (u_wr_txbuff c) v
    (u_free_txbuffs c) (u_dma_tx_addr c) (u_dma_rx_addr c) (u_dma_tx_in_progress c)
    (u_dma_rx_in_progress c).
Definition set_u_free_txbuffs (v : Z) (c : user_card) : user_card :=
  mk_user (u_is_ctrl c) (u_open_count c) (u_rx_wr_pos c) (u_rx_rd_pos c) (u_rx_buf_rd_pos c)
    (u_cells c) (u_ppool c) (u_rd_pool c) (u_wr_pool c) (u_txbuff c) (u_wr_txbuff c) (u_rd_txbuff c)
    v (u_dma_tx_addr c) (u_dma_rx_addr c) (u_dma_tx_in_progress c) (u_dma_rx_in_progress c).
Definition set_u_dma_tx_addr (v : Z) (c : user_card) : user_card :=
  mk_user (u_is_ctrl c) (u_open_count c) (u_rx_wr_pos c) (u_rx_rd_pos c) (u_rx_buf_rd_pos c)
    (u_cells c) (u_ppool c) (u_rd_pool c) (u_wr_pool c) (u_txbuff c) (u_wr_txbuff c) (u_rd_txbuff c)
    (u_free_txbuffs c) v (u_dma_rx_addr c) (u_dma_tx_in_progress c) (u_dma_rx_in_progress c).
Definition set_u_dma_rx_addr (v : Z) (c : user_card) : user_card :=
  mk_user (u_is_ctrl c) (u_open_count c) (u_rx_wr_pos c) (u_rx_rd_pos c) (u_rx_buf_rd_pos c)
    (u_cells c) (u_ppool c) (u_rd_pool c) (u_wr_pool c) (u_txbuff c) (u_wr_txbuff c) (u_rd_txbuff c)
    (u_free_txbuffs c) (u_dma_tx_addr c) v (u_dma_tx_in_progress c) (u_dma_rx_in_progress c).
Definition set_u_dma_tx_in_progress (v : Z) (c : user_card) : user_card :=
  mk_user (u_is_ctrl c) (u_open_count c) (u_rx_wr_pos c) (u_rx_rd_pos c) (u_rx_buf_rd_pos c)
    (u_cells c) (u_ppool c) (u_rd_pool c) (u_wr_pool c) (u_txbuff c) (u_wr_txbuff c) (u_rd_txbuff c)
    (u_free_txbuffs c) (u_dma_tx_addr c) (u_dma_rx_addr c) v (u_dma_rx_in_progress c).
Definition set_u_dma_rx_in_progress (v : Z) (c : user_card) : user_card :=
  mk_user (u_is_ctrl c) (u_open_count c) (u_rx_wr_pos c) (u_rx_rd_pos c) (u_rx_buf_rd_pos c)
    (u_cells c) (u_ppool c) (u_rd_pool c) (u_wr_pool c) (u_txbuff c) (u_wr_txbuff c) (u_rd_txbuff c)
    (u_free_txbuffs c) (u_dma_tx_addr c) (u_dma_rx_addr c) (u_dma_tx_in_progress c) v.

(** Memory and numbers the probe acquires, and the effects of Card.v. *)
Inductive user_resource := UPriv | UTxArray | UTxBuff (i : nat) | UChrdev.
Inductive uevent := UHw (e : kevent) | UGet (r : user_resource) | UPut (r : user_resource).

Record uworld := mk_uworld {
  uw_card : user_card;
  uw_trace : list uevent;
  uw_tick : nat;
  uw_env : kenv
}.

(** [None] is an invalid memory access, as in Card.v. *)
Definition U (A : Type) : Type := uworld -> option (A * uworld).

#[export] Instance U_ret : MRet U := fun A a w => Some (a, w).
#[export] Instance U_bind : MBind U := fun A B f m w =>
  match m w with Some (a, w') => f a w' | None => None end.

Definition uget : U user_card := fun w => Some (uw_card w, w).
Definition umod (f : user_card -> user_card) : U unit := fun w =>
  Some (tt, mk_uworld (f (uw_card w)) (uw_trace w) (uw_tick w) (uw_env w)).
Definition uemit (e : uevent) : U unit := fun w =>
  Some (tt, mk_uworld (uw_card w) (uw_trace w ++ [e]) (uw_tick w) (uw_env w)).
Definition uask {A} (f : kenv -> nat -> A) : U A := fun w =>
  Some (f (uw_env w) (uw_tick w), mk_uworld (uw_card w) (uw_trace w) (S (uw_tick w)) (uw_env w)).
Definition udef {A} (o : option A) : U A := fun w =>
  match o with Some a => Some (a, w) | None => None end.
Definition uwhen (b : bool) (m : U unit) : U unit := if b then m else mret tt.

Definition uwrite (val reg : Z) : U unit := uemit (UHw (KWrite reg val)).
Definition uread (reg : Z) : U Z := uask (fun e n => ke_reg e n reg).

(** nf2util.h and nf2util.c on such a card. *)
Definition u_write_flush : U unit := _ ← uread 0; mret tt.
Definition u_enable_irq : U unit := uwrite 0 CPCI_REG_INTERRUPT_MASK;; u_write_flush.
Definition u_disable_irq : U unit := uwrite 4294967295 CPCI_REG_INTERRUPT_MASK;; u_write_flush.
Definition u_hw_reset : U unit :=
  uwrite RESET_CPCI CPCI_REG_RESET;;
  c ← uget;
  uwhen (u_is_ctrl c)
    (uwrite CTRL_CNET_RESET CNET_REG_CTRL;;
     uwrite (Z.lor (Z.lor (Z.lor CNET_RESET_MAC_3 CNET_RESET_MAC_2) CNET_RESET_MAC_1)
               CNET_RESET_MAC_0) CNET_REG_RESET;;
     uwrite 0 CNET_REG_ENABLE);;
  u_write_flush.
Definition u_reset_cpci : U unit :=
  intmask ← uread CPCI_REG_INTERRUPT_MASK;
  uwrite RESET_CPCI CPCI_REG_RESET;;
  uwrite intmask CPCI_REG_INTERRUPT_MASK;;
  u_write_flush.

(** ** Opening and closing *)

(** A call of a user: its result and the data it hands out; [Asleep] when it waits
    for the other side and will be run again. *)
Inductive outcome := Returned (r : Z) (data : bytes) | Asleep.

Definition MAC_0 : Z := Z.lor CNET_ENABLE_RX_FIFO_0 CNET_ENABLE_TX_MAC_0.

(** The semaphore; a signal interrupts the wait for it. *)
Definition interruptible {A} (interrupted : A) (m : U A) : U A :=
  i ← uask ke_interrupted;
  if i : bool then mret interrupted else uemit (UHw KDown);; r ← m; uemit (UHw KUp);; mret r.

Definition nf2u_open : U Z :=
  interruptible (- ERESTARTSYS)
    (c ← uget;
     umod (fun c => set_u_open_count (int32 (u_open_count c + 1)) c);;
     err ← (if u_open_count c =? 0 then
              u_hw_reset;;
              uwrite CNET_RESET_MAC_0 CNET_REG_RESET;;
              enable ← uread CNET_REG_ENABLE;
              uwrite (Z.lor enable MAC_0) CNET_REG_ENABLE;;
              err ← uask ke_irq;
              if err =? 0 then uemit (UHw KRequestIrq);; u_enable_irq;; mret 0 else mret err
            else mret 0);
     if negb (err =? 0) then mret err
     else umod (fun c => set_u_open_count (int32 (u_open_count c + 1)) c);; mret 0).

Definition nf2u_release : U Z :=
  interruptible (- ERESTARTSYS)
    (umod (fun c => set_u_open_count (int32 (u_open_count c - 1)) c);;
     c ← uget;
     uwhen (u_open_count c =? 0)
       (u_disable_irq;;
        uemit (UHw KFreeIrq);;
        enable ← uread CNET_REG_ENABLE;
        uwrite (Z.land enable (not32 MAC_0)) CNET_REG_ENABLE);;
     mret 0).

(** ** Reading *)

(** The pool: a cell, and the cell after it. *)
Definition u_cell (p : option nat) : U (nat * user_packet) :=
  c ← uget; l ← udef p; k ← udef (u_cells c !! l); mret (l, k).

(** What is left of the packet in the cell [l]: a difference of pointers, that of
    another cell being no number. *)
Definition left_in (l : nat) (k : user_packet) (pos : option (nat * Z)) : option (Z * Z) :=
  '(q, off) ← pos; if (q =? l)%nat then Some (off, u64 (up_len k - off)) else None.

Definition nf2u_read (count : Z) (nonblock : bool) : U outcome :=
  interruptible (Returned (- ERESTARTSYS) [])
    (c ← uget;
     if u_rx_rd_pos c =? u_rx_wr_pos c then
       mret (if nonblock then Returned (- EAGAIN) [] else Asleep)
     else
       let avail := if u_rx_rd_pos c <? u_rx_wr_pos c then u_rx_wr_pos c - u_rx_rd_pos c
                    else 4294967295 - u_rx_rd_pos c in
       '(l, k) ← u_cell (u_rd_pool c);
       '(off, rest) ← udef (left_in l k (u_rx_buf_rd_pos c));
       let count := Z.min (Z.min count avail) rest in
       fails ← uask ke_copy_fails;
       if fails : bool then mret (Returned (- EFAULT) [])
       else
         data ← udef (get_range (up_data k) (Z.to_nat off) (Z.to_nat count));
         umod (fun c => set_u_rx_rd_pos (u32 (u_rx_rd_pos c + count))
                          (set_u_rx_buf_rd_pos (Some (l, off + count)) c));;
         uwhen (off + count =? up_len k)
           ('(_, wk) ← u_cell (u_wr_pool c);
            uwhen (l =? up_next wk)%nat
              (reg ← uread CPCI_REG_INTERRUPT_MASK;
               uwrite (Z.lor reg INT_PKT_AVAIL) CPCI_REG_INTERRUPT_MASK);;
            umod (fun c => set_u_rd_pool (Some (up_next k))
                             (set_u_rx_buf_rd_pos (Some (up_next k, 0)) c)));;
         mret (Returned count data)).

(** ** Writing *)

Section Ring.
(** The module parameters [tx_pool_size] and [rx_pool_size]. *)
Variables (tx_pool_size rx_pool_size : Z).

(** [buf] is the memory of the user, of [count] bytes. *)
Definition nf2u_write (buf : bytes) (count : Z) (nonblock : bool) : U outcome :=
  interruptible (Returned (- ERESTARTSYS) [])
    (c ← uget;
     if u_free_txbuffs c =? 0 then mret (if nonblock then Returned (- EAGAIN) [] else Asleep)
     else
       let count := Z.min count (MAX_DMA_LEN + 2) in
       fails ← uask ke_copy_fails;
       match get16 buf 0, fails with
       | None, _ | _, true => mret (Returned (- EFAULT) [])
       | Some len, false =>
           if count <? len + 2 then mret (Returned (- EFAULT) [])
           else
             let slot := Z.to_nat (u_wr_txbuff c) in
             tb ← udef (u_txbuff c !! slot);
             umod (fun c => set_u_txbuff (<[slot := mk_utx (ut_buff tb) len]> (u_txbuff c)) c);;
             fails ← uask ke_copy_fails;
             if fails : bool then mret (Returned (- EFAULT) [])
             else
               b ← udef (put_range (ut_buff tb) 0 (take 2 buf));
               umod (fun c => set_u_txbuff (<[slot := mk_utx b len]> (u_txbuff c)) c);;
               umod (fun c => set_u_wr_txbuff ((u_wr_txbuff c + 1) mod tx_pool_size) c);;
               umod (fun c => set_u_free_txbuffs (u_free_txbuffs c - 1) c);;
               mret (Returned (len + 2) [])
       end).

Definition POLLIN : Z := 1.
Definition POLLOUT : Z := 4.
Definition POLLRDNORM : Z := 64.
Definition POLLWRNORM : Z := 256.

Definition nf2u_poll : U Z :=
  uemit (UHw KDown);;
  c ← uget;
  uemit (UHw KUp);;
  mret (Z.lor (if negb (u_rx_rd_pos c =? u_rx_wr_pos c) then Z.lor POLLIN POLLRDNORM else 0)
          (if negb (u_free_txbuffs c =? 0) then Z.lor POLLOUT POLLWRNORM else 0)).

(** The start of a transfer to the card: 1 when none is started. *)
Definition nf2u_send : U Z :=
  umod (fun c => set_u_dma_tx_in_progress (u_dma_tx_in_progress c + 1) c);;
  c ← uget;
  if negb (u_dma_tx_in_progress c =? 1) then
    umod (fun c => set_u_dma_tx_in_progress (u_dma_tx_in_progress c - 1) c);; mret 1
  else if u_free_txbuffs c =? tx_pool_size then
    umod (fun c => set_u_dma_tx_in_progress (u_dma_tx_in_progress c - 1) c);; mret 1
  else
    tb ← udef (u_txbuff c !! Z.to_nat (u_rd_txbuff c));
    addr ← uask ke_map;
    uemit (UHw (KMap PCI_DMA_TODEVICE addr (ut_len tb)));;
    umod (set_u_dma_tx_addr addr);;
    uwrite addr CPCI_REG_DMA_E_ADDR;;
    uwrite (ut_len tb) CPCI_REG_DMA_E_SIZE;;
    uwrite (Z.lor (NF2_SET_DMA_CTRL_MAC 0) DMA_CTRL_OWNER) CPCI_REG_DMA_E_CTRL;;
    mret 0.

(** Register reads and writes; any other request is refused. *)
Definition nf2u_ioctl (cmd : ioctl_cmd) (rq : nf2reg) : U (Z * option Z) :=
  match cmd with
  | SIOCREGREAD =>
      fails ← uask ke_copy_fails;
      if fails : bool then mret (- EFAULT, None)
      else
        v ← uread (reg rq);
        fails ← uask ke_copy_fails;
        if fails : bool then mret (- EFAULT, None) else mret (0, Some v)
  | SIOCREGWRITE =>
      fails ← uask ke_copy_fails;
      if fails : bool then mret (- EFAULT, None)
      else uwrite (val rq) (reg rq);; mret (0, None)
  | _ => mret (- EOPNOTSUPP, None)
  end.

(** ** Interrupts *)

(** The length is stored before the data, its high byte by way of the low one:
    [len & 0xFF00 >> 8] is [len & 0xFF]. *)
Definition u_intr_rx_complete : U unit :=
  c ← uget;
  uemit (UHw (KUnmap PCI_DMA_FROMDEVICE (u_dma_rx_addr c) MAX_DMA_LEN));;
  '(l, k) ← u_cell (u_wr_pool c);
  len ← uread CPCI_REG_DMA_I_SIZE;
  data ← uask ke_rx_buffer;
  let len := int32 len in
  let low := u8 (Z.land len (Z.shiftr 65280 8)) in
  umod (fun c => set_u_cells (<[l := mk_upacket (up_next k) len
                                 (low :: u8 (Z.land len 255) :: data)]> (u_cells c)) c);;
  umod (fun c => set_u_rx_wr_pos (u32 (u_rx_wr_pos c + len)) c);;
  umod (fun c => set_u_dma_rx_in_progress (u_dma_rx_in_progress c - 1) c);;
  umod (set_u_wr_pool (Some (up_next k))).

Definition u_intr_tx_complete : U unit :=
  c ← uget;
  tb ← udef (u_txbuff c !! Z.to_nat (u_rd_txbuff c));
  uemit (UHw (KUnmap PCI_DMA_TODEVICE (u_dma_tx_addr c) (ut_len tb)));;
  umod (fun c => set_u_rd_txbuff ((u_rd_txbuff c + 1) mod tx_pool_size) c);;
  umod (fun c => set_u_free_txbuffs (u_free_txbuffs c + 1) c);;
  umod (fun c => set_u_dma_tx_in_progress (u_dma_tx_in_progress c - 1) c);;
  c ← uget;
  uwhen (negb (u_free_txbuffs c =? tx_pool_size)) (_ ← nf2u_send; mret tt).

Definition u_intr_pkt_avail : U unit :=
  c ← uget;
  '(l, k) ← u_cell (u_wr_pool c);
  addr ← uask ke_map;
  uemit (UHw (KMap PCI_DMA_FROMDEVICE addr MAX_DMA_LEN));;
  umod (set_u_dma_rx_addr addr);;
  umod (fun c => set_u_dma_rx_in_progress (u_dma_rx_in_progress c + 1) c);;
  uwhen (bool_decide (u_rd_pool c = Some (up_next k)))
    (result ← uread CPCI_REG_INTERRUPT_MASK;
     uwrite (Z.land result (not32 INT_PKT_AVAIL)) CPCI_REG_INTERRUPT_MASK);;
  uwrite addr CPCI_REG_DMA_I_ADDR;;
  uwrite DMA_CTRL_OWNER CPCI_REG_DMA_I_CTRL.

Definition u_intr_error : U unit := _ ← uread CPCI_REG_ERROR; u_reset_cpci.

(** Whether the interrupt was for this card. *)
Definition nf2u_intr : U bool :=
  status ← uread CPCI_REG_INTERRUPT_STATUS;
  if status =? 0 then mret false
  else
    uwhen (has status INT_DMA_RX_COMPLETE) u_intr_rx_complete;;
    uwhen (has status INT_DMA_TX_COMPLETE) u_intr_tx_complete;;
    uwhen (has status INT_PKT_AVAIL) u_intr_pkt_avail;;
    uwhen (has status INT_DMA_TRANSFER_ERROR) u_intr_error;;
    uwhen (has status INT_DMA_SETUP_ERROR) u_intr_error;;
    uwhen (has status INT_DMA_FATAL_ERROR) u_intr_error;;
    mret true.

(** ** The pool, probe and removal *)

(** The loop of [nf2u_create_pool], [n] cells from the [i]-th on: each points to
    the one before it, the first to itself. What a fresh cell holds is [memory]. *)
Variable memory : nat -> bytes.

Fixpoint create_cells (n i : nat) : U bool :=
  match n with
  | O => mret true
  | S n =>
      fails ← uask ke_alloc_fails;
      if fails : bool then mret false
      else
        c ← uget;
        next ← (if (i =? 0)%nat then mret i else udef (u_ppool c));
        umod (fun c => set_u_cells (<[i := mk_upacket next 0 (memory i)]> (u_cells c)) c);;
        umod (set_u_ppool (Some i));;
        create_cells n (S i)
  end.

Definition nf2u_create_pool : U Z :=
  ok ← create_cells (Z.to_nat (rx_pool_size + 1)) 0;
  if ok : bool then
    c ← uget; umod (set_u_wr_pool (u_ppool c));; umod (set_u_rd_pool (u_ppool c));; mret 0
  else mret (- ENOMEM).

(** The loop that frees the cells, from [pkt] on, until it is back at the first. *)
Fixpoint destroy_cells (fuel : nat) (pkt : nat) : U unit :=
  match fuel with
  | O => udef None
  | S fuel =>
      c ← uget;
      k ← udef (u_cells c !! pkt);
      umod (fun c => set_u_cells (delete pkt (u_cells c)) c);;
      if bool_decide (u_ppool c = Some (up_next k)) then mret tt else destroy_cells fuel (up_next k)
  end.

Definition nf2u_destroy_pool : U unit :=
  c ← uget;
  pkt ← udef (u_ppool c);
  destroy_cells (S (size (u_cells c))) pkt;;
  umod (fun c => set_u_ppool None (set_u_wr_pool None (set_u_rd_pool None c))).

Fixpoint alloc_txbuffs (n i : nat) : U (bool * list user_txbuff) :=
  match n with
  | O => mret (true, [])
  | S n =>
      fails ← uask ke_alloc_fails;
      if fails : bool then mret (false, [])
      else uemit (UGet (UTxBuff i));; r ← alloc_txbuffs n (S i);
           mret (r.1, mk_utx (memory i) 0 :: r.2)
  end.

Fixpoint free_txbuffs_from (l : list user_txbuff) (i : nat) : U unit :=
  match l with [] => mret tt | _ :: l => uemit (UPut (UTxBuff i));; free_txbuffs_from l (S i) end.

(** The label [err_free_mem]; the array of buffers may not exist. *)
Definition u_free_mem (tx : option (list user_txbuff)) : U unit :=
  match tx with
  | Some l => free_txbuffs_from l 0;; uemit (UPut UTxArray)
  | None => mret tt
  end;;
  uemit (UPut UPriv);;
  nf2u_destroy_pool.

(** [register_chrdev] and [cdev_add] of the kernel answer with a number; [open_count]
    and the positions are set, [rx_buf_rd_pos] is not. *)
Definition nf2u_probe (register_chrdev cdev_add : Z) : U Z :=
  err ← nf2u_create_pool;
  if negb (err =? 0) then mret err
  else
    fails ← uask ke_alloc_fails;
    if fails : bool then mret (- ENOMEM)
    else
      uemit (UGet UPriv);;
      umod (fun c => set_u_open_count 0 (set_u_rx_wr_pos 0 (set_u_rx_rd_pos 0
        (set_u_rx_buf_rd_pos None c))));;
      fails ← uask ke_alloc_fails;
      if fails : bool then u_free_mem None;; mret (- ENOMEM)
      else
        uemit (UGet UTxArray);;
        umod (set_u_free_txbuffs tx_pool_size);;
        tx ← alloc_txbuffs (Z.to_nat tx_pool_size) 0;
        umod (set_u_txbuff tx.2);;
        if negb tx.1 then u_free_mem (Some tx.2);; mret (- ENOMEM)
        else if register_chrdev <? 0 then u_free_mem (Some tx.2);; mret (- ENODEV)
        else
          uemit (UGet UChrdev);;
          if negb (cdev_add =? 0) then
            uemit (UPut UChrdev);; u_free_mem (Some tx.2);; mret (- ENODEV)
          else u_hw_reset;; mret 0.

Definition nf2u_remove : U unit :=
  c ← uget;
  uemit (UPut UChrdev);;
  u_free_mem (Some (u_txbuff c)).
End Ring.
