(* ===== verification/UserTheorems.v ===== *)
(** What the character device of a user card (UserCard.v) does, over any sequence of
    calls and interrupts: it reads no packet, sends none and never gives its
    interrupt back; a write stays the two bytes of the length; and its pool, when it
    has two cells or more, cannot be freed. *)

From S2P Require Import Prelude Words Bytes Card CardDriver CardProbe UserCard.
Local Open Scope Z_scope.

(** ** Triples *)

Definition triple {A} (P : uworld -> Prop) (m : U A) (Q : A -> uworld -> Prop) : Prop :=
  forall w a w', P w -> m w = Some (a, w') -> Q a w'.

Lemma triple_bind {A B} P (m : U A) Q (f : A -> U B) R :
  triple P m Q -> (forall a, triple (Q a) (f a) R) -> triple P (m ≫= f) R.
Proof.
  intros Hm Hf w b w' HP H. unfold mbind, U_bind in H.
  destruct (m w) as [[a w1]|] eqn:E; [|done]. exact (Hf a w1 b w' (Hm w a w1 HP E) H).
Qed.

Lemma triple_mono {A} P P' (m : U A) (Q Q' : A -> uworld -> Prop) :
  triple P m Q -> (forall w, P' w -> P w) -> (forall a w, Q a w -> Q' a w) -> triple P' m Q'.
Proof. intros H HP HQ w a w' Hw E. exact (HQ _ _ (H w a w' (HP _ Hw) E)). Qed.

(** ** The calls of a session *)

Inductive user_op :=
  | UOpen | URelease | URead (count : Z) (nonblock : bool)
  | UWrite (buf : bytes) (count : Z) (nonblock : bool)
  | UPoll | UIoctl (cmd : ioctl_cmd) (rq : nf2reg) | UIntr.

Create HintDb user discriminated.

Section Session.
Variable tx_pool_size : Z.

(** One call; [files] counts the descriptors that are open, and a file that is not
    open is not released. The result: the descriptors after it, and what was read. *)
Definition call_of (op : user_op) (files : Z) : U (Z * bytes) :=
  match op with
  | UOpen => r ← nf2u_open; mret (if r =? 0 then files + 1 else files, [])
  | URelease => if files <=? 0 then mret (files, []) else _ ← nf2u_release; mret (files - 1, [])
  | URead n nb => r ← nf2u_read n nb;
      mret (files, match r with Returned _ data => data | Asleep => [] end)
  | UWrite b n nb => _ ← nf2u_write tx_pool_size b n nb; mret (files, [])
  | UPoll => _ ← nf2u_poll; mret (files, [])
  | UIoctl cmd rq => _ ← nf2u_ioctl cmd rq; mret (files, [])
  | UIntr => _ ← nf2u_intr tx_pool_size; mret (files, [])
  end.

Fixpoint calls_of (ops : list user_op) (files : Z) : U (Z * bytes) :=
  match ops with
  | [] => mret (files, [])
  | op :: ops => r ← call_of op files; r' ← calls_of ops r.1; mret (r'.1, r.2 ++ r'.2)
  end.

(** ** The invariant *)

Definition is_idle (e : uevent) : bool :=
  match e with
  | UHw (KMap PCI_DMA_TODEVICE _ _) => false
  | UHw KFreeIrq => false
  | _ => true
  end.

(** The card completes no transfer that was not started. *)
Definition never_sent (e : kenv) : Prop :=
  forall n, has (ke_reg e n CPCI_REG_INTERRUPT_STATUS) INT_DMA_TX_COMPLETE = false.

Record unused (lo hi : Z) (w : uworld) : Prop := mk_unused {
  unused_trace : Forall is_idle (uw_trace w);
  unused_env : never_sent (uw_env w);
  unused_pos : u_rx_buf_rd_pos (uw_card w) = None;
  unused_count : lo <= u_open_count (uw_card w) <= hi
}.

Definition stays {A} (m : U A) : Prop :=
  forall lo hi, triple (unused lo hi) m (fun _ => unused lo hi).

Lemma stays_ret {A} (a : A) : stays (mret a).
Proof. by intros lo hi w b w' H [= <- <-]. Qed.

Lemma stays_bind {A B} (m : U A) (f : A -> U B) : stays m -> (forall a, stays (f a)) -> stays (m ≫= f).
Proof. intros Hm Hf lo hi. eapply triple_bind; [apply Hm|]. intros a. apply Hf. Qed.

Lemma stays_get : stays uget.
Proof. by intros lo hi w b w' H [= <- <-]. Qed.

Lemma stays_emit e : is_idle e -> stays (uemit e).
Proof.
  intros He lo hi w b w' [] [= <- <-]. split; cbn; try done. apply Forall_app. split; [done|].
  by constructor.
Qed.

Lemma stays_ask {A} (f : kenv -> nat -> A) : stays (uask f).
Proof. by intros lo hi w b w' [] [= <- <-]. Qed.

Lemma stays_def {A} (o : option A) : stays (udef o).
Proof. intros lo hi w b w' H E. unfold udef in E. destruct o; [|done]. by injection E as <- <-. Qed.

Lemma stays_when b m : stays m -> stays (uwhen b m).
Proof. intros H. destruct b; [exact H|apply stays_ret]. Qed.

Lemma stays_mod f :
  (forall c, u_rx_buf_rd_pos (f c) = u_rx_buf_rd_pos c /\ u_open_count (f c) = u_open_count c) ->
  stays (umod f).
Proof.
  intros Hf lo hi w b w' [] [= <- <-]. destruct (Hf (uw_card w)) as [Hp Hc].
  split; cbn; rewrite ?Hp, ?Hc; done.
Qed.

(** A computation that takes the card first may know where the reader is. *)
Lemma stays_get_pos {B} (f : user_card -> U B) :
  (forall c, u_rx_buf_rd_pos c = None -> stays (f c)) -> stays (uget ≫= f).
Proof. intros H lo hi w b w' Hw E. exact (H (uw_card w) (unused_pos _ _ _ Hw) lo hi w b w' Hw E). Qed.

Hint Resolve stays_ret stays_get stays_ask stays_def : user.
Hint Extern 1 (stays (uemit _)) => apply stays_emit; reflexivity : user.
Hint Extern 1 (stays (umod _)) => apply stays_mod; done : user.

Ltac stay :=
  repeat first
    [ solve [auto with user nocore]
    | apply stays_when
    | apply stays_bind; [|intros ?]
    | match goal with |- stays (match ?x with _ => _ end) => destruct x end
    | progress cbv zeta ].

Lemma stays_write v r : stays (uwrite v r).
Proof. unfold uwrite. stay. Qed.
Lemma stays_read r : stays (uread r).
Proof. unfold uread. stay. Qed.
Hint Resolve stays_write stays_read : user.

Lemma stays_flush : stays u_write_flush.
Proof. unfold u_write_flush. stay. Qed.
Hint Resolve stays_flush : user.

Lemma stays_enable_irq : stays u_enable_irq.
Proof. unfold u_enable_irq. stay. Qed.
Lemma stays_hw_reset : stays u_hw_reset.
Proof. unfold u_hw_reset. stay. Qed.
Lemma stays_reset_cpci : stays u_reset_cpci.
Proof. unfold u_reset_cpci. stay. Qed.
Lemma stays_cell p : stays (u_cell p).
Proof. unfold u_cell. stay. Qed.
Hint Resolve stays_enable_irq stays_hw_reset stays_reset_cpci stays_cell : user.

Lemma stays_interruptible {A} (a : A) m : stays m -> stays (interruptible a m).
Proof. intros H. unfold interruptible. stay. Qed.

Lemma stays_nf2u_write b n nb : stays (nf2u_write tx_pool_size b n nb).
Proof. apply stays_interruptible. stay. Qed.
Lemma stays_poll : stays nf2u_poll.
Proof. unfold nf2u_poll. stay. Qed.
Lemma stays_ioctl cmd rq : stays (nf2u_ioctl cmd rq).
Proof. unfold nf2u_ioctl. destruct cmd; stay. Qed.
Lemma stays_rx_complete : stays u_intr_rx_complete.
Proof. unfold u_intr_rx_complete. stay. Qed.
Lemma stays_pkt_avail : stays u_intr_pkt_avail.
Proof. unfold u_intr_pkt_avail. stay. Qed.
Lemma stays_error : stays u_intr_error.
Proof. unfold u_intr_error. stay. Qed.
Hint Resolve stays_nf2u_write stays_poll stays_ioctl stays_rx_complete stays_pkt_avail stays_error : user.

Lemma stays_intr : stays (nf2u_intr tx_pool_size).
Proof.
  intros lo hi. unfold nf2u_intr.
  eapply (triple_bind _ _ (fun s w => unused lo hi w /\ has s INT_DMA_TX_COMPLETE = false)).
  - intros w s w' [] [= <- <-]. split; [by split|]. cbn. by apply unused_env0.
  - intros s w a w' [Hw Hs] E. rewrite Hs in E. revert lo hi w a w' Hw E.
    change (stays (if s =? 0 then mret false
      else uwhen (has s INT_DMA_RX_COMPLETE) u_intr_rx_complete;; uwhen false (u_intr_tx_complete
        tx_pool_size);; uwhen (has s INT_PKT_AVAIL) u_intr_pkt_avail;; uwhen (has s
        INT_DMA_TRANSFER_ERROR) u_intr_error;; uwhen (has s INT_DMA_SETUP_ERROR) u_intr_error;;
        uwhen (has s INT_DMA_FATAL_ERROR) u_intr_error;; mret true)).
    assert (forall m, stays (uwhen false m)) by (intros m; apply stays_ret). stay.
Qed.

(** ** Reading and the count of descriptors *)

(** The semaphore around a call that has a result [a] of [R a] and leaves the bounds
    [l a] and [h] of the count. *)
Lemma triple_interruptible {A} (R : A -> Prop) (l : A -> Z) h lo hi a m :
  R a -> (forall w, unused lo hi w -> unused (l a) h w) ->
  triple (unused lo hi) m (fun r w => R r /\ unused (l r) h w) ->
  triple (unused lo hi) (interruptible a m) (fun r w => R r /\ unused (l r) h w).
Proof.
  intros Ha Hw Hm. unfold interruptible.
  eapply triple_bind; [apply stays_ask|]. intros [].
  - intros w r w' H E. injection E as E1 E2. subst. split; [done|by apply Hw].
  - eapply triple_bind; [by apply stays_emit|]. intros ?.
    eapply triple_bind; [exact Hm|]. intros r.
    intros w r' w' [HR H] E. unfold mbind, U_bind in E. cbn in E. injection E as <- <-.
    split; [done|]. by eapply (stays_emit (UHw KUp)).
Qed.

Definition no_data (r : outcome) : Prop :=
  match r with Returned _ data => data = [] | Asleep => True end.

Lemma read_gets_nothing n nb lo hi :
  triple (unused lo hi) (nf2u_read n nb) (fun r w => no_data r /\ unused lo hi w).
Proof.
  apply (triple_interruptible no_data (fun _ => lo) hi); [done|done|].
  intros w r w' Hw E. pose proof (unused_pos _ _ _ Hw) as Hp.
  unfold mbind, U_bind, uget in E. destruct (u_rx_rd_pos (uw_card w) =? u_rx_wr_pos (uw_card w)).
  - destruct nb; by injection E as <- <-.
  - unfold u_cell in E. unfold mbind, U_bind, uget, udef in E.
    destruct (u_rd_pool (uw_card w)); [|done]. destruct (u_cells (uw_card w) !! n0); [|done].
    unfold mret, U_ret in E. by rewrite Hp in E.
Qed.

Lemma count_moves d lo hi :
  - 2 ^ 31 <= lo + d -> hi + d < 2 ^ 31 ->
  triple (unused lo hi) (umod (fun c => set_u_open_count (int32 (u_open_count c + d)) c))
    (fun _ => unused (lo + d) (hi + d)).
Proof.
  intros Hl Hh w a w' [] [= <- <-]. split; cbn; try done. rewrite int32_id; lia.
Qed.

Lemma unused_weaken lo hi lo' hi' w : lo' <= lo -> hi <= hi' -> unused lo hi w -> unused lo' hi' w.
Proof. intros ?? []. split; try done; lia. Qed.

Lemma open_counts_twice lo hi :
  0 <= lo -> hi + 2 < 2 ^ 31 ->
  triple (unused lo hi) nf2u_open (fun r w => True /\ unused (if r =? 0 then lo + 2 else lo) (hi + 2) w).
Proof.
  intros Hl Hh. apply (triple_interruptible (fun _ => True) (fun r => if r =? 0 then lo + 2 else lo));
    [done|intros w; apply unused_weaken; unfold ERESTARTSYS; simpl; lia|].
  eapply triple_bind; [apply stays_get|]. intros c.
  eapply triple_bind; [apply (count_moves 1); lia|]. intros [].
  eapply (triple_bind _ _ (fun _ => unused (lo + 1) (hi + 1))).
  - assert (forall m : U Z, stays m -> triple (unused (lo + 1) (hi + 1)) m (fun _ => unused (lo + 1) (hi + 1)))
      as Hk by auto. apply Hk. stay.
  - intros err. destruct (Z.eqb_spec err 0) as [->|He]; cbn [negb].
    + eapply triple_bind; [apply (count_moves 1); lia|]. intros [] w r w' H [= <- <-].
      split; [done|]. simpl. eapply unused_weaken; [| |exact H]; lia.
    + intros w r w' H [= <- <-]. split; [done|]. destruct (Z.eqb_spec err 0); [done|].
      eapply unused_weaken; [| |exact H]; lia.
Qed.

Lemma release_keeps_irq lo hi :
  2 <= lo -> hi < 2 ^ 31 ->
  triple (unused lo hi) nf2u_release (fun r w => True /\ unused (lo - 2) hi w).
Proof.
  intros Hl Hh. apply (triple_interruptible (fun _ => True) (fun _ => lo - 2));
    [done|intros w; apply unused_weaken; unfold ERESTARTSYS; simpl; lia|].
  eapply triple_bind; [apply (count_moves (-1)); lia|]. intros [].
  intros w r w' H E. pose proof (unused_count _ _ _ H) as Hc.
  unfold mbind at 1, U_bind at 1, uget in E. destruct (Z.eqb_spec (u_open_count (uw_card w)) 0); [lia|].
  injection E as <- <-. split; [done|]. eapply unused_weaken; [| |exact H]; lia.
Qed.

(** ** A session *)

Definition in_session (n files : Z) : uworld -> Prop := unused (2 * files) (2 * n).

Definition nothing_read (n : Z) (r : Z * bytes) (w : uworld) : Prop :=
  r.2 = [] /\ 0 <= r.1 /\ in_session n r.1 w.

Lemma triple_result {A} n files (m : U A) (r : A -> Z * bytes) lo :
  triple (in_session n files) m (fun a w => (r a).2 = [] /\ unused (lo a) (2 * (n + 1)) w) ->
  (forall a, 0 <= (r a).1 /\ 2 * (r a).1 <= lo a) ->
  triple (in_session n files) (a ← m; mret (r a)) (nothing_read (n + 1)).
Proof.
  intros Hm Hr. eapply triple_bind; [exact Hm|]. intros a w b w' [Hd H] [= <- <-].
  destruct (Hr a). split; [done|split; [done|]]. eapply unused_weaken; [| |exact H]; lia.
Qed.

Lemma triple_kept {A} n files (m : U A) (r : A -> Z * bytes) :
  0 <= files -> stays m -> (forall a, r a = (files, [])) ->
  triple (in_session n files) (a ← m; mret (r a)) (nothing_read (n + 1)).
Proof.
  intros Hf Hm Hr. apply (triple_result _ _ _ _ (fun _ => 2 * files)).
  - intros w a w' H E. rewrite Hr. split; [done|].
    eapply unused_weaken; [| |exact (Hm _ _ w a w' H E)]; lia.
  - intros a. rewrite Hr. simpl. lia.
Qed.

Lemma call_reads_nothing op n files :
  0 <= files -> 0 <= n -> n + 1 < 2 ^ 30 ->
  triple (in_session n files) (call_of op files) (nothing_read (n + 1)).
Proof.
  intros Hf Hn Hlt. destruct op as [| |c nb|b c nb| |cmd rq|]; simpl.
  - apply (triple_result _ _ _ _ (fun r => if r =? 0 then 2 * files + 2 else 2 * files)).
    + eapply triple_mono; [apply (open_counts_twice (2 * files) (2 * n)); lia|done|].
      intros r w [_ H]. split; [done|]. by replace (2 * (n + 1)) with (2 * n + 2) by lia.
    + intros r. simpl. case_match; lia.
  - destruct (Z.leb_spec files 0).
    + intros w r w' H' [= <- <-]. split; [done|split; [done|]]. eapply unused_weaken; [| |exact H'];
        simpl; lia.
    + apply (triple_result _ _ _ _ (fun _ => 2 * files - 2)); [|simpl; lia].
      eapply triple_mono; [apply (release_keeps_irq (2 * files) (2 * n)); lia|done|].
      intros r w [_ H']. split; [done|]. eapply unused_weaken; [| |exact H']; lia.
  - apply (triple_result _ _ _ _ (fun _ => 2 * files)); [|simpl; lia].
    eapply triple_mono; [apply (read_gets_nothing c nb (2 * files) (2 * n))|done|].
    intros r w [Hr H]. split; [by destruct r|]. eapply unused_weaken; [| |exact H]; lia.
  - by apply triple_kept; [|apply stays_nf2u_write|].
  - by apply triple_kept; [|apply stays_poll|].
  - by apply triple_kept; [|apply stays_ioctl|].
  - by apply triple_kept; [|apply stays_intr|].
Qed.

Lemma session_reads_nothing ops n files :
  0 <= files -> 0 <= n -> n + Z.of_nat (length ops) < 2 ^ 30 ->
  triple (in_session n files) (calls_of ops files) (nothing_read (n + Z.of_nat (length ops))).
Proof.
  revert n files. induction ops as [|op ops IH]; intros n files Hf Hn Hlt.
  - intros w r w' H [= <- <-]. simpl. rewrite Z.add_0_r. done.
  - cbn [calls_of length] in *. eapply triple_bind; [apply call_reads_nothing; lia|].
    intros [f1 d1] w r w' (Hd & Hf1 & H) E. simpl in *. subst d1.
    unfold mbind, U_bind in E. destruct (calls_of ops f1 w) as [[r1 w1]|] eqn:E1; [|done].
    injection E as <- <-. destruct (IH (n + 1) f1 Hf1 ltac:(lia) ltac:(lia) w r1 w1 H E1) as (? & ? & Hi).
    split; [done|split; [done|]]. eapply unused_weaken; [| |exact Hi]; simpl; lia.
Qed.

(** The device does nothing. From the state the probe leaves, any sequence of calls
    and interrupts that does not end in an oops has read no byte, handed no buffer to
    the card and never given the interrupt back: opening counts twice, reading has
    no position to read from, and nothing calls the function that sends. *)
Theorem device_does_nothing ops w r w' :
  Z.of_nat (length ops) < 2 ^ 30 ->
  uw_trace w = [] -> never_sent (uw_env w) ->
  u_rx_buf_rd_pos (uw_card w) = None -> u_open_count (uw_card w) = 0 ->
  calls_of ops 0 w = Some (r, w') ->
  r.2 = [] /\ Forall is_idle (uw_trace w') /\
  2 * r.1 <= u_open_count (uw_card w') <= 2 * Z.of_nat (length ops).
Proof.
  intros Hl Ht He Hp Hc E.
  assert (in_session 0 0 w) as Hi by (split; rewrite ?Ht, ?Hc; done).
  destruct (session_reads_nothing ops 0 0 ltac:(lia) ltac:(lia) ltac:(lia) w r w' Hi E)
    as (Hd & _ & [Htr _ _ Hcount]). auto.
Qed.
End Session.

(** ** The pool *)

Section Pool.
Variables (rx_pool_size : Z) (memory : nat -> bytes).

(** The cells up to the [p]-th: each points to the one before it, the first to itself. *)
Definition chained (p : nat) (c : user_card) : Prop :=
  forall i, (i <= p)%nat -> exists k, u_cells c !! i = Some k /\ up_next k = pred i.

Definition with_card (c : user_card) (w : uworld) : uworld :=
  mk_uworld c (uw_trace w) (uw_tick w) (uw_env w).

Lemma destroy_oops fuel m p w :
  (1 <= m)%nat -> (p <= m)%nat -> u_ppool (uw_card w) = Some m ->
  chained p (uw_card w) \/ u_cells (uw_card w) !! p = None ->
  destroy_cells fuel p w = None.
Proof.
  revert p w. induction fuel as [|fuel IH]; intros p w Hm Hp Hpool Hc; [done|].
  unfold destroy_cells; fold destroy_cells. unfold mbind, U_bind, uget, udef.
  destruct Hc as [Hc|Hc]; [|by rewrite Hc].
  destruct (Hc p ltac:(lia)) as (k & Hk & Hn). rewrite Hk. cbn. rewrite Hn.
  rewrite bool_decide_false by (rewrite Hpool; intros [= ?]; lia).
  apply IH; [done|lia|done|]. unfold chained. cbn [uw_card u_cells set_u_cells].
  destruct p as [|p]; [right; apply lookup_delete_eq|left].
  intros i Hi. simpl in Hi. destruct (Hc i ltac:(lia)) as (k' & ? & ?).
  exists k'. by rewrite lookup_delete_ne by lia.
Qed.

Lemma create_chained n i w :
  (forall t, ke_alloc_fails (uw_env w) t = false) ->
  match i with O => True | S j => u_ppool (uw_card w) = Some j /\ chained j (uw_card w) end ->
  (0 < n + i)%nat ->
  exists w', create_cells memory n i w = Some (true, w') /\
    u_ppool (uw_card w') = Some (pred (n + i)) /\ chained (pred (n + i)) (uw_card w').
Proof.
  revert i w. induction n as [|n IH]; intros i w Ha Hi Hpos.
  - exists w. destruct i as [|j]; [lia|]. done.
  - cbn. unfold mbind, U_bind, uask, uget, mret, U_ret, udef. rewrite Ha.
    assert (forall next, next = pred i -> exists w', create_cells memory n (S i)
      (mk_uworld (set_u_ppool (Some i) (set_u_cells (<[i := mk_upacket next 0 (memory i)]>
        (u_cells (uw_card w))) (uw_card w))) (uw_trace w) (S (uw_tick w)) (uw_env w)) = Some (true, w') /\
      u_ppool (uw_card w') = Some (n + i)%nat /\ chained (n + i) (uw_card w')) as H.
    { intros next ->. replace (n + i)%nat with (pred (n + S i)) by lia. apply IH; [done| |lia].
      split; [done|]. intros x Hx. cbn [uw_card u_cells set_u_cells set_u_ppool].
      destruct (decide (x = i)) as [->|].
      - eexists. by rewrite lookup_insert_eq.
      - rewrite lookup_insert_ne by lia. destruct i as [|j]; [lia|].
        destruct Hi as [_ Hi]. apply Hi. lia. }
    destruct i as [|j]; cbn.
    + by apply H.
    + destruct Hi as [-> _]. by apply H.
Qed.

(** The pool of two cells or more is made, and freeing it follows the pointer of a
    cell already freed: the last cell points to itself and not to the newest, so the
    loop never meets the cell it started from. *)
Theorem pool_cannot_be_freed w :
  1 <= rx_pool_size -> (forall t, ke_alloc_fails (uw_env w) t = false) ->
  exists w', nf2u_create_pool rx_pool_size memory w = Some (0, w') /\
    nf2u_destroy_pool w' = None.
Proof.
  intros Hs Ha. unfold nf2u_create_pool.
  destruct (create_chained (Z.to_nat (rx_pool_size + 1)) 0 w Ha I ltac:(lia)) as (w1 & E & Hp & Hc).
  rewrite Nat.add_0_r in Hp, Hc. unfold mbind, U_bind. rewrite E. cbn. eexists. split; [reflexivity|].
  unfold nf2u_destroy_pool, mbind, U_bind, uget, udef.
  cbn [uw_card u_ppool u_cells set_u_rd_pool set_u_wr_pool umod]. rewrite Hp.
  rewrite destroy_oops with (m := pred (Z.to_nat (rx_pool_size + 1))); try done; [lia|by left].
Qed.
End Pool.

(** ** Reading and writing, call by call *)

(** The first read of a packet oopses: the position it reads from was never set. *)
Lemma first_read_oopses n nb w :
  ke_interrupted (uw_env w) (uw_tick w) = false ->
  u_rx_rd_pos (uw_card w) <> u_rx_wr_pos (uw_card w) -> u_rx_buf_rd_pos (uw_card w) = None ->
  nf2u_read n nb w = None.
Proof.
  intros Hi Hd Hp. unfold nf2u_read, interruptible, mbind, U_bind, uask. rewrite Hi. cbn.
  destruct (Z.eqb_spec (u_rx_rd_pos (uw_card w)) (u_rx_wr_pos (uw_card w))); [done|].
  unfold u_cell, mbind, U_bind, uget, udef. cbn.
  destruct (u_rd_pool (uw_card w)) as [l|]; [|done]. cbn.
  destruct (u_cells (uw_card w) !! l); [|done]. cbn. by rewrite Hp.
Qed.

(** A write that succeeds reports all its bytes and copies the first two, those of
    the length: the packet itself stays in the memory of the user. *)
Theorem write_copies_two_bytes tx_pool_size buf count nb len tb w :
  let slot := Z.to_nat (u_wr_txbuff (uw_card w)) in
  ke_interrupted (uw_env w) (uw_tick w) = false ->
  (forall t, ke_copy_fails (uw_env w) t = false) ->
  u_free_txbuffs (uw_card w) <> 0 ->
  get16 buf 0 = Some len -> len + 2 <= Z.min count (MAX_DMA_LEN + 2) ->
  u_txbuff (uw_card w) !! slot = Some tb -> (2 <= length (ut_buff tb))%nat ->
  exists w', nf2u_write tx_pool_size buf count nb w = Some (Returned (len + 2) [], w') /\
    u_txbuff (uw_card w') =
      <[slot := mk_utx (take 2 buf ++ drop 2 (ut_buff tb)) len]> (u_txbuff (uw_card w)) /\
    u_wr_txbuff (uw_card w') = (u_wr_txbuff (uw_card w) + 1) mod tx_pool_size /\
    u_free_txbuffs (uw_card w') = u_free_txbuffs (uw_card w) - 1.
Proof.
  intros slot Hi Hf Hfree Hlen Hcount Htb Hb.
  assert (put_range (ut_buff tb) 0 (take 2 buf) = Some (take 2 buf ++ drop 2 (ut_buff tb))) as Hput.
  { destruct buf as [|a [|b buf]]; [done..|]. unfold put_range. simpl.
    by destruct (ut_buff tb) as [|x [|y l]]; simpl in *; [lia..|]. }
  unfold nf2u_write, interruptible, mbind, U_bind, uask. rewrite Hi. cbn.
  destruct (Z.eqb_spec (u_free_txbuffs (uw_card w)) 0); [done|].
  rewrite Hlen, Hf. destruct (Z.ltb_spec (Z.min count (MAX_DMA_LEN + 2)) (len + 2)); [lia|].
  unfold udef. fold slot. rewrite Htb. cbn. rewrite Hf, Hput. cbn. eexists. split; [reflexivity|].
  cbn. by rewrite list_insert_insert_eq.
Qed.

(** ** Concrete runs *)

(** A card whose registers read 0, and on which everything else succeeds. *)
Definition quiet_env : kenv :=
  mk_kenv (fun _ _ => 0) (fun _ => 0) (fun _ => false) (fun _ => 4096) (fun _ => false)
    (fun _ => false) (fun _ => false) (fun _ => []) 0.

Definition unprobed : uworld :=
  mk_uworld (mk_user true 7 0 0 None ∅ None None None [] 0 0 0 0 0 0 0) [] 0 quiet_env.

(** Probed with two buffers and two cells to spare. *)
Definition probe_it : U Z := nf2u_probe 2 2 (fun _ => [0; 0; 0; 0; 0; 0]) 1 0.

Definition probed : uworld :=
  match probe_it unprobed with
  | Some (_, w) => mk_uworld (uw_card w) [] 0 (uw_env w)
  | None => unprobed
  end.

Definition some_calls : list user_op :=
  [UOpen; UWrite [2; 0; 7; 8] 4 true; UOpen; UPoll; UIntr; URead 100 true; URelease; URelease].

(** The device is probed, opened twice, written to and closed twice. It ends with two
    uses of the device counted, and the packet still in its buffer, of which it has
    the length alone. *)
Lemma device_does_nothing_run :
  (fst <$> probe_it unprobed) = Some 0 /\
  exists w', calls_of 2 some_calls 0 probed = Some ((0, []), w') /\
    u_open_count (uw_card w') = 2 /\ u_free_txbuffs (uw_card w') = 1 /\
    u_txbuff (uw_card w') = [mk_utx [2; 0; 0; 0; 0; 0] 2; mk_utx [0; 0; 0; 0; 0; 0] 0] /\
    Forall is_idle (uw_trace w').
Proof.
  split; [by vm_compute|]. eexists. split; [by vm_compute|]. do 3 (split; [by vm_compute|]).
  refine (proj1 (proj2 (device_does_nothing 2 some_calls probed (0, []) _ _ _ _ _ _ _)));
    by vm_compute.
Qed.

(** Probing succeeds, and removing the device oopses. *)
Lemma removal_oopses : nf2u_remove probed = None.
Proof. by vm_compute. Qed.
